(* ===== verification/_CoqProject ===== *)
-Q . S2P
Prelude.v
GoStrings.v
GoFloat.v
GoTime.v
GoLocation.v
GoRegex.v
Netip.v
NetAddr.v
WorkerModel.v
WorkerJob.v
WorkerEvidence.v
Dispatcher.v
Sql.v
WorkerStore.v
WorkerJobMachine.v
WorkerStoreSafety.v
WorkerEvidenceStore.v
WorkerDispatch.v
WorkerExamples.v
WorkerIdentity.v
WorkerIdentitySafety.v
WorkerService.v
WorkerServiceSafety.v
WorkerServiceExamples.v
WorkerOutbox.v
WorkerOutboxSafety.v
WorkerClient.v
WorkerExecutor.v
WorkerClientExamples.v
NetworkPolicy.v
AgentModule.v
RelayWindow.v
RelayWindowSafety.v
AgentUpdate.v
EndpointModel.v
EndpointStore.v
ModuleCatalog.v
EndpointService.v
EndpointAdmin.v
EndpointMachine.v
EndpointSafety.v
EndpointInvariant.v
EndpointIdentity.v
EndpointIntegrity.v
EndpointOffers.v
EndpointExamples.v
RelayQueue.v
RelayQueueSafety.v
RelayFailover.v
RelayTelemetry.v
RelayRouteExamples.v
UserStore.v
ScanModel.v
ScanScope.v
ScanScopeSafety.v
AssetStore.v
AssetSafety.v
IdentitySecrets.v
UserService.v
UserSafety.v
UserGuarantees.v
UserLogin.v
UserExamples.v
ScanStore.v
ScanStoreSafety.v
ScanStoreExamples.v
ScanPolicyStore.v
ScanSchedule.v
ScanEngine.v
ScanAdmin.v
ScanScheduleSafety.v
Intelligence.v
CheckDefinition.v
CheckCatalog.v
IntelligenceSafety.v
CheckSafety.v
IntelligenceExamples.v
ScanEngineSafety.v
ScanEngineLiveness.v
ScanEngineExamples.v
