(* ===== verification/Prelude.v ===== *)
(** * Mossward: a verified model of its distributed scanning core

    Mossward is a self-hosted vulnerability scanner written in Go. A server
    plans and schedules scans, runs them itself or hands them, as signed jobs, to
    scanner workers at remote sites, and keeps what they found with an inventory
    of assets; endpoint agents report through relays that store and forward
    their frames; people sign in with passwords, second factors, passkeys or an
    identity provider. This library models the parts of the program that decide
    what is scanned, by whom, how often, what of it is believed and who may
    administer it, and proves that they keep their promises. Paths below are
    relative to src/.

    ** The program's parts and the files that model them

    Foundations, shared by everything below:
    - [Prelude]: Go's error results and their monads ([result], [st]), machine
      integers ([wrap64], [wrapu64], ...), sorting ([sort_slice], that is
      sort.Slice), loops with early return ([for_each]), and the tactics and
      lemmas on lists the components share.
    - [GoStrings], [GoFloat], [GoTime], [GoLocation], [GoRegex], [Netip],
      [NetAddr]: the parts of Go's strings, strconv, float64, time, regexp, net
      and net/netip the code calls, as executable definitions with the lemmas
      their callers need.
    - [Sql]: the fragment of SQL the stores use, on tables as lists of rows.

    Scans, server side:
    - [ScanModel]: the records of internal/model/model.go and asset_group.go.
    - [ScanScope], [ScanScopeSafety]: the scope policies of
      internal/scanner/scanner.go and the expansion of a request's targets.
    - [AssetStore], [AssetSafety]: internal/store/asset.go, asset_service.go,
      asset_merge.go and endpoint_coverage.go: the inventory scans feed.
    - [ScanStore], [ScanStoreSafety]: the scan tables of
      internal/store/sqlite.go, finding_workflow.go and reporting.go.
    - [ScanPolicyStore]: internal/store/scope_policy.go and asset_group.go.
    - [ScanSchedule], [ScanScheduleSafety]: internal/scheduling (schedule.go,
      runner.go) and internal/scanlaunch/service.go.
    - [ScanEngine], [ScanEngineSafety], [ScanEngineLiveness]: the engine of
      internal/scanner/scanner.go, its queue, runs, workers, cancellation and
      shutdown; the second also the launcher over the scan store and the
      dispatcher's job store together.
    - [ScanAdmin]: the requests of internal/api (api.go, scope_policy.go,
      asset_group.go, asset.go, finding.go, reporting.go) that change the above.

    Scanner workers, server side:
    - [WorkerModel]: the records of internal/model/worker.go, worker_job.go and
      worker_evidence.go.
    - [WorkerJob]: internal/workerjob/validate.go and signer.go, what a job's
      signed envelope must satisfy before it is dispatched, leased or executed.
    - [WorkerEvidence]: internal/workerevidence, what a batch of evidence must
      satisfy.
    - [Dispatcher]: internal/workerjob/dispatcher.go, the choice of a worker,
      against the class of stores it needs.
    - [WorkerStore]: internal/store/worker_job.go, worker_job_lease.go,
      worker_job_renewal.go, worker_reassignment.go, worker_dead_letter.go,
      worker_result.go, worker_evidence.go and worker_projection.go, one
      definition per transaction over the record [Db] of tables.
    - [WorkerJobMachine], [WorkerStoreSafety], [WorkerEvidenceStore]: a job's
      life as a transition system, the simulation of every transaction by it,
      and the contract of the store.
    - [WorkerDispatch]: the store as an instance of the dispatcher's interface,
      and what dispatching and reassigning over it guarantee.
    - [WorkerIdentity], [WorkerIdentitySafety]: internal/agentidentity/worker.go,
      the connection checks of agentidentity/service.go and
      internal/store/worker.go: tokens, enrollment, heartbeats, revocation and
      the fleet view.
    - [WorkerService], [WorkerServiceSafety]: the four requests of a worker
      (agentidentity/worker_poll.go, worker_lease.go, worker_evidence.go and
      worker_result.go) over the identities and the job store together.

    Endpoint agents, server side:
    - [EndpointModel]: internal/model/endpoint.go, maintenance.go,
      agent_update.go and the stores' rows.
    - [NetworkPolicy]: internal/networkpolicy, the exclusions of destinations.
    - [RelayWindow], [RelayWindowSafety]: internal/relaywindow and
      internal/relayheartbeat: upload windows, the connection gate, suppression
      of alerts and the resolution of delayed-heartbeat policies, over the time
      zones of [GoLocation].
    - [AgentModule], [ModuleCatalog]: internal/agentmodule (manifest.go,
      package.go, catalog.go, declarative.go), internal/agentmodulecatalog and
      internal/store/agent_module.go.
    - [AgentUpdate], and [ModuleCatalog] again: internal/agentupdate
      (manifest.go, version.go), internal/agentupdatecatalog,
      internal/store/agent_update.go and agent_update_assignment.go.
    - [EndpointStore]: internal/store/endpoint.go and the endpoint_*.go files
      beside it, over the record [EndpointDb] of tables.
    - [EndpointService]: internal/agentidentity/service.go: enrollment, renewal,
      revocation, collector and exclusion policies, the check-in handler and
      the endpoint list with its alerts.
    - [EndpointAdmin]: the administrator's requests of internal/api/endpoint.go
      on thresholds, windows and policies.
    - [EndpointMachine]: every operation above as one machine [run_endpoint_op];
      [EndpointSafety], [EndpointInvariant], [EndpointIdentity],
      [EndpointIntegrity], [EndpointOffers]: its invariant and what it
      guarantees.

    Vulnerabilities and checks:
    - [Intelligence], [IntelligenceSafety]: internal/intelligence (version.go,
      nvd.go), internal/store/intelligence.go and endpoint_cve.go: advisories,
      their synchronisation, and what they match, over the record [VulnDb].
    - [CheckDefinition]: internal/checkdefinition, declarative checks: format,
      signature and the evaluators for HTTP, SSH and TLS.
    - [CheckCatalog], [CheckSafety]: internal/checkcatalog, internal/checkpolicy,
      internal/store/check_catalog.go and check_policy.go.

    Scanner workers, client side (internal/workerclient):
    - [WorkerOutbox], [WorkerOutboxSafety]: outbox.go and backpressure.go.
    - [WorkerClient]: replay_ledger.go, verify_claim.go,
      retry.go and the outcome of a leased job in runtime.go.
    - [WorkerExecutor]: executor.go, its goroutines as a
      step relation.

    Relays (internal/relaytransport):
    - [RelayQueue], [RelayQueueSafety]: protocol.go and queue.go.
    - [RelayFailover]: failover.go.
    - [RelayTelemetry]: telemetry.go.

    User accounts:
    - [UserStore]: internal/model/identity.go and internal/store/identity.go,
      users.go, auth_policy.go, ceremony.go, oidc.go, webauthn.go and
      identity_rotation.go, one definition per transaction over the record
      [UserDb] of tables.
    - [IdentitySecrets]: internal/auth/password.go and secretbox.go, with the
      base64 and the scanning of numbers they use.
    - [UserService]: internal/auth/service.go, users.go, policy.go, oidc.go and
      webauthn.go over [ServiceState], and the requests of
      internal/api/identity.go behind their gate: [serve] answers one, and
      [run_server] runs any sequence of requests and restarts.
    - [UserSafety], [UserGuarantees], [UserLogin]: every request as a sequence of
      the store's statements ([db_step]), the invariant, and what the accounts
      guarantee.

    The files named ...Examples run the definitions on concrete data: they hold
    the witnesses that the theorems' hypotheses are satisfiable.

    ** How state and operations correspond

    A method that changes state is a function [st S A], from the state to a
    result and the new state, with the same guards in the same order; on an
    error it returns the state the code leaves behind (a rolled-back
    transaction returns the old one; maintenance that was committed first is
    kept). A mutex or a database transaction makes a call one step, so runs are
    lists of operations ([store_op], [identity_op], [queue_op], ...) and the
    theorems quantify over all of them. The executor and the scan engine are the
    exceptions: their goroutines interleave, and [exec_step] has one rule and
    [engine_step] one event per communication, critical section or store call
    (a store call that directly follows one belongs to its event).
    Go's int and int64 are [Z] with their wrap-around written where the code can
    reach it; times are nanoseconds since the Unix epoch; columns that hold
    timestamps hold the text [formatTime] writes, since SQL compares the text.

    ** What the theorems show

    - Scans: an admitted request stays inside its scope policy; every interleaving
      of the engine makes each check once and a completed scan has made them
      all; whatever is accepted comes to an end; a launch happens only inside the
      policy's window and once at a time; a remote launch creates exactly one job
      with the scan's targets. The stores: a saved scan reads back, recovery and
      retention do exactly what they promise, and the inventory reflects the
      latest scan and survives merges. Six theorems exhibit behaviour the
      documentation does not promise ([environment_networks_not_capped],
      [workflow_lost_at_next_save], [cancel_overwrites_completed],
      [padded_window_never_closes], [never_firing_schedule_always_due],
      [restarted_remote_scan_fails]).
    - The job store: every reachable database is well formed; finished jobs never
      change; a running lease is exclusive to its holder; leasing takes the oldest
      job; results are accepted once, with the evidence they need. Evidence is
      numbered without gaps and no probe is checkpointed twice. One theorem
      ([aliased_checkpoints_complete_job]) exhibits a job that completes although
      a target was never checked.
    - Signing, validation and dispatch: what a verified job and an accepted batch
      guarantee; the dispatcher returns the best eligible worker and never
      oversubscribes one; a resumed job keeps its checkpoints and gets a new worker.
    - Timestamps: the stored text orders whole seconds, and not fractions
      ([stored_time_subsecond_inversion]).
    - Identities: the inventory's invariant, single-use tokens, final revocation,
      and agreement of the fleet view with dispatch.
    - Requests of workers: over any run of the server, a job that succeeded was
      checked everywhere; a worker's requests touch only its own jobs; a refused
      request changes nothing.
    - Endpoint agents: the invariant of the endpoint tables over every operation;
      a token enrolls once and a revocation is final; an agent's requests touch
      only its own rows; what is stored of a check-in was allowed by the
      administrator's collectors and exclusions; the log of integrity changes is
      complete and every snapshot was signed; updates and modules are offered
      exactly when approved, assigned and applicable; the alerts of the endpoint
      list are the documented ones. The gate calls the server only inside an
      approved window, and alerts are suppressed for the documented grace.
      Four theorems exhibit behaviour the documentation does not promise
      ([far_clock_drift_allowed], [mapped_ipv4_not_excluded],
      [build_metadata_refused], [prerelease_text_order]).
    - Vulnerabilities: over any run of feed pages and inventories, the matches
      stored for the endpoints are exactly those of the advisories' ranges;
      versions are totally ordered and ranges are intervals; the
      synchronisation ends and reports what it read. Three theorems exhibit
      unintended behaviour ([overlapping_ranges_break_save],
      [debian_epoch_misread], [escaped_colon_splits]).
    - Declarative checks: what is signed verifies; an evaluation passes exactly
      when each rule holds; the catalog keeps verified versions only, one of
      them active, and asks for the approval of a rollback, but for versions
      with leading zeros ([rollback_without_approval]). Two more theorems exhibit
      rules that do not do what they say ([only_header_values_refused],
      [padded_header_accepted]).
    - The client: the outbox refines a bounded queue; a job is claimed once
      (and so a job leased again to its worker is reported failed,
      [leased_again_reported_failed]); every interleaving of the executor emits
      each pending check once, in gapless sequence, and ends; the retry delay and
      the reported pressure are exact and bounded.
    - Accounts: over any run of the server the tables stay well formed, an active
      administrator with a password remains, setup happens once, a second factor
      and an invitation are accepted once; a login checked both factors, a change
      of access takes effect at once, administration needs a recent second
      factor, a provider's claims give exactly the role its mappings say,
      password guesses are bounded whatever addresses they come from, and the
      rotation of the identity key loses no secret at any point. Three
      theorems exhibit behaviour the code hardly intends
      ([throttle_read_failure_allows], [ipv6_loopback_refused],
      [unverified_address_takes_invitation]).
    - Relays: the queue's bounds, order, exclusive claims and retention; the
      failover controller's choices; the monitor's health and signed reports.

    ** Bounds and fuel

    The few functions that are not structural carry fuel that their lemmas show
    is enough: the retry delay's doubling takes at most 64 steps (it stops when
    it passes the limit, and 2^64 exceeds every int64); an IPv6 address has at
    most 8 groups and its text at most 9 fields; a range of addresses stops at the
    target limit, so its loop takes at most four iterations more than the limit
    ([expansion_total]); 20 digits write every 64-bit
    integer. Hypotheses such as [0 <= x <= 2 ^ 62] on counters and loads keep
    Go's additions from wrapping; the code does not check them, and they are far
    beyond what the stores can hold.

    ** What is not modelled

    Cryptography (Ed25519, ECDSA, AES-GCM, SHA-256, Argon2), JSON, certificates,
    one-time codes, OpenID Connect, WebAuthn and random draws are parameters: classes of operations with their documented laws, which
    the Examples files instantiate. So are the time-zone database ([TimeZones]),
    Unicode case mapping ([LowerCase], [CaseFolding]), the name service
    ([LookupHost]), the hash of asset identifiers ([Sum256]), cron expressions
    ([ParseStandard]), SQLite's julianday ([julian_seconds]) and the delivery of
    alerts. What a probe finds is an argument of the engine's events. Files, sockets, HTTP
    routing, command lines and the web interface are input and output around this
    core. Database failures are not modelled, only constraint violations; audit
    rows are kept only for accounts. In the endpoint tables times are kept as [Time], since
    the text stored reads back as the same instant, the members of a group are
    set as a whole, and the outcome of matching threat indicators is an argument;
    the stores of scans and endpoints take the outcome of matching
    vulnerabilities as one too, which [Intelligence] computes. The PostgreSQL store, notifications, backups and
    the probes themselves are outside the library. *)
From Stdlib Require Import ZArith Lia String Ascii.
From stdpp Require Import base tactics list strings gmap sets sorting.

#[global] Set Default Proof Using "Type".
Open Scope Z_scope.

(** * Errors *)

(** An error value is the message the code builds with [errors.New] or
    [fmt.Errorf]; a sentinel error is a message with a name of its own. *)
Definition error := string.

(** What a Go function with a trailing [error] result returns. *)
Inductive result (A : Type) : Type :=
| Ok (a : A)
| Err (e : error).
Arguments Ok {A} a.
Arguments Err {A} e.

#[export] Instance result_ret : MRet result := fun A => @Ok A.
#[export] Instance result_bind : MBind result := fun A B f m =>
  match m with Ok a => f a | Err e => Err e end.
#[export] Instance result_fmap : FMap result := fun A B f m =>
  match m with Ok a => Ok (f a) | Err e => Err e end.
#[export] Instance error_eq_dec : EqDecision error.
Proof. unfold error. apply _. Defined.
#[export] Instance result_eq_dec `{EqDecision A} : EqDecision (result A).
Proof. solve_decision. Defined.

Declare Scope mossward_scope.
Delimit Scope mossward_scope with mossward.
(** An early return: [reject c as e ;; k] is the code's
    [if c { return e }; k]. *)
Notation "'reject' c 'as' e ;; k" := (if c then Err e else k)
  (at level 100, c at next level, e at next level, k at level 200, right associativity) : mossward_scope.
(** A call whose error is returned as it is: [if err := m; err != nil]. *)
Notation "'try' m ;; k" := (match m with Ok _ => k | Err e => Err e end)
  (at level 100, m at next level, k at level 200, right associativity) : mossward_scope.
Open Scope mossward_scope.

Definition is_ok {A} (r : result A) : bool :=
  match r with Ok _ => true | Err _ => false end.

Lemma bind_ok {A B} (m : result A) (f : A -> result B) b :
  m ≫= f = Ok b <-> exists a, m = Ok a /\ f a = Ok b.
Proof. destruct m; simpl; naive_solver. Qed.

Lemma bind_err {A B} (m : result A) (f : A -> result B) e :
  m ≫= f = Err e <-> m = Err e \/ exists a, m = Ok a /\ f a = Err e.
Proof. destruct m; simpl; naive_solver. Qed.

Lemma try_ok {A B} (m : result A) (k : result B) b :
  (try m ;; k) = Ok b <-> is_ok m = true /\ k = Ok b.
Proof. destruct m; simpl; naive_solver. Qed.

Lemma reject_ok {B} (c : bool) e (k : result B) b :
  (reject c as e ;; k) = Ok b <-> c = false /\ k = Ok b.
Proof. destruct c; naive_solver. Qed.

(** * Machine integers *)

Definition int64_min : Z := - 2 ^ 63.
Definition int64_max : Z := 2 ^ 63 - 1.
Definition int64_range (z : Z) : Prop := int64_min <= z <= int64_max.
(** Two's complement wrap-around of Go's [int64] (and [int] on 64 bits). *)
Definition wrap64 (z : Z) : Z := (z + 2 ^ 63) mod 2 ^ 64 - 2 ^ 63.
(** Wrap-around of Go's [uint64]. *)
Definition wrapu64 (z : Z) : Z := z mod 2 ^ 64.
Definition uint64_range (z : Z) : Prop := 0 <= z < 2 ^ 64.
(** Conversion to [uint16]. *)
Definition wrapu16 (z : Z) : Z := z mod 2 ^ 16.

Lemma wrap64_id z : int64_range z -> wrap64 z = z.
Proof. unfold int64_range, int64_min, int64_max, wrap64. intros H. rewrite Z.mod_small; lia. Qed.

Lemma wrap64_range z : int64_range (wrap64 z).
Proof.
  unfold int64_range, int64_min, int64_max, wrap64.
  pose proof (Z.mod_pos_bound (z + 2 ^ 63) (2 ^ 64) ltac:(lia)). lia.
Qed.

Lemma wrapu64_id z : uint64_range z -> wrapu64 z = z.
Proof. unfold uint64_range, wrapu64. intros H. apply Z.mod_small; lia. Qed.

Lemma wrapu64_range z : uint64_range (wrapu64 z).
Proof. unfold uint64_range, wrapu64. apply Z.mod_pos_bound; lia. Qed.

Lemma wrapu16_id z : 0 <= z < 65536 -> wrapu16 z = z.
Proof. unfold wrapu16. intros H. apply Z.mod_small; lia. Qed.

Lemma int64_range_small z : - 2 ^ 62 <= z <= 2 ^ 62 -> int64_range z.
Proof. unfold int64_range, int64_min, int64_max. lia. Qed.

Create HintDb go.
#[export] Hint Resolve wrap64_range wrapu64_range : go.

(** * Tactics *)

(** Splits the hypothesis that a chain of early returns gave [Ok]. *)
Ltac inv_ok H :=
  repeat first
    [ discriminate H
    | rewrite bind_ok in H; destruct H as (? & ? & H)
    | rewrite try_ok in H; destruct H as (? & H)
    | rewrite reject_ok in H; destruct H as (? & H) ];
  simplify_eq.

(** Case analysis on the innermost [if] or [match] of the goal or of [H]. *)
Ltac case_if :=
  match goal with
  | |- context [if ?b then _ else _] =>
      let E := fresh "E" in destruct b eqn:E
  end.
Ltac case_if_in H :=
  match type of H with
  | context [if ?b then _ else _] => let E := fresh "E" in destruct b eqn:E
  end.

(** Boolean reflection: turns boolean connectives into propositions. *)
Ltac reflect_bools :=
  repeat match goal with
  | H : (_ && _)%bool = true |- _ => apply andb_true_iff in H as [??]
  | H : (_ || _)%bool = false |- _ => apply orb_false_iff in H as [??]
  | H : negb _ = true |- _ => apply negb_true_iff in H
  | H : negb _ = false |- _ => apply negb_false_iff in H
  | H : (_ =? _) = true |- _ => apply Z.eqb_eq in H
  | H : (_ =? _) = false |- _ => apply Z.eqb_neq in H
  | H : (_ <? _) = true |- _ => apply Z.ltb_lt in H
  | H : (_ <? _) = false |- _ => apply Z.ltb_ge in H
  | H : (_ <=? _) = true |- _ => apply Z.leb_le in H
  | H : (_ <=? _) = false |- _ => apply Z.leb_gt in H
  | H : bool_decide _ = true |- _ => apply bool_decide_eq_true in H
  | H : bool_decide _ = false |- _ => apply bool_decide_eq_false in H
  end.

(** * Exhaustive checks of a finite range of integers *)

(** [check_range f k z] evaluates [f] on the [2 ^ k] integers from [z]. *)
Fixpoint check_range (f : Z -> bool) (k : nat) (z : Z) : bool :=
  match k with
  | O => f z
  | S k' => check_range f k' z && check_range f k' (z + 2 ^ Z.of_nat k')
  end.

Lemma check_range_spec f k z :
  check_range f k z = true -> forall i, z <= i < z + 2 ^ Z.of_nat k -> f i = true.
Proof.
  revert z. induction k as [|k IH]; intros z; cbn [check_range].
  - intros H i Hi. change (2 ^ Z.of_nat 0) with 1 in Hi. replace i with z by lia. done.
  - rewrite andb_true_iff. intros [H1 H2] i Hi.
    rewrite Nat2Z.inj_succ, Z.pow_succ_r in Hi by lia.
    destruct (decide (i < z + 2 ^ Z.of_nat k)).
    + eapply IH; [exact H1|lia].
    + eapply IH; [exact H2|lia].
Qed.

(** * Loops *)

(** [for _, x := range l { ... }] with early returns: the body takes the
    variables it updates and returns them, or the error to return. *)
Fixpoint for_each {S A} (body : S -> A -> result S) (st : S) (l : list A) : result S :=
  match l with
  | [] => Ok st
  | x :: l' => st' ← body st x; for_each body st' l'
  end.

Lemma for_each_app {S A} (body : S -> A -> result S) st l1 l2 :
  for_each body st (l1 ++ l2) = st' ← for_each body st l1; for_each body st' l2.
Proof.
  revert st. induction l1 as [|x l1 IH]; intros st; [done|]. simpl.
  destruct (body st x); simpl; [apply IH|done].
Qed.

(** The loop that rejects duplicates: the code's [seen] map. *)
Section distinct.
Context {A K : Type} `{Countable K}.
Context (body : gset K -> A -> result (gset K)) (ok : A -> bool) (key : A -> K) (err : error).
Context (Hbody : forall seen x,
  body seen x = if ok x && bool_decide (key x ∉ seen) then Ok ({[ key x ]} ∪ seen) else Err err).

Lemma for_each_distinct seen l :
  match for_each body seen l with
  | Ok seen' => Forall (fun x => ok x = true) l /\ NoDup (key <$> l) /\
                Forall (fun x => key x ∉ seen) l /\ seen' = list_to_set (key <$> l) ∪ seen
  | Err e => e = err /\
             ~ (Forall (fun x => ok x = true) l /\ NoDup (key <$> l) /\ Forall (fun x => key x ∉ seen) l)
  end.
Proof using Hbody.
  revert seen. induction l as [|x l IH]; intros seen; simpl.
  { repeat split; try constructor. set_solver. }
  rewrite Hbody. destruct (ok x) eqn:Ex; simpl.
  2: { split; [done|]. intros (Hf & _). inversion Hf; congruence. }
  case_bool_decide as Hin; simpl.
  2: { split; [done|]. intros (_ & _ & Hf). by inversion Hf. }
  specialize (IH ({[ key x ]} ∪ seen)). destruct (for_each body _ l).
  - destruct IH as (Hok & Hnd & Hf & ->). rewrite Forall_forall in Hf. split_and!.
    + by constructor.
    + constructor; [|done]. rewrite list_elem_of_fmap. intros (y & Ey & Hy). specialize (Hf y Hy). set_solver.
    + constructor; [done|]. apply Forall_forall. intros y Hy. specialize (Hf y Hy). set_solver.
    + set_solver.
  - destruct IH as [-> Hn]. split; [done|].
    intros ([_ Hok]%Forall_cons & [Hx Hnd]%NoDup_cons & [_ Hf]%Forall_cons). apply Hn.
    split_and!; [done..|]. apply Forall_forall. intros y Hy. rewrite Forall_forall in Hf. specialize (Hf y Hy).
    assert (key y <> key x) by (intros E; apply Hx; rewrite <- E; by apply list_elem_of_fmap_2). set_solver.
Qed.

Lemma for_each_distinct_ok l :
  is_ok (for_each body ∅ l) = true <-> Forall (fun x => ok x = true) l /\ NoDup (key <$> l).
Proof using Hbody.
  pose proof (for_each_distinct ∅ l) as L. destruct (for_each body ∅ l); simpl.
  - naive_solver.
  - split; [done|]. intros [??]. destruct L as [_ L]. exfalso. apply L. split_and!; try done.
    apply Forall_forall. set_solver.
Qed.
End distinct.

Lemma NoDup_filter_key {A K} (key : A -> K) p (l : list A) : NoDup (key <$> l) -> NoDup (key <$> List.filter p l).
Proof.
  induction l as [|x l IH]; [done|]. rewrite fmap_cons. intros [Hn Hnd]%NoDup_cons. simpl. destruct (p x); [|by apply IH].
  rewrite fmap_cons. constructor; [|by apply IH]. intros (y & E & Hy)%list_elem_of_fmap. apply Hn, list_elem_of_fmap. exists y.
  split; [done|]. apply list_elem_of_In, filter_In in Hy as [Hy _]. by apply list_elem_of_In.
Qed.


(** * Sorting *)

(** [sort.Slice(l, less)]: an insertion sort (the library's own choice on short
    slices). The clients' theorems use only that the outcome is an ordered
    permutation. *)
Section sort_slice.
Context {A : Type} (less : A -> A -> bool).

Fixpoint insert_slice (x : A) (l : list A) : list A :=
  match l with
  | [] => [x]
  | y :: l' => if less x y then x :: y :: l' else y :: insert_slice x l'
  end.
Definition sort_slice (l : list A) : list A := fold_left (fun acc x => insert_slice x acc) l [].

Lemma insert_slice_perm x l : insert_slice x l ≡ₚ x :: l.
Proof. induction l as [|y l IH]; simpl; [done|]. destruct (less x y); [done|]. rewrite IH. apply Permutation_swap. Qed.

Lemma sort_slice_perm l : sort_slice l ≡ₚ l.
Proof.
  unfold sort_slice. enough (forall acc, fold_left (fun acc x => insert_slice x acc) l acc ≡ₚ l ++ acc) as G
    by (rewrite G; by rewrite app_nil_r).
  induction l as [|x l IH]; intros acc; simpl; [done|].
  rewrite IH, insert_slice_perm. by rewrite Permutation_middle.
Qed.

Lemma sort_slice_nil l : sort_slice l = [] <-> l = [].
Proof.
  split; [|by intros ->]. intros E. pose proof (sort_slice_perm l) as P. rewrite E in P.
  by apply Permutation_nil in P.
Qed.

Lemma elem_of_sort_slice x l : x ∈ sort_slice l <-> x ∈ l.
Proof. by rewrite sort_slice_perm. Qed.

(** [less] as a strict weak order. *)
Class StrictWeak : Prop := {
  less_asym : forall x y, less x y = true -> less y x = false;
  less_ntrans : forall x y z, less y x = false -> less z y = false -> less z x = false }.
Context {SW : StrictWeak}.

(** Every element is at most the ones after it. *)
Definition ordered (l : list A) : Prop := StronglySorted (fun x y => less y x = false) l.

Lemma insert_slice_ordered x l : ordered l -> ordered (insert_slice x l).
Proof using SW.
  induction 1 as [|y l Hs IH Hy]; simpl; [repeat constructor|].
  destruct (less x y) eqn:E.
  - constructor; [by constructor|]. constructor; [by apply less_asym|].
    eapply Forall_impl; [exact Hy|]. intros z Hz. eapply less_ntrans; [|exact Hz]. by apply less_asym.
  - constructor; [done|]. apply Forall_forall. intros z. rewrite insert_slice_perm.
    intros [->|Hz]%elem_of_cons; [done|]. rewrite Forall_forall in Hy. by apply Hy.
Qed.

Lemma sort_slice_ordered l : ordered (sort_slice l).
Proof using SW.
  unfold sort_slice. enough (forall acc, ordered acc -> ordered (fold_left (fun acc x => insert_slice x acc) l acc)) as G
    by (apply G; constructor).
  induction l as [|x l IH]; intros acc Hacc; simpl; [done|]. by apply IH, insert_slice_ordered.
Qed.

Lemma sort_slice_head l x l' : sort_slice l = x :: l' -> x ∈ l /\ forall y, y ∈ l -> less y x = false.
Proof using SW.
  intros E. pose proof (sort_slice_ordered l) as Ho. rewrite E in Ho. inversion Ho as [|?? _ Hf]; subst.
  rewrite Forall_forall in Hf. setoid_rewrite <- elem_of_sort_slice. rewrite E. split; [by left|].
  intros y [->|Hy]%elem_of_cons; [|by apply Hf].
  destruct (less x x) eqn:Ex; [|done]. pose proof (less_asym _ _ Ex). congruence.
Qed.
End sort_slice.

(** * Stateful calls *)

(** A method on a mutable receiver of state [S]: it returns a value or an
    error and leaves a state. *)
Definition st (S A : Type) : Type := S -> result A * S.
Definition st_ret {S A} (a : A) : st S A := fun s => (Ok a, s).
Definition st_err {S A} (e : error) : st S A := fun s => (Err e, s).
Definition st_bind {S A B} (m : st S A) (f : A -> st S B) : st S B := fun s =>
  match m s with
  | (Ok a, s') => f a s'
  | (Err e, s') => (Err e, s')
  end.
Definition st_lift {S A} (r : result A) : st S A := fun s => (r, s).
(** A call that reads the state. *)
Definition st_read {S A} (f : S -> result A) : st S A := fun s => (f s, s).
Notation "x ⇐ m ;; k" := (st_bind m (fun x => k)) (at level 100, m at next level, k at level 200, right associativity) : mossward_scope.
