(* ===== verification/GoStrings.v ===== *)
(** Go strings: byte-wise ordering (as used by [<] on strings, by SQLite's
    BINARY collation and by [sort.Strings]), decimal digits, and the functions
    of package [strings] and [strconv] the modelled code calls. *)
From Stdlib Require Import ZArith Lia String Ascii.
From stdpp Require Import base tactics list strings.
From S2P Require Import Prelude.
Open Scope Z_scope.

(** * Byte order *)

Definition byte_val (a : ascii) : Z := Z.of_N (N_of_ascii a).

Lemma byte_val_inj a b : byte_val a = byte_val b -> a = b.
Proof.
  unfold byte_val. intros H%N2Z.inj.
  by rewrite <- (ascii_N_embedding a), H, ascii_N_embedding.
Qed.

Lemma byte_val_bound a : 0 <= byte_val a < 256.
Proof. unfold byte_val. pose proof (N_ascii_bounded a). lia. Qed.

Fixpoint str_ltb (s t : string) : bool :=
  match s, t with
  | _, EmptyString => false
  | EmptyString, String _ _ => true
  | String a s', String b t' =>
      (byte_val a <? byte_val b) || ((byte_val a =? byte_val b) && str_ltb s' t')
  end.
Definition str_leb (s t : string) : bool := negb (str_ltb t s).
Definition str_lt (s t : string) : Prop := str_ltb s t = true.

Lemma str_ltb_cons a s b t :
  str_ltb (String a s) (String b t) = true <->
  byte_val a < byte_val b \/ (a = b /\ str_ltb s t = true).
Proof.
  simpl. rewrite orb_true_iff, andb_true_iff, Z.ltb_lt, Z.eqb_eq. split.
  - intros [?|[?%byte_val_inj ?]]; auto.
  - intros [?|[-> ?]]; auto.
Qed.

Lemma str_ltb_irrefl s : str_ltb s s = false.
Proof. induction s as [|a s IH]; simpl; [done|]. by rewrite Z.ltb_irrefl, Z.eqb_refl, IH. Qed.

Lemma str_ltb_trans s t u : str_ltb s t = true -> str_ltb t u = true -> str_ltb s u = true.
Proof.
  revert t u. induction s as [|a s IH]; intros [|b t] [|c u]; try done.
  rewrite !str_ltb_cons. intros [?|[-> ?]] [?|[-> ?]]; eauto; left; lia.
Qed.

Lemma str_trichotomy s t : str_ltb s t = true \/ s = t \/ str_ltb t s = true.
Proof.
  revert t. induction s as [|a s IH]; intros [|b t]; try (by auto).
  rewrite !str_ltb_cons.
  destruct (Z.lt_trichotomy (byte_val a) (byte_val b)) as [?|[?%byte_val_inj|?]]; [by auto| |by auto].
  subst. destruct (IH t) as [?|[->|?]]; auto.
Qed.

Lemma str_ltb_asym s t : str_ltb s t = true -> str_ltb t s = false.
Proof.
  intros H. destruct (str_ltb t s) eqn:E; [|done].
  pose proof (str_ltb_trans _ _ _ H E) as C. by rewrite str_ltb_irrefl in C.
Qed.

Lemma str_leb_refl s : str_leb s s = true.
Proof. unfold str_leb. by rewrite str_ltb_irrefl. Qed.

Lemma str_leb_lt_or_eq s t : str_leb s t = true <-> str_ltb s t = true \/ s = t.
Proof.
  unfold str_leb. rewrite negb_true_iff. split.
  - intros H. destruct (str_trichotomy s t) as [?|[?|?]]; auto; congruence.
  - intros [H| ->]; [by apply str_ltb_asym|apply str_ltb_irrefl].
Qed.

Lemma str_leb_trans s t u : str_leb s t = true -> str_leb t u = true -> str_leb s u = true.
Proof.
  rewrite !str_leb_lt_or_eq. intros [?| ->] [?| ->]; eauto using str_ltb_trans.
Qed.

Lemma str_leb_ltb_trans s t u : str_leb s t = true -> str_ltb t u = true -> str_ltb s u = true.
Proof. rewrite str_leb_lt_or_eq. intros [?| ->]; eauto using str_ltb_trans. Qed.

Lemma str_ltb_leb_trans s t u : str_ltb s t = true -> str_leb t u = true -> str_ltb s u = true.
Proof. rewrite str_leb_lt_or_eq. intros ? [?| <-]; eauto using str_ltb_trans. Qed.

Lemma str_leb_total s t : str_leb s t = true \/ str_leb t s = true.
Proof.
  rewrite !str_leb_lt_or_eq. destruct (str_trichotomy s t) as [?|[?|?]]; auto.
Qed.

Lemma str_leb_antisym s t : str_leb s t = true -> str_leb t s = true -> s = t.
Proof.
  rewrite !str_leb_lt_or_eq. intros [H|?] [H'|?]; auto.
  pose proof (str_ltb_asym _ _ H). congruence.
Qed.

Lemma str_ltb_nle s t : str_ltb s t = false <-> str_leb t s = true.
Proof. unfold str_leb. by rewrite negb_true_iff. Qed.

(** Byte order as a [sort.Strings] order. *)
#[export] Instance str_ltb_weak : StrictWeak str_ltb.
Proof. split; [exact str_ltb_asym|]. intros x y z. rewrite !str_ltb_nle. intros ??. by eapply str_leb_trans. Qed.

#[export] Hint Resolve str_ltb_trans str_leb_trans str_leb_ltb_trans str_ltb_leb_trans str_leb_refl : go.

Lemma str_ltb_app_l p s t : str_ltb (p +:+ s) (p +:+ t) = str_ltb s t.
Proof.
  induction p as [|a p IH]; [done|].
  change (str_ltb (String a (p +:+ s)) (String a (p +:+ t)) = str_ltb s t). simpl.
  by rewrite Z.ltb_irrefl, Z.eqb_refl, IH.
Qed.

(** A strict difference in equally long prefixes decides the order. *)
Lemma str_ltb_app_prefix p q s t :
  String.length p = String.length q -> str_ltb p q = true -> str_ltb (p +:+ s) (q +:+ t) = true.
Proof.
  revert q. induction p as [|a p IH]; intros [|b q]; try done.
  intros [= Hl] H%str_ltb_cons. change (str_ltb (String a (p +:+ s)) (String b (q +:+ t)) = true).
  apply str_ltb_cons. destruct H as [?|[-> ?]]; eauto.
Qed.

(** * Decimal digits *)

Definition digit (n : Z) : ascii := ascii_of_N (Z.to_N (48 + n)).
Definition is_digit (a : ascii) : bool := (48 <=? byte_val a) && (byte_val a <=? 57).
Definition digit_val (a : ascii) : Z := byte_val a - 48.

Lemma byte_val_digit n : 0 <= n < 10 -> byte_val (digit n) = 48 + n.
Proof. intros. unfold byte_val, digit. rewrite N_ascii_embedding; lia. Qed.

Lemma digit_val_digit n : 0 <= n < 10 -> digit_val (digit n) = n.
Proof. intros. unfold digit_val. rewrite byte_val_digit; lia. Qed.

Lemma is_digit_digit n : 0 <= n < 10 -> is_digit (digit n) = true.
Proof. intros. unfold is_digit. rewrite byte_val_digit by done. apply andb_true_iff. lia. Qed.

(** [pad w n] is [n] in decimal on exactly [w] digits (Go's [%0*d]). *)
Fixpoint pad (w : nat) (n : Z) : string :=
  match w with
  | O => ""%string
  | S w' => pad w' (n / 10) +:+ String (digit (n mod 10)) ""
  end.

Lemma str_length_app s t : String.length (s +:+ t) = (String.length s + String.length t)%nat.
Proof. induction s as [|a s IH]; [done|]. change (S (String.length (s +:+ t)) = S (String.length s + String.length t)). by rewrite IH. Qed.

Lemma str_app_assoc (s t u : string) : (s +:+ t) +:+ u = s +:+ (t +:+ u).
Proof. induction s as [|a s IH]; [done|]. change (String a ((s +:+ t) +:+ u) = String a (s +:+ (t +:+ u))). by rewrite IH. Qed.

Lemma str_app_nil_r (s : string) : s +:+ "" = s.
Proof. induction s as [|a s IH]; [done|]. change (String a (s +:+ "") = String a s). by rewrite IH. Qed.

Lemma str_app_nil_l (s : string) : "" +:+ s = s.
Proof. done. Qed.

Lemma str_app_cons a (s t : string) : String a s +:+ t = String a (s +:+ t).
Proof. done. Qed.

Lemma pad_length w n : String.length (pad w n) = w.
Proof. revert n. induction w as [|w IH]; intros n; [done|]. cbn [pad]. rewrite str_length_app, IH. simpl. lia. Qed.

Lemma pad_lt w a b : 0 <= a -> a < b -> b < 10 ^ Z.of_nat w -> str_ltb (pad w a) (pad w b) = true.
Proof.
  revert a b. induction w as [|w IH]; intros a b Ha Hab Hb.
  { change (10 ^ Z.of_nat 0) with 1 in Hb. lia. }
  cbn [pad]. rewrite Nat2Z.inj_succ, Z.pow_succ_r in Hb by lia.
  pose proof (Z.mod_pos_bound a 10 ltac:(lia)). pose proof (Z.mod_pos_bound b 10 ltac:(lia)).
  pose proof (Z.div_mod a 10 ltac:(lia)). pose proof (Z.div_mod b 10 ltac:(lia)).
  destruct (decide (a / 10 = b / 10)) as [E|E].
  - rewrite E, str_ltb_app_l. apply str_ltb_cons. left. rewrite !byte_val_digit by lia. lia.
  - apply str_ltb_app_prefix; [by rewrite !pad_length|]. apply IH; [apply Z.div_pos; lia|lia|].
    apply Z.div_lt_upper_bound; lia.
Qed.

(** Reads a run of digits most significant first; [None] when a byte is not a digit. *)
Fixpoint read_digits (acc : Z) (s : string) : option Z :=
  match s with
  | EmptyString => Some acc
  | String a s' => if is_digit a then read_digits (acc * 10 + digit_val a) s' else None
  end.

Lemma read_digits_app acc s t :
  read_digits acc (s +:+ t) = x ← read_digits acc s; read_digits x t.
Proof.
  revert acc. induction s as [|a s IH]; intros acc; [done|].
  change (read_digits acc (String a (s +:+ t)) = x ← read_digits acc (String a s); read_digits x t).
  simpl. destruct (is_digit a); [apply IH|done].
Qed.

Lemma read_digits_pad w n acc :
  0 <= n < 10 ^ Z.of_nat w -> read_digits acc (pad w n) = Some (acc * 10 ^ Z.of_nat w + n).
Proof.
  revert n acc. induction w as [|w IH]; intros n acc Hn.
  { change (10 ^ Z.of_nat 0) with 1 in *. simpl. f_equal. lia. }
  rewrite Nat2Z.inj_succ, Z.pow_succ_r in * by lia. cbn [pad].
  pose proof (Z.mod_pos_bound n 10 ltac:(lia)). pose proof (Z.div_mod n 10 ltac:(lia)).
  rewrite read_digits_app, IH by (split; [apply Z.div_pos; lia|apply Z.div_lt_upper_bound; lia]).
  simpl. rewrite is_digit_digit, digit_val_digit by lia. f_equal. lia.
Qed.

(** * Functions of package [strings] and [strconv] *)

(** [len(s)], in bytes. *)
Definition strlen (s : string) : Z := Z.of_nat (String.length s).

Fixpoint has_prefix (p s : string) : bool :=
  match p, s with
  | EmptyString, _ => true
  | String a p', String b s' => Ascii.eqb a b && has_prefix p' s'
  | String _ _, EmptyString => false
  end.
Fixpoint drop_str (n : nat) (s : string) : string :=
  match n, s with
  | O, _ => s
  | S n', String _ s' => drop_str n' s'
  | S _, EmptyString => ""
  end.
(** [strings.TrimPrefix(s, p)] *)
Definition TrimPrefix (s p : string) : string := if has_prefix p s then drop_str (String.length p) s else s.

Fixpoint str_rev_app (s acc : string) : string :=
  match s with EmptyString => acc | String a s' => str_rev_app s' (String a acc) end.
Definition str_rev (s : string) : string := str_rev_app s "".

Definition bytes_str (l : list N) : string := fold_right (fun n s => String (ascii_of_N n) s) ""%string l.
(** UTF-8 encodings of the Unicode white space [strings.TrimSpace] removes. *)
Definition spaces : list string :=
  bytes_str <$> ([[9]; [10]; [11]; [12]; [13]; [32]; [194; 133]; [194; 160]; [225; 154; 128]; [226; 128; 168]; [226; 128; 169];
                 [226; 128; 175]; [226; 129; 159]; [227; 128; 128]] ++
                 ((fun n => [226; 128; n]) <$> [128; 129; 130; 131; 132; 133; 134; 135; 136; 137; 138]))%N.

Definition trim_one (table : list string) (s : string) : option string :=
  match List.find (fun p => has_prefix p s) table with
  | Some p => Some (drop_str (String.length p) s)
  | None => None
  end.
Fixpoint trim_left (fuel : nat) (table : list string) (s : string) : string :=
  match fuel with
  | O => s
  | S f => match trim_one table s with Some s' => trim_left f table s' | None => s end
  end.
Definition TrimSpace (s : string) : string :=
  let s1 := trim_left (String.length s) spaces s in
  str_rev (trim_left (String.length s1) (str_rev <$> spaces) (str_rev s1)).
(** [strings.TrimSpace(s) == ""] *)
Definition blank (s : string) : bool := bool_decide (TrimSpace s = ""%string).

Example TrimSpace_ex : TrimSpace (bytes_str [32; 194; 160; 97; 32; 98; 226; 128; 137; 10])%N = "a b"%string.
Proof. reflexivity. Qed.
Example blank_ex : blank (bytes_str [9; 227; 128; 128])%N = true.
Proof. reflexivity. Qed.

(** [hex.DecodeString(s)]: the number of bytes, when every digit is valid and their number is even. *)
Definition is_hex (a : ascii) : bool :=
  let c := byte_val a in
  ((48 <=? c) && (c <=? 57)) || ((97 <=? c) && (c <=? 102)) || ((65 <=? c) && (c <=? 70)).
Fixpoint str_forall (p : ascii -> bool) (s : string) : bool :=
  match s with EmptyString => true | String a s' => p a && str_forall p s' end.
Definition hex_decoded_length (s : string) : option Z :=
  if str_forall is_hex s && (strlen s mod 2 =? 0) then Some (strlen s / 2) else None.

(** [strconv.ParseInt(s, 10, 64)] *)
Definition ParseInt64 (s : string) : option Z :=
  let '(negative, digits) :=
    match s with
    | String "+"%char s' => (false, s')
    | String "-"%char s' => (true, s')
    | _ => (false, s)
    end in
  match digits with
  | EmptyString => None
  | _ =>
      match read_digits 0 digits with
      | None => None
      | Some n =>
          let n := if negative then - n else n in
          if (int64_min <=? n) && (n <=? int64_max) then Some n else None
      end
  end.

(** [strings.ToLower]. ASCII letters, and the two other letters whose lower case
    is ASCII: U+0130 becomes i and U+212A (the Kelvin sign) becomes k. Any
    other rune keeps a non-ASCII form, which is all the callers depend on, and
    is left as it is. *)
Definition lower_byte (a : ascii) : ascii :=
  if (65 <=? byte_val a) && (byte_val a <=? 90) then ascii_of_N (Z.to_N (byte_val a + 32)) else a.
Fixpoint ToLower (s : string) : string :=
  match s with
  | EmptyString => EmptyString
  | String a s' =>
      match s' with
      | String b s2 =>
          if (byte_val a =? 196) && (byte_val b =? 176) then String "i" (ToLower s2)
          else match s2 with
          | String c s3 =>
              if (byte_val a =? 226) && (byte_val b =? 132) && (byte_val c =? 170) then String "k" (ToLower s3)
              else String (lower_byte a) (ToLower s')
          | EmptyString => String (lower_byte a) (ToLower s')
          end
      | EmptyString => String (lower_byte a) EmptyString
      end
  end.
Example ToLower_ex : ToLower (bytes_str [226; 132; 170; 65; 122; 196; 176])%N = "kazi"%string.
Proof. reflexivity. Qed.
