(* ===== verification/GoFloat.v ===== *)
(** Go's [float64] on non-negative values: rounding of a ratio of integers to
    53 bits, nearest and ties to even, and what it preserves. *)
From Stdlib Require Import ZArith Lia.
From stdpp Require Import base tactics.
From S2P Require Import Prelude.
Open Scope Z_scope.

(** The integer nearest to [n / d], ties to even. *)
Definition round_even (n d : Z) : Z :=
  let q := n / d in let r := n mod d in
  if 2 * r <? d then q else if d <? 2 * r then q + 1 else if Z.even q then q else q + 1.

(** The power of two at or below [n / d]. *)
Definition ratio_log2 (n d : Z) : Z :=
  let k := Z.log2 n - Z.log2 d in
  if d * 2 ^ Z.max 0 k <=? n * 2 ^ Z.max 0 (- k) then k else k - 1.

(** The [float64] nearest to [n / d], as mantissa and exponent of two. *)
Definition float_of_ratio (n d : Z) : Z * Z :=
  if n =? 0 then (0, 0) else
  let e := ratio_log2 n d - 52 in
  (round_even (n * 2 ^ Z.max 0 (- e)) (d * 2 ^ Z.max 0 e), e).

(** Its value as a fraction. *)
Definition float_num (f : Z * Z) : Z := f.1 * 2 ^ Z.max 0 f.2.
Definition float_den (f : Z * Z) : Z := 2 ^ Z.max 0 (- f.2).
(** [math.Ceil] *)
Definition float_ceil (f : Z * Z) : Z := - (- float_num f / float_den f).

Lemma round_even_le n d K : 0 < d -> n <= K * d -> round_even n d <= K.
Proof.
  intros Hd Hn. unfold round_even. pose proof (Z.div_mod n d). pose proof (Z.mod_pos_bound n d Hd).
  repeat case_if; nia.
Qed.

Lemma round_even_ge n d K : 0 < d -> K * d <= n -> K <= round_even n d.
Proof.
  intros Hd Hn. unfold round_even. pose proof (Z.div_le_lower_bound n d K Hd). repeat case_if; nia.
Qed.

Lemma round_even_gt n d K : 0 < d -> (2 * K + 1) * d < 2 * n -> K < round_even n d.
Proof.
  intros Hd Hn. unfold round_even. pose proof (Z.div_mod n d). pose proof (Z.mod_pos_bound n d Hd).
  repeat case_if; reflect_bools; nia.
Qed.

Lemma round_even_exact N d : 0 < d -> round_even (N * d) d = N.
Proof. intros Hd. pose proof (round_even_le (N * d) d N Hd). pose proof (round_even_ge (N * d) d N Hd). lia. Qed.

Lemma ratio_log2_spec n d : 0 < n -> 0 < d ->
  let k := ratio_log2 n d in d * 2 ^ Z.max 0 k <= n * 2 ^ Z.max 0 (- k).
Proof.
  intros Hn Hd. unfold ratio_log2. cbv zeta. case_if; [by apply Z.leb_le|]. clear E.
  pose proof (Z.log2_spec n Hn) as [Ln _]. pose proof (Z.log2_spec d Hd) as [_ Ud].
  pose proof (Z.log2_nonneg n). pose proof (Z.log2_nonneg d).
  set (a := Z.log2 n) in *. set (b := Z.log2 d) in *. rewrite <- Z.add_1_r in Ud.
  destruct (Z.le_gt_cases 0 (a - b - 1)).
  - rewrite (Z.max_r 0 (a - b - 1)), (Z.max_l 0 (- _)) by lia. rewrite Z.pow_0_r, Z.mul_1_r.
    assert (2 ^ a = 2 ^ (b + 1) * 2 ^ (a - b - 1)) by (rewrite <- Z.pow_add_r by lia; f_equal; lia).
    assert (0 < 2 ^ (a - b - 1)) by (apply Z.pow_pos_nonneg; lia). nia.
  - rewrite (Z.max_l 0 (a - b - 1)), (Z.max_r 0 (- _)) by lia. rewrite Z.pow_0_r, Z.mul_1_r.
    assert (2 ^ (b + 1) = 2 ^ a * 2 ^ (- (a - b - 1))) by (rewrite <- Z.pow_add_r by lia; f_equal; lia).
    assert (0 < 2 ^ (- (a - b - 1))) by (apply Z.pow_pos_nonneg; lia). nia.
Qed.

Lemma ratio_log2_lt n d j : 0 < n -> 0 < d -> 0 <= j -> n < d * 2 ^ j -> ratio_log2 n d < j.
Proof.
  intros Hn Hd Hj Hlt. pose proof (ratio_log2_spec n d Hn Hd) as S. cbv zeta in S.
  destruct (Z.lt_ge_cases (ratio_log2 n d) j) as [|Hge]; [done|]. exfalso.
  rewrite (Z.max_r 0 (ratio_log2 n d)), (Z.max_l 0 (- _)), Z.pow_0_r, Z.mul_1_r in S by lia.
  assert (2 ^ j <= 2 ^ ratio_log2 n d) by (apply Z.pow_le_mono_r; lia). nia.
Qed.

(** An integer below 2^53 is a [float64]. *)
Lemma float_of_int N d : 0 < N < 2 ^ 53 -> 0 < d ->
  let f := float_of_ratio (N * d) d in float_num f = N * float_den f /\ 0 < float_den f.
Proof.
  intros HN Hd. cbv zeta. unfold float_of_ratio, float_num, float_den. rewrite (proj2 (Z.eqb_neq _ 0)) by lia. simpl.
  assert (Hk : ratio_log2 (N * d) d < 53) by (apply ratio_log2_lt; nia).
  set (e := ratio_log2 (N * d) d - 52) in *. rewrite (Z.max_l 0 e) by lia. rewrite Z.pow_0_r, !Z.mul_1_r.
  assert (0 < 2 ^ Z.max 0 (- e)) by (apply Z.pow_pos_nonneg; lia). split; [|done].
  replace (N * d * 2 ^ Z.max 0 (- e)) with (N * 2 ^ Z.max 0 (- e) * d) by ring. by rewrite round_even_exact.
Qed.

(** Rounding up after the division: exact against every bound up to 100, for
    ratios of integers with a denominator below 2^46. *)
Lemma float_ceil_ratio_le n d S K : 0 < n -> 0 < d < 2 ^ 46 -> 0 < S -> 0 <= K <= 100 ->
  float_ceil (float_of_ratio (n * S) (d * S)) <= K <-> n <= K * d.
Proof.
  intros Hn Hd HS HK. unfold float_ceil, float_of_ratio, float_num, float_den.
  rewrite (proj2 (Z.eqb_neq _ 0)) by nia. cbn [fst snd].
  set (k := ratio_log2 (n * S) (d * S)). set (m := round_even _ _).
  assert (C : forall num den, 0 < den -> - (- num / den) <= K <-> num <= K * den).
  { intros num den Hden. split; intros L.
    - pose proof (Z.mul_div_le (- num) den Hden). nia.
    - pose proof (Z.div_le_lower_bound (- num) den (- K) Hden). nia. }
  assert (Hp : 0 < 2 ^ Z.max 0 (- (k - 52))) by (apply Z.pow_pos_nonneg; lia). rewrite C by done. clear C.
  destruct (Z.lt_ge_cases n ((K + 1) * d)) as [Hlt|Hge].
  - assert (Hk : k < 7) by (apply ratio_log2_lt; change (2 ^ 7) with 128; nia).
    assert (Em : m = round_even (n * S * 2 ^ (- (k - 52))) (d * S))
      by (unfold m; by rewrite (Z.max_l 0 (k - 52)), (Z.max_r 0 (- (k - 52))), Z.pow_0_r, Z.mul_1_r by lia).
    rewrite (Z.max_l 0 (k - 52)), (Z.max_r 0 (- (k - 52))), Z.pow_0_r, Z.mul_1_r, Em by lia. clear m Em Hp.
    set (P := 2 ^ (- (k - 52))) in *.
    assert (HP : 2 ^ 46 <= P) by (apply Z.pow_le_mono_r; lia).
    split; intros L.
    + destruct (Z.le_gt_cases n (K * d)) as [|Hgt]; [done|]. exfalso.
      assert (K * P < round_even (n * S * P) (d * S)); [|lia]. apply round_even_gt; [nia|].
      replace (2 * (n * S * P)) with (2 * P * n * S) by ring.
      replace ((2 * (K * P) + 1) * (d * S)) with ((2 * P * (K * d) + d) * S) by ring.
      apply Z.mul_lt_mono_pos_r; [done|]. nia.
    + apply round_even_le; [nia|]. replace (n * S * P) with (n * (S * P)) by ring.
      replace (K * P * (d * S)) with (K * d * (S * P)) by ring. apply Z.mul_le_mono_nonneg_r; nia.
  - split; intros L; [|nia]. exfalso.
    destruct (Z.le_gt_cases (k - 52) 0) as [He|He].
    + assert (Em : m = round_even (n * S * 2 ^ Z.max 0 (- (k - 52))) (d * S))
        by (unfold m; by rewrite (Z.max_l 0 (k - 52)), Z.pow_0_r, Z.mul_1_r by lia).
      rewrite (Z.max_l 0 (k - 52)), Z.pow_0_r, Z.mul_1_r, Em in L by lia. clear m Em.
      set (P := 2 ^ Z.max 0 (- (k - 52))) in *.
      assert ((K + 1) * P <= round_even (n * S * P) (d * S)); [|nia]. apply round_even_ge; [nia|].
      replace ((K + 1) * P * (d * S)) with ((K + 1) * d * (S * P)) by ring.
      replace (n * S * P) with (n * (S * P)) by ring. apply Z.mul_le_mono_nonneg_r; nia.
    + pose proof (ratio_log2_spec (n * S) (d * S) ltac:(nia) ltac:(nia)) as Sp. cbv zeta in Sp. fold k in Sp.
      rewrite (Z.max_r 0 k), (Z.max_l 0 (- k)), Z.pow_0_r, Z.mul_1_r in Sp by lia.
      assert (Em : m = round_even (n * S) (d * S * 2 ^ (k - 52)))
        by (unfold m; by rewrite (Z.max_r 0 (k - 52)), (Z.max_l 0 (- (k - 52))), Z.pow_0_r, Z.mul_1_r by lia).
      rewrite (Z.max_r 0 (k - 52)), (Z.max_l 0 (- (k - 52))), Z.pow_0_r, Z.mul_1_r, Em in L by lia. clear m Em.
      assert (2 ^ 52 <= round_even (n * S) (d * S * 2 ^ (k - 52))).
      { apply round_even_ge; [apply Z.mul_pos_pos; [nia|apply Z.pow_pos_nonneg; lia]|].
        assert (2 ^ k = 2 ^ 52 * 2 ^ (k - 52)) by (rewrite <- Z.pow_add_r by lia; f_equal; lia). nia. }
      assert (1 < 2 ^ (k - 52)) by (apply Z.pow_gt_1; lia). nia.
Qed.
