(* ===== verification/GoTime.v ===== *)
(** Go's [time] package as the modelled code uses it: instants and durations
    in nanoseconds, the proleptic Gregorian calendar in UTC, and the
    RFC 3339 text the stores write timestamps with. *)
From Stdlib Require Import ZArith Lia String Ascii.
From stdpp Require Import base tactics list strings.
From S2P Require Import Prelude GoStrings GoFloat.
Open Scope Z_scope.

(** * Instants and durations *)

(** A [time.Time], as nanoseconds since 1970-01-01T00:00:00Z; its location
    does not enter comparisons, differences or the UTC text. *)
Definition Time := Z.
(** A [time.Duration]: nanoseconds in an [int64]. *)
Definition Duration := Z.

#[export] Instance Time_eq_dec : EqDecision Time := Z.eq_dec.

Definition Nanosecond : Duration := 1.
Definition Microsecond : Duration := 1000.
Definition Millisecond : Duration := 1000000.
Definition Second : Duration := 1000000000.
Definition Minute : Duration := 60 * Second.
Definition Hour : Duration := 60 * Minute.

(** The zero [time.Time], January 1 of year 1. *)
Definition ZeroTime : Time := -62135596800 * Second.
Definition IsZero (t : Time) : bool := t =? ZeroTime.
Definition Before (t u : Time) : bool := t <? u.
Definition After (t u : Time) : bool := u <? t.
Definition Add (t : Time) (d : Duration) : Time := t + d.
(** [t.Sub u] saturates at the ends of [int64]. *)
Definition Sub (t u : Time) : Duration := Z.max int64_min (Z.min int64_max (t - u)).
(** [t.UnixNano()] wraps outside the years 1678 to 2262. *)
Definition UnixNano (t : Time) : Z := wrap64 t.
Definition Unix (t : Time) : Z := t / Second.

(** [int64(d.Seconds())] for [0 <= d]: the seconds are a [float64], the sum of
    the whole seconds and of the fraction divided by 1e9, each rounded, then
    truncated. *)
Definition truncated_seconds (d : Duration) : Z :=
  let sec := d / Second in
  let '(m1, e1) := float_of_ratio (d mod Second) Second in
  let scale := 2 ^ Z.max 0 (- e1) in
  let '(m, e) := float_of_ratio (sec * scale + m1) scale in
  m * 2 ^ Z.max 0 e / 2 ^ Z.max 0 (- e).

Lemma Sub_gt t u d : int64_range d -> (d <? Sub t u) = true <-> (d < t - u /\ d < int64_max).
Proof. unfold int64_range, Sub. rewrite Z.ltb_lt. lia. Qed.

Lemma Sub_small t u : int64_range (t - u) -> Sub t u = t - u.
Proof. unfold int64_range, Sub. lia. Qed.

(** * Calendar *)

(** Year and day of year of a day of the 400-year era that starts on March 1
    of year 0 (day 0): centuries, four-year groups, years. *)
Definition yd_of_doe (doe : Z) : Z * Z :=
  let c := doe / 36524 in let c := c - c / 4 in
  let r := doe - 36524 * c in
  let q := r / 1461 in
  let r := r - 1461 * q in
  let y := r / 365 in let y := y - y / 4 in
  (100 * c + 4 * q + y, r - 365 * y).

(** Month and day of a day of the year counted from March 1. *)
Definition md_of_doy (doy : Z) : Z * Z :=
  let mp := (5 * doy + 2) / 153 in
  ((if mp <? 10 then mp + 3 else mp - 9), doy - (153 * mp + 2) / 5 + 1).

(** Year, month and day of a day counted from 1970-01-01. *)
Definition civil_of_days (days : Z) : Z * Z * Z :=
  let z := days + 719468 in
  let '(yoe, doy) := yd_of_doe (z mod 146097) in
  let '(m, d) := md_of_doy doy in
  (yoe + 400 * (z / 146097) + (if m <=? 2 then 1 else 0), m, d).

Definition doy_of_md (m d : Z) : Z :=
  (153 * (if 2 <? m then m - 3 else m + 9) + 2) / 5 + d - 1.

Definition days_of_civil (y m d : Z) : Z :=
  let y' := if m <=? 2 then y - 1 else y in
  let yoe := y' mod 400 in
  (y' / 400) * 146097 + (365 * yoe + yoe / 4 - yoe / 100 + doy_of_md m d) - 719468.

Definition is_leap (y : Z) : bool := (y mod 4 =? 0) && (negb (y mod 100 =? 0) || (y mod 400 =? 0)).
Definition days_in_month (y m : Z) : Z :=
  if m =? 2 then (if is_leap y then 29 else 28)
  else if (m =? 4) || (m =? 6) || (m =? 9) || (m =? 11) then 30 else 31.

(** Dates as one integer, in calendar order. *)
Definition date_key (c : Z * Z * Z) : Z := let '(y, m, d) := c in y * 10000 + m * 100 + d.

(** The part of [date_key] that depends on the day of the year. *)
Definition doy_key (doy : Z) : Z :=
  let '(m, d) := md_of_doy doy in (if m <=? 2 then 10000 else 0) + m * 100 + d.

Definition doy_check (doy : Z) : bool :=
  if 366 <=? doy then true else
  let '(m, d) := md_of_doy doy in
  (1 <=? m) && (m <=? 12) && (1 <=? d) &&
  (d <=? (if doy =? 365 then 29 else days_in_month 1 m)) &&
  (if doy =? 365 then m =? 2 else true) &&
  (doy_of_md m d =? doy) && (301 <=? doy_key doy) && (doy_key doy <=? 10229) &&
  (if doy =? 365 then true else doy_key doy <? doy_key (doy + 1)).

Lemma doy_checked doy : 0 <= doy < 366 -> doy_check doy = true.
Proof.
  intros H. apply (check_range_spec doy_check 9 0); [vm_compute; reflexivity|].
  change (2 ^ Z.of_nat 9) with 512. lia.
Qed.

(** The decomposition of a day of the era, and when it is a leap day. *)
Lemma yd_of_doe_spec doe : 0 <= doe < 146097 ->
  let '(yoe, doy) := yd_of_doe doe in
  0 <= yoe < 400 /\ 0 <= doy < 366 /\ doe = 365 * yoe + yoe / 4 - yoe / 100 + doy /\
  (doy = 365 -> is_leap (yoe + 1) = true).
Proof.
  intros H. unfold yd_of_doe. cbv beta iota zeta.
  set (c := doe / 36524 - doe / 36524 / 4). assert (Hc : 0 <= c <= 3 /\ 36524 * c <= doe /\
    (doe < 36524 * (c + 1) \/ c = 3 /\ doe = 146096)) by (subst c; Z.to_euclidean_division_equations; lia).
  set (r := doe - 36524 * c). set (q := r / 1461).
  assert (Hq : 0 <= q <= 24 /\ 1461 * q <= r < 1461 * (q + 1)) by (subst q r; Z.to_euclidean_division_equations; lia).
  set (r2 := r - 1461 * q). set (y := r2 / 365 - r2 / 365 / 4).
  assert (Hy : 0 <= y <= 3 /\ 365 * y <= r2 /\ (r2 < 365 * (y + 1) \/ y = 3 /\ r2 = 1460))
    by (subst y r2; Z.to_euclidean_division_equations; lia).
  assert (D4 : (100 * c + 4 * q + y) / 4 = 25 * c + q) by (symmetry; apply Z.div_unique with y; lia).
  assert (D100 : (100 * c + 4 * q + y) / 100 = c) by (symmetry; apply Z.div_unique with (4 * q + y); lia).
  split_and!; try lia.
  intros Hd. assert (Hy3 : y = 3 /\ r2 = 1460) by lia.
  unfold is_leap. apply andb_true_iff. rewrite orb_true_iff, negb_true_iff, !Z.eqb_eq, Z.eqb_neq.
  destruct Hy3 as [-> Hr2]. split; [Z.to_euclidean_division_equations; lia|].
  destruct (decide (q = 24)) as [Hq24|Hq24].
  - right. assert (c = 3) by (subst r2 r; lia). subst q. rewrite Hq24. subst c. Z.to_euclidean_division_equations; lia.
  - left. Z.to_euclidean_division_equations; lia.
Qed.

Lemma md_of_doy_spec doy : 0 <= doy < 366 ->
  let '(m, d) := md_of_doy doy in
  1 <= m <= 12 /\ 1 <= d /\ doy_of_md m d = doy /\ 301 <= doy_key doy <= 10229 /\
  d <= (if doy =? 365 then 29 else days_in_month 1 m) /\ (doy = 365 -> m = 2) /\
  (doy <> 365 -> doy_key doy < doy_key (doy + 1)).
Proof.
  intros H. pose proof (doy_checked doy H) as C. unfold doy_check in C.
  destruct (366 <=? doy) eqn:E; [lia|]. destruct (md_of_doy doy) as [m d].
  reflect_bools. split_and!; try lia.
  - intros ->. rewrite Z.eqb_refl in *. by apply Z.eqb_eq.
  - intros Hn%Z.eqb_neq. rewrite Hn in *. by apply Z.ltb_lt.
Qed.

Lemma doy_key_mono a b : 0 <= a -> a < b -> b < 366 -> doy_key a < doy_key b.
Proof.
  intros Ha Hab Hb. replace b with (a + 1 + Z.of_nat (Z.to_nat (b - a - 1))) in * by lia.
  induction (Z.to_nat (b - a - 1)) as [|n IH].
  - replace (a + 1 + Z.of_nat 0) with (a + 1) in * by lia.
    pose proof (md_of_doy_spec a ltac:(lia)) as S. destruct (md_of_doy a). apply S. lia.
  - etransitivity; [apply IH; lia|].
    pose proof (md_of_doy_spec (a + 1 + Z.of_nat n) ltac:(lia)) as M. destruct (md_of_doy _).
    replace (a + 1 + Z.of_nat (S n)) with (a + 1 + Z.of_nat n + 1) by lia. apply M. lia.
Qed.

(** The date of a day in terms of the era decomposition. *)
Lemma date_key_era days :
  let z := days + 719468 in
  let '(yoe, doy) := yd_of_doe (z mod 146097) in
  date_key (civil_of_days days) = (yoe + 400 * (z / 146097)) * 10000 + doy_key doy.
Proof.
  cbv zeta. unfold civil_of_days. cbv zeta. destruct (yd_of_doe _) as [yoe doy]. unfold doy_key.
  destruct (md_of_doy doy) as [m d]. unfold date_key. case_if; lia.
Qed.

(** Distance between the starts of two years of an era. *)
Lemma year_start_mono y y' d :
  0 <= y -> y < y' < 400 -> 0 <= d < 366 -> (d = 365 -> is_leap (y + 1) = true) ->
  365 * y + y / 4 - y / 100 + d < 365 * y' + y' / 4 - y' / 100.
Proof.
  intros Hy Hy' Hd Hl. assert (H : 365 * (y + 1) + (y + 1) / 4 - (y + 1) / 100 <= 365 * y' + y' / 4 - y' / 100)
    by (Z.to_euclidean_division_equations; lia).
  eapply Z.lt_le_trans; [|exact H]. destruct (decide (d = 365)) as [->|]; [|Z.to_euclidean_division_equations; lia].
  specialize (Hl eq_refl). unfold is_leap in Hl. apply andb_true_iff in Hl as [H4%Z.eqb_eq Hr].
  apply orb_true_iff in Hr as [Hr%negb_true_iff%Z.eqb_neq|Hr%Z.eqb_eq]; Z.to_euclidean_division_equations; lia.
Qed.

(** The calendar is monotonic: a later day has a later date. *)
Lemma date_key_mono a b : a < b -> date_key (civil_of_days a) < date_key (civil_of_days b).
Proof.
  intros Hab. pose proof (date_key_era a) as Ka. pose proof (date_key_era b) as Kb. cbv zeta in *.
  pose proof (yd_of_doe_spec _ (Z.mod_pos_bound (a + 719468) 146097 ltac:(lia))) as Sa.
  pose proof (yd_of_doe_spec _ (Z.mod_pos_bound (b + 719468) 146097 ltac:(lia))) as Sb.
  destruct (yd_of_doe ((a + 719468) mod 146097)) as [ya da].
  destruct (yd_of_doe ((b + 719468) mod 146097)) as [yb db].
  destruct Sa as (? & ? & Ea & _), Sb as (? & ? & Eb & Lb).
  pose proof (md_of_doy_spec da ltac:(lia)) as Ma. destruct (md_of_doy da). destruct Ma as (_ & _ & _ & ? & _).
  pose proof (md_of_doy_spec db ltac:(lia)) as Mb. destruct (md_of_doy db). destruct Mb as (_ & _ & _ & ? & _).
  pose proof (Z.div_mod (a + 719468) 146097 ltac:(lia)). pose proof (Z.div_mod (b + 719468) 146097 ltac:(lia)).
  assert ((a + 719468) / 146097 <= (b + 719468) / 146097) by (apply Z.div_le_mono; lia).
  rewrite Ka, Kb. destruct (decide ((a + 719468) / 146097 = (b + 719468) / 146097)) as [E|E]; [|lia].
  rewrite E in *. destruct (Z.lt_trichotomy ya yb) as [?|[->|?]]; [lia| |].
  - pose proof (doy_key_mono da db ltac:(lia) ltac:(lia) ltac:(lia)). lia.
  - exfalso. pose proof (year_start_mono yb ya db ltac:(lia) ltac:(lia) ltac:(lia) Lb). lia.
Qed.

Lemma is_leap_era y e : is_leap (y + 400 * e) = is_leap y.
Proof.
  unfold is_leap.
  replace ((y + 400 * e) mod 4) with (y mod 4) by (Z.to_euclidean_division_equations; lia).
  replace ((y + 400 * e) mod 100) with (y mod 100) by (Z.to_euclidean_division_equations; lia).
  by replace ((y + 400 * e) mod 400) with (y mod 400) by (Z.to_euclidean_division_equations; lia).
Qed.

Lemma civil_of_days_spec days :
  let '(y, m, d) := civil_of_days days in
  1 <= m <= 12 /\ 1 <= d <= days_in_month y m /\ days_of_civil y m d = days.
Proof.
  unfold civil_of_days. cbv zeta.
  pose proof (yd_of_doe_spec _ (Z.mod_pos_bound (days + 719468) 146097 ltac:(lia))) as Sy.
  destruct (yd_of_doe _) as [yoe doy]. destruct Sy as (Hy & Hd & E & L).
  pose proof (md_of_doy_spec doy Hd) as M. destruct (md_of_doy doy) as [m d].
  destruct M as (Hm & Hd1 & Hinv & _ & Hd2 & Hm2 & _).
  pose proof (Z.div_mod (days + 719468) 146097 ltac:(lia)) as Hz.
  set (e := (days + 719468) / 146097) in *.
  split_and!; try lia.
  - destruct (doy =? 365) eqn:E365.
    + apply Z.eqb_eq in E365. rewrite (Hm2 E365). unfold days_in_month. simpl.
      replace (yoe + 400 * e + 1) with (yoe + 1 + 400 * e) by lia. by rewrite is_leap_era, L.
    + etransitivity; [exact Hd2|]. unfold days_in_month. change (is_leap 1) with false. repeat case_if; try done; lia.
  - unfold days_of_civil. cbv zeta. rewrite Hinv.
    replace (if m <=? 2 then yoe + 400 * e + (if m <=? 2 then 1 else 0) - 1
             else yoe + 400 * e + (if m <=? 2 then 1 else 0)) with (yoe + e * 400) by (case_if; lia).
    rewrite Z.div_add, Z.mod_add, Z.div_small, Z.mod_small by lia. lia.
Qed.

Lemma days_in_month_bound y m : days_in_month y m <= 31.
Proof. unfold days_in_month. repeat case_if; lia. Qed.

(** * RFC 3339 text *)

(** Number of decimal digits of a non-negative integer below [10 ^ 20]. *)
Fixpoint dec_width (fuel : nat) (n : Z) : nat :=
  match fuel with
  | O => 1
  | S f => if n <? 10 then 1 else S (dec_width f (n / 10))
  end.
Definition append_int (x : Z) (w : nat) : string :=
  (if x <? 0 then "-" else "") +:+ pad (Nat.max w (dec_width 20 (Z.abs x))) (Z.abs x).

(** The [w] low digits of [n] without their trailing zeros. *)
Fixpoint pad_trim (w : nat) (n : Z) : string :=
  match w with
  | O => ""
  | S w' => if n mod 10 =? 0 then pad_trim w' (n / 10) else pad w n
  end.

(** [format_clock], [format_date]: the fields of the layout. *)
Definition format_date (c : Z * Z * Z) : string :=
  let '(y, m, d) := c in append_int y 4 +:+ "-" +:+ pad 2 m +:+ "-" +:+ pad 2 d.
Definition format_clock (sod : Z) : string :=
  pad 2 (sod / 3600) +:+ ":" +:+ pad 2 (sod / 60 mod 60) +:+ ":" +:+ pad 2 (sod mod 60).
Definition format_frac (ns : Z) : string :=
  if ns =? 0 then "" else "." +:+ pad_trim 9 ns.

(** store/sqlite.go [formatTime]: [value.UTC().Format(time.RFC3339Nano)]. *)
Definition formatTime (t : Time) : string :=
  let s := t / Second in
  format_date (civil_of_days (s / 86400)) +:+ "T" +:+ format_clock (s mod 86400) +:+
  format_frac (t mod Second) +:+ "Z".

Example formatTime_ex1 : formatTime (1709210096 * Second + 120000000) = "2024-02-29T12:34:56.12Z".
Proof. vm_compute. reflexivity. Qed.
Example formatTime_zero : formatTime ZeroTime = "0001-01-01T00:00:00Z".
Proof. vm_compute. reflexivity. Qed.

(** * Parsing *)

Definition parser (A : Type) := string -> option (A * string).

(** Exactly [w] decimal digits. *)
Fixpoint p_digits (w : nat) (acc : Z) (s : string) : option (Z * string) :=
  match w, s with
  | O, _ => Some (acc, s)
  | S w', String a s' => if is_digit a then p_digits w' (acc * 10 + digit_val a) s' else None
  | S _, EmptyString => None
  end.
Definition p_char (c : ascii) (s : string) : option string :=
  match s with String a s' => if Ascii.eqb a c then Some s' else None | _ => None end.
(** The longest run of digits, of which the first nine count: value and number of digits read. *)
Fixpoint p_frac (n : nat) (acc : Z) (s : string) : Z * string :=
  match s with
  | String a s' =>
      if is_digit a then
        match n with
        | O => p_frac O acc s'
        | S n' => p_frac n' (acc + digit_val a * 10 ^ Z.of_nat n') s'
        end
      else (acc, s)
  | EmptyString => (acc, s)
  end.
Definition p_fraction (s : string) : Z * string :=
  match s with
  | String a (String b s') =>
      if Ascii.eqb a "." && is_digit b then p_frac 9 0 (String b s') else (0, s)
  | _ => (0, s)
  end.

Definition in_range (lo x hi : Z) : bool := (lo <=? x) && (x <=? hi).

(** store/sqlite.go [parseTime]: [time.Parse(time.RFC3339Nano, value)] on the
    UTC text the store writes (a numeric zone offset is never stored). *)
Definition parseTime (value : string) : option Time :=
  '(y, s) ← p_digits 4 0 value; s ← p_char "-" s;
  '(m, s) ← p_digits 2 0 s; s ← p_char "-" s;
  '(d, s) ← p_digits 2 0 s; s ← p_char "T" s;
  '(hh, s) ← p_digits 2 0 s; s ← p_char ":" s;
  '(mi, s) ← p_digits 2 0 s; s ← p_char ":" s;
  '(ss, s) ← p_digits 2 0 s;
  let '(ns, s) := p_fraction s in
  s ← p_char "Z" s;
  if in_range 1 m 12 && in_range 1 d (days_in_month y m) && in_range 0 hh 23 && in_range 0 mi 59 &&
     in_range 0 ss 59 && bool_decide (s = ""%string)
  then Some ((days_of_civil y m d * 86400 + hh * 3600 + mi * 60 + ss) * Second + ns)
  else None.

Example parseTime_ex1 : parseTime "2024-02-29T12:34:56.12Z" = Some (1709210096 * Second + 120000000).
Proof. vm_compute. reflexivity. Qed.
Example parseTime_ex2 : parseTime "2023-02-29T12:34:56Z" = None.
Proof. vm_compute. reflexivity. Qed.

(** * Years 0 to 9999, where the text has a fixed layout *)

Definition year_ok (t : Time) : Prop := -719528 <= t / Second / 86400 <= 2932896.
Definition year_okb (t : Time) : bool := in_range (-719528) (t / Second / 86400) 2932896.

Lemma year_okb_spec t : year_okb t = true <-> year_ok t.
Proof. unfold year_okb, year_ok, in_range. rewrite andb_true_iff, !Z.leb_le. done. Qed.

Lemma civil_year_ok days : -719528 <= days <= 2932896 ->
  let '(y, m, d) := civil_of_days days in 0 <= y <= 9999 /\ 1 <= m <= 12 /\ 1 <= d <= 31.
Proof.
  intros H. pose proof (civil_of_days_spec days) as S.
  assert (K1 : date_key (civil_of_days (-719529)) < date_key (civil_of_days days)) by (apply date_key_mono; lia).
  assert (K2 : date_key (civil_of_days days) < date_key (civil_of_days 2932897)) by (apply date_key_mono; lia).
  change (date_key (civil_of_days (-719529))) with (-8769) in K1.
  change (date_key (civil_of_days 2932897)) with 100000101 in K2.
  destruct (civil_of_days days) as [[y m] d]. pose proof (days_in_month_bound y m).
  unfold date_key in *. lia.
Qed.

Lemma dec_width_small n f : 0 <= n < 10 ^ 4 -> (4 <= f)%nat -> (dec_width f n <= 4)%nat.
Proof.
  intros H Hf. destruct f as [|[|[|[|f]]]]; try lia. cbn [dec_width].
  repeat case_if; try lia. reflect_bools. exfalso.
  assert (n / 10 / 10 / 10 < 10) by (Z.to_euclidean_division_equations; lia). lia.
Qed.

Lemma append_int_4 y : 0 <= y <= 9999 -> append_int y 4 = pad 4 y.
Proof.
  intros H. unfold append_int. destruct (y <? 0) eqn:E; [lia|]. rewrite Z.abs_eq by lia.
  rewrite Nat.max_l by (apply dec_width_small; lia). done.
Qed.

Lemma format_date_lt a b :
  -719528 <= a -> a < b -> b <= 2932896 ->
  str_ltb (format_date (civil_of_days a)) (format_date (civil_of_days b)) = true.
Proof.
  intros Ha Hab Hb. pose proof (date_key_mono a b Hab) as K.
  pose proof (civil_year_ok a ltac:(lia)) as Ya. pose proof (civil_year_ok b ltac:(lia)) as Yb.
  destruct (civil_of_days a) as [[y m] d], (civil_of_days b) as [[y' m'] d'].
  unfold date_key in K. unfold format_date. rewrite !append_int_4 by lia.
  destruct (decide (y = y')) as [->|]; [rewrite str_ltb_app_l, str_ltb_app_l|].
  - destruct (decide (m = m')) as [->|]; [rewrite str_ltb_app_l, str_ltb_app_l|].
    + apply pad_lt; simpl; lia.
    + apply str_ltb_app_prefix; [by rewrite !pad_length|]. apply pad_lt; simpl; lia.
  - apply str_ltb_app_prefix; [by rewrite !pad_length|]. apply pad_lt; simpl; lia.
Qed.

Lemma format_clock_lt a b : 0 <= a -> a < b -> b < 86400 -> str_ltb (format_clock a) (format_clock b) = true.
Proof.
  intros Ha Hab Hb. unfold format_clock.
  destruct (decide (a / 3600 = b / 3600)) as [E|]; [rewrite E, str_ltb_app_l, str_ltb_app_l|].
  - destruct (decide (a / 60 mod 60 = b / 60 mod 60)) as [E'|]; [rewrite E', str_ltb_app_l, str_ltb_app_l|].
    + apply pad_lt; simpl; Z.to_euclidean_division_equations; lia.
    + apply str_ltb_app_prefix; [by rewrite !pad_length|].
      apply pad_lt; simpl; Z.to_euclidean_division_equations; lia.
  - apply str_ltb_app_prefix; [by rewrite !pad_length|].
    apply pad_lt; simpl; Z.to_euclidean_division_equations; lia.
Qed.

Lemma format_date_length c : (let '(y, m, d) := c in 0 <= y <= 9999) -> String.length (format_date c) = 10%nat.
Proof.
  destruct c as [[y m] d]. intros H. unfold format_date. rewrite append_int_4 by done.
  rewrite !str_length_app, !pad_length. done.
Qed.

Lemma format_clock_length s : String.length (format_clock s) = 8%nat.
Proof. unfold format_clock. rewrite !str_length_app, !pad_length. done. Qed.

(** Instants in different seconds are ordered by their text. *)
Lemma formatTime_lt t u :
  year_ok t -> year_ok u -> t / Second < u / Second -> str_ltb (formatTime t) (formatTime u) = true.
Proof.
  unfold year_ok. intros Ht Hu Hlt. unfold formatTime. cbv zeta.
  set (s := t / Second) in *. set (s' := u / Second) in *.
  pose proof (civil_year_ok _ Ht) as Yt. pose proof (civil_year_ok _ Hu) as Yu.
  assert (Lt : String.length (format_date (civil_of_days (s / 86400))) = 10%nat)
    by (apply format_date_length; destruct (civil_of_days (s / 86400)) as [[??]?]; lia).
  assert (Lu : String.length (format_date (civil_of_days (s' / 86400))) = 10%nat)
    by (apply format_date_length; destruct (civil_of_days (s' / 86400)) as [[??]?]; lia).
  destruct (decide (s / 86400 = s' / 86400)) as [E|E].
  - rewrite E, str_ltb_app_l, str_ltb_app_l. apply str_ltb_app_prefix; [by rewrite !format_clock_length|].
    apply format_clock_lt; Z.to_euclidean_division_equations; lia.
  - apply str_ltb_app_prefix; [congruence|]. apply format_date_lt; try lia.
    assert (s / 86400 <= s' / 86400) by (apply Z.div_le_mono; lia). lia.
Qed.

(** * Round trip *)

Lemma p_digits_pad w n acc s :
  0 <= n < 10 ^ Z.of_nat w -> p_digits w acc (pad w n +:+ s) = Some (acc * 10 ^ Z.of_nat w + n, s).
Proof.
  assert (G : forall w' w n acc s, 0 <= n < 10 ^ Z.of_nat w ->
    p_digits (w + w') acc (pad w n +:+ s) = p_digits w' (acc * 10 ^ Z.of_nat w + n) s).
  { clear. intros w' w. revert w'. induction w as [|w IH]; intros w' n acc s Hn.
    { change (10 ^ Z.of_nat 0) with 1 in *. cbn [pad]. simpl. f_equal. lia. }
    rewrite Nat2Z.inj_succ, Z.pow_succ_r in * by lia. cbn [pad]. rewrite str_app_assoc.
    replace (S w + w')%nat with (w + S w')%nat by lia.
    pose proof (Z.mod_pos_bound n 10 ltac:(lia)). pose proof (Z.div_mod n 10 ltac:(lia)).
    rewrite IH by (split; [apply Z.div_pos; lia|apply Z.div_lt_upper_bound; lia]).
    rewrite str_app_cons. cbn [p_digits]. rewrite is_digit_digit, digit_val_digit by lia.
    change ("" +:+ s) with s. f_equal. lia. }
  intros Hn. rewrite <- (Nat.add_0_r w) at 1. by rewrite G.
Qed.

Lemma p_frac_pad w k n acc s : 0 <= n < 10 ^ Z.of_nat w ->
  p_frac (k + w) acc (pad w n +:+ s) = p_frac k (acc + n * 10 ^ Z.of_nat k) s.
Proof.
  revert k n acc s. induction w as [|w IH]; intros k n acc s Hn.
  { change (10 ^ Z.of_nat 0) with 1 in Hn. rewrite Nat.add_0_r. simpl. f_equal. lia. }
  rewrite Nat2Z.inj_succ, Z.pow_succ_r in Hn by lia. cbn [pad]. rewrite str_app_assoc.
  pose proof (Z.mod_pos_bound n 10 ltac:(lia)). pose proof (Z.div_mod n 10 ltac:(lia)) as D.
  replace (k + S w)%nat with (S k + w)%nat by lia.
  rewrite IH by (split; [apply Z.div_pos; lia|apply Z.div_lt_upper_bound; lia]).
  rewrite str_app_cons. cbn [p_frac]. rewrite is_digit_digit, digit_val_digit by lia.
  change ("" +:+ s) with s. rewrite Nat2Z.inj_succ, Z.pow_succ_r by lia. f_equal.
  rewrite D at 3. ring.
Qed.

Lemma p_frac_pad_trim w k n acc : 0 <= n < 10 ^ Z.of_nat w ->
  p_frac (k + w) acc (pad_trim w n +:+ "Z") = (acc + n * 10 ^ Z.of_nat k, "Z"%string).
Proof.
  revert k n. induction w as [|w IH]; intros k n Hn.
  { change (10 ^ Z.of_nat 0) with 1 in Hn. rewrite Nat.add_0_r.
    assert (n = 0) as -> by lia. destruct k; simpl; f_equal; lia. }
  cbn [pad_trim]. destruct (n mod 10 =? 0) eqn:E.
  - apply Z.eqb_eq in E. pose proof (Z.div_mod n 10 ltac:(lia)) as D.
    rewrite Nat2Z.inj_succ, Z.pow_succ_r in Hn by lia.
    replace (k + S w)%nat with (S k + w)%nat by lia. rewrite IH by (Z.to_euclidean_division_equations; lia).
    rewrite Nat2Z.inj_succ, Z.pow_succ_r by lia. f_equal. rewrite D at 2. rewrite E. ring.
  - rewrite p_frac_pad by done. by destruct k.
Qed.

Lemma pad_trim_head w n : 0 < n < 10 ^ Z.of_nat w ->
  exists a s, pad_trim w n = String a s /\ is_digit a = true.
Proof.
  assert (P : forall w n, 0 <= n < 10 ^ Z.of_nat (S w) -> exists a s, pad (S w) n = String a s /\ is_digit a = true).
  { clear. induction w as [|w IH]; intros n Hn.
    { simpl. eexists _, _. split; [done|]. apply is_digit_digit, Z.mod_pos_bound. lia. }
    rewrite Nat2Z.inj_succ, Z.pow_succ_r in Hn by lia.
    destruct (IH (n / 10)) as (a & s & E & Ha); [Z.to_euclidean_division_equations; lia|].
    cbn [pad] in *. rewrite E. by eexists _, _. }
  revert n. induction w as [|w IH]; intros n Hn.
  { change (10 ^ Z.of_nat 0) with 1 in Hn. lia. }
  cbn [pad_trim]. destruct (n mod 10 =? 0) eqn:E; [|apply P; lia].
  rewrite Nat2Z.inj_succ, Z.pow_succ_r in Hn by lia.
  apply IH. Z.to_euclidean_division_equations; lia.
Qed.

Lemma p_fraction_format ns : 0 <= ns < Second ->
  p_fraction (format_frac ns +:+ "Z") = (ns, "Z"%string).
Proof.
  intros H. unfold format_frac. destruct (ns =? 0) eqn:E.
  { apply Z.eqb_eq in E as ->. done. }
  destruct (pad_trim_head 9 ns) as (a & s & Hp & Ha); [unfold Second in H; lia|].
  rewrite str_app_assoc, Hp.
  change ((if is_digit a then p_frac 9 0 (String a s +:+ "Z") else (0, String "." (String a s +:+ "Z"))) = (ns, "Z"%string)).
  rewrite Ha, <- Hp. change (p_frac 9) with (p_frac (0 + 9)).
  rewrite p_frac_pad_trim by (unfold Second in H; simpl; lia). f_equal. simpl. lia.
Qed.

Arguments pad : simpl never.
Arguments p_digits : simpl never.
(** One numeric field of the layout and the separator after it. *)
Ltac p_field := rewrite p_digits_pad by (simpl; lia); simpl; rewrite ?str_app_nil_l.

(** The store reads back the instants it wrote. *)
Lemma parseTime_formatTime t : year_ok t -> parseTime (formatTime t) = Some t.
Proof.
  unfold year_ok. intros Ht. unfold formatTime. cbv zeta. set (s := t / Second) in *.
  pose proof (civil_year_ok _ Ht) as Y. pose proof (civil_of_days_spec (s / 86400)) as C.
  destruct (civil_of_days (s / 86400)) as [[y m] d]. destruct C as (_ & Hd & HC).
  pose proof (Z.mod_pos_bound s 86400 ltac:(lia)). set (sod := s mod 86400) in *.
  assert (sod / 3600 <= 23 /\ 0 <= sod / 3600) by (Z.to_euclidean_division_equations; lia).
  pose proof (Z.mod_pos_bound (sod / 60) 60 ltac:(lia)). pose proof (Z.mod_pos_bound sod 60 ltac:(lia)).
  unfold format_date, format_clock, parseTime. rewrite append_int_4 by lia.
  rewrite !str_app_assoc.
  do 6 p_field.
  rewrite p_fraction_format by (apply Z.mod_pos_bound; done). simpl.
  rewrite !Z.mul_0_l, !Z.add_0_l.
  assert (R : in_range 1 m 12 && in_range 1 d (days_in_month y m) && in_range 0 (sod / 3600) 23 &&
    in_range 0 (sod / 60 mod 60) 59 && in_range 0 (sod mod 60) 59 = true).
  { unfold in_range. rewrite !andb_true_iff, !Z.leb_le. lia. }
  rewrite R. simpl. f_equal. rewrite HC.
  pose proof (Z.div_mod t Second ltac:(done)). fold s in H3.
  transitivity (Second * s + t mod Second); [|lia]. f_equal. rewrite Z.mul_comm. f_equal.
  subst sod. Z.to_euclidean_division_equations; lia.
Qed.

Lemma formatTime_inj t u : year_ok t -> year_ok u -> formatTime t = formatTime u -> t = u.
Proof.
  intros Ht Hu E. apply parseTime_formatTime in Ht, Hu. congruence.
Qed.

(** The text order is the time order up to the second: what a text
    comparison [<=] of two stored instants says about the instants. *)
Lemma formatTime_leb t u :
  year_ok t -> year_ok u -> str_leb (formatTime t) (formatTime u) = true -> t / Second <= u / Second.
Proof.
  intros Ht Hu H. destruct (decide (u / Second < t / Second)); [|lia].
  pose proof (formatTime_lt u t Hu Ht ltac:(done)) as C. unfold str_leb in H. by rewrite C in H.
Qed.

(** * Properties *)

(** A stored timestamp is read back exactly, and timestamps of different
    seconds of the years 0 to 9999 compare as text the way the instants compare. *)
Theorem stored_time_order t u (Ht : year_ok t) (Hu : year_ok u) :
  parseTime (formatTime t) = Some t /\
  (t / Second < u / Second -> str_ltb (formatTime t) (formatTime u) = true) /\
  (str_leb (formatTime t) (formatTime u) = true -> t / Second <= u / Second).
Proof.
  split; [by apply parseTime_formatTime|]. split; [by apply formatTime_lt|by apply formatTime_leb].
Qed.

Lemma stored_time_order_witness :
  str_ltb (formatTime (1700000000 * Second + 5)) (formatTime (1700000001 * Second)) = true.
Proof.
  apply (stored_time_order (1700000000 * Second + 5) (1700000001 * Second)).
  - apply year_okb_spec. vm_compute. reflexivity.
  - apply year_okb_spec. vm_compute. reflexivity.
  - vm_compute. reflexivity.
Defined.

(** Within one second the text order is not the time order, because the layout
    drops trailing zeros of the fraction: half a second after a whole second is
    stored as a smaller text than the whole second itself. *)
Theorem stored_time_subsecond_inversion :
  let t := 1700000000 * Second in
  t < t + 500000000 /\ str_ltb (formatTime (t + 500000000)) (formatTime t) = true.
Proof. split; [lia|vm_compute; reflexivity]. Qed.
