(* ===== verification/GoLocation.v ===== *)
(** Locations of Go's [time] package: the wall clock a location shows at an
    instant, [time.Date] in a location and [AddDate]. The zone data are not
    source: a location is given by its lookup function. *)
From Stdlib Require Import ZArith Lia String.
From stdpp Require Import base tactics list strings.
From S2P Require Import Prelude GoStrings GoFloat GoTime.
Open Scope Z_scope.

(** [Location.lookup]: from seconds since 1970 (UTC) to the offset in force
    and the seconds between which it is. *)
Record Location := { lookup_zone : Z -> Z * Z * Z }.
Definition zone_offset (loc : Location) (sec : Z) : Z := (lookup_zone loc sec).1.1.

(** [time.LoadLocation]: the IANA database. *)
Class TimeZones := { LoadLocation : string -> option Location }.

(** Seconds of the wall clock of [t.In(loc)], counted from 1970-01-01 on that clock. *)
Definition wall_seconds (loc : Location) (t : Time) : Z := Unix t + zone_offset loc (Unix t).

(** The accessors of [t.In(loc)]; weekdays count from Sunday. *)
Definition Weekday (loc : Location) (t : Time) : Z := (wall_seconds loc t / 86400 + 4) mod 7.
Definition Hour_of (loc : Location) (t : Time) : Z := wall_seconds loc t mod 86400 / 3600.
Definition Minute_of (loc : Location) (t : Time) : Z := wall_seconds loc t mod 3600 / 60.
Definition Second_of (loc : Location) (t : Time) : Z := wall_seconds loc t mod 60.
Definition Date_of (loc : Location) (t : Time) : Z * Z * Z := civil_of_days (wall_seconds loc t / 86400).

(** [time.Date(y, m, d, hour, min, sec, nsec, loc)] for a month in range: the
    offset is looked up at the wall clock taken as UTC, and once more when the
    instant found lies outside the period of that offset. *)
Definition Date (y m d hour min sec nsec : Z) (loc : Location) : Time :=
  let unix := days_of_civil y m d * 86400 + hour * 3600 + min * 60 + sec in
  let '(offset, start, stop) := lookup_zone loc unix in
  let unix :=
    if offset =? 0 then unix
    else
      let utc := unix - offset in
      let offset := if (utc <? start) || (stop <=? utc) then zone_offset loc utc else offset in
      unix - offset in
  unix * Second + nsec.

(** [t.In(loc).AddDate(0, 0, days)] *)
Definition AddDays (loc : Location) (t : Time) (days : Z) : Time :=
  let '(y, m, d) := Date_of loc t in
  Date y m (d + days) (Hour_of loc t) (Minute_of loc t) (Second_of loc t) (t mod Second) loc.

(** * Fixed offsets *)

(** A location whose offset never changes. *)
Definition fixed_zone (loc : Location) (off : Z) : Prop :=
  forall sec, exists start stop, lookup_zone loc sec = (off, start, stop).

(** [time.UTC] *)
Definition utc_location : Location := {| lookup_zone sec := (0, - 2 ^ 63, 2 ^ 63 - 1) |}.
(** [time.FixedZone(name, off)] *)
Definition FixedZone (off : Z) : Location := {| lookup_zone sec := (off, - 2 ^ 63, 2 ^ 63 - 1) |}.

Lemma FixedZone_fixed off : fixed_zone (FixedZone off) off.
Proof. intros sec. by do 2 eexists. Qed.

Lemma zone_offset_fixed loc off sec : fixed_zone loc off -> zone_offset loc sec = off.
Proof. intros H. destruct (H sec) as (? & ? & E). unfold zone_offset. by rewrite E. Qed.

Lemma wall_seconds_fixed loc off t : fixed_zone loc off -> wall_seconds loc t = Unix t + off.
Proof. intros H. unfold wall_seconds. by rewrite (zone_offset_fixed loc off). Qed.

Lemma Date_fixed loc off y m d hour min sec nsec : fixed_zone loc off ->
  Date y m d hour min sec nsec loc = (days_of_civil y m d * 86400 + hour * 3600 + min * 60 + sec - off) * Second + nsec.
Proof.
  intros H. unfold Date. cbv zeta. destruct (H (days_of_civil y m d * 86400 + hour * 3600 + min * 60 + sec)) as (? & ? & ->).
  case_if; [reflect_bools; subst; by rewrite Z.sub_0_r|]. rewrite (zone_offset_fixed loc off) by done. by case_if.
Qed.

(** A day past or before the end of its month counts on into the next ones. *)
Lemma days_of_civil_add y m d k : days_of_civil y m (d + k) = days_of_civil y m d + k.
Proof. unfold days_of_civil, doy_of_md. cbv zeta. lia. Qed.

Lemma days_of_civil_of_days days : let '(y, m, d) := civil_of_days days in days_of_civil y m d = days.
Proof. pose proof (civil_of_days_spec days) as H. destruct (civil_of_days days) as [[y m] d]. apply H. Qed.

Lemma clock_seconds s : s = s / 86400 * 86400 + s mod 86400 / 3600 * 3600 + s mod 3600 / 60 * 60 + s mod 60.
Proof. Z.to_euclidean_division_equations; lia. Qed.

(** In a fixed zone, moving by days moves by whole days of 24 hours. *)
Lemma AddDays_fixed loc off t k : fixed_zone loc off -> AddDays loc t k = t + k * 86400 * Second.
Proof.
  intros H. unfold AddDays, Date_of, Hour_of, Minute_of, Second_of.
  pose proof (days_of_civil_of_days (wall_seconds loc t / 86400)) as D.
  destruct (civil_of_days _) as [[y m] d]. rewrite (Date_fixed loc off) by done.
  rewrite days_of_civil_add, D. pose proof (clock_seconds (wall_seconds loc t)) as C.
  rewrite (wall_seconds_fixed loc off) in * by done. unfold Unix in *.
  pose proof (Z.div_mod t Second ltac:(done)). nia.
Qed.

(** The wall clock of an instant built by [Date]. *)
Lemma wall_seconds_Date loc off y m d hour min sec : fixed_zone loc off ->
  wall_seconds loc (Date y m d hour min sec 0 loc) = days_of_civil y m d * 86400 + hour * 3600 + min * 60 + sec.
Proof.
  intros H. rewrite (wall_seconds_fixed loc off), (Date_fixed loc off) by done. unfold Unix.
  rewrite Z.add_0_r, Z.div_mul by done. lia.
Qed.

Example Weekday_ex : Weekday utc_location (1700000000 * Second) = 2.
Proof. reflexivity. Qed.
Example AddDays_ex : formatTime (AddDays (FixedZone 7200) (1700000000 * Second) (-15)) = "2023-10-30T22:13:20Z".
Proof. vm_compute. reflexivity. Qed.
