(* ===== verification/GoRegex.v ===== *)
(** Anchored regular expressions, for the patterns the code compiles with
    [regexp.MustCompile(`^...$`)]: a pattern is a term, [re_match] runs it by
    derivatives, and [re_match_correct] relates it to the language. *)
From Stdlib Require Import ZArith Lia String Ascii.
From stdpp Require Import base tactics list strings.
From S2P Require Import Prelude GoStrings.
Open Scope Z_scope.

Inductive re :=
| RNone
| REps
| RClass (p : ascii -> bool)
| RSeq (r1 r2 : re)
| RAlt (r1 r2 : re)
| RStar (r : re).

(** The strings a pattern denotes. *)
Inductive re_lang : re -> string -> Prop :=
| LEps : re_lang REps ""
| LClass p a : p a = true -> re_lang (RClass p) (String a "")
| LSeq r1 r2 s t : re_lang r1 s -> re_lang r2 t -> re_lang (RSeq r1 r2) (s +:+ t)
| LAltL r1 r2 s : re_lang r1 s -> re_lang (RAlt r1 r2) s
| LAltR r1 r2 s : re_lang r2 s -> re_lang (RAlt r1 r2) s
| LStarNil r : re_lang (RStar r) ""
| LStarCons r s t : re_lang r s -> re_lang (RStar r) t -> re_lang (RStar r) (s +:+ t).

(** Constructors that absorb the trivial cases, to keep derivatives small. *)
Definition seq (r1 r2 : re) : re :=
  match r1, r2 with
  | RNone, _ => RNone
  | _, RNone => RNone
  | REps, _ => r2
  | _, REps => r1
  | _, _ => RSeq r1 r2
  end.
Definition alt (r1 r2 : re) : re :=
  match r1, r2 with RNone, _ => r2 | _, RNone => r1 | _, _ => RAlt r1 r2 end.

Fixpoint nullable (r : re) : bool :=
  match r with
  | RNone | RClass _ => false
  | REps | RStar _ => true
  | RSeq r1 r2 => nullable r1 && nullable r2
  | RAlt r1 r2 => nullable r1 || nullable r2
  end.
Fixpoint deriv (a : ascii) (r : re) : re :=
  match r with
  | RNone | REps => RNone
  | RClass p => if p a then REps else RNone
  | RSeq r1 r2 => if nullable r1 then alt (seq (deriv a r1) r2) (deriv a r2) else seq (deriv a r1) r2
  | RAlt r1 r2 => alt (deriv a r1) (deriv a r2)
  | RStar r => seq (deriv a r) (RStar r)
  end.
Fixpoint re_match (r : re) (s : string) : bool :=
  match s with EmptyString => nullable r | String a s' => re_match (deriv a r) s' end.

(** ** Building blocks *)

Definition between (lo hi : ascii) (a : ascii) : bool :=
  (byte_val lo <=? byte_val a) && (byte_val a <=? byte_val hi).
Definition is_lower : ascii -> bool := between "a" "z".
Definition is_upper : ascii -> bool := between "A" "Z".
Definition is_byte (c : ascii) (a : ascii) : bool := Ascii.eqb a c.
Definition por (p q : ascii -> bool) (a : ascii) : bool := p a || q a.

Definition RPlus (r : re) : re := RSeq r (RStar r).
Definition ROpt (r : re) : re := RAlt REps r.
Definition RByte (c : ascii) : re := RClass (is_byte c).
(** [r{m,n}] *)
Fixpoint RUpTo (r : re) (n : nat) : re := match n with O => REps | S n' => ROpt (RSeq r (RUpTo r n')) end.
Fixpoint RRepeat (r : re) (m n : nat) : re := match m with O => RUpTo r n | S m' => RSeq r (RRepeat r m' n) end.
Fixpoint RString (s : string) : re := match s with EmptyString => REps | String a s' => RSeq (RByte a) (RString s') end.

(** ** Correctness *)

(** Inverts membership in the composite and the trivial languages. *)
Ltac inv_re :=
  repeat match goal with
  | H : re_lang RNone _ |- _ => inversion H
  | H : re_lang REps _ |- _ => inversion H; clear H; subst
  | H : re_lang (RSeq _ _) _ |- _ => inversion H; clear H; subst
  | H : re_lang (RAlt _ _) _ |- _ => inversion H; clear H; subst
  end.

Lemma str_app_nil (s t : string) : s +:+ t = ""%string -> s = ""%string /\ t = ""%string.
Proof. destruct s; [by auto|done]. Qed.

Lemma nullable_correct r : nullable r = true <-> re_lang r "".
Proof.
  induction r as [| |p|r1 IH1 r2 IH2|r1 IH1 r2 IH2|r IH]; simpl.
  - split; [done|]. intros H; inversion H.
  - split; [constructor|done].
  - split; [done|]. intros H; inversion H.
  - rewrite andb_true_iff, IH1, IH2. split.
    + intros [H1 H2]. by apply (LSeq r1 r2 "" "").
    + intros H. inversion H as [| |? ? s t H1 H2 E Es| | | |]; subst.
      destruct (str_app_nil s t ltac:(done)) as [-> ->]. done.
  - rewrite orb_true_iff, IH1, IH2. split; [intros [?|?]; by constructor|].
    intros H; inversion H; subst; auto.
  - split; [constructor|done].
Qed.

Lemma seq_correct r1 r2 s : re_lang (seq r1 r2) s <-> re_lang (RSeq r1 r2) s.
Proof.
  assert (N1 : forall r s, re_lang (RSeq RNone r) s <-> re_lang RNone s) by (split; intros; inv_re).
  assert (N2 : forall r s, re_lang (RSeq r RNone) s <-> re_lang RNone s) by (split; intros; inv_re).
  assert (E1 : forall r s, re_lang (RSeq REps r) s <-> re_lang r s).
  { intros r u; split; intros H; [inv_re; done|]. by apply (LSeq REps r "" u (LEps)). }
  assert (E2 : forall r s, re_lang (RSeq r REps) s <-> re_lang r s).
  { intros r u; split; intros H; [inv_re; by rewrite str_app_nil_r|].
    rewrite <- (str_app_nil_r u). by apply LSeq; [|constructor]. }
  destruct r1, r2; simpl; rewrite ?N1, ?N2, ?E1, ?E2; done.
Qed.

Lemma alt_correct r1 r2 s : re_lang (alt r1 r2) s <-> re_lang (RAlt r1 r2) s.
Proof.
  assert (N1 : forall r s, re_lang (RAlt RNone r) s <-> re_lang r s)
    by (split; intros; [inv_re; done|by apply LAltR]).
  assert (N2 : forall r s, re_lang (RAlt r RNone) s <-> re_lang r s)
    by (split; intros; [inv_re; done|by apply LAltL]).
  destruct r1, r2; simpl; rewrite ?N1, ?N2; done.
Qed.

Lemma re_lang_star_cons r a s :
  re_lang (RStar r) (String a s) -> exists u v, s = u +:+ v /\ re_lang r (String a u) /\ re_lang (RStar r) v.
Proof.
  remember (RStar r) as q eqn:Eq. remember (String a s) as w eqn:Ew. intros H. revert Eq Ew.
  induction H as [| | | | | |r' u v H1 _ H2 IH]; intros; simplify_eq.
  destruct u as [|b u]; [by apply IH|].
  rewrite str_app_cons in *. simplify_eq. by exists u, v.
Qed.

Lemma deriv_correct a r s : re_lang (deriv a r) s <-> re_lang r (String a s).
Proof.
  revert s. induction r as [| |p|r1 IH1 r2 IH2|r1 IH1 r2 IH2|r IH]; intros s; simpl.
  - split; intros H; inversion H.
  - split; intros H; inversion H.
  - destruct (p a) eqn:E; split; intros H; inversion H; subst; try constructor; congruence.
  - assert (S : re_lang (seq (deriv a r1) r2) s <->
      exists u v, s = u +:+ v /\ re_lang r1 (String a u) /\ re_lang r2 v).
    { rewrite seq_correct. split.
      - intros H; inversion H; subst. do 2 eexists. by rewrite <- IH1.
      - intros (u & v & -> & H1 & H2). apply LSeq; [by apply IH1|done]. }
    assert (Q : re_lang (RSeq r1 r2) (String a s) <->
      (exists u v, s = u +:+ v /\ re_lang r1 (String a u) /\ re_lang r2 v) \/
      (re_lang r1 "" /\ re_lang r2 (String a s))).
    { split.
      - intros H; inversion H as [| |? ? u v H1 H2 E Es| | | |]; subst.
        destruct u as [|b u]; [right; by rewrite str_app_nil_l in *; subst|].
        rewrite str_app_cons in Es. simplify_eq. left. by exists u, v.
      - intros [(u & v & -> & H1 & H2)|[H1 H2]]; [by apply (LSeq _ _ (String a u) v)|by apply (LSeq _ _ "" (String a s))]. }
    rewrite Q. destruct (nullable r1) eqn:E.
    + rewrite alt_correct. split.
      * intros H; inversion H; subst; [left; by apply S|right]. split; [by apply nullable_correct|by apply IH2].
      * intros [H|[_ H]]; [apply LAltL; by apply S|apply LAltR; by apply IH2].
    + rewrite S. split; [by left|]. intros [H|[H _]]; [done|]. apply nullable_correct in H. congruence.
  - rewrite alt_correct. split; intros H; inversion H; subst.
    + apply LAltL, IH1. done. + apply LAltR, IH2. done.
    + apply LAltL, IH1. done. + apply LAltR, IH2. done.
  - rewrite seq_correct. split.
    + intros H; inversion H; subst. apply (LStarCons r (String a s0) t); [by apply IH|done].
    + intros (u & v & -> & H1 & H2)%re_lang_star_cons. apply LSeq; [by apply IH|done].
Qed.

(** The matcher decides membership in the pattern's language. *)
Lemma re_match_correct r s : re_match r s = true <-> re_lang r s.
Proof.
  revert r. induction s as [|a s IH]; intros r; simpl; [apply nullable_correct|].
  by rewrite IH, deriv_correct.
Qed.
