(* ===== verification/Netip.v ===== *)
(** Go's [net/netip]: addresses, prefixes, their parsers and containment. *)
From Stdlib Require Import ZArith Lia String Ascii.
From stdpp Require Import base tactics list strings countable sets.
From S2P Require Import Prelude GoStrings GoTime.
Open Scope Z_scope.

(** * Addresses *)

(** A [netip.Addr]: the zero value, an IPv4 address of 32 bits or an IPv6
    address of 128 bits with its zone. *)
Inductive Addr :=
| AddrNone
| Addr4 (v : Z)
| Addr6 (v : Z) (zone : string).

#[export] Instance Addr_eq_dec : EqDecision Addr.
Proof. solve_decision. Defined.
#[export] Instance Addr_countable : Countable Addr.
Proof.
  refine (inj_countable'
    (fun a => match a with AddrNone => inl tt | Addr4 v => inr (inl v) | Addr6 v z => inr (inr (v, z)) end)
    (fun x => match x with inl _ => AddrNone | inr (inl v) => Addr4 v | inr (inr (v, z)) => Addr6 v z end) _).
  by intros [].
Defined.

Definition Is4 (a : Addr) : bool := match a with Addr4 _ => true | _ => false end.
Definition Is6 (a : Addr) : bool := match a with Addr6 _ _ => true | _ => false end.
Definition IsValid (a : Addr) : bool := negb (bool_decide (a = AddrNone)).
Definition BitLen (a : Addr) : Z := match a with AddrNone => 0 | Addr4 _ => 32 | Addr6 _ _ => 128 end.
Definition addr_bits (a : Addr) : Z := match a with AddrNone => 0 | Addr4 v => v | Addr6 v _ => v end.
Definition hasZone (a : Addr) : bool := match a with Addr6 _ z => negb (bool_decide (z = ""%string)) | _ => false end.

(** * Parsing addresses *)

Definition hex_val (a : ascii) : option Z :=
  let c := byte_val a in
  if (48 <=? c) && (c <=? 57) then Some (c - 48)
  else if (97 <=? c) && (c <=? 102) then Some (c - 97 + 10)
  else if (65 <=? c) && (c <=? 70) then Some (c - 65 + 10)
  else None.

(** The split of [s] at every occurrence of a byte. *)
Fixpoint split_byte (c : ascii) (s : string) : list string :=
  match s with
  | EmptyString => [""%string]
  | String a s' =>
      match split_byte c s' with
      | [] => []
      | f :: fs => if Ascii.eqb a c then ""%string :: f :: fs else String a f :: fs
      end
  end.

(** One octet of a dotted address: no empty field, no leading zero, at most 255. *)
Definition parse_octet (s : string) : option Z :=
  match s with
  | EmptyString => None
  | String a s' =>
      if Ascii.eqb a "0" && negb (bool_decide (s' = ""%string)) then None
      else v ← read_digits 0 s; if v <=? 255 then Some v else None
  end.

Definition parseIPv4 (s : string) : option Z :=
  match split_byte "." s with
  | [a; b; c; d] =>
      a ← parse_octet a; b ← parse_octet b; c ← parse_octet c; d ← parse_octet d;
      Some (((a * 256 + b) * 256 + c) * 256 + d)
  | _ => None
  end.

(** A group of one to four hexadecimal digits: value, digits read, rest. *)
Fixpoint hex_group (fuel : nat) (acc : Z) (n : nat) (s : string) : option (Z * nat * string) :=
  match s with
  | String a s' =>
      match hex_val a with
      | Some h =>
          match fuel with
          | O => None
          | S f => hex_group f (acc * 16 + h) (S n) s'
          end
      | None => Some (acc, n, s)
      end
  | EmptyString => Some (acc, n, s)
  end.

(** Inserts the zero groups an ellipsis stands for. *)
Definition expand_groups (groups : list Z) (ellipsis : option nat) : option (list Z) :=
  match ellipsis with
  | None => if bool_decide (length groups = 8%nat) then Some groups else None
  | Some e =>
      if bool_decide (length groups < 8)%nat
      then Some (take e groups ++ replicate (8 - length groups) 0 ++ drop e groups)
      else None
  end.

(** The loop of [parseIPv6]: at most eight groups, so fuel 8 suffices. *)
Fixpoint ipv6_groups (fuel : nat) (groups : list Z) (ellipsis : option nat) (s : string) : option (list Z) :=
  match fuel with
  | O => None (* the string is not used up after eight groups *)
  | S fuel' =>
      '(acc, n, rest) ← hex_group 4 0 0 s;
      if bool_decide (n = O) then None else
      match rest with
      | EmptyString => expand_groups (groups ++ [acc]) ellipsis
      | String "."%char _ =>
          if (bool_decide (ellipsis = None) && negb (bool_decide (length groups = 6%nat))) ||
             bool_decide (6 < length groups)%nat then None
          else v ← parseIPv4 s; expand_groups (groups ++ [v / 65536; v mod 65536]) ellipsis
      | String ":"%char EmptyString => None
      | String ":"%char (String ":"%char rest') =>
          if bool_decide (ellipsis = None) then
            match rest' with
            | EmptyString => expand_groups (groups ++ [acc]) (Some (S (length groups)))
            | _ => ipv6_groups fuel' (groups ++ [acc]) (Some (S (length groups))) rest'
            end
          else None
      | String ":"%char rest' => ipv6_groups fuel' (groups ++ [acc]) ellipsis rest'
      | _ => None
      end
  end.

Definition groups_val (groups : list Z) : Z := fold_left (fun acc g => acc * 65536 + g) groups 0.

Definition parseIPv6 (s : string) : option Addr :=
  let '(s, zone, bad) :=
    match split_byte "%" s with
    | [s] => (s, ""%string, false)
    | s :: z :: zs => let zone := String.concat "%" (z :: zs) in (s, zone, bool_decide (zone = ""%string))
    | [] => (s, ""%string, false)
    end in
  if bad then None else
  match s with
  | String ":"%char (String ":"%char EmptyString) => Some (Addr6 0 zone)
  | String ":"%char (String ":"%char s') =>
      g ← ipv6_groups 8 [] (Some O) s'; Some (Addr6 (groups_val g) zone)
  | _ => g ← ipv6_groups 8 [] None s; Some (Addr6 (groups_val g) zone)
  end.

(** The first of the bytes ['.'], [':'] and ['%'] decides the family. *)
Fixpoint addr_family (s : string) : option ascii :=
  match s with
  | EmptyString => None
  | String a s' => if Ascii.eqb a "." || Ascii.eqb a ":" || Ascii.eqb a "%" then Some a else addr_family s'
  end.

Definition ParseAddr (s : string) : option Addr :=
  match addr_family s with
  | Some "."%char => v ← parseIPv4 s; Some (Addr4 v)
  | Some ":"%char => parseIPv6 s
  | _ => None
  end.

Example ParseAddr_v4 : ParseAddr "192.168.1.7" = Some (Addr4 3232235783).
Proof. reflexivity. Qed.
Example ParseAddr_zero : ParseAddr "192.168.01.7" = None.
Proof. reflexivity. Qed.
Example ParseAddr_v6 : ParseAddr "fe80::1:2%eth0" = Some (Addr6 (0xfe80 * 2 ^ 112 + 0x10002) "eth0").
Proof. reflexivity. Qed.
Example ParseAddr_mapped : ParseAddr "::ffff:1.2.3.4" = Some (Addr6 0xffff01020304 "").
Proof. reflexivity. Qed.
Example ParseAddr_alias : ParseAddr "0:0:0:0:0:0:0:1" = ParseAddr "::1".
Proof. reflexivity. Qed.
Example ParseAddr_tail : ParseAddr "1::" = Some (Addr6 (2 ^ 112) "").
Proof. reflexivity. Qed.
Example ParseAddr_bad : ParseAddr "1:2:3" = None /\ ParseAddr "1::2::3" = None /\ ParseAddr "12345::" = None /\ ParseAddr "1:" = None.
Proof. repeat split; reflexivity. Qed.

(** ** An IPv4 address has one spelling *)

Lemma split_byte_nonempty c s : split_byte c s <> [].
Proof. induction s as [|a s IH]; simpl; [done|]. destruct (split_byte c s); [done|]. by destruct (Ascii.eqb a c). Qed.

Lemma split_byte_inj c s t : split_byte c s = split_byte c t -> s = t.
Proof.
  revert t. induction s as [|a s IH]; intros [|b t]; simpl; try done.
  - destruct (split_byte c t) as [|f fs] eqn:E; [by apply split_byte_nonempty in E|]. destruct (Ascii.eqb b c); [|done].
    intros [= <-].
  - destruct (split_byte c s) as [|f fs] eqn:E; [by apply split_byte_nonempty in E|]. destruct (Ascii.eqb a c); [|done].
    intros [= ->].
  - destruct (split_byte c s) as [|f fs] eqn:E1; [by apply split_byte_nonempty in E1|].
    destruct (split_byte c t) as [|g gs] eqn:E2; [by apply split_byte_nonempty in E2|].
    destruct (Ascii.eqb a c) eqn:Ea, (Ascii.eqb b c) eqn:Eb; intros [=].
    + apply Ascii.eqb_eq in Ea, Eb. subst. f_equal. by apply IH.
    + subst. f_equal. by apply IH.
Qed.

Lemma is_digit_range a : is_digit a = true -> 0 <= digit_val a <= 9.
Proof. unfold is_digit, digit_val. intros H. reflect_bools. lia. Qed.
Lemma digit_val_inj a b : digit_val a = digit_val b -> a = b.
Proof. unfold digit_val. intros H. apply byte_val_inj. lia. Qed.

Lemma read_digits_range s acc v : read_digits acc s = Some v -> 0 <= acc ->
  acc * 10 ^ strlen s <= v < (acc + 1) * 10 ^ strlen s.
Proof.
  unfold strlen. revert acc. induction s as [|a s IH]; intros acc H Ha; simpl in H.
  { injection H as <-. simpl. lia. }
  destruct (is_digit a) eqn:Ed; [|done]. apply is_digit_range in Ed. specialize (IH _ H ltac:(lia)).
  change (String.length (String a s)) with (S (String.length s)). rewrite Nat2Z.inj_succ, Z.pow_succ_r by lia.
  pose proof (Z.pow_pos_nonneg 10 (Z.of_nat (String.length s)) ltac:(lia) ltac:(lia)). nia.
Qed.

Lemma read_digits_inj s t a b v :
  String.length s = String.length t -> read_digits a s = Some v -> read_digits b t = Some v -> a = b /\ s = t.
Proof.
  revert t a b. induction s as [|c s IH]; intros [|d t] a b Hl Hs Ht; simpl in *; try done; [split; congruence|].
  destruct (is_digit c) eqn:Ec; [|done]. destruct (is_digit d) eqn:Ed; [|done].
  destruct (IH t _ _ ltac:(lia) Hs Ht) as [E ->]. apply is_digit_range in Ec, Ed.
  assert (digit_val c = digit_val d) as ->%digit_val_inj by lia. split; [lia|done].
Qed.

(** An octet is a lone zero, or as many digits as its value needs. *)
Lemma parse_octet_shape s v : parse_octet s = Some v ->
  read_digits 0 s = Some v /\ 0 <= v <= 255 /\
  (v = 0 /\ strlen s = 1 \/ 1 <= strlen s /\ 10 ^ (strlen s - 1) <= v < 10 ^ strlen s).
Proof.
  unfold parse_octet. destruct s as [|a s]; [done|]. case_if; [done|]. intros H.
  destruct (read_digits 0 (String a s)) as [w|] eqn:Er; [|done]. simpl in H.
  destruct (w <=? 255) eqn:Ew; [|done]. injection H as <-. split; [done|].
  pose proof (read_digits_range _ _ _ Er ltac:(lia)) as Hr. apply Z.leb_le in Ew. split; [lia|].
  assert (Hlen : strlen (String a s) = strlen s + 1) by (unfold strlen; simpl; lia).
  rewrite Hlen in *. simpl in Er. destruct (is_digit a) eqn:Ed; [|done]. apply is_digit_range in Ed.
  pose proof (read_digits_range _ _ _ Er ltac:(lia)) as Hr'. replace (strlen s + 1 - 1) with (strlen s) by lia.
  assert (0 <= strlen s) by (unfold strlen; lia).
  destruct (decide (digit_val a = 0)) as [E0|E0].
  - assert (a = "0"%char) as -> by (by apply digit_val_inj). simpl in E. apply negb_false_iff in E. reflect_bools. subst s.
    left. split; [|done]. vm_compute in Er. congruence.
  - right. pose proof (Z.pow_pos_nonneg 10 (strlen s) ltac:(lia) ltac:(done)). split; [lia|]. nia.
Qed.

Lemma parse_octet_inj s t v : parse_octet s = Some v -> parse_octet t = Some v -> s = t.
Proof.
  intros (Es & _ & Hs)%parse_octet_shape (Et & _ & Ht)%parse_octet_shape.
  eapply read_digits_inj; [|exact Es|exact Et]. assert (strlen s = strlen t); [|unfold strlen in *; lia].
  destruct Hs as [[-> Hs]|[H1 Hs]], Ht as [[E Ht]|[H2 Ht]]; [lia| |subst v|].
  1, 2: exfalso; pose proof (Z.pow_pos_nonneg 10 (strlen t - 1)); pose proof (Z.pow_pos_nonneg 10 (strlen s - 1)); lia.
  destruct (Z.lt_trichotomy (strlen s) (strlen t)) as [L|[L|L]]; [|done|]; exfalso.
  - pose proof (Z.pow_le_mono_r 10 (strlen s) (strlen t - 1) ltac:(lia) ltac:(lia)). lia.
  - pose proof (Z.pow_le_mono_r 10 (strlen t) (strlen s - 1) ltac:(lia) ltac:(lia)). lia.
Qed.

Lemma parseIPv4_inj s t v : parseIPv4 s = Some v -> parseIPv4 t = Some v -> s = t.
Proof.
  unfold parseIPv4. intros Hs Ht. apply (split_byte_inj "."%char).
  destruct (split_byte "." s) as [|a1 [|b1 [|c1 [|d1 [|]]]]]; try done.
  destruct (split_byte "." t) as [|a2 [|b2 [|c2 [|d2 [|]]]]]; try done.
  apply bind_Some in Hs as (va1 & Ha1 & Hs), Ht as (va2 & Ha2 & Ht).
  apply bind_Some in Hs as (vb1 & Hb1 & Hs), Ht as (vb2 & Hb2 & Ht).
  apply bind_Some in Hs as (vc1 & Hc1 & Hs), Ht as (vc2 & Hc2 & Ht).
  apply bind_Some in Hs as (vd1 & Hd1 & [= <-]), Ht as (vd2 & Hd2 & [= E]).
  pose proof (parse_octet_shape _ _ Hb1) as (_ & ? & _). pose proof (parse_octet_shape _ _ Hb2) as (_ & ? & _).
  pose proof (parse_octet_shape _ _ Hc1) as (_ & ? & _). pose proof (parse_octet_shape _ _ Hc2) as (_ & ? & _).
  pose proof (parse_octet_shape _ _ Hd1) as (_ & ? & _). pose proof (parse_octet_shape _ _ Hd2) as (_ & ? & _).
  assert (va1 = va2 /\ vb1 = vb2 /\ vc1 = vc2 /\ vd1 = vd2) as (-> & -> & -> & ->) by lia.
  by rewrite (parse_octet_inj _ _ _ Ha1 Ha2), (parse_octet_inj _ _ _ Hb1 Hb2), (parse_octet_inj _ _ _ Hc1 Hc2),
    (parse_octet_inj _ _ _ Hd1 Hd2).
Qed.

Lemma parseIPv6_family s a : parseIPv6 s = Some a -> Is4 a = false.
Proof.
  assert (B : forall g zone, g ≫= (fun g => Some (Addr6 (groups_val g) zone)) = Some a -> Is4 a = false).
  { by intros [g|] zone [= <-]. }
  unfold parseIPv6. intros H. destruct (match split_byte "%" s with [] => _ | _ => _ end) as [[s' zone] [|]]; [done|].
  set (v6 := ipv6_groups) in H.
  repeat match type of H with
    | context [match ?x with _ => _ end] => is_var x; destruct x
    end; by first [apply B in H|injection H as <-].
Qed.

(** An IPv6 address has many spellings ([ParseAddr_alias]); an IPv4 one has one. *)
Lemma ParseAddr4_inj s t v : ParseAddr s = Some (Addr4 v) -> ParseAddr t = Some (Addr4 v) -> s = t.
Proof.
  assert (H4 : forall s, ParseAddr s = Some (Addr4 v) -> parseIPv4 s = Some v).
  { clear s t. intros s H. unfold ParseAddr in H. destruct (addr_family s) as [[[] [] [] [] [] [] [] []]|]; try done;
      first [by apply parseIPv6_family in H|by apply bind_Some in H as (w & Hw & [= <-])]. }
  intros Hs%H4 Ht%H4. by eapply parseIPv4_inj.
Qed.

(** * Prefixes *)

Record Prefix := { PrefixAddr : Addr; PrefixBits : Z }.
#[export] Instance Prefix_eq_dec : EqDecision Prefix.
Proof. solve_decision. Defined.

(** Splits at the last ['/']. *)
Definition split_last_slash (s : string) : option (string * string) :=
  match rev (split_byte "/" s) with
  | bits :: f :: fs => Some (String.concat "/" (rev (f :: fs)), bits)
  | _ => None
  end.

Definition prefix_length (s : string) : option Z :=
  match s with
  | EmptyString => None
  | String a EmptyString => read_digits 0 s
  | String a _ => if Ascii.eqb a "0" then None else read_digits 0 s
  end.

Definition ParsePrefix (s : string) : option Prefix :=
  '(raw, bits) ← split_last_slash s;
  ip ← ParseAddr raw;
  if hasZone ip then None else
  n ← prefix_length bits;
  if n <=? BitLen ip then Some {| PrefixAddr := ip; PrefixBits := n |} else None.

Definition Contains (p : Prefix) (ip : Addr) : bool :=
  let f1 := BitLen (PrefixAddr p) in
  if negb (0 <=? PrefixBits p) || negb (PrefixBits p <=? f1) || hasZone ip then false
  else if (f1 =? 0) || (BitLen ip =? 0) || negb (f1 =? BitLen ip) then false
  else Z.shiftr (Z.lxor (addr_bits ip) (addr_bits (PrefixAddr p))) (f1 - PrefixBits p) =? 0.

Example ParsePrefix_ex : ParsePrefix "10.0.0.0/8" = Some {| PrefixAddr := Addr4 167772160; PrefixBits := 8 |}.
Proof. reflexivity. Qed.
Example ParsePrefix_bad : ParsePrefix "10.0.0.0/08" = None /\ ParsePrefix "10.0.0.0/33" = None /\ ParsePrefix "10.0.0.0" = None.
Proof. repeat split; reflexivity. Qed.

(** Containment: same family, no zone, and the same leading bits. *)
Lemma Contains_spec p ip :
  0 <= PrefixBits p <= BitLen (PrefixAddr p) ->
  Contains p ip = true <->
  BitLen ip = BitLen (PrefixAddr p) /\ BitLen ip <> 0 /\ hasZone ip = false /\
  addr_bits ip / 2 ^ (BitLen ip - PrefixBits p) =
  addr_bits (PrefixAddr p) / 2 ^ (BitLen ip - PrefixBits p).
Proof.
  intros H. unfold Contains. cbv zeta.
  replace (0 <=? PrefixBits p) with true by lia.
  replace (PrefixBits p <=? BitLen (PrefixAddr p)) with true by lia. simpl.
  destruct (hasZone ip); [naive_solver|].
  destruct (BitLen (PrefixAddr p) =? 0) eqn:E1; [simpl; split; [done|]; intros; lia|].
  destruct (BitLen ip =? 0) eqn:E2; [simpl; split; [done|]; intros; lia|].
  destruct (BitLen (PrefixAddr p) =? BitLen ip) eqn:E3; simpl; [|split; [done|]; intros; lia].
  apply Z.eqb_eq in E3. rewrite E3 in *. rewrite Z.eqb_eq, Z.shiftr_lxor, Z.lxor_eq_0_iff.
  rewrite !Z.shiftr_div_pow2 by lia. split; [intros; repeat split; lia|]. by intros (_ & _ & _ & ?).
Qed.

(** * Text of addresses and prefixes *)

Definition hex_char (n : Z) : ascii := if n <? 10 then digit n else ascii_of_N (Z.to_N (n - 10 + 97)).
(** A group of 16 bits without leading zeros. *)
Definition hex_text (g : Z) : string :=
  let d3 := String (hex_char (g mod 16)) "" in
  let d2 := String (hex_char (g / 16 mod 16)) d3 in
  let d1 := String (hex_char (g / 256 mod 16)) d2 in
  if g <? 16 then d3 else if g <? 256 then d2 else if g <? 4096 then d1 else String (hex_char (g / 4096 mod 16)) d1.

Definition string4 (v : Z) : string :=
  append_int (v / 2 ^ 24) 0 +:+ "." +:+ append_int (v / 2 ^ 16 mod 256) 0 +:+ "." +:+
  append_int (v / 2 ^ 8 mod 256) 0 +:+ "." +:+ append_int (v mod 256) 0.

Definition addr_groups (v : Z) : list Z := (fun i => v / 2 ^ (112 - 16 * Z.of_nat i) mod 65536) <$> seq 0 8.
(** The number of zero groups at the head. *)
Fixpoint zero_run (groups : list Z) : nat :=
  match groups with
  | g :: groups' => if g =? 0 then S (zero_run groups') else 0
  | [] => 0
  end.
(** The first longest run of at least two zero groups: where it starts and ends
    ([255, 255] when there is none). *)
Definition longest_zeros (groups : list Z) : nat * nat :=
  fold_left (fun '(zs, ze) i =>
    let l := zero_run (drop i groups) in
    if (2 <=? l)%nat && (ze - zs <? l)%nat then (i, i + l)%nat else (zs, ze)) (seq 0 8) (255, 255)%nat.
Fixpoint text_groups (fuel i : nat) (zs ze : nat) (groups : list Z) : string :=
  match fuel with
  | O => ""
  | S fuel' =>
      if (8 <=? i)%nat then ""
      else if (i =? zs)%nat then "::" +:+ (if (8 <=? ze)%nat then "" else hex_text (nth ze groups 0) +:+ text_groups fuel' (S ze) zs ze groups)
      else (if (0 <? i)%nat then ":" else "") +:+ hex_text (nth i groups 0) +:+ text_groups fuel' (S i) zs ze groups
  end.
Definition string6 (v : Z) : string :=
  let groups := addr_groups v in let '(zs, ze) := longest_zeros groups in text_groups 9 0 zs ze groups.

(** [addr.String()] *)
Definition Addr_String (a : Addr) : string :=
  match a with
  | AddrNone => "invalid IP"
  | Addr4 v => string4 v
  | Addr6 v zone =>
      (if v / 2 ^ 32 =? 65535 then "::ffff:" +:+ string4 (v mod 2 ^ 32) else string6 v) +:+
      (if bool_decide (zone = ""%string) then "" else "%" +:+ zone)
  end.
Definition Prefix_String (p : Prefix) : string := Addr_String (PrefixAddr p) +:+ "/" +:+ append_int (PrefixBits p) 0.

(** [prefix.Masked()]: the address with the host bits cleared, without its zone. *)
Definition clear_bits (v n : Z) : Z := v / 2 ^ n * 2 ^ n.
Definition Masked (p : Prefix) : Prefix :=
  let host := BitLen (PrefixAddr p) - PrefixBits p in
  {| PrefixAddr := match PrefixAddr p with
                   | AddrNone => AddrNone
                   | Addr4 v => Addr4 (clear_bits v host)
                   | Addr6 v _ => Addr6 (clear_bits v host) ""
                   end;
     PrefixBits := PrefixBits p |}.

Example Prefix_String_v4 : (Prefix_String ∘ Masked <$> ParsePrefix "10.1.2.3/9") = Some "10.0.0.0/9"%string.
Proof. reflexivity. Qed.
Example Prefix_String_v6 : (Prefix_String ∘ Masked <$> ParsePrefix "2001:DB8:0:0:1:0:0:7/120") = Some "2001:db8:0:0:1::/120"%string.
Proof. reflexivity. Qed.
Example Prefix_String_any : (Prefix_String ∘ Masked <$> ParsePrefix "1::/0") = Some "::/0"%string.
Proof. reflexivity. Qed.
Example Prefix_String_mapped : (Prefix_String ∘ Masked <$> ParsePrefix "::ffff:1.2.3.4/120") = Some "::ffff:1.2.3.0/120"%string.
Proof. reflexivity. Qed.
Example Addr_String_last : (Addr_String <$> ParseAddr "1:0:0:2:0:0:0:0") = Some "1:0:0:2::"%string.
Proof. reflexivity. Qed.

(** Masking keeps the addresses a prefix contains. *)
Lemma Contains_Masked p ip :
  0 <= PrefixBits p <= BitLen (PrefixAddr p) -> Contains (Masked p) ip = Contains p ip.
Proof.
  intros H. assert (HB : BitLen (PrefixAddr (Masked p)) = BitLen (PrefixAddr p)) by (destruct p as [[] ?]; done).
  apply eq_true_iff_eq. rewrite !Contains_spec by (rewrite ?HB; done). rewrite HB. change (PrefixBits (Masked p)) with (PrefixBits p).
  split; intros (E & Hn & Hz & Hd); (split; [done|]); (split; [done|]); (split; [done|]); rewrite Hd;
    destruct p as [[|v|v z] n]; simpl in *; try lia; unfold clear_bits; rewrite E, Z.div_mul; try done; apply Z.pow_nonzero; lia.
Qed.

(** ** Reading an IPv4 text back *)

Definition octet_check (n : Z) : bool :=
  let t := append_int n 0 in
  bool_decide (parse_octet t = Some n) &&
  forallb (fun c => bool_decide (split_byte c t = [t])) ["."; ":"; "/"; "%"]%char && bool_decide (prefix_length t = Some n).

Lemma octet_checked n : 0 <= n < 256 -> octet_check n = true.
Proof. intros H. apply (check_range_spec octet_check 8 0); [vm_compute; reflexivity|]. by change (2 ^ Z.of_nat 8) with 256. Qed.

Lemma octet_text n : 0 <= n < 256 ->
  parse_octet (append_int n 0) = Some n /\ prefix_length (append_int n 0) = Some n /\
  forall c, c ∈ ["."; ":"; "/"; "%"]%char -> split_byte c (append_int n 0) = [append_int n 0].
Proof.
  intros H. apply octet_checked in H. unfold octet_check in H. reflect_bools. split_and!; [done..|].
  intros c Hc. rewrite forallb_forall in *. apply list_elem_of_In in Hc.
  match goal with Hf : forall x, _ -> bool_decide _ = true |- _ => specialize (Hf c Hc); by apply bool_decide_eq_true in Hf end.
Qed.

Lemma split_byte_app c s t x fs : split_byte c s = [s] -> split_byte c t = x :: fs -> split_byte c (s +:+ t) = (s +:+ x) :: fs.
Proof.
  revert x fs. induction s as [|a s IH]; intros x fs Hs Ht; [done|].
  change (String a s +:+ t) with (String a (s +:+ t)). simpl in *. pose proof (split_byte_nonempty c s) as Hn.
  destruct (split_byte c s) as [|f l] eqn:E; [done|]. destruct (Ascii.eqb a c); [done|]. injection Hs as -> ->.
  by rewrite (IH x fs eq_refl Ht).
Qed.

Lemma split_byte_sep c s t fs : split_byte c s = [s] -> split_byte c t = fs -> split_byte c (s +:+ String c "" +:+ t) = s :: fs.
Proof.
  intros Hs Ht. change (String c "" +:+ t) with (String c t). rewrite (split_byte_app c s (String c t) "" fs Hs).
  - f_equal. apply str_app_nil_r.
  - simpl. rewrite Ht. destruct fs; [by destruct (split_byte_nonempty c t)|]. by rewrite Ascii.eqb_refl.
Qed.

Lemma split_octets c v : 0 <= v < 2 ^ 32 -> c ∈ [":"; "/"; "%"]%char -> split_byte c (string4 v) = [string4 v].
Proof.
  intros Hv Hc. assert (Hc4 : c ∈ ["."; ":"; "/"; "%"]%char) by set_solver.
  assert (Hdot : split_byte c "." = ["."%string])
    by (revert Hc; rewrite !elem_of_cons, elem_of_nil; intros [->|[->|[->|[]]]]; done).
  assert (Ho : forall n, 0 <= n < 256 -> split_byte c (append_int n 0) = [append_int n 0]) by (intros n Hn; by apply octet_text).
  unfold string4. do 3 (apply split_byte_app; [apply Ho; Z.to_euclidean_division_equations; lia|]; apply split_byte_app; [exact Hdot|]).
  apply Ho. Z.to_euclidean_division_equations; lia.
Qed.

Lemma parseIPv4_string4 v : 0 <= v < 2 ^ 32 -> parseIPv4 (string4 v) = Some v.
Proof.
  intros Hv. unfold parseIPv4, string4.
  set (a := v / 2 ^ 24). set (b := v / 2 ^ 16 mod 256). set (c := v / 2 ^ 8 mod 256). set (d := v mod 256).
  assert (Ha : 0 <= a < 256) by (subst a; Z.to_euclidean_division_equations; lia).
  assert (Hb : 0 <= b < 256) by (apply Z.mod_pos_bound; lia). assert (Hc : 0 <= c < 256) by (apply Z.mod_pos_bound; lia).
  assert (Hd : 0 <= d < 256) by (apply Z.mod_pos_bound; lia).
  rewrite (split_byte_sep "." (append_int a 0) _ [append_int b 0; append_int c 0; append_int d 0]).
  2: { by apply octet_text; [|set_solver]. }
  2: { apply (split_byte_sep "." (append_int b 0)); [by apply octet_text; [|set_solver]|].
       apply (split_byte_sep "." (append_int c 0)); [by apply octet_text; [|set_solver]|]. by apply octet_text; [|set_solver]. }
  destruct (octet_text a Ha) as [-> _], (octet_text b Hb) as [-> _], (octet_text c Hc) as [-> _], (octet_text d Hd) as [-> _].
  simpl. f_equal. subst a b c d. Z.to_euclidean_division_equations; lia.
Qed.

Lemma addr_family_digits s t : str_forall is_digit s = true -> addr_family (s +:+ String "." t) = Some "."%char.
Proof.
  induction s as [|a s IH]; [done|]. change (String a s +:+ String "." t) with (String a (s +:+ String "." t)). simpl.
  intros [Ha Hs]%andb_true_iff.
  destruct (Ascii.eqb_spec a "."), (Ascii.eqb_spec a ":"), (Ascii.eqb_spec a "%"); subst; try done. by apply IH.
Qed.

Lemma append_int_digits n : 0 <= n < 256 -> str_forall is_digit (append_int n 0) = true.
Proof.
  intros H. apply (check_range_spec (fun n => str_forall is_digit (append_int n 0)) 8 0); [vm_compute; reflexivity|].
  by change (2 ^ Z.of_nat 8) with 256.
Qed.

Lemma ParseAddr_string4 v : 0 <= v < 2 ^ 32 -> ParseAddr (string4 v) = Some (Addr4 v).
Proof.
  intros Hv. unfold ParseAddr. replace (addr_family (string4 v)) with (Some "."%char).
  - by rewrite parseIPv4_string4.
  - symmetry. apply addr_family_digits, append_int_digits. Z.to_euclidean_division_equations; lia.
Qed.

Lemma ParsePrefix_string4 v n : 0 <= v < 2 ^ 32 -> 0 <= n <= 32 ->
  ParsePrefix (string4 v +:+ "/" +:+ append_int n 0) = Some {| PrefixAddr := Addr4 v; PrefixBits := n |}.
Proof.
  intros Hv Hn. destruct (octet_text n ltac:(lia)) as (_ & Hl & Hs). unfold ParsePrefix, split_last_slash.
  rewrite (split_byte_sep "/" (string4 v) _ [append_int n 0]).
  - simpl. rewrite ParseAddr_string4 by done. simpl. rewrite Hl. simpl. by replace (n <=? 32) with true by lia.
  - apply split_octets; [done|]. by right; left.
  - apply Hs. set_solver.
Qed.

Lemma parse_octet_range s v : parse_octet s = Some v -> 0 <= v <= 255.
Proof.
  unfold parse_octet. destruct s as [|a s]; [done|]. case_if; [done|]. destruct (read_digits 0 (String a s)) eqn:Er; [|done].
  simpl. case_if; [|done]. intros [= <-]. apply read_digits_range in Er; [|done]. lia.
Qed.

Lemma parseIPv4_range s v : parseIPv4 s = Some v -> 0 <= v < 2 ^ 32.
Proof.
  unfold parseIPv4. destruct (split_byte "." s) as [|a [|b [|c [|d []]]]]; try done.
  destruct (parse_octet a) eqn:Ea, (parse_octet b) eqn:Eb, (parse_octet c) eqn:Ec, (parse_octet d) eqn:Ed; try done.
  apply parse_octet_range in Ea, Eb, Ec, Ed. intros [= <-]. lia.
Qed.

Lemma ParseAddr4_range s v : ParseAddr s = Some (Addr4 v) -> 0 <= v < 2 ^ 32.
Proof.
  unfold ParseAddr. destruct (addr_family s) as [[[] [] [] [] [] [] [] []]|]; try done.
  - destruct (parseIPv4 s) eqn:E; [|done]. intros [= <-]. by apply parseIPv4_range in E.
  - intros H%parseIPv6_family. done.
Qed.
