(* ===== verification/NetAddr.v ===== *)
(** More of Go's [net] and [net/netip]: successors, order and 4-in-6 forms of
    addresses, [net.IPNet], and that an address's text determines it. *)
From Stdlib Require Import ZArith Lia String Ascii.
From stdpp Require Import base tactics list strings sets.
From S2P Require Import Prelude GoStrings GoTime Netip.
Open Scope Z_scope.

(** * Operations on [netip.Addr] *)

(** [addr.Next()]: the zero address after the last one. *)
Definition Next (a : Addr) : Addr :=
  match a with
  | AddrNone => AddrNone
  | Addr4 v => if v =? 2 ^ 32 - 1 then AddrNone else Addr4 (v + 1)
  | Addr6 v z => if v =? 2 ^ 128 - 1 then AddrNone else Addr6 (v + 1) z
  end.

(** [addr.Unmap()] *)
Definition Unmap (a : Addr) : Addr :=
  match a with
  | Addr6 v _ => if v / 2 ^ 32 =? 65535 then Addr4 (v mod 2 ^ 32) else a
  | _ => a
  end.

(** [start.Compare(end) > 0]: by length, then by value, then by zone. *)
Definition addr_greater (a b : Addr) : bool :=
  if BitLen b <? BitLen a then true
  else if BitLen a <? BitLen b then false
  else if addr_bits b <? addr_bits a then true
  else if addr_bits a <? addr_bits b then false
  else match a, b with Addr6 _ z, Addr6 _ z' => str_ltb z' z | _, _ => false end.

(** * [net.IP] and [net.IPNet] *)

(** A [net.IP] of four bytes, of sixteen bytes, or of another length. *)
Inductive IP := IP4 (v : Z) | IP16 (v : Z) | IPother.

(** [net.IP(addr.AsSlice())] *)
Definition AsSlice (a : Addr) : IP :=
  match a with AddrNone => IPother | Addr4 v => IP4 v | Addr6 v _ => IP16 v end.

Definition bytes_val (l : list Byte.byte) : Z := fold_left (fun acc b => acc * 256 + Z.of_N (Byte.to_N b)) l 0.
(** [netip.AddrFromSlice]; the bytes are what a resolver returned. *)
Definition AddrFromSlice (l : list Byte.byte) : option Addr :=
  if bool_decide (length l = 4%nat) then Some (Addr4 (bytes_val l))
  else if bool_decide (length l = 16%nat) then Some (Addr6 (bytes_val l) "")
  else None.

(** [ip.To4()] *)
Definition To4 (ip : IP) : option Z :=
  match ip with
  | IP4 v => Some v
  | IP16 v => if v / 2 ^ 32 =? 65535 then Some (v mod 2 ^ 32) else None
  | IPother => None
  end.

(** A network: its masked address, and the number of one bits of a mask as long as the address. *)
Record IPNet := { net_ip : IP; net_ones : Z }.

(** [net.ParseCIDR]: the address is parsed, without a zone, before the first slash. *)
Definition ParseCIDR (s : string) : option IPNet :=
  match split_byte "/" s with
  | f :: g :: gs =>
      let mask := String.concat "/" (g :: gs) in
      a ← ParseAddr f;
      if hasZone a || bool_decide (mask = ""%string) then None else
      n ← read_digits 0 mask;
      if BitLen a <? n then None else
      Some {| net_ip := match a with
                        | Addr4 v => IP4 (clear_bits v (32 - n))
                        | Addr6 v _ => IP16 (clear_bits v (128 - n))
                        | AddrNone => IPother
                        end;
              net_ones := n |}
  | _ => None
  end.

(** [network.Contains(ip)]: both are brought to four bytes when they can be; the
    last 32 bits of the mask of a 4-in-6 network apply to its four bytes. *)
Definition IPNet_Contains (n : IPNet) (ip : IP) : bool :=
  match To4 (net_ip n), To4 ip with
  | Some nv, Some v =>
      let ones := match net_ip n with IP16 _ => net_ones n - 96 | _ => net_ones n end in
      v / 2 ^ (32 - ones) =? nv / 2 ^ (32 - ones)
  | None, None =>
      match net_ip n, ip with IP16 nv, IP16 v => v / 2 ^ (128 - net_ones n) =? nv / 2 ^ (128 - net_ones n) | _, _ => false end
  | _, _ => false
  end.

Example ParseCIDR_v4 : (fun n => IPNet_Contains n <$> [IP4 0x0a010203; IP4 0x0b010203; IP16 0xffff0a010203]) <$> ParseCIDR "10.9.0.0/8" = Some [true; false; true].
Proof. reflexivity. Qed.
Example ParseCIDR_v6 : (fun n => IPNet_Contains n <$> [IP4 1; IP16 (2 ^ 120); IP16 0xffff00000001]) <$> ParseCIDR "::/0" = Some [false; true; false].
Proof. reflexivity. Qed.
Example ParseCIDR_mapped : (fun n => IPNet_Contains n <$> [IP4 0x0a010203; IP4 0x0b010203; IP16 0]) <$> ParseCIDR "::ffff:10.0.0.0/104" = Some [true; false; false].
Proof. reflexivity. Qed.
Example ParseCIDR_bad : ParseCIDR "10.0.0.0" = None /\ ParseCIDR "10.0.0.0/33" = None /\ ParseCIDR "10.0.0.0/" = None /\ ParseCIDR "1.0.0.0/8/8" = None.
Proof. repeat split; reflexivity. Qed.
Example ParseCIDR_zeros : ParseCIDR "10.0.0.0/008" = ParseCIDR "10.0.0.0/8".
Proof. reflexivity. Qed.

(** * Well-formed addresses *)

Definition addr_ok (a : Addr) : Prop :=
  match a with AddrNone => True | Addr4 v => 0 <= v < 2 ^ 32 | Addr6 v _ => 0 <= v < 2 ^ 128 end.

Lemma addr_ok_Next a : addr_ok a -> addr_ok (Next a).
Proof.
  destruct a as [|v|v z]; simpl; intros H; [done| |].
  - destruct (Z.eqb_spec v (2 ^ 32 - 1)); simpl; [done|]. change (2 ^ 32) with 4294967296 in *. lia.
  - destruct (Z.eqb_spec v (2 ^ 128 - 1)); simpl; [done|]. change (2 ^ 128) with 340282366920938463463374607431768211456 in *. lia.
Qed.

Lemma addr_ok_Unmap a : addr_ok a -> addr_ok (Unmap a).
Proof.
  destruct a as [|v|v z]; simpl; intros H; [done..|]. case_match; [|done]. simpl. apply Z.mod_pos_bound. done.
Qed.

Lemma clear_bits_le v n m : 0 <= v < m -> 0 <= clear_bits v n <= v.
Proof.
  intros H. unfold clear_bits. destruct (Z.leb_spec 0 n) as [Hn|Hn].
  - pose proof (Z.pow_pos_nonneg 2 n ltac:(lia) Hn). pose proof (Z.mul_div_le v (2 ^ n) ltac:(lia)).
    pose proof (Z.div_pos v (2 ^ n) ltac:(lia) ltac:(lia)). nia.
  - rewrite Z.pow_neg_r by done. rewrite Z.div_0_r. lia.
Qed.

Lemma addr_ok_Masked p : addr_ok (PrefixAddr p) -> addr_ok (PrefixAddr (Masked p)).
Proof.
  destruct p as [[|v|v z] n]; simpl; intros H; [done| |];
    pose proof (clear_bits_le v (32 - n) _ H); pose proof (clear_bits_le v (128 - n) _ H); lia.
Qed.

Lemma hex_val_range a v : hex_val a = Some v -> 0 <= v < 16.
Proof. unfold hex_val. repeat case_match; try done; intros [= <-]; reflect_bools; lia. Qed.

Lemma hex_group_range fuel acc n s v k r : 0 <= acc -> hex_group fuel acc n s = Some (v, k, r) ->
  0 <= v < (acc + 1) * 16 ^ Z.of_nat fuel.
Proof.
  revert acc n s. induction fuel as [|fuel IH]; intros acc n s Hacc H;
    (destruct s as [|a s]; simpl in H; [injection H as <- <- <-|destruct (hex_val a) as [h|] eqn:Eh; [|injection H as <- <- <-]]).
  1, 3: change (16 ^ Z.of_nat 0) with 1; lia.
  { done. }
  all: rewrite Nat2Z.inj_succ, Z.pow_succ_r by lia; pose proof (Z.pow_pos_nonneg 16 (Z.of_nat fuel) ltac:(lia) ltac:(lia)).
  - nia.
  - apply hex_val_range in Eh. apply IH in H; [nia|lia].
  - nia.
Qed.

Definition group_ok (g : Z) : Prop := 0 <= g < 65536.

Lemma expand_groups_ok groups e l : Forall group_ok groups -> expand_groups groups e = Some l ->
  Forall group_ok l /\ length l = 8%nat.
Proof.
  unfold expand_groups. intros Hg H. destruct e as [e|]; case_bool_decide; simplify_eq; [|done].
  split; [|rewrite !length_app, length_take, length_replicate, length_drop; lia].
  rewrite !Forall_app. split; [by apply Forall_take|]. split; [|by apply Forall_drop].
  apply Forall_forall. intros x [-> _]%elem_of_replicate. unfold group_ok. lia.
Qed.

Lemma ipv6_groups_ok fuel groups e s l : Forall group_ok groups -> ipv6_groups fuel groups e s = Some l ->
  Forall group_ok l /\ length l = 8%nat.
Proof.
  revert groups e s. induction fuel as [|fuel IH]; intros groups e s Hg H; [done|].
  cbn [ipv6_groups] in H. apply bind_Some in H as ([[acc n] rest] & Eh & H).
  apply hex_group_range in Eh; [|lia]. case_bool_decide; [done|].
  assert (Ha : Forall group_ok (groups ++ [acc])) by (apply Forall_app; split; [done|]; apply Forall_singleton; unfold group_ok; lia).
  assert (H4 : forall v, 0 <= v < 2 ^ 32 -> Forall group_ok (groups ++ [v / 65536; v mod 65536])).
  { intros v Hv. apply Forall_app. split; [done|]. repeat (apply Forall_cons; split); [..|by apply Forall_nil];
    unfold group_ok; pose proof (Z.mod_pos_bound v 65536 ltac:(lia)); pose proof (Z.div_mod v 65536 ltac:(lia)); lia. }
  repeat (case_match; try done; simplify_eq);
    try (by eapply expand_groups_ok; [|exact H]); try (by eapply IH; [|exact H]);
    apply bind_Some in H as (v & E4 & H); apply parseIPv4_range in E4; (eapply expand_groups_ok; [apply H4; exact E4|exact H]).
Qed.

Lemma groups_val_range l : Forall group_ok l -> 0 <= groups_val l < 65536 ^ Z.of_nat (length l).
Proof.
  unfold groups_val. intros H. induction l as [|g l IH] using rev_ind; [simpl; lia|].
  apply Forall_app in H as [Hl [Hg _]%Forall_cons]. rewrite fold_left_app, length_app. cbn [length fold_left].
  specialize (IH Hl). unfold group_ok in Hg. rewrite Nat.add_1_r, Nat2Z.inj_succ, Z.pow_succ_r by lia.
  set (q := 65536 ^ Z.of_nat (length l)) in *. lia.
Qed.

Lemma ParseAddr_ok s a : ParseAddr s = Some a -> addr_ok a.
Proof.
  unfold ParseAddr. intros H. destruct (addr_family s) as [c|]; [|done].
  assert (HG : forall fuel e t z x, (g ← ipv6_groups fuel [] e t; Some (Addr6 (groups_val g) z)) = Some x -> addr_ok x).
  { intros fuel e t z x E. apply bind_Some in E as (g & E & [= <-]).
    destruct (ipv6_groups_ok _ _ _ _ _ ltac:(by apply Forall_nil) E) as [Hf Hl].
    pose proof (groups_val_range g Hf) as Hr. rewrite Hl in Hr. exact Hr. }
  assert (H6 : parseIPv6 s = Some a -> addr_ok a).
  { unfold parseIPv6. intros E. set (spec := match split_byte "%" s with [] => _ | _ => _ end) in E.
    destruct spec as [[t z] bad]. destruct bad; [done|].
    repeat (case_match; simplify_eq; try (by eapply HG; exact E)); simpl; lia. }
  assert (H4 : (v ← parseIPv4 s; Some (Addr4 v)) = Some a -> addr_ok a).
  { intros E. apply bind_Some in E as (v & E & [= <-]). by apply parseIPv4_range in E. }
  destruct c as [[] [] [] [] [] [] [] []]; try done; auto.
Qed.

Lemma ParseAddr_valid s a : ParseAddr s = Some a -> a <> AddrNone.
Proof.
  unfold ParseAddr. intros H ->. destruct (addr_family s) as [c|]; [|done].
  assert (H6 : parseIPv6 s <> Some AddrNone).
  { unfold parseIPv6. set (spec := match split_byte "%" s with [] => _ | _ => _ end).
    destruct spec as [[t z] []]; [done|]. intros E.
    repeat (case_match; simplify_eq; try (by apply bind_Some in E as (? & _ & [=]))). }
  assert (H4 : (v ← parseIPv4 s; Some (Addr4 v)) <> Some AddrNone) by (intros (? & _ & [=])%bind_Some).
  destruct c as [[] [] [] [] [] [] [] []]; done.
Qed.

Lemma ParsePrefix_valid s p : ParsePrefix s = Some p -> PrefixAddr p <> AddrNone.
Proof.
  unfold ParsePrefix. intros ([raw bits] & _ & (ip & Ea & H)%bind_Some)%bind_Some. destruct (hasZone ip); [done|].
  apply bind_Some in H as (n & _ & H). case_match; simplify_eq. by eapply ParseAddr_valid.
Qed.

Lemma ParsePrefix_ok s p : ParsePrefix s = Some p -> addr_ok (PrefixAddr p) /\ 0 <= PrefixBits p <= BitLen (PrefixAddr p).
Proof.
  unfold ParsePrefix. intros H. apply bind_Some in H as ([raw bits] & _ & H). apply bind_Some in H as (ip & Ea & H).
  destruct (hasZone ip); [done|]. apply bind_Some in H as (n & En & H). case_match; simplify_eq. simpl.
  split; [by eapply ParseAddr_ok|]. reflect_bools. split; [|lia].
  assert (R : forall t, read_digits 0 t = Some n -> 0 <= n).
  { intros t E. apply read_digits_range in E; lia. }
  unfold prefix_length in En. repeat (case_match; try done); eauto.
Qed.

(** * The text of an address determines it *)

Definition lacks (c : ascii) (s : string) : bool := str_forall (fun a => negb (Ascii.eqb a c)) s.

Lemma lacks_app c s t : lacks c (s +:+ t) = lacks c s && lacks c t.
Proof. induction s as [|a s IH]; [done|]. unfold lacks in *. simpl. rewrite <- andb_assoc. f_equal. exact IH. Qed.

Lemma lacks_split c s : lacks c s = true -> split_byte c s = [s].
Proof.
  induction s as [|a s IH]; [done|]. unfold lacks in *. simpl. intros [Ha Hs]%andb_true_iff.
  rewrite IH by done. by apply negb_true_iff in Ha as ->.
Qed.

(** Two texts without [c], followed by nothing or by [c], that agree, agree part by part. *)
Lemma lacks_app_inj c s s' t t' :
  lacks c s = true -> lacks c s' = true -> s +:+ String c t = s' +:+ String c t' -> s = s' /\ t = t'.
Proof.
  revert s'. induction s as [|a s IH]; intros [|a' s'] H H' E.
  - by injection E as <-.
  - injection E as <- E. unfold lacks in H'. simpl in H'. by rewrite Ascii.eqb_refl in H'.
  - injection E as -> E. unfold lacks in H. simpl in H. by rewrite Ascii.eqb_refl in H.
  - injection E as <- E. apply andb_true_iff in H as [_ H], H' as [_ H']. by destruct (IH s' H H' E) as [-> ->].
Qed.

Fixpoint hex_read (acc : Z) (s : string) : Z :=
  match s with EmptyString => acc | String a s' => hex_read (acc * 16 + default 0 (hex_val a)) s' end.

Definition hex_check (g : Z) : bool :=
  let t := hex_text g in
  (hex_read 0 t =? g) && lacks ":" t && lacks "." t && lacks "%" t && negb (bool_decide (t = ""%string)).

Lemma hex_checked g : group_ok g -> hex_check g = true.
Proof.
  intros H. assert (C : check_range hex_check 16 0 = true) by (vm_compute; reflexivity).
  apply (check_range_spec hex_check 16 0 C). unfold group_ok in H. lia.
Qed.

(** ** Reading the groups back from the fields between colons *)

Fixpoint head_fields (l : list string) : list string :=
  match l with f :: l' => if bool_decide (f = ""%string) then [] else f :: head_fields l' | [] => [] end.
Definition fields_groups (fs : list string) : list Z :=
  if existsb (fun f => bool_decide (f = ""%string)) fs then
    let pre := hex_read 0 <$> head_fields fs in
    let post := hex_read 0 <$> rev (head_fields (rev fs)) in
    pre ++ replicate (8 - length pre - length post) 0 ++ post
  else hex_read 0 <$> fs.

(** What [longest_zeros] returns: no run, or a run of at least two zero groups. *)
Definition zero_range (groups : list Z) (zs ze : nat) : Prop :=
  (zs = 255 /\ ze = 255)%nat \/
  ((zs + 2 <= ze <= length groups)%nat /\ forall i, (zs <= i < ze)%nat -> nth i groups 0 = 0).

Lemma zero_run_spec l : (zero_run l <= length l)%nat /\ forall i, (i < zero_run l)%nat -> nth i l 0 = 0.
Proof.
  induction l as [|g l [IH1 IH2]]; simpl; [split; [lia|]; intros; lia|].
  destruct (Z.eqb_spec g 0); simpl; [|split; intros; lia].
  split; [lia|]. intros [|i] Hi; [done|]. apply IH2. lia.
Qed.

Lemma longest_zeros_range groups : let '(zs, ze) := longest_zeros groups in zero_range groups zs ze.
Proof.
  unfold longest_zeros.
  assert (H : forall l r, zero_range groups r.1 r.2 -> zero_range groups
    (fold_left (fun '(zs, ze) i => let l := zero_run (drop i groups) in
       if (2 <=? l)%nat && (ze - zs <? l)%nat then (i, i + l)%nat else (zs, ze)) l r).1
    (fold_left (fun '(zs, ze) i => let l := zero_run (drop i groups) in
       if (2 <=? l)%nat && (ze - zs <? l)%nat then (i, i + l)%nat else (zs, ze)) l r).2).
  { induction l as [|i l IH]; intros [zs ze] H; [done|]. cbn [fold_left]. apply IH. cbv zeta.
    destruct (zero_run_spec (drop i groups)) as [Hl Hz]. rewrite length_drop in Hl.
    destruct (_ && _) eqn:E; [|done]. apply andb_true_iff in E as [E _]. apply Nat.leb_le in E. right. cbn [fst snd].
    split; [lia|]. intros j Hj. specialize (Hz (j - i)%nat ltac:(lia)). rewrite nth_lookup, lookup_drop in Hz.
    replace (i + (j - i))%nat with j in Hz by lia. by rewrite nth_lookup. }
  specialize (H (seq 0 8) (255, 255)%nat (or_introl (conj eq_refl eq_refl))).
  by destruct (fold_left _ _ _) as [zs ze].
Qed.

Lemma split_byte_cons c t : split_byte c (String c "" +:+ t) = ""%string :: split_byte c t.
Proof. change (String c "" +:+ t) with (String c t). simpl. rewrite Ascii.eqb_refl. destruct (split_byte c t) eqn:E; [|done]. by apply split_byte_nonempty in E. Qed.

Lemma split_byte_field c s t : split_byte c s = [s] -> split_byte c (s +:+ String c "" +:+ t) = s :: split_byte c t.
Proof. intros H. by apply split_byte_sep. Qed.

Ltac groups_back :=
  repeat match goal with E : hex_text _ = _ |- _ => rewrite E end;
  rewrite ?str_app_nil_l, ?str_app_nil_r;
  repeat first [rewrite split_byte_field by done | rewrite split_byte_cons];
  repeat match goal with E : split_byte ":" ?t = [?t] |- _ => rewrite E end;
  unfold fields_groups; change (bool_decide (""%string = ""%string)) with true; cbn -[hex_read bool_decide];
  repeat (match goal with
          | E : bool_decide (?t = ""%string) = false |- _ => rewrite E
          | |- context [bool_decide (""%string = ""%string)] => change (bool_decide (""%string = ""%string)) with true
          end; cbn -[hex_read bool_decide]);
  repeat match goal with E : hex_read 0 _ = _ |- _ => rewrite E end; cbn -[hex_read].

(** The text of eight groups, given the run that is abbreviated. *)
Lemma text_groups_fields groups zs ze : length groups = 8%nat -> Forall group_ok groups -> zero_range groups zs ze ->
  fields_groups (split_byte ":" (text_groups 9 0 zs ze groups)) = groups.
Proof.
  intros Hlen Hok Hz.
  destruct groups as [|g0 [|g1 [|g2 [|g3 [|g4 [|g5 [|g6 [|g7 [|]]]]]]]]]; try done. clear Hlen.
  assert (T : forall g, group_ok g -> exists t, hex_text g = t /\ hex_read 0 t = g /\ split_byte ":" t = [t] /\ bool_decide (t = ""%string) = false).
  { intros g Hg. exists (hex_text g). apply hex_checked in Hg. unfold hex_check in Hg. reflect_bools.
    split; [done|]. split; [done|]. split; [by apply lacks_split|by apply bool_decide_eq_false_2]. }
  repeat match goal with H : Forall _ (_ :: _) |- _ => apply Forall_cons in H as [?Hg H] end.
  repeat match goal with H : group_ok ?g |- _ =>
    let t := fresh "t" in let E := fresh "E" in destruct (T g H) as (t & E & ? & ? & ?); clear H end.
  destruct Hz as [[-> ->]|[Hr Hz]].
  - cbn -[hex_text String.append split_byte fields_groups]. by groups_back.
  - cbn [length] in Hr.
    destruct zs as [|[|[|[|[|[|[|zs]]]]]]]; try lia; destruct ze as [|[|[|[|[|[|[|[|[|ze]]]]]]]]]; try lia;
      clear T Hok; try (pose proof (Hz 0%nat ltac:(lia))); try (pose proof (Hz 1%nat ltac:(lia)));
      try (pose proof (Hz 2%nat ltac:(lia))); try (pose proof (Hz 3%nat ltac:(lia))); try (pose proof (Hz 4%nat ltac:(lia)));
      try (pose proof (Hz 5%nat ltac:(lia))); try (pose proof (Hz 6%nat ltac:(lia))); try (pose proof (Hz 7%nat ltac:(lia)));
      cbn [nth] in *; cbn -[hex_text String.append split_byte fields_groups];
      repeat match goal with |- context ["::" +:+ ?t] => change ("::" +:+ t) with (":" +:+ (":" +:+ t)) end.
      all: groups_back; congruence.
Qed.

Lemma split_lacks c s : split_byte c s = [s] -> lacks c s = true.
Proof.
  induction s as [|a s IH]; [done|]. simpl. destruct (split_byte c s) as [|f fs] eqn:E; [done|].
  unfold lacks in *. simpl. destruct (Ascii.eqb a c); [done|]. intros [= -> ->]. by rewrite IH.
Qed.

Lemma string4_lacks v c : 0 <= v < 2 ^ 32 -> c ∈ [":"; "/"; "%"]%char -> lacks c (string4 v) = true.
Proof. intros. by apply split_lacks, split_octets. Qed.

Lemma text_groups_lacks c fuel i zs ze groups : Forall group_ok groups -> c ∈ ["."; "%"]%char ->
  lacks c (text_groups fuel i zs ze groups) = true.
Proof.
  intros Hok Hc. assert (Hn : forall k, lacks c (hex_text (nth k groups 0)) = true).
  { intros k. assert (Hg : group_ok (nth k groups 0)).
    { rewrite nth_lookup. destruct (groups !! k) eqn:E; [by eapply Forall_lookup_1|unfold group_ok; simpl; lia]. }
    apply hex_checked in Hg. unfold hex_check in Hg. reflect_bools. set_solver. }
  assert (Hs : lacks c ":" = true /\ lacks c "::" = true) by (repeat (apply elem_of_cons in Hc as [->|Hc]; [done|]); set_solver).
  destruct Hs as [Hs1 Hs2]. revert i. induction fuel as [|fuel IH]; intros i; [done|]. cbn [text_groups].
  repeat case_match; rewrite ?lacks_app, ?Hn, ?Hs1, ?Hs2, ?IH; done.
Qed.

Lemma addr_groups_ok v : Forall group_ok (addr_groups v).
Proof. apply Forall_fmap, Forall_forall. intros i _. simpl. unfold group_ok. apply Z.mod_pos_bound. lia. Qed.

Lemma groups_val_addr_groups v : 0 <= v < 2 ^ 128 -> groups_val (addr_groups v) = v.
Proof.
  intros H. unfold groups_val, addr_groups. cbn [seq fmap list_fmap fold_left].
  assert (D : forall k, 0 <= k -> v / 2 ^ k / 65536 = v / 2 ^ (k + 16)).
  { intros k Hk. rewrite Z.pow_add_r by lia. by rewrite Z.div_div by lia. }
  assert (E : forall k q, 0 <= k -> q = v / 2 ^ (k + 16) -> q * 65536 + v / 2 ^ k mod 65536 = v / 2 ^ k).
  { intros k q Hk ->. rewrite <- D by done. pose proof (Z.div_mod (v / 2 ^ k) 65536 ltac:(lia)). lia. }
  change (112 - 16 * Z.of_nat 0) with 112. change (112 - 16 * Z.of_nat 1) with 96. change (112 - 16 * Z.of_nat 2) with 80.
  change (112 - 16 * Z.of_nat 3) with 64. change (112 - 16 * Z.of_nat 4) with 48. change (112 - 16 * Z.of_nat 5) with 32.
  change (112 - 16 * Z.of_nat 6) with 16. change (112 - 16 * Z.of_nat 7) with 0.
  rewrite (E 112 0) by (try lia; symmetry; apply Z.div_small; lia).
  rewrite (E 96), (E 80), (E 64), (E 48), (E 32), (E 16), (E 0) by (done || lia). change (2 ^ 0) with 1. by rewrite Z.div_1_r.
Qed.

Lemma string6_inj v v' : 0 <= v < 2 ^ 128 -> 0 <= v' < 2 ^ 128 -> string6 v = string6 v' -> v = v'.
Proof.
  intros Hv Hv' E. rewrite <- (groups_val_addr_groups v), <- (groups_val_addr_groups v') by done. f_equal.
  assert (G : forall w, fields_groups (split_byte ":" (string6 w)) = addr_groups w).
  { intros w. unfold string6. pose proof (longest_zeros_range (addr_groups w)) as Hz.
    destruct (longest_zeros (addr_groups w)) as [zs ze]. apply text_groups_fields; [done|apply addr_groups_ok|done]. }
  by rewrite <- (G v), <- (G v'), E.
Qed.

Lemma string4_inj v v' : 0 <= v < 2 ^ 32 -> 0 <= v' < 2 ^ 32 -> string4 v = string4 v' -> v = v'.
Proof. intros Hv Hv' E. pose proof (parseIPv4_string4 v Hv) as P. rewrite E, (parseIPv4_string4 v' Hv') in P. by simplify_eq. Qed.

(** The text of an IPv6 address before its zone. *)
Definition body6 (v : Z) : string := if v / 2 ^ 32 =? 65535 then "::ffff:" +:+ string4 (v mod 2 ^ 32) else string6 v.

Lemma string4_dot v : lacks "." (string4 v) = false.
Proof. unfold string4. rewrite !lacks_app. simpl. apply andb_false_r. Qed.

Lemma string6_lacks v c : c ∈ ["."; "%"]%char -> lacks c (string6 v) = true.
Proof. intros Hc. unfold string6. destruct (longest_zeros _). apply text_groups_lacks; [apply addr_groups_ok|done]. Qed.

Lemma string6_colon v : lacks ":" (string6 v) = false.
Proof.
  unfold string6. destruct (longest_zeros _) as [zs ze]. generalize (addr_groups v) as g. intros g.
  change (text_groups 9 0 zs ze g) with (if (8 <=? 0)%nat then ""%string else
    if (0 =? zs)%nat then "::" +:+ (if (8 <=? ze)%nat then "" else hex_text (nth ze g 0) +:+ text_groups 8 (S ze) zs ze g)
    else (if (0 <? 0)%nat then ":" else "") +:+ hex_text (nth 0 g 0) +:+ text_groups 8 1 zs ze g).
  cbn [Nat.leb]. destruct (0 =? zs)%nat; [by rewrite lacks_app|].
  change (text_groups 8 1 zs ze g) with (if (8 <=? 1)%nat then ""%string else
    if (1 =? zs)%nat then "::" +:+ (if (8 <=? ze)%nat then "" else hex_text (nth ze g 0) +:+ text_groups 7 (S ze) zs ze g)
    else (if (0 <? 1)%nat then ":" else "") +:+ hex_text (nth 1 g 0) +:+ text_groups 7 2 zs ze g).
  cbn [Nat.leb Nat.ltb]. destruct (1 =? zs)%nat; rewrite !lacks_app; simpl; by rewrite ?andb_false_r.
Qed.

Lemma body6_lacks v : 0 <= v < 2 ^ 128 -> lacks "%" (body6 v) = true.
Proof.
  intros Hv. unfold body6. case_match; [|apply string6_lacks; set_solver].
  rewrite lacks_app, string4_lacks; [done| |set_solver]. apply Z.mod_pos_bound. lia.
Qed.

Lemma body6_inj v v' : 0 <= v < 2 ^ 128 -> 0 <= v' < 2 ^ 128 -> body6 v = body6 v' -> v = v'.
Proof.
  intros Hv Hv' E. unfold body6 in E.
  assert (D : forall w t, "::ffff:" +:+ string4 w = t -> lacks "." t = false) by (intros w t <-; by rewrite lacks_app, string4_dot).
  assert (N : forall w, lacks "." (string6 w) = true) by (intros; apply string6_lacks; set_solver).
  destruct (Z.eqb_spec (v / 2 ^ 32) 65535) as [F|F], (Z.eqb_spec (v' / 2 ^ 32) 65535) as [F'|F'].
  - simpl in E. injection E as E. apply string4_inj in E; [|by apply Z.mod_pos_bound..].
    rewrite (Z.div_mod v (2 ^ 32)), (Z.div_mod v' (2 ^ 32)) by done. by rewrite F, F', E.
  - apply D in E. by rewrite N in E.
  - symmetry in E. apply D in E. by rewrite N in E.
  - by apply string6_inj.
Qed.

(** Different valid addresses have different texts. *)
Lemma Addr_String_inj a b : addr_ok a -> addr_ok b -> a <> AddrNone -> b <> AddrNone -> Addr_String a = Addr_String b -> a = b.
Proof.
  intros Ha Hb Na Nb E.
  assert (C : forall v, 0 <= v < 2 ^ 32 -> lacks ":" (string4 v) = true) by (intros; apply string4_lacks; [done|set_solver]).
  assert (C6 : forall v z, lacks ":" (Addr_String (Addr6 v z)) = false).
  { intros v z. cbn [Addr_String]. rewrite lacks_app. case_match; [by rewrite lacks_app|by rewrite string6_colon]. }
  destruct a as [|v|v z], b as [|v'|v' z']; try done.
  - f_equal. by apply string4_inj.
  - apply (f_equal (lacks ":")) in E. rewrite C6 in E. change (lacks ":" (string4 v) = false) in E. by rewrite C in E.
  - apply (f_equal (lacks ":")) in E. rewrite C6 in E. change (false = lacks ":" (string4 v')) in E. by rewrite C in E.
  - change (body6 v +:+ (if bool_decide (z = ""%string) then "" else String "%" z) =
            body6 v' +:+ (if bool_decide (z' = ""%string) then "" else String "%" z')) in E.
    pose proof (body6_lacks v Ha) as L. pose proof (body6_lacks v' Hb) as L'.
    assert (P : forall w t, lacks "%" (w +:+ String "%" t) = false) by (intros; rewrite lacks_app; simpl; apply andb_false_r).
    repeat case_bool_decide; subst; rewrite ?str_app_nil_r in E.
    + f_equal. by apply body6_inj.
    + by rewrite E, P in L.
    + by rewrite <- E, P in L'.
    + apply lacks_app_inj in E as [E ->]; [|done..]. f_equal. by apply body6_inj.
Qed.
