(* ===== verification/WorkerModel.v ===== *)
(** The data of the scanner-worker subsystem: internal/model/worker.go,
    worker_job.go and worker_evidence.go, with the parts of model.go they
    refer to. A Go string type with named constants stays a string, since the
    values come from JSON and from the database. *)
From Stdlib Require Import ZArith String.
From stdpp Require Import base tactics list strings gmap.
From S2P Require Import Prelude GoStrings GoTime.
Open Scope Z_scope.

Definition EndpointStatus := string.
Definition EndpointActive : EndpointStatus := "active".
Definition EndpointRevoked : EndpointStatus := "revoked".

Definition WorkerCapability := string.
Definition WorkerCapabilityTCPConnect : WorkerCapability := "tcp_connect".
Definition WorkerCapabilityServiceIdentification : WorkerCapability := "service_identification".
Definition WorkerCapabilityHTTP : WorkerCapability := "http_configuration".
Definition WorkerCapabilityTLS : WorkerCapability := "tls_configuration".
Definition WorkerCapabilitySSH : WorkerCapability := "ssh_configuration".

Definition WorkerHealth := string.
Definition WorkerHealthHealthy : WorkerHealth := "healthy".
Definition WorkerHealthDegraded : WorkerHealth := "degraded".

(** [ScannerWorker]; the alerts and the fleet columns are computed for the
    listing by package agentidentity and have no part in dispatch. *)
Record ScannerWorker := {
  Worker_ID : string;
  Worker_Name : string;
  Worker_SiteID : string;
  Worker_Status : EndpointStatus;
  Worker_CertificateSerial : string;
  Worker_AllowedCIDRs : list string;
  Worker_AllowedPorts : list Z;
  Worker_MaxConcurrent : Z;
  Worker_RateLimitPerSecond : Z;
  Worker_EnrolledAt : Time;
  Worker_ExpiresAt : Time;
  Worker_LastSeenAt : option Time;
  Worker_SoftwareVersion : string;
  Worker_OperatingSystem : string;
  Worker_Architecture : string;
  Worker_Capabilities : list WorkerCapability;
  Worker_AvailableConcurrency : Z;
  Worker_Health : WorkerHealth;
  Worker_HealthMessage : string;
  Worker_DispatchEnabled : bool;
  Worker_RevokedAt : option Time;
  Worker_RevocationReason : string }.

Record WorkerHeartbeat := {
  Heartbeat_SchemaVersion : Z;
  Heartbeat_SoftwareVersion : string;
  Heartbeat_OperatingSystem : string;
  Heartbeat_Architecture : string;
  Heartbeat_Capabilities : list WorkerCapability;
  Heartbeat_AvailableConcurrency : Z;
  Heartbeat_Health : WorkerHealth;
  Heartbeat_HealthMessage : string }.

Record Target := { Target_Name : string; Target_Address : string; Target_GroupIDs : list string }.
#[export] Instance Target_eq_dec : EqDecision Target.
Proof. solve_decision. Defined.

Record WorkerCheckpoint := {
  Checkpoint_Address : string;
  Checkpoint_Port : Z;
  Checkpoint_CompletedAt : Time }.
#[export] Instance WorkerCheckpoint_eq_dec : EqDecision WorkerCheckpoint.
Proof. unfold Time. solve_decision. Defined.

(** ** Jobs *)

Definition WorkerJobStatus := string.
Definition WorkerJobPending : WorkerJobStatus := "pending".
Definition WorkerJobLeased : WorkerJobStatus := "leased".
Definition WorkerJobCompleted : WorkerJobStatus := "completed".
Definition WorkerJobCanceled : WorkerJobStatus := "canceled".
Definition WorkerJobExpired : WorkerJobStatus := "expired".

Record WorkerJobResume := {
  Resume_PreviousWorkerID : string;
  Resume_Completed : list WorkerCheckpoint;
  Resume_NextEvidenceSequence : Z }.
#[export] Instance WorkerJobResume_eq_dec : EqDecision WorkerJobResume.
Proof. solve_decision. Defined.

Record WorkerJob := {
  Job_SchemaVersion : Z;
  Job_ID : string;
  Job_WorkerID : string;
  Job_ScanID : string;
  Job_SiteID : string;
  Job_IssuedAt : Time;
  Job_ExpiresAt : Time;
  Job_Targets : list Target;
  Job_Ports : list Z;
  Job_MaxConcurrent : Z;
  Job_RateLimitPerSecond : Z;
  Job_RequiredCapabilities : list WorkerCapability;
  Job_Resume : option WorkerJobResume;
  Job_Status : WorkerJobStatus }.
#[export] Instance WorkerJob_eq_dec : EqDecision WorkerJob.
Proof. unfold EqDecision, Decision, WorkerJobStatus, WorkerCapability, Time in *. solve_decision. Defined.

Record SignedWorkerJob := {
  SignedJob_Algorithm : string;
  SignedJob_KeyID : string;
  SignedJob_Job : WorkerJob;
  SignedJob_Signature : string }.
#[export] Instance SignedWorkerJob_eq_dec : EqDecision SignedWorkerJob.
Proof. solve_decision. Defined.

Record WorkerJobResumeCandidate := {
  Candidate_Envelope : SignedWorkerJob;
  Candidate_Completed : list WorkerCheckpoint;
  Candidate_NextEvidenceSequence : Z }.

Definition WorkerJobResultOutcome := string.
Definition WorkerJobResultSucceeded : WorkerJobResultOutcome := "succeeded".
Definition WorkerJobResultFailed : WorkerJobResultOutcome := "failed".
Definition WorkerJobResultCanceled : WorkerJobResultOutcome := "canceled".

Record WorkerJobResultReceipt := {
  Receipt_ResultID : string;
  Receipt_JobID : string;
  Receipt_WorkerID : string;
  Receipt_Outcome : WorkerJobResultOutcome;
  Receipt_CompletedAt : Time;
  Receipt_AcceptedAt : Time }.

Record WorkerJobLoad := { Load_ActiveJobs : Z; Load_ReservedConcurrency : Z }.
(** The zero value a Go map yields for an absent key. *)
Definition WorkerJobLoad_zero : WorkerJobLoad := {| Load_ActiveJobs := 0; Load_ReservedConcurrency := 0 |}.

Record WorkerJobDeadLetter := {
  DeadLetter_JobID : string;
  DeadLetter_ScanID : string;
  DeadLetter_WorkerID : string;
  DeadLetter_FailureCount : Z;
  DeadLetter_Reason : string;
  DeadLetter_QuarantinedAt : string }.

(** ** Evidence *)

Record ServiceObservation := {
  Observation_ID : string;
  Observation_Target : string;
  Observation_Address : string;
  Observation_Port : Z;
  Observation_Protocol : string;
  Observation_Product : string;
  Observation_Version : string;
  Observation_Confidence : string;
  Observation_Evidence : string;
  Observation_Metadata : gmap string string;
  Observation_ObservedAt : Time }.
#[export] Instance ServiceObservation_eq_dec : EqDecision ServiceObservation.
Proof. unfold EqDecision, Decision, Time in *. solve_decision. Defined.

Definition FindingStatus := string.
Definition FindingOpen : FindingStatus := "open".
Definition FindingInProgress : FindingStatus := "in_progress".
Definition FindingResolved : FindingStatus := "resolved".

Record Finding := {
  Finding_ID : string;
  Finding_CheckID : string;
  Finding_Target : string;
  Finding_Address : string;
  Finding_Port : Z;
  Finding_Service : string;
  Finding_Severity : string;
  Finding_Title : string;
  Finding_Evidence : string;
  Finding_Remediation : string;
  Finding_ObservedAt : Time;
  Finding_Status : FindingStatus;
  Finding_AssignedTo : string;
  Finding_WorkflowUpdatedAt : option Time }.
#[export] Instance Finding_eq_dec : EqDecision Finding.
Proof. unfold EqDecision, Decision, Time in *. solve_decision. Defined.

Record WorkerEvidenceBatch := {
  Batch_SchemaVersion : Z;
  Batch_ID : string;
  Batch_WorkerID : string;
  Batch_JobID : string;
  Batch_ScanID : string;
  Batch_Sequence : Z;
  Batch_Final : bool;
  Batch_CollectedAt : Time;
  Batch_Observations : list ServiceObservation;
  Batch_Findings : list Finding;
  Batch_Checkpoints : list WorkerCheckpoint }.
#[export] Instance WorkerEvidenceBatch_eq_dec : EqDecision WorkerEvidenceBatch.
Proof. unfold EqDecision, Decision, Time in *. solve_decision. Defined.

Record SignedWorkerEvidenceBatch := {
  SignedBatch_Algorithm : string;
  SignedBatch_CertificateSerial : string;
  SignedBatch_Batch : WorkerEvidenceBatch;
  SignedBatch_Signature : string }.
#[export] Instance SignedWorkerEvidenceBatch_eq_dec : EqDecision SignedWorkerEvidenceBatch.
Proof. solve_decision. Defined.
