(* ===== verification/WorkerJob.v ===== *)
(** internal/workerjob/validate.go and signer.go: what a worker-job envelope
    must satisfy before it is dispatched, leased or executed. *)
From Stdlib Require Import ZArith Lia String Ascii.
From stdpp Require Import base tactics list strings gmap sets.
From S2P Require Import Prelude GoStrings GoTime GoRegex Netip WorkerModel.
Open Scope Z_scope.

(** * Scope and validity *)

(** [^[a-z0-9]+(?:-[a-z0-9]+)*$] *)
Definition jobSiteIDPattern : re :=
  let alnum := RClass (por is_lower is_digit) in
  RSeq (RPlus alnum) (RStar (RSeq (RByte "-") (RPlus alnum))).

Definition jobSchemaVersion : Z := 1.
Definition maximumJobLifetime : Duration := 24 * Hour.
Definition jobClockSkew : Duration := Minute.
Definition jobIdentityLimit : Z := 200.
Definition jobSiteIDLimit : Z := 64.
Definition maximumJobRate : Z := 1000.


Definition validJobIdentities (job : WorkerJob) : bool :=
  negb (bool_decide (Job_ID job = ""%string)) && (strlen (Job_ID job) <=? jobIdentityLimit) &&
  negb (bool_decide (Job_WorkerID job = ""%string)) && (strlen (Job_WorkerID job) <=? jobIdentityLimit) &&
  negb (bool_decide (Job_ScanID job = ""%string)) && (strlen (Job_ScanID job) <=? jobIdentityLimit) &&
  (strlen (Job_SiteID job) <=? jobSiteIDLimit).

Definition validateJobResources (job : WorkerJob) (worker : ScannerWorker) : result () :=
  reject (Job_MaxConcurrent job <? 1) || (Worker_MaxConcurrent worker <? Job_MaxConcurrent job)
    as "worker job concurrency exceeds the assigned worker scope";;
  reject (Job_RateLimitPerSecond job <? 0) || (maximumJobRate <? Job_RateLimitPerSecond job)
    as "worker job rate limit is invalid";;
  reject (0 <? Worker_RateLimitPerSecond worker) &&
         ((Job_RateLimitPerSecond job =? 0) || (Worker_RateLimitPerSecond worker <? Job_RateLimitPerSecond job))
    as "worker job rate exceeds the assigned worker scope";;
  Ok tt.

Definition addressAllowed (address : Addr) (prefixes : list Prefix) : bool :=
  existsb (fun prefix => Contains prefix address) prefixes.

Definition parseAllowed (prefixes : list Prefix) (raw : string) : result (list Prefix) :=
  match ParsePrefix raw with
  | None => Err "scanner worker has an invalid assigned network"
  | Some prefix => Ok (prefixes ++ [prefix])
  end.

Definition claimTarget (prefixes : list Prefix) (seen : gset Addr) (target : Target) : result (gset Addr) :=
  match ParseAddr (Target_Address target) with
  | Some address =>
      if bool_decide (address ∈ seen) || negb (addressAllowed address prefixes)
      then Err "worker job contains a duplicate, invalid, or out-of-scope target"
      else Ok ({[ address ]} ∪ seen)
  | None => Err "worker job contains a duplicate, invalid, or out-of-scope target"
  end.

Definition validateJobTargets (targets : list Target) (allowedCIDRs : list string) : result () :=
  reject bool_decide (targets = []) as "worker job requires at least one target";;
  prefixes ← for_each parseAllowed [] allowedCIDRs;
  try for_each (claimTarget prefixes) ∅ targets;;
  Ok tt.

Definition claimPort (allowed : gset Z) (seen : gset Z) (port : Z) : result (gset Z) :=
  if negb (bool_decide (port ∈ allowed)) || bool_decide (port ∈ seen)
  then Err "worker job contains a duplicate or out-of-scope port"
  else Ok ({[ port ]} ∪ seen).

Definition validateJobPorts (ports allowedPorts : list Z) : result () :=
  reject bool_decide (ports = []) as "worker job requires at least one port";;
  try for_each (claimPort (list_to_set allowedPorts)) ∅ ports;;
  Ok tt.

Definition claimCapability (available seen : gset string) (capability : WorkerCapability) : result (gset string) :=
  if negb (bool_decide (capability ∈ available)) || bool_decide (capability ∈ seen)
  then Err "worker job contains a duplicate or unavailable capability"
  else Ok ({[ capability ]} ∪ seen).

Definition validateJobCapabilities (required reported : list WorkerCapability) : result () :=
  reject bool_decide (required = []) as "worker job requires at least one capability";;
  try for_each (claimCapability (list_to_set reported)) ∅ required;;
  Ok tt.

(** The address a map key is made of: the zero address when it does not parse. *)
Definition addr_or_zero (raw : string) : Addr := default AddrNone (ParseAddr raw).

Definition claimCheckpoint (targets : gset Addr) (ports : gset Z)
    (seen : gset (Addr * Z)) (checkpoint : WorkerCheckpoint) : result (gset (Addr * Z)) :=
  match ParseAddr (Checkpoint_Address checkpoint) with
  | None => Err "worker job resume checkpoint is invalid or outside its scope"
  | Some address =>
      reject negb (bool_decide (address ∈ targets)) || negb (bool_decide (Checkpoint_Port checkpoint ∈ ports)) ||
             IsZero (Checkpoint_CompletedAt checkpoint)
        as "worker job resume checkpoint is invalid or outside its scope";;
      let key := (address, wrapu16 (Checkpoint_Port checkpoint)) in
      reject bool_decide (key ∈ seen) as "worker job resume checkpoint is duplicated";;
      Ok ({[ key ]} ∪ seen)
  end.

Definition validateJobResume (job : WorkerJob) : result () :=
  match Job_Resume job with
  | None => Ok tt
  | Some resume =>
      reject bool_decide (Resume_PreviousWorkerID resume = ""%string) ||
             bool_decide (Resume_PreviousWorkerID resume = Job_WorkerID job) ||
             (Resume_NextEvidenceSequence resume =? 0)
        as "worker job resume identity or sequence is invalid";;
      let targets := list_to_set (addr_or_zero ∘ Target_Address <$> Job_Targets job) in
      let ports := list_to_set (Job_Ports job) in
      try for_each (claimCheckpoint targets ports) ∅ (Resume_Completed resume);;
      Ok tt
  end.

Definition Validate (job : WorkerJob) (worker : ScannerWorker) (now : Time) : result () :=
  reject negb (Job_SchemaVersion job =? jobSchemaVersion) || negb (bool_decide (Job_Status job = WorkerJobPending))
    as "worker job schema or initial status is invalid";;
  reject negb (validJobIdentities job) || negb (bool_decide (Job_WorkerID job = Worker_ID worker))
    as "worker job identity is invalid";;
  reject negb (bool_decide (Job_SiteID job = ""%string)) &&
         (negb (bool_decide (Job_SiteID job = Worker_SiteID worker)) || negb (re_match jobSiteIDPattern (Job_SiteID job)))
    as "worker job site affinity is invalid";;
  reject After (Job_IssuedAt job) (Add now jobClockSkew) || negb (After (Job_ExpiresAt job) now) ||
         negb (After (Job_ExpiresAt job) (Job_IssuedAt job)) ||
         (maximumJobLifetime <? Sub (Job_ExpiresAt job) (Job_IssuedAt job))
    as "worker job validity period is invalid";;
  reject negb (bool_decide (Worker_Status worker = EndpointActive)) || negb (Before now (Worker_ExpiresAt worker))
    as "scanner worker is not active";;
  try validateJobResources job worker;;
  try validateJobTargets (Job_Targets job) (Worker_AllowedCIDRs worker);;
  try validateJobPorts (Job_Ports job) (Worker_AllowedPorts worker);;
  try validateJobResume job;;
  validateJobCapabilities (Job_RequiredCapabilities job) (Worker_Capabilities worker).

(** * What validation means *)

(** An address is in a worker's scope when one of its networks holds it. *)
Definition in_scope (cidrs : list string) (address : Addr) : Prop :=
  exists raw prefix, raw ∈ cidrs /\ ParsePrefix raw = Some prefix /\ Contains prefix address = true.

Record ResumeValid (job : WorkerJob) (resume : WorkerJobResume) : Prop := {
  resume_other_worker : Resume_PreviousWorkerID resume <> ""%string /\
    Resume_PreviousWorkerID resume <> Job_WorkerID job;
  resume_sequence : Resume_NextEvidenceSequence resume <> 0;
  resume_checkpoints : Forall (fun c => exists address,
    ParseAddr (Checkpoint_Address c) = Some address /\
    address ∈ addr_or_zero ∘ Target_Address <$> Job_Targets job /\
    Checkpoint_Port c ∈ Job_Ports job /\ Checkpoint_CompletedAt c <> ZeroTime) (Resume_Completed resume);
  resume_distinct : NoDup ((fun c => (addr_or_zero (Checkpoint_Address c), wrapu16 (Checkpoint_Port c)))
                           <$> Resume_Completed resume) }.

Record JobValid (job : WorkerJob) (worker : ScannerWorker) (now : Time) : Prop := {
  valid_schema : Job_SchemaVersion job = jobSchemaVersion /\ Job_Status job = WorkerJobPending;
  valid_identity : validJobIdentities job = true /\ Job_WorkerID job = Worker_ID worker;
  valid_site : Job_SiteID job = ""%string \/
    (Job_SiteID job = Worker_SiteID worker /\ re_lang jobSiteIDPattern (Job_SiteID job));
  valid_period : Job_IssuedAt job <= now + jobClockSkew /\ now < Job_ExpiresAt job /\
    Job_IssuedAt job < Job_ExpiresAt job <= Job_IssuedAt job + maximumJobLifetime;
  valid_worker : Worker_Status worker = EndpointActive /\ now < Worker_ExpiresAt worker;
  valid_concurrency : 1 <= Job_MaxConcurrent job <= Worker_MaxConcurrent worker;
  valid_rate : 0 <= Job_RateLimitPerSecond job <= maximumJobRate /\
    (0 < Worker_RateLimitPerSecond worker -> 0 < Job_RateLimitPerSecond job <= Worker_RateLimitPerSecond worker);
  valid_networks : Forall (fun raw => is_Some (ParsePrefix raw)) (Worker_AllowedCIDRs worker);
  valid_targets : Job_Targets job <> [] /\
    Forall (fun t => exists address, ParseAddr (Target_Address t) = Some address /\
                                     in_scope (Worker_AllowedCIDRs worker) address) (Job_Targets job) /\
    NoDup (addr_or_zero ∘ Target_Address <$> Job_Targets job);
  valid_ports : Job_Ports job <> [] /\ Forall (fun p => p ∈ Worker_AllowedPorts worker) (Job_Ports job) /\
    NoDup (Job_Ports job);
  valid_resume : forall resume, Job_Resume job = Some resume -> ResumeValid job resume;
  valid_capabilities : Job_RequiredCapabilities job <> [] /\
    Forall (fun c => c ∈ Worker_Capabilities worker) (Job_RequiredCapabilities job) /\
    NoDup (Job_RequiredCapabilities job) }.

(** ** The loops *)

Lemma for_each_parseAllowed acc cidrs :
  for_each parseAllowed acc cidrs =
  match mapM ParsePrefix cidrs with
  | Some prefixes => Ok (acc ++ prefixes)
  | None => Err "scanner worker has an invalid assigned network"
  end.
Proof.
  revert acc. induction cidrs as [|raw cidrs IH]; intros acc; simpl; [by rewrite app_nil_r|].
  unfold parseAllowed at 2. destruct (ParsePrefix raw); simpl; [|done].
  rewrite IH. destruct (mapM ParsePrefix cidrs); simpl; [|done]. by rewrite <- app_assoc.
Qed.

Lemma addressAllowed_scope cidrs prefixes address :
  mapM ParsePrefix cidrs = Some prefixes ->
  addressAllowed address prefixes = true <-> in_scope cidrs address.
Proof.
  intros H%mapM_Some_1. unfold addressAllowed, in_scope. rewrite existsb_exists.
  setoid_rewrite <- list_elem_of_In. split.
  - intros (p & [i Hi]%list_elem_of_lookup_1 & Hc). destruct (Forall2_lookup_r _ _ _ _ _ H Hi) as (raw & Hr & Hp).
    exists raw, p. split; [by eapply list_elem_of_lookup_2|done].
  - intros (raw & p & [i Hi]%list_elem_of_lookup_1 & Hp & Hc).
    destruct (Forall2_lookup_l _ _ _ _ _ H Hi) as (p' & Hp' & E). simplify_eq.
    exists p. split; [by eapply list_elem_of_lookup_2|done].
Qed.

Lemma claimTargets_ok cidrs prefixes targets :
  mapM ParsePrefix cidrs = Some prefixes ->
  is_ok (for_each (claimTarget prefixes) ∅ targets) = true <->
  Forall (fun t => exists address, ParseAddr (Target_Address t) = Some address /\ in_scope cidrs address) targets /\
  NoDup (addr_or_zero ∘ Target_Address <$> targets).
Proof.
  intros Hp. rewrite (for_each_distinct_ok (claimTarget prefixes)
    (fun t => match ParseAddr (Target_Address t) with Some a => addressAllowed a prefixes | None => false end)
    (addr_or_zero ∘ Target_Address) "worker job contains a duplicate, invalid, or out-of-scope target").
  - f_equiv. apply Forall_iff; intros t.
    setoid_rewrite <- (addressAllowed_scope _ _ _ Hp).
    destruct (ParseAddr (Target_Address t)); naive_solver.
  - intros seen t. unfold claimTarget, addr_or_zero. simpl.
    destruct (ParseAddr (Target_Address t)) as [a|]; simpl; [|done].
    do 2 case_bool_decide; destruct (addressAllowed a prefixes); simpl; done.
Qed.

Lemma claimPorts_ok allowed ports :
  is_ok (for_each (claimPort (list_to_set allowed)) ∅ ports) = true <->
  Forall (fun p => p ∈ allowed) ports /\ NoDup ports.
Proof.
  rewrite (for_each_distinct_ok _ (fun p => bool_decide (p ∈ allowed)) id
    "worker job contains a duplicate or out-of-scope port").
  - rewrite list_fmap_id. f_equiv. apply Forall_iff; intros p. apply bool_decide_eq_true.
  - intros seen p. unfold claimPort. rewrite (bool_decide_ext _ _ (elem_of_list_to_set _ _)). repeat case_bool_decide; simpl; done.
Qed.

Lemma claimCapabilities_ok reported required :
  is_ok (for_each (claimCapability (list_to_set reported)) ∅ required) = true <->
  Forall (fun c => c ∈ reported) required /\ NoDup required.
Proof.
  rewrite (for_each_distinct_ok _ (fun c => bool_decide (c ∈ reported)) id
    "worker job contains a duplicate or unavailable capability").
  - rewrite list_fmap_id. f_equiv; [|done]. apply Forall_iff; intros p. apply bool_decide_eq_true.
  - intros seen p. unfold claimCapability. rewrite (bool_decide_ext _ _ (elem_of_list_to_set _ _)). repeat case_bool_decide; simpl; done.
Qed.

Lemma claimCheckpoints_ok (targets : list Addr) (ports : list Z) completed :
  is_ok (for_each (claimCheckpoint (list_to_set targets) (list_to_set ports)) ∅ completed) = true <->
  Forall (fun c => exists address, ParseAddr (Checkpoint_Address c) = Some address /\ address ∈ targets /\
            Checkpoint_Port c ∈ ports /\ Checkpoint_CompletedAt c <> ZeroTime) completed /\
  NoDup ((fun c => (addr_or_zero (Checkpoint_Address c), wrapu16 (Checkpoint_Port c))) <$> completed).
Proof.
  (* The two errors of the body differ, so the loop is related to one that has a single error. *)
  set (ok := fun c => match ParseAddr (Checkpoint_Address c) with
    | Some a => bool_decide (a ∈ targets) && bool_decide (Checkpoint_Port c ∈ ports) &&
                negb (IsZero (Checkpoint_CompletedAt c))
    | None => false end).
  set (key := fun c => (addr_or_zero (Checkpoint_Address c), wrapu16 (Checkpoint_Port c))).
  set (body := fun seen c => if ok c && bool_decide (key c ∉ (seen : gset (Addr * Z)))
                             then Ok ({[ key c ]} ∪ seen) else Err ""%string).
  assert (R : forall seen l, is_ok (for_each (claimCheckpoint (list_to_set targets) (list_to_set ports)) seen l)
                             = is_ok (for_each body seen l)).
  { intros seen l. revert seen. induction l as [|c l IH]; intros seen; [done|]. simpl.
    assert (B : body seen c = match claimCheckpoint (list_to_set targets) (list_to_set ports) seen c with
                              | Ok s => Ok s | Err _ => Err ""%string end).
    { unfold body, ok, key, claimCheckpoint, addr_or_zero. destruct (ParseAddr (Checkpoint_Address c)) as [a|]; [|done]. simpl.
      rewrite (bool_decide_ext (a ∈ list_to_set targets) _ (elem_of_list_to_set _ _)).
      rewrite (bool_decide_ext (Checkpoint_Port c ∈ list_to_set ports) _ (elem_of_list_to_set _ _)).
      repeat case_bool_decide; destruct (IsZero (Checkpoint_CompletedAt c)); simpl; try done; set_solver. }
    rewrite B. destruct (claimCheckpoint _ _ seen c); simpl; [apply IH|done]. }
  rewrite R, (for_each_distinct_ok body ok key ""%string) by done.
  f_equiv. apply Forall_iff; intros c. unfold ok, IsZero.
  destruct (ParseAddr (Checkpoint_Address c)); [|naive_solver].
  rewrite !andb_true_iff, !bool_decide_eq_true, negb_true_iff, Z.eqb_neq. naive_solver.
Qed.

(** ** The checks of one aspect each *)

Lemma validateJobResources_ok job worker :
  is_ok (validateJobResources job worker) = true <->
  1 <= Job_MaxConcurrent job <= Worker_MaxConcurrent worker /\
  0 <= Job_RateLimitPerSecond job <= maximumJobRate /\
  (0 < Worker_RateLimitPerSecond worker -> 0 < Job_RateLimitPerSecond job <= Worker_RateLimitPerSecond worker).
Proof.
  unfold validateJobResources, maximumJobRate. repeat case_if; simpl; split; try done; intros;
    rewrite ?orb_true_iff, ?andb_true_iff, ?orb_false_iff, ?andb_false_iff in *; lia.
Qed.

Lemma is_ok_unit (r : result ()) : is_ok r = true <-> r = Ok tt.
Proof. destruct r as [[]|]; naive_solver. Qed.

Lemma validateJobTargets_ok targets cidrs :
  is_ok (validateJobTargets targets cidrs) = true <->
  Forall (fun raw => is_Some (ParsePrefix raw)) cidrs /\ targets <> [] /\
  Forall (fun t => exists address, ParseAddr (Target_Address t) = Some address /\ in_scope cidrs address) targets /\
  NoDup (addr_or_zero ∘ Target_Address <$> targets).
Proof.
  rewrite is_ok_unit. unfold validateJobTargets. rewrite reject_ok, bool_decide_eq_false, bind_ok.
  setoid_rewrite try_ok. rewrite for_each_parseAllowed. simpl.
  pose proof (mapM_is_Some ParsePrefix cidrs) as M. unfold compose in M. rewrite <- M. clear M. destruct (mapM ParsePrefix cidrs) as [prefixes|] eqn:E.
  - rewrite <- (claimTargets_ok _ _ _ E). naive_solver.
  - split; [naive_solver|]. intros ([? ?] & _). done.
Qed.

Lemma validateJobPorts_ok ports allowed :
  is_ok (validateJobPorts ports allowed) = true <->
  ports <> [] /\ Forall (fun p => p ∈ allowed) ports /\ NoDup ports.
Proof.
  rewrite is_ok_unit. unfold validateJobPorts. rewrite reject_ok, bool_decide_eq_false, try_ok, claimPorts_ok.
  naive_solver.
Qed.

Lemma validateJobCapabilities_ok required reported :
  is_ok (validateJobCapabilities required reported) = true <->
  required <> [] /\ Forall (fun c => c ∈ reported) required /\ NoDup required.
Proof.
  rewrite is_ok_unit. unfold validateJobCapabilities.
  rewrite reject_ok, bool_decide_eq_false, try_ok, claimCapabilities_ok. naive_solver.
Qed.

Lemma validateJobResume_ok job :
  is_ok (validateJobResume job) = true <-> forall resume, Job_Resume job = Some resume -> ResumeValid job resume.
Proof.
  rewrite is_ok_unit. unfold validateJobResume. destruct (Job_Resume job) as [resume|]; [|naive_solver].
  rewrite reject_ok, try_ok, claimCheckpoints_ok, !orb_false_iff, !bool_decide_eq_false, Z.eqb_neq. split.
  - intros ([[? ?] ?] & [? ?] & _) ? [= <-]. by constructor.
  - intros H. by destruct (H resume eq_refl) as [[? ?] ? ? ?].
Qed.

(** [Validate] accepts exactly the jobs inside the worker's scope. *)
Lemma Validate_ok job worker now :
  Validate job worker now = Ok tt <-> JobValid job worker now.
Proof.
  unfold Validate. rewrite !reject_ok, !try_ok.
  rewrite validateJobResources_ok, validateJobTargets_ok, validateJobPorts_ok, validateJobResume_ok.
  rewrite <- (is_ok_unit (validateJobCapabilities _ _)), validateJobCapabilities_ok.
  unfold After, Before, Add.
  rewrite !orb_false_iff, !andb_false_iff, !orb_false_iff, !negb_false_iff, !bool_decide_eq_true,
    re_match_correct, !Z.eqb_eq.
  assert (L : (maximumJobLifetime <? Sub (Job_ExpiresAt job) (Job_IssuedAt job)) = false <->
              Job_ExpiresAt job <= Job_IssuedAt job + maximumJobLifetime).
  { rewrite <- not_true_iff_false, Sub_gt by (apply int64_range_small; vm_compute; split; discriminate).
    unfold int64_max, maximumJobLifetime, Hour, Minute, Second. lia. }
  rewrite L, !Z.ltb_lt, !Z.ltb_ge. split.
  - intros (? & ? & Hs & ? & ? & ? & ? & ? & ? & ?). constructor; naive_solver lia.
  - intros []. naive_solver lia.
Qed.

(** * Signed envelopes (signer.go) *)

(** The cryptographic and encoding functions of the Go standard library that
    signing uses: Ed25519, the hexadecimal SHA-256 key identifier, unpadded
    base64 and the JSON encoding of a job. *)
Class JobCrypto := {
  PrivateKey : Type;
  PublicKey : Type;
  Public : PrivateKey -> PublicKey;
  ed25519_Sign : PrivateKey -> string -> string;
  ed25519_Verify : PublicKey -> string -> string -> bool;
  key_digest : PublicKey -> string;
  base64_Encode : string -> string;
  base64_Decode : string -> option string;
  json_Marshal : WorkerJob -> result string }.

Class JobCryptoLaws `{JobCrypto} : Prop := {
  Verify_Sign key payload : ed25519_Verify (Public key) payload (ed25519_Sign key payload) = true;
  Decode_Encode s : base64_Decode (base64_Encode s) = Some s }.

Section signer.
Context `{JobCrypto}.

Definition algorithmEd25519 : string := "Ed25519".

Record Signer := { Signer_privateKey : PrivateKey; Signer_publicKey : PublicKey; Signer_keyID : string }.

(** The part of [LoadOrCreateSigner] after the key file is read. *)
Definition newSigner (privateKey : PrivateKey) : Signer :=
  {| Signer_privateKey := privateKey; Signer_publicKey := Public privateKey;
     Signer_keyID := key_digest (Public privateKey) |}.

Definition canonicalJob (job : WorkerJob) : result string := json_Marshal job.

Definition Sign (s : Signer) (job : WorkerJob) : result SignedWorkerJob :=
  payload ← canonicalJob job;
  let signature := ed25519_Sign (Signer_privateKey s) payload in
  Ok {| SignedJob_Algorithm := algorithmEd25519; SignedJob_KeyID := Signer_keyID s; SignedJob_Job := job;
        SignedJob_Signature := base64_Encode signature |}.

Definition Verify (envelope : SignedWorkerJob) (publicKey : PublicKey) : result () :=
  reject negb (bool_decide (SignedJob_Algorithm envelope = algorithmEd25519))
    as "unsupported worker-job signature algorithm";;
  reject negb (bool_decide (SignedJob_KeyID envelope = key_digest publicKey))
    as "worker-job signing key identifier mismatch";;
  match base64_Decode (SignedJob_Signature envelope) with
  | None => Err "worker-job signature is invalid"
  | Some signature =>
      payload ← canonicalJob (SignedJob_Job envelope);
      reject negb (ed25519_Verify publicKey payload signature) as "worker-job signature verification failed";;
      Ok tt
  end.

Definition VerifyForWorker (envelope : SignedWorkerJob) (publicKey : PublicKey) (worker : ScannerWorker)
    (now : Time) : result () :=
  try Verify envelope publicKey;;
  Validate (SignedJob_Job envelope) worker now.

Lemma Sign_job s job envelope : Sign s job = Ok envelope -> SignedJob_Job envelope = job.
Proof. unfold Sign. rewrite bind_ok. by intros (? & _ & [= <-]). Qed.

Lemma Verify_signed `{!JobCryptoLaws} key job envelope :
  Sign (newSigner key) job = Ok envelope -> Verify envelope (Public key) = Ok tt.
Proof.
  unfold Sign, Verify. rewrite bind_ok. intros (payload & Hp & [= <-]). simpl.
  rewrite !bool_decide_eq_true_2 by done. rewrite Decode_Encode, Hp. simpl. by rewrite Verify_Sign.
Qed.

(** A verified envelope carries a signature of its own job under the pinned key. *)
Lemma Verify_ok envelope publicKey :
  Verify envelope publicKey = Ok tt <->
  SignedJob_Algorithm envelope = algorithmEd25519 /\ SignedJob_KeyID envelope = key_digest publicKey /\
  exists signature payload, base64_Decode (SignedJob_Signature envelope) = Some signature /\
    canonicalJob (SignedJob_Job envelope) = Ok payload /\ ed25519_Verify publicKey payload signature = true.
Proof.
  unfold Verify. rewrite !reject_ok, !negb_false_iff, !bool_decide_eq_true.
  destruct (base64_Decode _) as [signature|]; [|naive_solver].
  rewrite bind_ok. setoid_rewrite reject_ok. setoid_rewrite negb_false_iff. naive_solver.
Qed.
End signer.

(** * Properties *)

(** A worker accepts exactly the envelopes that the pinned key signs and
    whose job stays inside the worker's scope; in particular an envelope of the
    server's signer is accepted if and only if its job is valid for the worker. *)
Theorem VerifyForWorker_signed `{JobCrypto} `{!JobCryptoLaws} key job envelope worker now
    (Hs : Sign (newSigner key) job = Ok envelope) :
  VerifyForWorker envelope (Public key) worker now = Ok tt <-> JobValid job worker now.
Proof.
  unfold VerifyForWorker. rewrite try_ok, (Verify_signed key job envelope Hs), (Sign_job _ _ _ Hs), Validate_ok.
  simpl. naive_solver.
Qed.
