(* ===== verification/WorkerEvidence.v ===== *)
(** internal/workerevidence: what an evidence batch must satisfy to be accepted
    for a job. *)
From Stdlib Require Import ZArith Lia String.
From stdpp Require Import base tactics list strings gmap sets.
From S2P Require Import Prelude GoStrings GoTime Netip WorkerModel WorkerJob.
Open Scope Z_scope.

Definition evidenceSchemaVersion : Z := 1.
Definition maximumEvidenceItems : Z := 250.
Definition maximumEvidenceBytes : Z := 1048576.
Definition evidenceIdentityLimit : Z := 200.
Definition evidenceClockSkew : Duration := Minute.

(** The public key types of a certificate that evidence signing knows. *)
Inductive KeyType := KeyECDSA | KeyRSA | KeyOther.

(** The fields of an [x509.Certificate] that are inspected. *)
Record Certificate := {
  Certificate_Serial : option string;
  Certificate_NotBefore : Time;
  Certificate_NotAfter : Time;
  Certificate_DigitalSignature : bool;
  Certificate_URIs : list string;
  Certificate_Key : KeyType;
  Certificate_PublicKey : string }.

(** Hashing, signature verification and encodings of the standard library. *)
Class EvidenceCrypto := {
  canonicalBatch : WorkerEvidenceBatch -> option string;
  sha256 : string -> string;
  RawStd_Decode : string -> option string;
  ecdsa_VerifyASN1 : string -> string -> string -> bool;
  rsa_VerifyPSS : string -> string -> string -> bool }.

Section validate.
Context `{EvidenceCrypto}.

Definition algorithmECDSASHA256 : string := "ECDSA-SHA256".
Definition algorithmRSAPSSSHA256 : string := "RSA-PSS-SHA256".

(** signature.go [Verify] *)
Definition VerifyBatch (envelope : SignedWorkerEvidenceBatch) (certificate : Certificate) : result () :=
  reject negb (bool_decide (Certificate_Serial certificate = Some (SignedBatch_CertificateSerial envelope)))
    as "worker evidence certificate identity mismatch";;
  match canonicalBatch (SignedBatch_Batch envelope) with
  | None => Err "encode worker evidence"
  | Some payload =>
      match RawStd_Decode (SignedBatch_Signature envelope) with
      | None => Err "worker evidence signature is invalid"
      | Some signature =>
          let digest := sha256 payload in
          match Certificate_Key certificate with
          | KeyECDSA =>
              reject negb (bool_decide (SignedBatch_Algorithm envelope = algorithmECDSASHA256)) ||
                     negb (ecdsa_VerifyASN1 (Certificate_PublicKey certificate) digest signature)
                as "worker evidence signature verification failed";;
              Ok tt
          | KeyRSA =>
              reject negb (bool_decide (SignedBatch_Algorithm envelope = algorithmRSAPSSSHA256)) ||
                     negb (rsa_VerifyPSS (Certificate_PublicKey certificate) digest signature)
                as "worker evidence signature verification failed";;
              Ok tt
          | KeyOther => Err "worker evidence certificate key type is unsupported"
          end
      end
  end.

Definition certificateMatchesWorker (certificate : Certificate) (workerID : string) : bool :=
  let wanted := ("spiffe://mossward/scanner-worker/" +:+ workerID)%string in
  existsb (fun identity => bool_decide (identity = wanted)) (Certificate_URIs certificate).

Definition validEvidenceIdentities (batch : WorkerEvidenceBatch) (job : WorkerJob) : bool :=
  negb (bool_decide (Batch_ID batch = ""%string)) && (strlen (Batch_ID batch) <=? evidenceIdentityLimit) &&
  bool_decide (Batch_WorkerID batch = Job_WorkerID job) && bool_decide (Batch_JobID batch = Job_ID job) &&
  bool_decide (Batch_ScanID batch = Job_ScanID job).

(** [observedAt] inside the job's window, with the clock skew on both sides. *)
Definition evidence_time_ok (observedAt issuedAt collectedAt : Time) : bool :=
  negb (IsZero observedAt || Before observedAt (Add issuedAt (- evidenceClockSkew)) ||
        After observedAt (Add collectedAt evidenceClockSkew)).

(** [validEvidenceItem]: the updated identities, or [None] when the item is refused. *)
Definition validEvidenceItem (id rawAddress : string) (port : Z) (observedAt issuedAt collectedAt : Time)
    (targets : gset Addr) (ports : gset Z) (identities : gset string) : option (gset string) :=
  match ParseAddr rawAddress with
  | None => None
  | Some address =>
      if bool_decide (id = ""%string) || (evidenceIdentityLimit <? strlen id) || bool_decide (id ∈ identities) ||
         negb (bool_decide (address ∈ targets)) || negb (bool_decide (port ∈ ports)) then None
      else if negb (evidence_time_ok observedAt issuedAt collectedAt) then None
      else Some ({[ id ]} ∪ identities)
  end.

Definition or_reject {A} (e : error) (o : option A) : result A := match o with Some a => Ok a | None => Err e end.

Definition claimEvidenceCheckpoint (job : WorkerJob) (collectedAt : Time) (targets : gset Addr) (ports : gset Z)
    (seen : gset (Addr * Z)) (checkpoint : WorkerCheckpoint) : result (gset (Addr * Z)) :=
  let refused := "worker checkpoint is duplicate, invalid, or outside its job"%string in
  match ParseAddr (Checkpoint_Address checkpoint) with
  | None => Err refused
  | Some address =>
      reject (Checkpoint_Port checkpoint <? 1) || (65535 <? Checkpoint_Port checkpoint) as refused;;
      let key := (address, wrapu16 (Checkpoint_Port checkpoint)) in
      reject bool_decide (key ∈ seen) || negb (bool_decide (address ∈ targets)) ||
             negb (bool_decide (Checkpoint_Port checkpoint ∈ ports)) ||
             negb (evidence_time_ok (Checkpoint_CompletedAt checkpoint) (Job_IssuedAt job) collectedAt)
        as refused;;
      Ok ({[ key ]} ∪ seen)
  end.

Definition validateEvidenceItems (batch : WorkerEvidenceBatch) (job : WorkerJob) : result () :=
  let targets := list_to_set (addr_or_zero ∘ Target_Address <$> Job_Targets job) in
  let ports := list_to_set (Job_Ports job) in
  identities ← for_each (fun ids o =>
      or_reject "worker observation is duplicate, invalid, or outside its job"
        (validEvidenceItem (Observation_ID o) (Observation_Address o) (Observation_Port o) (Observation_ObservedAt o)
           (Job_IssuedAt job) (Batch_CollectedAt batch) targets ports ids)) ∅ (Batch_Observations batch);
  try for_each (fun ids f =>
      or_reject "worker finding is duplicate, invalid, or outside its job"
        (validEvidenceItem (Finding_ID f) (Finding_Address f) (Finding_Port f) (Finding_ObservedAt f)
           (Job_IssuedAt job) (Batch_CollectedAt batch) targets ports ids)) identities (Batch_Findings batch);;
  try for_each (claimEvidenceCheckpoint job (Batch_CollectedAt batch) targets ports) ∅ (Batch_Checkpoints batch);;
  Ok tt.

Definition item_count (batch : WorkerEvidenceBatch) : Z :=
  Z.of_nat (length (Batch_Observations batch)) + Z.of_nat (length (Batch_Findings batch)) +
  Z.of_nat (length (Batch_Checkpoints batch)).

(** validate.go [Validate] *)
Definition ValidateBatch (batch : WorkerEvidenceBatch) (job : WorkerJob) (now : Time) : result () :=
  reject negb (Batch_SchemaVersion batch =? evidenceSchemaVersion) || (Batch_Sequence batch =? 0)
    as "worker evidence schema or sequence is invalid";;
  reject negb (validEvidenceIdentities batch job) as "worker evidence identity is invalid";;
  reject IsZero (Batch_CollectedAt batch) || Before (Batch_CollectedAt batch) (Add (Job_IssuedAt job) (- evidenceClockSkew)) ||
         After (Batch_CollectedAt batch) (Add now evidenceClockSkew)
    as "worker evidence collection time is invalid";;
  reject (item_count batch =? 0) && negb (Batch_Final batch) as "non-final worker evidence batch is empty";;
  reject maximumEvidenceItems <? item_count batch as "worker evidence batch contains too many items";;
  match canonicalBatch batch with
  | None => Err "worker evidence batch exceeds its encoded size limit"
  | Some encoded =>
      reject maximumEvidenceBytes <? strlen encoded as "worker evidence batch exceeds its encoded size limit";;
      validateEvidenceItems batch job
  end.

(** validate.go [VerifyForJob] *)
Definition VerifyForJob (envelope : SignedWorkerEvidenceBatch) (certificate : option Certificate) (job : WorkerJob)
    (now : Time) : result () :=
  match certificate with
  | None => Err "worker evidence certificate is not valid for this worker"
  | Some certificate =>
      reject Before now (Certificate_NotBefore certificate) || After now (Certificate_NotAfter certificate) ||
             negb (Certificate_DigitalSignature certificate) || negb (certificateMatchesWorker certificate (Job_WorkerID job))
        as "worker evidence certificate is not valid for this worker";;
      try VerifyBatch envelope certificate;;
      ValidateBatch (SignedBatch_Batch envelope) job now
  end.

(** ** What an accepted batch contains *)

(** An item of evidence that belongs to the job. *)
Definition item_in_job (job : WorkerJob) (collectedAt : Time) (id address : string) (port : Z) (observedAt : Time) : bool :=
  match ParseAddr address with
  | None => false
  | Some a => negb (bool_decide (id = ""%string)) && (strlen id <=? evidenceIdentityLimit) &&
              bool_decide (a ∈ addr_or_zero ∘ Target_Address <$> Job_Targets job) && bool_decide (port ∈ Job_Ports job) &&
              evidence_time_ok observedAt (Job_IssuedAt job) collectedAt
  end.
Definition checkpoint_in_job (job : WorkerJob) (collectedAt : Time) (c : WorkerCheckpoint) : bool :=
  match ParseAddr (Checkpoint_Address c) with
  | None => false
  | Some a => (1 <=? Checkpoint_Port c) && (Checkpoint_Port c <=? 65535) &&
              bool_decide (a ∈ addr_or_zero ∘ Target_Address <$> Job_Targets job) &&
              bool_decide (Checkpoint_Port c ∈ Job_Ports job) &&
              evidence_time_ok (Checkpoint_CompletedAt c) (Job_IssuedAt job) collectedAt
  end.
Definition checkpoint_key (c : WorkerCheckpoint) : Addr * Z :=
  (addr_or_zero (Checkpoint_Address c), wrapu16 (Checkpoint_Port c)).
Definition observation_ok job collectedAt (o : ServiceObservation) : bool :=
  item_in_job job collectedAt (Observation_ID o) (Observation_Address o) (Observation_Port o) (Observation_ObservedAt o).
Definition finding_ok job collectedAt (f : Finding) : bool :=
  item_in_job job collectedAt (Finding_ID f) (Finding_Address f) (Finding_Port f) (Finding_ObservedAt f).

Lemma validEvidenceItem_spec job collectedAt id address port observedAt identities e :
  or_reject e (validEvidenceItem id address port observedAt (Job_IssuedAt job) collectedAt
    (list_to_set (addr_or_zero ∘ Target_Address <$> Job_Targets job)) (list_to_set (Job_Ports job)) identities) =
  if item_in_job job collectedAt id address port observedAt && bool_decide (id ∉ identities)
  then Ok ({[ id ]} ∪ identities) else Err e.
Proof.
  unfold validEvidenceItem, item_in_job. destruct (ParseAddr address) as [a|]; [|done].
  rewrite (bool_decide_ext (a ∈ list_to_set _) _ (elem_of_list_to_set _ _)).
  rewrite (bool_decide_ext (port ∈ list_to_set _) _ (elem_of_list_to_set _ _)).
  rewrite Z.ltb_antisym, (bool_decide_not (id ∈ identities)).
  destruct (bool_decide (id = ""%string)), (strlen id <=? evidenceIdentityLimit), (bool_decide (id ∈ identities)),
    (bool_decide (a ∈ _)), (bool_decide (port ∈ _)), (evidence_time_ok _ _ _); done.
Qed.

Lemma claimEvidenceCheckpoint_spec job collectedAt seen c :
  claimEvidenceCheckpoint job collectedAt (list_to_set (addr_or_zero ∘ Target_Address <$> Job_Targets job))
    (list_to_set (Job_Ports job)) seen c =
  if checkpoint_in_job job collectedAt c && bool_decide (checkpoint_key c ∉ seen)
  then Ok ({[ checkpoint_key c ]} ∪ seen)
  else Err "worker checkpoint is duplicate, invalid, or outside its job".
Proof.
  unfold claimEvidenceCheckpoint, checkpoint_in_job. cbv zeta.
  destruct (ParseAddr (Checkpoint_Address c)) as [a|] eqn:Ea; [|done].
  replace (a, wrapu16 (Checkpoint_Port c)) with (checkpoint_key c) by (unfold checkpoint_key, addr_or_zero; by rewrite Ea).
  rewrite (bool_decide_ext (a ∈ list_to_set _) _ (elem_of_list_to_set _ _)).
  rewrite (bool_decide_ext (Checkpoint_Port c ∈ list_to_set _) _ (elem_of_list_to_set _ _)).
  rewrite (Z.ltb_antisym 1), (Z.ltb_antisym _ 65535), (bool_decide_not (checkpoint_key c ∈ seen)).
  destruct (1 <=? Checkpoint_Port c), (Checkpoint_Port c <=? 65535), (bool_decide (_ ∈ seen)),
    (bool_decide (a ∈ _)), (bool_decide (Checkpoint_Port c ∈ _)), (evidence_time_ok _ _ _); done.
Qed.

Lemma validateEvidenceItems_ok batch job :
  validateEvidenceItems batch job = Ok tt <->
  Forall (fun o => observation_ok job (Batch_CollectedAt batch) o = true) (Batch_Observations batch) /\
  Forall (fun f => finding_ok job (Batch_CollectedAt batch) f = true) (Batch_Findings batch) /\
  NoDup ((Observation_ID <$> Batch_Observations batch) ++ (Finding_ID <$> Batch_Findings batch)) /\
  Forall (fun c => checkpoint_in_job job (Batch_CollectedAt batch) c = true) (Batch_Checkpoints batch) /\
  NoDup (checkpoint_key <$> Batch_Checkpoints batch).
Proof.
  unfold validateEvidenceItems. cbv zeta.
  pose proof (for_each_distinct _ (observation_ok job (Batch_CollectedAt batch)) Observation_ID _
    (fun ids o => validEvidenceItem_spec job (Batch_CollectedAt batch) (Observation_ID o) (Observation_Address o)
       (Observation_Port o) (Observation_ObservedAt o) ids "worker observation is duplicate, invalid, or outside its job")
    ∅ (Batch_Observations batch)) as Lo.
  destruct (for_each _ ∅ (Batch_Observations batch)) as [ids|e]; simpl.
  2: { split; [done|]. intros (Ho & _ & [Hnd _]%NoDup_app & _). destruct Lo as [_ Lo]. exfalso. apply Lo.
       split_and!; [done..|]. apply Forall_forall. set_solver. }
  destruct Lo as (Ho & Hnd & _ & ->).
  pose proof (for_each_distinct _ (finding_ok job (Batch_CollectedAt batch)) Finding_ID _
    (fun ids f => validEvidenceItem_spec job (Batch_CollectedAt batch) (Finding_ID f) (Finding_Address f)
       (Finding_Port f) (Finding_ObservedAt f) ids "worker finding is duplicate, invalid, or outside its job")
    (list_to_set (Observation_ID <$> Batch_Observations batch) ∪ ∅) (Batch_Findings batch)) as Lf.
  pose proof (for_each_distinct_ok _ (checkpoint_in_job job (Batch_CollectedAt batch)) checkpoint_key _
    (claimEvidenceCheckpoint_spec job (Batch_CollectedAt batch)) (Batch_Checkpoints batch)) as Lc.
  rewrite !try_ok, Lc. rewrite NoDup_app.
  destruct (for_each _ (_ ∪ ∅) (Batch_Findings batch)) as [ids|e]; simpl.
  - destruct Lf as (Hf & Hndf & Hdis & _). rewrite Forall_forall in Hdis. split; [|naive_solver].
    intros (_ & [Hc Hcd] & _). split_and!; try done. intros id Hid (f & -> & Hin)%list_elem_of_fmap.
    apply (Hdis f Hin). set_solver.
  - destruct Lf as [_ Lf]. split; [naive_solver|]. intros (_ & Hf & (_ & Hdis & Hndf) & _). exfalso. apply Lf.
    split_and!; [done..|]. apply Forall_forall. intros f Hin Hid. apply (Hdis (Finding_ID f)); [set_solver|].
    by apply list_elem_of_fmap_2.
Qed.

Lemma VerifyForJob_items envelope certificate job now :
  VerifyForJob envelope (Some certificate) job now = Ok tt ->
  validEvidenceIdentities (SignedBatch_Batch envelope) job = true /\
  validateEvidenceItems (SignedBatch_Batch envelope) job = Ok tt.
Proof using.
  unfold VerifyForJob. intros Hv. apply reject_ok in Hv as [_ Hv]. apply try_ok in Hv as [_ Hv].
  unfold ValidateBatch in Hv. do 5 apply reject_ok in Hv as [? Hv].
  destruct (canonicalBatch _); [|done]. apply reject_ok in Hv as [_ Hv]. reflect_bools. done.
Qed.

(** ** Property *)

(** An accepted batch is bound to its job and worker, and every observation,
    finding and checkpoint in it is distinct, inside the job's targets and
    ports, and inside its time window. *)
Theorem accepted_evidence_in_scope envelope certificate job now
    (Hv : VerifyForJob envelope (Some certificate) job now = Ok tt) :
  let batch := SignedBatch_Batch envelope in
  Batch_WorkerID batch = Job_WorkerID job /\ Batch_JobID batch = Job_ID job /\ Batch_ScanID batch = Job_ScanID job /\
  certificateMatchesWorker certificate (Batch_WorkerID batch) = true /\
  Batch_CollectedAt batch <= now + evidenceClockSkew /\ item_count batch <= maximumEvidenceItems /\
  Forall (fun o => observation_ok job (Batch_CollectedAt batch) o = true) (Batch_Observations batch) /\
  Forall (fun f => finding_ok job (Batch_CollectedAt batch) f = true) (Batch_Findings batch) /\
  NoDup ((Observation_ID <$> Batch_Observations batch) ++ (Finding_ID <$> Batch_Findings batch)) /\
  Forall (fun c => checkpoint_in_job job (Batch_CollectedAt batch) c = true) (Batch_Checkpoints batch) /\
  NoDup (checkpoint_key <$> Batch_Checkpoints batch).
Proof using.
  intros batch. unfold VerifyForJob in Hv. apply reject_ok in Hv as [Hcert Hv]. apply try_ok in Hv as [_ Hv].
  fold batch in Hv. unfold ValidateBatch in Hv. do 5 apply reject_ok in Hv as [? Hv].
  destruct (canonicalBatch batch); [|done]. apply reject_ok in Hv as [_ Hv]. apply validateEvidenceItems_ok in Hv.
  unfold After, Add, validEvidenceIdentities in *. reflect_bools.
  destruct Hv as (? & ? & ? & ? & ?). split_and!; try done; try lia. congruence.
Qed.
End validate.
