(* ===== verification/Dispatcher.v ===== *)
(** internal/workerjob/dispatcher.go: choosing a scanner worker for a job. *)
From Stdlib Require Import ZArith Lia String Ascii.
From stdpp Require Import base tactics list strings gmap sets sorting.
From S2P Require Import Prelude GoStrings GoTime WorkerModel WorkerJob.
Open Scope Z_scope.

Definition assignmentHeartbeatFreshness : Duration := 5 * Minute.

Definition ErrNoEligibleWorker : error := "no eligible scanner worker has sufficient capacity".
Definition ErrDispatchDisabled : error := "scanner-worker job dispatch is disabled".

(** * Choosing a worker *)

Record workerCandidate := {
  candidate_worker : ScannerWorker;
  candidate_remaining : Z;
  candidate_activeJobs : Z;
  candidate_lastSeenUnixNS : Z }.

Definition jobForWorker (job : WorkerJob) (worker : ScannerWorker) : WorkerJob :=
  {| Job_SchemaVersion := Job_SchemaVersion job;
     Job_ID := Job_ID job;
     Job_WorkerID := Worker_ID worker;
     Job_ScanID := Job_ScanID job;
     Job_SiteID := Job_SiteID job;
     Job_IssuedAt := Job_IssuedAt job;
     Job_ExpiresAt := Job_ExpiresAt job;
     Job_Targets := Job_Targets job;
     Job_Ports := Job_Ports job;
     Job_MaxConcurrent := Job_MaxConcurrent job;
     Job_RateLimitPerSecond :=
       if (Job_RateLimitPerSecond job =? 0) && (0 <? Worker_RateLimitPerSecond worker)
       then Worker_RateLimitPerSecond worker else Job_RateLimitPerSecond job;
     Job_RequiredCapabilities := Job_RequiredCapabilities job;
     Job_Resume := Job_Resume job;
     Job_Status := Job_Status job |}.

Definition workerAvailableForAssignment (worker : ScannerWorker) (job : WorkerJob) (remaining : Z) (now : Time) : bool :=
  if negb (bool_decide (Worker_Status worker = EndpointActive)) || negb (Worker_DispatchEnabled worker) ||
     negb (bool_decide (Worker_Health worker = WorkerHealthHealthy)) then false
  else match Worker_LastSeenAt worker with
  | None => false
  | Some lastSeen =>
      if (assignmentHeartbeatFreshness <? Sub now lastSeen) || negb (Before now (Worker_ExpiresAt worker)) ||
         After (Job_ExpiresAt job) (Worker_ExpiresAt worker) then false
      else if negb (bool_decide (Job_SiteID job = ""%string)) && negb (bool_decide (Worker_SiteID worker = Job_SiteID job))
      then false
      else Job_MaxConcurrent job <=? remaining
  end.

(** [loads[worker.ID]]: the zero load when the key is absent. *)
Definition load_of (loads : gmap string WorkerJobLoad) (id : string) : WorkerJobLoad :=
  default WorkerJobLoad_zero (loads !! id).

(** One turn of the loop over the workers: the candidate it appends, if any. *)
Definition candidate_for (job : WorkerJob) (loads : gmap string WorkerJobLoad) (now : Time)
    (excludedWorkerID : string) (worker : ScannerWorker) : option workerCandidate :=
  if bool_decide (Worker_ID worker = excludedWorkerID) then None else
  let load := load_of loads (Worker_ID worker) in
  let remaining := wrap64 (Worker_AvailableConcurrency worker - Load_ReservedConcurrency load) in
  if negb (workerAvailableForAssignment worker job remaining now) then None else
  let candidateJob := jobForWorker job worker in
  if negb (is_ok (Validate candidateJob worker now)) then None else
  Some {| candidate_worker := worker;
          candidate_remaining := wrap64 (remaining - Job_MaxConcurrent job);
          candidate_activeJobs := Load_ActiveJobs load;
          candidate_lastSeenUnixNS := from_option UnixNano 0 (Worker_LastSeenAt worker) |}.

(** The loop of [selectWorkerExcluding] that collects the candidates. *)
Definition candidates_for (job : WorkerJob) (loads : gmap string WorkerJobLoad) (now : Time)
    (excludedWorkerID : string) (workers : list ScannerWorker) : list workerCandidate :=
  omap (candidate_for job loads now excludedWorkerID) workers.

Definition candidateLess (left right : workerCandidate) : bool :=
  if negb (candidate_activeJobs left =? candidate_activeJobs right)
  then candidate_activeJobs left <? candidate_activeJobs right
  else if negb (candidate_remaining left =? candidate_remaining right)
  then candidate_remaining right <? candidate_remaining left
  else if negb (candidate_lastSeenUnixNS left =? candidate_lastSeenUnixNS right)
  then candidate_lastSeenUnixNS right <? candidate_lastSeenUnixNS left
  else str_ltb (Worker_ID (candidate_worker left)) (Worker_ID (candidate_worker right)).

Definition selectWorkerExcluding (job : WorkerJob) (workers : list ScannerWorker)
    (loads : gmap string WorkerJobLoad) (now : Time) (excludedWorkerID : string) : result ScannerWorker :=
  let candidates := candidates_for job loads now excludedWorkerID workers in
  match sort_slice candidateLess candidates with
  | [] => Err ErrNoEligibleWorker
  | candidate :: _ => Ok (candidate_worker candidate)
  end.

Definition selectWorker (job : WorkerJob) (workers : list ScannerWorker)
    (loads : gmap string WorkerJobLoad) (now : Time) : result ScannerWorker :=
  selectWorkerExcluding job workers loads now "".

(** * The dispatcher over its store *)

(** The interface [DispatchStore], over the state [S] of the store. *)
Class DispatchStore (S : Type) := {
  ListScannerWorkers : S -> result (list ScannerWorker);
  ScannerWorkerJobLoads : Time -> S -> result (gmap string WorkerJobLoad);
  ScannerWorkerDispatchSettings : S -> result bool;
  CreateScannerWorkerJob : SignedWorkerJob -> Time -> st S ();
  ScannerWorkerJobResumeCandidate : string -> Time -> st S WorkerJobResumeCandidate;
  ReassignScannerWorkerJob : string -> SignedWorkerJob -> Time -> st S () }.

Section dispatcher.
Context `{JobCrypto} {S : Type} `{!DispatchStore S} (signer : Signer).

Definition requireDispatchEnabled : st S () :=
  enabled ⇐ st_read ScannerWorkerDispatchSettings;;
  if (enabled : bool) then st_ret tt else st_err ErrDispatchDisabled.

Definition Dispatch (job : WorkerJob) (now : Time) : st S SignedWorkerJob :=
  _ ⇐ requireDispatchEnabled;;
  workers ⇐ st_read ListScannerWorkers;;
  loads ⇐ st_read (ScannerWorkerJobLoads now);;
  worker ⇐ st_lift (selectWorker job workers loads now);;
  let job := jobForWorker job worker in
  envelope ⇐ st_lift (Sign signer job);;
  _ ⇐ CreateScannerWorkerJob envelope now;;
  st_ret envelope.

(** The job a lapsed lease is resumed with, before a worker is chosen. *)
Definition resumeJob (job : WorkerJob) (resume : WorkerJobResume) : WorkerJob :=
  {| Job_SchemaVersion := Job_SchemaVersion job;
     Job_ID := Job_ID job;
     Job_WorkerID := "";
     Job_ScanID := Job_ScanID job;
     Job_SiteID := Job_SiteID job;
     Job_IssuedAt := Job_IssuedAt job;
     Job_ExpiresAt := Job_ExpiresAt job;
     Job_Targets := Job_Targets job;
     Job_Ports := Job_Ports job;
     Job_MaxConcurrent := Job_MaxConcurrent job;
     Job_RateLimitPerSecond := Job_RateLimitPerSecond job;
     Job_RequiredCapabilities := Job_RequiredCapabilities job;
     Job_Resume := Some resume;
     Job_Status := WorkerJobPending |}.

Definition ReassignExpired (jobID : string) (now : Time) : st S SignedWorkerJob :=
  _ ⇐ requireDispatchEnabled;;
  candidate ⇐ ScannerWorkerJobResumeCandidate jobID now;;
  let previousWorkerID := Job_WorkerID (SignedJob_Job (Candidate_Envelope candidate)) in
  workers ⇐ st_read ListScannerWorkers;;
  loads ⇐ st_read (ScannerWorkerJobLoads now);;
  let job := resumeJob (SignedJob_Job (Candidate_Envelope candidate))
    {| Resume_PreviousWorkerID := previousWorkerID; Resume_Completed := Candidate_Completed candidate;
       Resume_NextEvidenceSequence := Candidate_NextEvidenceSequence candidate |} in
  worker ⇐ st_lift (selectWorkerExcluding job workers loads now previousWorkerID);;
  let job := jobForWorker job worker in
  envelope ⇐ st_lift (Sign signer job);;
  _ ⇐ ReassignScannerWorkerJob previousWorkerID envelope now;;
  st_ret envelope.
End dispatcher.

(** * What selection guarantees *)

(** A worker the loop over the workers keeps. *)
Record Eligible (job : WorkerJob) (loads : gmap string WorkerJobLoad) (now : Time) (excluded : string)
    (worker : ScannerWorker) : Prop := {
  eligible_not_excluded : Worker_ID worker <> excluded;
  eligible_available : workerAvailableForAssignment worker job
    (wrap64 (Worker_AvailableConcurrency worker - Load_ReservedConcurrency (load_of loads (Worker_ID worker)))) now = true;
  eligible_valid : JobValid (jobForWorker job worker) worker now }.

(** The ranking key of an eligible worker. *)
Definition candidate_of (job : WorkerJob) (loads : gmap string WorkerJobLoad) (worker : ScannerWorker) : workerCandidate :=
  {| candidate_worker := worker;
     candidate_remaining := wrap64 (wrap64 (Worker_AvailableConcurrency worker -
       Load_ReservedConcurrency (load_of loads (Worker_ID worker))) - Job_MaxConcurrent job);
     candidate_activeJobs := Load_ActiveJobs (load_of loads (Worker_ID worker));
     candidate_lastSeenUnixNS := from_option UnixNano 0 (Worker_LastSeenAt worker) |}.

Lemma candidate_for_Some job loads now excluded worker c :
  candidate_for job loads now excluded worker = Some c <->
  Eligible job loads now excluded worker /\ c = candidate_of job loads worker.
Proof.
  unfold candidate_for. cbv zeta. case_bool_decide as E1.
  { split; [done|]. by intros [[] _]. }
  destruct (workerAvailableForAssignment _ _ _ _) eqn:E2; simpl.
  2: { split; [done|]. intros [[_ H _] _]. congruence. }
  destruct (Validate (jobForWorker job worker) worker now) as [[]|e] eqn:E3; simpl.
  - split; [intros [= <-]|by intros [_ ->]]. split; [|done]. constructor; [done..|]. by apply Validate_ok.
  - split; [done|]. intros [[_ _ H%Validate_ok] _]. congruence.
Qed.

Lemma elem_of_candidates job loads now excluded workers c :
  c ∈ candidates_for job loads now excluded workers <->
  exists worker, worker ∈ workers /\ Eligible job loads now excluded worker /\ c = candidate_of job loads worker.
Proof.
  unfold candidates_for. rewrite list_elem_of_omap. f_equiv; intros worker. rewrite candidate_for_Some. done.
Qed.

#[export] Instance candidateLess_strict : StrictWeak candidateLess.
Proof.
  split.
  - intros x y. unfold candidateLess.
    repeat (case_if; reflect_bools); try done; try lia; intros; reflect_bools; try apply Z.ltb_ge; try lia.
    by apply str_ltb_asym.
  - intros x y z. unfold candidateLess.
    repeat (case_if; reflect_bools); try done; try lia; intros; reflect_bools; try apply Z.ltb_ge; try lia.
    rewrite str_ltb_nle in *. eauto with go.
Qed.

(** Candidates that do not precede each other belong to the same worker identity. *)
Lemma candidateLess_tie x y :
  candidateLess x y = false -> candidateLess y x = false ->
  Worker_ID (candidate_worker x) = Worker_ID (candidate_worker y).
Proof.
  unfold candidateLess. repeat (case_if; reflect_bools); try done; try lia; intros; reflect_bools; try lia.
  rewrite str_ltb_nle in *. by apply str_leb_antisym.
Qed.

Lemma selectWorkerExcluding_cases job workers loads now excluded :
  match selectWorkerExcluding job workers loads now excluded with
  | Ok worker => worker ∈ workers /\ Eligible job loads now excluded worker /\
      forall other, other ∈ workers -> Eligible job loads now excluded other ->
      candidateLess (candidate_of job loads other) (candidate_of job loads worker) = false
  | Err e => e = ErrNoEligibleWorker /\ forall worker, worker ∈ workers -> ~ Eligible job loads now excluded worker
  end.
Proof.
  unfold selectWorkerExcluding. cbv zeta. destruct (sort_slice _ _) as [|c cs] eqn:E.
  - split; [done|]. intros worker Hw He. apply sort_slice_nil in E.
    assert (In' : candidate_of job loads worker ∈ candidates_for job loads now excluded workers)
      by (apply elem_of_candidates; eauto). rewrite E in In'. by apply not_elem_of_nil in In'.
  - apply sort_slice_head in E as [(worker & Hw & He & ->)%elem_of_candidates Hmin]; [|apply _].
    simpl. split_and!; [done..|]. intros other Ho Heo. apply Hmin, elem_of_candidates. eauto.
Qed.

(** Room: what a worker may still take covers the job. *)
Lemma Eligible_capacity job loads now excluded worker :
  Eligible job loads now excluded worker ->
  int64_range (Worker_AvailableConcurrency worker - Load_ReservedConcurrency (load_of loads (Worker_ID worker))) ->
  Load_ReservedConcurrency (load_of loads (Worker_ID worker)) + Job_MaxConcurrent job
    <= Worker_AvailableConcurrency worker.
Proof.
  intros [_ H _] R. unfold workerAvailableForAssignment in H. case_if_in H; [done|].
  destruct (Worker_LastSeenAt worker); [|done]. repeat (case_if_in H; [done|]).
  rewrite wrap64_id in H by done. reflect_bools. lia.
Qed.

(** Two listings of the same workers give candidates the same minimum. *)
Lemma selectWorkerExcluding_perm job workers workers' loads now excluded worker :
  NoDup (Worker_ID <$> workers) -> workers ≡ₚ workers' ->
  selectWorkerExcluding job workers loads now excluded = Ok worker ->
  selectWorkerExcluding job workers' loads now excluded = Ok worker.
Proof.
  intros Hnd Hp Hs. pose proof (selectWorkerExcluding_cases job workers loads now excluded) as C.
  pose proof (selectWorkerExcluding_cases job workers' loads now excluded) as C'.
  rewrite Hs in C. destruct C as (Hw & He & Hmin).
  destruct (selectWorkerExcluding job workers' loads now excluded) as [worker'|e].
  - destruct C' as (Hw' & He' & Hmin'). f_equal. rewrite <- Hp in Hw'.
    assert (Eid : Worker_ID worker' = Worker_ID worker).
    { apply (candidateLess_tie (candidate_of job loads worker') (candidate_of job loads worker)).
      - by apply Hmin.
      - apply Hmin'; [by rewrite <- Hp|done]. }
    apply list_elem_of_lookup_1 in Hw as [i Hi]. apply list_elem_of_lookup_1 in Hw' as [k Hk].
    assert (i = k) as <-.
    { eapply (NoDup_lookup _ _ _ (Worker_ID worker) Hnd); rewrite list_lookup_fmap, ?Hi, ?Hk; simpl; congruence. }
    congruence.
  - destruct C' as [_ C']. exfalso. apply (C' worker); [by rewrite <- Hp|done].
Qed.

(** ** Properties *)

Section properties.
Context (job : WorkerJob) (loads : gmap string WorkerJobLoad) (now : Time) (excluded : string).

(** Worker selection returns a listed, non-excluded worker that is valid
    for the job and has room for it, and no eligible worker precedes it in the
    ranking (fewest active jobs, most remaining capacity, most recent heartbeat,
    least id); it fails exactly when no listed worker is eligible. *)
Theorem selectWorkerExcluding_best workers
    (R : forall w, w ∈ workers -> int64_range (Worker_AvailableConcurrency w -
                                  Load_ReservedConcurrency (load_of loads (Worker_ID w)))) :
  match selectWorkerExcluding job workers loads now excluded with
  | Ok worker =>
      worker ∈ workers /\ Worker_ID worker <> excluded /\ JobValid (jobForWorker job worker) worker now /\
      Load_ReservedConcurrency (load_of loads (Worker_ID worker)) + Job_MaxConcurrent job
        <= Worker_AvailableConcurrency worker /\
      forall other, other ∈ workers -> Eligible job loads now excluded other ->
        candidateLess (candidate_of job loads other) (candidate_of job loads worker) = false
  | Err e => e = ErrNoEligibleWorker /\ forall worker, worker ∈ workers -> ~ Eligible job loads now excluded worker
  end.
Proof using.
  pose proof (selectWorkerExcluding_cases job workers loads now excluded) as C.
  destruct (selectWorkerExcluding _ _ _ _ _) as [worker|e]; [|done].
  destruct C as (Hw & He & Hmin). split_and!; [done|apply He|apply He|apply (Eligible_capacity job loads now excluded); auto|done].
Qed.

(** The choice does not depend on the order of the list. *)
Theorem selectWorkerExcluding_listing_order workers workers'
    (Hnd : NoDup (Worker_ID <$> workers)) (Hp : workers ≡ₚ workers') :
  selectWorkerExcluding job workers loads now excluded = selectWorkerExcluding job workers' loads now excluded.
Proof using.
  destruct (selectWorkerExcluding job workers loads now excluded) as [worker|e] eqn:E.
  - symmetry. by apply (selectWorkerExcluding_perm job workers).
  - destruct (selectWorkerExcluding job workers' loads now excluded) as [worker|e'] eqn:E'.
    + apply (selectWorkerExcluding_perm job workers' workers) in E'; [congruence| |done]. by rewrite <- Hp.
    + pose proof (selectWorkerExcluding_cases job workers loads now excluded) as C. rewrite E in C.
      pose proof (selectWorkerExcluding_cases job workers' loads now excluded) as C'. rewrite E' in C'.
      destruct C as [-> _], C' as [-> _]. done.
Qed.
End properties.
