(* ===== verification/Sql.v ===== *)
(** The fragment of SQL the stores use, over tables as lists of rows in
    insertion order: [WHERE], [UPDATE] with its affected-row count,
    [ORDER BY ... LIMIT 1], and comparisons with [NULL]. *)
From Stdlib Require Import ZArith Lia String.
From stdpp Require Import base tactics list strings.
From S2P Require Import Prelude GoStrings.
Open Scope Z_scope.

(** A comparison with a nullable column: [NULL] makes it fail. *)
Definition null_leb (column : option string) (value : string) : bool :=
  match column with Some c => str_leb c value | None => false end.
Definition null_gtb (column : option string) (value : string) : bool :=
  match column with Some c => str_ltb value c | None => false end.
Definition null_eqb (column : option string) (value : string) : bool :=
  match column with Some c => bool_decide (c = value) | None => false end.

Section tables.
Context {Row : Type}.

(** [SELECT ... WHERE p] *)
Definition select_where (p : Row -> bool) (table : list Row) : list Row := List.filter p table.
(** [UPDATE ... SET f WHERE p] and the number of rows it changes. *)
Definition update_where (p : Row -> bool) (f : Row -> Row) (table : list Row) : list Row :=
  (fun r => if p r then f r else r) <$> table.
Definition affected (p : Row -> bool) (table : list Row) : Z := Z.of_nat (length (select_where p table)).
(** [SELECT ... WHERE p] read as one row. *)
Definition query_row (p : Row -> bool) (table : list Row) : option Row := List.find p table.
(** [SELECT ... WHERE p ORDER BY less LIMIT 1] *)
Definition query_first (p : Row -> bool) (less : Row -> Row -> bool) (table : list Row) : option Row :=
  head (sort_slice less (select_where p table)).

Lemma elem_of_select_where p table r : r ∈ select_where p table <-> r ∈ table /\ p r = true.
Proof. unfold select_where. rewrite !list_elem_of_In, filter_In. done. Qed.

Lemma select_where_none p table : (forall r, r ∈ table -> p r = false) -> select_where p table = [].
Proof.
  intros H. destruct (select_where p table) as [|r l] eqn:E; [done|].
  assert (Hr : r ∈ select_where p table) by (rewrite E; by left). apply elem_of_select_where in Hr as [Hr Hp].
  by rewrite H in Hp.
Qed.

Lemma query_row_Some p table r : query_row p table = Some r -> r ∈ table /\ p r = true.
Proof. intros H. apply find_some in H. by rewrite list_elem_of_In. Qed.

Lemma query_row_None p table : query_row p table = None <-> forall r, r ∈ table -> p r = false.
Proof.
  split.
  - intros H r. rewrite list_elem_of_In. by apply find_none.
  - intros H. unfold query_row. destruct (List.find p table) eqn:E; [|done].
    apply query_row_Some in E as [? ?]. rewrite H in * by done. done.
Qed.

Lemma query_row_snoc p table table' : query_row p (table ++ table') = match query_row p table with Some r => Some r | None => query_row p table' end.
Proof. unfold query_row. induction table as [|x table IH]; [done|]. simpl. by destruct (p x). Qed.

Lemma query_first_Some p less table r `{!StrictWeak less} :
  query_first p less table = Some r ->
  r ∈ table /\ p r = true /\ forall r', r' ∈ table -> p r' = true -> less r' r = false.
Proof.
  unfold query_first. destruct (sort_slice less _) as [|x l] eqn:E; [done|]. intros [= <-].
  apply sort_slice_head in E as [[Hin Hp]%elem_of_select_where Hmin]; [|done].
  split_and!; [done..|]. intros r' Hr' Hp'. apply Hmin, elem_of_select_where. done.
Qed.

Lemma query_first_None p less table :
  query_first p less table = None <-> forall r, r ∈ table -> p r = false.
Proof.
  unfold query_first. split.
  - destruct (sort_slice less _) as [|x l] eqn:E; [|done]. intros _ r Hr. apply sort_slice_nil in E.
    destruct (p r) eqn:Ep; [|done]. assert (Hs : r ∈ select_where p table) by (by apply elem_of_select_where).
    rewrite E in Hs. by apply not_elem_of_nil in Hs.
  - intros H. replace (select_where p table) with (@nil Row); [done|]. symmetry.
    destruct (select_where p table) as [|x l] eqn:E; [done|].
    assert (Hx : x ∈ select_where p table) by (rewrite E; by left).
    apply elem_of_select_where in Hx as [Hx Hp]. rewrite H in Hp; done.
Qed.

Lemma affected_0 p table : affected p table = 0 <-> forall r, r ∈ table -> p r = false.
Proof.
  unfold affected. split.
  - intros H r Hr. destruct (p r) eqn:E; [|done].
    assert (Hs : r ∈ select_where p table) by (by apply elem_of_select_where).
    destruct (select_where p table); [by apply not_elem_of_nil in Hs|simpl in H; lia].
  - intros H. replace (select_where p table) with (@nil Row); [done|]. symmetry.
    destruct (select_where p table) as [|x l] eqn:E; [done|].
    assert (Hx : x ∈ select_where p table) by (rewrite E; by left).
    apply elem_of_select_where in Hx as [Hx Hp]. rewrite H in Hp; done.
Qed.

Lemma affected_1 p table : affected p table = 1 -> exists r, r ∈ table /\ p r = true.
Proof.
  unfold affected. destruct (select_where p table) as [|x l] eqn:E; simpl; [lia|]. intros _.
  assert (Hx : x ∈ select_where p table) by (rewrite E; by left).
  apply elem_of_select_where in Hx. eauto.
Qed.

(** On a column that identifies rows, a test that fixes it changes at most one row. *)
Lemma affected_unique {K} `{EqDecision K} (key : Row -> K) (k : K) p table :
  NoDup (key <$> table) -> (forall r, p r = true -> key r = k) -> affected p table <> 1 ->
  forall r, r ∈ table -> p r = false.
Proof.
  intros Hnd Hk. unfold affected. induction table as [|x table IH]; simpl in *; [intros _ r Hr; by apply not_elem_of_nil in Hr|].
  apply NoDup_cons in Hnd as [Hx Hnd]. destruct (p x) eqn:E.
  - assert (Hrest : forall r, r ∈ table -> p r = false).
    { intros r Hr. destruct (p r) eqn:Er; [|done]. exfalso. apply Hx.
      rewrite (Hk x E), <- (Hk r Er). by apply list_elem_of_fmap_2. }
    assert (H0 : affected p table = 0) by (by apply affected_0). unfold affected in H0. simpl. lia.
  - intros Hn r [->|Hr]%elem_of_cons; [done|]. by apply IH.
Qed.

(** On rows identified by a key, the row a [WHERE] on the key returns. *)
Lemma query_row_key {K} `{EqDecision K} (key : Row -> K) table r :
  NoDup (key <$> table) -> r ∈ table -> query_row (fun r' => bool_decide (key r' = key r)) table = Some r.
Proof.
  induction table as [|x table IH]; [by intros _ ?%not_elem_of_nil|].
  intros [Hx Hnd]%NoDup_cons [->|Hr]%elem_of_cons; unfold query_row in *; simpl.
  - by rewrite bool_decide_eq_true_2.
  - case_bool_decide as E; [|by apply IH]. exfalso. apply Hx. rewrite E. by apply list_elem_of_fmap_2.
Qed.

Lemma key_inj {K} `{EqDecision K} (key : Row -> K) table r r' :
  NoDup (key <$> table) -> r ∈ table -> r' ∈ table -> key r = key r' -> r = r'.
Proof.
  intros Hnd Hr Hr' E. pose proof (query_row_key key table r Hnd Hr) as H. rewrite E, query_row_key in H by done. by injection H.
Qed.

Lemma update_where_Forall2 (R : Row -> Row -> Prop) p f table :
  (forall r, R r r) -> (forall r, r ∈ table -> p r = true -> R r (f r)) -> Forall2 R table (update_where p f table).
Proof.
  intros Hrefl. unfold update_where. induction table as [|x table IH]; intros Hf; simpl; [constructor|].
  constructor.
  - destruct (p x) eqn:E; [|done]. apply Hf; [by left|done].
  - apply IH. intros r Hr. apply Hf. by right.
Qed.

Lemma update_where_key {K} (key : Row -> K) p f table :
  (forall r, key (f r) = key r) -> key <$> update_where p f table = key <$> table.
Proof.
  intros Hf. unfold update_where. rewrite <- list_fmap_compose. apply list_fmap_ext.
  intros i r _. simpl. destruct (p r); by rewrite ?Hf.
Qed.

Lemma update_where_id p f table : (forall r, r ∈ table -> p r = false) -> update_where p f table = table.
Proof.
  intros H. unfold update_where. rewrite <- (list_fmap_id table) at 2. apply list_fmap_ext.
  intros i r Hr. simpl. rewrite H; [done|]. by eapply list_elem_of_lookup_2.
Qed.

Lemma elem_of_update_where p f table r' :
  r' ∈ update_where p f table <-> exists r, r ∈ table /\ r' = (if p r then f r else r).
Proof. unfold update_where. rewrite list_elem_of_fmap. naive_solver. Qed.
(** Replacing the rows a [WHERE] selects by one that it selects too. *)
Lemma query_row_replace p y table x :
  query_row p table = Some x -> p y = true -> query_row p (update_where p (fun _ => y) table) = Some y.
Proof.
  intros Hx Hy. unfold query_row, update_where in *. induction table as [|r table IH]; [done|].
  simpl in *. destruct (p r) eqn:E; [by rewrite Hy|]. rewrite E. by apply IH.
Qed.

Lemma update_where_replace p y table :
  p y = true -> update_where p (fun _ => y) (update_where p (fun _ => y) table) = update_where p (fun _ => y) table.
Proof.
  intros Hy. unfold update_where. rewrite <- list_fmap_compose. apply list_fmap_ext. intros i r _. simpl.
  destruct (p r) eqn:E; [by rewrite Hy|by rewrite E].
Qed.
End tables.
