(* ===== verification/WorkerStore.v ===== *)
(** internal/store/worker*.go over SQLite: the tables of the scanner-worker
    subsystem and the transactions on them, statement by statement. Columns
    that hold timestamps hold the text of [formatTime], since the statements
    compare them as text. A JSON column holds the value it encodes. The
    database itself is assumed available: a failing driver call is not modelled. *)
From Stdlib Require Import ZArith Lia String Ascii.
From stdpp Require Import base tactics list strings gmap sets sorting.
From S2P Require Import Prelude GoStrings GoTime WorkerModel WorkerJob Dispatcher Sql.
Open Scope Z_scope.

Definition ErrNotFound : error := "scan not found".
Definition ErrWorkerJobReplay : error := "scanner-worker job identifier was already used".
Definition ErrWorkerResultReplay : error := "scanner-worker result identifier was already used".
Definition ErrWorkerResultAlreadyAccepted : error := "scanner-worker result was already accepted".
Definition ErrInvalidWorkerJobLease : error := "scanner-worker job lease is invalid".
Definition ErrWorkerEvidenceReplay : error := "scanner-worker evidence batch was already accepted".
Definition ErrWorkerEvidenceAlreadyAccepted : error := "scanner-worker evidence batch retry was already accepted".
Definition ErrWorkerEvidenceSequence : error := "scanner-worker evidence batch sequence is invalid".
Definition ErrWorkerJobNotResumable : error := "scanner-worker job is not ready for safe reassignment".
Definition ErrWorkerJobQuarantined : error := "scanner-worker job was quarantined after repeated failures".
(** What the driver reports when a constraint of the schema is violated. *)
Definition ErrConstraint : error := "constraint failed".

(** * Tables *)

(** scanner_worker_jobs: migrations 24, 25 (lease columns) and 26 (result columns). *)
Record JobRow := {
  row_id : string;
  row_worker_id : string;
  row_scan_id : string;
  row_status : WorkerJobStatus;
  row_signed_envelope : SignedWorkerJob;
  row_issued_at : string;
  row_expires_at : string;
  row_created_at : string;
  row_lease_token_hash : option string;
  row_lease_expires_at : option string;
  row_lease_attempt : Z;
  row_result_id : option string;
  row_result_outcome : option string;
  row_completed_at : option string }.

(** scanner_worker_job_assignments. *)
Record AssignmentRow := {
  assignment_job_id : string;
  assignment_attempt : Z;
  assignment_worker_id : string;
  assignment_signed_envelope : SignedWorkerJob;
  assignment_assigned_at : string;
  assignment_reason : string }.

(** scanner_worker_evidence_batches. *)
Record EvidenceRow := {
  evidence_batch_id : string;
  evidence_job_id : string;
  evidence_worker_id : string;
  evidence_scan_id : string;
  evidence_sequence : Z;
  evidence_final : bool;
  evidence_certificate_serial : string;
  evidence_signed_envelope : SignedWorkerEvidenceBatch;
  evidence_collected_at : string;
  evidence_received_at : string }.

(** scanner_worker_job_checkpoints. *)
Record CheckpointRow := {
  checkpoint_job_id : string;
  checkpoint_worker_id : string;
  checkpoint_scan_id : string;
  checkpoint_address : string;
  checkpoint_port : Z;
  checkpoint_completed_at : string;
  checkpoint_batch_id : string }.

(** The columns of scans that the subsystem writes; the remaining ones stay as they are. *)
Record ScanRow := {
  scan_id : string;
  scan_status : string;
  scan_error : string;
  scan_done_checks : Z;
  scan_started_at : option string;
  scan_completed_at : option string;
  scan_observations : list ServiceObservation;
  scan_findings : list Finding;
  scan_checkpoints : list WorkerCheckpoint;
  scan_cve_matches : list string }.

Record Db := {
  db_workers : list ScannerWorker;
  db_dispatch_enabled : bool;
  db_jobs : list JobRow;
  db_assignments : list AssignmentRow;
  db_evidence : list EvidenceRow;
  db_checkpoints : list CheckpointRow;
  db_dead_letters : list WorkerJobDeadLetter;
  db_scans : list ScanRow }.

Definition set_jobs (jobs : list JobRow) (db : Db) : Db :=
  {| db_workers := db_workers db; db_dispatch_enabled := db_dispatch_enabled db; db_jobs := jobs;
     db_assignments := db_assignments db; db_evidence := db_evidence db; db_checkpoints := db_checkpoints db;
     db_dead_letters := db_dead_letters db; db_scans := db_scans db |}.
Definition set_assignments (assignments : list AssignmentRow) (db : Db) : Db :=
  {| db_workers := db_workers db; db_dispatch_enabled := db_dispatch_enabled db; db_jobs := db_jobs db;
     db_assignments := assignments; db_evidence := db_evidence db; db_checkpoints := db_checkpoints db;
     db_dead_letters := db_dead_letters db; db_scans := db_scans db |}.
Definition set_evidence (evidence : list EvidenceRow) (checkpoints : list CheckpointRow) (db : Db) : Db :=
  {| db_workers := db_workers db; db_dispatch_enabled := db_dispatch_enabled db; db_jobs := db_jobs db;
     db_assignments := db_assignments db; db_evidence := evidence; db_checkpoints := checkpoints;
     db_dead_letters := db_dead_letters db; db_scans := db_scans db |}.
Definition set_dead_letters (dead : list WorkerJobDeadLetter) (db : Db) : Db :=
  {| db_workers := db_workers db; db_dispatch_enabled := db_dispatch_enabled db; db_jobs := db_jobs db;
     db_assignments := db_assignments db; db_evidence := db_evidence db; db_checkpoints := db_checkpoints db;
     db_dead_letters := dead; db_scans := db_scans db |}.
Definition set_scans (scans : list ScanRow) (db : Db) : Db :=
  {| db_workers := db_workers db; db_dispatch_enabled := db_dispatch_enabled db; db_jobs := db_jobs db;
     db_assignments := db_assignments db; db_evidence := db_evidence db; db_checkpoints := db_checkpoints db;
     db_dead_letters := db_dead_letters db; db_scans := scans |}.

(** A foreign key into scanner_workers. *)
Definition worker_exists (db : Db) (id : string) : bool :=
  existsb (fun w => bool_decide (Worker_ID w = id)) (db_workers db).

(** ** The [SET] clauses on jobs *)

Definition set_lease (status : WorkerJobStatus) (token expiry : option string) (attempt : Z) (r : JobRow) : JobRow :=
  {| row_id := row_id r; row_worker_id := row_worker_id r; row_scan_id := row_scan_id r; row_status := status;
     row_signed_envelope := row_signed_envelope r; row_issued_at := row_issued_at r;
     row_expires_at := row_expires_at r; row_created_at := row_created_at r; row_lease_token_hash := token;
     row_lease_expires_at := expiry; row_lease_attempt := attempt; row_result_id := row_result_id r;
     row_result_outcome := row_result_outcome r; row_completed_at := row_completed_at r |}.
(** [status=?,lease_token_hash=NULL,lease_expires_at=NULL] *)
Definition drop_lease (status : WorkerJobStatus) (r : JobRow) : JobRow :=
  set_lease status None None (row_lease_attempt r) r.
Definition set_assignment (worker : string) (envelope : SignedWorkerJob) (r : JobRow) : JobRow :=
  {| row_id := row_id r; row_worker_id := worker; row_scan_id := row_scan_id r; row_status := WorkerJobPending;
     row_signed_envelope := envelope; row_issued_at := row_issued_at r;
     row_expires_at := row_expires_at r; row_created_at := row_created_at r; row_lease_token_hash := None;
     row_lease_expires_at := None; row_lease_attempt := row_lease_attempt r; row_result_id := row_result_id r;
     row_result_outcome := row_result_outcome r; row_completed_at := row_completed_at r |}.
Definition set_result (result_id outcome completed_at : string) (r : JobRow) : JobRow :=
  {| row_id := row_id r; row_worker_id := row_worker_id r; row_scan_id := row_scan_id r; row_status := WorkerJobCompleted;
     row_signed_envelope := row_signed_envelope r; row_issued_at := row_issued_at r;
     row_expires_at := row_expires_at r; row_created_at := row_created_at r; row_lease_token_hash := None;
     row_lease_expires_at := None; row_lease_attempt := row_lease_attempt r; row_result_id := Some result_id;
     row_result_outcome := Some outcome; row_completed_at := Some completed_at |}.

(** The row [CreateScannerWorkerJob] inserts. *)
Definition new_job_row (envelope : SignedWorkerJob) (createdAt : Time) : JobRow :=
  let job := SignedJob_Job envelope in
  {| row_id := Job_ID job; row_worker_id := Job_WorkerID job; row_scan_id := Job_ScanID job;
     row_status := Job_Status job; row_signed_envelope := envelope;
     row_issued_at := formatTime (Job_IssuedAt job); row_expires_at := formatTime (Job_ExpiresAt job);
     row_created_at := formatTime createdAt; row_lease_token_hash := None; row_lease_expires_at := None;
     row_lease_attempt := 0; row_result_id := None; row_result_outcome := None; row_completed_at := None |}.

Definition has_id (id : string) (r : JobRow) : bool := bool_decide (row_id r = id).
Definition has_status (status : WorkerJobStatus) (r : JobRow) : bool := bool_decide (row_status r = status).
(** [CHECK(status IN (...))] *)
Definition status_check (status : WorkerJobStatus) : bool :=
  existsb (fun s => bool_decide (status = s))
    [WorkerJobPending; WorkerJobLeased; WorkerJobCompleted; WorkerJobCanceled; WorkerJobExpired].

(** * worker_job.go *)

Definition CreateScannerWorkerJob (envelope : SignedWorkerJob) (createdAt : Time) : st Db () := fun db =>
  let job := SignedJob_Job envelope in
  match query_row (has_id (Job_ID job)) (db_jobs db) with
  | Some _ => (Err ErrWorkerJobReplay, db)
  | None =>
      if negb (status_check (Job_Status job)) || negb (worker_exists db (Job_WorkerID job))
      then (Err ErrConstraint, db) else
      let db' := set_jobs (db_jobs db ++ [new_job_row envelope createdAt]) db in
      if existsb (fun a => bool_decide (assignment_job_id a = Job_ID job) && (assignment_attempt a =? 1)) (db_assignments db)
      then (Err ErrConstraint, db) else
      (Ok tt, set_assignments (db_assignments db ++
        [{| assignment_job_id := Job_ID job; assignment_attempt := 1; assignment_worker_id := Job_WorkerID job;
            assignment_signed_envelope := envelope; assignment_assigned_at := formatTime createdAt;
            assignment_reason := "initial" |}]) db')
  end.

Definition ScannerWorkerJob (id : string) (db : Db) : result SignedWorkerJob :=
  match query_row (has_id id) (db_jobs db) with
  | Some r => Ok (row_signed_envelope r)
  | None => Err ErrNotFound
  end.

Definition active (now : Time) (r : JobRow) : bool :=
  (has_status WorkerJobPending r || has_status WorkerJobLeased r) && str_ltb (formatTime now) (row_expires_at r).

Definition add_load (loads : gmap string WorkerJobLoad) (r : JobRow) : gmap string WorkerJobLoad :=
  let load := load_of loads (row_worker_id r) in
  <[ row_worker_id r := {|
       Load_ActiveJobs := Load_ActiveJobs load + 1;
       Load_ReservedConcurrency := Load_ReservedConcurrency load + Job_MaxConcurrent (SignedJob_Job (row_signed_envelope r)) |} ]> loads.

Definition ScannerWorkerJobLoads (now : Time) (db : Db) : result (gmap string WorkerJobLoad) :=
  Ok (fold_left add_load (select_where (active now) (db_jobs db)) ∅).

(** * worker_dead_letter.go *)

Definition maximumWorkerLeaseAttempts : Z := 3.
Definition workerLeaseFailureReason : string := "maximum expired lease attempts reached".

(** A leased job whose lease, but not the job, has expired. *)
Definition lapsed (now : string) (r : JobRow) : bool :=
  has_status WorkerJobLeased r && null_leb (row_lease_expires_at r) now && str_ltb now (row_expires_at r).
Definition repeatedly_lapsed (workerID now : string) (r : JobRow) : bool :=
  bool_decide (row_worker_id r = workerID) && lapsed now r && (maximumWorkerLeaseAttempts <=? row_lease_attempt r).

Definition dead_letter_of (now : string) (r : JobRow) : WorkerJobDeadLetter :=
  {| DeadLetter_JobID := row_id r; DeadLetter_ScanID := row_scan_id r; DeadLetter_WorkerID := row_worker_id r;
     DeadLetter_FailureCount := row_lease_attempt r; DeadLetter_Reason := workerLeaseFailureReason;
     DeadLetter_QuarantinedAt := now |}.
(** [INSERT ... ON CONFLICT(job_id) DO NOTHING], one selected row at a time. *)
Definition insert_dead_letter (dead : list WorkerJobDeadLetter) (letter : WorkerJobDeadLetter) : list WorkerJobDeadLetter :=
  if existsb (fun d => bool_decide (DeadLetter_JobID d = DeadLetter_JobID letter)) dead then dead else dead ++ [letter].

Definition is_dead_letter (dead : list WorkerJobDeadLetter) (id : string) : bool :=
  existsb (fun d => bool_decide (DeadLetter_JobID d = id)) dead.

Definition fail_scan (now : string) (s : ScanRow) : ScanRow :=
  {| scan_id := scan_id s; scan_status := "failed"; scan_error := workerLeaseFailureReason;
     scan_done_checks := scan_done_checks s; scan_started_at := scan_started_at s; scan_completed_at := Some now;
     scan_observations := scan_observations s; scan_findings := scan_findings s;
     scan_checkpoints := scan_checkpoints s; scan_cve_matches := scan_cve_matches s |}.

Definition quarantineRepeatedWorkerJobs (workerID : string) (now : Time) (db : Db) : Db :=
  let formattedNow := formatTime now in
  let selected := select_where (repeatedly_lapsed workerID formattedNow) (db_jobs db) in
  let dead := fold_left insert_dead_letter (dead_letter_of formattedNow <$> selected) (db_dead_letters db) in
  let quarantined_now d := bool_decide (DeadLetter_WorkerID d = workerID) && bool_decide (DeadLetter_QuarantinedAt d = formattedNow) in
  let scans := update_where (fun s =>
      existsb (fun d => quarantined_now d && bool_decide (DeadLetter_ScanID d = scan_id s)) dead &&
      existsb (fun status => bool_decide (scan_status s = status)) ["queued"; "running"; "paused"]%string)
    (fail_scan formattedNow) (db_scans db) in
  let jobs := update_where (fun r => is_dead_letter dead (row_id r) && has_status WorkerJobLeased r)
    (drop_lease WorkerJobCanceled) (db_jobs db) in
  set_jobs jobs (set_scans scans (set_dead_letters dead db)).

Definition dead_letter_less (a b : WorkerJobDeadLetter) : bool :=
  str_ltb (DeadLetter_QuarantinedAt b) (DeadLetter_QuarantinedAt a) ||
  (bool_decide (DeadLetter_QuarantinedAt a = DeadLetter_QuarantinedAt b) &&
   str_ltb (DeadLetter_JobID a) (DeadLetter_JobID b)).
Definition ListScannerWorkerDeadLetters (db : Db) : result (list WorkerJobDeadLetter) :=
  Ok (sort_slice dead_letter_less (db_dead_letters db)).

(** * worker_job_lease.go *)

(** [ORDER BY j.created_at,j.id] *)
Definition job_less (a b : JobRow) : bool :=
  str_ltb (row_created_at a) (row_created_at b) ||
  (bool_decide (row_created_at a = row_created_at b) && str_ltb (row_id a) (row_id b)).

Definition expirable (workerID now : string) (r : JobRow) : bool :=
  bool_decide (row_worker_id r = workerID) && (has_status WorkerJobPending r || has_status WorkerJobLeased r) &&
  str_leb (row_expires_at r) now.
Definition releasable (workerID now : string) (r : JobRow) : bool :=
  bool_decide (row_worker_id r = workerID) && lapsed now r.
(** The join of the job with its worker and with the dispatch settings. *)
Definition leasable (db : Db) (workerID now : string) (r : JobRow) : bool :=
  bool_decide (row_worker_id r = workerID) && has_status WorkerJobPending r && str_ltb now (row_expires_at r) &&
  existsb (fun w => bool_decide (Worker_ID w = row_worker_id r) && Worker_DispatchEnabled w) (db_workers db) &&
  db_dispatch_enabled db.
(** [CASE WHEN expires_at<? THEN expires_at ELSE ? END] *)
Definition capped_expiry (r : JobRow) (expiry : string) : string :=
  if str_ltb (row_expires_at r) expiry then row_expires_at r else expiry.

(** The three maintenance statements every lease starts with. *)
Definition lease_maintenance (workerID : string) (now : Time) (db : Db) : Db :=
  let formattedNow := formatTime now in
  let db := quarantineRepeatedWorkerJobs workerID now db in
  let db := set_jobs (update_where (expirable workerID formattedNow) (drop_lease WorkerJobExpired) (db_jobs db)) db in
  set_jobs (update_where (releasable workerID formattedNow) (drop_lease WorkerJobPending) (db_jobs db)) db.

Definition LeaseScannerWorkerJob (workerID tokenHash : string) (now leaseExpiresAt : Time) : st Db SignedWorkerJob :=
  fun db0 =>
  let db := lease_maintenance workerID now db0 in
  match query_first (leasable db workerID (formatTime now)) job_less (db_jobs db) with
  | None => (Err ErrNotFound, db) (* the maintenance is committed *)
  | Some r =>
      let formattedLeaseExpiry := formatTime leaseExpiresAt in
      let target r' := has_id (row_id r) r' && bool_decide (row_worker_id r' = workerID) && has_status WorkerJobPending r' in
      if negb (affected target (db_jobs db) =? 1) then (Err "scanner-worker job lease conflict", db0) else
      (Ok (row_signed_envelope r),
       set_jobs (update_where target (fun r' => set_lease WorkerJobLeased (Some tokenHash)
         (Some (capped_expiry r' formattedLeaseExpiry)) (row_lease_attempt r' + 1) r') (db_jobs db)) db)
  end.

(** * worker_job_renewal.go *)

Definition holds_lease (workerID jobID tokenHash now : string) (r : JobRow) : bool :=
  has_id jobID r && bool_decide (row_worker_id r = workerID) && has_status WorkerJobLeased r &&
  null_eqb (row_lease_token_hash r) tokenHash && null_gtb (row_lease_expires_at r) now &&
  str_ltb now (row_expires_at r).

(** [CASE WHEN expires_at<? THEN expires_at WHEN lease_expires_at>? THEN lease_expires_at ELSE ? END] *)
Definition renewed_expiry (r : JobRow) (expiry : string) : option string :=
  if str_ltb (row_expires_at r) expiry then Some (row_expires_at r)
  else if null_gtb (row_lease_expires_at r) expiry then row_lease_expires_at r
  else Some expiry.

Definition renew (expiry : string) (r : JobRow) : JobRow :=
  set_lease (row_status r) (row_lease_token_hash r) (renewed_expiry r expiry) (row_lease_attempt r) r.

Definition RenewScannerWorkerJobLease (workerID jobID tokenHash : string) (now requestedExpiry : Time) : st Db Time :=
  fun db =>
  let formattedExpiry := formatTime requestedExpiry in
  let target := holds_lease workerID jobID tokenHash (formatTime now) in
  if negb (affected target (db_jobs db) =? 1) then (Err ErrInvalidWorkerJobLease, db) else
  let jobs := update_where target (renew formattedExpiry) (db_jobs db) in
  match r ← query_row (has_id jobID) jobs; stored ← row_lease_expires_at r; parseTime stored with
  | None => (Err "decode renewed scanner-worker lease", db)
  | Some expiresAt => (Ok expiresAt, set_jobs jobs db)
  end.

(** * worker_evidence.go *)

Definition of_job (jobID : string) (e : EvidenceRow) : bool := bool_decide (evidence_job_id e = jobID).
Definition later_sequence (a b : EvidenceRow) : bool := evidence_sequence b <? evidence_sequence a.
(** [ORDER BY sequence DESC LIMIT 1] *)
Definition last_evidence (jobID : string) (db : Db) : option EvidenceRow :=
  query_first (of_job jobID) later_sequence (db_evidence db).

Definition validateEvidenceSequence (batch : WorkerEvidenceBatch) (receivedAt : Time) (db : Db) : result () :=
  match query_row (has_id (Batch_JobID batch)) (db_jobs db) with
  | None => Err ErrInvalidWorkerJobLease
  | Some r =>
      let leaseExpiresAt := default ""%string (row_lease_expires_at r) in
      reject negb (bool_decide (row_worker_id r = Batch_WorkerID batch)) ||
             negb (bool_decide (row_scan_id r = Batch_ScanID batch)) || negb (has_status WorkerJobLeased r) ||
             str_leb (row_expires_at r) (formatTime receivedAt) || str_leb leaseExpiresAt (formatTime receivedAt)
        as ErrInvalidWorkerJobLease;;
      let '(lastSequence, final, lastWorkerID) :=
        match last_evidence (Batch_JobID batch) db with
        | Some e => (evidence_sequence e, evidence_final e, evidence_worker_id e)
        | None => (0, false, ""%string)
        end in
      reject (final && bool_decide (lastWorkerID = Batch_WorkerID batch)) ||
             negb (Batch_Sequence batch =? wrapu64 (lastSequence + 1))
        as ErrWorkerEvidenceSequence;;
      Ok tt
  end.

Definition same_checkpoint (jobID address : string) (port : Z) (c : CheckpointRow) : bool :=
  bool_decide (checkpoint_job_id c = jobID) && bool_decide (checkpoint_address c = address) && (checkpoint_port c =? port).

(** One [INSERT ... ON CONFLICT(job_id,address,port) DO NOTHING] of the loop of [recordWorkerCheckpoints]. *)
Definition recordWorkerCheckpoint (batch : WorkerEvidenceBatch) (rows : list CheckpointRow)
    (checkpoint : WorkerCheckpoint) : result (list CheckpointRow) :=
  reject negb ((1 <=? Checkpoint_Port checkpoint) && (Checkpoint_Port checkpoint <=? 65535)) as ErrConstraint;;
  if existsb (same_checkpoint (Batch_JobID batch) (Checkpoint_Address checkpoint) (Checkpoint_Port checkpoint)) rows
  then Ok rows
  else Ok (rows ++ [{| checkpoint_job_id := Batch_JobID batch; checkpoint_worker_id := Batch_WorkerID batch;
                       checkpoint_scan_id := Batch_ScanID batch; checkpoint_address := Checkpoint_Address checkpoint;
                       checkpoint_port := Checkpoint_Port checkpoint;
                       checkpoint_completed_at := formatTime (Checkpoint_CompletedAt checkpoint);
                       checkpoint_batch_id := Batch_ID batch |}]).
Definition recordWorkerCheckpoints (batch : WorkerEvidenceBatch) (rows : list CheckpointRow) : result (list CheckpointRow) :=
  for_each (recordWorkerCheckpoint batch) rows (Batch_Checkpoints batch).

Definition evidence_row (envelope : SignedWorkerEvidenceBatch) (receivedAt : Time) : EvidenceRow :=
  let batch := SignedBatch_Batch envelope in
  {| evidence_batch_id := Batch_ID batch; evidence_job_id := Batch_JobID batch; evidence_worker_id := Batch_WorkerID batch;
     evidence_scan_id := Batch_ScanID batch; evidence_sequence := Batch_Sequence batch; evidence_final := Batch_Final batch;
     evidence_certificate_serial := SignedBatch_CertificateSerial envelope; evidence_signed_envelope := envelope;
     evidence_collected_at := formatTime (Batch_CollectedAt batch); evidence_received_at := formatTime receivedAt |}.

(** [CHECK(sequence>0)] and the driver's refusal of an unsigned integer above
    the signed range, [UNIQUE(job_id,sequence)], the foreign key to the worker. *)
Definition evidence_check (batch : WorkerEvidenceBatch) (db : Db) : bool :=
  (0 <? Batch_Sequence batch) && (Batch_Sequence batch <=? int64_max) && worker_exists db (Batch_WorkerID batch) &&
  negb (existsb (fun e => of_job (Batch_JobID batch) e && (evidence_sequence e =? Batch_Sequence batch)) (db_evidence db)).

Definition RecordScannerWorkerEvidenceBatch (envelope : SignedWorkerEvidenceBatch) (receivedAt : Time) : st Db () := fun db =>
  let batch := SignedBatch_Batch envelope in
  match query_row (fun e => bool_decide (evidence_batch_id e = Batch_ID batch)) (db_evidence db) with
  | Some e =>
      (Err (if bool_decide (evidence_signed_envelope e = envelope) then ErrWorkerEvidenceAlreadyAccepted
            else ErrWorkerEvidenceReplay), db)
  | None =>
      match validateEvidenceSequence batch receivedAt db with
      | Err e => (Err e, db)
      | Ok _ =>
          if negb (evidence_check batch db) then (Err ErrConstraint, db) else
          match recordWorkerCheckpoints batch (db_checkpoints db) with
          | Err e => (Err e, db)
          | Ok checkpoints => (Ok tt, set_evidence (db_evidence db ++ [evidence_row envelope receivedAt]) checkpoints db)
          end
      end
  end.

(** [ORDER BY address,port] *)
Definition checkpoint_less (a b : CheckpointRow) : bool :=
  str_ltb (checkpoint_address a) (checkpoint_address b) ||
  (bool_decide (checkpoint_address a = checkpoint_address b) && (checkpoint_port a <? checkpoint_port b)).
Definition checkpoint_of (c : CheckpointRow) : WorkerCheckpoint :=
  {| Checkpoint_Address := checkpoint_address c; Checkpoint_Port := checkpoint_port c;
     Checkpoint_CompletedAt := default ZeroTime (parseTime (checkpoint_completed_at c)) |}.
Definition job_checkpoints (jobID : string) (db : Db) : list CheckpointRow :=
  select_where (fun c => bool_decide (checkpoint_job_id c = jobID)) (db_checkpoints db).
Definition ScannerWorkerJobCheckpoints (jobID : string) (db : Db) : list WorkerCheckpoint :=
  checkpoint_of <$> sort_slice checkpoint_less (job_checkpoints jobID db).

(** * worker_reassignment.go *)

Definition ScannerWorkerJobResumeCandidate (jobID : string) (now : Time) : st Db WorkerJobResumeCandidate := fun db =>
  match query_row (fun r => has_id jobID r && lapsed (formatTime now) r) (db_jobs db) with
  | None => (Err ErrWorkerJobNotResumable, db)
  | Some r =>
      if maximumWorkerLeaseAttempts <=? row_lease_attempt r
      then (Err ErrWorkerJobQuarantined, quarantineRepeatedWorkerJobs (row_worker_id r) now db)
      else
        let envelope := row_signed_envelope r in
        let job := SignedJob_Job envelope in
        let completed := ScannerWorkerJobCheckpoints jobID db in
        if (length (Job_Targets job) * length (Job_Ports job) <=? length completed)%nat
        then (Err ErrWorkerJobNotResumable, db)
        else
          let lastSequence := match last_evidence jobID db with Some e => evidence_sequence e | None => 0 end in
          (Ok {| Candidate_Envelope := envelope; Candidate_Completed := completed;
                 Candidate_NextEvidenceSequence := wrapu64 (lastSequence + 1) |}, db)
  end.

(** [COALESCE(MAX(sequence),0)] *)
Definition max_sequence (jobID : string) (db : Db) : Z :=
  fold_left (fun m e => Z.max m (evidence_sequence e)) (select_where (of_job jobID) (db_evidence db)) 0.
Definition max_attempt (jobID : string) (db : Db) : Z :=
  fold_left (fun m a => Z.max m (assignment_attempt a))
    (select_where (fun a => bool_decide (assignment_job_id a = jobID)) (db_assignments db)) 0.

Definition reassignable (jobID previousWorkerID now : string) (r : JobRow) : bool :=
  has_id jobID r && bool_decide (row_worker_id r = previousWorkerID) && lapsed now r.

Definition ReassignScannerWorkerJob (previousWorkerID : string) (envelope : SignedWorkerJob) (now : Time) : st Db () :=
  fun db =>
  let job := SignedJob_Job envelope in
  match Job_Resume job with
  | None => (Err ErrWorkerJobNotResumable, db)
  | Some resume =>
      if negb (bool_decide (Resume_PreviousWorkerID resume = previousWorkerID)) then (Err ErrWorkerJobNotResumable, db) else
      let lastSequence := max_sequence (Job_ID job) db in
      let checkpointCount := length (job_checkpoints (Job_ID job) db) in
      if negb (Resume_NextEvidenceSequence resume =? wrapu64 (lastSequence + 1)) ||
         negb (bool_decide (length (Resume_Completed resume) = checkpointCount))
      then (Err ErrWorkerJobNotResumable, db) else
      let target := reassignable (Job_ID job) previousWorkerID (formatTime now) in
      if (0 <? affected target (db_jobs db)) && negb (worker_exists db (Job_WorkerID job)) then (Err ErrConstraint, db) else
      if negb (affected target (db_jobs db) =? 1) then (Err ErrWorkerJobNotResumable, db) else
      let attempt := max_attempt (Job_ID job) db + 1 in
      (Ok tt,
       set_assignments (db_assignments db ++
         [{| assignment_job_id := Job_ID job; assignment_attempt := attempt; assignment_worker_id := Job_WorkerID job;
             assignment_signed_envelope := envelope; assignment_assigned_at := formatTime now;
             assignment_reason := "expired_lease_resume" |}])
         (set_jobs (update_where target (set_assignment (Job_WorkerID job) envelope) (db_jobs db)) db))
  end.

(** * worker_projection.go *)

Definition remoteWorkerFailure : string := "remote scanner-worker execution failed".

(** [ORDER BY sequence] *)
Definition earlier_sequence (a b : EvidenceRow) : bool := evidence_sequence a <? evidence_sequence b.
Definition scannerWorkerEvidence (jobID : string) (db : Db) : list ServiceObservation * list Finding :=
  let batches := (fun e => SignedBatch_Batch (evidence_signed_envelope e)) <$>
                 sort_slice earlier_sequence (select_where (of_job jobID) (db_evidence db)) in
  (batches ≫= Batch_Observations, batches ≫= Batch_Findings).

Definition workerScanCheckpoints (checkpoints : list WorkerCheckpoint) : list WorkerCheckpoint :=
  (fun c => {| Checkpoint_Address := Checkpoint_Address c; Checkpoint_Port := Checkpoint_Port c;
               Checkpoint_CompletedAt := Checkpoint_CompletedAt c |}) <$> checkpoints.

Definition workerScanStartedAt (current : option string) (issuedAt : Time) : option string :=
  match current with Some c => Some c | None => Some (formatTime issuedAt) end.

Definition projectedScanOutcome (outcome : WorkerJobResultOutcome) : string * string :=
  if bool_decide (outcome = WorkerJobResultSucceeded) then ("completed", "")%string
  else if bool_decide (outcome = WorkerJobResultCanceled) then ("canceled", "")%string
  else ("failed"%string, remoteWorkerFailure).

(** Matching an observation to CVE records reads the intelligence tables,
    which are outside these tables: it is an argument here. *)
Definition matchScannerWorkerObservations (matchObservation : ServiceObservation -> result (list string))
    (observations : list ServiceObservation) : result (list string) :=
  for_each (fun matches observation => found ← matchObservation observation; Ok (matches ++ found)) [] observations.

Definition projectScannerWorkerResult (matchObservation : ServiceObservation -> result (list string))
    (receipt : WorkerJobResultReceipt) : st Db () := fun db =>
  match ScannerWorkerJob (Receipt_JobID receipt) db with
  | Err e => (Err e, db)
  | Ok envelope =>
      let job := SignedJob_Job envelope in
      match query_row (fun s => bool_decide (scan_id s = Job_ScanID job)) (db_scans db) with
      | None => (Err ErrNotFound, db)
      | Some scan =>
          let '(observations, findings) := scannerWorkerEvidence (Receipt_JobID receipt) db in
          let checkpoints := ScannerWorkerJobCheckpoints (Receipt_JobID receipt) db in
          let '(status, message) := projectedScanOutcome (Receipt_Outcome receipt) in
          match matchScannerWorkerObservations matchObservation observations with
          | Err e => (Err e, db)
          | Ok matches =>
              let scan' := {| scan_id := scan_id scan; scan_status := status; scan_error := message;
                scan_done_checks := Z.of_nat (length checkpoints);
                scan_started_at := workerScanStartedAt (scan_started_at scan) (Job_IssuedAt job);
                scan_completed_at := Some (formatTime (Receipt_CompletedAt receipt));
                scan_observations := observations; scan_findings := findings;
                scan_checkpoints := workerScanCheckpoints checkpoints; scan_cve_matches := matches |} in
              (Ok tt, set_scans (update_where (fun s => bool_decide (scan_id s = scan_id scan)) (fun _ => scan') (db_scans db)) db)
          end
      end
  end.

(** * worker_result.go *)

Definition workerJobCheckpointsComplete (jobID : string) (db : Db) : bool :=
  match query_row (has_id jobID) (db_jobs db) with
  | None => false
  | Some r =>
      let job := SignedJob_Job (row_signed_envelope r) in
      let expected := (length (Job_Targets job) * length (Job_Ports job))%nat in
      if bool_decide (expected = O) then false
      else bool_decide (length (job_checkpoints jobID db) = expected)
  end.

Definition completable (receipt : WorkerJobResultReceipt) (tokenHash now : string) (db : Db) (r : JobRow) : bool :=
  holds_lease (Receipt_WorkerID receipt) (Receipt_JobID receipt) tokenHash now r &&
  (negb (bool_decide (Receipt_Outcome receipt = WorkerJobResultSucceeded)) ||
   existsb (fun e => of_job (Receipt_JobID receipt) e && evidence_final e) (db_evidence db)).

Definition has_result (resultID : string) (r : JobRow) : bool := null_eqb (row_result_id r) resultID.

Definition CompleteScannerWorkerJob (matchObservation : ServiceObservation -> result (list string))
    (receipt : WorkerJobResultReceipt) (tokenHash : string) (now : Time) : st Db () := fun db =>
  if bool_decide (Receipt_Outcome receipt = WorkerJobResultSucceeded) &&
     negb (workerJobCheckpointsComplete (Receipt_JobID receipt) db)
  then (Err ErrInvalidWorkerJobLease, db) else
  match query_row (has_result (Receipt_ResultID receipt)) (db_jobs db) with
  | Some r =>
      if bool_decide (row_id r = Receipt_JobID receipt) && bool_decide (row_worker_id r = Receipt_WorkerID receipt) &&
         null_eqb (row_result_outcome r) (Receipt_Outcome receipt) &&
         null_eqb (row_completed_at r) (formatTime (Receipt_CompletedAt receipt))
      then match projectScannerWorkerResult matchObservation receipt db with
           | (Err e, db') => (Err e, db')
           | (Ok _, db') => (Err ErrWorkerResultAlreadyAccepted, db')
           end
      else (Err ErrWorkerResultReplay, db)
  | None =>
      let target := completable receipt tokenHash (formatTime now) db in
      if negb (affected target (db_jobs db) =? 1) then (Err ErrInvalidWorkerJobLease, db) else
      let db' := set_jobs (update_where target (set_result (Receipt_ResultID receipt) (Receipt_Outcome receipt)
                   (formatTime (Receipt_CompletedAt receipt))) (db_jobs db)) db in
      projectScannerWorkerResult matchObservation receipt db'
  end.
