(* ===== verification/WorkerJobMachine.v ===== *)
(** The life of one scanner-worker job as a transition system, and the proof
    that every transaction of [WorkerStore] moves each stored job along it. *)
From Stdlib Require Import ZArith Lia String.
From stdpp Require Import base tactics list strings gmap sets relations.
From S2P Require Import Prelude GoStrings GoTime WorkerModel WorkerJob Dispatcher Sql WorkerStore.
Open Scope Z_scope.

(** * The transition system *)

(** Who acts: the holder of a lease token, or the server on its own. *)
Inductive actor := Holder (worker token : string) | Server.

(** Transitions at the instant whose text is [now]. *)
Inductive job_step (now : string) (who : actor) : JobRow -> JobRow -> Prop :=
| step_lease r token expiry :
    row_status r = WorkerJobPending -> str_ltb now (row_expires_at r) = true ->
    str_leb expiry (row_expires_at r) = true ->
    job_step now who r (set_lease WorkerJobLeased (Some token) (Some expiry) (row_lease_attempt r + 1) r)
| step_renew r worker token old expiry :
    who = Holder worker token -> row_worker_id r = worker -> row_status r = WorkerJobLeased ->
    row_lease_token_hash r = Some token -> row_lease_expires_at r = Some old ->
    str_ltb now old = true -> str_leb old expiry = true -> str_leb expiry (row_expires_at r) = true ->
    job_step now who r (set_lease WorkerJobLeased (Some token) (Some expiry) (row_lease_attempt r) r)
| step_complete r worker token old result outcome completed :
    who = Holder worker token -> row_worker_id r = worker -> row_status r = WorkerJobLeased ->
    row_lease_token_hash r = Some token -> row_lease_expires_at r = Some old -> str_ltb now old = true ->
    job_step now who r (set_result result outcome completed r)
| step_release r :
    lapsed now r = true -> row_lease_attempt r < maximumWorkerLeaseAttempts ->
    job_step now who r (drop_lease WorkerJobPending r)
| step_quarantine r :
    lapsed now r = true -> maximumWorkerLeaseAttempts <= row_lease_attempt r ->
    job_step now who r (drop_lease WorkerJobCanceled r)
| step_expire r :
    row_status r = WorkerJobPending \/ row_status r = WorkerJobLeased ->
    str_leb (row_expires_at r) now = true ->
    job_step now who r (drop_lease WorkerJobExpired r)
| step_reassign r worker envelope :
    lapsed now r = true -> Job_ID (SignedJob_Job envelope) = row_id r ->
    Job_WorkerID (SignedJob_Job envelope) = worker ->
    job_step now who r (set_assignment worker envelope r).

(** The statuses no job leaves. *)
Definition terminal (r : JobRow) : Prop :=
  row_status r = WorkerJobCompleted \/ row_status r = WorkerJobCanceled \/ row_status r = WorkerJobExpired.

(** Well-formed rows: the lease columns are set exactly on leased jobs, the
    result columns exactly on completed ones, and a lease never outlives its job. *)
Record row_wf (r : JobRow) : Prop := {
  wf_status : row_status r ∈ [WorkerJobPending; WorkerJobLeased; WorkerJobCompleted; WorkerJobCanceled; WorkerJobExpired];
  wf_lease : match row_lease_token_hash r, row_lease_expires_at r with
             | Some _, Some expiry => row_status r = WorkerJobLeased /\ str_leb expiry (row_expires_at r) = true
             | None, None => row_status r <> WorkerJobLeased
             | _, _ => False
             end;
  wf_attempt : 0 <= row_lease_attempt r /\ (row_status r = WorkerJobLeased -> 1 <= row_lease_attempt r);
  wf_result : match row_result_id r, row_result_outcome r, row_completed_at r with
              | Some _, Some _, Some _ => row_status r = WorkerJobCompleted
              | None, None, None => row_status r <> WorkerJobCompleted
              | _, _, _ => False
              end;
  wf_envelope : Job_ID (SignedJob_Job (row_signed_envelope r)) = row_id r /\
                Job_WorkerID (SignedJob_Job (row_signed_envelope r)) = row_worker_id r }.

(** Distinct statuses are distinct strings. *)
Ltac status_solve :=
  unfold WorkerJobPending, WorkerJobLeased, WorkerJobCompleted, WorkerJobCanceled, WorkerJobExpired in *;
  (congruence || intuition congruence).

Lemma lapsed_leased now r : lapsed now r = true -> row_status r = WorkerJobLeased.
Proof. unfold lapsed, has_status. intros H. reflect_bools. done. Qed.

Lemma job_step_wf now who r r' : row_wf r -> job_step now who r r' -> row_wf r'.
Proof.
  intros [Hs Hl Ha Hr He] Hst. destruct Hst; repeat match goal with H : lapsed _ _ = true |- _ => apply lapsed_leased in H end.
  all: constructor; simpl; try done; try (repeat constructor; fail).
  all: try (by set_solver). all: try (split; [lia|done || (intros; lia)]).
  all: repeat match goal with
       | H : context [match row_result_id ?x with _ => _ end] |- _ => destruct (row_result_id x), (row_result_outcome x), (row_completed_at x)
       end; try done; try congruence.
  all: try (destruct Ha; split; [lia|done]); try naive_solver.
  all: status_solve.
Qed.

Lemma job_step_id now who r r' : job_step now who r r' -> row_id r' = row_id r.
Proof. by destruct 1. Qed.

Lemma job_step_terminal now who r r' : terminal r -> job_step now who r r' -> False.
Proof.
  unfold terminal. intros Ht Hs. destruct Hs;
    repeat match goal with H : lapsed _ _ = true |- _ => apply lapsed_leased in H end;
    status_solve.
Qed.

(** * Tables of jobs *)

Definition evolves (now : string) (who : actor) (l l' : list JobRow) : Prop :=
  Forall2 (rtc (job_step now who)) l l'.

Lemma evolves_refl now who l : evolves now who l l.
Proof. unfold evolves. apply Forall2_same_length_lookup. split; [done|]. intros i x y Hx Hy. simplify_eq. apply rtc_refl. Qed.

Lemma evolves_trans now who l1 l2 l3 : evolves now who l1 l2 -> evolves now who l2 l3 -> evolves now who l1 l3.
Proof. unfold evolves. intros H1 H2. eapply Forall2_trans; [|exact H1|exact H2]. intros x y z Hxy Hyz. by etrans. Qed.

Lemma rtc_step_wf now who r r' : rtc (job_step now who) r r' -> row_wf r -> row_wf r'.
Proof. induction 1 as [|x y z Hs _ IH]; [done|]. intros Hw. apply IH. by eapply job_step_wf. Qed.

Lemma rtc_step_id now who r r' : rtc (job_step now who) r r' -> row_id r' = row_id r.
Proof. induction 1 as [|x y z Hs _ IH]; [done|]. rewrite IH. by eapply job_step_id. Qed.

Lemma evolves_wf now who l l' : evolves now who l l' -> Forall row_wf l -> Forall row_wf l'.
Proof.
  intros He Hw. apply Forall_forall. intros r' Hr'. apply list_elem_of_lookup_1 in Hr' as [i Hi].
  destruct (Forall2_lookup_r _ _ _ _ _ He Hi) as (r & Hr & Hs).
  eapply rtc_step_wf; [exact Hs|]. rewrite Forall_forall in Hw. apply Hw. by eapply list_elem_of_lookup_2.
Qed.

Lemma evolves_ids now who l l' : evolves now who l l' -> row_id <$> l' = row_id <$> l.
Proof.
  unfold evolves. induction 1 as [|r r' l l' Hs _ IH]; [done|]. rewrite !fmap_cons. by rewrite IH, (rtc_step_id _ _ _ _ Hs).
Qed.

(** An [UPDATE] whose [SET] is a transition on every row its [WHERE] selects. *)
Lemma update_evolves now who p f l :
  (forall r, r ∈ l -> p r = true -> job_step now who r (f r)) -> evolves now who l (update_where p f l).
Proof.
  intros H. apply update_where_Forall2; [intros; apply rtc_refl|]. intros r Hr Hp. by apply rtc_once, H.
Qed.

(** ** Quarantine *)

(** Dead letters name canceled jobs. *)
Definition dead_letters_wf (db : Db) : Prop :=
  forall d, d ∈ db_dead_letters db ->
    maximumWorkerLeaseAttempts <= DeadLetter_FailureCount d /\
    exists r, r ∈ db_jobs db /\ row_id r = DeadLetter_JobID d /\ row_status r = WorkerJobCanceled.

Lemma is_dead_letter_true dead id : is_dead_letter dead id = true <-> exists d, d ∈ dead /\ DeadLetter_JobID d = id.
Proof.
  unfold is_dead_letter. rewrite existsb_exists. setoid_rewrite <- list_elem_of_In.
  setoid_rewrite bool_decide_eq_true. done.
Qed.

(** Inserting letters keeps the old ones and covers the new identities. *)
Lemma insert_dead_letters_elem letters dead d :
  d ∈ fold_left insert_dead_letter letters dead -> d ∈ dead \/ d ∈ letters.
Proof.
  revert dead. induction letters as [|x letters IH]; intros dead; simpl; [by left|].
  intros [Hd|Hd]%IH; [|by right; right]. unfold insert_dead_letter in Hd. case_if_in Hd; [by left|].
  apply elem_of_app in Hd as [?|?%list_elem_of_singleton]; [by left|]. subst. right. by left.
Qed.

Lemma insert_dead_letters_old letters dead id :
  is_dead_letter dead id = true -> is_dead_letter (fold_left insert_dead_letter letters dead) id = true.
Proof.
  revert dead. induction letters as [|x letters IH]; intros dead H; simpl; [done|]. apply IH.
  unfold insert_dead_letter. case_if; [done|]. apply is_dead_letter_true in H as (d & Hd & <-).
  apply is_dead_letter_true. exists d. set_solver.
Qed.

Lemma insert_dead_letters_new letters dead d :
  d ∈ letters -> is_dead_letter (fold_left insert_dead_letter letters dead) (DeadLetter_JobID d) = true.
Proof.
  revert dead. induction letters as [|x letters IH]; intros dead; [by intros ?%not_elem_of_nil|]. simpl.
  intros [->|Hd]%elem_of_cons; [|by apply IH]. apply insert_dead_letters_old. unfold insert_dead_letter.
  case_if; [done|]. apply is_dead_letter_true. exists x. set_solver.
Qed.

Lemma insert_dead_letters_nodup letters dead :
  NoDup (DeadLetter_JobID <$> dead) -> NoDup (DeadLetter_JobID <$> fold_left insert_dead_letter letters dead).
Proof.
  revert dead. induction letters as [|x letters IH]; intros dead H; simpl; [done|]. apply IH.
  unfold insert_dead_letter. case_if; [done|]. rewrite fmap_app. apply NoDup_app. split_and!; [done| |apply NoDup_singleton].
  intros id Hid%list_elem_of_fmap ->%list_elem_of_singleton. destruct Hid as (d & Ed & Hd).
  apply not_true_iff_false in E. apply E, is_dead_letter_true. eauto.
Qed.

Lemma repeatedly_lapsed_true worker now r :
  repeatedly_lapsed worker now r = true <->
  row_worker_id r = worker /\ lapsed now r = true /\ maximumWorkerLeaseAttempts <= row_lease_attempt r.
Proof. unfold repeatedly_lapsed. rewrite !andb_true_iff, bool_decide_eq_true, Z.leb_le. naive_solver. Qed.

(** What the quarantine's [UPDATE] selects, on well-formed tables. *)
Lemma quarantine_target db worker now r :
  NoDup (row_id <$> db_jobs db) -> dead_letters_wf db -> r ∈ db_jobs db ->
  is_dead_letter (fold_left insert_dead_letter
    (dead_letter_of now <$> select_where (repeatedly_lapsed worker now) (db_jobs db)) (db_dead_letters db)) (row_id r)
  && has_status WorkerJobLeased r = true <-> repeatedly_lapsed worker now r = true.
Proof.
  intros Hnd Hdead Hr. rewrite andb_true_iff, is_dead_letter_true.
  assert (Uniq : forall r', r' ∈ db_jobs db -> row_id r' = row_id r -> r' = r).
  { intros r' Hr' E. apply list_elem_of_lookup_1 in Hr as [i Hi], Hr' as [k Hk].
    assert (i = k) as <-; [|congruence].
    eapply (NoDup_lookup _ _ _ (row_id r) Hnd); rewrite list_lookup_fmap, ?Hi, ?Hk; simpl; congruence. }
  split.
  - intros [(d & Hd & Ed) Hs]. apply insert_dead_letters_elem in Hd as [Hd|Hd].
    + destruct (Hdead d Hd) as (_ & r' & Hr' & Eid & Hc). rewrite (Uniq r' Hr') in Hc by congruence.
      unfold has_status in Hs. reflect_bools. status_solve.
    + apply list_elem_of_fmap in Hd as (r' & -> & Hr'). apply elem_of_select_where in Hr' as [Hr' Hp].
      by rewrite <- (Uniq r' Hr' Ed).
  - intros Hp. split.
    + apply is_dead_letter_true. change (row_id r) with (DeadLetter_JobID (dead_letter_of now r)).
      apply insert_dead_letters_new, list_elem_of_fmap_2, elem_of_select_where. done.
    + apply repeatedly_lapsed_true in Hp as (_ & Hl & _). apply lapsed_leased in Hl. unfold has_status. by rewrite Hl.
Qed.

(** * The job tables under each transaction *)

Record jobs_wf (db : Db) : Prop := {
  jobs_rows : Forall row_wf (db_jobs db);
  jobs_ids : NoDup (row_id <$> db_jobs db);
  jobs_dead : dead_letters_wf db;
  jobs_dead_ids : NoDup (DeadLetter_JobID <$> db_dead_letters db) }.

Lemma jobs_wf_row db r : jobs_wf db -> r ∈ db_jobs db -> row_wf r.
Proof. intros [Hr _ _ _]. rewrite Forall_forall in Hr. apply Hr. Qed.

(** A canceled job stays canceled, so dead letters survive evolution. *)
Lemma evolves_dead db now who jobs :
  jobs_wf db -> evolves now who (db_jobs db) jobs -> jobs_wf (set_jobs jobs db).
Proof.
  intros [Hr Hi Hd Hdi] He. split; simpl; [by eapply evolves_wf|by rewrite (evolves_ids _ _ _ _ He)| |done].
  intros d Hin. destruct (Hd d Hin) as (Hc & r & Hr' & E & Hs). split; [done|].
  apply list_elem_of_lookup_1 in Hr' as [i Hi']. destruct (Forall2_lookup_l _ _ _ _ _ He Hi') as (r' & Hl & Hstep).
  exists r'. simpl. split; [by eapply list_elem_of_lookup_2|]. split; [by rewrite (rtc_step_id _ _ _ _ Hstep)|].
  destruct Hstep as [|x y z Hxy _]; [done|]. exfalso. eapply job_step_terminal; [|exact Hxy]. unfold terminal. auto.
Qed.

(** A legal row appended by job creation. *)
Lemma jobs_wf_append db r :
  jobs_wf db -> row_wf r -> (forall r', r' ∈ db_jobs db -> row_id r' <> row_id r) ->
  jobs_wf (set_jobs (db_jobs db ++ [r]) db).
Proof.
  intros [Hr Hi Hd Hdi] Hw Hf. split; simpl; [by apply Forall_app; auto| | |done].
  - rewrite fmap_app. apply NoDup_app. split_and!; [done| |apply NoDup_singleton].
    intros id Hin ->%list_elem_of_singleton. apply list_elem_of_fmap in Hin as (r' & E & Hr'). by apply (Hf r').
  - intros d Hin. destruct (Hd d Hin) as (Hc & r' & Hr' & ?). split; [done|]. exists r'. simpl. set_solver.
Qed.

(** Changes of the other tables do not matter. *)
Lemma jobs_wf_ext db db' :
  db_jobs db' = db_jobs db -> db_dead_letters db' = db_dead_letters db -> jobs_wf db -> jobs_wf db'.
Proof. intros E1 E2 [Hr Hi Hd Hdi]. split; unfold dead_letters_wf in *; rewrite ?E1, ?E2; done. Qed.

Lemma quarantine_evolves worker now who db :
  jobs_wf db ->
  evolves (formatTime now) who (db_jobs db) (db_jobs (quarantineRepeatedWorkerJobs worker now db)) /\
  jobs_wf (quarantineRepeatedWorkerJobs worker now db) /\
  (forall r, r ∈ db_jobs (quarantineRepeatedWorkerJobs worker now db) -> repeatedly_lapsed worker (formatTime now) r = false).
Proof.
  intros Hw. pose proof Hw as [Hr Hi Hd Hdi]. set (n := formatTime now).
  assert (He : evolves n who (db_jobs db) (db_jobs (quarantineRepeatedWorkerJobs worker now db))).
  { unfold quarantineRepeatedWorkerJobs. simpl. apply update_evolves. intros r Hin Hp.
    rewrite quarantine_target in Hp by done. apply repeatedly_lapsed_true in Hp as (_ & ? & ?).
    by apply step_quarantine. }
  split_and!; [done| |].
  - pose proof (evolves_dead db _ _ _ Hw He) as [Hr' Hi' Hd' _]. split; [done|done| |].
    + intros d Hin. unfold quarantineRepeatedWorkerJobs in Hin. simpl in Hin.
      apply insert_dead_letters_elem in Hin as [Hin|Hin]; [by apply Hd'|].
      apply list_elem_of_fmap in Hin as (r & -> & [Hin Hp]%elem_of_select_where). simpl.
      split; [by apply repeatedly_lapsed_true in Hp as (_ & _ & ?)|].
      exists (drop_lease WorkerJobCanceled r). split; [|done]. unfold quarantineRepeatedWorkerJobs. simpl.
      apply elem_of_update_where. exists r. split; [done|].
      pose proof (proj2 (quarantine_target db worker _ r Hi Hd Hin) Hp) as E. by rewrite E.
    + by apply insert_dead_letters_nodup.
  - intros r' Hin. unfold quarantineRepeatedWorkerJobs in Hin. simpl in Hin.
    apply elem_of_update_where in Hin as (r & Hin & ->).
    destruct (is_dead_letter _ _ && _) eqn:E.
    + unfold repeatedly_lapsed, lapsed. simpl. unfold has_status. simpl. by rewrite andb_false_r.
    + apply not_true_iff_false. intros Hp. apply (quarantine_target db worker n r Hi Hd Hin) in Hp. unfold n in Hp. congruence.
Qed.

Lemma lease_maintenance_evolves worker now who db :
  jobs_wf db ->
  evolves (formatTime now) who (db_jobs db) (db_jobs (lease_maintenance worker now db)) /\
  jobs_wf (lease_maintenance worker now db).
Proof.
  intros Hw. destruct (quarantine_evolves worker now who db Hw) as (He & Hq & Hno).
  unfold lease_maintenance. set (q := quarantineRepeatedWorkerJobs worker now db) in *.
  set (jobs1 := update_where (expirable worker (formatTime now)) (drop_lease WorkerJobExpired) (db_jobs q)).
  assert (He1 : evolves (formatTime now) who (db_jobs q) jobs1).
  { apply update_evolves. intros r Hin Hp. unfold expirable, has_status in Hp. reflect_bools.
    apply step_expire; [|done]. apply orb_true_iff in H1 as [?|?]; reflect_bools; auto. }
  pose proof (evolves_dead _ _ _ _ Hq He1) as Hq1.
  set (jobs2 := update_where (releasable worker (formatTime now)) (drop_lease WorkerJobPending) jobs1).
  assert (He2 : evolves (formatTime now) who jobs1 jobs2).
  { apply update_evolves. intros r Hin Hp. unfold releasable in Hp. reflect_bools. apply step_release; [done|].
    apply elem_of_update_where in Hin as (r0 & Hin & ->). destruct (expirable _ _ r0) eqn:E.
    { apply lapsed_leased in H0. simpl in H0. status_solve. }
    specialize (Hno r0 Hin). destruct (decide (row_lease_attempt r0 < maximumWorkerLeaseAttempts)); [done|].
    assert (repeatedly_lapsed worker (formatTime now) r0 = true) by (apply repeatedly_lapsed_true; repeat split; [done..|lia]).
    congruence. }
  split; [by eapply evolves_trans; [exact He|eapply evolves_trans]|].
  apply (evolves_dead (set_jobs jobs1 q) _ who jobs2 Hq1 He2).
Qed.

(** * The transactions as labelled operations *)

Section operations.
Context (matchObservation : ServiceObservation -> result (list string)).

Inductive store_op :=
| OpCreate (envelope : SignedWorkerJob) (createdAt : Time)
| OpLease (workerID tokenHash : string) (now leaseExpiresAt : Time)
| OpRenew (workerID jobID tokenHash : string) (now requestedExpiry : Time)
| OpResume (jobID : string) (now : Time)
| OpReassign (previousWorkerID : string) (envelope : SignedWorkerJob) (now : Time)
| OpEvidence (envelope : SignedWorkerEvidenceBatch) (receivedAt : Time)
| OpComplete (receipt : WorkerJobResultReceipt) (tokenHash : string) (now : Time).

Definition run_op (op : store_op) (db : Db) : Db :=
  match op with
  | OpCreate envelope createdAt => snd (CreateScannerWorkerJob envelope createdAt db)
  | OpLease w token now expiry => snd (LeaseScannerWorkerJob w token now expiry db)
  | OpRenew w job token now expiry => snd (RenewScannerWorkerJobLease w job token now expiry db)
  | OpResume job now => snd (ScannerWorkerJobResumeCandidate job now db)
  | OpReassign previous envelope now => snd (ReassignScannerWorkerJob previous envelope now db)
  | OpEvidence envelope receivedAt => snd (RecordScannerWorkerEvidenceBatch envelope receivedAt db)
  | OpComplete receipt token now => snd (CompleteScannerWorkerJob matchObservation receipt token now db)
  end.

(** The instant an operation works at, as the text the statements compare. *)
Definition op_now (op : store_op) : string :=
  formatTime match op with
  | OpCreate _ t | OpLease _ _ t _ | OpRenew _ _ _ t _ | OpResume _ t | OpReassign _ _ t
  | OpEvidence _ t | OpComplete _ _ t => t
  end.
Definition op_actor (op : store_op) : actor :=
  match op with
  | OpRenew w _ token _ _ => Holder w token
  | OpComplete receipt token _ => Holder (Receipt_WorkerID receipt) token
  | _ => Server
  end.
(** What the callers establish: jobs are created pending (a validated envelope is). *)
Definition op_ok (op : store_op) : Prop :=
  match op with OpCreate envelope _ => Job_Status (SignedJob_Job envelope) = WorkerJobPending | _ => True end.

Lemma row_unique db r r' : jobs_wf db -> r ∈ db_jobs db -> r' ∈ db_jobs db -> row_id r = row_id r' -> r = r'.
Proof.
  intros [_ Hnd _ _] Hr Hr' E. apply list_elem_of_lookup_1 in Hr as [i Hi], Hr' as [k Hk].
  assert (i = k) as <-; [|congruence].
  eapply (NoDup_lookup _ _ _ (row_id r) Hnd); rewrite list_lookup_fmap, ?Hi, ?Hk; simpl; congruence.
Qed.

Lemma holds_lease_true worker job token now r :
  holds_lease worker job token now r = true <->
  row_id r = job /\ row_worker_id r = worker /\ row_status r = WorkerJobLeased /\
  row_lease_token_hash r = Some token /\
  (exists old, row_lease_expires_at r = Some old /\ str_ltb now old = true) /\ str_ltb now (row_expires_at r) = true.
Proof.
  unfold holds_lease, has_id, has_status, null_eqb, null_gtb.
  rewrite !andb_true_iff, !bool_decide_eq_true.
  destruct (row_lease_token_hash r), (row_lease_expires_at r); rewrite ?bool_decide_eq_true; naive_solver.
Qed.

Lemma new_job_row_wf envelope createdAt :
  Job_Status (SignedJob_Job envelope) = WorkerJobPending -> row_wf (new_job_row envelope createdAt).
Proof.
  intros E. unfold new_job_row. constructor; simpl; rewrite ?E; try done; first [by left|split; [lia|done]].
Qed.

Lemma capped_expiry_le r expiry : str_leb (capped_expiry r expiry) (row_expires_at r) = true.
Proof. unfold capped_expiry. case_if; [apply str_leb_refl|]. by apply str_ltb_nle. Qed.

Lemma lease_update_evolves db worker token now expiry r who :
  jobs_wf db -> query_first (leasable db worker now) job_less (db_jobs db) = Some r ->
  evolves now who (db_jobs db)
    (update_where (fun r' => has_id (row_id r) r' && bool_decide (row_worker_id r' = worker) && has_status WorkerJobPending r')
      (fun r' => set_lease WorkerJobLeased (Some token) (Some (capped_expiry r' expiry)) (row_lease_attempt r' + 1) r')
      (db_jobs db)).
Proof.
  intros Hw Hq. unfold query_first in Hq. apply head_Some_elem_of, elem_of_sort_slice, elem_of_select_where in Hq as [Hr Hl].
  apply update_evolves. intros r' Hr' Hp. unfold has_id, has_status in Hp. reflect_bools.
  assert (r' = r) as -> by (by eapply row_unique).
  unfold leasable in Hl. reflect_bools. apply step_lease; [done..|apply capped_expiry_le].
Qed.

Lemma renew_step now worker job token expiry r :
  row_wf r -> holds_lease worker job token now r = true ->
  job_step now (Holder worker token) r (renew expiry r).
Proof.
  intros [_ Hl _ _ _] (Hid & Hwk & Hs & Ht & (old & Ho & Hlt) & _)%holds_lease_true.
  rewrite Ht, Ho in Hl. destruct Hl as [_ Hcap]. unfold renew. rewrite Hs, Ht.
  assert (exists e, renewed_expiry r expiry = Some e /\ str_leb old e = true /\ str_leb e (row_expires_at r) = true)
    as (e & -> & ? & ?).
  { unfold renewed_expiry, null_gtb. rewrite Ho. repeat case_if; eexists; (split; [done|]).
    - split; [done|apply str_leb_refl].
    - split; [apply str_leb_refl|done].
    - split; by apply str_ltb_nle. }
  by eapply step_renew.
Qed.

Lemma project_jobs receipt db :
  db_jobs (snd (projectScannerWorkerResult matchObservation receipt db)) = db_jobs db /\
  db_dead_letters (snd (projectScannerWorkerResult matchObservation receipt db)) = db_dead_letters db.
Proof.
  unfold projectScannerWorkerResult. destruct (ScannerWorkerJob _ db); [|done].
  destruct (query_row _ (db_scans db)); [|done]. destruct (scannerWorkerEvidence _ _), (projectedScanOutcome _).
  by destruct (matchScannerWorkerObservations _ _).
Qed.

(** One operation: the jobs it finds evolve, and only creation adds one. *)
Definition op_outcome (op : store_op) (db db' : Db) : Prop :=
  exists rows new, db_jobs db' = rows ++ new /\
    evolves (op_now op) (op_actor op) (db_jobs db) rows /\
    (new = [] \/ exists envelope createdAt, op = OpCreate envelope createdAt /\ new = [new_job_row envelope createdAt]) /\
    jobs_wf db'.

Lemma op_outcome_same op db db' :
  jobs_wf db -> db_jobs db' = db_jobs db -> db_dead_letters db' = db_dead_letters db -> op_outcome op db db'.
Proof.
  intros Hw E1 E2. exists (db_jobs db), []. rewrite app_nil_r. split_and!; [done|apply evolves_refl|by left|].
  by eapply jobs_wf_ext.
Qed.

Lemma op_outcome_evolves op db db' :
  jobs_wf db -> evolves (op_now op) (op_actor op) (db_jobs db) (db_jobs db') -> jobs_wf db' -> op_outcome op db db'.
Proof. intros Hw He Hw'. exists (db_jobs db'), []. rewrite app_nil_r. auto. Qed.

Lemma op_outcome_jobs op db db' jobs :
  jobs_wf db -> evolves (op_now op) (op_actor op) (db_jobs db) jobs ->
  db_jobs db' = jobs -> db_dead_letters db' = db_dead_letters db -> op_outcome op db db'.
Proof.
  intros Hw He E1 E2. apply op_outcome_evolves; [done|by rewrite E1|].
  eapply jobs_wf_ext; [| |exact (evolves_dead _ _ _ _ Hw He)]; done.
Qed.

Lemma create_outcome envelope createdAt db :
  jobs_wf db -> op_ok (OpCreate envelope createdAt) ->
  op_outcome (OpCreate envelope createdAt) db (run_op (OpCreate envelope createdAt) db).
Proof.
  intros Hw Hok. unfold run_op, CreateScannerWorkerJob.
  destruct (query_row _ (db_jobs db)) eqn:Eq; [by apply op_outcome_same|].
  repeat (case_if; [by apply op_outcome_same|]).
  exists (db_jobs db), [new_job_row envelope createdAt]. simpl. split_and!; [done|apply evolves_refl|right; eauto|].
  rewrite query_row_None in Eq. eapply jobs_wf_ext; [| |apply (jobs_wf_append db (new_job_row envelope createdAt) Hw)].
  - done.
  - done.
  - by apply new_job_row_wf.
  - intros r' Hr' Eid. specialize (Eq r' Hr'). unfold has_id in Eq. reflect_bools. done.
Qed.

Lemma lease_outcome worker token now expiry db :
  jobs_wf db ->
  op_outcome (OpLease worker token now expiry) db (run_op (OpLease worker token now expiry) db).
Proof.
  intros Hw. destruct (lease_maintenance_evolves worker now Server db Hw) as [He Hm].
  unfold run_op, LeaseScannerWorkerJob. destruct (query_first _ _ _) as [r|] eqn:Eq; simpl.
  - case_if; [by apply op_outcome_same|]. simpl.
    pose proof (lease_update_evolves _ _ token _ (formatTime expiry) _ Server Hm Eq) as He'.
    apply op_outcome_evolves; [done| |by apply (evolves_dead _ _ Server _ Hm He')].
    by eapply evolves_trans.
  - by apply op_outcome_evolves.
Qed.

Lemma renew_outcome worker job token now expiry db :
  jobs_wf db ->
  op_outcome (OpRenew worker job token now expiry) db (run_op (OpRenew worker job token now expiry) db).
Proof.
  intros Hw. unfold run_op, RenewScannerWorkerJobLease. case_if; [by apply op_outcome_same|].
  destruct (query_row _ _ ≫= _); [|by apply op_outcome_same]. simpl.
  eapply op_outcome_jobs; [done| |done|done]. apply update_evolves. intros r Hr Hp.
  eapply renew_step; [by eapply jobs_wf_row|done].
Qed.

Lemma resume_outcome job now db :
  jobs_wf db -> op_outcome (OpResume job now) db (run_op (OpResume job now) db).
Proof.
  intros Hw. unfold run_op, ScannerWorkerJobResumeCandidate.
  destruct (query_row _ _) as [r|]; [|by apply op_outcome_same].
  case_if; [|by case_if; apply op_outcome_same]. simpl.
  destruct (quarantine_evolves (row_worker_id r) now Server db Hw) as (He & Hq & _). by apply op_outcome_evolves.
Qed.

Lemma reassign_outcome previous envelope now db :
  jobs_wf db -> op_outcome (OpReassign previous envelope now) db (run_op (OpReassign previous envelope now) db).
Proof.
  intros Hw. unfold run_op, ReassignScannerWorkerJob.
  destruct (Job_Resume _) as [resume|]; [|by apply op_outcome_same].
  repeat (case_if; [by apply op_outcome_same|]). simpl.
  eapply op_outcome_jobs; [done| |done|done]. apply update_evolves. intros r Hr Hp.
  unfold reassignable, has_id in Hp. reflect_bools. by apply step_reassign.
Qed.

Lemma evidence_outcome envelope receivedAt db :
  jobs_wf db -> op_outcome (OpEvidence envelope receivedAt) db (run_op (OpEvidence envelope receivedAt) db).
Proof.
  intros Hw. unfold run_op, RecordScannerWorkerEvidenceBatch.
  destruct (query_row _ _); [by apply op_outcome_same|].
  destruct (validateEvidenceSequence _ _ _); [|by apply op_outcome_same].
  case_if; [by apply op_outcome_same|]. by destruct (recordWorkerCheckpoints _ _); apply op_outcome_same.
Qed.

Lemma complete_outcome receipt token now db :
  jobs_wf db -> op_outcome (OpComplete receipt token now) db (run_op (OpComplete receipt token now) db).
Proof.
  intros Hw. unfold run_op, CompleteScannerWorkerJob. case_if; [by apply op_outcome_same|].
  destruct (query_row _ _) as [r|].
  - case_if; [|by apply op_outcome_same]. destruct (project_jobs receipt db) as [E1 E2].
    destruct (projectScannerWorkerResult _ _ db) as [[|] db'] in *; by apply op_outcome_same.
  - case_if; [by apply op_outcome_same|]. match goal with |- context [projectScannerWorkerResult _ _ ?d] =>
      destruct (project_jobs receipt d) as [E1 E2] end.
    eapply op_outcome_jobs; [done| |exact E1|by rewrite E2]. simpl. apply update_evolves. intros r Hr Hp.
    unfold completable in Hp. apply andb_true_iff in Hp as [Hp _].
    apply holds_lease_true in Hp as (? & ? & ? & ? & (old & ? & ?) & _). by eapply step_complete.
Qed.

Lemma run_op_outcome op db : jobs_wf db -> op_ok op -> op_outcome op db (run_op op db).
Proof.
  intros Hw Hok. destruct op; auto using lease_outcome, renew_outcome, resume_outcome, reassign_outcome,
    evidence_outcome, complete_outcome, create_outcome.
Qed.
End operations.
