(* ===== verification/WorkerStoreSafety.v ===== *)
(** What the scanner-worker store guarantees about jobs: the invariant of every
    reachable database, the absorbing statuses, the protection of a live lease,
    and the exact effect of leasing, renewing, reassigning and completing. *)
From Stdlib Require Import ZArith Lia String.
From stdpp Require Import base tactics list strings gmap sets relations.
From S2P Require Import Prelude GoStrings GoTime WorkerModel WorkerJob Dispatcher Sql WorkerStore WorkerJobMachine.
Open Scope Z_scope.

Section runs.
Context (matchObservation : ServiceObservation -> result (list string)).
#[local] Abbreviation run_op := (run_op matchObservation).

Definition run_ops (ops : list store_op) (db : Db) : Db := fold_left (fun d op => run_op op d) ops db.

Lemma run_op_wf op db : jobs_wf db -> op_ok op -> jobs_wf (run_op op db).
Proof. intros Hw Hok. by destruct (run_op_outcome matchObservation op db Hw Hok) as (? & ? & _ & _ & _ & ?). Qed.

Lemma run_ops_wf ops db : jobs_wf db -> Forall op_ok ops -> jobs_wf (run_ops ops db).
Proof.
  revert db. induction ops as [|op ops IH]; intros db Hw Hok; simpl; [done|].
  apply Forall_cons in Hok as [Ho Hok]. apply IH; [by apply run_op_wf|done].
Qed.

(** Where a stored job is after one operation. *)
Lemma run_op_row op db r :
  jobs_wf db -> op_ok op -> r ∈ db_jobs db ->
  exists r', r' ∈ db_jobs (run_op op db) /\ rtc (job_step (op_now op) (op_actor op)) r r'.
Proof.
  intros Hw Hok Hr. destruct (run_op_outcome matchObservation op db Hw Hok) as (rows & new & E & He & _ & _).
  apply list_elem_of_lookup_1 in Hr as [i Hi]. destruct (Forall2_lookup_l _ _ _ _ _ He Hi) as (r' & Hl & Hs).
  exists r'. rewrite E. split; [|done]. apply elem_of_app. left. by eapply list_elem_of_lookup_2.
Qed.

Lemma terminal_rtc now who r r' : terminal r -> rtc (job_step now who) r r' -> r' = r.
Proof. intros Ht H. destruct H as [|x y z Hs _]; [done|]. by apply job_step_terminal in Hs. Qed.

Lemma run_ops_terminal ops db r :
  jobs_wf db -> Forall op_ok ops -> r ∈ db_jobs db -> terminal r -> r ∈ db_jobs (run_ops ops db).
Proof.
  revert db. induction ops as [|op ops IH]; intros db Hw Hok Hr Ht; simpl; [done|].
  apply Forall_cons in Hok as [Ho Hok]. apply IH; [by apply run_op_wf|done| |done].
  destruct (run_op_row op db r Hw Ho Hr) as (r' & Hr' & Hs). by rewrite <- (terminal_rtc _ _ _ _ Ht Hs).
Qed.

(** A leased job whose lease is running at [now]. *)
Definition live (now worker token : string) (r : JobRow) : Prop :=
  row_worker_id r = worker /\ row_status r = WorkerJobLeased /\ row_lease_token_hash r = Some token /\
  exists expiry, row_lease_expires_at r = Some expiry /\ str_ltb now expiry = true.

Lemma live_not_lapsed now worker token r : live now worker token r -> lapsed now r = false.
Proof.
  intros (_ & _ & _ & e & He & Hlt). unfold lapsed, null_leb. rewrite He.
  unfold str_leb. rewrite Hlt. simpl. by rewrite andb_false_r.
Qed.

Lemma live_step now who worker token r r' :
  row_wf r -> live now worker token r -> who <> Holder worker token -> job_step now who r r' -> False.
Proof.
  intros [_ Hl _ _ _] Hlive Hwho Hs. pose proof (live_not_lapsed _ _ _ _ Hlive) as Hn.
  destruct Hlive as (Hw & Hs' & Ht & e & He & Hlt). rewrite Ht, He in Hl. destruct Hl as [_ Hcap].
  destruct Hs; try congruence.
  - status_solve.
  - pose proof (str_ltb_leb_trans _ _ _ Hlt Hcap) as C. unfold str_leb in H0. by rewrite C in H0.
Qed.

Lemma live_rtc now who worker token r r' :
  row_wf r -> live now worker token r -> who <> Holder worker token -> rtc (job_step now who) r r' -> r' = r.
Proof. intros Hw Hl Hn H. destruct H as [|x y z Hs _]; [done|]. exfalso. by eapply live_step. Qed.
End runs.

(** * Leasing *)

#[export] Instance job_less_strict : StrictWeak job_less.
Proof.
  split.
  - intros x y. unfold job_less. intros [H|H]%orb_true_iff; apply orb_false_iff; split.
    + by apply str_ltb_asym.
    + apply andb_false_iff. left. apply bool_decide_eq_false. intros E. rewrite E, str_ltb_irrefl in H. done.
    + apply andb_true_iff in H as [E%bool_decide_eq_true _]. by rewrite E, str_ltb_irrefl.
    + apply andb_true_iff in H as [_ H]. apply andb_false_iff. right. by apply str_ltb_asym.
  - intros x y z. unfold job_less. rewrite !orb_false_iff, !str_ltb_nle, !andb_false_iff, !bool_decide_eq_false, !str_ltb_nle.
    intros [H1 H2] [H3 H4]. split; [eauto with go|].
    destruct (decide (row_created_at z = row_created_at x)) as [E|E]; [|by left]. right.
    assert (row_created_at x = row_created_at y) as E'.
    { apply str_leb_antisym; [|by rewrite <- E]. done. }
    destruct H2 as [H2|H2]; [congruence|]. destruct H4 as [H4|H4]; [congruence|]. eauto with go.
Qed.

(** The row a lease leaves. *)
Definition leased_row (token : string) (expiry : Time) (r : JobRow) : JobRow :=
  set_lease WorkerJobLeased (Some token) (Some (capped_expiry r (formatTime expiry))) (row_lease_attempt r + 1) r.

(** An [UPDATE] whose [WHERE] holds of one row of the table. *)
Lemma update_where_one db p f r :
  jobs_wf db -> r ∈ db_jobs db -> p r = true -> (forall r', p r' = true -> row_id r' = row_id r) ->
  f r ∈ update_where p f (db_jobs db) /\ affected p (db_jobs db) = 1 /\
  forall r', r' ∈ update_where p f (db_jobs db) -> r' = f r \/ (r' ∈ db_jobs db /\ row_id r' <> row_id r).
Proof.
  intros Hw Hr Hp Hk. split_and!.
  - apply elem_of_update_where. exists r. by rewrite Hp.
  - destruct (decide (affected p (db_jobs db) = 1)) as [|Hn]; [done|].
    rewrite (affected_unique row_id (row_id r) p _ (jobs_ids _ Hw) Hk Hn r Hr) in Hp. done.
  - intros r' (r0 & Hr0 & ->)%elem_of_update_where. destruct (p r0) eqn:E.
    + left. f_equal. eapply row_unique; [exact Hw|done|done|by apply Hk].
    + right. split; [done|]. intros Eid. rewrite (row_unique _ _ _ Hw Hr0 Hr Eid) in E. congruence.
Qed.

Lemma lease_cases db worker token now expiry :
  jobs_wf db ->
  let m := lease_maintenance worker now db in
  match LeaseScannerWorkerJob worker token now expiry db with
  | (Ok envelope, db') => exists r, r ∈ db_jobs m /\ leasable m worker (formatTime now) r = true /\
      (forall r', r' ∈ db_jobs m -> leasable m worker (formatTime now) r' = true -> job_less r' r = false) /\
      envelope = row_signed_envelope r /\ leased_row token expiry r ∈ db_jobs db' /\
      forall r', r' ∈ db_jobs db' -> r' = leased_row token expiry r \/ (r' ∈ db_jobs m /\ row_id r' <> row_id r)
  | (Err e, db') => e = ErrNotFound /\ db' = m /\ forall r, r ∈ db_jobs m -> leasable m worker (formatTime now) r = false
  end.
Proof.
  intros Hw m. destruct (lease_maintenance_evolves worker now Server db Hw) as [_ Hm]. fold m in Hm.
  unfold LeaseScannerWorkerJob. fold m. destruct (query_first _ _ _) as [r|] eqn:Eq.
  - apply query_first_Some in Eq as (Hr & Hl & Hmin); [|apply _].
    set (p := fun r' => has_id (row_id r) r' && bool_decide (row_worker_id r' = worker) && has_status WorkerJobPending r').
    assert (Hp : p r = true).
    { unfold leasable in Hl. unfold p, has_id. reflect_bools. rewrite bool_decide_eq_true_2 by done.
      rewrite bool_decide_eq_true_2 by done. done. }
    assert (Hk : forall r', p r' = true -> row_id r' = row_id r).
    { intros r' H. unfold p, has_id in H. by reflect_bools. }
    destruct (update_where_one m p (fun r' => set_lease WorkerJobLeased (Some token)
      (Some (capped_expiry r' (formatTime expiry))) (row_lease_attempt r' + 1) r') r Hm Hr Hp Hk) as (Hin & Ha & Hall).
    rewrite Ha. simpl. exists r. split_and!; done.
  - rewrite query_first_None in Eq. done.
Qed.

(** * Completion *)

Section completion.
Context (matchObservation : ServiceObservation -> result (list string)).
#[local] Abbreviation Complete := (CompleteScannerWorkerJob matchObservation).
#[local] Abbreviation project := (projectScannerWorkerResult matchObservation).

(** The row a completion leaves. *)
Definition completed_row (receipt : WorkerJobResultReceipt) (r : JobRow) : JobRow :=
  set_result (Receipt_ResultID receipt) (Receipt_Outcome receipt) (formatTime (Receipt_CompletedAt receipt)) r.

(** What a result reported as succeeded must rest on. *)
Definition fully_evidenced (jobID : string) (db : Db) : Prop :=
  exists r, r ∈ db_jobs db /\ row_id r = jobID /\
    let job := SignedJob_Job (row_signed_envelope r) in
    (0 < length (Job_Targets job) * length (Job_Ports job))%nat /\
    length (job_checkpoints jobID db) = (length (Job_Targets job) * length (Job_Ports job))%nat.

Lemma workerJobCheckpointsComplete_true jobID db :
  workerJobCheckpointsComplete jobID db = true -> fully_evidenced jobID db.
Proof.
  unfold workerJobCheckpointsComplete. destruct (query_row _ _) as [r|] eqn:Eq; [|done].
  apply query_row_Some in Eq as [Hr Hid]. unfold has_id in Hid. cbv zeta. case_if; [done|].
  intros E1. exists r. reflect_bools. cbv zeta in *. split_and!; [done|done|lia|done].
Qed.

Definition final_evidence (jobID : string) (db : Db) : Prop :=
  exists e, e ∈ db_evidence db /\ evidence_job_id e = jobID /\ evidence_final e = true.

Lemma completable_true receipt token now db r :
  completable receipt token now db r = true <->
  holds_lease (Receipt_WorkerID receipt) (Receipt_JobID receipt) token now r = true /\
  (Receipt_Outcome receipt = WorkerJobResultSucceeded -> final_evidence (Receipt_JobID receipt) db).
Proof.
  unfold completable, final_evidence. rewrite andb_true_iff, orb_true_iff, negb_true_iff, bool_decide_eq_false, existsb_exists.
  setoid_rewrite <- list_elem_of_In. unfold of_job. setoid_rewrite andb_true_iff. setoid_rewrite bool_decide_eq_true.
  destruct (decide (Receipt_Outcome receipt = WorkerJobResultSucceeded)); naive_solver.
Qed.

(** The database after the status change and before the projection. *)
Definition completed_db (receipt : WorkerJobResultReceipt) (token : string) (now : Time) (db : Db) : Db :=
  set_jobs (update_where (completable receipt token (formatTime now) db) (completed_row receipt) (db_jobs db)) db.

Lemma complete_cases db receipt token now :
  jobs_wf db -> query_row (has_result (Receipt_ResultID receipt)) (db_jobs db) = None ->
  (exists r, r ∈ db_jobs db /\ completable receipt token (formatTime now) db r = true /\
     (Receipt_Outcome receipt = WorkerJobResultSucceeded -> workerJobCheckpointsComplete (Receipt_JobID receipt) db = true) /\
     Complete receipt token now db = project receipt (completed_db receipt token now db) /\
     completed_row receipt r ∈ db_jobs (completed_db receipt token now db)) \/
  Complete receipt token now db = (Err ErrInvalidWorkerJobLease, db).
Proof.
  intros Hw Hq. unfold CompleteScannerWorkerJob. rewrite Hq. case_if; [by right|].
  destruct (affected (completable receipt token (formatTime now) db) (db_jobs db) =? 1) eqn:Ea; [|by right]. left.
  apply Z.eqb_eq, affected_1 in Ea as (r & Hr & Hc). exists r. split_and!; [done|done| |done|].
  - intros Ho. rewrite Ho in E. rewrite bool_decide_eq_true_2 in E by done. simpl in E. by apply negb_false_iff in E.
  - apply elem_of_update_where. exists r. by rewrite Hc.
Qed.

Lemma complete_enabled db receipt token now r :
  jobs_wf db -> query_row (has_result (Receipt_ResultID receipt)) (db_jobs db) = None ->
  r ∈ db_jobs db -> completable receipt token (formatTime now) db r = true ->
  (Receipt_Outcome receipt = WorkerJobResultSucceeded -> workerJobCheckpointsComplete (Receipt_JobID receipt) db = true) ->
  Complete receipt token now db = project receipt (completed_db receipt token now db).
Proof.
  intros Hw Hq Hr Hc Hs. unfold CompleteScannerWorkerJob. rewrite Hq. case_if.
  { apply andb_true_iff in E as [Ho%bool_decide_eq_true Hn]. rewrite Hs in Hn; done. }
  destruct (update_where_one db (completable receipt token (formatTime now) db) (completed_row receipt) r Hw Hr Hc) as (_ & Ha & _).
  { intros r' [Hh _]%completable_true. apply completable_true in Hc as [Hh' _].
    apply holds_lease_true in Hh, Hh'. destruct Hh as [-> _], Hh' as [-> _]. done. }
  by rewrite Ha.
Qed.

(** Projecting twice is projecting once. *)
Lemma project_idempotent receipt db db' :
  project receipt db = (Ok tt, db') -> project receipt db' = (Ok tt, db').
Proof.
  unfold projectScannerWorkerResult. destruct (ScannerWorkerJob (Receipt_JobID receipt) db) as [envelope|] eqn:Ej; [|done].
  destruct (query_row _ (db_scans db)) as [scan|] eqn:Es; [|done].
  destruct (scannerWorkerEvidence (Receipt_JobID receipt) db) as [obs fnd] eqn:Ee.
  destruct (projectedScanOutcome (Receipt_Outcome receipt)) as [status message].
  destruct (matchScannerWorkerObservations matchObservation obs) as [matches|] eqn:Em; [|done].
  intros [= <-]. pose proof (query_row_Some _ _ _ Es) as [Hin Hid]. reflect_bools. rewrite Hid.
  match goal with |- context [set_scans (update_where ?p (fun _ => ?s) _) db] => set (scan' := s); set (sel := p) in * end.
  set (table := update_where sel (fun _ => scan') (db_scans db)).
  change (ScannerWorkerJob (Receipt_JobID receipt) (set_scans table db)) with (ScannerWorkerJob (Receipt_JobID receipt) db).
  assert (Hsel : sel scan' = true) by (unfold sel; simpl; by apply bool_decide_eq_true).
  rewrite Ej. change (db_scans (set_scans table db)) with table. fold sel.
  pose proof (query_row_replace sel scan' _ scan Es Hsel) as Hq. fold table in Hq. rewrite Hq.
  change (scannerWorkerEvidence (Receipt_JobID receipt) (set_scans table db)) with
    (scannerWorkerEvidence (Receipt_JobID receipt) db). rewrite Ee, Em. f_equal.
  assert (Est : forall c i, workerScanStartedAt (workerScanStartedAt c i) i = workerScanStartedAt c i) by (by intros [] ?).
  unfold set_scans at 1. simpl. rewrite Est.
  change (set_scans (update_where sel (fun _ => scan') table) db = set_scans table db).
  unfold table. by rewrite update_where_replace.
Qed.
End completion.

(** * Retrying a completion *)

Section retry.
Context (matchObservation : ServiceObservation -> result (list string)).
#[local] Abbreviation Complete := (CompleteScannerWorkerJob matchObservation).

(** The stored row a result identifier finds after the completion. *)
Lemma completed_db_result db receipt token now r :
  jobs_wf db -> query_row (has_result (Receipt_ResultID receipt)) (db_jobs db) = None ->
  r ∈ db_jobs db -> completable receipt token (formatTime now) db r = true ->
  query_row (has_result (Receipt_ResultID receipt)) (db_jobs (completed_db receipt token now db)) = Some (completed_row receipt r).
Proof.
  intros Hw Hq Hr Hc. rewrite query_row_None in Hq.
  destruct (query_row _ (db_jobs (completed_db _ _ _ _))) as [r'|] eqn:E.
  - apply query_row_Some in E as [(r0 & Hr0 & ->)%elem_of_update_where Hres].
    destruct (completable receipt token (formatTime now) db r0) eqn:Ec; [|rewrite Hq in Hres; done].
    do 2 f_equal. apply (row_unique db); [done..|]. apply completable_true in Ec as [Hh _], Hc as [Hh' _].
    apply holds_lease_true in Hh, Hh'. destruct Hh as [-> _], Hh' as [-> _]. done.
  - rewrite query_row_None in E. assert (Hin : completed_row receipt r ∈ db_jobs (completed_db receipt token now db))
      by (apply elem_of_update_where; exists r; by rewrite Hc).
    specialize (E _ Hin). unfold has_result in E. simpl in E. rewrite bool_decide_eq_true_2 in E; done.
Qed.

(** The completeness of a job's checkpoints does not depend on its lease or result columns. *)
Lemma completed_db_checkpoints db receipt token now jobID :
  workerJobCheckpointsComplete jobID (completed_db receipt token now db) = workerJobCheckpointsComplete jobID db.
Proof.
  unfold workerJobCheckpointsComplete, completed_db. simpl. unfold query_row, update_where.
  induction (db_jobs db) as [|r l IH]; [done|]. simpl.
  replace (has_id jobID (if completable receipt token (formatTime now) db r then completed_row receipt r else r))
    with (has_id jobID r) by (by destruct (completable _ _ _ _ r)).
  destruct (has_id jobID r); [|exact IH]. by destruct (completable _ _ _ _ r).
Qed.

Lemma project_tables receipt db :
  db_jobs (snd (projectScannerWorkerResult matchObservation receipt db)) = db_jobs db /\
  db_checkpoints (snd (projectScannerWorkerResult matchObservation receipt db)) = db_checkpoints db.
Proof.
  unfold projectScannerWorkerResult. destruct (ScannerWorkerJob _ db); [|done].
  destruct (query_row _ (db_scans db)); [|done]. destruct (scannerWorkerEvidence _ _), (projectedScanOutcome _).
  by destruct (matchScannerWorkerObservations _ _).
Qed.

Lemma complete_retry_cases db db' receipt token now token' now' :
  jobs_wf db -> query_row (has_result (Receipt_ResultID receipt)) (db_jobs db) = None ->
  Complete receipt token now db = (Ok tt, db') ->
  Complete receipt token' now' db' = (Err ErrWorkerResultAlreadyAccepted, db').
Proof.
  intros Hw Hq H. destruct (complete_cases matchObservation db receipt token now Hw Hq) as [(r & Hr & Hc & Hs & Hp & _)|C]; [|congruence].
  rewrite Hp in H. pose proof (project_tables receipt (completed_db receipt token now db)) as [Ej Ec]. rewrite H in Ej, Ec. cbn [snd] in Ej, Ec.
  apply project_idempotent in H. unfold CompleteScannerWorkerJob.
  assert (Hchk : workerJobCheckpointsComplete (Receipt_JobID receipt) db' = workerJobCheckpointsComplete (Receipt_JobID receipt) db).
  { rewrite <- (completed_db_checkpoints db receipt token now). unfold workerJobCheckpointsComplete, job_checkpoints. by rewrite Ej, Ec. }
  case_if.
  { apply andb_true_iff in E as [Ho%bool_decide_eq_true Hn]. rewrite Hchk, Hs in Hn; done. }
  rewrite Ej, (completed_db_result db receipt token now r) by done.
  apply completable_true in Hc as [Hh _]. apply holds_lease_true in Hh as (Hid & Hwk & _).
  simpl. rewrite !bool_decide_eq_true_2 by done. simpl. by rewrite H.
Qed.
End retry.

(** * Properties *)

Section properties.
Context (matchObservation : ServiceObservation -> result (list string)).

(** Along every run of the store's transactions the job table stays well
    formed: job ids are unique, the lease columns are set exactly on leased
    jobs, a lease never outlives its job, the result columns are set exactly on
    completed jobs, the stored envelope names the row's job and worker, and
    every dead letter names a canceled job that failed at least three times. *)
Theorem reachable_jobs_wf ops db (Hw : jobs_wf db) (Hok : Forall op_ok ops) :
  jobs_wf (run_ops matchObservation ops db).
Proof using. by apply run_ops_wf. Qed.

(** A job that is completed, canceled or expired is never changed again by
    any later run of the store's transactions, and remains the only row with its
    id. *)
Theorem finished_jobs_absorbing ops db r
    (Hw : jobs_wf db) (Hok : Forall op_ok ops) (Hr : r ∈ db_jobs db) (Ht : terminal r) :
  r ∈ db_jobs (run_ops matchObservation ops db) /\
  forall r', r' ∈ db_jobs (run_ops matchObservation ops db) -> row_id r' = row_id r -> r' = r.
Proof using.
  pose proof (run_ops_terminal matchObservation ops db r Hw Hok Hr Ht) as Hin. split; [done|].
  intros r' Hr' E. by eapply (row_unique (run_ops matchObservation ops db)); [apply run_ops_wf|..].
Qed.

(** C13: while a lease runs, no transaction except a renewal or completion
    presenting that worker and that lease token changes the leased job: it
    cannot be leased, released, reassigned, quarantined, expired or completed by
    anyone else. *)
Theorem live_lease_exclusive op db r worker token
    (Hw : jobs_wf db) (Hok : op_ok op) (Hr : r ∈ db_jobs db)
    (Hlive : live (op_now op) worker token r) (Hwho : op_actor op <> Holder worker token) :
  r ∈ db_jobs (run_op matchObservation op db).
Proof using.
  destruct (run_op_row matchObservation op db r Hw Hok Hr) as (r' & Hr' & Hs).
  by rewrite <- (live_rtc _ _ _ _ _ _ (jobs_wf_row db r Hw Hr) Hlive Hwho Hs).
Qed.

(** After the maintenance statements, leasing returns the envelope of the
    oldest job (by creation time, then id) that is pending, unexpired and
    assigned to the enabled worker, marks exactly that row leased with the token
    and an expiry capped at the job's, and reports not-found exactly when there
    is none; the lease-conflict error is unreachable. *)
Theorem lease_oldest_job db worker token now expiry (Hw : jobs_wf db) :
  let m := lease_maintenance worker now db in
  match LeaseScannerWorkerJob worker token now expiry db with
  | (Ok envelope, db') => exists r, r ∈ db_jobs m /\ leasable m worker (formatTime now) r = true /\
      (forall r', r' ∈ db_jobs m -> leasable m worker (formatTime now) r' = true -> job_less r' r = false) /\
      envelope = row_signed_envelope r /\ leased_row token expiry r ∈ db_jobs db' /\
      (forall r', r' ∈ db_jobs db' -> r' = leased_row token expiry r \/ (r' ∈ db_jobs m /\ row_id r' <> row_id r))
  | (Err e, db') => e = ErrNotFound /\ db' = m /\ forall r, r ∈ db_jobs m -> leasable m worker (formatTime now) r = false
  end.
Proof using.
  exact (lease_cases db worker token now expiry Hw).
Qed.

(** A newly accepted result is that of a job leased, with a running lease,
    to the reporting worker under the presented token; the job ends completed
    with that result; and a result reported as succeeded is accepted only when
    the number of recorded checkpoints equals targets times ports and a final
    evidence batch is on record. *)
Theorem complete_sound db db' receipt token now (Hw : jobs_wf db)
    (Hq : query_row (has_result (Receipt_ResultID receipt)) (db_jobs db) = None)
    (H : CompleteScannerWorkerJob matchObservation receipt token now db = (Ok tt, db')) :
  exists r, r ∈ db_jobs db /\ row_id r = Receipt_JobID receipt /\
    live (formatTime now) (Receipt_WorkerID receipt) token r /\ completed_row receipt r ∈ db_jobs db' /\
    (Receipt_Outcome receipt = WorkerJobResultSucceeded ->
     fully_evidenced (Receipt_JobID receipt) db /\ final_evidence (Receipt_JobID receipt) db).
Proof using.
  destruct (complete_cases matchObservation db receipt token now Hw Hq) as [(r & Hr & Hc & Hs & Hp & Hin)|C]; [|congruence].
  rewrite Hp in H. pose proof (project_tables matchObservation receipt (completed_db receipt token now db)) as [Ej _].
  rewrite H in Ej. cbn [snd] in Ej. apply completable_true in Hc as [Hh Hfin].
  apply holds_lease_true in Hh as (Hid & Hwk & Hst & Ht & (old & Ho & Hlt) & _). exists r. split_and!; [done|done| |by rewrite Ej|].
  - split_and!; [done|done|done|eauto].
  - intros Hout. split; [|by apply Hfin]. by apply workerJobCheckpointsComplete_true, Hs.
Qed.

(** Submitting an accepted result again, with any token and at any time,
    reports that it was already accepted and leaves the whole database as it is,
    although it projects the result onto the scan a second time. *)
Theorem complete_idempotent db db' receipt token now token' now' (Hw : jobs_wf db)
    (Hq : query_row (has_result (Receipt_ResultID receipt)) (db_jobs db) = None)
    (H : CompleteScannerWorkerJob matchObservation receipt token now db = (Ok tt, db')) :
  CompleteScannerWorkerJob matchObservation receipt token' now' db' = (Err ErrWorkerResultAlreadyAccepted, db').
Proof using. by eapply complete_retry_cases. Qed.
End properties.
