(* ===== verification/WorkerEvidenceStore.v ===== *)
(** The evidence and checkpoint tables: batches of a job are numbered without
    gaps, and no probe is checkpointed twice. *)
From Stdlib Require Import ZArith Lia String.
From stdpp Require Import base tactics list list_numbers strings gmap sets.
From S2P Require Import Prelude GoStrings GoTime WorkerModel WorkerJob Dispatcher Sql WorkerStore WorkerJobMachine.
Open Scope Z_scope.

#[export] Instance later_sequence_strict : StrictWeak later_sequence.
Proof. unfold later_sequence. split; intros; reflect_bools; try apply Z.ltb_ge; lia. Qed.
#[export] Instance earlier_sequence_strict : StrictWeak earlier_sequence.
Proof. unfold earlier_sequence. split; intros; reflect_bools; try apply Z.ltb_ge; lia. Qed.

Definition sequences (jobID : string) (db : Db) : list Z :=
  evidence_sequence <$> select_where (of_job jobID) (db_evidence db).
Definition probe (c : CheckpointRow) : string * string * Z :=
  (checkpoint_job_id c, checkpoint_address c, checkpoint_port c).

Record evidence_wf (db : Db) : Prop := {
  evidence_ids : NoDup (evidence_batch_id <$> db_evidence db);
  evidence_numbered : forall jobID, sequences jobID db = seqZ 1 (Z.of_nat (length (sequences jobID db)));
  evidence_envelope : Forall (fun e => evidence_sequence e = Batch_Sequence (SignedBatch_Batch (evidence_signed_envelope e)) /\
    evidence_job_id e = Batch_JobID (SignedBatch_Batch (evidence_signed_envelope e))) (db_evidence db);
  checkpoints_distinct : NoDup (probe <$> db_checkpoints db);
  checkpoints_ports : Forall (fun c => 1 <= checkpoint_port c <= 65535) (db_checkpoints db) }.

(** The sequence the store expects next. *)
Definition next_sequence (jobID : string) (db : Db) : Z := Z.of_nat (length (sequences jobID db)) + 1.

(** The number of the last batch, which [ORDER BY sequence DESC LIMIT 1] finds. *)
Lemma last_evidence_sequence jobID db :
  evidence_wf db ->
  match last_evidence jobID db with
  | Some e => e ∈ db_evidence db /\ evidence_job_id e = jobID /\ evidence_sequence e = next_sequence jobID db - 1
  | None => next_sequence jobID db = 1
  end.
Proof.
  intros [_ Hn _ _ _]. specialize (Hn jobID). unfold last_evidence, next_sequence.
  destruct (query_first _ _ _) as [e|] eqn:Eq.
  - apply query_first_Some in Eq as (Hin & Hj & Hmax); [|apply _]. unfold of_job in Hj. reflect_bools.
    split_and!; [done|done|].
    assert (He : evidence_sequence e ∈ sequences jobID db).
    { apply list_elem_of_fmap_2, elem_of_select_where. unfold of_job. by rewrite bool_decide_eq_true_2. }
    set (n := length (sequences jobID db)) in *. rewrite Hn in He. apply elem_of_seqZ in He.
    assert (Hl : Z.of_nat n ∈ sequences jobID db) by (rewrite Hn; apply elem_of_seqZ; lia).
    apply list_elem_of_fmap in Hl as (e' & El & [Hin' Hj']%elem_of_select_where).
    specialize (Hmax e' Hin' Hj'). unfold later_sequence in Hmax. reflect_bools. lia.
  - rewrite query_first_None in Eq. unfold sequences. replace (select_where _ _) with (@nil EvidenceRow); [done|].
    symmetry. destruct (select_where _ _) as [|e l] eqn:Es; [done|].
    assert (He : e ∈ select_where (of_job jobID) (db_evidence db)) by (rewrite Es; by left).
    apply elem_of_select_where in He as [He Hj]. rewrite Eq in Hj; done.
Qed.

(** ** Checkpoints *)

Lemma recordWorkerCheckpoints_wf batch rows rows' :
  recordWorkerCheckpoints batch rows = Ok rows' ->
  NoDup (probe <$> rows) -> Forall (fun c => 1 <= checkpoint_port c <= 65535) rows ->
  NoDup (probe <$> rows') /\ Forall (fun c => 1 <= checkpoint_port c <= 65535) rows' /\ rows ⊆ rows' /\
  Forall (fun c => exists row, row ∈ rows' /\ probe row = (Batch_JobID batch, Checkpoint_Address c, Checkpoint_Port c))
    (Batch_Checkpoints batch).
Proof.
  unfold recordWorkerCheckpoints. revert rows. induction (Batch_Checkpoints batch) as [|c cs IH]; intros rows; simpl.
  { intros [= ->] ? ?. split_and!; done. }
  destruct (recordWorkerCheckpoint batch rows c) as [rows1|] eqn:Erow; simpl; [|done].
  intros Hrec Hnd Hports. unfold recordWorkerCheckpoint in Erow. destruct (negb _) eqn:Eport; [done|].
  assert (Hp : 1 <= Checkpoint_Port c <= 65535) by (apply negb_false_iff in Eport; reflect_bools; lia).
  destruct (existsb _ rows) eqn:Ex; injection Erow as E1.
  - subst rows1. destruct (IH rows Hrec Hnd Hports) as (? & ? & Hsub & ?). split_and!; [done..|]. constructor; [|done].
    apply existsb_exists in Ex as (row & Hin%list_elem_of_In & Hs). unfold same_checkpoint in Hs. reflect_bools.
    exists row. split; [by apply Hsub|]. unfold probe. congruence.
  - symmetry in E1. destruct (IH rows1 Hrec) as (? & ? & Hsub & ?).
    + rewrite E1, fmap_app. apply NoDup_app. split_and!; [done| |apply NoDup_singleton].
      intros k Hk ->%list_elem_of_singleton. apply list_elem_of_fmap in Hk as (row & Ek & Hin).
      apply not_true_iff_false in Ex. apply Ex, existsb_exists. exists row. split; [by apply list_elem_of_In|].
      unfold probe in Ek. simpl in Ek. simplify_eq. unfold same_checkpoint.
      rewrite !bool_decide_eq_true_2 by congruence. apply Z.eqb_eq. congruence.
    + rewrite E1. apply Forall_app. split; [done|]. constructor; [done|constructor].
    + rewrite E1 in Hsub. split_and!; [done|done|set_solver|]. constructor; [|done].
      eexists. split; [apply Hsub, elem_of_app; right; by left|done].
Qed.

(** ** One batch *)

Lemma select_where_app {Row} (p : Row -> bool) l1 l2 : select_where p (l1 ++ l2) = select_where p l1 ++ select_where p l2.
Proof. unfold select_where. apply List.filter_app. Qed.

(** What [validateEvidenceSequence] accepts. *)
Lemma validateEvidenceSequence_ok batch receivedAt db :
  validateEvidenceSequence batch receivedAt db = Ok tt ->
  exists r, query_row (has_id (Batch_JobID batch)) (db_jobs db) = Some r /\
    row_worker_id r = Batch_WorkerID batch /\ row_scan_id r = Batch_ScanID batch /\ row_status r = WorkerJobLeased /\
    str_ltb (formatTime receivedAt) (row_expires_at r) = true /\
    str_ltb (formatTime receivedAt) (default ""%string (row_lease_expires_at r)) = true /\
    Batch_Sequence batch =
      wrapu64 (match last_evidence (Batch_JobID batch) db with Some e => evidence_sequence e | None => 0 end + 1).
Proof.
  unfold validateEvidenceSequence. destruct (query_row _ (db_jobs db)) as [r|]; [|done]. cbv zeta.
  destruct (last_evidence (Batch_JobID batch) db) as [e|]; rewrite !reject_ok; intros (H1 & H2 & _); exists r;
    unfold str_leb, has_status in *; reflect_bools; done.
Qed.

(** Within the bounds of the column, the wrapped successor is the successor. *)
Lemma next_of_wrapped batch db :
  evidence_wf db -> evidence_check batch db = true ->
  Batch_Sequence batch = wrapu64 (next_sequence (Batch_JobID batch) db) ->
  Batch_Sequence batch = next_sequence (Batch_JobID batch) db.
Proof.
  intros Hw Hc Hs. unfold evidence_check in Hc. reflect_bools.
  set (n := next_sequence (Batch_JobID batch) db) in *.
  assert (Hn : 1 <= n) by (unfold n, next_sequence; lia).
  destruct (decide (n < 2 ^ 64)); [by rewrite Hs, wrapu64_id by (unfold uint64_range; lia)|].
  exfalso. assert (Hlt : Batch_Sequence batch <= n - 1).
  { unfold int64_max in *. lia. }
  assert (Hin : Batch_Sequence batch ∈ sequences (Batch_JobID batch) db).
  { rewrite (evidence_numbered db Hw). apply elem_of_seqZ. unfold n, next_sequence in *. lia. }
  apply list_elem_of_fmap in Hin as (e & Ee & [He Hj]%elem_of_select_where).
  apply not_true_iff_false in H0. apply H0, existsb_exists. exists e. split; [by apply list_elem_of_In|].
  rewrite Hj, Ee. simpl. apply Z.eqb_refl.
Qed.

(** An accepted batch carries the next number of a leased job of its worker. *)
Lemma record_evidence_cases envelope receivedAt db :
  evidence_wf db ->
  let batch := SignedBatch_Batch envelope in
  match RecordScannerWorkerEvidenceBatch envelope receivedAt db with
  | (Ok _, db') =>
      Batch_Sequence batch = next_sequence (Batch_JobID batch) db /\
      (forall e, e ∈ db_evidence db -> evidence_batch_id e <> Batch_ID batch) /\
      (exists r expiry, query_row (has_id (Batch_JobID batch)) (db_jobs db) = Some r /\
         row_worker_id r = Batch_WorkerID batch /\ row_scan_id r = Batch_ScanID batch /\ row_status r = WorkerJobLeased /\
         default ""%string (row_lease_expires_at r) = expiry /\
         str_ltb (formatTime receivedAt) expiry = true /\ str_ltb (formatTime receivedAt) (row_expires_at r) = true) /\
      exists rows, recordWorkerCheckpoints batch (db_checkpoints db) = Ok rows /\
        db' = set_evidence (db_evidence db ++ [evidence_row envelope receivedAt]) rows db
  | (Err _, db') => db' = db
  end.
Proof.
  intros Hw batch. unfold RecordScannerWorkerEvidenceBatch. fold batch.
  destruct (query_row _ (db_evidence db)) eqn:Eq; [done|].
  destruct (validateEvidenceSequence batch receivedAt db) as [[]|] eqn:Ev; [|done].
  destruct (negb (evidence_check batch db)) eqn:Ec; [done|].
  destruct (recordWorkerCheckpoints batch _) as [rows|] eqn:Er; [|done].
  apply negb_false_iff in Ec.
  pose proof (validateEvidenceSequence_ok _ _ _ Ev) as (r & Hr & Hw' & Hsc & Hst & Hex & Hle & Hs).
  split_and!.
  - apply next_of_wrapped; [done|done|]. rewrite Hs. f_equal.
    pose proof (last_evidence_sequence (Batch_JobID batch) db Hw) as Hlast.
    destruct (last_evidence (Batch_JobID batch) db) as [e|]; [destruct Hlast as (_ & _ & ->)|rewrite Hlast]; lia.
  - intros e He. rewrite query_row_None in Eq. specialize (Eq e He). by reflect_bools.
  - exists r, (default ""%string (row_lease_expires_at r)). done.
  - by exists rows.
Qed.

Lemma evidence_wf_ext db db' :
  db_evidence db' = db_evidence db -> db_checkpoints db' = db_checkpoints db -> evidence_wf db -> evidence_wf db'.
Proof. intros E1 E2 [? ? ? ? ?]. split; unfold sequences in *; rewrite ?E1, ?E2; done. Qed.

Lemma sequences_append jobID envelope receivedAt rows db :
  sequences jobID (set_evidence (db_evidence db ++ [evidence_row envelope receivedAt]) rows db) =
  sequences jobID db ++
    (if bool_decide (Batch_JobID (SignedBatch_Batch envelope) = jobID)
     then [Batch_Sequence (SignedBatch_Batch envelope)] else []).
Proof.
  unfold sequences. simpl. rewrite select_where_app, fmap_app. f_equal.
  unfold select_where, of_job, evidence_row. simpl. by case_if.
Qed.

Lemma record_evidence_wf envelope receivedAt db :
  evidence_wf db -> evidence_wf (snd (RecordScannerWorkerEvidenceBatch envelope receivedAt db)).
Proof.
  intros Hw. pose proof (record_evidence_cases envelope receivedAt db Hw) as C. cbv zeta in C.
  destruct (RecordScannerWorkerEvidenceBatch envelope receivedAt db) as [[[]|e] db']; simpl; [|by rewrite C].
  destruct C as (Hseq & Hnew & _ & rows & Hrec & ->). pose proof Hw as [Hids Hnum Henv Hcd Hcp].
  destruct (recordWorkerCheckpoints_wf _ _ _ Hrec Hcd Hcp) as (? & ? & _ & _). split; [| | |done|done].
  - simpl. rewrite fmap_app. apply NoDup_app. split_and!; [done| |apply NoDup_singleton].
    intros id Hid ->%list_elem_of_singleton. apply list_elem_of_fmap in Hid as (e & Ee & He). by apply (Hnew e He).
  - intros jobID. rewrite sequences_append. case_bool_decide as Ej; [|rewrite app_nil_r; apply Hnum].
    rewrite length_app. simpl. rewrite Nat2Z.inj_add, Ej in *. rewrite Hseq, (Hnum jobID) at 1.
    unfold next_sequence. rewrite seqZ_app by lia. f_equal. simpl. by rewrite Z.add_comm.
  - simpl. apply Forall_app. split; [done|]. constructor; [done|constructor].
Qed.

Section runs.
Context (matchObservation : ServiceObservation -> result (list string)).

Lemma project_evidence receipt db :
  db_evidence (snd (projectScannerWorkerResult matchObservation receipt db)) = db_evidence db /\
  db_checkpoints (snd (projectScannerWorkerResult matchObservation receipt db)) = db_checkpoints db.
Proof.
  unfold projectScannerWorkerResult. destruct (ScannerWorkerJob _ db); [|done].
  destruct (query_row _ (db_scans db)); [|done]. destruct (scannerWorkerEvidence _ _), (projectedScanOutcome _).
  by destruct (matchScannerWorkerObservations _ _).
Qed.

Lemma complete_evidence receipt token now db :
  db_evidence (snd (CompleteScannerWorkerJob matchObservation receipt token now db)) = db_evidence db /\
  db_checkpoints (snd (CompleteScannerWorkerJob matchObservation receipt token now db)) = db_checkpoints db.
Proof.
  unfold CompleteScannerWorkerJob. case_if; [done|]. destruct (query_row _ _).
  - case_if; [|done]. pose proof (project_evidence receipt db) as P.
    by destruct (projectScannerWorkerResult _ _ db) as [[|] ?].
  - case_if; [done|]. match goal with |- context [projectScannerWorkerResult _ _ ?d] => exact (project_evidence receipt d) end.
Qed.

Lemma run_op_evidence_wf op db : evidence_wf db -> evidence_wf (run_op matchObservation op db).
Proof.
  intros Hw. destruct op; simpl; try (by apply record_evidence_wf).
  all: eapply evidence_wf_ext; [| |exact Hw].
  all: unfold CreateScannerWorkerJob, LeaseScannerWorkerJob, RenewScannerWorkerJobLease,
         ScannerWorkerJobResumeCandidate, ReassignScannerWorkerJob; try apply complete_evidence.
  all: repeat (case_match; simpl); try done.
Qed.

Lemma run_ops_evidence_wf ops db :
  evidence_wf db -> evidence_wf (fold_left (fun d op => run_op matchObservation op d) ops db).
Proof. revert db. induction ops as [|op ops IH]; intros db Hw; simpl; [done|]. by apply IH, run_op_evidence_wf. Qed.
End runs.

(** * Properties *)

(** Along any run of the store, the batches of a job are numbered 1, 2, 3, ...
    in the order they were accepted, and batches and probes are never duplicated. *)
Theorem evidence_numbered_invariant matchObservation ops db (Hw : evidence_wf db) :
  evidence_wf (fold_left (fun d op => run_op matchObservation op d) ops db).
Proof.
  by apply run_ops_evidence_wf.
Qed.

(** A batch is accepted only from the worker that holds a running lease of the
    job, with the next number, and then its checkpoints are all on record. *)
Theorem evidence_batch_accepted envelope receivedAt db db' (Hw : evidence_wf db)
    (H : RecordScannerWorkerEvidenceBatch envelope receivedAt db = (Ok tt, db')) :
  let batch := SignedBatch_Batch envelope in
  Batch_Sequence batch = next_sequence (Batch_JobID batch) db /\
  (exists r expiry, query_row (has_id (Batch_JobID batch)) (db_jobs db) = Some r /\
     row_worker_id r = Batch_WorkerID batch /\ row_status r = WorkerJobLeased /\
     row_lease_expires_at r = Some expiry /\ str_ltb (formatTime receivedAt) expiry = true) /\
  db_evidence db' = db_evidence db ++ [evidence_row envelope receivedAt] /\
  Forall (fun c => exists row, row ∈ db_checkpoints db' /\ probe row = (Batch_JobID batch, Checkpoint_Address c, Checkpoint_Port c))
    (Batch_Checkpoints batch) /\
  db_checkpoints db ⊆ db_checkpoints db'.
Proof.
  intros batch. pose proof (record_evidence_cases envelope receivedAt db Hw) as C. cbv zeta in C. rewrite H in C.
  destruct C as (Hseq & _ & (r & expiry & Hr & Hwk & _ & Hst & He & Hlt & _) & rows & Hrec & ->).
  destruct (recordWorkerCheckpoints_wf _ _ _ Hrec (checkpoints_distinct db Hw) (checkpoints_ports db Hw)) as (_ & _ & ? & ?).
  split_and!; [done| |done|done|done]. exists r, expiry. split_and!; try done.
  destruct (row_lease_expires_at r); simpl in He; [by subst|]. subst expiry. by destruct (formatTime receivedAt).
Qed.
