(* ===== verification/WorkerDispatch.v ===== *)
(** The dispatcher of [Dispatcher] over the store of [WorkerStore]: the store
    implements the dispatcher's interface, and dispatching and reassigning keep
    the promises of both. *)
From Stdlib Require Import ZArith Lia String.
From stdpp Require Import base tactics list strings gmap sets relations.
From S2P Require Import Prelude GoStrings GoTime WorkerModel WorkerJob Dispatcher Sql WorkerStore WorkerJobMachine WorkerStoreSafety.
Open Scope Z_scope.

(** [ORDER BY name,enrolled_at] *)
Definition worker_less (a b : ScannerWorker) : bool :=
  str_ltb (Worker_Name a) (Worker_Name b) ||
  (bool_decide (Worker_Name a = Worker_Name b) &&
   str_ltb (formatTime (Worker_EnrolledAt a)) (formatTime (Worker_EnrolledAt b))).
Definition ListScannerWorkers (db : Db) : result (list ScannerWorker) := Ok (sort_slice worker_less (db_workers db)).
Definition ScannerWorkerDispatchSettings (db : Db) : result bool := Ok (db_dispatch_enabled db).

#[export] Instance db_dispatch_store : DispatchStore Db := {|
  Dispatcher.ListScannerWorkers := ListScannerWorkers;
  Dispatcher.ScannerWorkerJobLoads := ScannerWorkerJobLoads;
  Dispatcher.ScannerWorkerDispatchSettings := ScannerWorkerDispatchSettings;
  Dispatcher.CreateScannerWorkerJob := CreateScannerWorkerJob;
  Dispatcher.ScannerWorkerJobResumeCandidate := ScannerWorkerJobResumeCandidate;
  Dispatcher.ReassignScannerWorkerJob := ReassignScannerWorkerJob |}.

(** ** Loads *)

Definition loads_at (now : Time) (db : Db) : gmap string WorkerJobLoad :=
  fold_left add_load (select_where (active now) (db_jobs db)) ∅.

Lemma load_of_add_load loads r id :
  load_of (add_load loads r) id =
  if bool_decide (id = row_worker_id r)
  then {| Load_ActiveJobs := Load_ActiveJobs (load_of loads id) + 1;
          Load_ReservedConcurrency := Load_ReservedConcurrency (load_of loads id) +
                                      Job_MaxConcurrent (SignedJob_Job (row_signed_envelope r)) |}
  else load_of loads id.
Proof.
  unfold add_load, load_of. case_bool_decide as E; [by rewrite E, lookup_insert_eq|]. by rewrite lookup_insert_ne.
Qed.

Lemma create_cases envelope createdAt db :
  let job := SignedJob_Job envelope in
  match CreateScannerWorkerJob envelope createdAt db with
  | (Ok _, db') => query_row (has_id (Job_ID job)) (db_jobs db) = None /\
      db_jobs db' = db_jobs db ++ [new_job_row envelope createdAt] /\ db_workers db' = db_workers db
  | (Err _, db') => db' = db
  end.
Proof.
  cbv zeta. unfold CreateScannerWorkerJob. destruct (query_row _ _); [done|]. repeat (case_if; [done|]). done.
Qed.

(** Creating an active job adds it to its worker's load and to no other. *)
Lemma create_loads envelope createdAt now db db' :
  CreateScannerWorkerJob envelope createdAt db = (Ok tt, db') ->
  active now (new_job_row envelope createdAt) = true ->
  loads_at now db' = add_load (loads_at now db) (new_job_row envelope createdAt).
Proof.
  intros H Ha. pose proof (create_cases envelope createdAt db) as C. rewrite H in C. destruct C as (_ & E & _).
  unfold loads_at. rewrite E. unfold select_where. rewrite List.filter_app, fold_left_app. simpl. by rewrite Ha.
Qed.

(** * Dispatch *)

Section dispatch.
Context `{JobCrypto} `{!JobCryptoLaws} (key : PrivateKey).
Let signer := newSigner key.

(** The outcome of one call: on success the job is stored for an eligible
    worker under a valid signature; on failure nothing changes. *)
Definition dispatch_outcome (job : WorkerJob) (now : Time) (db : Db) (res : result SignedWorkerJob * Db) : Prop :=
  match res with
  | (Ok envelope, db') => exists worker,
      worker ∈ db_workers db /\ db_dispatch_enabled db = true /\
      Eligible job (loads_at now db) now "" worker /\
      SignedJob_Job envelope = jobForWorker job worker /\
      VerifyForWorker envelope (Public key) worker now = Ok tt /\
      db_jobs db' = db_jobs db ++ [new_job_row envelope now] /\
      loads_at now db' = add_load (loads_at now db) (new_job_row envelope now)
  | (Err _, db') => db' = db
  end.

(** A dispatch is the creation of the job signed for the selected worker. *)
Lemma Dispatch_inv job now db :
  match Dispatch signer job now db with
  | (Ok envelope, db') => exists worker,
      worker ∈ db_workers db /\ db_dispatch_enabled db = true /\
      Eligible job (loads_at now db) now "" worker /\
      Sign signer (jobForWorker job worker) = Ok envelope /\
      CreateScannerWorkerJob envelope now db = (Ok tt, db')
  | (Err _, db') => db' = db
  end.
Proof using Type.
  unfold Dispatch, requireDispatchEnabled, st_bind, st_read, st_lift, st_ret, st_err. simpl.
  unfold ScannerWorkerDispatchSettings, ListScannerWorkers, ScannerWorkerJobLoads.
  destruct (db_dispatch_enabled db) eqn:Een; [|done].
  fold (loads_at now db). unfold selectWorker.
  pose proof (selectWorkerExcluding_cases job (sort_slice worker_less (db_workers db)) (loads_at now db) now "") as C.
  destruct (selectWorkerExcluding _ _ _ _ _) as [worker|e]; [|done].
  destruct C as (Hin & Hel & _). rewrite elem_of_sort_slice in Hin.
  destruct (Sign signer (jobForWorker job worker)) as [envelope|e] eqn:Es; [|done].
  pose proof (create_cases envelope now db) as Cc. cbv zeta in Cc.
  destruct (CreateScannerWorkerJob envelope now db) as [[[]|e] db'] eqn:Ec; [|done].
  exists worker. by split_and!.
Qed.

Lemma Dispatch_cases job now db :
  str_ltb (formatTime now) (formatTime (Job_ExpiresAt job)) = true ->
  dispatch_outcome job now db (Dispatch signer job now db).
Proof using All.
  intros Hlive. pose proof (Dispatch_inv job now db) as C. unfold dispatch_outcome.
  destruct (Dispatch signer job now db) as [[envelope|e] db']; [|done].
  destruct C as (worker & Hin & Hen & Hel & Es & Ec). pose proof (Sign_job _ _ _ Es) as Ej.
  pose proof (create_cases envelope now db) as Cc. cbv zeta in Cc. rewrite Ec in Cc. destruct Cc as (_ & Erows & _).
  exists worker. split_and!; try done.
  - unfold VerifyForWorker. rewrite (Verify_signed key (jobForWorker job worker)), Ej by done.
    apply Validate_ok, Hel.
  - eapply create_loads; [exact Ec|]. unfold active, new_job_row. cbv zeta. rewrite Ej. simpl.
    destruct Hel as [_ _ [[_ Hs] _ _ _ _ _ _ _ _ _ _ _]]. simpl in Hs. unfold has_status. simpl. by rewrite Hs, Hlive.
Qed.

(** What the resume lookup returns. *)
Lemma resume_candidate_cases jobID now db :
  match ScannerWorkerJobResumeCandidate jobID now db with
  | (Ok candidate, db') => db' = db /\ exists r, r ∈ db_jobs db /\ row_id r = jobID /\ lapsed (formatTime now) r = true /\
      row_lease_attempt r < maximumWorkerLeaseAttempts /\ Candidate_Envelope candidate = row_signed_envelope r /\
      Candidate_Completed candidate = ScannerWorkerJobCheckpoints jobID db /\
      (length (ScannerWorkerJobCheckpoints jobID db) <
       length (Job_Targets (SignedJob_Job (row_signed_envelope r))) * length (Job_Ports (SignedJob_Job (row_signed_envelope r))))%nat
  | (Err e, db') => db' = db \/ (e = ErrWorkerJobQuarantined /\ exists worker, db' = quarantineRepeatedWorkerJobs worker now db)
  end.
Proof.
  unfold ScannerWorkerJobResumeCandidate. destruct (query_row _ _) as [r|] eqn:Eq; [|by left].
  apply query_row_Some in Eq as [Hr Hp]. case_if; [right; eauto|]. case_if; [by left|].
  unfold has_id in Hp. reflect_bools. apply Nat.leb_gt in E0. split; [done|]. exists r. split_and!; done.
Qed.

(** A reassignment that succeeds moves exactly the lapsed row. *)
Lemma reassign_cases previous envelope now db :
  jobs_wf db ->
  match ReassignScannerWorkerJob previous envelope now db with
  | (Ok _, db') => exists r, r ∈ db_jobs db /\ reassignable (Job_ID (SignedJob_Job envelope)) previous (formatTime now) r = true /\
      set_assignment (Job_WorkerID (SignedJob_Job envelope)) envelope r ∈ db_jobs db' /\
      forall r', r' ∈ db_jobs db' -> r' = set_assignment (Job_WorkerID (SignedJob_Job envelope)) envelope r \/
                                     (r' ∈ db_jobs db /\ row_id r' <> row_id r)
  | (Err _, db') => db' = db
  end.
Proof.
  intros Hw. unfold ReassignScannerWorkerJob. destruct (Job_Resume _) as [resume|]; [|done]. cbv zeta.
  case_if; [done|]. case_if; [done|]. case_if; [done|].
  destruct (affected _ (db_jobs db) =? 1) eqn:Ea; [|done]. simpl.
  apply Z.eqb_eq, affected_1 in Ea as (r & Hr & Hp). exists r.
  destruct (update_where_one db _ (set_assignment (Job_WorkerID (SignedJob_Job envelope)) envelope) r Hw Hr Hp) as (? & _ & ?).
  { intros r' Hp'. unfold reassignable, has_id in Hp, Hp'. reflect_bools. congruence. }
  split_and!; done.
Qed.

(** A resumption is the reassignment of the lapsed job, with its checkpoints, to
    the worker selected among the others; a lookup that fails may quarantine. *)
Lemma ReassignExpired_inv jobID now db :
  jobs_wf db ->
  match ReassignExpired signer jobID now db with
  | (Ok envelope, db') => exists r worker resume,
      r ∈ db_jobs db /\ row_id r = jobID /\ lapsed (formatTime now) r = true /\
      row_lease_attempt r < maximumWorkerLeaseAttempts /\ worker ∈ db_workers db /\
      Resume_Completed resume = ScannerWorkerJobCheckpoints jobID db /\
      Eligible (resumeJob (SignedJob_Job (row_signed_envelope r)) resume) (loads_at now db) now (row_worker_id r) worker /\
      Sign signer (jobForWorker (resumeJob (SignedJob_Job (row_signed_envelope r)) resume) worker) = Ok envelope /\
      ReassignScannerWorkerJob (row_worker_id r) envelope now db = (Ok tt, db')
  | (Err e, db') => db' = db \/ (e = ErrWorkerJobQuarantined /\ db' = snd (ScannerWorkerJobResumeCandidate jobID now db))
  end.
Proof using Type.
  intros Hw. unfold ReassignExpired, requireDispatchEnabled, st_bind, st_read, st_lift, st_ret, st_err. simpl.
  unfold ScannerWorkerDispatchSettings, ListScannerWorkers, ScannerWorkerJobLoads.
  destruct (db_dispatch_enabled db); [|by left].
  pose proof (resume_candidate_cases jobID now db) as Cr.
  destruct (ScannerWorkerJobResumeCandidate jobID now db) as [[candidate|e] db1]; [|naive_solver].
  destruct Cr as (-> & r & Hr & Hid & Hl & Hatt & Eenv & Ecomp & _).
  pose proof (jobs_wf_row db r Hw Hr) as [_ _ _ _ [Eid Ewk]]. rewrite Eenv, Ewk.
  set (resume := {| Resume_PreviousWorkerID := _ |}). set (job := resumeJob _ resume). fold (loads_at now db).
  pose proof (selectWorkerExcluding_cases job (sort_slice worker_less (db_workers db)) (loads_at now db) now (row_worker_id r)) as C.
  destruct (selectWorkerExcluding _ _ _ _ _) as [worker|e]; [|by left].
  destruct C as (Hin & Hel & _). rewrite elem_of_sort_slice in Hin.
  destruct (Sign signer (jobForWorker job worker)) as [envelope|e] eqn:Es; [|by left].
  pose proof (reassign_cases (row_worker_id r) envelope now db Hw) as Ca.
  destruct (ReassignScannerWorkerJob (row_worker_id r) envelope now db) as [[[]|e] db'] eqn:Er; [|by left].
  exists r, worker, resume. by split_and!.
Qed.

Lemma ReassignExpired_cases jobID now db :
  jobs_wf db ->
  match ReassignExpired signer jobID now db with
  | (Ok envelope, db') => exists r worker,
      r ∈ db_jobs db /\ row_id r = jobID /\ lapsed (formatTime now) r = true /\
      row_lease_attempt r < maximumWorkerLeaseAttempts /\
      worker ∈ db_workers db /\ Worker_ID worker <> row_worker_id r /\
      VerifyForWorker envelope (Public key) worker now = Ok tt /\
      option_map Resume_Completed (Job_Resume (SignedJob_Job envelope)) = Some (ScannerWorkerJobCheckpoints jobID db) /\
      Job_Targets (SignedJob_Job envelope) = Job_Targets (SignedJob_Job (row_signed_envelope r)) /\
      Job_Ports (SignedJob_Job envelope) = Job_Ports (SignedJob_Job (row_signed_envelope r)) /\
      set_assignment (Worker_ID worker) envelope r ∈ db_jobs db' /\
      forall r', r' ∈ db_jobs db' -> r' = set_assignment (Worker_ID worker) envelope r \/
                                     (r' ∈ db_jobs db /\ row_id r' <> row_id r)
  | (Err e, db') => db' = db \/ (e = ErrWorkerJobQuarantined /\ exists worker, db' = quarantineRepeatedWorkerJobs worker now db)
  end.
Proof using All.
  intros Hw. pose proof (ReassignExpired_inv jobID now db Hw) as C.
  destruct (ReassignExpired signer jobID now db) as [[envelope|e] db'].
  - destruct C as (r & worker & resume & Hr & Hid & Hl & Hatt & Hin & Ecomp & Hel & Es & Er).
    pose proof (Sign_job _ _ _ Es) as Ej. pose proof (reassign_cases (row_worker_id r) envelope now db Hw) as Ca.
    pose proof (jobs_wf_row db r Hw Hr) as [_ _ _ _ [Eid Ewk]].
    rewrite Er in Ca. destruct Ca as (r1 & Hr1 & Hp & Hset & Hall). rewrite Ej in *. simpl in *.
    assert (r1 = r) as -> by (apply (row_unique db); [done..|]; unfold reassignable, has_id in Hp; reflect_bools; congruence).
    exists r, worker. split_and!; try done; try apply Hel.
    + unfold VerifyForWorker. rewrite (Verify_signed key _ envelope Es), Ej. apply Validate_ok, Hel.
    + simpl. by rewrite Ecomp.
  - pose proof (resume_candidate_cases jobID now db) as Cr. destruct C as [->|[-> ->]]; [by left|].
    destruct (ScannerWorkerJobResumeCandidate jobID now db) as [[candidate|e] db1]; simpl; [left; by destruct Cr|].
    destruct Cr as [->|[_ ?]]; [by left|by right].
Qed.
End dispatch.

(** * Properties *)

(** C27: a dispatched job goes, validly signed, to an eligible worker of an enabled
    fleet, and the concurrency reserved on that worker afterwards stays within
    what the worker reported; a dispatch that fails changes nothing. *)
Theorem dispatch_never_oversubscribes `{JobCrypto} `{!JobCryptoLaws} (key : PrivateKey) job now db
    (Hlive : str_ltb (formatTime now) (formatTime (Job_ExpiresAt job)) = true)
    (R : forall w, w ∈ db_workers db -> int64_range (Worker_AvailableConcurrency w -
                                        Load_ReservedConcurrency (load_of (loads_at now db) (Worker_ID w)))) :
  match Dispatch (newSigner key) job now db with
  | (Ok envelope, db') => exists worker,
      worker ∈ db_workers db /\ db_dispatch_enabled db = true /\
      VerifyForWorker envelope (Public key) worker now = Ok tt /\
      db_jobs db' = db_jobs db ++ [new_job_row envelope now] /\
      Load_ReservedConcurrency (load_of (loads_at now db') (Worker_ID worker)) =
        Load_ReservedConcurrency (load_of (loads_at now db) (Worker_ID worker)) + Job_MaxConcurrent job /\
      Load_ReservedConcurrency (load_of (loads_at now db') (Worker_ID worker)) <= Worker_AvailableConcurrency worker
  | (Err _, db') => db' = db
  end.
Proof.
  pose proof (Dispatch_cases key job now db Hlive) as C.
  destruct (Dispatch (newSigner key) job now db) as [[envelope|e] db']; [|done].
  destruct C as (worker & Hin & Hen & Hel & Ej & Hv & Hrows & Hloads).
  assert (El : load_of (loads_at now db') (Worker_ID worker) =
    {| Load_ActiveJobs := Load_ActiveJobs (load_of (loads_at now db) (Worker_ID worker)) + 1;
       Load_ReservedConcurrency := Load_ReservedConcurrency (load_of (loads_at now db) (Worker_ID worker)) + Job_MaxConcurrent job |}).
  { rewrite Hloads, load_of_add_load. unfold new_job_row. simpl. rewrite Ej. by rewrite bool_decide_eq_true_2. }
  exists worker. rewrite El. split_and!; try done. apply (Eligible_capacity job (loads_at now db) now ""); auto.
Qed.

(** Resuming an expired lease moves exactly that job to another eligible worker,
    under a fresh valid signature for the same targets and ports that carries the
    recorded checkpoints; otherwise
    nothing changes beyond the quarantine of a job that failed three times. *)
Theorem reassign_expired_sound `{JobCrypto} `{!JobCryptoLaws} (key : PrivateKey) jobID now db (Hw : jobs_wf db) :
  match ReassignExpired (newSigner key) jobID now db with
  | (Ok envelope, db') => exists r worker,
      r ∈ db_jobs db /\ row_id r = jobID /\ lapsed (formatTime now) r = true /\
      row_lease_attempt r < maximumWorkerLeaseAttempts /\
      worker ∈ db_workers db /\ Worker_ID worker <> row_worker_id r /\
      VerifyForWorker envelope (Public key) worker now = Ok tt /\
      option_map Resume_Completed (Job_Resume (SignedJob_Job envelope)) = Some (ScannerWorkerJobCheckpoints jobID db) /\
      Job_Targets (SignedJob_Job envelope) = Job_Targets (SignedJob_Job (row_signed_envelope r)) /\
      Job_Ports (SignedJob_Job envelope) = Job_Ports (SignedJob_Job (row_signed_envelope r)) /\
      set_assignment (Worker_ID worker) envelope r ∈ db_jobs db' /\
      forall r', r' ∈ db_jobs db' -> r' = set_assignment (Worker_ID worker) envelope r \/
                                     (r' ∈ db_jobs db /\ row_id r' <> row_id r)
  | (Err e, db') => db' = db \/ (e = ErrWorkerJobQuarantined /\ exists worker, db' = quarantineRepeatedWorkerJobs worker now db)
  end.
Proof. by apply ReassignExpired_cases. Qed.
