(* ===== verification/WorkerExamples.v ===== *)
(** Concrete runs of the scanner-worker subsystem: the hypotheses of its
    theorems hold of them, and one of them shows a gap in result acceptance. *)
From Stdlib Require Import ZArith Lia String.
From stdpp Require Import base tactics list strings gmap sets relations.
From S2P Require Import Prelude GoStrings GoTime Netip WorkerModel WorkerJob WorkerEvidence Dispatcher Sql WorkerStore WorkerJobMachine WorkerStoreSafety WorkerEvidenceStore WorkerDispatch.
Open Scope Z_scope.

(** Signing by identity: a signature is the payload. *)
#[local] Instance test_crypto : JobCrypto := {|
  PrivateKey := unit; PublicKey := unit; Public := id;
  ed25519_Sign := fun _ payload => payload;
  ed25519_Verify := fun _ payload signature => bool_decide (payload = signature);
  key_digest := fun _ => "key"%string; base64_Encode := id; base64_Decode := Some;
  json_Marshal := fun job => Ok (Job_ID job) |}.
#[local] Instance test_crypto_laws : JobCryptoLaws.
Proof. split; [intros; by apply bool_decide_eq_true|done]. Qed.

Definition t0 : Time := 1700000000 * Second.
Definition after (seconds : Z) : Time := t0 + seconds * Second.

Definition test_worker (id : string) : ScannerWorker := {|
  Worker_ID := id; Worker_Name := "scanner"; Worker_SiteID := "hq"; Worker_Status := EndpointActive;
  Worker_CertificateSerial := id; Worker_AllowedCIDRs := ["10.0.0.0/24"; "2001:db8::/32"]%string;
  Worker_AllowedPorts := [80; 443]; Worker_MaxConcurrent := 8; Worker_RateLimitPerSecond := 100;
  Worker_EnrolledAt := after (-86400); Worker_ExpiresAt := after 864000; Worker_LastSeenAt := Some (after (-60));
  Worker_SoftwareVersion := "1.2.0"; Worker_OperatingSystem := "linux"; Worker_Architecture := "amd64";
  Worker_Capabilities := [WorkerCapabilityTCPConnect]; Worker_AvailableConcurrency := 4;
  Worker_Health := WorkerHealthHealthy; Worker_HealthMessage := ""; Worker_DispatchEnabled := true;
  Worker_RevokedAt := None; Worker_RevocationReason := "" |}.

Definition test_target (address : string) : Target :=
  {| Target_Name := address; Target_Address := address; Target_GroupIDs := [] |}.
Definition test_job (worker : string) (targets : list string) (ports : list Z) : WorkerJob := {|
  Job_SchemaVersion := 1; Job_ID := "job-1"; Job_WorkerID := worker; Job_ScanID := "scan-1"; Job_SiteID := "hq";
  Job_IssuedAt := t0; Job_ExpiresAt := after 3600; Job_Targets := test_target <$> targets; Job_Ports := ports;
  Job_MaxConcurrent := 2; Job_RateLimitPerSecond := 0; Job_RequiredCapabilities := [WorkerCapabilityTCPConnect];
  Job_Resume := None; Job_Status := WorkerJobPending |}.
Definition test_scan : ScanRow := {|
  scan_id := "scan-1"; scan_status := "running"; scan_error := ""; scan_done_checks := 0; scan_started_at := None;
  scan_completed_at := None; scan_observations := []; scan_findings := []; scan_checkpoints := []; scan_cve_matches := [] |}.
Definition db0 : Db := {|
  db_workers := [test_worker "w1"; test_worker "w2"]; db_dispatch_enabled := true; db_jobs := []; db_assignments := [];
  db_evidence := []; db_checkpoints := []; db_dead_letters := []; db_scans := [test_scan] |}.

Definition test_envelope (targets : list string) (ports : list Z) : SignedWorkerJob :=
  match Sign (newSigner tt) (jobForWorker (test_job "" targets ports) (test_worker "w1")) with
  | Ok envelope => envelope
  | Err _ => {| SignedJob_Algorithm := ""; SignedJob_KeyID := ""; SignedJob_Job := test_job "" [] []; SignedJob_Signature := "" |}
  end.
Definition test_batch (id : string) (sequence : Z) (final : bool) (addresses : list string) (port : Z) : SignedWorkerEvidenceBatch :=
  {| SignedBatch_Algorithm := "ECDSA-SHA256"; SignedBatch_CertificateSerial := "w1";
     SignedBatch_Batch := {| Batch_SchemaVersion := 1; Batch_ID := id; Batch_WorkerID := "w1"; Batch_JobID := "job-1";
       Batch_ScanID := "scan-1"; Batch_Sequence := sequence; Batch_Final := final; Batch_CollectedAt := after 30;
       Batch_Observations := []; Batch_Findings := [];
       Batch_Checkpoints := (fun a => {| Checkpoint_Address := a; Checkpoint_Port := port; Checkpoint_CompletedAt := after 30 |}) <$> addresses |};
     SignedBatch_Signature := "" |}.
Definition test_receipt : WorkerJobResultReceipt := {|
  Receipt_ResultID := "result-1"; Receipt_JobID := "job-1"; Receipt_WorkerID := "w1";
  Receipt_Outcome := WorkerJobResultSucceeded; Receipt_CompletedAt := after 50; Receipt_AcceptedAt := after 60 |}.
Definition no_matches (o : ServiceObservation) : result (list string) := Ok [].

(** A job created, leased, evidenced and completed. *)
Definition ops_created : list store_op := [OpCreate (test_envelope ["10.0.0.7"] [80]) t0].
Definition ops_leased : list store_op :=
  ops_created ++ [OpLease "w1" "hash" (after 10) (after 130)].
Definition ops_evidenced : list store_op := ops_leased ++ [OpEvidence (test_batch "b1" 1 true ["10.0.0.7"] 80) (after 40)].
Definition ops_completed : list store_op := ops_evidenced ++ [OpComplete test_receipt "hash" (after 60)].
Definition run (ops : list store_op) : Db := run_ops no_matches ops db0.
Definition the_job (db : Db) : JobRow :=
  default (new_job_row (test_envelope [] []) t0) (query_row (has_id "job-1") (db_jobs db)).

Lemma db0_wf : jobs_wf db0.
Proof. split; simpl; [constructor|constructor| |constructor]. intros d Hd. by apply not_elem_of_nil in Hd. Qed.

Lemma db0_evidence_wf : evidence_wf db0.
Proof. split; [constructor|done|constructor|constructor|constructor]. Qed.

Lemma ops_created_ok : Forall op_ok ops_created.
Proof. repeat constructor. Qed.
Lemma ops_leased_ok : Forall op_ok ops_leased.
Proof. repeat constructor. Qed.
Lemma ops_completed_ok : Forall op_ok ops_completed.
Proof. repeat constructor. Qed.

Lemma run_wf ops : Forall op_ok ops -> jobs_wf (run ops).
Proof. intros H. apply run_ops_wf; [apply db0_wf|done]. Qed.

Lemma the_job_elem db : query_row (has_id "job-1") (db_jobs db) <> None -> the_job db ∈ db_jobs db.
Proof.
  unfold the_job. destruct (query_row (has_id "job-1") (db_jobs db)) as [r|] eqn:E; [|done].
  intros _. simpl. by apply query_row_Some in E as [? _].
Qed.

Example run_completed_status : row_status (the_job (run ops_completed)) = WorkerJobCompleted.
Proof. vm_compute. reflexivity. Qed.

(** * Witnesses *)

Lemma VerifyForWorker_signed_witness :
  VerifyForWorker (test_envelope ["10.0.0.7"] [80]) tt (test_worker "w1") (after 10) = Ok tt /\
  JobValid (jobForWorker (test_job "" ["10.0.0.7"] [80]) (test_worker "w1")) (test_worker "w1") (after 10).
Proof.
  split; [vm_compute; reflexivity|].
  apply (@VerifyForWorker_signed test_crypto test_crypto_laws tt _ (test_envelope ["10.0.0.7"%string] [80])); vm_compute; reflexivity.
Defined.

Lemma reachable_jobs_wf_witness : jobs_wf (run ops_completed) /\ length (db_jobs (run ops_completed)) = 1%nat.
Proof.
  split; [|vm_compute; reflexivity].
  exact (reachable_jobs_wf no_matches ops_completed db0 db0_wf ops_completed_ok).
Defined.

Lemma finished_jobs_absorbing_witness :
  the_job (run ops_completed) ∈
    db_jobs (run_ops no_matches [OpLease "w1" "other" (after 4000) (after 4100)] (run ops_completed)).
Proof.
  apply (finished_jobs_absorbing no_matches [OpLease "w1" "other" (after 4000) (after 4100)] (run ops_completed)).
  - exact (run_wf _ ops_completed_ok).
  - repeat constructor.
  - apply the_job_elem. vm_compute. discriminate.
  - left. vm_compute. reflexivity.
Defined.

Lemma live_lease_exclusive_witness :
  the_job (run ops_leased) ∈ db_jobs (run_op no_matches (OpLease "w1" "other" (after 20) (after 140)) (run ops_leased)).
Proof.
  apply (live_lease_exclusive no_matches (OpLease "w1" "other" (after 20) (after 140)) (run ops_leased) _ "w1" "hash").
  - apply run_wf. repeat constructor.
  - exact I.
  - apply the_job_elem. vm_compute. discriminate.
  - unfold live. split; [|split; [|split; [|exists (formatTime (after 130)); split]]]; vm_compute; reflexivity.
  - discriminate.
Defined.

Lemma lease_oldest_job_witness :
  exists envelope db', LeaseScannerWorkerJob "w1" "hash" (after 10) (after 130) (run ops_created)
                       = (Ok envelope, db') /\
    exists r, r ∈ db_jobs (lease_maintenance "w1" (after 10) (run ops_created)) /\
              envelope = row_signed_envelope r.
Proof.
  pose proof (lease_oldest_job (run ops_created) "w1" "hash" (after 10) (after 130)
    (run_wf _ ops_created_ok)) as H. cbv zeta in H.
  destruct (LeaseScannerWorkerJob _ _ _ _ _) as [[envelope|e] db'] eqn:E.
  - exists envelope, db'. split; [reflexivity|]. destruct H as (r & Hr & _ & _ & He & _). exists r. split; assumption.
  - exfalso. vm_compute in E. discriminate E.
Defined.

Lemma complete_sound_witness :
  exists r, r ∈ db_jobs (run ops_evidenced) /\ completed_row test_receipt r ∈ db_jobs (run ops_completed).
Proof.
  destruct (complete_sound no_matches (run ops_evidenced) (run ops_completed) test_receipt "hash" (after 60)) as (r & Hr & _ & _ & Hc & _).
  - apply run_wf. repeat constructor.
  - vm_compute. reflexivity.
  - vm_compute. reflexivity.
  - exists r. split; assumption.
Defined.

Lemma complete_idempotent_witness :
  CompleteScannerWorkerJob no_matches test_receipt "late" (after 500) (run ops_completed) =
    (Err ErrWorkerResultAlreadyAccepted, run ops_completed).
Proof.
  apply (complete_idempotent no_matches (run ops_evidenced) (run ops_completed) test_receipt "hash" (after 60)).
  - apply run_wf. repeat constructor.
  - vm_compute. reflexivity.
  - vm_compute. reflexivity.
Defined.

Lemma evidence_numbered_invariant_witness :
  sequences "job-1" (fold_left (fun d op => run_op no_matches op d) ops_completed db0) = [1].
Proof.
  rewrite (evidence_numbered _ (evidence_numbered_invariant no_matches ops_completed db0 db0_evidence_wf)).
  vm_compute. reflexivity.
Defined.

Lemma evidence_batch_accepted_witness :
  next_sequence "job-1" (run ops_leased) = 1.
Proof.
  symmetry. apply (evidence_batch_accepted (test_batch "b1" 1 true ["10.0.0.7"%string] 80) (after 40) (run ops_leased) (run ops_evidenced)).
  - apply (run_ops_evidence_wf no_matches ops_leased), db0_evidence_wf.
  - vm_compute. reflexivity.
Defined.

#[local] Instance test_evidence_crypto : EvidenceCrypto := {|
  canonicalBatch := fun b => Some (Batch_ID b); sha256 := id; RawStd_Decode := Some;
  ecdsa_VerifyASN1 := fun _ _ _ => true; rsa_VerifyPSS := fun _ _ _ => false |}.
Definition test_certificate : Certificate := {|
  Certificate_Serial := Some "w1"%string; Certificate_NotBefore := after (-86400); Certificate_NotAfter := after 86400;
  Certificate_DigitalSignature := true; Certificate_URIs := ["spiffe://mossward/scanner-worker/w1"]%string;
  Certificate_Key := KeyECDSA; Certificate_PublicKey := "pk" |}.

Lemma accepted_evidence_in_scope_witness :
  Forall (fun c => checkpoint_in_job (test_job "w1" ["10.0.0.7"%string] [80]) (after 30) c = true)
    (Batch_Checkpoints (SignedBatch_Batch (test_batch "b1" 1 true ["10.0.0.7"%string] 80))).
Proof.
  apply (accepted_evidence_in_scope (test_batch "b1" 1 true ["10.0.0.7"%string] 80) test_certificate
    (test_job "w1" ["10.0.0.7"%string] [80]) (after 40)).
  vm_compute. reflexivity.
Defined.

(** * A gap in result acceptance *)

(** Checkpoints are stored and counted under the text of their address, but a
    batch is validated, and duplicates are refused, under the parsed address. *)
Definition alias_targets : list string := ["2001:db8::1"; "2001:db8::2"].
Definition alias_batch1 := test_batch "b1" 1 false ["2001:db8::1"] 80.
Definition alias_batch2 := test_batch "b2" 2 true ["2001:db8:0::1"] 80.
Definition alias_ops : list store_op :=
  [OpCreate (test_envelope alias_targets [80]) t0; OpLease "w1" "hash" (after 10) (after 130);
   OpEvidence alias_batch1 (after 40); OpEvidence alias_batch2 (after 41); OpComplete test_receipt "hash" (after 60)].

(** A worker that reports one IPv6 target under two spellings completes a job of
    two targets as succeeded although the second target was never checkpointed: the
    envelope and both batches pass every check, the job ends completed, its scan ends
    completed with two checks done, and no stored checkpoint is of the second target. *)
Theorem aliased_checkpoints_complete_job :
  let job := SignedJob_Job (test_envelope alias_targets [80]) in
  VerifyForWorker (test_envelope alias_targets [80]) tt (test_worker "w1") (after 10) = Ok tt /\
  VerifyForJob alias_batch1 (Some test_certificate) job (after 40) = Ok tt /\
  VerifyForJob alias_batch2 (Some test_certificate) job (after 41) = Ok tt /\
  row_status (the_job (run alias_ops)) = WorkerJobCompleted /\
  (scan_status <$> db_scans (run alias_ops)) = ["completed"%string] /\
  (scan_done_checks <$> db_scans (run alias_ops)) = [2] /\
  existsb (fun c => bool_decide (ParseAddr (checkpoint_address c) = ParseAddr "2001:db8::2")) (db_checkpoints (run alias_ops)) = false.
Proof. vm_compute. repeat split. Qed.

Lemma dispatch_never_oversubscribes_witness :
  exists envelope db', Dispatch (newSigner tt) (test_job "" ["10.0.0.7"%string] [80]) (after 10) db0 = (Ok envelope, db') /\
    Load_ReservedConcurrency (load_of (loads_at (after 10) db') "w1") = 2.
Proof.
  pose proof (@dispatch_never_oversubscribes test_crypto test_crypto_laws tt (test_job "" ["10.0.0.7"%string] [80]) (after 10) db0) as H.
  specialize (H ltac:(vm_compute; reflexivity)).
  assert (R : forall w, w ∈ db_workers db0 -> int64_range (Worker_AvailableConcurrency w -
     Load_ReservedConcurrency (load_of (loads_at (after 10) db0) (Worker_ID w)))).
  { intros w Hw. assert (El : load_of (loads_at (after 10) db0) (Worker_ID w) = WorkerJobLoad_zero) by reflexivity.
    rewrite El. apply int64_range_small.
    apply list_elem_of_In in Hw as [<-|[<-|[]]]; simpl; lia. }
  specialize (H R).
  match type of H with match ?d with _ => _ end => destruct d as [[envelope|e] db'] eqn:E end.
  - exists envelope, db'. split; [reflexivity|]. vm_compute in E. injection E as <- <-. vm_compute. reflexivity.
  - exfalso. vm_compute in E. discriminate E.
Defined.

Lemma reassign_expired_sound_witness :
  exists envelope db', ReassignExpired (newSigner tt) "job-1" (after 200) (run ops_leased) = (Ok envelope, db') /\
    exists r worker, r ∈ db_jobs (run ops_leased) /\ set_assignment (Worker_ID worker) envelope r ∈ db_jobs db'.
Proof.
  pose proof (@reassign_expired_sound test_crypto test_crypto_laws tt "job-1" (after 200) (run ops_leased)
    (run_wf ops_leased ops_leased_ok)) as H.
  destruct (ReassignExpired _ _ _ _) as [[envelope|e] db'] eqn:E.
  - exists envelope, db'. split; [reflexivity|]. destruct H as (r & w & Hr & _ & _ & _ & _ & _ & _ & _ & _ & _ & Hs & _).
    exists r, w. split; assumption.
  - exfalso. vm_compute in E. discriminate E.
Defined.

Lemma selectWorkerExcluding_best_witness :
  exists worker, selectWorkerExcluding (test_job "" ["10.0.0.7"%string] [80]) [test_worker "w1"; test_worker "w2"] ∅ (after 10) "w1" = Ok worker /\
    Worker_ID worker <> "w1"%string.
Proof.
  pose proof (selectWorkerExcluding_best (test_job "" ["10.0.0.7"%string] [80]) ∅ (after 10) "w1" [test_worker "w1"; test_worker "w2"]) as H.
  assert (R : forall w, w ∈ [test_worker "w1"; test_worker "w2"] -> int64_range (Worker_AvailableConcurrency w -
     Load_ReservedConcurrency (load_of ∅ (Worker_ID w)))).
  { intros w Hw. assert (El : load_of ∅ (Worker_ID w) = WorkerJobLoad_zero) by reflexivity.
    rewrite El. apply int64_range_small. apply list_elem_of_In in Hw as [<-|[<-|[]]]; simpl; lia. }
  specialize (H R). destruct (selectWorkerExcluding _ _ _ _ _) as [worker|e] eqn:E.
  - exists worker. split; [reflexivity|]. apply H.
  - exfalso. vm_compute in E. discriminate E.
Defined.

Lemma selectWorkerExcluding_listing_order_witness :
  selectWorkerExcluding (test_job "" ["10.0.0.7"%string] [80]) [test_worker "w2"; test_worker "w1"] ∅ (after 10) "" = Ok (test_worker "w1").
Proof.
  rewrite (selectWorkerExcluding_listing_order _ _ _ _ [test_worker "w2"; test_worker "w1"] [test_worker "w1"; test_worker "w2"]).
  - vm_compute. reflexivity.
  - simpl. apply NoDup_cons. split; [|apply NoDup_singleton]. intros [=]%list_elem_of_singleton.
  - apply Permutation_swap.
Defined.
