(* ===== verification/WorkerIdentity.v ===== *)
(** internal/agentidentity/worker.go with the identity part of
    internal/store/worker.go: enrollment tokens, the worker inventory,
    heartbeats, revocation and the fleet view. SHA-256 and the issuing of
    certificates are parameters; audit events are not modelled. *)
From Stdlib Require Import ZArith Lia String Ascii.
From stdpp Require Import base tactics list strings gmap sets sorting.
From S2P Require Import Prelude GoStrings GoTime GoRegex Netip WorkerModel WorkerJob Sql WorkerStore WorkerDispatch.
Open Scope Z_scope.

Definition maximumWorkerConcurrency : Z := 256.
Definition maximumWorkerRate : Z := 1000.
Definition workerHeartbeatSchema : Z := 1.
Definition workerHeartbeatTextLimit : Z := 200.
Definition workerHealthMessageLimit : Z := 500.
Definition workerOfflineAfter : Duration := 5 * Minute.
Definition workerSiteIDLimit : Z := 64.
Definition minimumSupportedWorkerVersion : string := "1.0.0".
Definition enrollmentTokenLifetime : Duration := 15 * Minute.
Definition enrollmentTokenBytes : Z := 32.
Definition endpointNameLimit : Z := 200.
Definition certificateRenewBefore : Duration := 30 * 24 * Hour.
Definition revocationReasonLimit : Z := 500.
(** [^[a-z0-9]+(?:-[a-z0-9]+)*$], the pattern of the job's site. *)
Definition workerSiteIDPattern : re := jobSiteIDPattern.

Definition ErrInvalidEnrollmentToken : error := "endpoint enrollment token is invalid, expired, or already used".

Record WorkerEnrollmentToken := {
  Enrollment_ID : string;
  Enrollment_Name : string;
  Enrollment_SiteID : string;
  Enrollment_TokenHash : string;
  Enrollment_AllowedCIDRs : list string;
  Enrollment_AllowedPorts : list Z;
  Enrollment_MaxConcurrent : Z;
  Enrollment_RateLimitPerSecond : Z;
  Enrollment_CreatedBy : string;
  Enrollment_CreatedAt : Time;
  Enrollment_ExpiresAt : Time }.

(** scanner_worker_enrollment_tokens: the token, with its times as text. *)
Record TokenRow := {
  token_enrollment : WorkerEnrollmentToken;
  token_expires_at : string;
  token_used_at : option string }.

Record IdentityDb := { identity_tokens : list TokenRow; identity_db : Db }.

Definition set_workers (workers : list ScannerWorker) (db : Db) : Db :=
  {| db_workers := workers; db_dispatch_enabled := db_dispatch_enabled db; db_jobs := db_jobs db;
     db_assignments := db_assignments db; db_evidence := db_evidence db; db_checkpoints := db_checkpoints db;
     db_dead_letters := db_dead_letters db; db_scans := db_scans db |}.
Definition identity_workers (s : IdentityDb) : list ScannerWorker := db_workers (identity_db s).
Definition with_workers (workers : list ScannerWorker) (s : IdentityDb) : IdentityDb :=
  {| identity_tokens := identity_tokens s; identity_db := set_workers workers (identity_db s) |}.
Definition with_tokens (tokens : list TokenRow) (s : IdentityDb) : IdentityDb :=
  {| identity_tokens := tokens; identity_db := identity_db s |}.

Definition within (lo x hi : Z) : bool := (lo <=? x) && (x <=? hi).

(** * Statements *)

(** [INSERT INTO scanner_worker_enrollment_tokens], with its keys and checks. *)
Definition InsertWorkerEnrollmentToken (token : WorkerEnrollmentToken) : st IdentityDb () := fun s =>
  if bool_decide (Enrollment_ID token ∈ Enrollment_ID ∘ token_enrollment <$> identity_tokens s) ||
     bool_decide (Enrollment_TokenHash token ∈ Enrollment_TokenHash ∘ token_enrollment <$> identity_tokens s) ||
     negb (within 1 (Enrollment_MaxConcurrent token) 256) || negb (within 0 (Enrollment_RateLimitPerSecond token) 1000)
  then (Err ErrConstraint, s)
  else (Ok tt, with_tokens (identity_tokens s ++
    [{| token_enrollment := token; token_expires_at := formatTime (Enrollment_ExpiresAt token); token_used_at := None |}]) s).

(** [token_hash=? AND used_at IS NULL AND expires_at>?] *)
Definition usable (hash now : string) (r : TokenRow) : bool :=
  bool_decide (Enrollment_TokenHash (token_enrollment r) = hash) && bool_decide (token_used_at r = None) &&
  str_ltb now (token_expires_at r).

Definition WorkerEnrollmentToken_ (hash : string) (now : Time) (s : IdentityDb) : result WorkerEnrollmentToken :=
  match query_row (usable hash (formatTime now)) (identity_tokens s) with
  | Some r => Ok (token_enrollment r)
  | None => Err ErrInvalidEnrollmentToken
  end.

Definition use_token (now : string) (r : TokenRow) : TokenRow :=
  {| token_enrollment := token_enrollment r; token_expires_at := token_expires_at r; token_used_at := Some now |}.

Definition ConsumeWorkerEnrollmentToken (hash : string) (worker : ScannerWorker) (now : Time) : st IdentityDb () := fun s =>
  let target := usable hash (formatTime now) in
  if negb (affected target (identity_tokens s) =? 1) then (Err ErrInvalidEnrollmentToken, s) else
  if bool_decide (Worker_ID worker ∈ Worker_ID <$> identity_workers s) ||
     bool_decide (Worker_CertificateSerial worker ∈ Worker_CertificateSerial <$> identity_workers s) ||
     negb (within 1 (Worker_MaxConcurrent worker) 256) || negb (within 0 (Worker_RateLimitPerSecond worker) 1000)
  then (Err ErrConstraint, s) (* rolled back *)
  else (Ok tt, with_workers (identity_workers s ++ [worker])
                 (with_tokens (update_where target (use_token (formatTime now)) (identity_tokens s)) s)).

Definition ScannerWorkerBySerial (serial : string) (s : IdentityDb) : result ScannerWorker :=
  match query_row (fun w => bool_decide (Worker_CertificateSerial w = serial)) (identity_workers s) with
  | Some w => Ok w
  | None => Err ErrNotFound
  end.

(** [id=? AND status='active'] *)
Definition active_worker (id : string) (w : ScannerWorker) : bool :=
  bool_decide (Worker_ID w = id) && bool_decide (Worker_Status w = EndpointActive).

Definition heard (heartbeat : WorkerHeartbeat) (seenAt : Time) (w : ScannerWorker) : ScannerWorker :=
  {| Worker_ID := Worker_ID w; Worker_Name := Worker_Name w; Worker_SiteID := Worker_SiteID w; Worker_Status := Worker_Status w;
     Worker_CertificateSerial := Worker_CertificateSerial w; Worker_AllowedCIDRs := Worker_AllowedCIDRs w;
     Worker_AllowedPorts := Worker_AllowedPorts w; Worker_MaxConcurrent := Worker_MaxConcurrent w;
     Worker_RateLimitPerSecond := Worker_RateLimitPerSecond w; Worker_EnrolledAt := Worker_EnrolledAt w;
     Worker_ExpiresAt := Worker_ExpiresAt w; Worker_LastSeenAt := Some seenAt;
     Worker_SoftwareVersion := Heartbeat_SoftwareVersion heartbeat; Worker_OperatingSystem := Heartbeat_OperatingSystem heartbeat;
     Worker_Architecture := Heartbeat_Architecture heartbeat; Worker_Capabilities := Heartbeat_Capabilities heartbeat;
     Worker_AvailableConcurrency := Heartbeat_AvailableConcurrency heartbeat; Worker_Health := Heartbeat_Health heartbeat;
     Worker_HealthMessage := Heartbeat_HealthMessage heartbeat; Worker_DispatchEnabled := Worker_DispatchEnabled w;
     Worker_RevokedAt := Worker_RevokedAt w; Worker_RevocationReason := Worker_RevocationReason w |}.

Definition RecordScannerWorkerHeartbeat (id : string) (heartbeat : WorkerHeartbeat) (seenAt : Time) : st IdentityDb () := fun s =>
  if negb (affected (active_worker id) (identity_workers s) =? 1) then (Err ErrNotFound, s) else
  if negb (within 0 (Heartbeat_AvailableConcurrency heartbeat) 256) ||
     negb (bool_decide (Heartbeat_Health heartbeat ∈ [WorkerHealthHealthy; WorkerHealthDegraded]))
  then (Err ErrConstraint, s)
  else (Ok tt, with_workers (update_where (active_worker id) (heard heartbeat seenAt) (identity_workers s)) s).

Definition revoked (reason : string) (revokedAt : Time) (w : ScannerWorker) : ScannerWorker :=
  {| Worker_ID := Worker_ID w; Worker_Name := Worker_Name w; Worker_SiteID := Worker_SiteID w; Worker_Status := EndpointRevoked;
     Worker_CertificateSerial := Worker_CertificateSerial w; Worker_AllowedCIDRs := Worker_AllowedCIDRs w;
     Worker_AllowedPorts := Worker_AllowedPorts w; Worker_MaxConcurrent := Worker_MaxConcurrent w;
     Worker_RateLimitPerSecond := Worker_RateLimitPerSecond w; Worker_EnrolledAt := Worker_EnrolledAt w;
     Worker_ExpiresAt := Worker_ExpiresAt w; Worker_LastSeenAt := Worker_LastSeenAt w;
     Worker_SoftwareVersion := Worker_SoftwareVersion w; Worker_OperatingSystem := Worker_OperatingSystem w;
     Worker_Architecture := Worker_Architecture w; Worker_Capabilities := Worker_Capabilities w;
     Worker_AvailableConcurrency := Worker_AvailableConcurrency w; Worker_Health := Worker_Health w;
     Worker_HealthMessage := Worker_HealthMessage w; Worker_DispatchEnabled := Worker_DispatchEnabled w;
     Worker_RevokedAt := Some revokedAt; Worker_RevocationReason := reason |}.

Definition RevokeScannerWorkerRow (id reason : string) (revokedAt : Time) : st IdentityDb () := fun s =>
  if negb (affected (active_worker id) (identity_workers s) =? 1) then (Err ErrNotFound, s)
  else (Ok tt, with_workers (update_where (active_worker id) (revoked reason revokedAt) (identity_workers s)) s).

Definition with_dispatch (enabled : bool) (w : ScannerWorker) : ScannerWorker :=
  {| Worker_ID := Worker_ID w; Worker_Name := Worker_Name w; Worker_SiteID := Worker_SiteID w; Worker_Status := Worker_Status w;
     Worker_CertificateSerial := Worker_CertificateSerial w; Worker_AllowedCIDRs := Worker_AllowedCIDRs w;
     Worker_AllowedPorts := Worker_AllowedPorts w; Worker_MaxConcurrent := Worker_MaxConcurrent w;
     Worker_RateLimitPerSecond := Worker_RateLimitPerSecond w; Worker_EnrolledAt := Worker_EnrolledAt w;
     Worker_ExpiresAt := Worker_ExpiresAt w; Worker_LastSeenAt := Worker_LastSeenAt w;
     Worker_SoftwareVersion := Worker_SoftwareVersion w; Worker_OperatingSystem := Worker_OperatingSystem w;
     Worker_Architecture := Worker_Architecture w; Worker_Capabilities := Worker_Capabilities w;
     Worker_AvailableConcurrency := Worker_AvailableConcurrency w; Worker_Health := Worker_Health w;
     Worker_HealthMessage := Worker_HealthMessage w; Worker_DispatchEnabled := enabled;
     Worker_RevokedAt := Worker_RevokedAt w; Worker_RevocationReason := Worker_RevocationReason w |}.

Definition SetScannerWorkerDispatchForWorker (id : string) (enabled : bool) : st IdentityDb () := fun s =>
  if negb (affected (active_worker id) (identity_workers s) =? 1) then (Err ErrNotFound, s)
  else (Ok tt, with_workers (update_where (active_worker id) (with_dispatch enabled) (identity_workers s)) s).

Definition SetScannerWorkerDispatch (enabled : bool) : st IdentityDb () := fun s =>
  let db := identity_db s in
  (Ok tt, {| identity_tokens := identity_tokens s;
             identity_db := {| db_workers := db_workers db; db_dispatch_enabled := enabled; db_jobs := db_jobs db;
                               db_assignments := db_assignments db; db_evidence := db_evidence db;
                               db_checkpoints := db_checkpoints db; db_dead_letters := db_dead_letters db;
                               db_scans := db_scans db |} |}).

(** * Enrollment *)

Definition port_ltb (a b : Z) : bool := a <? b.
Fixpoint deduplicate_from (last : option Z) (ports : list Z) : list Z :=
  match ports with
  | [] => []
  | p :: ports' => if bool_decide (last = Some p) then deduplicate_from last ports' else p :: deduplicate_from (Some p) ports'
  end.
Definition deduplicateWorkerPorts (ports : list Z) : list Z := deduplicate_from None ports.

(** The loop over the networks: the normalized ones so far, with the [seen] map
    as the set of their texts. *)
Definition normalize_cidr (acc : list string * gset string) (raw : string) : result (list string * gset string) :=
  match ParsePrefix (TrimSpace raw) with
  | None => Err "worker contains an invalid allowed network"
  | Some prefix =>
      let normalized := Prefix_String (Masked prefix) in
      if bool_decide (normalized ∈ acc.2) then Ok acc else Ok (acc.1 ++ [normalized], {[ normalized ]} ∪ acc.2)
  end.
Definition check_port (_ : ()) (port : Z) : result () :=
  if (port <? 1) || (65535 <? port) then Err "worker contains an invalid allowed port" else Ok tt.

Definition set_scope (request : WorkerEnrollmentToken) (site : string) (cidrs : list string) (ports : list Z) : WorkerEnrollmentToken :=
  {| Enrollment_ID := Enrollment_ID request; Enrollment_Name := Enrollment_Name request; Enrollment_SiteID := site;
     Enrollment_TokenHash := Enrollment_TokenHash request; Enrollment_AllowedCIDRs := cidrs; Enrollment_AllowedPorts := ports;
     Enrollment_MaxConcurrent := Enrollment_MaxConcurrent request;
     Enrollment_RateLimitPerSecond := Enrollment_RateLimitPerSecond request; Enrollment_CreatedBy := Enrollment_CreatedBy request;
     Enrollment_CreatedAt := Enrollment_CreatedAt request; Enrollment_ExpiresAt := Enrollment_ExpiresAt request |}.

(** The request it rewrites is returned. *)
Definition validateWorkerEnrollment (request : WorkerEnrollmentToken) : result WorkerEnrollmentToken :=
  reject bool_decide (Enrollment_Name request = ""%string) || (endpointNameLimit <? strlen (Enrollment_Name request))
    as "worker name must be between 1 and 200 characters";;
  let site := ToLower (TrimSpace (Enrollment_SiteID request)) in
  reject (workerSiteIDLimit <? strlen site) || (negb (bool_decide (site = ""%string)) && negb (re_match workerSiteIDPattern site))
    as "worker site ID must contain lowercase letters, numbers, and single hyphens";;
  reject bool_decide (Enrollment_AllowedCIDRs request = []) || bool_decide (Enrollment_AllowedPorts request = [])
    as "worker requires at least one allowed network and port";;
  cidrs ← for_each normalize_cidr ([], ∅) (Enrollment_AllowedCIDRs request);
  let ports := sort_slice port_ltb (Enrollment_AllowedPorts request) in
  try for_each check_port tt ports;;
  reject (Enrollment_MaxConcurrent request <? 1) || (maximumWorkerConcurrency <? Enrollment_MaxConcurrent request)
    as "worker concurrency must be between 1 and 256";;
  reject (Enrollment_RateLimitPerSecond request <? 0) || (maximumWorkerRate <? Enrollment_RateLimitPerSecond request)
    as "worker rate limit must be between 0 and 1000 checks per second";;
  Ok (set_scope request site cidrs.1 (deduplicateWorkerPorts ports)).

(** [CreateWorkerEnrollmentToken], with the identifier and token hash that
    [newEnrollmentToken] drew. *)
Definition CreateWorkerEnrollmentToken (request : WorkerEnrollmentToken) (actorID id hash : string) (now : Time)
  : st IdentityDb WorkerEnrollmentToken := fun s =>
  let named := {| Enrollment_ID := Enrollment_ID request; Enrollment_Name := TrimSpace (Enrollment_Name request);
                  Enrollment_SiteID := Enrollment_SiteID request; Enrollment_TokenHash := Enrollment_TokenHash request;
                  Enrollment_AllowedCIDRs := Enrollment_AllowedCIDRs request; Enrollment_AllowedPorts := Enrollment_AllowedPorts request;
                  Enrollment_MaxConcurrent := Enrollment_MaxConcurrent request;
                  Enrollment_RateLimitPerSecond := Enrollment_RateLimitPerSecond request;
                  Enrollment_CreatedBy := Enrollment_CreatedBy request; Enrollment_CreatedAt := Enrollment_CreatedAt request;
                  Enrollment_ExpiresAt := Enrollment_ExpiresAt request |} in
  match validateWorkerEnrollment named with
  | Err e => (Err e, s)
  | Ok r =>
      let token := {| Enrollment_ID := id; Enrollment_Name := Enrollment_Name r; Enrollment_SiteID := Enrollment_SiteID r;
                      Enrollment_TokenHash := hash; Enrollment_AllowedCIDRs := Enrollment_AllowedCIDRs r;
                      Enrollment_AllowedPorts := Enrollment_AllowedPorts r; Enrollment_MaxConcurrent := Enrollment_MaxConcurrent r;
                      Enrollment_RateLimitPerSecond := Enrollment_RateLimitPerSecond r; Enrollment_CreatedBy := actorID;
                      Enrollment_CreatedAt := now; Enrollment_ExpiresAt := Add now enrollmentTokenLifetime |} in
      (_ ⇐ InsertWorkerEnrollmentToken token;; st_ret token) s
  end.

Section enroll.
(** SHA-256, and the certificate authority: serial and expiry of the certificate
    it issues for a worker's identifier, name and request. *)
Context (Sum256 : string -> string) (IssueScannerWorker : string -> string -> string -> Time -> result (string * Time)).

Definition enrollmentTokenHash (token : string) : option string :=
  if negb (strlen token =? enrollmentTokenBytes * 2) then None
  else if bool_decide (hex_decoded_length token = None) then None
  else Some (Sum256 token).

Definition enrolled_worker (id serial : string) (enrollment : WorkerEnrollmentToken) (now expiresAt : Time) : ScannerWorker :=
  {| Worker_ID := id; Worker_Name := Enrollment_Name enrollment; Worker_SiteID := Enrollment_SiteID enrollment;
     Worker_Status := EndpointActive; Worker_CertificateSerial := serial;
     Worker_AllowedCIDRs := Enrollment_AllowedCIDRs enrollment; Worker_AllowedPorts := Enrollment_AllowedPorts enrollment;
     Worker_MaxConcurrent := Enrollment_MaxConcurrent enrollment;
     Worker_RateLimitPerSecond := Enrollment_RateLimitPerSecond enrollment; Worker_EnrolledAt := now; Worker_ExpiresAt := expiresAt;
     (* the remaining columns take their defaults *)
     Worker_LastSeenAt := None; Worker_SoftwareVersion := ""; Worker_OperatingSystem := ""; Worker_Architecture := "";
     Worker_Capabilities := []; Worker_AvailableConcurrency := 0; Worker_Health := WorkerHealthHealthy; Worker_HealthMessage := "";
     Worker_DispatchEnabled := true; Worker_RevokedAt := None; Worker_RevocationReason := "" |}.

(** [EnrollWorker], with the random identifier; the worker of the result. *)
Definition EnrollWorker (token csrPEM id : string) (now : Time) : st IdentityDb ScannerWorker := fun s =>
  match enrollmentTokenHash token with
  | None => (Err ErrInvalidEnrollmentToken, s)
  | Some hash =>
      match WorkerEnrollmentToken_ hash now s with
      | Err _ => (Err ErrInvalidEnrollmentToken, s)
      | Ok enrollment =>
          match IssueScannerWorker id (Enrollment_Name enrollment) csrPEM now with
          | Err e => (Err e, s)
          | Ok (serial, expiresAt) =>
              let worker := enrolled_worker id serial enrollment now expiresAt in
              (_ ⇐ ConsumeWorkerEnrollmentToken hash worker now;; st_ret worker) s
          end
      end
  end.
End enroll.

(** * Heartbeats *)

Definition allowed_capabilities : list WorkerCapability :=
  [WorkerCapabilityTCPConnect; WorkerCapabilityServiceIdentification; WorkerCapabilityHTTP; WorkerCapabilityTLS; WorkerCapabilitySSH].
Definition normalize_capability (acc : list WorkerCapability * gset string) (c : WorkerCapability)
  : result (list WorkerCapability * gset string) :=
  reject negb (bool_decide (c ∈ allowed_capabilities)) as "scanner worker reported an unsupported capability";;
  if bool_decide (c ∈ acc.2) then Ok acc else Ok (acc.1 ++ [c], {[ c ]} ∪ acc.2).
Definition normalizedWorkerCapabilities (values : list WorkerCapability) : result (list WorkerCapability) :=
  acc ← for_each normalize_capability ([], ∅) values;
  reject bool_decide (acc.1 = []) as "scanner worker must report at least one capability";;
  Ok (sort_slice str_ltb acc.1).

(** The heartbeat it rewrites is returned. *)
Definition validateWorkerHeartbeat (h : WorkerHeartbeat) (maximumConcurrency : Z) : result WorkerHeartbeat :=
  let version := TrimSpace (Heartbeat_SoftwareVersion h) in
  let os := ToLower (TrimSpace (Heartbeat_OperatingSystem h)) in
  let architecture := ToLower (TrimSpace (Heartbeat_Architecture h)) in
  let message := TrimSpace (Heartbeat_HealthMessage h) in
  reject negb (Heartbeat_SchemaVersion h =? workerHeartbeatSchema) as "unsupported scanner-worker heartbeat schema";;
  reject bool_decide (version = ""%string) || (workerHeartbeatTextLimit <? strlen version)
    as "scanner-worker software version is invalid";;
  reject negb (bool_decide (os = "linux"%string)) && negb (bool_decide (os = "windows"%string))
    as "scanner-worker operating system is unsupported";;
  reject negb (bool_decide (architecture = "amd64"%string)) && negb (bool_decide (architecture = "arm64"%string))
    as "scanner-worker architecture is unsupported";;
  reject (Heartbeat_AvailableConcurrency h <? 0) || (maximumConcurrency <? Heartbeat_AvailableConcurrency h)
    as "scanner-worker available concurrency exceeds its assigned limit";;
  reject negb (bool_decide (Heartbeat_Health h = WorkerHealthHealthy)) && negb (bool_decide (Heartbeat_Health h = WorkerHealthDegraded))
    as "scanner-worker health state is invalid";;
  reject (workerHealthMessageLimit <? strlen message) ||
         (bool_decide (Heartbeat_Health h = WorkerHealthDegraded) && bool_decide (message = ""%string))
    as "degraded scanner-worker health requires a bounded message";;
  capabilities ← normalizedWorkerCapabilities (Heartbeat_Capabilities h);
  Ok {| Heartbeat_SchemaVersion := Heartbeat_SchemaVersion h; Heartbeat_SoftwareVersion := version;
        Heartbeat_OperatingSystem := os; Heartbeat_Architecture := architecture; Heartbeat_Capabilities := capabilities;
        Heartbeat_AvailableConcurrency := Heartbeat_AvailableConcurrency h; Heartbeat_Health := Heartbeat_Health h;
        Heartbeat_HealthMessage := message |}.

(** The client certificate of a connection: serial number and URIs. *)
Definition workerFromConnection (certificate : option (string * list string)) (now : Time) (s : IdentityDb) : result ScannerWorker :=
  match certificate with
  | None => Err "scanner-worker certificate missing"
  | Some (serial, uris) =>
      match ScannerWorkerBySerial serial s with
      | Err _ => Err "scanner-worker certificate is not active"
      | Ok worker =>
          reject negb (bool_decide (Worker_Status worker = EndpointActive)) || negb (Before now (Worker_ExpiresAt worker))
            as "scanner-worker certificate is not active";;
          reject negb (existsb (fun uri => bool_decide (uri = "spiffe://mossward/scanner-worker/" +:+ Worker_ID worker)) uris)
            as "scanner-worker certificate identity mismatch";;
          Ok worker
      end
  end.

(** [workerCheckIn] on a decoded heartbeat. *)
Definition workerCheckIn (certificate : option (string * list string)) (heartbeat : WorkerHeartbeat) (now : Time)
  : st IdentityDb () := fun s =>
  match workerFromConnection certificate now s with
  | Err e => (Err e, s)
  | Ok worker =>
      match validateWorkerHeartbeat heartbeat (Worker_MaxConcurrent worker) with
      | Err e => (Err e, s)
      | Ok h => RecordScannerWorkerHeartbeat (Worker_ID worker) h now s
      end
  end.

Definition RevokeScannerWorker (id reason : string) (now : Time) : st IdentityDb () := fun s =>
  let reason := TrimSpace reason in
  if bool_decide (reason = ""%string) || (revocationReasonLimit <? strlen reason)
  then (Err "revocation reason must be between 1 and 500 characters", s)
  else RevokeScannerWorkerRow id reason now s.

(** * The fleet view *)

Definition WorkerFleetState := string.
Definition WorkerFleetHealthy : WorkerFleetState := "healthy".
Definition WorkerFleetDegraded : WorkerFleetState := "degraded".
Definition WorkerFleetOffline : WorkerFleetState := "offline".
Definition WorkerFleetOutdated : WorkerFleetState := "outdated".
Definition WorkerFleetOverloaded : WorkerFleetState := "overloaded".
Definition WorkerFleetRevoked : WorkerFleetState := "revoked".

Record EndpointAlert := { Alert_Code : string; Alert_Severity : string; Alert_Message : string }.
(** A listed worker with its computed columns. *)
Record FleetWorker := {
  Fleet_Worker : ScannerWorker;
  Fleet_ActiveJobs : Z;
  Fleet_ReservedConcurrency : Z;
  Fleet_Alerts : list EndpointAlert;
  Fleet_State : WorkerFleetState }.

Definition parse_part (part : string) : option Z :=
  parsed ← ParseInt64 part; if parsed <? 0 then None else Some parsed.
Definition parseWorkerVersion (value : string) : option (Z * Z * Z) :=
  match split_byte "." (TrimPrefix (TrimSpace value) "v") with
  | [a; b; c] => a ← parse_part a; b ← parse_part b; c ← parse_part c; Some (a, b, c)
  | _ => None
  end.
Definition workerVersionBefore (current minimum : string) : bool :=
  match parseWorkerVersion current with
  | None => true
  | Some (a, b, c) =>
      let '(a', b', c') := default (0, 0, 0) (parseWorkerVersion minimum) in
      if negb (a =? a') then a <? a' else if negb (b =? b') then b <? b' else if negb (c =? c') then c <? c' else false
  end.

Definition worker_offline (w : ScannerWorker) (now : Time) : bool :=
  match Worker_LastSeenAt w with None => true | Some seen => workerOfflineAfter <=? Sub now seen end.

Definition scannerWorkerFleetState (w : ScannerWorker) (activeJobs : Z) (now : Time) : WorkerFleetState :=
  if bool_decide (Worker_Status w = EndpointRevoked) || negb (Before now (Worker_ExpiresAt w)) then WorkerFleetRevoked
  else if worker_offline w now then WorkerFleetOffline
  else if workerVersionBefore (Worker_SoftwareVersion w) minimumSupportedWorkerVersion then WorkerFleetOutdated
  else if (0 <? activeJobs) && (Worker_AvailableConcurrency w =? 0) then WorkerFleetOverloaded
  else if bool_decide (Worker_Health w = WorkerHealthDegraded) then WorkerFleetDegraded
  else WorkerFleetHealthy.

Definition alert (code severity message : string) : EndpointAlert :=
  {| Alert_Code := code; Alert_Severity := severity; Alert_Message := message |}.
Definition scannerWorkerAlerts (w : ScannerWorker) (activeJobs : Z) (now : Time) : list EndpointAlert :=
  if bool_decide (Worker_Status w = EndpointRevoked)
  then [alert "certificate_revoked" "error" "Scanner-worker certificate is revoked"]
  else if negb (Before now (Worker_ExpiresAt w))
  then [alert "certificate_expired" "error" "Scanner-worker certificate has expired"]
  else
    (if negb (Before now (Add (Worker_ExpiresAt w) (- certificateRenewBefore)))
     then [alert "certificate_expiring" "warning" "Scanner-worker certificate expires within 30 days"] else []) ++
    (if worker_offline w now
     then [alert "worker_offline" "warning" "Scanner worker has not checked in within 5 minutes"] else []) ++
    (if workerVersionBefore (Worker_SoftwareVersion w) minimumSupportedWorkerVersion
     then [alert "worker_outdated" "warning" ("Scanner worker is below the minimum supported version " +:+ minimumSupportedWorkerVersion)]
     else []) ++
    (if (0 <? activeJobs) && (Worker_AvailableConcurrency w =? 0)
     then [alert "worker_overloaded" "warning" "Scanner worker has active jobs and no available concurrency"] else []) ++
    (if bool_decide (Worker_Health w = WorkerHealthDegraded)
     then [alert "worker_degraded" "warning" (Worker_HealthMessage w)] else []).

Definition fleet_worker (loads : gmap string WorkerJobLoad) (now : Time) (w : ScannerWorker) : FleetWorker :=
  let load := Dispatcher.load_of loads (Worker_ID w) in
  {| Fleet_Worker := w; Fleet_ActiveJobs := Load_ActiveJobs load; Fleet_ReservedConcurrency := Load_ReservedConcurrency load;
     Fleet_Alerts := scannerWorkerAlerts w (Load_ActiveJobs load) now;
     Fleet_State := scannerWorkerFleetState w (Load_ActiveJobs load) now |}.
Definition ScannerWorkers (now : Time) (s : IdentityDb) : result (list FleetWorker) :=
  match ListScannerWorkers (identity_db s) with
  | Err e => Err e
  | Ok workers =>
      match ScannerWorkerJobLoads now (identity_db s) with
      | Err e => Err e
      | Ok loads => Ok (fleet_worker loads now <$> workers)
      end
  end.
