(* ===== verification/WorkerIdentitySafety.v ===== *)
(** The worker inventory's contract: its invariant, single-use enrollment
    tokens, final revocation, and the fleet view against dispatch. *)
From Stdlib Require Import ZArith Lia String Ascii.
From stdpp Require Import base tactics list strings gmap sets sorting.
From S2P Require Import Prelude GoStrings GoTime GoRegex Netip WorkerModel WorkerJob Dispatcher Sql WorkerStore WorkerDispatch WorkerIdentity.
Open Scope Z_scope.

Inductive identity_op :=
| OpCreateToken (request : WorkerEnrollmentToken) (actorID id hash : string) (now : Time)
| OpEnroll (token csrPEM id : string) (now : Time)
| OpCheckIn (certificate : option (string * list string)) (heartbeat : WorkerHeartbeat) (now : Time)
| OpRevoke (id reason : string) (now : Time)
| OpDispatch (enabled : bool)
| OpDispatchWorker (id : string) (enabled : bool).

(** * Normalized data *)

Lemma deduplicate_spec last ports :
  StronglySorted Z.le (option_list last ++ ports) ->
  StronglySorted Z.lt (option_list last ++ deduplicate_from last ports) /\
  forall p, p ∈ option_list last ++ deduplicate_from last ports <-> p ∈ option_list last ++ ports.
Proof.
  revert last. induction ports as [|p ports IH]; intros last Hs.
  { simpl. rewrite app_nil_r in *. split; [|done]. destruct last; simpl; repeat constructor. }
  simpl. case_bool_decide as E.
  - subst last. simpl in *. inversion Hs as [|?? Hs' Hf]; subst. apply (IH (Some p)) in Hs' as [H1 H2]. split; [done|].
    intros q. rewrite H2. simpl. set_solver.
  - assert (Hsp : StronglySorted Z.le (option_list (Some p) ++ ports)) by (destruct last; simpl in *; [by inversion Hs|done]).
    apply (IH (Some p)) in Hsp as [H1 H2]. simpl in *. destruct last as [x|]; simpl in *; [|by split].
    inversion Hs as [|?? _ Hf]; subst. rewrite Forall_forall in Hf. split.
    + constructor; [done|]. apply Forall_forall. intros q Hq.
      assert (Hx : x < p) by (specialize (Hf p ltac:(by left)); assert (x <> p) by congruence; lia).
      inversion H1 as [|?? _ Hg]; subst. rewrite Forall_forall in Hg. apply elem_of_cons in Hq as [->|Hq]; [done|].
      specialize (Hg q Hq). lia.
    + intros q. specialize (H2 q). set_solver.
Qed.

#[export] Instance port_ltb_weak : StrictWeak port_ltb.
Proof. unfold port_ltb. split; intros; rewrite ?Z.ltb_lt, ?Z.ltb_ge in *; lia. Qed.

Lemma sorted_ports ports : StronglySorted Z.le (sort_slice port_ltb ports).
Proof.
  pose proof (sort_slice_ordered port_ltb ports) as H. unfold ordered in H.
  induction H as [|p l _ IH Hf]; constructor; [done|]. eapply Forall_impl; [exact Hf|].
  unfold port_ltb. intros q Hq. apply Z.ltb_ge in Hq. done.
Qed.

Lemma check_ports ports : is_ok (for_each check_port tt ports) = true <-> Forall (fun p => 1 <= p <= 65535) ports.
Proof.
  induction ports as [|p ports IH]; simpl; [split; [constructor|done]|].
  assert (Hc : check_port tt p = Ok tt <-> 1 <= p <= 65535).
  { unfold check_port. case_if; [|reflect_bools; split; [lia|done]].
    split; [done|]. apply orb_true_iff in E as [E|E]; apply Z.ltb_lt in E; lia. }
  rewrite Forall_cons, <- IH, <- Hc. destruct (check_port tt p) as [[]|e]; simpl; naive_solver.
Qed.

(** What [validateWorkerEnrollment] guarantees. *)
Record enrollment_ok (e : WorkerEnrollmentToken) : Prop := {
  ok_name : 1 <= strlen (Enrollment_Name e) <= endpointNameLimit;
  ok_site : Enrollment_SiteID e = ""%string \/ re_lang workerSiteIDPattern (Enrollment_SiteID e);
  ok_ports : Enrollment_AllowedPorts e <> [] /\ StronglySorted Z.lt (Enrollment_AllowedPorts e) /\
             Forall (fun p => 1 <= p <= 65535) (Enrollment_AllowedPorts e);
  ok_networks : Enrollment_AllowedCIDRs e <> [] /\ NoDup (Enrollment_AllowedCIDRs e) /\
    Forall (fun raw => exists p, raw = Prefix_String (Masked p)) (Enrollment_AllowedCIDRs e);
  ok_concurrency : 1 <= Enrollment_MaxConcurrent e <= maximumWorkerConcurrency;
  ok_rate : 0 <= Enrollment_RateLimitPerSecond e <= maximumWorkerRate }.

Lemma normalize_cidrs raws acc acc' :
  for_each normalize_cidr acc raws = Ok acc' -> (forall s, s ∈ acc.2 <-> s ∈ acc.1) -> NoDup acc.1 ->
  Forall (fun raw => exists p, raw = Prefix_String (Masked p)) acc.1 ->
  NoDup acc'.1 /\ Forall (fun raw => exists p, raw = Prefix_String (Masked p)) acc'.1 /\
  (acc.1 <> [] \/ raws <> [] -> acc'.1 <> []).
Proof.
  revert acc. induction raws as [|raw raws IH]; intros acc H Hs Hnd Hf; simpl in H.
  { injection H as <-. split_and!; [done..|]. intros [?|?]; done. }
  apply bind_ok in H as (acc1 & H1 & H). unfold normalize_cidr in H1. destruct (ParsePrefix _) as [p|]; [|done].
  case_bool_decide as Hin; injection H1 as <-.
  - destruct (IH acc H Hs Hnd Hf) as (H1 & H2 & H3). split_and!; [done..|]. intros _. apply H3. left.
    intros E. apply Hs in Hin. rewrite E in Hin. by apply not_elem_of_nil in Hin.
  - destruct (IH _ H) as (H1 & H2 & H3); simpl.
    + intros s. rewrite elem_of_union, elem_of_singleton, elem_of_app, list_elem_of_singleton, Hs. tauto.
    + apply NoDup_app. split_and!; [done| |apply NoDup_singleton]. intros s Hs1 Hs2%list_elem_of_singleton. subst. by apply Hin, Hs.
    + apply Forall_app. split; [done|]. apply Forall_singleton. by eexists.
    + split_and!; [done..|]. intros _. apply H3. left. simpl. by destruct acc.1.
Qed.

Lemma validateWorkerEnrollment_ok request e :
  validateWorkerEnrollment request = Ok e -> enrollment_ok e /\
  Enrollment_Name e = Enrollment_Name request /\ Enrollment_MaxConcurrent e = Enrollment_MaxConcurrent request /\
  Enrollment_RateLimitPerSecond e = Enrollment_RateLimitPerSecond request /\
  (forall p, p ∈ Enrollment_AllowedPorts e <-> p ∈ Enrollment_AllowedPorts request).
Proof.
  unfold validateWorkerEnrollment. intros H. apply reject_ok in H as [E1 H]. apply reject_ok in H as [E2 H].
  apply reject_ok in H as [E3 H]. apply bind_ok in H as (cidrs & Hc & H). apply try_ok in H as [Hp H].
  apply reject_ok in H as [E4 H]. apply reject_ok in H as [E5 [= <-]].
  apply check_ports in Hp. apply normalize_cidrs in Hc as (Hc1 & Hc2 & Hc3); [|simpl; set_solver|constructor|constructor].
  pose proof (deduplicate_spec None _ (sorted_ports (Enrollment_AllowedPorts request))) as [Hd1 Hd2]. simpl in Hd1, Hd2.
  assert (Hset : forall p, p ∈ deduplicateWorkerPorts (sort_slice port_ltb (Enrollment_AllowedPorts request)) <->
                           p ∈ Enrollment_AllowedPorts request).
  { intros p. unfold deduplicateWorkerPorts. by rewrite Hd2, elem_of_sort_slice. }
  reflect_bools. split; [|by split_and!]. split; simpl.
  - unfold strlen in *. destruct (Enrollment_Name request); [done|]. simpl in *. lia.
  - match goal with H : _ && _ = false |- _ => apply andb_false_iff in H as [H|H]; reflect_bools; [by left|right] end.
    by apply re_match_correct.
  - split_and!; [|done|].
    + intros En. destruct (Enrollment_AllowedPorts request) as [|p ports] eqn:Ep; [done|].
      assert (Hin : p ∈ deduplicateWorkerPorts (sort_slice port_ltb (p :: ports))) by (apply Hset; by left).
      rewrite En in Hin. by apply not_elem_of_nil in Hin.
    + apply Forall_forall. intros p Hin. rewrite Forall_forall in Hp. apply Hp. by apply elem_of_sort_slice, Hset.
  - split_and!; [apply Hc3; by right|done|done].
  - done.
  - done.
Qed.

(** ** Capabilities *)

Lemma normalize_capabilities values acc acc' :
  for_each normalize_capability acc values = Ok acc' -> (forall s, s ∈ acc.2 <-> s ∈ acc.1) -> NoDup acc.1 ->
  Forall (fun c => c ∈ allowed_capabilities) acc.1 ->
  NoDup acc'.1 /\ Forall (fun c => c ∈ allowed_capabilities) acc'.1 /\ (forall c, c ∈ acc'.1 <-> c ∈ acc.1 \/ c ∈ values).
Proof.
  revert acc. induction values as [|c values IH]; intros acc H Hs Hnd Hf; simpl in H.
  { injection H as <-. split_and!; [done..|]. intros c. rewrite elem_of_nil. tauto. }
  apply bind_ok in H as (acc1 & H1 & H). unfold normalize_capability in H1. apply reject_ok in H1 as [Ea H1].
  reflect_bools. case_bool_decide as Hin; injection H1 as <-.
  - destruct (IH acc H Hs Hnd Hf) as (H1 & H2 & H3). split_and!; [done..|]. intros c'. rewrite H3, elem_of_cons.
    split; [tauto|]. intros [?|[->|?]]; auto. left. by apply Hs.
  - destruct (IH _ H) as (H1 & H2 & H3); simpl.
    + intros s. rewrite elem_of_union, elem_of_singleton, elem_of_app, list_elem_of_singleton, Hs. tauto.
    + apply NoDup_app. split_and!; [done| |apply NoDup_singleton]. intros s Hs1 Hs2%list_elem_of_singleton. subst. by apply Hin, Hs.
    + apply Forall_app. split; [done|]. by apply Forall_singleton.
    + split_and!; [done..|]. intros c'. rewrite H3. simpl. rewrite elem_of_app, list_elem_of_singleton, elem_of_cons. tauto.
Qed.

(** Supported capabilities, each once, in byte order. *)
Definition capabilities_ok (cs : list WorkerCapability) : Prop :=
  NoDup cs /\ Forall (fun c => c ∈ allowed_capabilities) cs /\ ordered str_ltb cs.

Lemma normalizedWorkerCapabilities_ok values cs :
  normalizedWorkerCapabilities values = Ok cs -> capabilities_ok cs /\ cs <> [] /\ forall c, c ∈ cs <-> c ∈ values.
Proof.
  unfold normalizedWorkerCapabilities. intros H. apply bind_ok in H as (acc & Ha & H).
  apply reject_ok in H as [E [= <-]]. reflect_bools.
  apply normalize_capabilities in Ha as (H1 & H2 & H3); [|simpl; set_solver|constructor|constructor].
  split; [split_and!|split].
  - by rewrite sort_slice_perm.
  - apply Forall_forall. intros c. rewrite elem_of_sort_slice. rewrite Forall_forall in H2. apply H2.
  - apply sort_slice_ordered, _.
  - by rewrite sort_slice_nil.
  - intros c. rewrite elem_of_sort_slice, H3. simpl. rewrite elem_of_nil. tauto.
Qed.

Lemma validateWorkerHeartbeat_ok h maximum h' :
  validateWorkerHeartbeat h maximum = Ok h' ->
  capabilities_ok (Heartbeat_Capabilities h') /\ 0 <= Heartbeat_AvailableConcurrency h' <= maximum.
Proof.
  unfold validateWorkerHeartbeat. intros H. do 7 apply reject_ok in H as [? H]. apply bind_ok in H as (cs & Hc & [= <-]).
  apply normalizedWorkerCapabilities_ok in Hc as (Hc & _). reflect_bools. simpl. split; [done|lia].
Qed.

(** * The invariant *)

Record worker_ok (w : ScannerWorker) : Prop := {
  worker_concurrency : 1 <= Worker_MaxConcurrent w <= maximumWorkerConcurrency;
  worker_rate : 0 <= Worker_RateLimitPerSecond w <= maximumWorkerRate;
  worker_available : 0 <= Worker_AvailableConcurrency w <= Worker_MaxConcurrent w;
  worker_capabilities : capabilities_ok (Worker_Capabilities w);
  worker_ports : Worker_AllowedPorts w <> [] /\ StronglySorted Z.lt (Worker_AllowedPorts w) /\
                 Forall (fun p => 1 <= p <= 65535) (Worker_AllowedPorts w);
  worker_networks : Worker_AllowedCIDRs w <> [] /\ NoDup (Worker_AllowedCIDRs w) /\
    Forall (fun raw => exists p, raw = Prefix_String (Masked p)) (Worker_AllowedCIDRs w);
  worker_status : Worker_Status w = EndpointActive /\ Worker_RevokedAt w = None \/
                  Worker_Status w = EndpointRevoked /\ is_Some (Worker_RevokedAt w) }.

Record identity_ok (s : IdentityDb) : Prop := {
  tokens_distinct : NoDup (Enrollment_TokenHash ∘ token_enrollment <$> identity_tokens s);
  tokens_ok : Forall (fun r => enrollment_ok (token_enrollment r)) (identity_tokens s);
  workers_distinct : NoDup (Worker_ID <$> identity_workers s) /\ NoDup (Worker_CertificateSerial <$> identity_workers s);
  workers_ok : Forall worker_ok (identity_workers s) }.

Section identity.
Context (Sum256 : string -> string) (IssueScannerWorker : string -> string -> string -> Time -> result (string * Time)).

Definition run_identity (op : identity_op) (s : IdentityDb) : IdentityDb :=
  match op with
  | OpCreateToken request actorID id hash now => (CreateWorkerEnrollmentToken request actorID id hash now s).2
  | OpEnroll token csr id now => (EnrollWorker Sum256 IssueScannerWorker token csr id now s).2
  | OpCheckIn certificate heartbeat now => (workerCheckIn certificate heartbeat now s).2
  | OpRevoke id reason now => (RevokeScannerWorker id reason now s).2
  | OpDispatch enabled => (SetScannerWorkerDispatch enabled s).2
  | OpDispatchWorker id enabled => (SetScannerWorkerDispatchForWorker id enabled s).2
  end.
Definition run_identities (ops : list identity_op) (s : IdentityDb) : IdentityDb := fold_left (fun s op => run_identity op s) ops s.

Lemma identity_ok_update (p : ScannerWorker -> bool) f s :
  identity_ok s -> (forall w, Worker_ID (f w) = Worker_ID w) -> (forall w, Worker_CertificateSerial (f w) = Worker_CertificateSerial w) ->
  (forall w, w ∈ identity_workers s -> p w = true -> worker_ok w -> worker_ok (f w)) ->
  identity_ok (with_workers (update_where p f (identity_workers s)) s).
Proof.
  intros [Ht1 Ht2 [Hw1 Hw2] Hw] Hid Hserial Hok. split; [done|done| |].
  - unfold identity_workers, with_workers. simpl. by rewrite !update_where_key.
  - unfold identity_workers at 1. simpl. rewrite Forall_forall in *. intros w' (w & Hin & ->)%elem_of_update_where.
    destruct (p w) eqn:E; auto.
Qed.

Lemma create_token_ok request actorID id hash now s :
  identity_ok s -> identity_ok (CreateWorkerEnrollmentToken request actorID id hash now s).2.
Proof.
  intros Hs. unfold CreateWorkerEnrollmentToken. destruct (validateWorkerEnrollment _) as [r|] eqn:Ev; [|done].
  apply validateWorkerEnrollment_ok in Ev as [[] _]. unfold st_bind, InsertWorkerEnrollmentToken. case_if; [done|]. simpl.
  reflect_bools. simpl in *. destruct Hs as [Ht1 Ht2 Hw1 Hw2]. split; simpl; [| |done|done].
  - rewrite fmap_app. apply NoDup_app. split_and!; [done| |apply NoDup_singleton].
    intros h Hh Hh'%list_elem_of_singleton. subst h. done.
  - apply Forall_app. split; [done|]. apply Forall_singleton. by split.
Qed.

(** [EnrollWorker] when it succeeds. *)
Lemma enroll_inv token csr id now s w s' :
  EnrollWorker Sum256 IssueScannerWorker token csr id now s = (Ok w, s') ->
  exists hash r serial expiresAt, enrollmentTokenHash Sum256 token = Some hash /\
    r ∈ identity_tokens s /\ usable hash (formatTime now) r = true /\
    w = enrolled_worker id serial (token_enrollment r) now expiresAt /\
    (id ∉ Worker_ID <$> identity_workers s) /\ (serial ∉ Worker_CertificateSerial <$> identity_workers s) /\
    s' = with_workers (identity_workers s ++ [w])
           (with_tokens (update_where (usable hash (formatTime now)) (use_token (formatTime now)) (identity_tokens s)) s).
Proof.
  unfold EnrollWorker. destruct (enrollmentTokenHash Sum256 token) as [hash|] eqn:Eh; [|done].
  unfold WorkerEnrollmentToken_. destruct (query_row _ (identity_tokens s)) as [r|] eqn:Eq; [|done].
  apply query_row_Some in Eq as [Hr Hu].
  destruct (IssueScannerWorker id (Enrollment_Name (token_enrollment r)) csr now) as [[serial expiresAt]|]; [|done].
  unfold st_bind, ConsumeWorkerEnrollmentToken. case_if; [done|]. case_if; [done|]. intros [= <- <-].
  reflect_bools. exists hash, r, serial, expiresAt. by split_and!.
Qed.

Lemma enroll_err token csr id now s e s' : EnrollWorker Sum256 IssueScannerWorker token csr id now s = (Err e, s') -> s' = s.
Proof.
  unfold EnrollWorker. destruct (enrollmentTokenHash Sum256 token) as [hash|]; [|naive_solver].
  destruct (WorkerEnrollmentToken_ hash now s) as [r|]; [|naive_solver].
  destruct (IssueScannerWorker _ _ _ _) as [[serial expiresAt]|]; [|naive_solver].
  unfold st_bind, ConsumeWorkerEnrollmentToken. repeat (case_if; [naive_solver|]). done.
Qed.

Lemma enroll_ok token csr id now s : identity_ok s -> identity_ok (EnrollWorker Sum256 IssueScannerWorker token csr id now s).2.
Proof.
  intros Hs. destruct (EnrollWorker _ _ _ _ _ _ s) as [[w|e] s'] eqn:E; [|by apply enroll_err in E as ->].
  apply enroll_inv in E as (hash & r & serial & expiresAt & _ & Hr & _ & -> & Hid & Hserial & ->).
  destruct Hs as [Ht1 Ht2 [Hw1 Hw2] Hw]. rewrite Forall_forall in Ht2. destruct (Ht2 r Hr). split; simpl.
  - by rewrite update_where_key.
  - apply Forall_forall. intros r' (r0 & Hin & ->)%elem_of_update_where. destruct (usable _ _ r0); simpl; by apply Ht2.
  - unfold identity_workers in *. simpl. rewrite !fmap_app. split; apply NoDup_app; split_and!; try done; try apply NoDup_singleton;
      intros x Hx Hx'%list_elem_of_singleton; simpl in Hx'; subst x; done.
  - unfold identity_workers. simpl. apply Forall_app. split; [done|]. apply Forall_singleton.
    split; simpl; try done; [lia|repeat constructor|by left].
Qed.

Lemma check_in_ok certificate heartbeat now s : identity_ok s -> identity_ok (workerCheckIn certificate heartbeat now s).2.
Proof.
  intros Hs. unfold workerCheckIn. destruct (workerFromConnection certificate now s) as [w|] eqn:Ew; [|done].
  destruct (validateWorkerHeartbeat heartbeat (Worker_MaxConcurrent w)) as [h|] eqn:Eh; [|done].
  apply validateWorkerHeartbeat_ok in Eh as [Hc Ha]. unfold RecordScannerWorkerHeartbeat. case_if; [done|]. case_if; [done|].
  simpl. apply identity_ok_update; [done..|]. intros w' Hin Hp [].
  assert (w' = w) as ->; [|by split].
  assert (Hw : w ∈ identity_workers s).
  { unfold workerFromConnection in Ew. destruct certificate as [[serial uris]|]; [|done]. unfold ScannerWorkerBySerial in Ew.
    destruct (query_row _ _) as [w0|] eqn:Eq; [|done]. apply reject_ok in Ew as [_ Ew]. apply reject_ok in Ew as [_ [= <-]].
    by apply query_row_Some in Eq as [? _]. }
  destruct Hs as [_ _ [Hnd _] _]. unfold active_worker in Hp. reflect_bools.
  apply list_elem_of_lookup_1 in Hin as [i Hi], Hw as [j Hj]. assert (i = j) as ->; [|congruence].
  eapply NoDup_lookup; [exact Hnd| |]; rewrite list_lookup_fmap; [by rewrite Hi|rewrite Hj; simpl; congruence].
Qed.

Lemma run_identity_ok op s : identity_ok s -> identity_ok (run_identity op s).
Proof.
  intros Hs. destruct op as [request actorID id hash now|token csr id now|certificate heartbeat now|id reason now|enabled|id enabled]; simpl.
  - by apply create_token_ok.
  - by apply enroll_ok.
  - by apply check_in_ok.
  - unfold RevokeScannerWorker, RevokeScannerWorkerRow. case_if; [done|]. case_if; [done|]. simpl.
    apply identity_ok_update; [done..|]. intros w _ _ []. split; try done. right. by split; [|eexists].
  - destruct Hs as [H1 H2 H3 H4]. by split.
  - unfold SetScannerWorkerDispatchForWorker. case_if; [done|]. simpl. apply identity_ok_update; [done..|]. by intros w _ _ [].
Qed.

Lemma run_identities_ok ops s : identity_ok s -> identity_ok (run_identities ops s).
Proof. revert s. induction ops as [|op ops IH]; intros s Hs; [done|]. by apply IH, run_identity_ok. Qed.
End identity.

(** * Properties *)

(** Whatever tokens are created, workers enrolled, heartbeats taken and
    workers revoked: identifiers and certificate serials stay distinct, limits
    stay in range, every worker's networks are masked and distinct, its ports
    sorted, distinct and in range, its reported capabilities supported, sorted
    and distinct, its free concurrency within its limit, and it has a
    revocation time exactly when it is revoked. *)
Theorem identity_invariant (Sum256 : string -> string) (IssueScannerWorker : string -> string -> string -> Time -> result (string * Time))
  (ops : list identity_op) (s : IdentityDb) (Hs : identity_ok s) :
  identity_ok (run_identities Sum256 IssueScannerWorker ops s).
Proof. by apply run_identities_ok. Qed.

Section used.
Context (Sum256 : string -> string) (IssueScannerWorker : string -> string -> string -> Time -> result (string * Time)).

(** The token with this hash was used. *)
Definition token_used (hash : string) (s : IdentityDb) : Prop :=
  exists r, r ∈ identity_tokens s /\ Enrollment_TokenHash (token_enrollment r) = hash /\ is_Some (token_used_at r).

Lemma token_used_with_workers hash workers s : token_used hash (with_workers workers s) <-> token_used hash s.
Proof. done. Qed.

Lemma token_used_step hash op s : token_used hash s -> token_used hash (run_identity Sum256 IssueScannerWorker op s).
Proof.
  intros Hu. pose proof Hu as (r & Hr & Hh & Hused).
  destruct op as [request actorID id h now|token csr id now|certificate heartbeat now|id reason now|enabled|id enabled]; simpl.
  - unfold CreateWorkerEnrollmentToken. destruct (validateWorkerEnrollment _) as [e|]; [|done].
    unfold st_bind, InsertWorkerEnrollmentToken. case_if; [done|]. simpl. exists r. split; [|done]. apply elem_of_app. by left.
  - destruct (EnrollWorker _ _ _ _ _ _ s) as [[w|e] s'] eqn:E; [|by apply enroll_err in E as ->].
    apply enroll_inv in E as (h & r0 & serial & expiresAt & _ & _ & _ & _ & _ & _ & ->). simpl.
    exists (if usable h (formatTime now) r then use_token (formatTime now) r else r).
    split; [apply elem_of_update_where; eauto|]. destruct (usable _ _ r); [|done]. simpl. by split; [|eexists].
  - unfold workerCheckIn. destruct (workerFromConnection _ _ _); [|done]. destruct (validateWorkerHeartbeat _ _); [|done].
    unfold RecordScannerWorkerHeartbeat. case_if; [done|]. by case_if.
  - unfold RevokeScannerWorker, RevokeScannerWorkerRow. case_if; [done|]. by case_if.
  - done.
  - unfold SetScannerWorkerDispatchForWorker. by case_if.
Qed.

Lemma token_used_steps hash ops s : token_used hash s -> token_used hash (run_identities Sum256 IssueScannerWorker ops s).
Proof. revert s. induction ops as [|op ops IH]; intros s Hs; [done|]. by apply IH, token_used_step. Qed.

Lemma token_used_unusable hash now s r :
  identity_ok s -> token_used hash s -> r ∈ identity_tokens s -> usable hash now r = false.
Proof.
  intros [Hnd _ _ _] (r0 & Hr0 & Hh & [t Ht]) Hr. apply not_true_iff_false. unfold usable. intros Hu. reflect_bools.
  assert (r = r0) as ->; [|congruence].
  apply list_elem_of_lookup_1 in Hr as [i Hi], Hr0 as [j Hj]. assert (i = j) as ->; [|congruence].
  eapply NoDup_lookup; [exact Hnd| |]; rewrite list_lookup_fmap; [by rewrite Hi|rewrite Hj; simpl; congruence].
Qed.
End used.

(** An enrollment token enrolls one worker: after it was used, enrolling with
    it fails forever, whatever request, identifier or time it comes with; the
    worker it enrolled has exactly the scope and limits the token was created
    with. *)
Theorem token_enrolls_once (Sum256 : string -> string) (IssueScannerWorker : string -> string -> string -> Time -> result (string * Time))
  (token csr id csr2 id2 : string) (now now2 : Time) (s s1 : IdentityDb) (w : ScannerWorker) (ops : list identity_op)
  (Hs : identity_ok s) (Henroll : EnrollWorker Sum256 IssueScannerWorker token csr id now s = (Ok w, s1)) :
  (EnrollWorker Sum256 IssueScannerWorker token csr2 id2 now2 (run_identities Sum256 IssueScannerWorker ops s1)).1
    = Err ErrInvalidEnrollmentToken /\
  exists r, r ∈ identity_tokens s /\ Worker_AllowedCIDRs w = Enrollment_AllowedCIDRs (token_enrollment r) /\
    Worker_AllowedPorts w = Enrollment_AllowedPorts (token_enrollment r) /\
    Worker_MaxConcurrent w = Enrollment_MaxConcurrent (token_enrollment r) /\
    Worker_RateLimitPerSecond w = Enrollment_RateLimitPerSecond (token_enrollment r) /\
    Worker_SiteID w = Enrollment_SiteID (token_enrollment r).
Proof.
  assert (Hs1 : identity_ok s1).
  { change s1 with ((Ok w, s1).2 : IdentityDb). rewrite <- Henroll. by apply enroll_ok. }
  pose proof Henroll as (hash & r & serial & expiresAt & Eh & Hr & Hu & -> & _ & _ & E1)%enroll_inv. split.
  - assert (Hused : token_used hash (run_identities Sum256 IssueScannerWorker ops s1)).
    { apply token_used_steps. subst s1. exists (use_token (formatTime now) r). split; [|split].
      - apply elem_of_update_where. exists r. by rewrite Hu.
      - unfold usable in Hu. by reflect_bools.
      - by eexists. }
    pose proof (run_identities_ok Sum256 IssueScannerWorker ops s1 Hs1) as Hs2.
    unfold EnrollWorker, WorkerEnrollmentToken_. rewrite Eh.
    rewrite (proj2 (query_row_None _ _)); [done|]. intros r' Hr'. by eapply token_used_unusable.
  - exists r. done.
Qed.

Lemma revoked_step Sum256 IssueScannerWorker op s w :
  w ∈ identity_workers s -> Worker_Status w = EndpointRevoked -> w ∈ identity_workers (run_identity Sum256 IssueScannerWorker op s).
Proof.
  intros Hw Hr.
  assert (Hupd : forall id f, w ∈ update_where (active_worker id) f (identity_workers s)).
  { intros id f. apply elem_of_update_where. exists w. split; [done|]. unfold active_worker.
    rewrite (bool_decide_eq_false_2 (Worker_Status w = EndpointActive)) by (rewrite Hr; done). by rewrite andb_false_r. }
  destruct op as [request actorID id h now|token csr id now|certificate heartbeat now|id reason now|enabled|id enabled]; simpl.
  - unfold CreateWorkerEnrollmentToken. destruct (validateWorkerEnrollment _) as [e|]; [|done].
    unfold st_bind, InsertWorkerEnrollmentToken. by case_if.
  - destruct (EnrollWorker _ _ _ _ _ _ s) as [[w0|e] s'] eqn:E; [|by apply enroll_err in E as ->].
    apply enroll_inv in E as (h & r0 & serial & expiresAt & _ & _ & _ & _ & _ & _ & ->). unfold identity_workers in *. simpl.
    apply elem_of_app. by left.
  - unfold workerCheckIn. destruct (workerFromConnection _ _ _); [|done]. destruct (validateWorkerHeartbeat _ _); [|done].
    unfold RecordScannerWorkerHeartbeat. case_if; [done|]. case_if; [done|]. apply Hupd.
  - unfold RevokeScannerWorker, RevokeScannerWorkerRow. case_if; [done|]. case_if; [done|]. apply Hupd.
  - done.
  - unfold SetScannerWorkerDispatchForWorker. case_if; [done|]. apply Hupd.
Qed.

Lemma revoked_steps Sum256 IssueScannerWorker ops s w :
  w ∈ identity_workers s -> Worker_Status w = EndpointRevoked -> w ∈ identity_workers (run_identities Sum256 IssueScannerWorker ops s).
Proof. intros Hw Hr. revert s Hw. induction ops as [|op ops IH]; intros s Hw; [done|]. by apply IH, revoked_step. Qed.

(** Revocation is final: a revoked worker's row never changes again, its
    certificate is refused on every connection, and it is never a candidate for
    a job. *)
Theorem revocation_final (Sum256 : string -> string) (IssueScannerWorker : string -> string -> string -> Time -> result (string * Time))
  (ops : list identity_op) (s : IdentityDb) (w : ScannerWorker)
  (Hs : identity_ok s) (Hw : w ∈ identity_workers s) (Hr : Worker_Status w = EndpointRevoked) :
  let s' := run_identities Sum256 IssueScannerWorker ops s in
  w ∈ identity_workers s' /\
  (forall uris now, is_ok (workerFromConnection (Some (Worker_CertificateSerial w, uris)) now s') = false) /\
  (forall job loads now excluded, candidate_for job loads now excluded w = None).
Proof.
  intros s'. assert (Hw' : w ∈ identity_workers s') by by apply revoked_steps.
  split; [done|]. split.
  - intros uris now. pose proof (run_identities_ok Sum256 IssueScannerWorker ops s Hs) as [_ _ [_ Hnd] _]. fold s' in Hnd.
    unfold workerFromConnection, ScannerWorkerBySerial. rewrite (query_row_key Worker_CertificateSerial _ w Hnd Hw'). rewrite Hr. done.
  - intros job loads now excluded. unfold candidate_for. case_if; [done|]. unfold workerAvailableForAssignment. rewrite Hr. done.
Qed.

(** The fleet view and dispatch agree: the shown state is healthy exactly
    when the only alert is about the certificate's coming expiry, and a worker
    that dispatch would give a job is shown healthy or outdated; only a worker
    last seen exactly five minutes ago is shown offline and still dispatched to. *)
Theorem fleet_state_dispatch (job : WorkerJob) (loads : gmap string WorkerJobLoad) (now : Time) (excluded : string) (w : ScannerWorker)
  (Hload : 0 <= Load_ReservedConcurrency (load_of loads (Worker_ID w)) <= 2 ^ 62)
  (Hw : worker_ok w) :
  let state := Fleet_State (fleet_worker loads now w) in
  (state = WorkerFleetHealthy <->
   Forall (fun a => Alert_Code a = "certificate_expiring"%string) (Fleet_Alerts (fleet_worker loads now w))) /\
  (is_Some (candidate_for job loads now excluded w) ->
   state = WorkerFleetHealthy \/ state = WorkerFleetOutdated \/
   state = WorkerFleetOffline /\ exists seen, Worker_LastSeenAt w = Some seen /\ Sub now seen = 5 * Minute).
Proof.
  intros state. unfold state, fleet_worker. simpl. clear state. split.
  - unfold scannerWorkerFleetState, scannerWorkerAlerts.
    destruct (bool_decide (Worker_Status w = EndpointRevoked)); simpl; [split; [done|by intros [[=] _]%Forall_cons]|].
    destruct (negb (Before now (Worker_ExpiresAt w))); [split; [done|by intros [[=] _]%Forall_cons]|].
    generalize (negb (Before now (Add (Worker_ExpiresAt w) (- certificateRenewBefore)))) (worker_offline w now)
      (workerVersionBefore (Worker_SoftwareVersion w) minimumSupportedWorkerVersion)
      ((0 <? Load_ActiveJobs (load_of loads (Worker_ID w))) && (Worker_AvailableConcurrency w =? 0))
      (bool_decide (Worker_Health w = WorkerHealthDegraded)).
    intros [] [] [] [] []; simpl; rewrite ?Forall_cons; (split; [|intros H; destruct_and?]);
      first [discriminate|done|intros _; split_and?; first [done|by apply Forall_nil_2]].
  - intros [c Hc]. unfold candidate_for in Hc. case_if_in Hc; [done|].
    destruct (workerAvailableForAssignment _ _ _ _) eqn:Ea; [|done]. simpl in Hc.
    destruct (is_ok (Validate (jobForWorker job w) w now)) eqn:Ev; [|done].
    assert (Hv : JobValid (jobForWorker job w) w now) by (apply Validate_ok; by destruct (Validate _ _ _) as [[]|]).
    unfold workerAvailableForAssignment in Ea. case_if_in Ea; [done|]. reflect_bools.
    destruct (Worker_LastSeenAt w) as [seen|] eqn:El; [|done]. case_if_in Ea; [done|]. case_if_in Ea; [done|]. reflect_bools.
    pose proof (valid_concurrency _ _ _ Hv) as Hm. simpl in Hm. destruct Hw as [Hc1 _ Hav _ _ _ _].
    unfold maximumWorkerConcurrency in *. rewrite wrap64_id in Ea by (apply int64_range_small; lia).
    assert (Hn : 0 < Worker_AvailableConcurrency w) by lia.
    unfold scannerWorkerFleetState, worker_offline. rewrite El.
    repeat match goal with H : Worker_Status w = _ |- _ => rewrite H | H : Worker_Health w = _ |- _ => rewrite H end.
    repeat match goal with H : Before now _ = true |- _ => rewrite H end. simpl.
    unfold assignmentHeartbeatFreshness, workerOfflineAfter in *. case_if.
    + reflect_bools. right; right. split; [done|]. exists seen. split; [done|]. lia.
    + case_if; [by right; left|]. rewrite (proj2 (Z.eqb_neq _ 0)) by lia. rewrite andb_false_r. by left.
Qed.
