(* ===== verification/WorkerService.v ===== *)
(** The scanner-worker requests of internal/agentidentity: worker_poll.go,
    worker_lease.go, worker_evidence.go and worker_result.go, with the
    dispatcher they share the database with. A handler is given the client
    certificate of its connection, the decoded request and its readings of the
    clock; it answers with a status and a body and leaves a database. *)
From Stdlib Require Import ZArith Lia String Ascii.
From stdpp Require Import base tactics list strings gmap sets.
From S2P Require Import Prelude GoStrings GoTime Netip WorkerModel WorkerJob WorkerEvidence Dispatcher Sql WorkerStore WorkerJobMachine WorkerDispatch WorkerIdentity WorkerIdentitySafety.
Open Scope Z_scope.

Definition workerJobLeaseLifetime : Duration := 2 * Minute.
Definition workerJobLeaseBytes : Z := 32.
Definition workerResultSchemaVersion : Z := 1.
Definition workerResultIDLimit : Z := 200.
Definition workerResultClockSkew : Duration := Minute.

Record WorkerJobLease := { Lease_Envelope : SignedWorkerJob; Lease_Token : string; Lease_ExpiresAt : Time }.
Record WorkerJobLeaseRenewal := { Renewal_JobID : string; Renewal_LeaseToken : string; Renewal_ExpiresAt : Time }.
Record WorkerJobResult := {
  Result_SchemaVersion : Z;
  Result_ID : string;
  Result_JobID : string;
  Result_LeaseToken : string;
  Result_Outcome : WorkerJobResultOutcome;
  Result_CompletedAt : Time }.

(** An answer: its HTTP status and the body encoded when it has one. *)
Record Response (A : Type) := respond { Response_Status : Z; Response_Body : option A }.
Arguments respond {A} _ _.
Arguments Response_Status {A} _.
Arguments Response_Body {A} _.
Definition refuse {A} (status : Z) : Response A := respond status None.

Definition StatusOK : Z := 200.
Definition StatusAccepted : Z := 202.
Definition StatusNoContent : Z := 204.
Definition StatusBadRequest : Z := 400.
Definition StatusUnauthorized : Z := 401.
Definition StatusForbidden : Z := 403.
Definition StatusConflict : Z := 409.
Definition StatusServiceUnavailable : Z := 503.

(** The length of what [base64.RawURLEncoding.DecodeString] decodes: line breaks
    are skipped, other bytes must be of the alphabet, and a last group of one
    byte is refused. *)
Definition is_base64url (a : ascii) : bool :=
  let c := byte_val a in
  ((65 <=? c) && (c <=? 90)) || ((97 <=? c) && (c <=? 122)) || ((48 <=? c) && (c <=? 57)) || (c =? 45) || (c =? 95).
Fixpoint base64url_digits (s : string) : option Z :=
  match s with
  | EmptyString => Some 0
  | String a s' =>
      if (byte_val a =? 10) || (byte_val a =? 13) then base64url_digits s'
      else if is_base64url a then n ← base64url_digits s'; Some (n + 1) else None
  end.
Definition base64url_decoded_length (s : string) : option Z :=
  n ← base64url_digits s; if n mod 4 =? 1 then None else Some (n * 6 / 8).

Example base64url_ex : base64url_decoded_length "AAECAwQFBgcICQoLDA0ODxAREhMUFRYXGBkaGxwdHh8" = Some 32.
Proof. reflexivity. Qed.

(** [base64.RawURLEncoding.EncodeToString], three bytes at a time. *)
Definition base64url_alphabet : string := "ABCDEFGHIJKLMNOPQRSTUVWXYZabcdefghijklmnopqrstuvwxyz0123456789-_".
Definition base64url_digit (n : Z) : ascii := default "A"%char (String.get (Z.to_nat n) base64url_alphabet).
Fixpoint RawURL_Encode (raw : list Z) : string :=
  match raw with
  | a :: b :: c :: raw' =>
      String (base64url_digit (Z.shiftr a 2)) (String (base64url_digit (Z.lor (Z.shiftl (Z.land a 3) 4) (Z.shiftr b 4)))
        (String (base64url_digit (Z.lor (Z.shiftl (Z.land b 15) 2) (Z.shiftr c 6))) (String (base64url_digit (Z.land c 63))
          (RawURL_Encode raw'))))
  | [a; b] =>
      String (base64url_digit (Z.shiftr a 2)) (String (base64url_digit (Z.lor (Z.shiftl (Z.land a 3) 4) (Z.shiftr b 4)))
        (String (base64url_digit (Z.shiftl (Z.land b 15) 2)) EmptyString))
  | [a] => String (base64url_digit (Z.shiftr a 2)) (String (base64url_digit (Z.shiftl (Z.land a 3) 4)) EmptyString)
  | [] => EmptyString
  end.

Example RawURL_Encode_ex : RawURL_Encode [0; 1; 2; 3; 4; 255; 254; 253] = "AAECAwT__v0"%string.
Proof. reflexivity. Qed.

(** A call of the worker store on the job tables of the shared database. *)
Definition on_jobs {A} (m : st Db A) : st IdentityDb A := fun s =>
  let '(r, db) := m (identity_db s) in (r, {| identity_tokens := identity_tokens s; identity_db := db |}).

(** What [workerFromConnection] reads of the peer's certificate. *)
Definition connection_identity (certificate : option Certificate) : option (string * list string) :=
  (fun c => (default "<nil>"%string (Certificate_Serial c), Certificate_URIs c)) <$> certificate.

Section service.
Context (Sum256 : string -> string) (IssueScannerWorker : string -> string -> string -> Time -> result (string * Time)).
Context (matchObservation : ServiceObservation -> result (list string)).
Context `{JobCrypto} `{EvidenceCrypto}.

Definition workerLeaseTokenHash (token : string) : option string :=
  if bool_decide (base64url_decoded_length token = Some workerJobLeaseBytes) then Some (Sum256 token) else None.

(** The guard every handler starts with, at the instant [authAt]. *)
Definition authenticated {A} (certificate : option Certificate) (authAt : Time)
    (handler : ScannerWorker -> IdentityDb -> Response A * IdentityDb) (s : IdentityDb) : Response A * IdentityDb :=
  match workerFromConnection (connection_identity certificate) authAt s with
  | Err _ => (refuse StatusUnauthorized, s)
  | Ok worker => handler worker s
  end.

(** The random bytes it reads are given. *)
Definition newWorkerJobLeaseToken (raw : list Z) : string * string :=
  let token := RawURL_Encode raw in (token, Sum256 token).

Definition workerPollJob (certificate : option Certificate) (raw : list Z) (authAt now : Time)
  : IdentityDb -> Response WorkerJobLease * IdentityDb :=
  authenticated certificate authAt (fun worker s =>
    let '(token, hash) := newWorkerJobLeaseToken raw in
    let leaseExpiresAt := Add now workerJobLeaseLifetime in
    match on_jobs (LeaseScannerWorkerJob (Worker_ID worker) hash now leaseExpiresAt) s with
    | (Err e, s') => (refuse (if bool_decide (e = ErrNotFound) then StatusNoContent else StatusServiceUnavailable), s')
    | (Ok envelope, s') =>
        let expiresAt := if Before (Job_ExpiresAt (SignedJob_Job envelope)) leaseExpiresAt
                         then Job_ExpiresAt (SignedJob_Job envelope) else leaseExpiresAt in
        (respond StatusOK (Some {| Lease_Envelope := envelope; Lease_Token := token; Lease_ExpiresAt := expiresAt |}), s')
    end).

Definition workerRenewJobLease (certificate : option Certificate) (request : WorkerJobLeaseRenewal) (authAt now : Time)
  : IdentityDb -> Response WorkerJobLeaseRenewal * IdentityDb :=
  authenticated certificate authAt (fun worker s =>
    if blank (Renewal_JobID request) then (refuse StatusBadRequest, s) else
    match workerLeaseTokenHash (Renewal_LeaseToken request) with
    | None => (refuse StatusBadRequest, s)
    | Some hash =>
        match on_jobs (RenewScannerWorkerJobLease (Worker_ID worker) (Renewal_JobID request) hash now
                         (Add now workerJobLeaseLifetime)) s with
        | (Err e, s') =>
            (refuse (if bool_decide (e = ErrInvalidWorkerJobLease) then StatusConflict else StatusServiceUnavailable), s')
        | (Ok expiresAt, s') =>
            (respond StatusOK (Some {| Renewal_JobID := Renewal_JobID request; Renewal_LeaseToken := Renewal_LeaseToken request;
                                       Renewal_ExpiresAt := expiresAt |}), s')
        end
    end).

(** The body is the batch's status, identifier and sequence. *)
Definition workerSubmitEvidence (certificate : option Certificate) (envelope : SignedWorkerEvidenceBatch) (authAt now : Time)
  : IdentityDb -> Response (string * string * Z) * IdentityDb :=
  authenticated certificate authAt (fun worker s =>
    let batch := SignedBatch_Batch envelope in
    let answer status := Some (status, Batch_ID batch, Batch_Sequence batch) in
    match ScannerWorkerJob (Batch_JobID batch) (identity_db s) with
    | Err _ => (refuse StatusConflict, s)
    | Ok jobEnvelope =>
        if negb (bool_decide (Job_WorkerID (SignedJob_Job jobEnvelope) = Worker_ID worker)) then (refuse StatusConflict, s) else
        match VerifyForJob envelope certificate (SignedJob_Job jobEnvelope) now with
        | Err _ => (refuse StatusBadRequest, s)
        | Ok _ =>
            match on_jobs (RecordScannerWorkerEvidenceBatch envelope now) s with
            | (Ok _, s') => (respond StatusAccepted (answer "accepted"%string), s')
            | (Err e, s') =>
                (if bool_decide (e = ErrWorkerEvidenceAlreadyAccepted) then respond StatusOK (answer "already_accepted"%string)
                 else if bool_decide (e = ErrWorkerEvidenceReplay) || bool_decide (e = ErrWorkerEvidenceSequence) ||
                         bool_decide (e = ErrInvalidWorkerJobLease) then refuse StatusConflict
                 else refuse StatusServiceUnavailable, s')
            end
        end
    end).

Definition validateWorkerJobResult (r : WorkerJobResult) (now : Time) : result () :=
  reject negb (Result_SchemaVersion r =? workerResultSchemaVersion) as "unsupported scanner-worker result schema";;
  reject blank (Result_ID r) || (workerResultIDLimit <? strlen (Result_ID r)) || blank (Result_JobID r) ||
         (workerResultIDLimit <? strlen (Result_JobID r))
    as "scanner-worker result identifiers are invalid";;
  reject negb (bool_decide (Result_Outcome r = WorkerJobResultSucceeded)) && negb (bool_decide (Result_Outcome r = WorkerJobResultFailed)) &&
         negb (bool_decide (Result_Outcome r = WorkerJobResultCanceled))
    as "scanner-worker result outcome is invalid";;
  reject IsZero (Result_CompletedAt r) || After (Result_CompletedAt r) (Add now workerResultClockSkew)
    as "scanner-worker completion time is invalid";;
  Ok tt.

Definition workerSubmitResult (certificate : option Certificate) (r : WorkerJobResult) (authAt now : Time)
  : IdentityDb -> Response WorkerJobResultReceipt * IdentityDb :=
  authenticated certificate authAt (fun worker s =>
    match validateWorkerJobResult r now with
    | Err _ => (refuse StatusBadRequest, s)
    | Ok _ =>
        match workerLeaseTokenHash (Result_LeaseToken r) with
        | None => (refuse StatusBadRequest, s)
        | Some tokenHash =>
            let receipt := {| Receipt_ResultID := Result_ID r; Receipt_JobID := Result_JobID r; Receipt_WorkerID := Worker_ID worker;
                              Receipt_Outcome := Result_Outcome r; Receipt_CompletedAt := Result_CompletedAt r;
                              Receipt_AcceptedAt := now |} in
            match on_jobs (CompleteScannerWorkerJob matchObservation receipt tokenHash now) s with
            | (Ok _, s') => (respond StatusAccepted (Some receipt), s')
            | (Err e, s') =>
                (if bool_decide (e = ErrWorkerResultAlreadyAccepted) then respond StatusOK (Some receipt)
                 else if bool_decide (e = ErrWorkerResultReplay) || bool_decide (e = ErrInvalidWorkerJobLease)
                 then refuse StatusConflict else refuse StatusServiceUnavailable, s')
            end
        end
    end).

(** * The server's life *)

(** A request of a scanner worker. *)
Inductive worker_request :=
| RequestPoll (raw : list Z)
| RequestRenew (request : WorkerJobLeaseRenewal)
| RequestEvidence (envelope : SignedWorkerEvidenceBatch)
| RequestResult (r : WorkerJobResult).

Definition serve (certificate : option Certificate) (request : worker_request) (authAt now : Time) (s : IdentityDb) : IdentityDb :=
  match request with
  | RequestPoll raw => (workerPollJob certificate raw authAt now s).2
  | RequestRenew request => (workerRenewJobLease certificate request authAt now s).2
  | RequestEvidence envelope => (workerSubmitEvidence certificate envelope authAt now s).2
  | RequestResult r => (workerSubmitResult certificate r authAt now s).2
  end.

(** The status it is answered with. *)
Definition answered (certificate : option Certificate) (request : worker_request) (authAt now : Time) (s : IdentityDb) : Z :=
  match request with
  | RequestPoll raw => Response_Status (workerPollJob certificate raw authAt now s).1
  | RequestRenew request => Response_Status (workerRenewJobLease certificate request authAt now s).1
  | RequestEvidence envelope => Response_Status (workerSubmitEvidence certificate envelope authAt now s).1
  | RequestResult r => Response_Status (workerSubmitResult certificate r authAt now s).1
  end.

(** What the server does: an administrator's or enrollment operation, a job
    dispatched or resumed, a worker's request. *)
Inductive server_op :=
| ServerIdentity (op : identity_op)
| ServerDispatch (job : WorkerJob) (now : Time)
| ServerReassign (jobID : string) (now : Time)
| ServerRequest (certificate : option Certificate) (request : worker_request) (authAt now : Time).

Context (key : PrivateKey).
Definition run_server_op (op : server_op) (s : IdentityDb) : IdentityDb :=
  match op with
  | ServerIdentity op => run_identity Sum256 IssueScannerWorker op s
  | ServerDispatch job now => (on_jobs (Dispatch (newSigner key) job now) s).2
  | ServerReassign jobID now => (on_jobs (ReassignExpired (newSigner key) jobID now) s).2
  | ServerRequest certificate request authAt now => serve certificate request authAt now s
  end.
Definition run_server (ops : list server_op) (s : IdentityDb) : IdentityDb := fold_left (fun s op => run_server_op op s) ops s.
End service.
