(* ===== verification/WorkerServiceSafety.v ===== *)
(** The scanner-worker server as a whole, over any sequence of administration,
    dispatch and worker requests: what it believes of a scan was verified, a job
    reported as succeeded was checked everywhere, and a worker touches only its
    own jobs. *)
From Stdlib Require Import ZArith Lia String Ascii.
From stdpp Require Import base tactics list strings gmap sets relations.
From S2P Require Import Prelude GoStrings GoTime Netip WorkerModel WorkerJob WorkerEvidence Dispatcher Sql WorkerStore WorkerJobMachine WorkerStoreSafety WorkerEvidenceStore WorkerDispatch WorkerIdentity WorkerIdentitySafety WorkerService.
Open Scope Z_scope.

(** * What the database says of a job *)

Definition row_job (r : JobRow) : WorkerJob := SignedJob_Job (row_signed_envelope r).
Definition same_scope (a b : WorkerJob) : Prop := Job_Targets a = Job_Targets b /\ Job_Ports a = Job_Ports b.
(** The job was validated against a worker when it was signed for it. *)
Definition dispatched (job : WorkerJob) : Prop := exists worker now, JobValid job worker now.
Definition succeeded (r : JobRow) : Prop := row_result_outcome r = Some WorkerJobResultSucceeded.
Definition job_probes (job : WorkerJob) : list (string * Z) :=
  t ← Job_Targets job; (fun p => (Target_Address t, p)) <$> Job_Ports job.
Definition counted (jobID : string) (job : WorkerJob) (db : Db) : Prop :=
  length (job_checkpoints jobID db) = (length (Job_Targets job) * length (Job_Ports job))%nat.

Section invariant.
Context (matchObservation : ServiceObservation -> result (list string)).
Context `{EvidenceCrypto}.
#[local] Abbreviation run_op := (run_op matchObservation).

(** An evidence row: its batch was verified, under some certificate, against a
    job with the identifier and the scope of the job's row. *)
Definition verified (db : Db) (e : EvidenceRow) : Prop :=
  exists r certificate job now, r ∈ db_jobs db /\ row_id r = evidence_job_id e /\ same_scope job (row_job r) /\
    VerifyForJob (evidence_signed_envelope e) (Some certificate) job now = Ok tt.
(** A checkpoint row: a stored batch of its job reported it. *)
Definition reported (db : Db) (c : CheckpointRow) : Prop :=
  exists e checkpoint, e ∈ db_evidence db /\ evidence_job_id e = checkpoint_job_id c /\
    checkpoint ∈ Batch_Checkpoints (SignedBatch_Batch (evidence_signed_envelope e)) /\
    Checkpoint_Address checkpoint = checkpoint_address c /\ Checkpoint_Port checkpoint = checkpoint_port c.

Record db_ok (db : Db) : Prop := {
  ok_jobs : jobs_wf db;
  ok_evidence : evidence_wf db;
  ok_dispatched : Forall (fun r => dispatched (row_job r)) (db_jobs db);
  ok_verified : Forall (verified db) (db_evidence db);
  ok_reported : Forall (reported db) (db_checkpoints db);
  ok_succeeded : Forall (fun r => succeeded r -> counted (row_id r) (row_job r) db) (db_jobs db) }.

(** What the server establishes before each transaction. *)
Definition admissible (op : store_op) (db : Db) : Prop :=
  match op with
  | OpCreate envelope _ => dispatched (SignedJob_Job envelope)
  | OpReassign _ envelope _ => dispatched (SignedJob_Job envelope) /\
      forall r, r ∈ db_jobs db -> row_id r = Job_ID (SignedJob_Job envelope) -> same_scope (SignedJob_Job envelope) (row_job r)
  | OpEvidence envelope now => exists certificate r, r ∈ db_jobs db /\
      row_id r = Batch_JobID (SignedBatch_Batch envelope) /\ VerifyForJob envelope (Some certificate) (row_job r) now = Ok tt
  | _ => True
  end.

Lemma admissible_ok op db : admissible op db -> op_ok op.
Proof. destruct op; simpl; try done. by intros (worker & now & [[_ ?] _ _ _ _ _ _ _ _ _ _ _]). Qed.

(** ** Rows *)

(** How a transaction of database [db] changes a row. *)
Record follows (db : Db) (r r' : JobRow) : Prop := {
  follows_id : row_id r' = row_id r;
  follows_scope : same_scope (row_job r') (row_job r);
  follows_dispatched : dispatched (row_job r) -> dispatched (row_job r');
  follows_succeeded : succeeded r' -> succeeded r \/ counted (row_id r) (row_job r) db }.

Lemma follows_refl db r : follows db r r.
Proof. split; unfold same_scope; auto. Qed.
Lemma follows_same db r r' :
  row_id r' = row_id r -> row_signed_envelope r' = row_signed_envelope r -> row_result_outcome r' = row_result_outcome r ->
  follows db r r'.
Proof. intros E1 E2 E3. split; unfold same_scope, succeeded, row_job; rewrite ?E2, ?E3; auto. Qed.
Lemma follows_trans db r1 r2 r3 : follows db r1 r2 -> follows db r2 r3 -> follows db r1 r3.
Proof.
  intros [I1 [T1 P1] D1 S1] [I2 [T2 P2] D2 S2]. split; [congruence|split; congruence|auto|].
  intros [Hs|Hc]%S2; [auto|]. right. unfold counted in *. congruence.
Qed.
Lemma follow_trans db l1 l2 l3 : Forall2 (follows db) l1 l2 -> Forall2 (follows db) l2 l3 -> Forall2 (follows db) l1 l3.
Proof. intros H1 H2. eapply Forall2_trans; [|exact H1|exact H2]. intros x y z. apply follows_trans. Qed.
Lemma follow_refl db l : Forall2 (follows db) l l.
Proof. apply Forall2_same_length_lookup. split; [done|]. intros i x y Hx Hy. simplify_eq. apply follows_refl. Qed.
Lemma follow_update db p f l :
  (forall r, r ∈ l -> p r = true -> follows db r (f r)) -> Forall2 (follows db) l (update_where p f l).
Proof. apply update_where_Forall2, follows_refl. Qed.

Lemma follow_quarantine worker now db0 db :
  Forall2 (follows db0) (db_jobs db) (db_jobs (quarantineRepeatedWorkerJobs worker now db)).
Proof. apply follow_update. intros r _ _. by apply follows_same. Qed.

(** ** Transactions *)

(** The rows it finds follow, and only creation adds one. *)
Definition follow_outcome (op : store_op) (db db' : Db) : Prop :=
  exists rows new, db_jobs db' = rows ++ new /\ Forall2 (follows db) (db_jobs db) rows /\
    (new = [] \/ exists envelope createdAt, op = OpCreate envelope createdAt /\ new = [new_job_row envelope createdAt]).

Lemma follow_outcome_rows op db db' : Forall2 (follows db) (db_jobs db) (db_jobs db') -> follow_outcome op db db'.
Proof. intros Hf. exists (db_jobs db'), []. rewrite app_nil_r. auto. Qed.
Lemma follow_outcome_same op db db' : db_jobs db' = db_jobs db -> follow_outcome op db db'.
Proof. intros E. apply follow_outcome_rows. rewrite E. apply follow_refl. Qed.

Lemma follow_create envelope createdAt db :
  follow_outcome (OpCreate envelope createdAt) db (run_op (OpCreate envelope createdAt) db).
Proof.
  unfold run_op. pose proof (create_cases envelope createdAt db) as C. cbv zeta in C.
  destruct (CreateScannerWorkerJob envelope createdAt db) as [[[]|e] db']; simpl; [|subst; by apply follow_outcome_same].
  destruct C as (_ & E & _). exists (db_jobs db), [new_job_row envelope createdAt]. split; [done|]. split; [apply follow_refl|eauto].
Qed.

Lemma follow_lease worker token now expiry db :
  follow_outcome (OpLease worker token now expiry) db (run_op (OpLease worker token now expiry) db).
Proof.
  assert (Hm : Forall2 (follows db) (db_jobs db) (db_jobs (lease_maintenance worker now db))).
  { unfold lease_maintenance. simpl. eapply follow_trans; [apply follow_quarantine|].
    eapply follow_trans; [apply follow_update|apply follow_update]; intros r _ _; by apply follows_same. }
  apply follow_outcome_rows. unfold run_op, LeaseScannerWorkerJob.
  destruct (query_first _ _ _) as [r|]; simpl; [|done]. case_if; simpl; [apply follow_refl|].
  eapply follow_trans; [exact Hm|]. apply follow_update. intros r' _ _. by apply follows_same.
Qed.

Lemma follow_renew worker job token now expiry db :
  follow_outcome (OpRenew worker job token now expiry) db (run_op (OpRenew worker job token now expiry) db).
Proof.
  apply follow_outcome_rows. unfold run_op, RenewScannerWorkerJobLease. case_if; simpl; [apply follow_refl|].
  destruct (query_row _ _ ≫= _); simpl; [|apply follow_refl]. apply follow_update. intros r' _ _. by apply follows_same.
Qed.

Lemma follow_resume job now db : follow_outcome (OpResume job now) db (run_op (OpResume job now) db).
Proof.
  apply follow_outcome_rows. unfold run_op, ScannerWorkerJobResumeCandidate.
  destruct (query_row _ _) as [r|]; [|apply follow_refl]. case_if; [apply follow_quarantine|].
  case_if; apply follow_refl.
Qed.

Lemma follow_reassign previous envelope now db :
  admissible (OpReassign previous envelope now) db ->
  follow_outcome (OpReassign previous envelope now) db (run_op (OpReassign previous envelope now) db).
Proof.
  intros [Hd Hs]. apply follow_outcome_rows. unfold run_op, ReassignScannerWorkerJob.
  destruct (Job_Resume _) as [resume|]; [|apply follow_refl]. repeat (case_if; [apply follow_refl|]). simpl.
  apply follow_update. intros r Hr Hp. unfold reassignable, has_id in Hp. reflect_bools.
  split; [done|by apply Hs|done|auto].
Qed.

Lemma follow_complete receipt token now db :
  jobs_wf db ->
  follow_outcome (OpComplete receipt token now) db (run_op (OpComplete receipt token now) db).
Proof.
  intros Hw. apply follow_outcome_rows. unfold run_op, CompleteScannerWorkerJob. case_if; [apply follow_refl|].
  destruct (query_row _ _) as [r|].
  - case_if; [|apply follow_refl]. destruct (project_jobs matchObservation receipt db) as [Ej _].
    destruct (projectScannerWorkerResult _ _ db) as [[|] db']; simpl in *; rewrite Ej; apply follow_refl.
  - case_if; [apply follow_refl|].
    match goal with |- context [projectScannerWorkerResult _ _ ?d] => rewrite (proj1 (project_jobs matchObservation receipt d)) end.
    apply follow_update. intros r Hr Hp. split; [done|done|done|]. intros Hs. right.
    unfold succeeded in Hs. simpl in Hs. injection Hs as Ho.
    rewrite (bool_decide_eq_true_2 _ Ho) in E. simpl in E. apply negb_false_iff, workerJobCheckpointsComplete_true in E.
    unfold completable in Hp. apply andb_true_iff in Hp as [Hp _]. apply holds_lease_true in Hp as (Hid & _).
    destruct E as (r0 & Hr0 & Hid0 & _ & Hc). assert (r0 = r) as -> by (apply (row_unique db); [done..|congruence]).
    unfold counted, row_job. by rewrite Hid.
Qed.

Lemma run_op_follow op db : jobs_wf db -> admissible op db -> follow_outcome op db (run_op op db).
Proof.
  intros Hw Ha. destruct op; auto using follow_create, follow_lease, follow_renew, follow_resume, follow_reassign, follow_complete.
  apply follow_outcome_same. unfold run_op, RecordScannerWorkerEvidenceBatch. repeat (case_match; simpl); done.
Qed.

(** ** The evidence tables *)

(** The checkpoints a batch adds are its own. *)
Lemma recordWorkerCheckpoints_new batch rows rows' :
  recordWorkerCheckpoints batch rows = Ok rows' ->
  exists new, rows' = rows ++ new /\
    Forall (fun c => checkpoint_job_id c = Batch_JobID batch /\ exists checkpoint, checkpoint ∈ Batch_Checkpoints batch /\
      Checkpoint_Address checkpoint = checkpoint_address c /\ Checkpoint_Port checkpoint = checkpoint_port c) new.
Proof.
  unfold recordWorkerCheckpoints.
  assert (G : forall cs rows, for_each (recordWorkerCheckpoint batch) rows cs = Ok rows' -> exists new, rows' = rows ++ new /\
    Forall (fun c => checkpoint_job_id c = Batch_JobID batch /\ exists checkpoint, checkpoint ∈ cs /\
      Checkpoint_Address checkpoint = checkpoint_address c /\ Checkpoint_Port checkpoint = checkpoint_port c) new);
    [|apply G].
  induction cs as [|c cs IH]; intros rows0 Hrec; simpl in Hrec.
  { injection Hrec as ->. exists []. by rewrite app_nil_r. }
  apply bind_ok in Hrec as (rows1 & H1 & Hrec). apply IH in Hrec as (new & -> & Hf).
  assert (Hf' : Forall (fun c0 => checkpoint_job_id c0 = Batch_JobID batch /\ exists checkpoint, checkpoint ∈ c :: cs /\
      Checkpoint_Address checkpoint = checkpoint_address c0 /\ Checkpoint_Port checkpoint = checkpoint_port c0) new).
  { eapply Forall_impl; [exact Hf|]. intros c0 (? & cp & ? & ?). split; [done|]. exists cp. split; [by right|done]. }
  unfold recordWorkerCheckpoint in H1. apply reject_ok in H1 as [_ H1]. case_if_in H1; injection H1 as <-; [by exists new|].
  rewrite <- app_assoc. eexists. split; [done|]. constructor; [|done]. split; [done|]. exists c. split; [by left|done].
Qed.

Lemma evidence_unchanged op db :
  (forall envelope now, op <> OpEvidence envelope now) ->
  db_evidence (run_op op db) = db_evidence db /\ db_checkpoints (run_op op db) = db_checkpoints db.
Proof.
  intros Hne. destruct op; simpl; try (by edestruct Hne); try apply complete_evidence.
  all: unfold CreateScannerWorkerJob, LeaseScannerWorkerJob, RenewScannerWorkerJobLease,
         ScannerWorkerJobResumeCandidate, ReassignScannerWorkerJob.
  all: repeat (case_match; simpl); done.
Qed.

(** ** The invariant under transactions *)

Lemma follow_forward db rows r : Forall2 (follows db) (db_jobs db) rows -> r ∈ db_jobs db -> exists r', r' ∈ rows /\ follows db r r'.
Proof.
  intros Hf [i Hi]%list_elem_of_lookup_1. destruct (Forall2_lookup_l _ _ _ _ _ Hf Hi) as (r' & Hl & ?).
  exists r'. split; [by eapply list_elem_of_lookup_2|done].
Qed.
Lemma follow_backward db rows r' : Forall2 (follows db) (db_jobs db) rows -> r' ∈ rows -> exists r, r ∈ db_jobs db /\ follows db r r'.
Proof.
  intros Hf [i Hi]%list_elem_of_lookup_1. destruct (Forall2_lookup_r _ _ _ _ _ Hf Hi) as (r & Hl & ?).
  exists r. split; [by eapply list_elem_of_lookup_2|done].
Qed.

Lemma verified_follow db db' e :
  (forall r, r ∈ db_jobs db -> exists r', r' ∈ db_jobs db' /\ follows db r r') -> verified db e -> verified db' e.
Proof.
  intros Hf (r & certificate & job & now & Hr & Hid & [HT HP] & Hv). destruct (Hf r Hr) as (r' & Hr' & [Eid [ET EP] _ _]).
  exists r', certificate, job, now. split_and!; [done|congruence|split; congruence|done].
Qed.

Lemma run_op_forward op db r :
  jobs_wf db -> admissible op db -> r ∈ db_jobs db -> exists r', r' ∈ db_jobs (run_op op db) /\ follows db r r'.
Proof.
  intros Hw Ha Hr. destruct (run_op_follow op db Hw Ha) as (rows & new & E & Hf & _).
  destruct (follow_forward db rows r Hf Hr) as (r' & Hr' & ?). exists r'. rewrite E. split; [|done]. apply elem_of_app. by left.
Qed.

(** Recording a batch. *)
Lemma record_evidence_ok envelope now db :
  db_ok db -> admissible (OpEvidence envelope now) db -> db_ok (run_op (OpEvidence envelope now) db).
Proof.
  intros Hok (certificate & r & Hr & Hid & Hv). pose proof Hok as [Hj He Hd Hver Hrep Hs].
  pose proof (run_op_wf matchObservation _ db Hj (I : op_ok (OpEvidence envelope now))) as Hj'.
  pose proof (run_op_evidence_wf matchObservation (OpEvidence envelope now) db He) as He'. simpl in *.
  pose proof (record_evidence_cases envelope now db He) as C. cbv zeta in C.
  destruct (RecordScannerWorkerEvidenceBatch envelope now db) as [[[]|e] db']; simpl in *; [|by subst].
  destruct C as (_ & _ & (r1 & expiry & Hq & _ & _ & Hst & _) & rows & Hrec & ->).
  apply query_row_Some in Hq as [Hr1 Hid1]. unfold has_id in Hid1. reflect_bools.
  assert (r1 = r) as -> by (apply (row_unique db); [done..|congruence]).
  apply recordWorkerCheckpoints_new in Hrec as (new & -> & Hnew). split; [done|done|done| | |]; simpl.
  - apply Forall_app. split; [done|]. apply Forall_singleton. exists r, certificate, (row_job r), now.
    split_and!; [done|done|split; done|done].
  - apply Forall_app. split.
    + eapply Forall_impl; [exact Hrep|]. intros c (e & cp & ? & ?). exists e, cp. split; [|done]. simpl. apply elem_of_app. by left.
    + eapply Forall_impl; [exact Hnew|]. intros c (Hjob & cp & Hcp & Ha & Hp).
      exists (evidence_row envelope now), cp. split; [simpl; apply elem_of_app; right; by left|]. done.
  - rewrite Forall_forall in *. intros r' Hr' Hsucc. pose proof (Hs r' Hr' Hsucc) as Hc. unfold counted in *. rewrite <- Hc.
    unfold job_checkpoints. simpl. rewrite select_where_app, length_app.
    rewrite (select_where_none _ new); [simpl; lia|]. intros c Hin. rewrite Forall_forall in Hnew; destruct (Hnew c Hin) as [Hjob _].
    apply bool_decide_eq_false. intros E. assert (r' = r) as -> by (apply (row_unique db); [done..|congruence]).
    pose proof (jobs_wf_row db r Hj Hr) as [_ _ _ Hres _]. unfold succeeded in Hsucc. rewrite Hsucc in Hres.
    destruct (row_result_id r), (row_completed_at r); try done. status_solve.
Qed.

Lemma store_op_other_ok op db :
  db_ok db -> admissible op db -> (forall envelope now, op <> OpEvidence envelope now) -> db_ok (run_op op db).
Proof.
  intros Hok Ha Hne. pose proof Hok as [Hj He Hd Hver Hrep Hs]. destruct (evidence_unchanged op db Hne) as [Ee Ec].
  pose proof (run_op_wf matchObservation op db Hj (admissible_ok op db Ha)) as Hj'.
  destruct (run_op_follow op db Hj Ha) as (rows & new & E & Hf & Hnew).
  assert (Hrow : forall r', r' ∈ db_jobs (run_op op db) -> (exists r, r ∈ db_jobs db /\ follows db r r') \/
    dispatched (row_job r') /\ ~ succeeded r').
  { intros r'. rewrite E. intros [Hr|Hr]%elem_of_app; [left; by eapply follow_backward|right].
    destruct Hnew as [->|(envelope & createdAt & -> & ->)]; [by apply not_elem_of_nil in Hr|].
    apply list_elem_of_singleton in Hr as ->. by split. }
  rewrite Forall_forall in Hd, Hs. split.
  - done.
  - by apply run_op_evidence_wf.
  - apply Forall_forall. intros r' [(r & Hr & [_ _ Hdis _])|[? _]]%Hrow; auto.
  - rewrite Ee. eapply Forall_impl; [exact Hver|]. intros e. apply verified_follow. intros r. by apply run_op_forward.
  - rewrite Ec. eapply Forall_impl; [exact Hrep|]. intros c Hc. unfold reported. by rewrite Ee.
  - apply Forall_forall. intros r' [(r & Hr & [Hid [HT HP] _ Hsucc])|[_ Hno]]%Hrow Hs'; [|done].
    assert (Hc : counted (row_id r) (row_job r) db) by (destruct (Hsucc Hs'); auto).
    unfold counted, job_checkpoints in *. by rewrite Ec, Hid, HT, HP.
Qed.

Lemma store_op_ok op db : db_ok db -> admissible op db -> db_ok (run_op op db).
Proof. intros Hok Ha. destruct op; first [by apply record_evidence_ok|by apply store_op_other_ok]. Qed.

(** Operations on the other tables do not matter. *)
Lemma db_ok_ext db db' :
  db_jobs db' = db_jobs db -> db_dead_letters db' = db_dead_letters db -> db_evidence db' = db_evidence db ->
  db_checkpoints db' = db_checkpoints db -> db_ok db -> db_ok db'.
Proof.
  intros E1 E2 E3 E4 [Hj He Hd Hv Hr Hs]. split.
  - by eapply jobs_wf_ext.
  - by eapply evidence_wf_ext.
  - by rewrite E1.
  - rewrite E3. unfold verified. by rewrite E1.
  - rewrite E4. unfold reported. by rewrite E3.
  - rewrite E1. unfold counted, job_checkpoints. by rewrite E4.
Qed.

(** ** What the invariant says of one job *)

Lemma job_probes_length job : length (job_probes job) = (length (Job_Targets job) * length (Job_Ports job))%nat.
Proof.
  unfold job_probes. induction (Job_Targets job) as [|t ts IH]; [done|].
  rewrite bind_cons, length_app, length_fmap, IH. simpl. lia.
Qed.
Lemma elem_of_job_probes job t p : t ∈ Job_Targets job -> p ∈ Job_Ports job -> (Target_Address t, p) ∈ job_probes job.
Proof. intros Ht Hp. unfold job_probes. apply list_elem_of_bind. exists t. split; [|done]. by apply list_elem_of_fmap_2. Qed.

(** A target written as an IPv4 address. *)
Definition target4 (t : Target) : Prop := exists v, ParseAddr (Target_Address t) = Some (Addr4 v).

(** A verified checkpoint of a job whose targets are IPv4 is one of its probes. *)
Lemma checkpoint_in_job_probe job collectedAt c :
  Forall target4 (Job_Targets job) -> checkpoint_in_job job collectedAt c = true ->
  (Checkpoint_Address c, Checkpoint_Port c) ∈ job_probes job.
Proof.
  intros H4 Hc. unfold checkpoint_in_job in Hc. destruct (ParseAddr (Checkpoint_Address c)) as [a|] eqn:Ea; [|done].
  reflect_bools. match goal with Ha : a ∈ _ |- _ => apply list_elem_of_fmap in Ha as (t & Et & Ht) end.
  rewrite Forall_forall in H4. destruct (H4 t Ht) as [v Hv]. unfold addr_or_zero in Et. simpl in Et. rewrite Hv in Et. simpl in Et.
  subst a. rewrite (ParseAddr4_inj _ _ _ Ea Hv). by apply elem_of_job_probes.
Qed.

Definition row_probe (c : CheckpointRow) : string * Z := (checkpoint_address c, checkpoint_port c).
Lemma job_checkpoints_distinct jobID db : evidence_wf db -> NoDup (row_probe <$> job_checkpoints jobID db).
Proof.
  intros [_ _ _ Hnd _]. unfold job_checkpoints. revert Hnd. induction (db_checkpoints db) as [|c l IH]; [constructor|].
  rewrite fmap_cons, NoDup_cons. intros [Hnot Hnd]. unfold select_where in *. simpl. case_bool_decide as E; [|by apply IH].
  rewrite fmap_cons, NoDup_cons. split; [|by apply IH]. intros (c' & E' & Hin)%list_elem_of_fmap. apply Hnot.
  apply (elem_of_select_where _ l) in Hin as [Hin Hj]. apply bool_decide_eq_true in Hj.
  apply list_elem_of_fmap. exists c'. split; [|done]. unfold probe. unfold row_probe in E'. congruence.
Qed.

Lemma succeeded_probes db r t p :
  db_ok db -> r ∈ db_jobs db -> succeeded r -> Forall target4 (Job_Targets (row_job r)) ->
  t ∈ Job_Targets (row_job r) -> p ∈ Job_Ports (row_job r) ->
  exists e checkpoint certificate job now, e ∈ db_evidence db /\ evidence_job_id e = row_id r /\
    VerifyForJob (evidence_signed_envelope e) (Some certificate) job now = Ok tt /\ same_scope job (row_job r) /\
    checkpoint ∈ Batch_Checkpoints (SignedBatch_Batch (evidence_signed_envelope e)) /\
    Checkpoint_Address checkpoint = Target_Address t /\ Checkpoint_Port checkpoint = p.
Proof.
  intros [Hj He _ Hver Hrep Hs] Hr Hsucc H4 Ht Hp. rewrite Forall_forall in Hver. rewrite Forall_forall in Hrep. rewrite Forall_forall in Hs.
  specialize (Hs r Hr Hsucc).
  (* every recorded checkpoint of the job comes from a verified batch *)
  assert (Hsource : forall c, c ∈ job_checkpoints (row_id r) db ->
    exists e checkpoint certificate job now, e ∈ db_evidence db /\ evidence_job_id e = row_id r /\
      VerifyForJob (evidence_signed_envelope e) (Some certificate) job now = Ok tt /\ same_scope job (row_job r) /\
      checkpoint ∈ Batch_Checkpoints (SignedBatch_Batch (evidence_signed_envelope e)) /\
      (Checkpoint_Address checkpoint, Checkpoint_Port checkpoint) = row_probe c).
  { intros c [Hc Hid]%elem_of_select_where. apply bool_decide_eq_true in Hid.
    destruct (Hrep c Hc) as (e & cp & Hine & Hjob & Hcp & Ea & Ep).
    destruct (Hver e Hine) as (r' & certificate & job & now & Hr' & Hid' & Hsc & Hv).
    assert (r' = r) as -> by (apply (row_unique db); [done..|congruence]).
    exists e, cp, certificate, job, now. split_and!; try done; unfold row_probe; congruence. }
  assert (Hsub : row_probe <$> job_checkpoints (row_id r) db ⊆ job_probes (row_job r)).
  { intros k (c & -> & Hc)%list_elem_of_fmap.
    destruct (Hsource c Hc) as (e & cp & certificate & job & now & _ & _ & Hv & [ET EP] & Hcp & <-).
    apply VerifyForJob_items in Hv as [_ (_ & _ & _ & Hf & _)%validateEvidenceItems_ok]. rewrite Forall_forall in Hf.
    specialize (Hf cp Hcp). unfold job_probes. rewrite <- ET, <- EP. eapply checkpoint_in_job_probe; [by rewrite ET|exact Hf]. }
  assert (Hperm : row_probe <$> job_checkpoints (row_id r) db ≡ₚ job_probes (row_job r)).
  { apply submseteq_length_Permutation; [apply NoDup_submseteq; [by apply job_checkpoints_distinct|done]|].
    rewrite job_probes_length, length_fmap. unfold counted in Hs. lia. }
  assert (Hin : (Target_Address t, p) ∈ row_probe <$> job_checkpoints (row_id r) db).
  { rewrite Hperm. by apply elem_of_job_probes. }
  apply list_elem_of_fmap in Hin as (c & Ec & Hc).
  destruct (Hsource c Hc) as (e & cp & certificate & job & now & ? & ? & ? & ? & ? & E).
  exists e, cp, certificate, job, now. rewrite <- Ec in E. by simplify_eq.
Qed.
End invariant.

(** * The server *)

Section server.
Context (Sum256 : string -> string) (IssueScannerWorker : string -> string -> string -> Time -> result (string * Time)).
Context (matchObservation : ServiceObservation -> result (list string)).
Context `{JobCrypto} `{EvidenceCrypto} (key : PrivateKey).
#[local] Abbreviation run_op := (run_op matchObservation).
#[local] Abbreviation serve := (serve Sum256 matchObservation).
#[local] Abbreviation run_server_op := (run_server_op Sum256 IssueScannerWorker matchObservation key).
#[local] Abbreviation run_server := (run_server Sum256 IssueScannerWorker matchObservation key).

(** The tables of jobs and evidence are the same. *)
Definition same_tables (db db' : Db) : Prop :=
  db_jobs db' = db_jobs db /\ db_dead_letters db' = db_dead_letters db /\ db_evidence db' = db_evidence db /\
  db_checkpoints db' = db_checkpoints db.
(** A transaction of the store that the server may ask for, or none. *)
Definition store_effect (db db' : Db) : Prop :=
  same_tables db db' \/ exists op, admissible op db /\ db' = run_op op db.

Lemma same_tables_refl db : same_tables db db.
Proof. done. Qed.

Lemma identity_tables op s : same_tables (identity_db s) (identity_db (run_identity Sum256 IssueScannerWorker op s)).
Proof.
  destruct op as [request actorID id h now|token csr id now|certificate heartbeat now|id reason now|enabled|id enabled]; simpl.
  - unfold CreateWorkerEnrollmentToken. destruct (validateWorkerEnrollment _); [|done].
    unfold st_bind, InsertWorkerEnrollmentToken. by case_if.
  - destruct (EnrollWorker _ _ _ _ _ _ s) as [[w|e] s'] eqn:E; [|by apply enroll_err in E as ->].
    by apply enroll_inv in E as (? & ? & ? & ? & _ & _ & _ & _ & _ & _ & ->).
  - unfold workerCheckIn. destruct (workerFromConnection _ _ _); [|done]. destruct (validateWorkerHeartbeat _ _); [|done].
    unfold RecordScannerWorkerHeartbeat. case_if; [done|]. by case_if.
  - unfold RevokeScannerWorker, RevokeScannerWorkerRow. case_if; [done|]. by case_if.
  - done.
  - unfold SetScannerWorkerDispatchForWorker. by case_if.
Qed.

Lemma on_jobs_db {A} (m : st Db A) s : identity_db (on_jobs m s).2 = (m (identity_db s)).2.
Proof. unfold on_jobs. by destruct (m (identity_db s)). Qed.
Lemma on_jobs_result {A} (m : st Db A) s : (on_jobs m s).1 = (m (identity_db s)).1.
Proof. unfold on_jobs. by destruct (m (identity_db s)). Qed.

Lemma dispatch_effect job now db : store_effect db (Dispatch (newSigner key) job now db).2.
Proof.
  pose proof (Dispatch_inv key job now db) as C. destruct (Dispatch _ job now db) as [[envelope|e] db']; simpl; [|by left; subst].
  destruct C as (worker & _ & _ & Hel & Es & Ec). right. exists (OpCreate envelope now). simpl. rewrite Ec. split; [|done].
  exists worker, now. rewrite (Sign_job _ _ _ Es). apply Hel.
Qed.

Lemma reassign_effect jobID now db : jobs_wf db -> store_effect db (ReassignExpired (newSigner key) jobID now db).2.
Proof.
  intros Hw. pose proof (ReassignExpired_inv key jobID now db Hw) as C.
  destruct (ReassignExpired _ jobID now db) as [[envelope|e] db']; simpl.
  - destruct C as (r & worker & resume & Hr & Hid & _ & _ & _ & _ & Hel & Es & Er).
    pose proof (jobs_wf_row db r Hw Hr) as [_ _ _ _ [Eid _]].
    right. exists (OpReassign (row_worker_id r) envelope now). simpl. rewrite Er, (Sign_job _ _ _ Es). split; [split|done].
    + exists worker, now. apply Hel.
    + intros r' Hr' E. simpl in E. assert (r' = r) as -> by (apply (row_unique db); [done..|congruence]). by split.
  - destruct C as [->|[_ ->]]; [by left|]. right. by exists (OpResume jobID now).
Qed.

(** What a request asks of the store, once its worker is known. *)
Definition request_op (worker : ScannerWorker) (request : worker_request) (now : Time) : store_op :=
  match request with
  | RequestPoll raw => OpLease (Worker_ID worker) (newWorkerJobLeaseToken Sum256 raw).2 now (Add now workerJobLeaseLifetime)
  | RequestRenew r => OpRenew (Worker_ID worker) (Renewal_JobID r) (Sum256 (Renewal_LeaseToken r)) now (Add now workerJobLeaseLifetime)
  | RequestEvidence envelope => OpEvidence envelope now
  | RequestResult r =>
      OpComplete {| Receipt_ResultID := Result_ID r; Receipt_JobID := Result_JobID r; Receipt_WorkerID := Worker_ID worker;
                    Receipt_Outcome := Result_Outcome r; Receipt_CompletedAt := Result_CompletedAt r; Receipt_AcceptedAt := now |}
        (Sum256 (Result_LeaseToken r)) now
  end.
(** The guard of the evidence handler. *)
Definition request_ok (certificate : option Certificate) (worker : ScannerWorker) (request : worker_request) (now : Time) (db : Db) : Prop :=
  match request with
  | RequestEvidence envelope => exists r, r ∈ db_jobs db /\ row_id r = Batch_JobID (SignedBatch_Batch envelope) /\
      Job_WorkerID (row_job r) = Worker_ID worker /\ VerifyForJob envelope certificate (row_job r) now = Ok tt
  | _ => True
  end.

Lemma serve_cases certificate request authAt now s :
  serve certificate request authAt now s = s \/
  exists worker, workerFromConnection (connection_identity certificate) authAt s = Ok worker /\
    request_ok certificate worker request now (identity_db s) /\
    identity_tokens (serve certificate request authAt now s) = identity_tokens s /\
    identity_db (serve certificate request authAt now s) = run_op (request_op worker request now) (identity_db s).
Proof.
  destruct request as [raw|r|envelope|r]; simpl.
  - unfold workerPollJob, authenticated. destruct (workerFromConnection _ _ _) as [worker|]; [|by left]. right. exists worker.
    unfold on_jobs, newWorkerJobLeaseToken. cbv zeta beta iota.
    split; [done|]. simpl. by destruct (LeaseScannerWorkerJob _ _ _ _ _) as [[envelope|e] db'].
  - unfold workerRenewJobLease, authenticated. destruct (workerFromConnection _ _ _) as [worker|]; [|by left].
    case_if; [by left|]. unfold workerLeaseTokenHash. case_if; [|by left]. right. exists worker.
    unfold on_jobs. destruct (RenewScannerWorkerJobLease _ _ _ _ _ _) as [[expiry|e] db']; done.
  - unfold workerSubmitEvidence, authenticated. destruct (workerFromConnection _ _ _) as [worker|]; [|by left].
    unfold ScannerWorkerJob. destruct (query_row _ _) as [r|] eqn:Eq; [|by left]. case_if; [by left|].
    destruct (VerifyForJob _ _ _ _) as [[]|] eqn:Ev; [|by left]. right. exists worker.
    apply query_row_Some in Eq as [Hr Hid]. unfold has_id in Hid. reflect_bools. split; [done|].
    unfold on_jobs. split; [by exists r|]. destruct (RecordScannerWorkerEvidenceBatch _ _ _) as [[[]|e] db']; done.
  - unfold workerSubmitResult, authenticated. destruct (workerFromConnection _ _ _) as [worker|]; [|by left].
    destruct (validateWorkerJobResult _ _); [|by left]. unfold workerLeaseTokenHash. case_if; [|by left]. right. exists worker.
    unfold on_jobs. destruct (CompleteScannerWorkerJob _ _ _ _ _) as [[[]|e] db']; done.
Qed.

Lemma request_admissible certificate worker request now db :
  request_ok certificate worker request now db -> admissible (request_op worker request now) db.
Proof.
  destruct request as [raw|r|envelope|r]; simpl; try done. intros (r & Hr & Hid & _ & Hv).
  destruct certificate as [certificate|]; [|done]. by exists certificate, r.
Qed.

Lemma server_op_effect op s :
  jobs_wf (identity_db s) -> store_effect (identity_db s) (identity_db (run_server_op op s)).
Proof.
  intros Hw. destruct op as [op|job now|jobID now|certificate request authAt now]; simpl.
  - left. apply identity_tables.
  - rewrite on_jobs_db. apply dispatch_effect.
  - rewrite on_jobs_db. by apply reassign_effect.
  - destruct (serve_cases certificate request authAt now s) as [->|(worker & _ & Hok & _ & ->)]; [by left|].
    right. exists (request_op worker request now). split; [by eapply request_admissible|done].
Qed.

Lemma run_server_op_ok op s : db_ok (identity_db s) -> db_ok (identity_db (run_server_op op s)).
Proof.
  intros Hok. destruct (server_op_effect op s (ok_jobs _ Hok)) as [(E1 & E2 & E3 & E4)|(sop & Ha & ->)].
  - by eapply db_ok_ext.
  - by apply store_op_ok.
Qed.
Lemma run_server_ok ops s : db_ok (identity_db s) -> db_ok (identity_db (run_server ops s)).
Proof. revert s. induction ops as [|op ops IH]; intros s Hs; [done|]. by apply IH, run_server_op_ok. Qed.

(** ** One worker's requests *)

Lemma update_where_keep {Row} (p : Row -> bool) f l r : r ∈ l -> p r = false -> r ∈ update_where p f l.
Proof. intros Hr Hp. apply elem_of_update_where. exists r. by rewrite Hp. Qed.

Lemma quarantine_keeps worker now db r :
  jobs_wf db -> r ∈ db_jobs db -> row_worker_id r <> worker -> r ∈ db_jobs (quarantineRepeatedWorkerJobs worker now db).
Proof.
  intros [_ Hi Hd _] Hr Hne. unfold quarantineRepeatedWorkerJobs. simpl. apply update_where_keep; [done|].
  apply not_true_iff_false. intros Hp%(quarantine_target db worker _ r Hi Hd Hr). by apply repeatedly_lapsed_true in Hp as [? _].
Qed.

Lemma lease_keeps worker token now expiry db r :
  jobs_wf db -> r ∈ db_jobs db -> row_worker_id r <> worker -> r ∈ db_jobs (LeaseScannerWorkerJob worker token now expiry db).2.
Proof.
  intros Hw Hr Hne. assert (Hf : bool_decide (row_worker_id r = worker) = false) by by apply bool_decide_eq_false.
  assert (Hm : r ∈ db_jobs (lease_maintenance worker now db)).
  { unfold lease_maintenance. simpl. apply update_where_keep; [apply update_where_keep; [by apply quarantine_keeps|]|].
    - unfold expirable. by rewrite Hf.
    - unfold releasable. by rewrite Hf. }
  unfold LeaseScannerWorkerJob. destruct (query_first _ _ _) as [r0|]; [|done]. case_if; [done|]. simpl.
  apply update_where_keep; [done|]. by rewrite Hf, andb_false_r.
Qed.

(** A transaction that a worker's request starts leaves other workers' jobs alone. *)
Lemma request_keeps worker request now db r :
  jobs_wf db -> r ∈ db_jobs db -> row_worker_id r <> Worker_ID worker -> r ∈ db_jobs (run_op (request_op worker request now) db).
Proof.
  intros Hw Hr Hne. destruct request as [raw|q|envelope|q]; simpl.
  - by apply lease_keeps.
  - unfold RenewScannerWorkerJobLease. case_if; [done|]. destruct (query_row _ _ ≫= _); [|done]. simpl.
    apply update_where_keep; [done|]. apply not_true_iff_false. by intros (_ & ? & _)%holds_lease_true.
  - unfold RecordScannerWorkerEvidenceBatch. repeat (case_match; simpl); done.
  - unfold CompleteScannerWorkerJob. case_if; [done|]. destruct (query_row _ _) as [r0|].
    + case_if; [|done]. match goal with |- context [projectScannerWorkerResult ?m ?c ?d] => pose proof (proj1 (project_jobs m c d)) as E1 end.
      destruct (projectScannerWorkerResult _ _ db) as [[|] db']; simpl in *; by rewrite E1.
    + case_if; [done|]. rewrite (proj1 (project_jobs _ _ _)). apply update_where_keep; [done|]. apply not_true_iff_false.
      unfold completable. rewrite andb_true_iff. by intros [(_ & ? & _)%holds_lease_true _].
Qed.

Lemma run_op_workers op db : db_workers (run_op op db) = db_workers db.
Proof.
  destruct op; simpl; unfold CreateScannerWorkerJob, LeaseScannerWorkerJob, RenewScannerWorkerJobLease, RecordScannerWorkerEvidenceBatch,
    ScannerWorkerJobResumeCandidate, ReassignScannerWorkerJob, CompleteScannerWorkerJob, projectScannerWorkerResult;
    repeat (case_match; simplify_eq/=); done.
Qed.

(** Evidence that a request adds is of a job of its worker. *)
Lemma request_evidence certificate worker request now db :
  evidence_wf db -> jobs_wf db -> request_ok certificate worker request now db ->
  let own jobID := exists r, r ∈ db_jobs db /\ row_id r = jobID /\ row_worker_id r = Worker_ID worker in
  (forall e, e ∈ db_evidence (run_op (request_op worker request now) db) -> e ∈ db_evidence db \/ own (evidence_job_id e)) /\
  (forall c, c ∈ db_checkpoints (run_op (request_op worker request now) db) -> c ∈ db_checkpoints db \/ own (checkpoint_job_id c)).
Proof.
  intros He Hw Hok own.
  assert (Hcase : (exists envelope, request = RequestEvidence envelope) \/
                  (forall envelope n, request_op worker request now <> OpEvidence envelope n))
    by (destruct request; [right; done|right; done|left; eauto|right; done]).
  destruct Hcase as [[envelope ->]|Hne].
  2: { destruct (evidence_unchanged matchObservation _ db Hne) as [-> ->]. auto. }
  simpl in Hok. destruct Hok as (r & Hr & Hid & Hwk & _). pose proof (jobs_wf_row db r Hw Hr) as [_ _ _ _ [_ Ewk]].
  assert (Hown : own (Batch_JobID (SignedBatch_Batch envelope))) by (exists r; split_and!; [done..|unfold row_job in Hwk; congruence]).
  simpl. pose proof (record_evidence_cases envelope now db He) as C. cbv zeta in C.
  destruct (RecordScannerWorkerEvidenceBatch envelope now db) as [[[]|e] db']; simpl; [|subst; auto].
  destruct C as (_ & _ & _ & rows & (new & -> & Hnew)%recordWorkerCheckpoints_new & ->). simpl. split.
  - intros e [?| ->%list_elem_of_singleton]%elem_of_app; auto.
  - intros c [?|Hc]%elem_of_app; [auto|]. rewrite Forall_forall in Hnew. destruct (Hnew c Hc) as [-> _]. auto.
Qed.

(** * Properties *)

(** Whatever the administrators, the dispatcher and the workers do, in any
    order and at any times, the job and evidence tables stay well formed; every
    stored job was validated for the worker it was signed for; every stored
    batch of evidence was verified under a certificate against its job; every
    checkpoint was reported by a stored batch; and a job that succeeded has as
    many checkpoints as probes. *)
Theorem server_invariant (ops : list server_op) (s : IdentityDb) (Hs : db_ok (identity_db s)) :
  db_ok (identity_db (run_server ops s)).
Proof using Type. by apply run_server_ok. Qed.

(** C9: a scan's success can be believed: when a job over IPv4 targets is
    recorded as succeeded, in any state the server reaches, then for every one
    of its targets and every one of its ports the database holds a batch of
    evidence that was verified for this job and that reports exactly that probe. *)
Theorem succeeded_job_checked_everywhere (ops : list server_op) (s : IdentityDb) (r : JobRow) (t : Target) (p : Z)
  (Hs : db_ok (identity_db s)) (Hr : r ∈ db_jobs (identity_db (run_server ops s)))
  (Hsucc : row_result_outcome r = Some WorkerJobResultSucceeded)
  (H4 : Forall target4 (Job_Targets (row_job r))) (Ht : t ∈ Job_Targets (row_job r)) (Hp : p ∈ Job_Ports (row_job r)) :
  exists e checkpoint certificate job now, e ∈ db_evidence (identity_db (run_server ops s)) /\ evidence_job_id e = row_id r /\
    VerifyForJob (evidence_signed_envelope e) (Some certificate) job now = Ok tt /\ same_scope job (row_job r) /\
    checkpoint ∈ Batch_Checkpoints (SignedBatch_Batch (evidence_signed_envelope e)) /\
    Checkpoint_Address checkpoint = Target_Address t /\ Checkpoint_Port checkpoint = p.
Proof using Type. by eapply succeeded_probes; [apply run_server_ok|..]. Qed.


(** A projection that fails changes nothing. *)
Lemma project_failed receipt db e :
  (projectScannerWorkerResult matchObservation receipt db).1 = Err e -> (projectScannerWorkerResult matchObservation receipt db).2 = db.
Proof using Type. unfold projectScannerWorkerResult. repeat (case_match; simplify_eq/=); done. Qed.

(** Neither does a completion, but for a result that was stored and could not be
    projected onto its scan. *)
Lemma complete_failed receipt token now db e :
  (CompleteScannerWorkerJob matchObservation receipt token now db).1 = Err e ->
  let db' := (CompleteScannerWorkerJob matchObservation receipt token now db).2 in
  e = ErrWorkerResultAlreadyAccepted \/ db' = db \/ (projectScannerWorkerResult matchObservation receipt db').1 = Err e.
Proof using Type.
  unfold CompleteScannerWorkerJob. case_if; [auto|]. destruct (query_row _ (db_jobs db)) as [r|].
  - case_if; [|auto]. pose proof (project_failed receipt db) as C.
    destruct (projectScannerWorkerResult _ _ db) as [[[]|e'] db']; simpl in *; intros [= <-]; [by left|].
    right; left. by eapply C.
  - case_if; [auto|]. match goal with |- context [projectScannerWorkerResult _ _ ?d] => pose proof (project_failed receipt d e) as C end.
    intros He. specialize (C He). right; right. simpl. by rewrite C.
Qed.

Lemma base64url_digit_ok n : is_base64url (base64url_digit n) = true.
Proof using Type.
  unfold base64url_digit. generalize (Z.to_nat n). intros k. destruct (decide (k < 64)%nat) as [Hk|Hk].
  - assert (F : forallb (fun k => is_base64url (default "A"%char (String.get k base64url_alphabet))) (seq 0 64) = true) by reflexivity.
    rewrite forallb_forall in F. apply F, in_seq. lia.
  - replace (String.get k base64url_alphabet) with (@None ascii); [done|]. symmetry.
    do 64 (destruct k as [|k]; [lia|]). done.
Qed.
Lemma base64url_digits_cons n s :
  base64url_digits (String (base64url_digit n) s) = (fun k => k + 1) <$> base64url_digits s.
Proof using Type.
  simpl. pose proof (base64url_digit_ok n) as Hd. rewrite Hd. unfold is_base64url in Hd.
  replace ((byte_val (base64url_digit n) =? 10) || (byte_val (base64url_digit n) =? 13)) with false; [by destruct (base64url_digits s)|].
  symmetry. apply orb_false_iff. rewrite !Z.eqb_neq. split; intros E; by rewrite E in Hd.
Qed.
Lemma base64url_digits_encode k raw :
  (length raw <= k)%nat -> base64url_digits (RawURL_Encode raw) = Some ((8 * Z.of_nat (length raw) + 5) / 6).
Proof using Type.
  revert raw. induction k as [|k IH]; intros raw Hk; [by destruct raw; [|simpl in Hk; lia]|].
  destruct raw as [|a [|b [|c raw]]]; cbn [RawURL_Encode]; rewrite ?base64url_digits_cons; [done..|].
  rewrite IH by (simpl in Hk; lia). cbn [length fmap option_fmap option_map]. f_equal.
  replace (8 * Z.of_nat (S (S (S (length raw)))) + 5) with (8 * Z.of_nat (length raw) + 5 + 4 * 6) by lia.
  rewrite Z.div_add by lia. lia.
Qed.

(** The token that polling hands out is one that renewals and results accept,
    and they look it up under the very hash that was stored with the lease. *)
Theorem issued_lease_token_accepted (raw : list Z) (Hlen : length raw = 32%nat) :
  workerLeaseTokenHash Sum256 (newWorkerJobLeaseToken Sum256 raw).1 = Some (newWorkerJobLeaseToken Sum256 raw).2.
Proof using Type.
  unfold workerLeaseTokenHash, newWorkerJobLeaseToken, base64url_decoded_length. simpl.
  rewrite (base64url_digits_encode 32) by lia. by rewrite Hlen.
Qed.

(** An error answer is final: a request answered with an error status leaves
    the database exactly as it was, except a result that was accepted but could
    not be projected onto its scan: that one is answered with the status of the
    projection's error, 503 unless the error is one of the store's own. *)
Theorem refused_request_unchanged (certificate : option Certificate) (request : worker_request) (authAt now : Time) (s : IdentityDb)
  (Hs : jobs_wf (identity_db s)) (Herr : 400 <= answered Sum256 matchObservation certificate request authAt now s) :
  let s' := serve certificate request authAt now s in
  s' = s \/
  exists r receipt e, request = RequestResult r /\ Receipt_ResultID receipt = Result_ID r /\ Receipt_JobID receipt = Result_JobID r /\
    (projectScannerWorkerResult matchObservation receipt (identity_db s')).1 = Err e /\
    (answered Sum256 matchObservation certificate request authAt now s = StatusServiceUnavailable \/
     e = ErrWorkerResultReplay \/ e = ErrInvalidWorkerJobLease).
Proof using Type.
  assert (Heta : forall db, db = identity_db s -> {| identity_tokens := identity_tokens s; identity_db := db |} = s).
  { intros db ->. by destruct s. }
  intros s'. unfold s'. clear s'. destruct request as [raw|r|envelope|r]; simpl in *.
  - left. unfold workerPollJob, authenticated in *. destruct (workerFromConnection _ _ _) as [worker|]; [|done].
    unfold on_jobs, newWorkerJobLeaseToken in *. cbv zeta beta iota in *.
    pose proof (lease_cases (identity_db s) (Worker_ID worker) (Sum256 (RawURL_Encode raw)) now (Add now workerJobLeaseLifetime) Hs) as C.
    destruct (LeaseScannerWorkerJob _ _ _ _ _) as [[envelope|e] db']; [done|]. destruct C as (-> & _). done.
  - left. unfold workerRenewJobLease, authenticated in *. destruct (workerFromConnection _ _ _) as [worker|]; [|done].
    destruct (blank _); [done|]. destruct (workerLeaseTokenHash _ _); [|done]. unfold on_jobs, RenewScannerWorkerJobLease in *.
    destruct (negb _); [by apply Heta|]. destruct (query_row _ _ ≫= _); [done|]. by apply Heta.
  - left. unfold workerSubmitEvidence, authenticated in *. destruct (workerFromConnection _ _ _) as [worker|]; [|done].
    destruct (ScannerWorkerJob _ _); [|done]. destruct (negb _); [done|]. destruct (VerifyForJob _ _ _ _); [|done].
    unfold on_jobs, RecordScannerWorkerEvidenceBatch in *. destruct (query_row _ _); [by apply Heta|].
    destruct (validateEvidenceSequence _ _ _); [|by apply Heta]. destruct (negb _); [by apply Heta|].
    destruct (recordWorkerCheckpoints _ _); [done|by apply Heta].
  - unfold workerSubmitResult, authenticated in *. destruct (workerFromConnection _ _ _) as [worker|]; [|by left].
    destruct (validateWorkerJobResult _ _); [|by left]. destruct (workerLeaseTokenHash _ _) as [hash|]; [|by left]. unfold on_jobs in *.
    match type of Herr with context [CompleteScannerWorkerJob _ ?c _ _ _] => set (receipt := c) in *;
      pose proof (complete_failed receipt hash now (identity_db s)) as C end.
    destruct (CompleteScannerWorkerJob _ _ _ _ _) as [[[]|e] db'] eqn:E; [done|]. simpl in *.
    destruct (C e eq_refl) as [->|[->|Hp]]; [done|left; by apply Heta|]. right. exists r, receipt, e.
    split_and!; try done. case_bool_decide; [subst; done|]. case_bool_decide; [auto|]. case_bool_decide; [auto|]. by left.
Qed.
End server.
