(* ===== verification/WorkerServiceExamples.v ===== *)
(** The identity store and the scanner-worker server on a concrete history: a worker is enrolled and
    checks in, a job is dispatched to it, polled, evidenced and completed. *)
From Stdlib Require Import ZArith Lia String.
From stdpp Require Import base tactics list list_numbers strings gmap sets.
From S2P Require Import Prelude GoStrings GoTime GoRegex Netip WorkerModel WorkerJob WorkerEvidence Dispatcher Sql WorkerStore WorkerJobMachine WorkerExamples WorkerIdentity WorkerIdentitySafety WorkerService WorkerServiceSafety.
Open Scope Z_scope.

(** SHA-256 by identity, and an authority that issues for ninety days. *)
Definition test_sum (token : string) : string := token.
Definition test_issue (id name csr : string) (now : Time) : result (string * Time) :=
  Ok ("serial-" +:+ id, Add now (90 * 24 * Hour)).

Definition test_token : string := "00112233445566778899aabbccddeeff00112233445566778899AABBCCDDEEFF".
Definition test_request : WorkerEnrollmentToken := {|
  Enrollment_ID := ""; Enrollment_Name := " Branch scanner "; Enrollment_SiteID := "HQ"; Enrollment_TokenHash := "";
  Enrollment_AllowedCIDRs := ["10.0.0.7/24"; " 10.0.0.0/24"; "2001:DB8::1/32"]%string; Enrollment_AllowedPorts := [443; 80; 443];
  Enrollment_MaxConcurrent := 8; Enrollment_RateLimitPerSecond := 100; Enrollment_CreatedBy := "";
  Enrollment_CreatedAt := t0; Enrollment_ExpiresAt := t0 |}.
Definition test_heartbeat : WorkerHeartbeat := {|
  Heartbeat_SchemaVersion := 1; Heartbeat_SoftwareVersion := "1.2.0"; Heartbeat_OperatingSystem := "Linux";
  Heartbeat_Architecture := "amd64"; Heartbeat_Capabilities := [WorkerCapabilityTCPConnect; WorkerCapabilityHTTP];
  Heartbeat_AvailableConcurrency := 4; Heartbeat_Health := WorkerHealthHealthy; Heartbeat_HealthMessage := "" |}.
Definition test_certificate : option (string * list string) :=
  Some ("serial-w9", ["spiffe://mossward/scanner-worker/w9"])%string.

Definition empty_identity : IdentityDb := {|
  identity_tokens := [];
  identity_db := {| db_workers := []; db_dispatch_enabled := true; db_jobs := []; db_assignments := []; db_evidence := [];
                    db_checkpoints := []; db_dead_letters := []; db_scans := [] |} |}.
Definition run_test (ops : list identity_op) (s : IdentityDb) : IdentityDb := run_identities test_sum test_issue ops s.
Definition ops_token : list identity_op := [OpCreateToken test_request "admin" "token-1" test_token (after (-120))].
Definition ops_enrolled : list identity_op := ops_token ++ [OpEnroll test_token "csr" "w9" (after (-60))].
Definition ops_heard : list identity_op := ops_enrolled ++ [OpCheckIn test_certificate test_heartbeat (after (-30))].
Definition ops_revoked : list identity_op := ops_heard ++ [OpRevoke "w9" "lost" t0].
Definition the_worker (s : IdentityDb) : ScannerWorker := default (test_worker "") (head (identity_workers s)).

Lemma empty_identity_ok : identity_ok empty_identity.
Proof. split; simpl; [constructor|constructor|split; constructor|constructor]. Qed.
Lemma run_test_ok ops : identity_ok (run_test ops empty_identity).
Proof. apply run_identities_ok, empty_identity_ok. Qed.
Lemma the_worker_elem s : identity_workers s <> [] -> the_worker s ∈ identity_workers s.
Proof. unfold the_worker. destruct (identity_workers s); [done|]. left. Qed.

Example enrolled_scope :
  let w := the_worker (run_test ops_heard empty_identity) in
  (Worker_Name w, Worker_SiteID w, Worker_AllowedCIDRs w, Worker_AllowedPorts w, Worker_Capabilities w) =
  ("Branch scanner", "hq", ["10.0.0.0/24"; "2001:db8::/32"], [80; 443],
   [WorkerCapabilityHTTP; WorkerCapabilityTCPConnect])%string.
Proof. vm_compute. reflexivity. Qed.

Lemma identity_invariant_witness :
  identity_ok (run_test ops_revoked empty_identity) /\ length (identity_workers (run_test ops_revoked empty_identity)) = 1%nat.
Proof.
  split; [exact (identity_invariant test_sum test_issue ops_revoked empty_identity empty_identity_ok)|vm_compute; reflexivity].
Defined.

Lemma token_enrolls_once_witness :
  exists s1 w, EnrollWorker test_sum test_issue test_token "csr" "w9" (after (-60)) (run_test ops_token empty_identity) = (Ok w, s1) /\
  (EnrollWorker test_sum test_issue test_token "other" "w10" t0
     (run_test [OpCheckIn test_certificate test_heartbeat (after (-30))] s1)).1 = Err ErrInvalidEnrollmentToken.
Proof.
  destruct (EnrollWorker test_sum test_issue test_token "csr" "w9" (after (-60)) (run_test ops_token empty_identity)) as [r s1] eqn:E.
  destruct r as [w|e].
  - exists s1, w. split; [reflexivity|].
    apply (token_enrolls_once test_sum test_issue test_token "csr" "w9" "other" "w10" (after (-60)) t0
      (run_test ops_token empty_identity) s1 w _ (run_test_ok _) E).
  - exfalso. vm_compute in E. discriminate E.
Defined.

Lemma revocation_final_witness :
  let s := run_test ops_revoked empty_identity in
  the_worker s ∈ identity_workers (run_test ops_heard s).
Proof.
  intros s.
  apply (revocation_final test_sum test_issue ops_heard s (the_worker s)).
  - exact (run_test_ok _).
  - apply the_worker_elem. vm_compute. discriminate.
  - vm_compute. reflexivity.
Defined.

Lemma fleet_state_dispatch_witness :
  let w := the_worker (run_test ops_heard empty_identity) in
  is_Some (candidate_for (test_job "" ["10.0.0.7"]%string [80]) ∅ t0 "" w) /\
  (Fleet_State (fleet_worker ∅ t0 w) = WorkerFleetHealthy \/ Fleet_State (fleet_worker ∅ t0 w) = WorkerFleetOutdated \/
   Fleet_State (fleet_worker ∅ t0 w) = WorkerFleetOffline /\
   exists seen, Worker_LastSeenAt w = Some seen /\ Sub t0 seen = 5 * Minute).
Proof.
  intros w. assert (Hc : is_Some (candidate_for (test_job "" ["10.0.0.7"]%string [80]) ∅ t0 "" w)).
  { destruct (candidate_for _ _ _ _ _) eqn:E; [eexists; reflexivity|]. exfalso. vm_compute in E. discriminate E. }
  split; [exact Hc|].
  apply (fleet_state_dispatch (test_job "" ["10.0.0.7"]%string [80]) ∅ t0 "" w); [| |exact Hc].
  - split; vm_compute; discriminate.
  - pose proof (workers_ok _ (run_test_ok ops_heard)) as H. rewrite Forall_forall in H. apply H, the_worker_elem.
    vm_compute. discriminate.
Defined.

#[local] Existing Instances test_crypto test_crypto_laws test_evidence_crypto.

Definition w9_certificate : Certificate := {|
  Certificate_Serial := Some "serial-w9"%string; Certificate_NotBefore := after (-86400); Certificate_NotAfter := after 86400;
  Certificate_DigitalSignature := true; Certificate_URIs := ["spiffe://mossward/scanner-worker/w9"]%string;
  Certificate_Key := KeyECDSA; Certificate_PublicKey := "pk" |}.
(** The bytes of a lease token. *)
Definition lease_bytes : list Z := seqZ 0 32.
Definition lease_token : string := RawURL_Encode lease_bytes.

Definition w9_batch (id : string) (sequence : Z) (final : bool) (addresses : list string) : SignedWorkerEvidenceBatch :=
  {| SignedBatch_Algorithm := "ECDSA-SHA256"; SignedBatch_CertificateSerial := "serial-w9";
     SignedBatch_Batch := {| Batch_SchemaVersion := 1; Batch_ID := id; Batch_WorkerID := "w9"; Batch_JobID := "job-1";
       Batch_ScanID := "scan-1"; Batch_Sequence := sequence; Batch_Final := final; Batch_CollectedAt := after 30;
       Batch_Observations := []; Batch_Findings := [];
       Batch_Checkpoints := (fun a => {| Checkpoint_Address := a; Checkpoint_Port := 80; Checkpoint_CompletedAt := after 30 |}) <$> addresses |};
     SignedBatch_Signature := "" |}.
Definition w9_result : WorkerJobResult := {|
  Result_SchemaVersion := 1; Result_ID := "result-1"; Result_JobID := "job-1"; Result_LeaseToken := lease_token;
  Result_Outcome := WorkerJobResultSucceeded; Result_CompletedAt := after 50 |}.

Definition start : IdentityDb := {|
  identity_tokens := [];
  identity_db := {| db_workers := []; db_dispatch_enabled := true; db_jobs := []; db_assignments := []; db_evidence := [];
                    db_checkpoints := []; db_dead_letters := []; db_scans := [test_scan] |} |}.
Definition request (r : worker_request) (seconds : Z) : server_op := ServerRequest (Some w9_certificate) r (after seconds) (after seconds).
Definition history_dispatched : list server_op :=
  (ServerIdentity <$> ops_heard) ++ [ServerDispatch (test_job "" ["10.0.0.7"; "10.0.0.8"]%string [80]) (after 5)].
Definition history_leased : list server_op := history_dispatched ++ [request (RequestPoll lease_bytes) 10].
Definition history_completed : list server_op :=
  history_leased ++ [request (RequestEvidence (w9_batch "b1" 1 false ["10.0.0.8"]%string)) 40;
                     request (RequestEvidence (w9_batch "b2" 2 true ["10.0.0.7"]%string)) 41;
                     request (RequestResult w9_result) 60].
Definition run_history (ops : list server_op) : IdentityDb := run_server test_sum test_issue no_matches tt ops start.
Definition history_job (ops : list server_op) : JobRow := the_job (identity_db (run_history ops)).

Example completed_outcome : row_result_outcome (history_job history_completed) = Some WorkerJobResultSucceeded.
Proof. vm_compute. reflexivity. Qed.

(** Without the second batch the result is refused. *)
Example early_result_refused :
  (workerSubmitResult test_sum no_matches (Some w9_certificate) w9_result (after 60) (after 60)
     (run_history (history_leased ++ [request (RequestEvidence (w9_batch "b1" 1 true ["10.0.0.8"]%string)) 40]))).1
  = refuse StatusConflict.
Proof. vm_compute. reflexivity. Qed.

Lemma start_ok : db_ok (identity_db start).
Proof.
  split; simpl; try (by constructor).
  - split; simpl; [constructor|constructor| |constructor]. by intros d Hd%not_elem_of_nil.
  - split; [constructor|done|constructor|constructor|constructor].
Qed.

Lemma server_invariant_witness :
  db_ok (identity_db (run_history history_completed)) /\ length (db_evidence (identity_db (run_history history_completed))) = 2%nat.
Proof.
  split; [|vm_compute; reflexivity].
  exact (@server_invariant test_sum test_issue no_matches test_crypto test_evidence_crypto tt history_completed start start_ok).
Defined.

Lemma succeeded_job_checked_everywhere_witness :
  exists e checkpoint certificate job now, e ∈ db_evidence (identity_db (run_history history_completed)) /\
    evidence_job_id e = "job-1"%string /\
    VerifyForJob (evidence_signed_envelope e) (Some certificate) job now = Ok tt /\
    same_scope job (row_job (history_job history_completed)) /\
    checkpoint ∈ Batch_Checkpoints (SignedBatch_Batch (evidence_signed_envelope e)) /\
    Checkpoint_Address checkpoint = "10.0.0.7"%string /\ Checkpoint_Port checkpoint = 80.
Proof.
  assert (ET : Job_Targets (row_job (history_job history_completed)) = [test_target "10.0.0.7"; test_target "10.0.0.8"])
    by (vm_compute; reflexivity).
  assert (EP : Job_Ports (row_job (history_job history_completed)) = [80]) by (vm_compute; reflexivity).
  apply (@succeeded_job_checked_everywhere test_sum test_issue no_matches test_crypto test_evidence_crypto tt history_completed start
    (history_job history_completed) (test_target "10.0.0.7") 80 start_ok).
  - apply the_job_elem. vm_compute. discriminate.
  - vm_compute. reflexivity.
  - rewrite ET. constructor; [|constructor; [|constructor]]; eexists; vm_compute; reflexivity.
  - rewrite ET. left.
  - rewrite EP. left.
Defined.


Lemma refused_request_unchanged_witness :
  let s := run_history (history_leased ++ [request (RequestEvidence (w9_batch "b1" 1 true ["10.0.0.8"]%string)) 40]) in
  answered test_sum no_matches (Some w9_certificate) (RequestResult w9_result) (after 60) (after 60) s = StatusConflict /\
  (serve test_sum no_matches (Some w9_certificate) (RequestResult w9_result) (after 60) (after 60) s = s \/
   exists receipt e, (projectScannerWorkerResult no_matches receipt
     (identity_db (serve test_sum no_matches (Some w9_certificate) (RequestResult w9_result) (after 60) (after 60) s))).1 = Err e).
Proof.
  intros s. assert (Ha : answered test_sum no_matches (Some w9_certificate) (RequestResult w9_result) (after 60) (after 60) s = StatusConflict)
    by (vm_compute; reflexivity).
  split; [exact Ha|].
  destruct (refused_request_unchanged test_sum no_matches (Some w9_certificate) (RequestResult w9_result) (after 60) (after 60) s)
    as [E|(r & receipt & e & _ & _ & _ & Hp & _)].
  - apply ok_jobs. exact (@run_server_ok test_sum test_issue no_matches test_crypto test_evidence_crypto tt _ start start_ok).
  - rewrite Ha. unfold StatusConflict. lia.
  - left. exact E.
  - right. exists receipt, e. exact Hp.
Defined.

Lemma issued_lease_token_accepted_witness :
  workerLeaseTokenHash test_sum lease_token = Some lease_token.
Proof. apply (issued_lease_token_accepted test_sum lease_bytes). reflexivity. Defined.
