(* ===== verification/WorkerOutbox.v ===== *)
(** internal/workerclient/outbox.go and backpressure.go: the scanner worker's
    encrypted outbox, over the rows of its table in insertion order, and the
    pressure it reports. AES-GCM and the JSON text of the associated data are
    operations of a class; opening the database and its key file is not
    modelled. *)
From Stdlib Require Import ZArith Lia String.
From stdpp Require Import base tactics list strings.
From S2P Require Import Prelude GoStrings GoFloat GoTime Sql.
Open Scope Z_scope.

Definition outboxIdentityLimit : Z := 200.
Definition ErrOutboxFull : error := "scanner-worker outbox capacity is exhausted".
Definition ErrOutboxDuplicate : error := "scanner-worker outbox message already exists".
Definition ErrOutboxEmpty : error := "scanner-worker outbox is empty".

Definition OutboxKind := string.
Definition OutboxEvidence : OutboxKind := "evidence".
Definition OutboxCompletion : OutboxKind := "completion".

Record OutboxLimits := { Outbox_MaxItems : Z; Outbox_MaxBytes : Z }.
Record OutboxMessage := {
  Message_ID : string;
  Message_Kind : OutboxKind;
  Message_Payload : string;
  Message_CreatedAt : Time }.
Record OutboxStats := { Outbox_Items : Z; Outbox_Bytes : Z }.

(** outbox_messages *)
Record OutboxRow := {
  outbox_id : string;
  outbox_kind : OutboxKind;
  outbox_ciphertext : string;
  outbox_nonce : string;
  outbox_size : Z;
  outbox_created_at : string }.

Class OutboxCrypto := {
  (** AES-GCM with the outbox key. *)
  aead_Seal : string -> string -> string -> string;
  aead_Open : string -> string -> string -> option string;
  (** The JSON object of the identifier, kind and creation text. *)
  aad_json : string -> OutboxKind -> string -> string }.
Class OutboxCryptoLaws `{OutboxCrypto} : Prop := {
  aead_Open_Seal : forall nonce plaintext aad, aead_Open nonce (aead_Seal nonce plaintext aad) aad = Some plaintext }.

Definition validateOutboxMessage (message : OutboxMessage) (limits : OutboxLimits) : result () :=
  reject blank (Message_ID message) || (outboxIdentityLimit <? strlen (Message_ID message)) ||
         (strlen (Message_Payload message) =? 0) || (Outbox_MaxBytes limits <? strlen (Message_Payload message)) ||
         IsZero (Message_CreatedAt message)
    as "scanner-worker outbox message is invalid";;
  reject negb (bool_decide (Message_Kind message = OutboxEvidence)) && negb (bool_decide (Message_Kind message = OutboxCompletion))
    as "scanner-worker outbox message kind is invalid";;
  Ok tt.

Definition has_outbox_id (id : string) (r : OutboxRow) : bool := bool_decide (outbox_id r = id).
Definition outbox_size_total (rows : list OutboxRow) : Z := fold_right (fun r n => outbox_size r + n) 0 rows.

Section outbox.
Context `{OutboxCrypto} (limits : OutboxLimits).

Definition outboxAAD (id : string) (kind : OutboxKind) (createdAt : Time) : string := aad_json id kind (formatTime createdAt).

Definition outbox_row (nonce : string) (message : OutboxMessage) : OutboxRow :=
  {| outbox_id := Message_ID message; outbox_kind := Message_Kind message;
     outbox_ciphertext := aead_Seal nonce (Message_Payload message)
       (outboxAAD (Message_ID message) (Message_Kind message) (Message_CreatedAt message));
     outbox_nonce := nonce; outbox_size := strlen (Message_Payload message);
     outbox_created_at := formatTime (Message_CreatedAt message) |}.

(** [Enqueue], with the random nonce. *)
Definition OutboxEnqueue (nonce : string) (message : OutboxMessage) : st (list OutboxRow) () := fun rows =>
  match validateOutboxMessage message limits with
  | Err e => (Err e, rows)
  | Ok _ =>
      match query_row (has_outbox_id (Message_ID message)) rows with
      | Some _ => (Err ErrOutboxDuplicate, rows)
      | None =>
          if (Outbox_MaxItems limits <=? Z.of_nat (length rows)) ||
             (Outbox_MaxBytes limits <? wrap64 (outbox_size_total rows + strlen (Message_Payload message)))
          then (Err ErrOutboxFull, rows)
          else (Ok tt, rows ++ [outbox_row nonce message])
      end
  end.

Definition open_row (r : OutboxRow) : result OutboxMessage :=
  match parseTime (outbox_created_at r) with
  | None => Err "scanner-worker outbox timestamp is invalid"
  | Some createdAt =>
      match aead_Open (outbox_nonce r) (outbox_ciphertext r) (outboxAAD (outbox_id r) (outbox_kind r) createdAt) with
      | None => Err "scanner-worker outbox integrity verification failed"
      | Some payload => Ok {| Message_ID := outbox_id r; Message_Kind := outbox_kind r; Message_Payload := payload;
                              Message_CreatedAt := createdAt |}
      end
  end.

Definition OutboxPeek (rows : list OutboxRow) : result OutboxMessage :=
  match rows with
  | [] => Err ErrOutboxEmpty
  | r :: _ => open_row r
  end.

Definition OutboxAcknowledge (id : string) : st (list OutboxRow) () := fun rows =>
  let rows' := select_where (fun r => negb (has_outbox_id id r)) rows in
  if negb (affected (has_outbox_id id) rows =? 1) then (Err ErrOutboxEmpty, rows') else (Ok tt, rows').

Definition OutboxStatistics (rows : list OutboxRow) : OutboxStats :=
  {| Outbox_Items := Z.of_nat (length rows); Outbox_Bytes := outbox_size_total rows |}.

(** ** Forwarding *)

Section forward.
(** The context's error and the sender, over a state of their own. *)
Context {World : Type} (ctx_Err : World -> option error) (send : OutboxMessage -> World -> result () * World).

(** The loop, with [maximum - forwarded] iterations left. *)
Fixpoint forward_loop (left_ : nat) (forwarded : Z) (rows : list OutboxRow) (w : World)
  : Z * option error * list OutboxRow * World :=
  match left_ with
  | O => (forwarded, None, rows, w)
  | S left' =>
      match ctx_Err w with
      | Some e => (forwarded, Some e, rows, w)
      | None =>
          match OutboxPeek rows with
          | Err e => if bool_decide (e = ErrOutboxEmpty) then (forwarded, None, rows, w) else (forwarded, Some e, rows, w)
          | Ok message =>
              let '(sent, w') := send message w in
              match sent with
              | Err e => (forwarded, Some e, rows, w')
              | Ok _ =>
                  let '(acked, rows') := OutboxAcknowledge (Message_ID message) rows in
                  match acked with
                  | Err e => (forwarded, Some e, rows', w')
                  | Ok _ => forward_loop left' (forwarded + 1) rows' w'
                  end
              end
          end
      end
  end.

Definition ForwardPending (maximum : Z) (rows : list OutboxRow) (w : World) : Z * option error * list OutboxRow * World :=
  if maximum <? 1 then (0, Some "scanner-worker outbox forwarding configuration is invalid"%string, rows, w)
  else forward_loop (Z.to_nat maximum) 0 rows w.
End forward.
End outbox.

(** * Backpressure *)

Definition percentageScale : Z := 100.
Definition OutboxPressure := string.
Definition OutboxPressureNormal : OutboxPressure := "normal".
Definition OutboxPressureElevated : OutboxPressure := "elevated".
Definition OutboxPressureCritical : OutboxPressure := "critical".
Definition OutboxPressureFull : OutboxPressure := "full".

Record BackpressurePolicy := { PausePollingAtPercent : Z; CriticalAtPercent : Z }.
Record BackpressureState := { Pressure : OutboxPressure; UsagePercent : Z; AcceptNewJobs : bool; HasPending : bool }.

Definition DefaultBackpressurePolicy : BackpressurePolicy := {| PausePollingAtPercent := 75; CriticalAtPercent := 90 |}.

Definition validateBackpressurePolicy (p : BackpressurePolicy) : result () :=
  reject (PausePollingAtPercent p <? 1) || (CriticalAtPercent p <=? PausePollingAtPercent p) ||
         (percentageScale <? CriticalAtPercent p)
    as "scanner-worker backpressure thresholds are invalid";;
  Ok tt.

(** [int(math.Ceil(float64(value) * 100 / float64(maximum)))] for positive
    operands: each conversion, the product and the quotient round to 53 bits. *)
Definition roundedUpPercent (value maximum : Z) : Z :=
  if value <=? 0 then 0 else
  let v := float_of_ratio value 1 in
  let product := float_of_ratio (float_num v * percentageScale) (float_den v) in
  let m := float_of_ratio maximum 1 in
  float_ceil (float_of_ratio (float_num product * float_den m) (float_den product * float_num m)).

Definition maximumPercentage (items maximumItems bytes maximumBytes : Z) : Z :=
  let itemPercent := roundedUpPercent items maximumItems in
  let bytePercent := roundedUpPercent bytes maximumBytes in
  if itemPercent <? bytePercent then bytePercent else itemPercent.

Definition Backpressure (limits : OutboxLimits) (p : BackpressurePolicy) (rows : list OutboxRow) : result BackpressureState :=
  try validateBackpressurePolicy p;;
  let stats := OutboxStatistics rows in
  let usage := maximumPercentage (Outbox_Items stats) (Outbox_MaxItems limits) (Outbox_Bytes stats) (Outbox_MaxBytes limits) in
  let pressure :=
    if percentageScale <=? usage then OutboxPressureFull
    else if CriticalAtPercent p <=? usage then OutboxPressureCritical
    else if PausePollingAtPercent p <=? usage then OutboxPressureElevated
    else OutboxPressureNormal in
  Ok {| Pressure := pressure; UsagePercent := usage; AcceptNewJobs := bool_decide (pressure = OutboxPressureNormal);
        HasPending := 0 <? Outbox_Items stats |}.
