(* ===== verification/WorkerOutboxSafety.v ===== *)
(** The worker outbox's contract: it implements a bounded first-in first-out
    queue of messages, forwarding removes a message only after it was sent, and
    the pressure it reports is exact. *)
From Stdlib Require Import ZArith Lia String.
From stdpp Require Import base tactics list strings.
From S2P Require Import Prelude GoStrings GoFloat GoTime Sql WorkerOutbox.
Open Scope Z_scope.

(** * The abstract queue *)

Definition payload_total (messages : list OutboxMessage) : Z := fold_right (fun m n => strlen (Message_Payload m) + n) 0 messages.

(** What [Enqueue] promises of the queue of messages. *)
Definition spec_enqueue (limits : OutboxLimits) (m : OutboxMessage) (q : list OutboxMessage) : result () * list OutboxMessage :=
  match validateOutboxMessage m limits with
  | Err e => (Err e, q)
  | Ok _ =>
      if bool_decide (Message_ID m ∈ Message_ID <$> q) then (Err ErrOutboxDuplicate, q)
      else if (Outbox_MaxItems limits <=? Z.of_nat (length q)) ||
              (Outbox_MaxBytes limits <? payload_total q + strlen (Message_Payload m))
      then (Err ErrOutboxFull, q)
      else (Ok tt, q ++ [m])
  end.
(** [Peek] gives the oldest message, and [Acknowledge] drops the named one. *)
Definition spec_peek (q : list OutboxMessage) : result OutboxMessage :=
  match q with [] => Err ErrOutboxEmpty | m :: _ => Ok m end.
Definition spec_acknowledge (id : string) (q : list OutboxMessage) : result () * list OutboxMessage :=
  (if bool_decide (id ∈ Message_ID <$> q) then Ok tt else Err ErrOutboxEmpty,
   List.filter (fun m => negb (bool_decide (Message_ID m = id))) q).

Inductive outbox_op :=
| OpOutboxEnqueue (nonce : string) (m : OutboxMessage)
| OpOutboxAcknowledge (id : string).

Section outbox.
Context `{Laws : OutboxCryptoLaws} (limits : OutboxLimits).

Definition run_outbox (op : outbox_op) (rows : list OutboxRow) : list OutboxRow :=
  match op with
  | OpOutboxEnqueue nonce m => (OutboxEnqueue limits nonce m rows).2
  | OpOutboxAcknowledge id => (OutboxAcknowledge id rows).2
  end.
Definition outbox_result (op : outbox_op) (rows : list OutboxRow) : result () :=
  match op with
  | OpOutboxEnqueue nonce m => (OutboxEnqueue limits nonce m rows).1
  | OpOutboxAcknowledge id => (OutboxAcknowledge id rows).1
  end.
Definition run_spec (op : outbox_op) (q : list OutboxMessage) : result () * list OutboxMessage :=
  match op with
  | OpOutboxEnqueue nonce m => spec_enqueue limits m q
  | OpOutboxAcknowledge id => spec_acknowledge id q
  end.

(** The results of a run, and the state it leaves. *)
Fixpoint run_outboxes (ops : list outbox_op) (rows : list OutboxRow) : list (result ()) * list OutboxRow :=
  match ops with
  | [] => ([], rows)
  | op :: ops' => let '(results, rows') := run_outboxes ops' (run_outbox op rows) in (outbox_result op rows :: results, rows')
  end.
Fixpoint run_specs (ops : list outbox_op) (q : list OutboxMessage) : list (result ()) * list OutboxMessage :=
  match ops with
  | [] => ([], q)
  | op :: ops' => let '(results, q') := run_specs ops' (run_spec op q).2 in ((run_spec op q).1 :: results, q')
  end.

(** ** The representation *)

(** The row stores the message, under some nonce; its time has a stored text. *)
Definition stores (r : OutboxRow) (m : OutboxMessage) : Prop :=
  (exists nonce, r = outbox_row nonce m) /\ year_ok (Message_CreatedAt m).
Record holds (rows : list OutboxRow) (q : list OutboxMessage) : Prop := {
  holds_stores : Forall2 stores rows q;
  holds_ids : NoDup (Message_ID <$> q);
  holds_bytes : 0 <= payload_total q <= Z.max 0 (Outbox_MaxBytes limits);
  holds_items : Z.of_nat (length q) <= Z.max 0 (Outbox_MaxItems limits) }.

Lemma stores_id r m : stores r m -> outbox_id r = Message_ID m.
Proof. by intros [(nonce & ->) _]. Qed.

Lemma open_stored r m : stores r m -> open_row r = Ok m.
Proof using Laws.
  intros [(nonce & ->) Hy]. unfold open_row. simpl. rewrite parseTime_formatTime by done.
  rewrite aead_Open_Seal. by destruct m.
Qed.

Lemma stored_ids rows q : Forall2 stores rows q -> outbox_id <$> rows = Message_ID <$> q.
Proof. induction 1 as [|r m rows q Hr _ IH]; [done|]. rewrite !fmap_cons, IH. f_equal. by apply stores_id. Qed.

Lemma stored_size rows q : Forall2 stores rows q -> outbox_size_total rows = payload_total q.
Proof. induction 1 as [|r m rows q [(nonce & ->) _] _ IH]; simpl; [done|]. by rewrite <- IH. Qed.

Lemma stored_query id rows q :
  Forall2 stores rows q -> query_row (has_outbox_id id) rows = None <-> id ∉ Message_ID <$> q.
Proof.
  intros Hs. rewrite query_row_None, <- (stored_ids rows q Hs), list_elem_of_fmap. unfold has_outbox_id.
  split; [|intros Hn r Hr; apply bool_decide_eq_false; naive_solver].
  intros Hn (r & -> & Hr). specialize (Hn r Hr). by apply bool_decide_eq_false in Hn.
Qed.

Lemma stored_filter id rows q :
  Forall2 stores rows q ->
  Forall2 stores (select_where (fun r => negb (has_outbox_id id r)) rows)
    (List.filter (fun m => negb (bool_decide (Message_ID m = id))) q).
Proof.
  induction 1 as [|r m rows q Hr _ IH]; simpl; [constructor|]. unfold has_outbox_id. rewrite (stores_id r m Hr).
  destruct (negb (bool_decide (Message_ID m = id))); [by constructor|done].
Qed.

Lemma stored_affected id rows q :
  Forall2 stores rows q -> NoDup (Message_ID <$> q) ->
  affected (has_outbox_id id) rows = if bool_decide (id ∈ Message_ID <$> q) then 1 else 0.
Proof.
  intros Hs Hnd. pose proof (stored_ids rows q Hs) as Ei. rewrite <- Ei in *.
  case_bool_decide as Hin.
  - destruct (decide (affected (has_outbox_id id) rows = 1)) as [|Hn]; [done|]. exfalso.
    apply list_elem_of_fmap in Hin as (r & -> & Hr).
    assert (Hz : has_outbox_id (outbox_id r) r = false).
    { apply (affected_unique outbox_id (outbox_id r) (has_outbox_id (outbox_id r)) rows Hnd); [|done|done].
      intros r' Hr'. by apply bool_decide_eq_true in Hr'. }
    unfold has_outbox_id in Hz. by apply bool_decide_eq_false in Hz.
  - apply affected_0. intros r Hr. apply bool_decide_eq_false. intros <-. apply Hin. by apply list_elem_of_fmap_2.
Qed.

Lemma payload_app q m : payload_total (q ++ [m]) = payload_total q + strlen (Message_Payload m).
Proof. induction q as [|x q IH]; simpl; lia. Qed.

Lemma payload_filter p q : 0 <= payload_total (List.filter p q) <= payload_total q.
Proof. induction q as [|m q IH]; simpl; [lia|]. unfold strlen. destruct (p m); simpl; unfold strlen; lia. Qed.

Lemma NoDup_filter_ids p q : NoDup (Message_ID <$> q) -> NoDup (Message_ID <$> List.filter p q).
Proof.
  induction q as [|m q IH]; simpl; [done|]. intros [Hm Hq]%NoDup_cons. destruct (p m); simpl; [|by apply IH].
  apply NoDup_cons. split; [|by apply IH]. rewrite list_elem_of_fmap. intros (m' & E & Hin). apply Hm. rewrite E.
  apply list_elem_of_fmap_2. apply list_elem_of_In, List.filter_In in Hin as [Hin _]. by apply list_elem_of_In.
Qed.

Hypothesis limits_small : Outbox_MaxBytes limits <= 2 ^ 61.

Lemma enqueue_refines nonce m rows q :
  holds rows q -> year_ok (Message_CreatedAt m) ->
  (OutboxEnqueue limits nonce m rows).1 = (spec_enqueue limits m q).1 /\
  holds (OutboxEnqueue limits nonce m rows).2 (spec_enqueue limits m q).2.
Proof using limits_small.
  intros Hh Hy. pose proof Hh as [Hs Hnd Hb Hi]. unfold OutboxEnqueue, spec_enqueue.
  destruct (validateOutboxMessage m limits) as [[]|] eqn:Ev; [|done].
  assert (Hm : 0 < strlen (Message_Payload m) <= Outbox_MaxBytes limits).
  { unfold validateOutboxMessage in Ev. case_if_in Ev; [done|]. reflect_bools. unfold strlen in *. lia. }
  pose proof (stored_query (Message_ID m) rows q Hs) as Hq. case_bool_decide as Hin.
  { destruct (query_row _ rows); [done|]. exfalso. by apply Hq. }
  rewrite (proj2 Hq) by done. rewrite <- (Forall2_length _ _ _ Hs), (stored_size rows q Hs).
  rewrite wrap64_id by (apply int64_range_small; lia). case_if; [done|]. split; [done|]. reflect_bools. split; simpl.
  - apply Forall2_app; [done|]. apply Forall2_cons. split; [|done]. split; [by exists nonce|done].
  - rewrite fmap_app. apply NoDup_app. split_and!; [done| |apply NoDup_singleton].
    intros id Hid E%list_elem_of_singleton. congruence.
  - rewrite payload_app. lia.
  - rewrite length_app. simpl. rewrite (Forall2_length _ _ _ Hs) in *. lia.
Qed.

Lemma acknowledge_refines id rows q :
  holds rows q ->
  (OutboxAcknowledge id rows).1 = (spec_acknowledge id q).1 /\ holds (OutboxAcknowledge id rows).2 (spec_acknowledge id q).2.
Proof.
  intros [Hs Hnd Hb Hi]. unfold OutboxAcknowledge, spec_acknowledge. rewrite (stored_affected id rows q Hs Hnd).
  pose proof (payload_filter (fun m => negb (bool_decide (Message_ID m = id))) q) as Hp.
  pose proof (filter_length_le (fun m => negb (bool_decide (Message_ID m = id))) q) as Hl.
  assert (Hh : holds (select_where (fun r => negb (has_outbox_id id r)) rows) (List.filter (fun m => negb (bool_decide (Message_ID m = id))) q)).
  { split; [by apply stored_filter|by apply NoDup_filter_ids|lia|lia]. }
  by case_bool_decide.
Qed.

Lemma peek_refines rows q : holds rows q -> OutboxPeek rows = spec_peek q.
Proof using Laws. intros [Hs _ _ _]. destruct Hs as [|r m rows q Hr _]; [done|]. by apply open_stored. Qed.

Lemma empty_holds : holds [] [].
Proof. split; simpl; [constructor|constructor|lia|lia]. Qed.

Lemma run_refines op rows q :
  holds rows q -> (forall nonce m, op = OpOutboxEnqueue nonce m -> year_ok (Message_CreatedAt m)) ->
  outbox_result op rows = (run_spec op q).1 /\ holds (run_outbox op rows) (run_spec op q).2.
Proof using limits_small.
  intros Hh Hy. destruct op as [nonce m|id]; simpl; [by apply enqueue_refines, (Hy nonce)|by apply acknowledge_refines].
Qed.
End outbox.

Lemma outbox_refines_queue_holds `{OutboxCryptoLaws} (limits : OutboxLimits) (ops : list outbox_op)
  (Hlimits : Outbox_MaxBytes limits <= 2 ^ 61)
  (Htimes : Forall (fun op => forall nonce m, op = OpOutboxEnqueue nonce m -> year_ok (Message_CreatedAt m)) ops) :
  (run_outboxes limits ops []).1 = (run_specs limits ops []).1 /\
  holds limits (run_outboxes limits ops []).2 (run_specs limits ops []).2.
Proof.
  assert (G : forall rows q, holds limits rows q ->
    (run_outboxes limits ops rows).1 = (run_specs limits ops q).1 /\
    holds limits (run_outboxes limits ops rows).2 (run_specs limits ops q).2); [|apply G, empty_holds].
  induction Htimes as [|op ops' Hop _ IH]; intros rows q Hh; [done|]. simpl.
  destruct (run_refines limits Hlimits op rows q Hh Hop) as [E Hh']. specialize (IH _ _ Hh').
  destruct (run_outboxes limits ops' _), (run_specs limits ops' _). simpl in *. destruct IH as [-> ?]. by rewrite E.
Qed.

(** C30: the encrypted outbox implements the bounded queue of messages: over any
    run its calls return what the queue's do, and the rows left hold the
    queue's messages in order, so [Peek] decrypts exactly the oldest one; item
    and byte limits hold throughout. *)
Theorem outbox_refines_queue `{OutboxCryptoLaws} (limits : OutboxLimits) (ops : list outbox_op)
  (Hlimits : Outbox_MaxBytes limits <= 2 ^ 61)
  (Htimes : Forall (fun op => forall nonce m, op = OpOutboxEnqueue nonce m -> year_ok (Message_CreatedAt m)) ops) :
  let '(results, rows) := run_outboxes limits ops [] in
  let '(spec_results, q) := run_specs limits ops [] in
  results = spec_results /\ holds limits rows q /\ OutboxPeek rows = spec_peek q /\
  OutboxStatistics rows = {| Outbox_Items := Z.of_nat (length q); Outbox_Bytes := payload_total q |}.
Proof.
  pose proof (outbox_refines_queue_holds limits ops Hlimits Htimes) as [E Hh].
  destruct (run_outboxes limits ops []) as [results rows], (run_specs limits ops []) as [spec_results q].
  simpl in *. split_and!; [done|done|by eapply peek_refines|].
  pose proof (holds_stores _ _ _ Hh) as Hs. unfold OutboxStatistics.
  by rewrite (Forall2_length _ _ _ Hs), (stored_size _ _ Hs).
Qed.

(** * Forwarding *)

Section forward.
Context `{Laws : OutboxCryptoLaws} (limits : OutboxLimits).
Context {World : Type} (ctx_Err : World -> option error) (send : OutboxMessage -> World -> result () * World).

(** Each message is sent in turn, while the context is live, and succeeds. *)
Fixpoint sent_in_order (messages : list OutboxMessage) (w w' : World) : Prop :=
  match messages with
  | [] => w' = w
  | m :: messages' => ctx_Err w = None /\ exists w1, send m w = (Ok tt, w1) /\ sent_in_order messages' w1 w'
  end.

Lemma acknowledge_head r m rows q :
  holds limits (r :: rows) (m :: q) -> OutboxAcknowledge (Message_ID m) (r :: rows) = (Ok tt, rows) /\ holds limits rows q.
Proof using Type.
  intros Hh. pose proof Hh as [Hs Hnd Hb Hi]. rewrite fmap_cons in Hnd. apply NoDup_cons in Hnd as [Hm Hnd].
  apply Forall2_cons in Hs as [Hr Hs]. unfold OutboxAcknowledge.
  rewrite (stored_affected (Message_ID m) (r :: rows) (m :: q)) by (try constructor; try done; by apply Hh).
  rewrite bool_decide_eq_true_2 by (simpl; by left). simpl.
  unfold has_outbox_id at 1. rewrite (stores_id r m Hr), bool_decide_eq_true_2 by done. simpl. split.
  - f_equal. unfold select_where. apply forallb_filter_id, forallb_forall. intros r' Hr'%list_elem_of_In. apply negb_true_iff, bool_decide_eq_false.
    intros E. apply Hm. rewrite <- E, <- (stored_ids rows q Hs). by apply list_elem_of_fmap_2.
  - simpl in *. unfold strlen in *. pose proof (payload_filter (fun _ => true) q). split; [done|done|lia|lia].
Qed.

Lemma forward_loop_spec n forwarded rows q w :
  holds limits rows q ->
  let '(count, err, rows', w') := forward_loop ctx_Err send n forwarded rows w in
  exists k w1, (k <= n)%nat /\ (k <= length q)%nat /\ count = forwarded + Z.of_nat k /\ rows' = drop k rows /\ holds limits rows' (drop k q) /\
    sent_in_order (take k q) w w1 /\
    match err with
    | None => w' = w1 /\ (k = n \/ k = length q)
    | Some e => (w' = w1 /\ ctx_Err w1 = Some e) \/ exists m, q !! k = Some m /\ send m w1 = (Err e, w')
    end.
Proof using Laws.
  revert forwarded rows q w. induction n as [|n IH]; intros forwarded rows q w Hh; cbn [forward_loop].
  { exists 0%nat, w. split_and!; simpl; try done; try lia; by left. }
  destruct (ctx_Err w) as [e|] eqn:Ec.
  { exists 0%nat, w. split_and!; simpl; try done; try lia; by left. }
  rewrite (peek_refines limits rows q Hh). destruct q as [|m q]; simpl spec_peek; cbv iota.
  { rewrite bool_decide_eq_true_2 by done. exists 0%nat, w. split_and!; simpl; try done; try lia; by right. }
  destruct (send m w) as [[[]|e] w1] eqn:Es.
  2: { exists 0%nat, w. split_and!; simpl; try done; try lia. right. by exists m. }
  destruct rows as [|r rows]; [by pose proof (holds_stores _ _ _ Hh) as Hs; inversion Hs|].
  destruct (acknowledge_head r m rows q Hh) as [-> Hh']. cbv iota beta.
  specialize (IH (forwarded + 1) rows q w1 Hh'). destruct (forward_loop _ _ _ _ _ _) as [[[count err] rows'] w'].
  destruct IH as (k & w2 & Hk & Hkq & -> & -> & Hd & Hs & Herr). exists (S k), w2. split_and!; simpl; try done; try lia.
  - split; [done|]. by exists w1.
  - destruct err; [done|]. destruct Herr as [-> [->| ->]]; auto.
Qed.
End forward.

(** Forwarding sends the messages oldest first and removes one only after
    its send succeeded: the messages sent are the first ones of the queue, the
    rest stay, and it stops early only when the context ends or a send fails,
    leaving that message at the head. *)
Theorem forward_pending_spec `{OutboxCryptoLaws} {World : Type} (limits : OutboxLimits) (ctx_Err : World -> option error)
  (send : OutboxMessage -> World -> result () * World) (maximum : Z) (rows : list OutboxRow) (q : list OutboxMessage) (w : World)
  (Hh : holds limits rows q) (Hmax : 1 <= maximum) :
  let '(count, err, rows', w') := ForwardPending ctx_Err send maximum rows w in
  exists w1, 0 <= count <= maximum /\ count <= Z.of_nat (length q) /\ rows' = drop (Z.to_nat count) rows /\
    holds limits rows' (drop (Z.to_nat count) q) /\ sent_in_order ctx_Err send (take (Z.to_nat count) q) w w1 /\
    match err with
    | None => w' = w1 /\ (count = maximum \/ rows' = [])
    | Some e => (w' = w1 /\ ctx_Err w1 = Some e) \/ exists m, head (drop (Z.to_nat count) q) = Some m /\ send m w1 = (Err e, w')
    end.
Proof.
  unfold ForwardPending. rewrite (proj2 (Z.ltb_ge maximum 1)) by lia.
  pose proof (forward_loop_spec limits ctx_Err send (Z.to_nat maximum) 0 rows q w Hh) as F.
  destruct (forward_loop _ _ _ _ _ _) as [[[count err] rows'] w'].
  destruct F as (k & w1 & Hk & Hkq & -> & -> & Hd & Hs & Herr). exists w1. rewrite Z.add_0_l, Nat2Z.id.
  split_and!; try done; try lia.
  destruct err as [e|].
  - destruct Herr as [|(m & Hm & E)]; [by left|right]. exists m. split; [|done].
    destruct (drop k q) as [|x l] eqn:Ed; [|simpl]; rewrite <- (Nat.add_0_r k), <- lookup_drop, Ed in Hm; done.
  - destruct Herr as [-> [->| ->]]; (split; [done|]); [left; lia|right]. apply nil_length_inv.
    rewrite length_drop, (Forall2_length _ _ _ (holds_stores _ _ _ Hh)). lia.
Qed.

(** * Backpressure *)

Lemma roundedUpPercent_le value maximum K :
  0 <= value < 2 ^ 46 -> 0 < maximum < 2 ^ 46 -> 0 <= K <= 100 ->
  roundedUpPercent value maximum <= K <-> 100 * value <= K * maximum.
Proof.
  intros Hv Hm HK. unfold roundedUpPercent, percentageScale. case_if; [apply Z.leb_le in E; nia|]. apply Z.leb_gt in E.
  pose proof (float_of_int value 1 ltac:(lia) ltac:(lia)) as [Nv Dv].
  pose proof (float_of_int maximum 1 ltac:(lia) ltac:(lia)) as [Nm Dm]. rewrite !Z.mul_1_r in *.
  set (v := float_of_ratio value 1) in *. set (m := float_of_ratio maximum 1) in *.
  pose proof (float_of_int (100 * value) (float_den v) ltac:(lia) Dv) as [Np Dp].
  replace (float_num v * 100) with (100 * value * float_den v) by (rewrite Nv; ring).
  set (p := float_of_ratio (100 * value * float_den v) (float_den v)) in *. rewrite Np, Nm.
  replace (100 * value * float_den p * float_den m) with (100 * value * (float_den p * float_den m)) by ring.
  replace (float_den p * (maximum * float_den m)) with (maximum * (float_den p * float_den m)) by ring.
  apply float_ceil_ratio_le; nia.
Qed.

Lemma maximumPercentage_le items maximumItems bytes maximumBytes K :
  maximumPercentage items maximumItems bytes maximumBytes <= K <->
  roundedUpPercent items maximumItems <= K /\ roundedUpPercent bytes maximumBytes <= K.
Proof. unfold maximumPercentage. case_if; reflect_bools; lia. Qed.

(** Both limits are used to at most [percent] percent. *)
Definition used_at_most (limits : OutboxLimits) (stats : OutboxStats) (percent : Z) : Prop :=
  100 * Outbox_Items stats <= percent * Outbox_MaxItems limits /\ 100 * Outbox_Bytes stats <= percent * Outbox_MaxBytes limits.

(** Despite the floating-point division the reported pressure is exact, for
    limits below 2^46: new jobs are accepted exactly while both the items and
    the bytes are at most one percent below the pause threshold, and the
    pressure is critical or full exactly when one of them exceeds that mark less
    one percent: the usage is rounded up, so "full" means above 99 percent. *)
Theorem backpressure_exact (limits : OutboxLimits) (p : BackpressurePolicy) (rows : list OutboxRow)
  (Hp : validateBackpressurePolicy p = Ok tt)
  (Hlimits : 0 < Outbox_MaxItems limits < 2 ^ 46 /\ 0 < Outbox_MaxBytes limits < 2 ^ 46)
  (Hrows : Z.of_nat (length rows) < 2 ^ 46 /\ 0 <= outbox_size_total rows < 2 ^ 46) :
  exists s, Backpressure limits p rows = Ok s /\
    let at_most := used_at_most limits (OutboxStatistics rows) in
    (AcceptNewJobs s = true <-> at_most (PausePollingAtPercent p - 1)) /\
    (Pressure s = OutboxPressureFull <-> ~ at_most 99) /\
    (Pressure s = OutboxPressureCritical <-> ~ at_most (CriticalAtPercent p - 1) /\ at_most 99) /\
    (HasPending s = true <-> rows <> []).
Proof.
  unfold Backpressure. rewrite Hp. eexists. split; [reflexivity|]. cbn [AcceptNewJobs Pressure HasPending].
  unfold validateBackpressurePolicy, percentageScale in Hp. case_if_in Hp; [done|]. reflect_bools.
  set (usage := maximumPercentage _ _ _ _). set (at_most := used_at_most _ _).
  assert (U : forall K, 0 <= K <= 100 -> usage <= K <-> at_most K).
  { intros K HK. unfold usage, at_most, used_at_most. rewrite maximumPercentage_le. simpl. rewrite !roundedUpPercent_le by lia. done. }
  assert (Hlen : Z.of_nat (length rows) = 0 <-> rows = []) by (destruct rows; simpl; split; try done; lia).
  assert (M : forall K, 0 <= K <= 100 -> (K + 1 <=? usage) = true <-> ~ at_most K).
  { intros K HK. rewrite Z.leb_le, <- (U K HK). lia. }
  pose proof (M 99 ltac:(lia)) as M99. pose proof (M (CriticalAtPercent p - 1) ltac:(lia)) as Mc.
  pose proof (M (PausePollingAtPercent p - 1) ltac:(lia)) as Mp.
  pose proof (U 99 ltac:(lia)) as U99. pose proof (U (CriticalAtPercent p - 1) ltac:(lia)) as Uc.
  pose proof (U (PausePollingAtPercent p - 1) ltac:(lia)) as Up.
  rewrite Z.sub_add in Mc, Mp. change (99 + 1) with 100 in M99. unfold percentageScale.
  split; [|split; [|split]]; [| | |simpl; rewrite Z.ltb_lt, <- Hlen; lia].
  all: destruct (100 <=? usage) eqn:E1; [|destruct (CriticalAtPercent p <=? usage) eqn:E2;
         [|destruct (PausePollingAtPercent p <=? usage) eqn:E3]]; reflect_bools;
       rewrite ?bool_decide_eq_true; split; intros; try done; try (rewrite <- ?U99, <- ?Uc, <- ?Up in *; lia).
Qed.
