(* ===== verification/WorkerClient.v ===== *)
(** internal/workerclient: the replay ledger, the retry schedule and what the
    runtime reports of a leased job. The ledger's database file, the network
    and the lease renewal's ticker are not modelled. *)
From Stdlib Require Import ZArith Lia String Ascii.
From stdpp Require Import base tactics list strings.
From S2P Require Import Prelude GoStrings GoTime WorkerModel WorkerJob Sql WorkerOutbox.
Open Scope Z_scope.

(** * Replay ledger *)

Definition ErrJobReplay : error := "scanner-worker job was already claimed".

(** claimed_jobs *)
Record ClaimRow := {
  claimed_job_id : string;
  claimed_worker_id : string;
  claimed_key_id : string;
  claimed_digest : string;
  claimed_expires_at : string;
  claimed_at_text : string }.

Section ledger.
Context `{JobCrypto} (signature_digest : string -> string).

Definition claim_of (envelope : SignedWorkerJob) (claimedAt : Time) : ClaimRow :=
  let job := SignedJob_Job envelope in
  {| claimed_job_id := Job_ID job; claimed_worker_id := Job_WorkerID job; claimed_key_id := SignedJob_KeyID envelope;
     claimed_digest := signature_digest (SignedJob_Signature envelope);
     claimed_expires_at := formatTime (Job_ExpiresAt job); claimed_at_text := formatTime claimedAt |}.

(** [INSERT OR IGNORE] on the primary key job_id. *)
Definition LedgerClaim (envelope : SignedWorkerJob) (claimedAt : Time) : st (list ClaimRow) () := fun rows =>
  let job := SignedJob_Job envelope in
  if bool_decide (Job_ID job = ""%string) || bool_decide (Job_WorkerID job = ""%string) ||
     bool_decide (SignedJob_KeyID envelope = ""%string) || bool_decide (SignedJob_Signature envelope = ""%string) ||
     IsZero (Job_ExpiresAt job) || IsZero claimedAt || negb (Before claimedAt (Job_ExpiresAt job))
  then (Err "scanner-worker replay claim is incomplete", rows)
  else if bool_decide (Job_ID job ∈ claimed_job_id <$> rows) then (Err ErrJobReplay, rows)
  else (Ok tt, rows ++ [claim_of envelope claimedAt]).

(** The ledger is absent when the pointer is nil. *)
Definition VerifyAndClaim (envelope : SignedWorkerJob) (publicKey : PublicKey) (worker : ScannerWorker) (now : Time)
  : st (option (list ClaimRow)) () := fun ledger =>
  match ledger with
  | None => (Err "scanner-worker replay ledger is unavailable", None)
  | Some rows =>
      match VerifyForWorker envelope publicKey worker now with
      | Err e => (Err e, Some rows)
      | Ok _ => let '(claimed, rows') := LedgerClaim envelope now rows in (claimed, Some rows')
      end
  end.
End ledger.

(** * Retry *)

Definition maximumJitterPercent : Z := 100.

Record RetryPolicy := { InitialDelay : Duration; MaximumDelay : Duration; JitterPercent : Z }.
Definition DefaultRetryPolicy : RetryPolicy := {| InitialDelay := 2 * Second; MaximumDelay := 2 * Minute; JitterPercent := 20 |}.

Definition validateRetryPolicy (p : RetryPolicy) : result () :=
  reject (InitialDelay p <=? 0) || (MaximumDelay p <? InitialDelay p) || (JitterPercent p <? 0) ||
         (maximumJitterPercent <? JitterPercent p)
    as "scanner-worker retry policy is invalid";;
  Ok tt.

Definition minDuration (left right : Duration) : Duration := if left <? right then left else right.

(** The doubling loop; the delay at least doubles at each turn, so 64 turns are
    enough. *)
Fixpoint exponential_loop (fuel : nat) (attempt failures : Z) (delay maximum : Duration) : option Duration :=
  match fuel with
  | O => None
  | S fuel' =>
      if (attempt <? failures) && (delay <? maximum) then
        if Z.quot maximum 2 <? delay then Some maximum
        else exponential_loop fuel' (attempt + 1) failures (wrap64 (delay * 2)) maximum
      else Some (minDuration delay maximum)
  end.
Definition exponentialDelay (p : RetryPolicy) (failures : Z) : Duration :=
  default 0 (exponential_loop 64 1 failures (InitialDelay p) (MaximumDelay p)).

Section retry.
(** [random n]: a number below [n], or the error of the random source. *)
Context (random : Z -> result Z).

Definition Delay (p : RetryPolicy) (consecutiveFailures : Z) (retryAfter : Duration) : result Duration :=
  reject (consecutiveFailures <? 0) || (retryAfter <? 0) as "scanner-worker retry state is invalid";;
  let delay := exponentialDelay p consecutiveFailures in
  let delay := if delay <? retryAfter then retryAfter else delay in
  if (MaximumDelay p <=? delay) || (JitterPercent p =? 0) then Ok (minDuration delay (MaximumDelay p)) else
  let jitterLimit := Z.quot (wrap64 (delay * JitterPercent p)) percentageScale in
  if jitterLimit <? 1 then Ok delay else
  jitter ← random (wrap64 (jitterLimit + 1));
  Ok (minDuration (wrap64 (delay + jitter)) (MaximumDelay p)).
End retry.

Definition maximum_duration : Duration := 2 ^ 63 - 1.

(** [http.ParseTime] is a parameter. *)
Definition ParseRetryAfter (http_ParseTime : string -> option Time) (value : string) (now : Time) : Duration :=
  let value := TrimSpace value in
  if bool_decide (value = ""%string) then 0 else
  match ParseInt64 value with
  | Some seconds =>
      if seconds <=? 0 then 0
      else if Z.quot maximum_duration Second <? seconds then maximum_duration
      else wrap64 (seconds * Second)
  | None =>
      match http_ParseTime value with
      | None => 0
      | Some when => if negb (After when now) then 0 else Sub when now
      end
  end.

(** * Runtime *)

(** What [errors.Is] tells apart of an execution error. *)
Inductive execution_error := ExecutionCanceled | ExecutionDeadline | ExecutionOther (e : error).

Definition result_outcome (renewal execution : option execution_error) : WorkerJobResultOutcome :=
  let executionErr := match renewal with Some e => Some e | None => execution end in
  match executionErr with
  | None => WorkerJobResultSucceeded
  | Some (ExecutionCanceled | ExecutionDeadline) => WorkerJobResultCanceled
  | Some (ExecutionOther _) => WorkerJobResultFailed
  end.

Section execute.
Context `{JobCrypto} (signature_digest : string -> string).
(** [executeClaimed]: modelled on its own (WorkerExecutor). *)
Context (executeClaimed : WorkerJob -> option execution_error).

(** [Execute] with an emitter, and the outcome [executeLease] queues. *)
Definition Execute (envelope : SignedWorkerJob) (publicKey : PublicKey) (worker : ScannerWorker) (now : Time)
  (ledger : option (list ClaimRow)) : option execution_error * option (list ClaimRow) :=
  match VerifyAndClaim signature_digest envelope publicKey worker now ledger with
  | (Err e, ledger') => (Some (ExecutionOther e), ledger')
  | (Ok _, ledger') => (executeClaimed (SignedJob_Job envelope), ledger')
  end.
Definition executeLease (envelope : SignedWorkerJob) (publicKey : PublicKey) (worker : ScannerWorker) (now : Time)
  (renewal : option execution_error) (ledger : option (list ClaimRow)) : WorkerJobResultOutcome * option (list ClaimRow) :=
  let '(execution, ledger') := Execute envelope publicKey worker now ledger in
  (result_outcome renewal execution, ledger').
End execute.

(** The runtime polls for a job only while the outbox accepts new ones. *)
Definition pollingPaused (limits : OutboxLimits) (p : BackpressurePolicy) (rows : list OutboxRow) : result bool :=
  state ← Backpressure limits p rows; Ok (negb (AcceptNewJobs state)).

(** * Replay *)

Section ledger.
Context `{JobCrypto} (signature_digest : string -> string).

(** Claims made one after another, at their times. *)
Definition claim_all (claims : list (SignedWorkerJob * Time)) (rows : list ClaimRow) : list ClaimRow :=
  fold_left (fun rows c => (LedgerClaim signature_digest c.1 c.2 rows).2) claims rows.

Lemma ledger_claim_cases envelope now rows :
  (exists e, LedgerClaim signature_digest envelope now rows = (Err e, rows)) \/
  (LedgerClaim signature_digest envelope now rows = (Ok tt, rows ++ [claim_of signature_digest envelope now]) /\
   Job_ID (SignedJob_Job envelope) ∉ claimed_job_id <$> rows).
Proof. unfold LedgerClaim. case_if; [by left; eexists|]. case_if; [by left; eexists|]. reflect_bools. by right. Qed.

Lemma claim_all_keeps claims rows id : id ∈ claimed_job_id <$> rows -> id ∈ claimed_job_id <$> claim_all claims rows.
Proof.
  revert rows. induction claims as [|[env t] claims IH]; intros rows Hid; [done|]. apply IH. simpl.
  destruct (ledger_claim_cases env t rows) as [[e ->]|[-> _]]; [done|]. simpl. rewrite fmap_app, elem_of_app. by left.
Qed.
End ledger.

Lemma job_not_claimed_again `{JobCrypto} (signature_digest : string -> string) (first second : SignedWorkerJob)
  (key1 key2 : PublicKey) (worker1 worker2 : ScannerWorker) (now1 now2 : Time) (rows rows1 : list ClaimRow)
  (claims : list (SignedWorkerJob * Time))
  (Hfirst : VerifyAndClaim signature_digest first key1 worker1 now1 (Some rows) = (Ok tt, Some rows1))
  (Hid : Job_ID (SignedJob_Job second) = Job_ID (SignedJob_Job first)) :
  let rows2 := claim_all signature_digest claims rows1 in
  exists e, VerifyAndClaim signature_digest second key2 worker2 now2 (Some rows2) = (Err e, Some rows2) /\
    (VerifyForWorker second key2 worker2 now2 = Ok tt -> SignedJob_KeyID second <> ""%string ->
     SignedJob_Signature second <> ""%string -> Job_ExpiresAt (SignedJob_Job second) <> ZeroTime -> now2 <> ZeroTime ->
     Job_ID (SignedJob_Job second) <> ""%string -> Job_WorkerID (SignedJob_Job second) <> ""%string -> e = ErrJobReplay).
Proof.
  intros rows2. assert (Hin : Job_ID (SignedJob_Job second) ∈ claimed_job_id <$> rows2).
  { apply claim_all_keeps. unfold VerifyAndClaim in Hfirst. destruct (VerifyForWorker first _ _ _); [|done].
    destruct (ledger_claim_cases signature_digest first now1 rows) as [[e E]|[E _]]; rewrite E in Hfirst; [done|].
    injection Hfirst as <-. rewrite Hid, fmap_app, elem_of_app. right. by apply list_elem_of_singleton. }
  unfold VerifyAndClaim. destruct (VerifyForWorker second key2 worker2 now2) as [[]|e] eqn:Ev; [|by exists e].
  unfold LedgerClaim. case_if.
  - eexists. split; [done|]. intros _ Hk Hs He Hn Hi Hw. exfalso.
    apply try_ok in Ev as [_ Hv%Validate_ok]. apply orb_true_iff in E as [E|E].
    + unfold IsZero in E. rewrite !(bool_decide_eq_false_2 _) in E by done. by rewrite !(proj2 (Z.eqb_neq _ _)) in E by done.
    + apply negb_true_iff in E. unfold Before in E. apply Z.ltb_ge in E. destruct Hv. lia.
  - rewrite bool_decide_eq_true_2 by done. by eexists.
Qed.

(** A job is executed at most once on a worker: after an envelope passed
    [VerifyAndClaim], no envelope with the same job identifier passes again,
    whatever was claimed in between and whatever its signature or times; one
    that verifies is refused as a replay, and the ledger does not change. *)
Theorem job_claimed_once `{JobCrypto} (signature_digest : string -> string) (first second : SignedWorkerJob)
  (key1 key2 : PublicKey) (worker1 worker2 : ScannerWorker) (now1 now2 : Time) (rows rows1 : list ClaimRow)
  (claims : list (SignedWorkerJob * Time))
  (Hfirst : VerifyAndClaim signature_digest first key1 worker1 now1 (Some rows) = (Ok tt, Some rows1))
  (Hid : Job_ID (SignedJob_Job second) = Job_ID (SignedJob_Job first)) :
  let rows2 := claim_all signature_digest claims rows1 in
  exists e, VerifyAndClaim signature_digest second key2 worker2 now2 (Some rows2) = (Err e, Some rows2) /\
    (VerifyForWorker second key2 worker2 now2 = Ok tt -> SignedJob_KeyID second <> ""%string ->
     SignedJob_Signature second <> ""%string -> Job_ExpiresAt (SignedJob_Job second) <> ZeroTime -> now2 <> ZeroTime ->
     Job_ID (SignedJob_Job second) <> ""%string -> Job_WorkerID (SignedJob_Job second) <> ""%string -> e = ErrJobReplay).
Proof. by eapply job_not_claimed_again. Qed.

(** A job that the server leases to the same worker a second time, after the
    first lease ran out, is not executed: the replay ledger refuses it and the
    runtime reports it failed, whatever the executor would do. *)
Theorem leased_again_reported_failed `{JobCrypto} (signature_digest : string -> string) (executeClaimed : WorkerJob -> option execution_error)
  (envelope : SignedWorkerJob) (key : PublicKey) (worker : ScannerWorker) (now1 now2 : Time) (rows rows1 : list ClaimRow)
  (claims : list (SignedWorkerJob * Time))
  (Hfirst : VerifyAndClaim signature_digest envelope key worker now1 (Some rows) = (Ok tt, Some rows1)) :
  let rows2 := claim_all signature_digest claims rows1 in
  executeLease signature_digest executeClaimed envelope key worker now2 None (Some rows2) = (WorkerJobResultFailed, Some rows2).
Proof.
  intros rows2.
  destruct (job_not_claimed_again signature_digest envelope envelope key key worker worker now1 now2 rows rows1 claims Hfirst eq_refl)
    as (e & E & _).
  unfold executeLease, Execute. fold rows2 in E. by rewrite E.
Qed.

(** * Retry *)

(** The delay without jitter: doubled for each failure after the first, up to
    the maximum. *)
Definition backoff (p : RetryPolicy) (failures : Z) : Z := Z.min (MaximumDelay p) (InitialDelay p * 2 ^ Z.max 0 (failures - 1)).

Lemma minDuration_min a b : minDuration a b = Z.min a b.
Proof. unfold minDuration. case_if; reflect_bools; lia. Qed.

Lemma exponential_loop_spec fuel attempt failures delay maximum :
  0 < delay -> maximum <= 2 ^ 62 -> maximum < delay * 2 ^ Z.of_nat fuel -> (0 < fuel)%nat ->
  exponential_loop fuel attempt failures delay maximum = Some (Z.min maximum (delay * 2 ^ Z.max 0 (failures - attempt))).
Proof.
  revert attempt delay. induction fuel as [|fuel IH]; intros attempt delay Hd Hm Hf H0; [lia|]. cbn [exponential_loop].
  destruct ((attempt <? failures) && (delay <? maximum)) eqn:E.
  - reflect_bools. rewrite Z.quot_div_nonneg by lia.
    assert (P : 2 ^ Z.max 0 (failures - attempt) = 2 * 2 ^ Z.max 0 (failures - (attempt + 1)))
      by (rewrite <- Z.pow_succ_r by lia; f_equal; lia).
    assert (0 < 2 ^ Z.max 0 (failures - (attempt + 1))) by (apply Z.pow_pos_nonneg; lia).
    case_if; reflect_bools.
    + f_equal. rewrite Z.min_l; [done|]. assert (maximum <= 2 * delay) by (Z.to_euclidean_division_equations; lia). nia.
    + assert (2 * delay <= maximum) by (Z.to_euclidean_division_equations; lia).
      rewrite wrap64_id by (apply int64_range_small; lia).
      assert (Hfuel : maximum < delay * 2 * 2 ^ Z.of_nat fuel) by (rewrite Nat2Z.inj_succ, Z.pow_succ_r in Hf by lia; lia).
      destruct fuel as [|fuel]; [simpl in Hfuel; lia|]. rewrite IH by lia. f_equal. rewrite P. f_equal. ring.
  - rewrite minDuration_min, Z.min_comm. f_equal. apply andb_false_iff in E as [E|E]; reflect_bools.
    + by rewrite Z.max_l, Z.pow_0_r, Z.mul_1_r by lia.
    + assert (1 <= 2 ^ Z.max 0 (failures - attempt)) by (apply Z.pow_le_mono_r with (b := 0); lia). rewrite !Z.min_l by nia. done.
Qed.

Lemma exponentialDelay_spec p failures :
  0 < InitialDelay p -> MaximumDelay p <= 2 ^ 62 -> exponentialDelay p failures = backoff p failures.
Proof.
  intros Hi Hm. unfold exponentialDelay, backoff. rewrite exponential_loop_spec; [done|lia|lia| |lia].
  change (2 ^ Z.of_nat 64) with (2 ^ 64). lia.
Qed.

(** For a valid policy (with a maximum delay up to 2^55 ns, over a year)
    [Delay] is total: it fails only on negative arguments or when the random
    source fails. The delay is at least the exponential one, and the server's
    Retry-After, both cut at the maximum; the jitter adds at most the policy's
    percentage, and the maximum is never exceeded. *)
Theorem retry_delay_bounds (random : Z -> result Z) (p : RetryPolicy) (failures : Z) (retryAfter : Duration)
  (Hp : validateRetryPolicy p = Ok tt) (Hmax : MaximumDelay p <= 2 ^ 55)
  (Hrandom : forall n x, 0 < n -> random n = Ok x -> 0 <= x < n) :
  let base := Z.max (backoff p failures) retryAfter in
  match Delay random p failures retryAfter with
  | Ok d => 0 <= failures /\ 0 <= retryAfter /\ Z.min base (MaximumDelay p) <= d <= MaximumDelay p /\
            d <= base + base * JitterPercent p / 100
  | Err e => failures < 0 \/ retryAfter < 0 \/ exists n, 0 < n /\ random n = Err e
  end.
Proof.
  intros base. unfold validateRetryPolicy, maximumJitterPercent in Hp. case_if_in Hp; [done|]. reflect_bools.
  assert (Hb : 0 < backoff p failures <= MaximumDelay p).
  { unfold backoff. assert (0 < 2 ^ Z.max 0 (failures - 1)) by (apply Z.pow_pos_nonneg; lia). nia. }
  unfold Delay, percentageScale. destruct ((failures <? 0) || (retryAfter <? 0)) eqn:E.
  { apply orb_true_iff in E as [E|E]; apply Z.ltb_lt in E; lia. }
  rewrite exponentialDelay_spec by lia. reflect_bools.
  replace (if backoff p failures <? retryAfter then retryAfter else backoff p failures) with base
    by (unfold base; case_if; reflect_bools; lia).
  assert (Hbase : 0 < base) by lia.
  assert (Hj : 0 <= base * JitterPercent p / 100) by (apply Z.div_pos; nia).
  case_if. { rewrite minDuration_min. lia. }
  reflect_bools. clearbody base.
  assert (Hprod : 0 <= base * JitterPercent p <= 2 ^ 55 * 100)
    by (split; [nia|apply Z.mul_le_mono_nonneg; lia]).
  rewrite wrap64_id by (apply int64_range_small; lia). rewrite Z.quot_div_nonneg by lia.
  case_if; reflect_bools; [lia|].
  assert (Hjm : base * JitterPercent p / 100 <= base) by (apply Z.div_le_upper_bound; nia).
  rewrite wrap64_id by (apply int64_range_small; lia).
  destruct (random _) as [x|e] eqn:Er; simpl.
  - apply Hrandom in Er; [|lia]. rewrite wrap64_id by (apply int64_range_small; lia). rewrite minDuration_min. lia.
  - right; right. by exists (base * JitterPercent p / 100 + 1); split; [lia|].
Qed.
