(* ===== verification/WorkerExecutor.v ===== *)
(** internal/workerclient/executor.go: the checks a claimed job still needs, and
    their execution by the feeder, the bounded workers and the collector as a
    step relation over the states the channels pass through. The inspector, the
    signer, the emitter, the random identifiers and the clock are the
    environment: a step holds for whatever they return. The pacing ticker only
    delays the feeder. *)
From Stdlib Require Import ZArith Lia String Ascii.
From stdpp Require Import base tactics list strings gmap sets relations.
From S2P Require Import Prelude GoStrings GoTime Netip WorkerModel WorkerJob WorkerClient.
Open Scope Z_scope.

Definition maximumExecutionEvidenceItems : Z := 250.

Record executionCheck := { check_target : Target; check_port : Z }.
Record executionResult := {
  result_check : executionCheck;
  result_observation : option ServiceObservation;
  result_findings : list Finding;
  result_completedAt : Time }.
Record ExecutionSummary := { CompletedChecks : Z; SkippedChecks : Z; FinalSequence : Z }.

(** * The checks to run *)

(** [fmt.Sprintf("%s:%d", address, port)] *)
Definition executionCheckKey (address : string) (port : Z) : string := address +:+ String ":" (append_int port 0).

Definition completed_keys (job : WorkerJob) : gset string :=
  match Job_Resume job with
  | None => ∅
  | Some resume => list_to_set ((fun c => executionCheckKey (Checkpoint_Address c) (Checkpoint_Port c)) <$> Resume_Completed resume)
  end.

Definition job_checks (job : WorkerJob) : list executionCheck :=
  target ← Job_Targets job; (fun port => {| check_target := target; check_port := port |}) <$> Job_Ports job.
Definition pending (completed : gset string) (c : executionCheck) : bool :=
  negb (bool_decide (executionCheckKey (Target_Address (check_target c)) (check_port c) ∈ completed)).

(** The checks and the number skipped; [None] when [make] panics on a negative
    capacity. *)
Definition pendingExecutionChecks (job : WorkerJob) : option (list executionCheck * Z) :=
  let completed := completed_keys job in
  let capacity := Z.of_nat (length (Job_Targets job)) * Z.of_nat (length (Job_Ports job)) - Z.of_nat (size completed) in
  if capacity <? 0 then None
  else Some (List.filter (pending completed) (job_checks job), Z.of_nat (size completed)).

(** * Emission *)

Section emission.
Context (job : WorkerJob).

(** What the environment gives one emission: the random identifier, the clock,
    the signer and the emitter. *)
Record emission := {
  emission_id : result string;
  emission_now : Time;
  emission_sign : WorkerEvidenceBatch -> result SignedWorkerEvidenceBatch;
  emission_emit : SignedWorkerEvidenceBatch -> result () }.

Definition result_batch (res : option executionResult) (batchID : string) (sequence : Z) (final : bool) (now : Time)
  : WorkerEvidenceBatch :=
  {| Batch_SchemaVersion := 1; Batch_ID := batchID; Batch_WorkerID := Job_WorkerID job; Batch_JobID := Job_ID job;
     Batch_ScanID := Job_ScanID job; Batch_Sequence := sequence; Batch_Final := final; Batch_CollectedAt := now;
     Batch_Observations := match res with Some r => option_list (result_observation r) | None => [] end;
     Batch_Findings := match res with Some r => result_findings r | None => [] end;
     Batch_Checkpoints := match res with
       | Some r => [{| Checkpoint_Address := Target_Address (check_target (result_check r));
                       Checkpoint_Port := check_port (result_check r); Checkpoint_CompletedAt := result_completedAt r |}]
       | None => []
       end |}.

(** [res] is [None] for the zero result, whose target has no address. *)
Definition checked_result (res : option executionResult) : option executionResult :=
  match res with
  | Some r => if bool_decide (Target_Address (check_target (result_check r)) = ""%string) then None else Some r
  | None => None
  end.
Definition emitResult (env : emission) (res : option executionResult) (sequence : Z) (final : bool)
  : result WorkerEvidenceBatch :=
  let itemCount := match res with
    | Some r => Z.of_nat (length (result_findings r)) + 1 + match result_observation r with Some _ => 1 | None => 0 end
    | None => 1
    end in
  reject bool_decide (is_Some (checked_result res)) && (maximumExecutionEvidenceItems <? itemCount)
    as "scanner-worker check produced an oversized evidence batch";;
  batchID ← emission_id env;
  let batch := result_batch (checked_result res) batchID sequence final (emission_now env) in
  envelope ← emission_sign env batch;
  try emission_emit env envelope;;
  Ok batch.

(** * Execution *)

(** How [executeClaimed] ends. *)
Inductive exec_end := ExecDone | ExecInterrupted | ExecEmitFailed (e : error).

Record exec_state := {
  exec_queue : list executionCheck;      (** not yet handed to a worker *)
  exec_running : list executionCheck;    (** held by a worker, result not collected *)
  exec_sequence : Z;
  exec_emitted : list (executionCheck * WorkerEvidenceBatch);
  exec_cancelled : bool;                 (** the context is done *)
  exec_end_ : option exec_end }.

Definition first_sequence : Z := match Job_Resume job with Some r => Resume_NextEvidenceSequence r | None => 1 end.
Definition exec_init (checks : list executionCheck) : exec_state :=
  {| exec_queue := checks; exec_running := []; exec_sequence := first_sequence; exec_emitted := [];
     exec_cancelled := false; exec_end_ := None |}.

Definition completed_count (s : exec_state) : Z := Z.of_nat (length (exec_emitted s)).
Definition exec_summary (skipped : Z) (s : exec_state) : ExecutionSummary :=
  {| CompletedChecks := completed_count s; SkippedChecks := skipped; FinalSequence := wrapu64 (exec_sequence s - 1) |}.

(** One step of the goroutines, for a job with [total] checks to run. *)
Inductive exec_step (total : Z) : exec_state -> exec_state -> Prop :=
| step_start c queue running sequence emitted cancelled :
    (** a worker receives the next check from the feeder *)
    Z.of_nat (length running) < Job_MaxConcurrent job ->
    exec_step total (Build_exec_state (c :: queue) running sequence emitted cancelled None)
                    (Build_exec_state queue (c :: running) sequence emitted cancelled None)
| step_emit c running1 running2 queue sequence emitted cancelled res env batch :
    (** the collector receives a worker's result and emits it *)
    result_check res = c ->
    emitResult env (Some res) sequence (Z.of_nat (length emitted) + 1 =? total) = Ok batch ->
    exec_step total (Build_exec_state queue (running1 ++ c :: running2) sequence emitted cancelled None)
                    (Build_exec_state queue (running1 ++ running2) (wrapu64 (sequence + 1)) (emitted ++ [(c, batch)]) cancelled None)
| step_emit_failed c running1 running2 queue sequence emitted cancelled res env e :
    result_check res = c ->
    emitResult env (Some res) sequence (Z.of_nat (length emitted) + 1 =? total) = Err e ->
    exec_step total (Build_exec_state queue (running1 ++ c :: running2) sequence emitted cancelled None)
                    (Build_exec_state queue (running1 ++ running2) sequence emitted true (Some (ExecEmitFailed e)))
| step_cancel queue running sequence emitted :
    (** the deadline passes or the caller cancels *)
    exec_step total (Build_exec_state queue running sequence emitted false None)
                    (Build_exec_state queue running sequence emitted true None)
| step_feeder_stops c queue running sequence emitted :
    exec_step total (Build_exec_state (c :: queue) running sequence emitted true None)
                    (Build_exec_state [] running sequence emitted true None)
| step_worker_stops c running1 running2 queue sequence emitted :
    (** a worker drops its result *)
    exec_step total (Build_exec_state queue (running1 ++ c :: running2) sequence emitted true None)
                    (Build_exec_state queue (running1 ++ running2) sequence emitted true None)
| step_closed sequence emitted cancelled :
    (** the feeder and the workers are done: the results channel is closed *)
    exec_step total (Build_exec_state [] [] sequence emitted cancelled None)
                    (Build_exec_state [] [] sequence emitted cancelled (Some (if cancelled then ExecInterrupted else ExecDone))).

(** [executeClaimed]: what the calls return and the batches they emitted. Without
    pending checks one empty final batch is emitted. *)
Inductive executeClaimed (skipped : Z) : list executionCheck -> exec_end -> list WorkerEvidenceBatch -> ExecutionSummary -> Prop :=
| execute_nothing env batch :
    emitResult env None first_sequence true = Ok batch ->
    executeClaimed skipped [] ExecDone [batch]
      {| CompletedChecks := 0; SkippedChecks := skipped; FinalSequence := first_sequence |}
| execute_nothing_failed env e :
    emitResult env None first_sequence true = Err e ->
    executeClaimed skipped [] (ExecEmitFailed e) []
      {| CompletedChecks := 0; SkippedChecks := skipped; FinalSequence := wrapu64 (first_sequence - 1) |}
| execute_checks checks s e :
    checks <> [] ->
    rtc (exec_step (Z.of_nat (length checks))) (exec_init checks) s -> exec_end_ s = Some e ->
    executeClaimed skipped checks e (snd <$> exec_emitted s) (exec_summary skipped s).
End emission.

(** * Check keys *)

Lemma str_forall_app p s t : str_forall p (s +:+ t) = str_forall p s && str_forall p t.
Proof.
  induction s as [|a s IH]; [done|]. change (p a && str_forall p (s +:+ t) = (p a && str_forall p s) && str_forall p t).
  by rewrite IH, andb_assoc.
Qed.

Lemma pad_digits w n : str_forall is_digit (pad w n) = true.
Proof.
  revert n. induction w as [|w IH]; intros n; [done|].
  change (str_forall is_digit (pad w (n / 10) +:+ String (digit (n mod 10)) "") = true). rewrite str_forall_app, IH. simpl.
  rewrite is_digit_digit; [done|]. apply Z.mod_pos_bound. lia.
Qed.

Lemma dec_width_enough f n : 0 <= n < 10 ^ Z.of_nat (S f) -> n < 10 ^ Z.of_nat (dec_width f n) /\ (1 <= dec_width f n)%nat.
Proof.
  revert n. induction f as [|f IH]; intros n Hn; cbn [dec_width]; [split; [apply Hn|lia]|].
  case_if; reflect_bools; [split; [change (n < 10); lia|lia]|].
  destruct (IH (n / 10)) as [L _].
  { split; [apply Z.div_pos; lia|]. apply Z.div_lt_upper_bound; [lia|].
    rewrite Nat2Z.inj_succ, Z.pow_succ_r in Hn by lia. lia. }
  split; [|lia]. rewrite Nat2Z.inj_succ, Z.pow_succ_r by lia. pose proof (Z.div_mod n 10). pose proof (Z.mod_pos_bound n 10). lia.
Qed.

Lemma ParseInt64_append_int n : int64_range n -> ParseInt64 (append_int n 0) = Some n.
Proof.
  intros Hn. unfold append_int. set (w := Nat.max 0 (dec_width 20 (Z.abs n))).
  assert (Hr : 0 <= Z.abs n < 10 ^ Z.of_nat 21).
  { unfold int64_range, int64_min, int64_max in Hn. change (10 ^ Z.of_nat 21) with 1000000000000000000000. lia. }
  destruct (dec_width_enough 20 (Z.abs n) Hr) as [Hlt H1].
  assert (Hw : w = dec_width 20 (Z.abs n)) by lia. rewrite <- Hw in *.
  assert (Hread : read_digits 0 (pad w (Z.abs n)) = Some (Z.abs n)) by (rewrite read_digits_pad; [f_equal; lia|lia]).
  assert (Hne : pad w (Z.abs n) <> ""%string) by (intros E; pose proof (pad_length w (Z.abs n)) as L; rewrite E in L; simpl in L; lia).
  pose proof (pad_digits w (Z.abs n)) as Hd. set (digits := pad w (Z.abs n)) in *. clearbody digits. clear Hw Hlt H1.
  assert (Hin : (int64_min <=? n) && (n <=? int64_max) = true) by (apply andb_true_iff; rewrite !Z.leb_le; apply Hn).
  destruct (n <? 0) eqn:En; [apply Z.ltb_lt in En|apply Z.ltb_ge in En].
  - change (ParseInt64 (String "-" digits) = Some n). unfold ParseInt64. destruct digits as [|a s]; [done|].
    rewrite Hread. replace (- Z.abs n) with n by lia. by rewrite Hin.
  - change ("" +:+ digits) with digits. unfold ParseInt64. rewrite Z.abs_eq in Hread by lia.
    destruct digits as [|a s]; [done|]. simpl in Hd. apply andb_true_iff in Hd as [Hd _].
    assert (a <> "+"%char /\ a <> "-"%char) as [N1 N2] by (split; intros ->; discriminate Hd).
    destruct a as [[] [] [] [] [] [] [] []]; try done; rewrite Hread; by rewrite Hin.
Qed.

(** The text after the last colon. *)
Fixpoint split_last (s : string) : option (string * string) :=
  match s with
  | EmptyString => None
  | String a s' =>
      match split_last s' with
      | Some (x, y) => Some (String a x, y)
      | None => if Ascii.eqb a ":" then Some (EmptyString, s') else None
      end
  end.
Lemma split_last_app a d : split_last d = None -> split_last (a +:+ String ":" d) = Some (a, d).
Proof.
  intros Hd. induction a as [|c a IH]; [change (split_last (String ":" d) = Some (""%string, d)); simpl; by rewrite Hd|].
  change (split_last (String c (a +:+ String ":" d)) = Some (String c a, d)). simpl. by rewrite IH.
Qed.
Lemma split_last_none s : str_forall (fun a => negb (Ascii.eqb a ":")) s = true -> split_last s = None.
Proof. induction s as [|a s IH]; simpl; [done|]. intros [Ha Hs]%andb_true_iff. rewrite IH by done. by destruct (Ascii.eqb a ":"). Qed.

Lemma str_forall_impl (p q : ascii -> bool) s : (forall a, p a = true -> q a = true) -> str_forall p s = true -> str_forall q s = true.
Proof. intros Hpq. induction s as [|a s IH]; simpl; [done|]. rewrite !andb_true_iff. naive_solver. Qed.

Lemma append_int_no_colon n : split_last (append_int n 0) = None.
Proof.
  apply split_last_none. unfold append_int. rewrite str_forall_app. apply andb_true_iff. split; [by case_if|].
  eapply str_forall_impl; [|apply pad_digits]. intros a Ha. apply negb_true_iff. by apply not_true_iff_false; intros ->%Ascii.eqb_eq.
Qed.

Lemma executionCheckKey_inj a p a' p' :
  int64_range p -> int64_range p' -> executionCheckKey a p = executionCheckKey a' p' -> a = a' /\ p = p'.
Proof.
  unfold executionCheckKey. intros Hp Hp' E.
  assert (E2 : Some (a, append_int p 0) = Some (a', append_int p' 0)).
  { rewrite <- !split_last_app by apply append_int_no_colon. by rewrite E. }
  injection E2 as -> E2. split; [done|]. apply ParseInt64_append_int in Hp, Hp'. congruence.
Qed.

(** * Pending checks *)

Lemma job_checks_spec job c :
  c ∈ job_checks job <-> check_target c ∈ Job_Targets job /\ check_port c ∈ Job_Ports job.
Proof.
  unfold job_checks. rewrite list_elem_of_bind. split.
  - intros (t & (p & -> & Hp)%list_elem_of_fmap & Ht). done.
  - intros [Ht Hp]. exists (check_target c). split; [|done]. apply list_elem_of_fmap. exists (check_port c). by destruct c.
Qed.

Lemma job_checks_length job : length (job_checks job) = (length (Job_Targets job) * length (Job_Ports job))%nat.
Proof.
  unfold job_checks. induction (Job_Targets job) as [|t ts IH]; [done|]. rewrite bind_cons, length_app, length_fmap, IH. done.
Qed.

Definition check_pair (c : executionCheck) : string * Z := (Target_Address (check_target c), check_port c).

Lemma job_checks_distinct job :
  NoDup (Target_Address <$> Job_Targets job) -> NoDup (Job_Ports job) -> NoDup (check_pair <$> job_checks job).
Proof.
  intros Ht Hp. unfold job_checks. induction (Job_Targets job) as [|t ts IH]; [constructor|].
  rewrite fmap_cons in Ht. apply NoDup_cons in Ht as [Hn Ht]. rewrite bind_cons, fmap_app. apply NoDup_app. split_and!.
  - rewrite <- list_fmap_compose. apply NoDup_fmap_2; [|done]. intros p p' E. by injection E.
  - intros k (c & -> & Hc)%list_elem_of_fmap (c' & E & Hc')%list_elem_of_fmap. apply Hn.
    apply list_elem_of_fmap in Hc as (p & -> & _). apply list_elem_of_bind in Hc' as (t' & (p' & -> & _)%list_elem_of_fmap & Hin).
    injection E as E _. rewrite E. by apply list_elem_of_fmap_2.
  - by apply IH.
Qed.

Lemma valid_addresses_distinct job worker now : JobValid job worker now -> NoDup (Target_Address <$> Job_Targets job).
Proof.
  intros [_ _ _ _ _ _ _ _ (_ & _ & Hnd) _ _ _]. rewrite list_fmap_compose in Hnd. by apply NoDup_fmap_1 in Hnd.
Qed.

Lemma size_list_to_set_le (l : list string) : (size (list_to_set l : gset string) <= length l)%nat.
Proof.
  induction l as [|x l IH]; simpl; [done|]. rewrite size_union_alt, size_singleton.
  assert (size ((list_to_set l : gset string) ∖ {[x]}) <= size (list_to_set l : gset string))%nat
    by (apply subseteq_size; set_solver). lia.
Qed.

(** Completed checkpoints of a valid resume are distinct (address, port) pairs
    of the job. *)
Lemma completed_bound job worker now :
  JobValid job worker now ->
  (size (completed_keys job) <= length (Job_Targets job) * length (Job_Ports job))%nat.
Proof.
  intros Hv. unfold completed_keys. destruct (Job_Resume job) as [resume|] eqn:Er; [|rewrite size_empty; lia].
  destruct (valid_resume _ _ _ Hv resume Er) as [_ _ Hc Hd].
  etrans; [apply size_list_to_set_le|]. rewrite length_fmap, <- (length_fmap (fun c => (addr_or_zero (Checkpoint_Address c), wrapu16 (Checkpoint_Port c)))).
  set (addresses := addr_or_zero ∘ Target_Address <$> Job_Targets job). set (ports := wrapu16 <$> Job_Ports job).
  replace (length (Job_Targets job)) with (length addresses) by apply length_fmap.
  replace (length (Job_Ports job)) with (length ports) by apply length_fmap.
  rewrite <- length_prod. apply NoDup_incl_length; [by apply NoDup_ListNoDup|].
  intros k Hk. apply list_elem_of_In, list_elem_of_fmap in Hk as (c & -> & Hin). rewrite Forall_forall in Hc.
  destruct (Hc c Hin) as (address & Ha & Hat & Hp & _). apply in_prod_iff. rewrite <- !list_elem_of_In. split.
  - unfold addr_or_zero. by rewrite Ha.
  - by apply list_elem_of_fmap_2.
Qed.

Lemma and_iff_compat_l_dep (A B C D : Prop) : (A -> B -> (C <-> D)) -> ((A /\ B) /\ C <-> A /\ B /\ D).
Proof. tauto. Qed.

Lemma filter_partition {A} (p : A -> bool) l :
  (length (List.filter p l) + length (List.filter (fun x => negb (p x)) l) = length l)%nat.
Proof. induction l as [|x l IH]; simpl; [done|]. destruct (p x); simpl; lia. Qed.

(** Text keys of the checks of a job whose ports are machine integers. *)
Lemma job_keys_distinct job :
  NoDup (Target_Address <$> Job_Targets job) -> NoDup (Job_Ports job) -> Forall int64_range (Job_Ports job) ->
  NoDup ((fun c => executionCheckKey (Target_Address (check_target c)) (check_port c)) <$> job_checks job).
Proof.
  intros Ht Hp Hr. pose proof (job_checks_distinct job Ht Hp) as Hd. rewrite Forall_forall in Hr.
  assert (Hin : Forall (fun c => int64_range (check_port c)) (job_checks job)).
  { apply Forall_forall. intros c Hc. apply job_checks_spec in Hc as [_ Hc]. by apply Hr. }
  induction (job_checks job) as [|c l IH]; [constructor|]. apply Forall_cons in Hin as [Hc Hin].
  rewrite fmap_cons in *. apply NoDup_cons in Hd as [Hn Hd]. apply NoDup_cons. split; [|by apply IH].
  intros (c' & E & Hc')%list_elem_of_fmap. apply Hn. rewrite Forall_forall in Hin.
  apply executionCheckKey_inj in E as [E1 E2]; [|done|by apply Hin].
  unfold check_pair at 1. rewrite E1, E2. by apply (list_elem_of_fmap_2 check_pair).
Qed.

Lemma skipped_bound job :
  NoDup (Target_Address <$> Job_Targets job) -> NoDup (Job_Ports job) -> Forall int64_range (Job_Ports job) ->
  (length (List.filter (fun c => negb (pending (completed_keys job) c)) (job_checks job)) <= size (completed_keys job))%nat.
Proof.
  intros Ht Hp Hr. pose proof (job_keys_distinct job Ht Hp Hr) as Hd.
  set (key := fun c => executionCheckKey (Target_Address (check_target c)) (check_port c)) in *.
  rewrite <- (length_fmap key). rewrite <- (size_list_to_set (C := gset string)).
  - apply subseteq_size. intros k. rewrite elem_of_list_to_set, list_elem_of_fmap. intros (c & -> & Hc).
    apply list_elem_of_In, List.filter_In in Hc as [_ Hc]. unfold pending in Hc. rewrite negb_involutive in Hc.
    by apply bool_decide_eq_true in Hc.
  - clear -Hd. induction (job_checks job) as [|c l IH]; [constructor|]. rewrite fmap_cons in Hd.
    apply NoDup_cons in Hd as [Hn Hd]. simpl. destruct (negb _); [|by apply IH]. rewrite fmap_cons. apply NoDup_cons.
    split; [|by apply IH]. intros (c' & E & Hc')%list_elem_of_fmap. apply Hn. rewrite E. apply list_elem_of_fmap_2.
    apply list_elem_of_In, List.filter_In in Hc' as [Hc' _]. by apply list_elem_of_In.
Qed.

(** For a job that validates, [pendingExecutionChecks] does not panic: the
    capacity it reserves is never negative. It returns, without repetition,
    exactly the target and port pairs whose address text and port no resumed
    checkpoint names, and no check is lost: a checkpoint spelled differently
    from its target makes the check run again. *)
Theorem pending_checks_spec (job : WorkerJob) (worker : ScannerWorker) (now : Time)
  (Hv : JobValid job worker now) (Hports : Forall int64_range (Job_Ports job)) :
  exists checks skipped, pendingExecutionChecks job = Some (checks, skipped) /\
    NoDup (check_pair <$> checks) /\
    (forall c, c ∈ checks <-> check_target c ∈ Job_Targets job /\ check_port c ∈ Job_Ports job /\
       forall resume cp, Job_Resume job = Some resume -> cp ∈ Resume_Completed resume ->
         ~ (Checkpoint_Address cp = Target_Address (check_target c) /\ Checkpoint_Port cp = check_port c)) /\
    Z.of_nat (length (Job_Targets job)) * Z.of_nat (length (Job_Ports job)) <= Z.of_nat (length checks) + skipped.
Proof.
  pose proof (completed_bound job worker now Hv) as Hb. pose proof (valid_addresses_distinct job worker now Hv) as Ht.
  assert (Hp : NoDup (Job_Ports job)) by apply Hv.
  unfold pendingExecutionChecks. rewrite (proj2 (Z.ltb_ge _ 0)) by lia. do 2 eexists. split; [reflexivity|]. split; [|split].
  - pose proof (job_checks_distinct job Ht Hp) as Hd. induction (job_checks job) as [|c l IH]; [constructor|].
    rewrite fmap_cons in Hd. apply NoDup_cons in Hd as [Hn Hd]. simpl. destruct (pending _ c); [|by apply IH].
    rewrite fmap_cons. apply NoDup_cons. split; [|by apply IH]. intros (c' & E & Hc')%list_elem_of_fmap. apply Hn.
    rewrite E. apply list_elem_of_fmap_2. apply list_elem_of_In, List.filter_In in Hc' as [Hc' _]. by apply list_elem_of_In.
  - intros c. rewrite list_elem_of_In, List.filter_In, <- list_elem_of_In, job_checks_spec. unfold pending.
    rewrite negb_true_iff, bool_decide_eq_false. apply and_iff_compat_l_dep. intros _ Hc.
    rewrite Forall_forall in Hports. unfold completed_keys. destruct (Job_Resume job) as [resume|] eqn:Er; [|set_solver].
    destruct (valid_resume _ _ _ Hv resume Er) as [_ _ Hcp _]. rewrite Forall_forall in Hcp.
    rewrite elem_of_list_to_set, list_elem_of_fmap. split.
    + intros Hn resume' cp [= <-] Hin [Ea Ep]. apply Hn. exists cp. by rewrite Ea, Ep.
    + intros Hn (cp & E & Hin). destruct (Hcp cp Hin) as (_ & _ & _ & Hpp & _).
      apply executionCheckKey_inj in E as [Ea Ep]; [|by apply Hports..]. by eapply Hn.
  - pose proof (skipped_bound job Ht Hp Hports). pose proof (filter_partition (pending (completed_keys job)) (job_checks job)).
    pose proof (job_checks_length job). lia.
Qed.

(** * Execution *)

Section execution.
Context (job : WorkerJob) (checks : list executionCheck).
#[local] Abbreviation total := (Z.of_nat (length checks)).
#[local] Abbreviation step := (exec_step job total).

(** [b] reports check [c] as the [i]-th result. *)
Definition reports_check (i : nat) (c : executionCheck) (b : WorkerEvidenceBatch) : Prop :=
  Batch_JobID b = Job_ID job /\ Batch_WorkerID b = Job_WorkerID job /\ Batch_ScanID b = Job_ScanID job /\
  Batch_Sequence b = first_sequence job + Z.of_nat i /\
  (Batch_Final b = true <-> S i = length checks) /\
  exists t, Batch_Checkpoints b = [{| Checkpoint_Address := Target_Address (check_target c); Checkpoint_Port := check_port c;
                                      Checkpoint_CompletedAt := t |}].

Definition emitted_checks (s : exec_state) : list executionCheck := fst <$> exec_emitted s.

Record exec_ok (s : exec_state) : Prop := {
  ok_subset : emitted_checks s ++ exec_running s ++ exec_queue s ⊆+ checks;
  ok_all : exec_cancelled s = false -> emitted_checks s ++ exec_running s ++ exec_queue s ≡ₚ checks;
  ok_running : Z.of_nat (length (exec_running s)) <= Z.max 0 (Job_MaxConcurrent job);
  ok_sequence : exec_sequence s = first_sequence job + completed_count s;
  ok_batches : forall i c b, exec_emitted s !! i = Some (c, b) -> reports_check i c b;
  ok_done : exec_end_ s = Some ExecDone -> exec_cancelled s = false /\ exec_running s = [] /\ exec_queue s = [] }.

Hypothesis addresses : Forall (fun c => Target_Address (check_target c) <> ""%string) checks.
Hypothesis sequences : 0 <= first_sequence job /\ first_sequence job + total < 2 ^ 64.

Lemma emitResult_ok env res sequence final b :
  emitResult job env (Some res) sequence final = Ok b -> Target_Address (check_target (result_check res)) <> ""%string ->
  Batch_JobID b = Job_ID job /\ Batch_WorkerID b = Job_WorkerID job /\ Batch_ScanID b = Job_ScanID job /\
  Batch_Sequence b = sequence /\ Batch_Final b = final /\
  Batch_Checkpoints b = [{| Checkpoint_Address := Target_Address (check_target (result_check res));
                            Checkpoint_Port := check_port (result_check res); Checkpoint_CompletedAt := result_completedAt res |}].
Proof.
  unfold emitResult. intros H Ha. apply reject_ok in H as [_ H]. apply bind_ok in H as (id & _ & H).
  apply bind_ok in H as (envelope & _ & H). apply try_ok in H as [_ [= <-]]. simpl.
  rewrite bool_decide_eq_false_2 by done. done.
Qed.

Lemma emitted_perm (l1 l2 q e : list executionCheck) c : (e ++ [c]) ++ (l1 ++ l2) ++ q ≡ₚ e ++ (l1 ++ c :: l2) ++ q.
Proof. rewrite <- !app_assoc. f_equiv. simpl. by rewrite <- Permutation_middle. Qed.

Lemma emit_ok queue l1 c l2 sequence emitted cancelled res env b :
  exec_ok (Build_exec_state queue (l1 ++ c :: l2) sequence emitted cancelled None) -> result_check res = c ->
  emitResult job env (Some res) sequence (Z.of_nat (length emitted) + 1 =? total) = Ok b ->
  exec_ok (Build_exec_state queue (l1 ++ l2) (wrapu64 (sequence + 1)) (emitted ++ [(c, b)]) cancelled None).
Proof using addresses sequences.
  intros [Hs Ha Hr Hq Hb _] Hc He. simpl in *. unfold completed_count, emitted_checks in *. simpl in *.
  assert (Hin : c ∈ checks) by (eapply elem_of_submseteq; [|exact Hs]; rewrite !elem_of_app; right; left; right; left).
  rewrite Forall_forall in addresses. apply emitResult_ok in He; [|rewrite Hc; by apply addresses].
  destruct He as (E1 & E2 & E3 & E4 & E5 & E6). rewrite Hc in E6.
  assert (Hlen : (length emitted < length checks)%nat).
  { apply submseteq_length in Hs. rewrite !length_app, length_fmap in Hs. simpl in Hs. lia. }
  split; simpl; unfold emitted_checks, completed_count; simpl; rewrite ?fmap_app, ?length_app.
  - by rewrite (emitted_perm l1 l2 queue (fst <$> emitted) c).
  - intros Hn. by rewrite (emitted_perm l1 l2 queue (fst <$> emitted) c), Ha.
  - rewrite length_app in *. simpl in *. lia.
  - rewrite wrapu64_id by (unfold uint64_range; lia). simpl. lia.
  - intros i c' b' Hi. apply lookup_app_Some in Hi as [Hi|[Hge Hi]]; [by apply Hb|].
    apply list_lookup_singleton_Some in Hi as [Hi [= <- <-]]. assert (i = length emitted) as -> by lia.
    unfold reports_check. split_and!; try done; [lia| |by eexists].
    rewrite E5, Z.eqb_eq. lia.
  - done.
Qed.

Lemma exec_step_ok s s' : step s s' -> exec_ok s -> exec_ok s'.
Proof using addresses sequences.
  destruct 1 as [c queue running sequence emitted cancelled Hlt
    |c l1 l2 queue sequence emitted cancelled res env b Hc He
    |c l1 l2 queue sequence emitted cancelled res env e Hc He
    |queue running sequence emitted|c queue running sequence emitted
    |c l1 l2 queue sequence emitted|sequence emitted cancelled]; intros Hok; [|by eapply emit_ok|..];
  destruct Hok as [Hs Ha Hr Hq Hb Hd]; unfold emitted_checks in *; simpl in *; (split; unfold emitted_checks; simpl; [..|try done]); try done.
  all: rewrite ?length_app in *; simpl in *; try lia.
  - by rewrite <- (Permutation_middle running queue c) in Hs.
  - intros Hn. rewrite <- Ha by done. by rewrite (Permutation_middle running queue c).
  - etrans; [|exact Hs]. apply submseteq_app; [done|]. apply submseteq_app; [|done]. apply submseteq_app; [done|]. by apply submseteq_cons.
  - etrans; [|exact Hs]. apply submseteq_app; [done|]. apply submseteq_app; [done|]. apply submseteq_nil_l.
  - etrans; [|exact Hs]. apply submseteq_app; [done|]. apply submseteq_app; [|done]. apply submseteq_app; [done|]. by apply submseteq_cons.
  - by destruct cancelled.
Qed.

Lemma exec_init_ok : exec_ok (exec_init job checks).
Proof. split; unfold emitted_checks, completed_count; simpl; try done; lia. Qed.

Lemma exec_steps_ok s : rtc step (exec_init job checks) s -> exec_ok s.
Proof using addresses sequences.
  intros H. remember (exec_init job checks) as s0 eqn:E. assert (H0 : exec_ok s0) by (subst; apply exec_init_ok). clear E.
  induction H as [|s1 s2 s3 Hs _ IH]; [done|]. apply IH. by eapply exec_step_ok.
Qed.

(** ** Progress and termination *)

Definition exec_measure (s : exec_state) : nat :=
  2 * length (exec_queue s) + length (exec_running s) + (if exec_cancelled s then 0 else 1) +
  match exec_end_ s with Some _ => 0 | None => 1 end.

Lemma exec_step_measure s s' : step s s' -> (exec_measure s' < exec_measure s)%nat.
Proof.
  destruct 1; unfold exec_measure; simpl; rewrite ?length_app; simpl; try destruct cancelled; lia.
Qed.

Lemma exec_wf : well_founded (flip step).
Proof.
  apply (well_founded_lt_compat _ exec_measure). intros s' s H. by apply exec_step_measure.
Qed.

Lemma exec_collects s l1 c l2 (res : executionResult) (env : emission) :
  exec_end_ s = None -> exec_running s = l1 ++ c :: l2 -> result_check res = c ->
  exists s', step s s' /\ exec_running s' = l1 ++ l2 /\
    forall b, emitResult job env (Some res) (exec_sequence s) (completed_count s + 1 =? total) = Ok b ->
      exec_emitted s' = exec_emitted s ++ [(c, b)].
Proof.
  destruct s as [queue running sequence emitted cancelled e]. unfold completed_count. simpl. intros -> -> Hc.
  destruct (emitResult job env (Some res) sequence (Z.of_nat (length emitted) + 1 =? total)) as [b|e'] eqn:He.
  - eexists. split; [by eapply step_emit|]. split; [done|]. by intros b' [= <-].
  - eexists. split; [by eapply step_emit_failed|]. done.
Qed.

Lemma exec_progress s :
  1 <= Job_MaxConcurrent job -> exec_end_ s = None -> exec_running s = [] -> exists s', step s s'.
Proof.
  destruct s as [queue running sequence emitted cancelled e]. simpl. intros Hm -> ->. destruct queue as [|c queue].
  - eexists. apply step_closed.
  - eexists. apply step_start. simpl. lia.
Qed.
End execution.

(** Whatever the interleaving of the feeder, the workers, the collector and
    a cancellation: at most MaxConcurrent checks run at once, no check is
    emitted twice, the batches carry the sequence numbers from the resume point
    without a gap, each with the checkpoint of its check, and the batch marked
    final is exactly the last one. A run that ends without error has emitted
    every pending check. *)
Theorem executor_emissions (job : WorkerJob) (checks : list executionCheck) (s : exec_state)
  (Haddresses : Forall (fun c => Target_Address (check_target c) <> ""%string) checks)
  (Hsequences : 0 <= first_sequence job /\ first_sequence job + Z.of_nat (length checks) < 2 ^ 64)
  (Hmax : 1 <= Job_MaxConcurrent job)
  (Hsteps : rtc (exec_step job (Z.of_nat (length checks))) (exec_init job checks) s) :
  Z.of_nat (length (exec_running s)) <= Job_MaxConcurrent job /\
  emitted_checks s ⊆+ checks /\
  (forall i c b, exec_emitted s !! i = Some (c, b) -> reports_check job checks i c b) /\
  (exec_end_ s = Some ExecDone -> emitted_checks s ≡ₚ checks).
Proof.
  destruct (exec_steps_ok job checks Haddresses Hsequences s Hsteps) as [Hs Ha Hr _ Hb Hd]. split_and!.
  - lia.
  - etrans; [|exact Hs]. apply submseteq_inserts_r. done.
  - done.
  - intros (Hc & Er & Eq)%Hd. specialize (Ha Hc). rewrite Er, Eq in Ha. by rewrite app_nil_r in Ha.
Qed.


(** An execution that ends without error, with or without pending checks, has
    emitted at least one batch, numbered without a gap from the resume point;
    the last one, and only it, is final; and the summary counts the checks and
    names the last sequence number. *)
Theorem execution_done (job : WorkerJob) (skipped : Z) (checks : list executionCheck) (batches : list WorkerEvidenceBatch)
  (summary : ExecutionSummary)
  (Haddresses : Forall (fun c => Target_Address (check_target c) <> ""%string) checks)
  (Hsequences : 1 <= first_sequence job /\ first_sequence job + Z.of_nat (length checks) < 2 ^ 64)
  (Hdone : executeClaimed job skipped checks ExecDone batches summary) :
  length batches = Nat.max 1 (length checks) /\
  (forall i b, batches !! i = Some b ->
     Batch_Sequence b = first_sequence job + Z.of_nat i /\ (Batch_Final b = true <-> S i = length batches)) /\
  summary = {| CompletedChecks := Z.of_nat (length checks); SkippedChecks := skipped;
               FinalSequence := first_sequence job + Z.of_nat (length batches) - 1 |}.
Proof.
  remember ExecDone as e eqn:Ee. destruct Hdone as [env batch He|env e He|checks s e Hne Hs Hend]; subst; [|done|].
  - split; [done|]. split; [|f_equal; simpl; lia]. intros i b Hi. apply list_lookup_singleton_Some in Hi as [-> <-].
    unfold emitResult in He. apply reject_ok in He as [_ He]. apply bind_ok in He as (id & _ & He).
    apply bind_ok in He as (envelope & _ & He). apply try_ok in He as [_ [= <-]]. simpl. split; [lia|done].
  - assert (Hseq : 0 <= first_sequence job /\ first_sequence job + Z.of_nat (length checks) < 2 ^ 64) by lia.
    destruct (exec_steps_ok job checks Haddresses Hseq s Hs) as [_ Ha _ Hq Hb Hd]. destruct (Hd Hend) as (Hc & Er & Eq).
    specialize (Ha Hc). rewrite Er, Eq, app_nil_r in Ha. unfold emitted_checks in Ha. apply Permutation_length in Ha as Hl.
    rewrite length_fmap in Hl. assert (length checks <> 0%nat) by by destruct checks.
    rewrite length_fmap. split; [lia|]. split.
    + intros i b Hi. rewrite list_lookup_fmap in Hi. destruct (exec_emitted s !! i) as [[c b']|] eqn:Ei; [|done].
      injection Hi as <-. destruct (Hb i c b' Ei) as (_ & _ & _ & H4 & H5 & _). rewrite Hl. done.
    + unfold exec_summary, completed_count in *. rewrite Hl, Hq. f_equal. rewrite wrapu64_id; [lia|]. unfold uint64_range. lia.
Qed.
