(* ===== verification/WorkerClientExamples.v ===== *)
(** The worker client on concrete messages and jobs: the theorems of the outbox,
    the ledger, the retry schedule and the executor at inputs where their
    hypotheses hold. *)
From Stdlib Require Import ZArith Lia String.
From stdpp Require Import base tactics list strings gmap sets relations.
From S2P Require Import Prelude GoStrings GoFloat GoTime Netip WorkerModel WorkerJob Dispatcher Sql WorkerStore WorkerJobMachine WorkerOutbox WorkerOutboxSafety WorkerClient WorkerExecutor WorkerExamples.
Open Scope Z_scope.

#[local] Existing Instances test_crypto test_crypto_laws.

(** * Outbox *)

(** Encryption by prefixing the length-checked associated data. *)
#[local] Instance toy_aead : OutboxCrypto := {|
  aead_Seal := fun nonce plaintext aad => (aad ++ plaintext)%string;
  aead_Open := fun nonce ciphertext aad => if has_prefix aad ciphertext then Some (drop_str (String.length aad) ciphertext) else None;
  aad_json := fun id kind created => (id ++ kind ++ created)%string |}.

Lemma prefix_split s t : has_prefix s (s +:+ t) = true /\ drop_str (String.length s) (s +:+ t) = t.
Proof.
  induction s as [|a s IH]; [by destruct t|]. change (String a s +:+ t) with (String a (s +:+ t)). simpl.
  by rewrite Ascii.eqb_refl.
Qed.
#[local] Instance toy_aead_laws : OutboxCryptoLaws.
Proof. split. intros nonce plaintext aad. simpl. destruct (prefix_split aad plaintext) as [E1 E2]. by rewrite E1, E2. Qed.

Definition sample_outbox : OutboxLimits := {| Outbox_MaxItems := 4; Outbox_MaxBytes := 100 |}.
Definition sample_message (id : string) : OutboxMessage :=
  {| Message_ID := id; Message_Kind := OutboxEvidence; Message_Payload := "payload"; Message_CreatedAt := t0 |}.
Definition outbox_ops : list outbox_op :=
  [OpOutboxEnqueue "n1" (sample_message "m1"); OpOutboxEnqueue "n2" (sample_message "m2"); OpOutboxEnqueue "n3" (sample_message "m1");
   OpOutboxEnqueue "n4" (sample_message "m3"); OpOutboxAcknowledge "m1"].
Definition queued : list OutboxRow := (run_outboxes sample_outbox outbox_ops []).2.

Lemma t0_year_ok : year_ok t0.
Proof. apply year_okb_spec. vm_compute. reflexivity. Qed.
Lemma outbox_times : Forall (fun op => forall nonce m, op = OpOutboxEnqueue nonce m -> year_ok (Message_CreatedAt m)) outbox_ops.
Proof. repeat (apply Forall_cons; split); try apply Forall_nil_2; intros nonce m E; try discriminate E; injection E as _ <-; exact t0_year_ok. Qed.
Lemma sample_outbox_small : Outbox_MaxBytes sample_outbox <= 2 ^ 61.
Proof. unfold sample_outbox. simpl. lia. Qed.

Lemma outbox_refines_queue_witness :
  OutboxPeek queued = Ok (sample_message "m2") /\ OutboxStatistics queued = {| Outbox_Items := 2; Outbox_Bytes := 14 |}.
Proof.
  pose proof (outbox_refines_queue sample_outbox outbox_ops sample_outbox_small outbox_times) as H.
  unfold queued. destruct (run_outboxes sample_outbox outbox_ops []) as [results rows] eqn:E.
  destruct (run_specs sample_outbox outbox_ops []) as [results' q] eqn:Eq. destruct H as (_ & _ & H1 & H2).
  cbn [snd]. rewrite H1, H2. replace q with ((run_specs sample_outbox outbox_ops []).2) by (rewrite Eq; reflexivity).
  split; vm_compute; reflexivity.
Defined.

(** A sender that delivers one message and then fails. *)
Definition one_then_fail (m : OutboxMessage) (sent : list string) : result () * list string :=
  match sent with
  | [] => (Ok tt, [Message_ID m])
  | _ => (Err "server is unavailable", sent)
  end.
Lemma queued_holds : holds sample_outbox queued [sample_message "m2"; sample_message "m3"].
Proof.
  pose proof (outbox_refines_queue_holds sample_outbox outbox_ops sample_outbox_small outbox_times) as [_ H].
  exact H.
Qed.
Lemma forward_pending_spec_witness :
  ForwardPending (fun _ => None) one_then_fail 5 queued [] =
    (1, Some "server is unavailable"%string, drop 1 queued, ["m2"%string]) /\
  holds sample_outbox (drop 1 queued) [sample_message "m3"].
Proof.
  pose proof (forward_pending_spec sample_outbox (fun _ => None) one_then_fail 5 queued _ [] queued_holds ltac:(lia)) as H.
  assert (E : ForwardPending (fun _ => None) one_then_fail 5 queued [] =
              (1, Some "server is unavailable"%string, drop 1 queued, ["m2"%string])) by (vm_compute; reflexivity).
  split; [exact E|]. rewrite E in H. destruct H as (w1 & _ & _ & _ & H & _). exact H.
Defined.

(** Two of four items: fifty percent, under the default pause threshold. *)
Lemma backpressure_exact_witness :
  exists s, Backpressure sample_outbox DefaultBackpressurePolicy queued = Ok s /\ AcceptNewJobs s = true.
Proof.
  destruct (backpressure_exact sample_outbox DefaultBackpressurePolicy queued) as (s & E & Ha & _).
  - vm_compute. reflexivity.
  - vm_compute. repeat split.
  - vm_compute. repeat split; discriminate.
  - exists s. split; [exact E|]. apply Ha. vm_compute. split; discriminate.
Defined.

(** * Replay *)

Definition claimed_once : list ClaimRow :=
  [claim_of (fun s => s) (test_envelope ["10.0.0.7"%string] [80]) (after 11)].
Lemma first_claim :
  VerifyAndClaim (fun s => s) (test_envelope ["10.0.0.7"%string] [80]) tt (test_worker "w1") (after 11) (Some []) = (Ok tt, Some claimed_once).
Proof. vm_compute. reflexivity. Qed.

Lemma job_claimed_once_witness :
  VerifyAndClaim (fun s => s) (test_envelope ["10.0.0.7"%string] [80]) tt (test_worker "w1") (after 200) (Some claimed_once)
  = (Err ErrJobReplay, Some claimed_once).
Proof.
  destruct (@job_claimed_once test_crypto (fun s => s) _ (test_envelope ["10.0.0.7"%string] [80]) tt tt (test_worker "w1") (test_worker "w1")
    (after 11) (after 200) [] claimed_once [] first_claim eq_refl) as (e & E & He).
  rewrite He in E; [exact E|vm_compute; reflexivity|vm_compute; discriminate..].
Defined.

(** The first lease, from 10 s to 130 s, runs out; at 200 s the server leases
    the same envelope to the same worker again. *)
Definition ops_leased_again : list store_op := ops_leased ++ [OpLease "w1" "second" (after 200) (after 320)].
Lemma leased_again_reported_failed_witness :
  (LeaseScannerWorkerJob "w1" "second" (after 200) (after 320) (run ops_leased)).1 = Ok (test_envelope ["10.0.0.7"%string] [80]) /\
  executeLease (fun s => s) (fun _ => None) (test_envelope ["10.0.0.7"%string] [80]) tt (test_worker "w1") (after 201) None (Some claimed_once)
  = (WorkerJobResultFailed, Some claimed_once).
Proof.
  split; [vm_compute; reflexivity|].
  exact (@leased_again_reported_failed test_crypto (fun s => s) (fun _ => None) _ tt (test_worker "w1") (after 11) (after 201) [] claimed_once []
    first_claim).
Defined.

(** * Retry *)

Lemma retry_delay_bounds_witness :
  exists d, Delay (fun n => Ok (n - 1)) DefaultRetryPolicy 3 0 = Ok d /\ 8 * Second <= d <= 9600 * Millisecond.
Proof.
  pose proof (retry_delay_bounds (fun n => Ok (n - 1)) DefaultRetryPolicy 3 0 eq_refl ltac:(vm_compute; discriminate)
    ltac:(intros n x Hn [= <-]; lia)) as H.
  destruct (Delay (fun n => Ok (n - 1)) DefaultRetryPolicy 3 0) as [d|e] eqn:E.
  - exists d. split; [reflexivity|]. destruct H as (_ & _ & [H1 _] & H2).
    split; [etrans; [|exact H1]|etrans; [exact H2|]]; vm_compute; discriminate.
  - vm_compute in E. discriminate E.
Defined.

(** * Execution *)

Definition two_targets : WorkerJob := jobForWorker (test_job "" ["10.0.0.7"; "10.0.0.8"]%string [80]) (test_worker "w1").
Lemma two_targets_valid : JobValid two_targets (test_worker "w1") (after 10).
Proof. apply Validate_ok. vm_compute. reflexivity. Qed.
Definition check_on (address : string) (port : Z) : executionCheck := {| check_target := test_target address; check_port := port |}.
Definition both_checks : list executionCheck := [check_on "10.0.0.7" 80; check_on "10.0.0.8" 80].

Lemma pending_checks_spec_witness : exists skipped, pendingExecutionChecks two_targets = Some (both_checks, skipped) /\ 2 <= 2 + skipped.
Proof.
  destruct (pending_checks_spec two_targets (test_worker "w1") (after 10) two_targets_valid) as (checks & skipped & E & _ & _ & Hn).
  - repeat constructor; vm_compute; discriminate.
  - exists skipped. assert (E2 : pendingExecutionChecks two_targets = Some (both_checks, 0)) by (vm_compute; reflexivity).
    rewrite E in E2. injection E2 as -> ->. split; [exact E|]. vm_compute in Hn |- *. exact Hn.
Defined.

Definition empty_result (c : executionCheck) : executionResult :=
  {| result_check := c; result_observation := None; result_findings := []; result_completedAt := after 20 |}.
Definition signing : emission :=
  {| emission_id := Ok "b1"%string; emission_now := after 21;
     emission_sign := fun b => Ok {| SignedBatch_Algorithm := "ECDSA-SHA256"; SignedBatch_CertificateSerial := "w1";
                                     SignedBatch_Batch := b; SignedBatch_Signature := "" |};
     emission_emit := fun _ => Ok tt |}.
Definition batch_of (c : executionCheck) (sequence : Z) (final : bool) : WorkerEvidenceBatch :=
  result_batch two_targets (Some (empty_result c)) "b1" sequence final (after 21).

(** Both checks start, and the second one to start is collected first. *)
Definition after_run : exec_state :=
  {| exec_queue := []; exec_running := []; exec_sequence := 3;
     exec_emitted := [(check_on "10.0.0.8" 80, batch_of (check_on "10.0.0.8" 80) 1 false);
                      (check_on "10.0.0.7" 80, batch_of (check_on "10.0.0.7" 80) 2 true)];
     exec_cancelled := false; exec_end_ := Some ExecDone |}.
Lemma sample_run : rtc (exec_step two_targets 2) (exec_init two_targets both_checks) after_run.
Proof.
  eapply rtc_l; [apply step_start; vm_compute; reflexivity|].
  eapply rtc_l; [apply step_start; vm_compute; reflexivity|].
  eapply rtc_l; [apply (step_emit two_targets 2 _ [] [check_on "10.0.0.7" 80] _ _ _ _ (empty_result (check_on "10.0.0.8" 80)) signing
    (batch_of (check_on "10.0.0.8" 80) 1 false)); [reflexivity|vm_compute; reflexivity]|].
  eapply rtc_l; [apply (step_emit two_targets 2 _ [] [] _ _ _ _ (empty_result (check_on "10.0.0.7" 80)) signing
    (batch_of (check_on "10.0.0.7" 80) 2 true)); [reflexivity|vm_compute; reflexivity]|].
  apply rtc_once. apply step_closed.
Qed.

Lemma executor_emissions_witness : emitted_checks after_run ≡ₚ both_checks.
Proof.
  apply (executor_emissions two_targets both_checks after_run).
  - repeat constructor; vm_compute; discriminate.
  - vm_compute. split; [discriminate|reflexivity].
  - vm_compute. discriminate.
  - exact sample_run.
  - reflexivity.
Defined.


Lemma execution_done_witness : exists batches summary,
  executeClaimed two_targets 0 both_checks ExecDone batches summary /\ FinalSequence summary = 2.
Proof.
  assert (H : executeClaimed two_targets 0 both_checks ExecDone (snd <$> exec_emitted after_run) (exec_summary 0 after_run))
    by (apply execute_checks; [discriminate|exact sample_run|reflexivity]).
  do 2 eexists. split; [exact H|]. apply execution_done in H as (_ & _ & E).
  - rewrite E. vm_compute. reflexivity.
  - repeat constructor; vm_compute; discriminate.
  - vm_compute. split; [discriminate|reflexivity].
Defined.
