(* ===== verification/NetworkPolicy.v ===== *)
(** Network-telemetry exclusions (internal/networkpolicy/policy.go): the policy
    an administrator stores, and the connections it keeps out of the telemetry. *)
From Stdlib Require Import ZArith Lia String Ascii.
From stdpp Require Import base tactics list strings gmap sets.
From S2P Require Import Prelude GoStrings GoTime Netip Sql.
Open Scope string_scope.
Open Scope Z_scope.

(** * Data (internal/model/endpoint.go) *)

Definition NetworkExclusionKind := string.
Definition NetworkExcludeProcessName : NetworkExclusionKind := "process_name".
Definition NetworkExcludeExecutable : NetworkExclusionKind := "executable".
Definition NetworkExcludeIP : NetworkExclusionKind := "ip".
Definition NetworkExcludeCIDR : NetworkExclusionKind := "cidr".
Definition NetworkExcludeHostname : NetworkExclusionKind := "hostname".

Record NetworkTelemetryExclusion := mkExclusion { Exclusion_Kind : NetworkExclusionKind; Exclusion_Value : string }.
Record NetworkTelemetryExclusions := mkExclusions {
  Exclusions_Applications : list NetworkTelemetryExclusion;
  Exclusions_Destinations : list NetworkTelemetryExclusion }.

Record NetworkConnection := {
  Conn_Protocol : string; Conn_LocalAddress : string; Conn_LocalPort : Z; Conn_RemoteAddress : string; Conn_RemotePort : Z;
  Conn_ProcessID : Z; Conn_ProcessName : string; Conn_Executable : string; Conn_RemoteHostname : string;
  Conn_HostnameSource : string; Conn_TLSServerName : string; Conn_Direction : string }.

Definition maximumExclusions : Z := 100.
Definition maximumValueBytes : Z := 500.

(** [strings.TrimSuffix(s, p)] for a suffix of one byte. *)
Fixpoint TrimSuffixByte (c : ascii) (s : string) : string :=
  match s with
  | EmptyString => EmptyString
  | String a EmptyString => if Ascii.eqb a c then EmptyString else s
  | String a s' => String a (TrimSuffixByte c s')
  end.

(** [strings.EqualFold]: case folding reads the Unicode tables. *)
Class CaseFolding := { EqualFold : string -> string -> bool }.

(** * Normalisation *)

Fixpoint last_byte (a : ascii) (s : string) : ascii :=
  match s with EmptyString => a | String b s' => last_byte b s' end.
Definition hostname_byte (c : ascii) : bool :=
  let c := byte_val c in ((97 <=? c) && (c <=? 122)) || ((48 <=? c) && (c <=? 57)) || (c =? 45).
Definition valid_label (label : string) : bool :=
  match label with
  | EmptyString => false
  | String a rest =>
      (strlen label <=? 63) && negb (Ascii.eqb a "-") && negb (Ascii.eqb (last_byte a rest) "-") && str_forall hostname_byte label
  end.

Definition validHostname (value : string) : bool :=
  if (strlen value <? 1) || (253 <? strlen value) then false
  else match ParseAddr value with
  | Some _ => false
  | None => forallb valid_label (split_byte "." value)
  end.

Definition normalize (value : NetworkTelemetryExclusion) (application : bool) : result NetworkTelemetryExclusion :=
  let kind := Exclusion_Kind value in
  let text := TrimSpace (Exclusion_Value value) in
  reject bool_decide (text = "") || (maximumValueBytes <? strlen text) as "network telemetry exclusion value is invalid" ;;
  if application then
    reject negb (bool_decide (kind = NetworkExcludeProcessName)) && negb (bool_decide (kind = NetworkExcludeExecutable))
      as "application exclusion kind must be process_name or executable" ;;
    Ok (mkExclusion kind text)
  else if bool_decide (kind = NetworkExcludeIP) then
    match ParseAddr text with
    | None => Err "IP exclusion is invalid"
    | Some address => Ok (mkExclusion kind (Addr_String address))
    end
  else if bool_decide (kind = NetworkExcludeCIDR) then
    match ParsePrefix text with
    | None => Err "CIDR exclusion is invalid"
    | Some prefix => Ok (mkExclusion kind (Prefix_String (Masked prefix)))
    end
  else if bool_decide (kind = NetworkExcludeHostname) then
    let name := ToLower (TrimSuffixByte "." text) in
    reject negb (validHostname name) as "hostname exclusion must be exact" ;;
    Ok (mkExclusion kind name)
  else Err "destination exclusion kind must be ip, cidr, or hostname".

(** The key of the [seen] map: kind and value around a zero byte. *)
Definition exclusion_key (e : NetworkTelemetryExclusion) : string :=
  Exclusion_Kind e +:+ String "000" "" +:+ Exclusion_Value e.

Definition normalize_step (application : bool) (acc : list NetworkTelemetryExclusion * gset string) (value : NetworkTelemetryExclusion) :
    result (list NetworkTelemetryExclusion * gset string) :=
  normalized ← normalize value application;
  reject bool_decide (exclusion_key normalized ∈ acc.2) as "network telemetry exclusions contain a duplicate" ;;
  Ok ((acc.1 ++ [normalized])%list, {[ exclusion_key normalized ]} ∪ acc.2).

Definition normalizeList (values : list NetworkTelemetryExclusion) (application : bool) : result (list NetworkTelemetryExclusion) :=
  reject maximumExclusions <? Z.of_nat (length values) as "network telemetry exclusion list exceeds 100 entries" ;;
  acc ← for_each (normalize_step application) ([], ∅) values;
  Ok acc.1.

Definition Normalize (policy : NetworkTelemetryExclusions) : result NetworkTelemetryExclusions :=
  applications ← normalizeList (Exclusions_Applications policy) true;
  destinations ← normalizeList (Exclusions_Destinations policy) false;
  Ok (mkExclusions applications destinations).

(** * Filtering *)

Section filter.
Context {CF : CaseFolding}.

Definition applicationMatches (connection : NetworkConnection) (exclusion : NetworkTelemetryExclusion) : bool :=
  let candidate := if bool_decide (Exclusion_Kind exclusion = NetworkExcludeExecutable)
                   then Conn_Executable connection else Conn_ProcessName connection in
  EqualFold candidate (Exclusion_Value exclusion).

Definition destinationMatches (connection : NetworkConnection) (exclusion : NetworkTelemetryExclusion) : bool :=
  let kind := Exclusion_Kind exclusion in
  if bool_decide (kind = NetworkExcludeIP) then bool_decide (Conn_RemoteAddress connection = Exclusion_Value exclusion)
  else if bool_decide (kind = NetworkExcludeHostname)
  then EqualFold (TrimSuffixByte "." (Conn_RemoteHostname connection)) (Exclusion_Value exclusion)
  else if bool_decide (kind = NetworkExcludeCIDR) then
    match ParsePrefix (Exclusion_Value exclusion), ParseAddr (Conn_RemoteAddress connection) with
    | Some prefix, Some address => Contains prefix address
    | _, _ => false
    end
  else false.

Definition excluded (connection : NetworkConnection) (policies : list NetworkTelemetryExclusions) : bool :=
  existsb (fun policy =>
    existsb (applicationMatches connection) (Exclusions_Applications policy) ||
    existsb (destinationMatches connection) (Exclusions_Destinations policy)) policies.

Definition Filter (connections : list NetworkConnection) (policies : list NetworkTelemetryExclusions) : list NetworkConnection :=
  List.filter (fun connection => negb (excluded connection policies)) connections.

(** * What a stored policy hides *)

Lemma normalize_values application values acc acc' :
  for_each (normalize_step application) acc values = Ok acc' ->
  exists normalized, acc'.1 = (acc.1 ++ normalized)%list /\ Forall2 (fun v n => normalize v application = Ok n) values normalized.
Proof.
  revert acc. induction values as [|v values IH]; intros acc H; simpl in H.
  { injection H as <-. exists []. by rewrite app_nil_r. }
  apply bind_ok in H as (acc1 & H1 & H). unfold normalize_step in H1. apply bind_ok in H1 as (n & Hn & H1).
  apply reject_ok in H1 as [_ [= <-]]. apply IH in H as (l & E & Hl). exists (n :: l). simpl in E.
  rewrite E, <- app_assoc. split; [done|]. by constructor.
Qed.

Lemma Normalize_values policy stored : Normalize policy = Ok stored ->
  Forall2 (fun v n => normalize v true = Ok n) (Exclusions_Applications policy) (Exclusions_Applications stored) /\
  Forall2 (fun v n => normalize v false = Ok n) (Exclusions_Destinations policy) (Exclusions_Destinations stored).
Proof.
  unfold Normalize, normalizeList. intros H. apply bind_ok in H as (apps & Ha & H). apply bind_ok in H as (dests & Hd & [= <-]).
  apply reject_ok in Ha as [_ Ha]. apply bind_ok in Ha as (a & Ha & [= <-]).
  apply reject_ok in Hd as [_ Hd]. apply bind_ok in Hd as (d & Hd & [= <-]).
  apply normalize_values in Ha as (la & -> & Ha), Hd as (ld & -> & Hd). done.
Qed.

Lemma elem_of_Filter c cs policies : c ∈ Filter cs policies <-> c ∈ cs /\ excluded c policies = false.
Proof. unfold Filter. rewrite elem_of_select_where, negb_true_iff. done. Qed.

Lemma excluded_by_destination c policy n : n ∈ Exclusions_Destinations policy -> destinationMatches c n = true -> excluded c [policy] = true.
Proof.
  intros Hn Hm. unfold excluded. simpl. rewrite orb_false_r. apply orb_true_iff. right. apply existsb_exists.
  exists n. split; [by apply list_elem_of_In|done].
Qed.

Lemma clear_bits_range v n : 0 <= v < 2 ^ 32 -> 0 <= n -> 0 <= clear_bits v n < 2 ^ 32.
Proof.
  intros Hv Hn. unfold clear_bits. pose proof (Z.pow_pos_nonneg 2 n ltac:(lia) Hn).
  pose proof (Z.div_mod v (2 ^ n) ltac:(lia)). pose proof (Z.mod_pos_bound v (2 ^ n) ltac:(lia)).
  pose proof (Z.div_pos v (2 ^ n) ltac:(lia) ltac:(lia)). nia.
Qed.

Lemma prefix_length_nonneg s n : prefix_length s = Some n -> 0 <= n.
Proof.
  assert (H : forall t, read_digits 0 t = Some n -> 0 <= n).
  { intros t Ht. apply read_digits_range in Ht; [|done]. pose proof (Z.pow_nonneg 10 (strlen t)). lia. }
  unfold prefix_length. destruct s as [|a [|b s]]; [done|apply H|]. case_if; [done|apply H].
Qed.

Lemma ParsePrefix_bits s p : ParsePrefix s = Some p -> 0 <= PrefixBits p <= BitLen (PrefixAddr p).
Proof.
  unfold ParsePrefix. intros H. apply bind_Some in H as ([raw bits] & _ & H). apply bind_Some in H as (ip & _ & H).
  case_if_in H; [done|]. apply bind_Some in H as (n & Hn & H). apply prefix_length_nonneg in Hn.
  destruct (Z.leb_spec n (BitLen ip)); [|done]. injection H as <-. simpl. lia.
Qed.

Lemma ParsePrefix_addr s p : ParsePrefix s = Some p -> exists raw, ParseAddr raw = Some (PrefixAddr p).
Proof.
  unfold ParsePrefix. intros H. apply bind_Some in H as ([raw bits] & _ & H). apply bind_Some in H as (ip & Hip & H).
  case_if_in H; [done|]. apply bind_Some in H as (n & _ & H). case_if_in H; [|done]. injection H as <-. by exists raw.
Qed.

(** An IPv4 address in a network of the requested policy is hidden by the stored one. *)
Lemma stored_cidr_matches c v n p a : normalize v false = Ok n -> Exclusion_Kind v = NetworkExcludeCIDR ->
  ParsePrefix (TrimSpace (Exclusion_Value v)) = Some p -> ParseAddr (Conn_RemoteAddress c) = Some a ->
  Is4 a = true -> Contains p a = true -> destinationMatches c n = true.
Proof.
  intros Hn Hk Hp Ha H4 Hc. pose proof (ParsePrefix_bits _ _ Hp) as Hb. destruct (ParsePrefix_addr _ _ Hp) as (raw & Hraw).
  unfold normalize in Hn. rewrite Hk, Hp in Hn. apply reject_ok in Hn as [_ Hn]. cbn in Hn. injection Hn as <-.
  unfold destinationMatches. cbn [Exclusion_Kind Exclusion_Value]. simpl. rewrite Ha.
  destruct p as [pa bits]. cbn [PrefixAddr PrefixBits] in *. destruct a as [|va|]; try done.
  pose proof Hc as Hf. apply Contains_spec in Hf as (Hf & _ & _ & _); [|done]. destruct pa as [|vp|]; try done.
  apply ParseAddr4_range in Hraw. cbn [BitLen] in Hb. unfold Prefix_String, Masked. cbn [PrefixAddr PrefixBits BitLen Addr_String].
  rewrite ParsePrefix_string4 by (done || (apply clear_bits_range; lia)).
  rewrite <- Hc. apply (Contains_Masked {| PrefixAddr := Addr4 vp; PrefixBits := bits |}). done.
Qed.

(** An exclusion of an IPv4 address or network that was accepted hides every
    connection to it: normalising and storing the policy does not change what it covers, however
    the administrator spelled the network. *)
Theorem ipv4_exclusions_hide policy stored v c cs a
    (Hn : Normalize policy = Ok stored) (Hv : v ∈ Exclusions_Destinations policy)
    (Ha : ParseAddr (Conn_RemoteAddress c) = Some a) (H4 : Is4 a = true) :
  (Exclusion_Kind v = NetworkExcludeIP /\ ParseAddr (TrimSpace (Exclusion_Value v)) = Some a) \/
  (Exclusion_Kind v = NetworkExcludeCIDR /\ exists p, ParsePrefix (TrimSpace (Exclusion_Value v)) = Some p /\ Contains p a = true) ->
  c ∉ Filter cs [stored].
Proof.
  intros Hcase. rewrite elem_of_Filter. intros [_ Hex]. apply Normalize_values in Hn as [_ Hd].
  apply list_elem_of_lookup in Hv as [i Hi]. destruct (Forall2_lookup_l _ _ _ _ _ Hd Hi) as (n & Hin & Hnorm).
  apply list_elem_of_lookup_2 in Hin. rewrite (excluded_by_destination c stored n Hin) in Hex; [done|].
  destruct Hcase as [[Hk Hp]|[Hk (p & Hp & Hc)]]; [|by eapply stored_cidr_matches].
  unfold normalize in Hnorm. rewrite Hk, Hp in Hnorm. apply reject_ok in Hnorm as [_ Hnorm]. cbn in Hnorm. injection Hnorm as <-.
  unfold destinationMatches. cbn [Exclusion_Kind Exclusion_Value]. simpl. destruct a as [|va|]; try done. simpl.
  apply bool_decide_eq_true. pose proof (ParseAddr4_range _ _ Ha) as Hr. eapply ParseAddr4_inj; [exact Ha|]. by apply ParseAddr_string4.
Qed.

(** An exclusion of one IPv4 address or of an IPv4 network. *)
Definition ipv4_exclusion (e : NetworkTelemetryExclusion) : Prop :=
  (Exclusion_Kind e = NetworkExcludeIP /\ exists v, ParseAddr (Exclusion_Value e) = Some (Addr4 v)) \/
  (Exclusion_Kind e = NetworkExcludeCIDR /\ exists p, ParsePrefix (Exclusion_Value e) = Some p /\ Is4 (PrefixAddr p) = true).

(** Exclusions of IPv4 destinations do not see a connection whose remote address is
    reported as IPv6, and the Linux agent reports the IPv4 peers of dual-stack sockets
    that way (::ffff:10.1.2.3): a policy that excludes IPv4 destinations only keeps all of
    those connections in the telemetry. *)
Theorem mapped_ipv4_not_excluded stored c cs w zone
    (Happs : Exclusions_Applications stored = []) (Hdest : Forall ipv4_exclusion (Exclusions_Destinations stored))
    (Hc : c ∈ cs) (Hr : ParseAddr (Conn_RemoteAddress c) = Some (Addr6 w zone)) :
  c ∈ Filter cs [stored].
Proof.
  rewrite elem_of_Filter. split; [done|]. unfold excluded. simpl. rewrite Happs. simpl. rewrite orb_false_r.
  apply not_true_iff_false. intros (e & He%list_elem_of_In & Hm)%existsb_exists. rewrite Forall_forall in Hdest.
  unfold destinationMatches in Hm. destruct (Hdest e He) as [[Hk (v & Hv)]|[Hk (p & Hp & H4)]]; rewrite Hk in Hm; simpl in Hm.
  - apply bool_decide_eq_true in Hm. congruence.
  - rewrite Hp, Hr in Hm. destruct p as [[|vp|] bits]; try done. unfold Contains in Hm. simpl in Hm. by destruct (_ || _) in Hm.
Qed.
End filter.

(** ** Examples *)

(** ASCII case folding, enough for the examples. *)
Definition ascii_folding : CaseFolding := {| EqualFold a b := bool_decide (ToLower a = ToLower b) |}.
Definition sample_connection (remote : string) : NetworkConnection :=
  {| Conn_Protocol := "tcp"; Conn_LocalAddress := "192.0.2.1"; Conn_LocalPort := 40000; Conn_RemoteAddress := remote;
     Conn_RemotePort := 443; Conn_ProcessID := 7; Conn_ProcessName := "curl"; Conn_Executable := "/usr/bin/curl";
     Conn_RemoteHostname := ""; Conn_HostnameSource := ""; Conn_TLSServerName := ""; Conn_Direction := "outbound_candidate" |}.

Lemma ipv4_exclusions_hide_witness :
  sample_connection "10.1.2.3" ∉ @Filter ascii_folding [sample_connection "10.1.2.3"]
    [mkExclusions [] [mkExclusion NetworkExcludeCIDR "10.0.0.0/8"]].
Proof.
  apply (@ipv4_exclusions_hide ascii_folding (mkExclusions [] [mkExclusion NetworkExcludeCIDR " 10.9.0.0/8"]) _
    (mkExclusion NetworkExcludeCIDR " 10.9.0.0/8") _ _ (Addr4 167838211)); [vm_compute; reflexivity|by left|reflexivity|reflexivity|].
  right. split; [reflexivity|]. eexists. split; [reflexivity|reflexivity].
Defined.

Lemma mapped_ipv4_not_excluded_witness :
  sample_connection "::ffff:10.1.2.3" ∈ @Filter ascii_folding [sample_connection "::ffff:10.1.2.3"]
    [mkExclusions [] [mkExclusion NetworkExcludeCIDR "10.0.0.0/8"; mkExclusion NetworkExcludeIP "10.1.2.3"]].
Proof.
  apply (@mapped_ipv4_not_excluded ascii_folding _ _ _ 281470849581571 ""); [reflexivity| |by left|reflexivity].
  constructor; [right|constructor; [left|constructor]].
  - split; [reflexivity|]. eexists. split; reflexivity.
  - split; [reflexivity|]. eexists. reflexivity.
Defined.
