(* ===== verification/AgentModule.v ===== *)
(** Manifests of endpoint-agent modules (internal/agentmodule/manifest.go and
    limits.go): validation, and whether an agent may run a module. *)
From Stdlib Require Import ZArith Lia String Ascii.
From stdpp Require Import base tactics list strings gmap sets.
From S2P Require Import Prelude GoStrings GoTime GoRegex Netip.
Open Scope string_scope.
Open Scope Z_scope.

(** * Data *)

Definition ManifestSchemaVersion : Z := 1.
Definition ModuleAPIVersion : Z := 1.
Definition maximumModuleName : Z := 100.
Definition MaximumPackageBytes : Z := 64 * 2 ^ 20.
Definition MinimumMemoryLimitMB : Z := 16.
Definition MaximumMemoryLimitMB : Z := 512.
Definition MinimumTimeoutSeconds : Z := 1.
Definition MaximumTimeoutSeconds : Z := 300.

Definition KindDeclarative : string := "declarative".
Definition KindNative : string := "native".
Definition supportedOS : list string := ["linux"; "windows"].
Definition supportedArch : list string := ["amd64"; "arm64"].
Definition supportedCaps : list string :=
  ["inventory"; "configuration_check"; "file_metadata"; "network_metadata"; "process_metadata"].
Definition supportedPermissions : list string :=
  ["read_os_info"; "read_packages"; "read_processes"; "read_connections"; "read_file_metadata"].

Record Manifest := {
  Manifest_SchemaVersion : Z; Manifest_ModuleAPIVersion : Z; Manifest_ID : string; Manifest_Name : string;
  Manifest_Version : string; Manifest_MinimumAgentVersion : string; Manifest_OperatingSystems : list string;
  Manifest_Architectures : list string; Manifest_Capabilities : list string; Manifest_Kind : string;
  Manifest_Permissions : list string; Manifest_Entrypoint : string; Manifest_PackageSHA256 : string;
  Manifest_PackageSize : Z; Manifest_PublisherKeyID : string; Manifest_MemoryLimitMB : Z; Manifest_TimeoutSeconds : Z }.

(** * Patterns *)

Definition is_alnum : ascii -> bool := por is_lower is_digit.
Definition is_ident : ascii -> bool := por (por is_digit (por is_upper is_lower)) (is_byte "-").
(** A label that starts and ends with a letter or digit. *)
Definition module_label : re :=
  RSeq (RClass is_alnum) (ROpt (RSeq (RStar (RClass (por is_alnum (is_byte "-")))) (RClass is_alnum))).
Definition moduleIDPattern : re := RSeq module_label (RPlus (RSeq (RByte ".") module_label)).
(** Zero, or a number without leading zeros. *)
Definition version_number : re := RAlt (RByte "0") (RSeq (RClass (between "1" "9")) (RStar (RClass is_digit))).
(** Identifiers of letters, digits and dashes, separated by dots. *)
Definition dotted_idents : re := RSeq (RPlus (RClass is_ident)) (RStar (RSeq (RByte ".") (RPlus (RClass is_ident)))).
Definition versionPattern : re :=
  RSeq version_number (RSeq (RByte ".") (RSeq version_number (RSeq (RByte ".") (RSeq version_number
    (RSeq (ROpt (RSeq (RByte "-") dotted_idents)) (ROpt (RSeq (RByte "+") dotted_idents))))))).
Definition sha256Pattern (s : string) : bool :=
  (strlen s =? 64) && str_forall (por is_digit (between "a" "f")) s.

(** * Validation *)

Definition validEntrypoint (value : string) : bool :=
  negb (bool_decide (value = "")) && bool_decide (value = TrimSpace value) &&
  str_forall (fun c => negb (Ascii.eqb c "/") && negb (Ascii.eqb c "\")) value &&
  negb (bool_decide (value = ".")) && negb (bool_decide (value = "..")).

Definition check_declaration (name : string) (allowed : list string) (seen : gset string) (value : string) : result (gset string) :=
  reject negb (bool_decide (value ∈ allowed)) as "module declares an unsupported " +:+ name ;;
  reject bool_decide (value ∈ seen) as "module declares a duplicate " +:+ name ;;
  Ok ({[ value ]} ∪ seen).
Definition validateDeclarations (name : string) (values allowed : list string) : result unit :=
  reject bool_decide (values = []) as "module must declare at least one " +:+ name ;;
  try for_each (check_declaration name allowed) ∅ values ;;
  Ok tt.

Definition Manifest_Validate (m : Manifest) : result unit :=
  reject negb (Manifest_SchemaVersion m =? ManifestSchemaVersion) as "module manifest schema version must be 1" ;;
  reject negb (Manifest_ModuleAPIVersion m =? ModuleAPIVersion) as "module API version must be 1" ;;
  reject negb (re_match moduleIDPattern (Manifest_ID m)) as "module ID must be a lowercase dotted identifier" ;;
  reject blank (Manifest_Name m) || (maximumModuleName <? strlen (TrimSpace (Manifest_Name m)))
    as "module name must be between 1 and 100 characters" ;;
  reject negb (re_match versionPattern (Manifest_Version m)) || negb (re_match versionPattern (Manifest_MinimumAgentVersion m))
    as "module and minimum agent versions must use semantic versioning" ;;
  reject negb (bool_decide (Manifest_Kind m = KindDeclarative)) && negb (bool_decide (Manifest_Kind m = KindNative))
    as "module kind must be declarative or native" ;;
  reject bool_decide (Manifest_Kind m = KindDeclarative) && negb (bool_decide (Manifest_Entrypoint m = ""))
    as "declarative modules cannot declare a native entrypoint" ;;
  reject bool_decide (Manifest_Kind m = KindNative) && negb (validEntrypoint (Manifest_Entrypoint m))
    as "native module entrypoint must be a package-relative file name" ;;
  reject negb (sha256Pattern (Manifest_PackageSHA256 m)) || (Manifest_PackageSize m <=? 0) ||
         (MaximumPackageBytes <? Manifest_PackageSize m) as "module package digest or size is invalid" ;;
  reject blank (Manifest_PublisherKeyID m) as "module publisher key ID is required" ;;
  reject (Manifest_MemoryLimitMB m <? MinimumMemoryLimitMB) || (MaximumMemoryLimitMB <? Manifest_MemoryLimitMB m)
    as "module memory limit is outside the supported range" ;;
  reject (Manifest_TimeoutSeconds m <? MinimumTimeoutSeconds) || (MaximumTimeoutSeconds <? Manifest_TimeoutSeconds m)
    as "module timeout is outside the supported range" ;;
  try validateDeclarations "operating system" (Manifest_OperatingSystems m) supportedOS ;;
  try validateDeclarations "architecture" (Manifest_Architectures m) supportedArch ;;
  try validateDeclarations "capability" (Manifest_Capabilities m) supportedCaps ;;
  validateDeclarations "permission" (Manifest_Permissions m) supportedPermissions.

(** * Versions *)

(** The value of [strconv.Atoi(s)], its error dropped: zero for text that is no
    number, the nearest [int] for a number out of range. *)
Definition Atoi_value (s : string) : Z :=
  let '(negative, digits) :=
    match s with
    | String "+"%char s' => (false, s')
    | String "-"%char s' => (true, s')
    | _ => (false, s)
    end in
  match digits with
  | EmptyString => 0
  | _ => match read_digits 0 digits with
         | None => 0
         | Some n => Z.max int64_min (Z.min int64_max (if negative then - n else n))
         end
  end.

(** [strings.SplitN(s, "-", 2)]: the part before the first dash, and the rest when there is one. *)
Fixpoint cut_dash (s : string) : string * option string :=
  match s with
  | EmptyString => (EmptyString, None)
  | String a s' => if Ascii.eqb a "-" then (EmptyString, Some s') else let '(u, v) := cut_dash s' in (String a u, v)
  end.

(** The index loop over three parts: [None] when a part is missing, where the code panics. *)
Fixpoint compare_parts (n : nat) (left right : list string) : option (option Z) :=
  match n with
  | O => Some None
  | S n' =>
      match left, right with
      | l :: left', r :: right' =>
          if negb (Atoi_value l =? Atoi_value r) then Some (Some (Atoi_value l - Atoi_value r)) else compare_parts n' left' right'
      | _, _ => None
      end
  end.

Definition compareVersions (left right : string) : option Z :=
  let '(leftCore, leftPre) := cut_dash left in
  let '(rightCore, rightPre) := cut_dash right in
  core ← compare_parts 3 (split_byte "." leftCore) (split_byte "." rightCore);
  Some match core with
  | Some c => c
  | None =>
      match leftPre, rightPre with
      | None, None | Some _, Some _ => 0
      | None, Some _ => 1
      | Some _, None => -1
      end
  end.

Definition Compatible (m : Manifest) (agentVersion operatingSystem architecture : string) : option bool :=
  if negb (re_match versionPattern agentVersion) then Some false
  else
    c ← compareVersions agentVersion (Manifest_MinimumAgentVersion m);
    Some ((0 <=? c) && bool_decide (operatingSystem ∈ Manifest_OperatingSystems m) && bool_decide (architecture ∈ Manifest_Architectures m)).

(** * No index out of range *)

Lemma star_forall (p : ascii -> bool) s : re_lang (RStar (RClass p)) s -> str_forall p s = true.
Proof.
  intros H. remember (RStar (RClass p)) as r eqn:Er. induction H; try discriminate; [done|].
  injection Er as ->. match goal with Hc : re_lang (RClass p) _ |- _ => inversion Hc; subst end.
  change (p a && str_forall p t = true). by rewrite IHre_lang2, andb_true_r.
Qed.

Lemma version_number_digits s : re_lang version_number s -> str_forall is_digit s = true.
Proof.
  unfold version_number. intros H. inv_re.
  - unfold RByte in *. match goal with Hc : re_lang (RClass _) _ |- _ => inversion Hc; subst end.
    match goal with Hb : is_byte _ _ = true |- _ => unfold is_byte in Hb; apply Ascii.eqb_eq in Hb; by subst end.
  - match goal with Hc : re_lang (RClass (between _ _)) _, Hs : re_lang (RStar _) _ |- _ =>
      inversion Hc; subst; apply star_forall in Hs; rename Hs into Hd end.
    simpl. apply andb_true_iff. split; [|done]. unfold between, is_digit in *. reflect_bools. apply andb_true_iff.
    vm_compute (byte_val "1") in *. vm_compute (byte_val "9") in *. lia.
Qed.

Lemma versionPattern_shape v : re_match versionPattern v = true ->
  exists n1 n2 t, v = n1 +:+ "." +:+ (n2 +:+ "." +:+ t) /\ str_forall is_digit n1 = true /\ str_forall is_digit n2 = true.
Proof.
  rewrite re_match_correct. unfold versionPattern. intros H.
  inversion H as [| |? ? n1 v1 H1 Hv1| | | |]; subst. inversion Hv1 as [| |? ? d1 v2 Hd1 Hv2| | | |]; subst.
  inversion Hv2 as [| |? ? n2 v3 H2 Hv3| | | |]; subst. inversion Hv3 as [| |? ? d2 t Hd2 Ht| | | |]; subst.
  unfold RByte in *. inversion Hd1; subst. inversion Hd2; subst. unfold is_byte in *.
  repeat match goal with Hb : Ascii.eqb _ _ = true |- _ => apply Ascii.eqb_eq in Hb; subst end.
  exists n1, n2, t. split_and!; [done|by apply version_number_digits..].
Qed.

Lemma digits_split c s : is_digit c = false -> str_forall is_digit s = true -> split_byte c s = [s].
Proof.
  intros Hc. induction s as [|a s IH]; [done|]. simpl. intros [Ha Hs]%andb_true_iff. rewrite IH by done.
  destruct (Ascii.eqb_spec a c); [congruence|done].
Qed.

Lemma cut_dash_digits s t : str_forall is_digit s = true -> (cut_dash (s +:+ t)).1 = s +:+ (cut_dash t).1.
Proof.
  induction s as [|a s IH]; [done|]. simpl. intros [Ha Hs]%andb_true_iff.
  change (String a s +:+ t) with (String a (s +:+ t)). simpl.
  destruct (Ascii.eqb_spec a "-"); [by subst|]. destruct (cut_dash (s +:+ t)) eqn:E. simpl in *. by rewrite IH.
Qed.

Lemma cut_dash_dot t : (cut_dash ("." +:+ t)).1 = "." +:+ (cut_dash t).1.
Proof. change ("." +:+ t) with (String "." t). simpl. by destruct (cut_dash t). Qed.

(** A version has three parts before any dash. *)
Lemma version_parts v : re_match versionPattern v = true ->
  exists n1 n2 n3 rest, split_byte "." (cut_dash v).1 = n1 :: n2 :: n3 :: rest.
Proof.
  intros (n1 & n2 & t & -> & H1 & H2)%versionPattern_shape.
  rewrite cut_dash_digits, cut_dash_dot, cut_dash_digits, cut_dash_dot by done.
  destruct (split_byte "." (cut_dash t).1) as [|n3 rest] eqn:E; [by apply split_byte_nonempty in E|].
  exists n1, n2, n3, rest. apply split_byte_sep; [by apply digits_split|].
  apply split_byte_sep; [by apply digits_split|done].
Qed.

Lemma compareVersions_total v w : re_match versionPattern v = true -> re_match versionPattern w = true ->
  is_Some (compareVersions v w).
Proof.
  intros (a1 & a2 & a3 & r & Ha)%version_parts (b1 & b2 & b3 & r' & Hb)%version_parts. unfold compareVersions.
  destruct (cut_dash v) as [vc vp], (cut_dash w) as [wc wp]. simpl in Ha, Hb. rewrite Ha, Hb. simpl.
  repeat case_if; by eexists.
Qed.

Lemma Manifest_Validate_version m : Manifest_Validate m = Ok tt -> re_match versionPattern (Manifest_MinimumAgentVersion m) = true.
Proof. unfold Manifest_Validate. intros H. do 4 apply reject_ok in H as [_ H]. apply reject_ok in H as [H _]. by reflect_bools. Qed.

(** The check whether an agent may run a module never indexes past the parts of a
    version: for every manifest that was accepted and whatever version text an agent
    reports, it has an answer. *)
Theorem Compatible_total m agentVersion os arch (Hm : Manifest_Validate m = Ok tt) :
  exists b, Compatible m agentVersion os arch = Some b.
Proof.
  unfold Compatible. destruct (re_match versionPattern agentVersion) eqn:E; simpl; [|by eexists].
  destruct (compareVersions_total _ _ E (Manifest_Validate_version m Hm)) as (c & ->). simpl. by eexists.
Qed.

(** The patch number of a version with build metadata reads as zero: [Atoi]
    fails on it and the error is dropped. *)
Lemma build_metadata_reads_zero n s : n <> "" -> str_forall is_digit n = true -> Atoi_value (n +:+ "+" +:+ s) = 0.
Proof.
  intros Hne Hn. assert (Hr : forall acc, read_digits acc (n +:+ "+" +:+ s) = None).
  { clear Hne. induction n as [|a n IH]; intros acc; [done|]. simpl in Hn. apply andb_true_iff in Hn as [Ha Hn].
    change (String a n +:+ "+" +:+ s) with (String a (n +:+ "+" +:+ s)). cbn [read_digits]. rewrite Ha. by apply IH. }
  destruct n as [|a n]; [done|]. specialize (Hr 0).
  change (String a n +:+ "+" +:+ s) with (String a (n +:+ "+" +:+ s)) in *. unfold Atoi_value.
  simpl in Hn. apply andb_true_iff in Hn as [Ha _].
  assert (Hp : a <> "+"%char /\ a <> "-"%char) by (by split; intros ->).
  destruct a as [[] [] [] [] [] [] [] []]; by rewrite ?Hr || (destruct Hp; done).
Qed.

(** An agent whose version carries build metadata is refused the modules that
    require its own release: the patch number before the "+" is not parsed and counts
    as zero, although build metadata does not affect the precedence of a version. *)
Theorem build_metadata_refused :
  compareVersions "1.4.2+linux.5" "1.4.2" = Some (-2) /\ compareVersions "1.4.2" "1.4.2+linux.5" = Some 2 /\ re_match versionPattern "1.4.2+linux.5" = true.
Proof. vm_compute. auto. Qed.
