(* ===== verification/RelayWindow.v ===== *)
(** Upload windows of isolated endpoints and their delayed-heartbeat policies:
    when a relay may connect (internal/relaywindow), which policy an endpoint
    gets (internal/relayheartbeat), and when a late heartbeat raises no alert. *)
From Stdlib Require Import ZArith Lia String.
From stdpp Require Import base tactics list strings gmap sets.
From S2P Require Import Prelude GoStrings GoTime GoLocation.
Open Scope string_scope.
Open Scope Z_scope.

(** * Data *)

Definition MaintenanceTargetEndpoint : string := "endpoint".
Definition MaintenanceTargetGroup : string := "group".

Record RelayUploadWindow := mkRelayUploadWindow {
  rw_ID : string; rw_Name : string; rw_TargetType : string; rw_TargetID : string; rw_Timezone : string;
  rw_Days : list Z; rw_StartMinute : Z; rw_EndMinute : Z; rw_Enabled : bool; rw_Reason : string;
  rw_CreatedBy : string; rw_CreatedAt : Time; rw_UpdatedBy : string; rw_UpdatedAt : Time }.

Record DelayedHeartbeatPolicy := mkDelayedHeartbeatPolicy {
  dp_TargetType : string; dp_TargetID : string; dp_AllowDelayedHeartbeats : bool; dp_PostWindowGraceMinutes : Z;
  dp_Reason : string; dp_UpdatedBy : string; dp_UpdatedAt : Time }.

Record ResolvedDelayedHeartbeatPolicy := mkResolvedPolicy {
  rp_EndpointID : string; rp_AllowDelayedHeartbeats : bool; rp_PostWindowGraceMinutes : Z;
  rp_Source : string; rp_SourceIDs : list string; rp_Conflict : bool }.

(** * internal/relayheartbeat/policy.go *)

Definition maximumPolicyReasonLength : Z := 500.
Definition maximumPolicyTargetLength : Z := 200.
Definition maximumPostWindowGrace : Z := 24 * 60.

Definition ValidatePolicy (policy : DelayedHeartbeatPolicy) : result unit :=
  reject (negb (bool_decide (dp_TargetType policy = MaintenanceTargetEndpoint)) &&
          negb (bool_decide (dp_TargetType policy = MaintenanceTargetGroup))) ||
         blank (dp_TargetID policy) || (maximumPolicyTargetLength <? strlen (dp_TargetID policy)) ||
         blank (dp_Reason policy) || (maximumPolicyReasonLength <? strlen (dp_Reason policy)) ||
         (dp_PostWindowGraceMinutes policy <? 0) || (maximumPostWindowGrace <? dp_PostWindowGraceMinutes policy)
    as "delayed-heartbeat policy is invalid" ;;
  reject negb (dp_AllowDelayedHeartbeats policy) && negb (dp_PostWindowGraceMinutes policy =? 0)
    as "disabled delayed-heartbeat policy cannot define a grace period" ;;
  Ok tt.

(** The two lists the first loop of [Resolve] fills. *)
Definition split_policies (endpointID : string) (policies : list DelayedHeartbeatPolicy) :
    list DelayedHeartbeatPolicy * list DelayedHeartbeatPolicy :=
  fold_left (fun '(endpointPolicies, groups) policy =>
    if bool_decide (dp_TargetType policy = MaintenanceTargetEndpoint) && bool_decide (dp_TargetID policy = endpointID)
    then ((endpointPolicies ++ [policy])%list, groups)
    else if bool_decide (dp_TargetType policy = MaintenanceTargetGroup) then (endpointPolicies, (groups ++ [policy])%list)
    else (endpointPolicies, groups)) policies ([], []).

(** The loop over the groups: the policy built so far, [seenAllow] and [seenDeny]. *)
Definition merge_group (acc : ResolvedDelayedHeartbeatPolicy * bool * bool) (group : DelayedHeartbeatPolicy) :
    ResolvedDelayedHeartbeatPolicy * bool * bool :=
  let '(r, seenAllow, seenDeny) := acc in
  let ids := (rp_SourceIDs r ++ [dp_TargetID group])%list in
  if dp_AllowDelayedHeartbeats group then
    let grace := if dp_PostWindowGraceMinutes group <? rp_PostWindowGraceMinutes r
                 then dp_PostWindowGraceMinutes group else rp_PostWindowGraceMinutes r in
    (mkResolvedPolicy (rp_EndpointID r) (rp_AllowDelayedHeartbeats r) grace (rp_Source r) ids (rp_Conflict r), true, seenDeny)
  else
    (mkResolvedPolicy (rp_EndpointID r) false 0 (rp_Source r) ids (rp_Conflict r), seenAllow, true).

Definition Resolve (endpointID : string) (policies : list DelayedHeartbeatPolicy) : ResolvedDelayedHeartbeatPolicy :=
  let '(endpointPolicies, groups) := split_policies endpointID policies in
  match endpointPolicies with
  | _ :: _ :: _ => mkResolvedPolicy endpointID false 0 "endpoint_conflict_deny" [endpointID] true
  | [policy] =>
      mkResolvedPolicy endpointID (dp_AllowDelayedHeartbeats policy)
        (if dp_AllowDelayedHeartbeats policy then dp_PostWindowGraceMinutes policy else 0)
        "endpoint_override" [endpointID] false
  | [] =>
      match groups with
      | [] => mkResolvedPolicy endpointID false 0 "default_deny" [] false
      | _ =>
          let '(r, seenAllow, seenDeny) :=
            fold_left merge_group groups
              (mkResolvedPolicy endpointID true maximumPostWindowGrace "group_inheritance" [] false, false, false) in
          let r := mkResolvedPolicy (rp_EndpointID r) (rp_AllowDelayedHeartbeats r) (rp_PostWindowGraceMinutes r)
                     (rp_Source r) (sort_slice str_ltb (rp_SourceIDs r)) (rp_Conflict r) in
          if seenAllow && seenDeny then
            mkResolvedPolicy (rp_EndpointID r) (rp_AllowDelayedHeartbeats r) (rp_PostWindowGraceMinutes r)
              "group_conflict_deny" (rp_SourceIDs r) true
          else r
      end
  end.

(** * internal/relaywindow/window.go *)

Definition minutesPerDay : Z := 24 * 60.
Definition maximumNameBytes : Z := 200.
Definition maximumIDBytes : Z := 200.
Definition maximumReasonBytes : Z := 500.
Definition Sunday : Z := 0.
Definition Saturday : Z := 6.

Definition containsDay (days : list Z) (wanted : Z) : bool := existsb (fun day => day =? wanted) days.
Definition previousDay (day : Z) : Z := if day =? Sunday then Saturday else day - 1.

Definition check_day (seen : gset Z) (day : Z) : result (gset Z) :=
  if (day <? Sunday) || (Saturday <? day) || bool_decide (day ∈ seen)
  then Err "relay upload window weekdays are invalid" else Ok ({[ day ]} ∪ seen).

Section windows.
Context {TZ : TimeZones}.

Definition Validate (window : RelayUploadWindow) : result unit :=
  reject blank (rw_Name window) || (maximumNameBytes <? strlen (rw_Name window)) ||
         blank (rw_TargetID window) || (maximumIDBytes <? strlen (rw_TargetID window)) ||
         (maximumReasonBytes <? strlen (rw_Reason window)) ||
         (rw_StartMinute window <? 0) || (minutesPerDay <=? rw_StartMinute window) ||
         (rw_EndMinute window <? 0) || (minutesPerDay <=? rw_EndMinute window) ||
         (rw_StartMinute window =? rw_EndMinute window)
    as "relay upload window settings are invalid" ;;
  reject negb (bool_decide (rw_TargetType window = MaintenanceTargetEndpoint)) &&
         negb (bool_decide (rw_TargetType window = MaintenanceTargetGroup))
    as "relay upload window target is invalid" ;;
  reject match LoadLocation (rw_Timezone window) with Some _ => false | None => true end
    as "relay upload window timezone must be a valid IANA timezone" ;;
  reject (match rw_Days window with [] => true | _ => false end) || (7 <? Z.of_nat (length (rw_Days window)))
    as "relay upload window requires one or more unique weekdays" ;;
  try for_each check_day ∅ (rw_Days window) ;;
  Ok tt.

(** [location, _ := time.LoadLocation(...)], reached only for a validated window. *)
Definition window_location (window : RelayUploadWindow) : Location :=
  default utc_location (LoadLocation (rw_Timezone window)).

Definition Open_at (window : RelayUploadWindow) (loc : Location) (now : Time) : bool :=
  let weekday := Weekday loc now in
  let minute := Hour_of loc now * 60 + Minute_of loc now in
  if rw_StartMinute window <? rw_EndMinute window then
    containsDay (rw_Days window) weekday && (rw_StartMinute window <=? minute) && (minute <? rw_EndMinute window)
  else if rw_StartMinute window <=? minute then containsDay (rw_Days window) weekday
  else (minute <? rw_EndMinute window) && containsDay (rw_Days window) (previousDay weekday).

Definition Open (window : RelayUploadWindow) (now : Time) : result bool :=
  try Validate window ;;
  if negb (rw_Enabled window) then Ok false else Ok (Open_at window (window_location window) now).

(** * internal/relaywindow/gate.go *)

Definition maximumClockDrift : Duration := 5 * Minute.

Record GateDecision := mkGateDecision {
  gd_Allowed : bool; gd_Reason : string; gd_WindowIDs : list string; gd_EvaluatedAt : Time; gd_ClockDriftSeconds : Z }.

(** [-value] wraps at the least [int64]. *)
Definition absoluteDuration (value : Duration) : Duration := if value <? 0 then wrap64 (- value) else value.

(** [int64(d.Seconds())]; the rounding is symmetric in the sign. *)
Definition duration_seconds (d : Duration) : Z := if d <? 0 then - truncated_seconds (- d) else truncated_seconds d.

(** The loop: the identifiers seen, whether a window was enabled, the open windows. *)
Definition gate_window (now : Time) (acc : gset string * bool * list string) (window : RelayUploadWindow) :
    result (gset string * bool * list string) :=
  let '(seen, enabled, ids) := acc in
  reject bool_decide (rw_ID window = "") || bool_decide (rw_ID window ∈ seen) as "invalid_window_policy" ;;
  let seen := {[ rw_ID window ]} ∪ seen in
  match Open window now with
  | Err _ => Err "invalid_window_policy"
  | Ok is_open =>
      if negb (rw_Enabled window) then Ok (seen, enabled, ids)
      else Ok (seen, true, if is_open then (ids ++ [rw_ID window])%list else ids)
  end.

Definition Evaluate (windows : list RelayUploadWindow) (agentNow trustedServerNow : Time) : GateDecision :=
  if IsZero agentNow || IsZero trustedServerNow then mkGateDecision false "invalid_evaluation_time" [] ZeroTime 0
  else
  let drift := absoluteDuration (Sub agentNow trustedServerNow) in
  let seconds := duration_seconds drift in
  if maximumClockDrift <? drift then mkGateDecision false "clock_drift_detected" [] trustedServerNow seconds
  else
  match for_each (gate_window trustedServerNow) (∅, false, []) windows with
  | Err reason => mkGateDecision false reason [] trustedServerNow seconds
  | Ok (_, enabled, ids) =>
      match ids with
      | _ :: _ => mkGateDecision true "approved_window_open" ids trustedServerNow seconds
      | [] => mkGateDecision false (if enabled then "outside_approved_window" else "no_enabled_window") [] trustedServerNow seconds
      end
  end.

Definition ErrConnectionWindowClosed : error := "relay server connection window is closed".

(** [Connect]: the decision, the returned error, and whether the connector was
    called. The connector is [None] when it is nil, or the error its call
    returns; [ctx_err] is [ctx.Err()]. *)
Definition Connect (ctx_err : option error) (windows : list RelayUploadWindow) (agentNow trustedServerNow : Time)
    (connector : option (option error)) : GateDecision * option error * bool :=
  match connector with
  | None => (mkGateDecision false "" [] ZeroTime 0, Some "relay server connector is required", false)
  | Some call =>
      let decision := Evaluate windows agentNow trustedServerNow in
      if negb (gd_Allowed decision) then (decision, Some ErrConnectionWindowClosed, false)
      else match ctx_err with
      | Some e => (decision, Some e, false)
      | None => (decision, call, true)
      end
  end.

(** * internal/relaywindow/heartbeat.go *)

Record HeartbeatSuppression := mkHeartbeatSuppression {
  hs_Suppressed : bool; hs_Reason : string; hs_WindowIDs : list string; hs_LastCloseAt : Time }.

(** The close of the window that starts on the day [offset] days before [now]. *)
Definition close_after (window : RelayUploadWindow) (loc : Location) (now : Time) (offset : Z) : Z * Time :=
  let startDate := AddDays loc now (- offset) in
  let endDate := if rw_EndMinute window <? rw_StartMinute window then AddDays loc startDate 1 else startDate in
  let '(y, m, d) := Date_of loc endDate in
  (Weekday loc startDate, Date y m d (rw_EndMinute window / 60) (rw_EndMinute window mod 60) 0 0 loc).

Definition mostRecentClose (window : RelayUploadWindow) (now : Time) : Time :=
  let loc := window_location window in
  fold_left (fun latest offset =>
    let '(weekday, closedAt) := close_after window loc now offset in
    if negb (containsDay (rw_Days window) weekday) then latest
    else if After closedAt now || negb (After closedAt latest) then latest
    else closedAt) [0; 1; 2; 3; 4; 5; 6; 7] ZeroTime.

Definition suppress_window (now : Time) (acc : HeartbeatSuppression * Time) (window : RelayUploadWindow) :
    result (HeartbeatSuppression * Time) :=
  let '(r, latestClose) := acc in
  try Validate window ;;
  if negb (rw_Enabled window) then Ok (r, latestClose)
  else
  let r :=
    match Open window now with
    | Ok true => mkHeartbeatSuppression true "upload_window_open" (hs_WindowIDs r ++ [rw_ID window])%list (hs_LastCloseAt r)
    | _ => r
    end in
  let closedAt := mostRecentClose window now in
  Ok (r, if After closedAt latestClose then closedAt else latestClose).

Definition HeartbeatAlertSuppression (windows : list RelayUploadWindow) (policy : ResolvedDelayedHeartbeatPolicy)
    (now : Time) : result HeartbeatSuppression :=
  if negb (rp_AllowDelayedHeartbeats policy)
  then Ok (mkHeartbeatSuppression false "delayed_heartbeats_not_allowed" [] ZeroTime)
  else
  '(r, latestClose) ← for_each (suppress_window now)
    (mkHeartbeatSuppression false "outside_post_window_grace" [] ZeroTime, ZeroTime) windows;
  if hs_Suppressed r then Ok r
  else
  let grace := wrap64 (rp_PostWindowGraceMinutes policy * Minute) in
  if negb (IsZero latestClose) && (0 <? grace) && negb (After now (Add latestClose grace))
  then Ok (mkHeartbeatSuppression true "post_window_grace" (hs_WindowIDs r) latestClose)
  else Ok (mkHeartbeatSuppression false (hs_Reason r) (hs_WindowIDs r) latestClose).
End windows.
