(* ===== verification/RelayWindowSafety.v ===== *)
(** Upload windows: the gate against the weekly schedule, the exact grace after
    a window, and policy resolution. *)
From Stdlib Require Import ZArith Lia String.
From stdpp Require Import base tactics list strings gmap sets sorting.
From S2P Require Import Prelude GoStrings GoTime GoLocation Sql RelayWindow.
Open Scope string_scope.
Open Scope Z_scope.

(** * Policies *)

Definition endpoint_policy (endpointID : string) (p : DelayedHeartbeatPolicy) : bool :=
  bool_decide (dp_TargetType p = MaintenanceTargetEndpoint) && bool_decide (dp_TargetID p = endpointID).
Definition group_policy (endpointID : string) (p : DelayedHeartbeatPolicy) : bool :=
  negb (endpoint_policy endpointID p) && bool_decide (dp_TargetType p = MaintenanceTargetGroup).

(** The grace a group contributes: none when it denies. *)
Definition group_grace (p : DelayedHeartbeatPolicy) : Z :=
  if dp_AllowDelayedHeartbeats p then dp_PostWindowGraceMinutes p else 0.
Definition least_grace (groups : list DelayedHeartbeatPolicy) : Z := foldr (fun p g => Z.min (group_grace p) g) maximumPostWindowGrace groups.

Lemma split_policies_filter e ps :
  split_policies e ps = (List.filter (endpoint_policy e) ps, List.filter (group_policy e) ps).
Proof.
  unfold split_policies.
  enough (G : forall a b, fold_left (fun '(endpointPolicies, groups) policy =>
    if bool_decide (dp_TargetType policy = MaintenanceTargetEndpoint) && bool_decide (dp_TargetID policy = e)
    then ((endpointPolicies ++ [policy])%list, groups)
    else if bool_decide (dp_TargetType policy = MaintenanceTargetGroup) then (endpointPolicies, (groups ++ [policy])%list)
    else (endpointPolicies, groups)) ps (a, b) =
    ((a ++ List.filter (endpoint_policy e) ps)%list, (b ++ List.filter (group_policy e) ps)%list)) by apply (G [] []).
  induction ps as [|p ps IH]; intros a b; simpl; [by rewrite !app_nil_r|].
  unfold group_policy at 1. fold (endpoint_policy e p). destruct (endpoint_policy e p); simpl.
  - by rewrite IH, <- app_assoc.
  - case_if; rewrite IH; by rewrite <- ?app_assoc.
Qed.

Lemma merge_groups gs e a g src ids c sa sd : Forall (fun p => 0 <= dp_PostWindowGraceMinutes p) gs -> 0 <= g ->
  fold_left merge_group gs (mkResolvedPolicy e a g src ids c, sa, sd) =
  (mkResolvedPolicy e (a && forallb dp_AllowDelayedHeartbeats gs) (foldr (fun p x => Z.min (group_grace p) x) g gs) src
     (ids ++ (dp_TargetID <$> gs))%list c,
   sa || existsb dp_AllowDelayedHeartbeats gs, sd || existsb (fun p => negb (dp_AllowDelayedHeartbeats p)) gs).
Proof.
  intros Hgs. revert a g ids sa sd. induction Hgs as [|p gs Hp _ IH]; intros a g ids sa sd Hg; simpl.
  { by rewrite andb_true_r, !orb_false_r, app_nil_r. }
  assert (Hfold : forall y x l, foldr (fun p x => Z.min (group_grace p) x) (Z.min y x) l =
    Z.min y (foldr (fun p x => Z.min (group_grace p) x) x l)).
  { intros y x l. induction l as [|q l IHl]; simpl; [done|]. rewrite IHl. lia. }
  destruct (dp_AllowDelayedHeartbeats p) eqn:E; simpl; rewrite IH by (try case_if; lia).
  - rewrite <- app_assoc, orb_true_r. unfold group_grace at 2. rewrite E.
    replace (if dp_PostWindowGraceMinutes p <? g then dp_PostWindowGraceMinutes p else g)
      with (Z.min (dp_PostWindowGraceMinutes p) g) by (destruct (Z.ltb_spec (dp_PostWindowGraceMinutes p) g); lia).
    by rewrite Hfold.
  - rewrite <- app_assoc, !orb_true_r, andb_false_r. simpl. unfold group_grace at 2. rewrite E.
    replace 0 with (Z.min 0 g) at 1 by lia. by rewrite Hfold.
Qed.

Lemma least_grace_perm gs gs' : gs ≡ₚ gs' -> least_grace gs = least_grace gs'.
Proof. unfold least_grace. induction 1; simpl; lia. Qed.

Lemma least_grace_spec gs : Forall (fun p => 0 <= group_grace p <= maximumPostWindowGrace) gs -> gs <> [] ->
  (forall p, p ∈ gs -> least_grace gs <= group_grace p) /\ exists p, p ∈ gs /\ least_grace gs = group_grace p.
Proof.
  intros H Hne. split.
  - clear. intros p. unfold least_grace. induction gs as [|q gs IH]; [by intros ?%not_elem_of_nil|]. simpl.
    intros [->|Hp]%elem_of_cons; [lia|]. specialize (IH Hp). lia.
  - unfold least_grace. induction H as [|q gs Hq Hgs IH]; [done|]. simpl. destruct (decide (gs = [])) as [->|Hn].
    + exists q. split; [by left|]. simpl. lia.
    + destruct (IH Hn) as (p & Hp & E). rewrite E.
      destruct (Z.min_spec (group_grace q) (group_grace p)) as [[_ ->]|[_ ->]]; [exists q|exists p]; (split; [|done]); [by left|by right].
Qed.

(** Sorting strings forgets the order they came in. *)
Lemma sort_strings_perm l l' : l ≡ₚ l' -> sort_slice str_ltb l = sort_slice str_ltb l'.
Proof.
  intros H.
  eapply (StronglySorted_unique_strong (fun x y => str_ltb y x = false)); [|apply sort_slice_ordered; apply _..|].
  - intros x y _ _ ??. by apply str_leb_antisym; apply str_ltb_nle.
  - by rewrite !sort_slice_perm.
Qed.

Lemma filter_perm {A} (p : A -> bool) l l' : l ≡ₚ l' -> List.filter p l ≡ₚ List.filter p l'.
Proof. induction 1; simpl; repeat case_if; eauto using Permutation. Qed.

Lemma forallb_perm {A} (p : A -> bool) l l' : l ≡ₚ l' -> forallb p l = forallb p l'.
Proof. induction 1; simpl; [done|by f_equal|by rewrite !andb_assoc, (andb_comm (p y))|congruence]. Qed.
Lemma existsb_perm {A} (p : A -> bool) l l' : l ≡ₚ l' -> existsb p l = existsb p l'.
Proof. induction 1; simpl; [done|by f_equal|by rewrite !orb_assoc, (orb_comm (p y))|congruence]. Qed.

Lemma valid_policy_grace p : ValidatePolicy p = Ok tt ->
  0 <= dp_PostWindowGraceMinutes p <= maximumPostWindowGrace /\ group_grace p = dp_PostWindowGraceMinutes p.
Proof.
  unfold ValidatePolicy, group_grace. intros H. inv_ok H. reflect_bools. split; [lia|].
  destruct (dp_AllowDelayedHeartbeats p); [done|]. simpl in *. reflect_bools. lia.
Qed.

(** What [Resolve] computes, by the endpoint's own policies and the groups'. *)
Lemma Resolve_eq e ps : Forall (fun p => ValidatePolicy p = Ok tt) ps ->
  Resolve e ps =
    match List.filter (endpoint_policy e) ps, List.filter (group_policy e) ps with
    | _ :: _ :: _, _ => mkResolvedPolicy e false 0 "endpoint_conflict_deny" [e] true
    | [p], _ => mkResolvedPolicy e (dp_AllowDelayedHeartbeats p) (dp_PostWindowGraceMinutes p) "endpoint_override" [e] false
    | [], [] => mkResolvedPolicy e false 0 "default_deny" [] false
    | [], groups =>
        let conflict := existsb dp_AllowDelayedHeartbeats groups && existsb (fun p => negb (dp_AllowDelayedHeartbeats p)) groups in
        mkResolvedPolicy e (forallb dp_AllowDelayedHeartbeats groups) (least_grace groups)
          (if conflict then "group_conflict_deny" else "group_inheritance")
          (sort_slice str_ltb (dp_TargetID <$> groups)) conflict
    end.
Proof.
  intros Hv. unfold Resolve. rewrite split_policies_filter.
  assert (He : Forall (fun p => ValidatePolicy p = Ok tt) (List.filter (endpoint_policy e) ps)).
  { apply Forall_forall. intros p [Hp _]%elem_of_select_where. rewrite Forall_forall in Hv. by apply Hv. }
  assert (Hg : Forall (fun p => 0 <= dp_PostWindowGraceMinutes p) (List.filter (group_policy e) ps)).
  { apply Forall_forall. intros p [Hp _]%elem_of_select_where. rewrite Forall_forall in Hv.
    by apply (valid_policy_grace p), Hv. }
  destruct (List.filter (endpoint_policy e) ps) as [|p [|? ?]]; [|..|done].
  - destruct (List.filter (group_policy e) ps) as [|g gs]; [done|].
    rewrite merge_groups by done. cbv zeta. rewrite !orb_false_l. fold (least_grace (g :: gs)).
    by destruct (existsb dp_AllowDelayedHeartbeats (g :: gs) && existsb _ (g :: gs)).
  - apply Forall_cons in He as [Hp _]. apply valid_policy_grace in Hp as [_ Hp]. unfold group_grace in Hp.
    by rewrite Hp.
Qed.

Lemma Resolve_perm_aux e ps qs : Forall (fun p => ValidatePolicy p = Ok tt) ps -> ps ≡ₚ qs -> Resolve e ps = Resolve e qs.
Proof.
  intros Hv Hp. rewrite !Resolve_eq by (done || by rewrite <- Hp).
  pose proof (filter_perm (endpoint_policy e) _ _ Hp) as He.
  pose proof (filter_perm (group_policy e) _ _ Hp) as Hg.
  destruct (List.filter (endpoint_policy e) ps) as [|p [|p' l]].
  - apply Permutation_nil in He as ->.
    destruct (List.filter (group_policy e) ps) as [|g gs].
    { by apply Permutation_nil in Hg as ->. }
    destruct (List.filter (group_policy e) qs) as [|g' gs']; [by apply Permutation_sym, Permutation_nil in Hg|].
    cbv zeta. rewrite (least_grace_perm _ _ Hg), !(existsb_perm _ _ _ Hg), (forallb_perm _ _ _ Hg).
    by rewrite (sort_strings_perm (dp_TargetID <$> g :: gs) (dp_TargetID <$> g' :: gs')) by (by rewrite Hg).
  - apply Permutation_length_1_inv in He as ->. done.
  - pose proof (Permutation_length He) as Hl. by destruct (List.filter (endpoint_policy e) qs) as [|? [|? ?]].
Qed.

(** The delayed-heartbeat policy an endpoint gets does not depend on the order
    in which the stored policies come, and it is the restrictive one: late heartbeats are
    allowed exactly when the endpoint's only own policy allows them or, without
    one, when it has a group policy and every group allows them; the grace is
    then the endpoint's, or the least of the groups'. *)
Theorem resolved_policy_restrictive e ps qs
    (Hv : Forall (fun p => ValidatePolicy p = Ok tt) ps) (Hp : ps ≡ₚ qs) :
  let own := List.filter (endpoint_policy e) ps in
  let groups := List.filter (group_policy e) ps in
  let r := Resolve e ps in
  Resolve e qs = r /\
  (rp_AllowDelayedHeartbeats r = true <->
     (exists p, own = [p] /\ dp_AllowDelayedHeartbeats p = true) \/
     (own = [] /\ groups <> [] /\ Forall (fun p => dp_AllowDelayedHeartbeats p = true) groups)) /\
  (rp_AllowDelayedHeartbeats r = true -> own = [] ->
     (forall p, p ∈ groups -> rp_PostWindowGraceMinutes r <= dp_PostWindowGraceMinutes p) /\
     exists p, p ∈ groups /\ rp_PostWindowGraceMinutes r = dp_PostWindowGraceMinutes p) /\
  (forall p, own = [p] -> rp_PostWindowGraceMinutes r = dp_PostWindowGraceMinutes p).
Proof.
  cbv zeta. split; [symmetry; by apply Resolve_perm_aux|]. rewrite Resolve_eq by done.
  assert (Hg : Forall (fun p => 0 <= group_grace p <= maximumPostWindowGrace /\ group_grace p = dp_PostWindowGraceMinutes p)
    (List.filter (group_policy e) ps)).
  { apply Forall_forall. intros p [Hin _]%elem_of_select_where. rewrite Forall_forall in Hv.
    destruct (valid_policy_grace p (Hv p Hin)) as [? E]. by rewrite E. }
  destruct (List.filter (endpoint_policy e) ps) as [|p [|p' l]].
  - destruct (List.filter (group_policy e) ps) as [|g gs]; [simpl; naive_solver|].
    cbv zeta. cbn [rp_AllowDelayedHeartbeats rp_PostWindowGraceMinutes]. split_and!; [| |naive_solver].
    + rewrite forallb_forall, Forall_forall. setoid_rewrite <- list_elem_of_In. naive_solver.
    + intros _ _. destruct (least_grace_spec (g :: gs)) as [Hle (p & Hin & E)]; [|done|].
      { eapply Forall_impl; [exact Hg|]. by intros ? [? _]. }
      rewrite Forall_forall in Hg. split; [|exists p; split; [done|by rewrite E; apply Hg]].
      intros q Hq. destruct (Hg q Hq) as [_ <-]. by apply Hle.
  - simpl. naive_solver.
  - simpl. naive_solver.
Qed.

(** * Windows and the weekly schedule *)

(** Minutes since the start of Sunday on the wall clock of [loc]. *)
Definition minutesPerWeek : Z := 7 * minutesPerDay.
Definition minute_of_week (loc : Location) (t : Time) : Z := (wall_seconds loc t / 60 + 4 * minutesPerDay) mod minutesPerWeek.

Section windows.
Context {TZ : TimeZones}.

Record valid_window (w : RelayUploadWindow) : Prop := {
  vw_start : 0 <= rw_StartMinute w < minutesPerDay;
  vw_end : 0 <= rw_EndMinute w < minutesPerDay;
  vw_differ : rw_StartMinute w <> rw_EndMinute w;
  vw_zone : is_Some (LoadLocation (rw_Timezone w));
  vw_days : rw_Days w <> [];
  vw_day : forall d, d ∈ rw_Days w -> 0 <= d <= 6;
  vw_unique : NoDup (rw_Days w) }.

Lemma check_days_ok days : is_ok (for_each check_day ∅ days) = true <-> Forall (fun d => 0 <= d <= 6) days /\ NoDup days.
Proof.
  rewrite (for_each_distinct_ok check_day (fun d => (0 <=? d) && (d <=? 6)) id "relay upload window weekdays are invalid").
  - rewrite list_fmap_id. f_equiv. apply Forall_proper; [|done]. intros d. rewrite andb_true_iff. lia.
  - intros seen d. unfold check_day, Sunday, Saturday. rewrite bool_decide_not.
    destruct (Z.ltb_spec d 0), (Z.leb_spec 0 d), (Z.ltb_spec 6 d), (Z.leb_spec d 6); simpl; try lia; try done.
    by destruct (bool_decide (d ∈ seen)).
Qed.

Lemma Validate_valid w : Validate w = Ok tt -> valid_window w.
Proof.
  unfold Validate. intros H. inv_ok H. reflect_bools. destruct (for_each check_day _ _) eqn:Ed; [|done].
  assert (Hd : is_ok (for_each check_day ∅ (rw_Days w)) = true) by (by rewrite Ed).
  apply check_days_ok in Hd as [Hr Hu]. rewrite Forall_forall in Hr. split; try done; try lia.
  - destruct (LoadLocation _); [by eexists|done].
  - by intros E; rewrite E in *.
Qed.

Lemma containsDay_elem days d : containsDay days d = true <-> d ∈ days.
Proof.
  unfold containsDay. rewrite existsb_exists. setoid_rewrite <- list_elem_of_In. split; [|exists d; by rewrite Z.eqb_refl].
  by intros (x & ? & ->%Z.eqb_eq).
Qed.

(** Weekday and minute of the day make up the minute of the week. *)
Lemma minute_of_week_split loc t :
  minute_of_week loc t = Weekday loc t * minutesPerDay + (Hour_of loc t * 60 + Minute_of loc t) /\
  0 <= Weekday loc t < 7 /\ 0 <= Hour_of loc t * 60 + Minute_of loc t < minutesPerDay.
Proof.
  unfold minute_of_week, Weekday, Hour_of, Minute_of, minutesPerWeek, minutesPerDay.
  generalize (wall_seconds loc t). intros s. Z.to_euclidean_division_equations; lia.
Qed.

(** Minutes of the week of the opening on day [d], and how long the window stays open. *)
Definition in_weekly_window (w : RelayUploadWindow) (m : Z) : Prop :=
  exists d, d ∈ rw_Days w /\
    (m - (d * minutesPerDay + rw_StartMinute w)) mod minutesPerWeek < (rw_EndMinute w - rw_StartMinute w) mod minutesPerDay.

Lemma Open_at_week w loc now : valid_window w ->
  Open_at w loc now = true <-> in_weekly_window w (minute_of_week loc now).
Proof.
  intros [Hs He Hd _ _ Hday _]. unfold Open_at, in_weekly_window, previousDay, Sunday, Saturday.
  destruct (minute_of_week_split loc now) as (-> & Hw & Hm).
  set (wd := Weekday loc now) in *. set (m := Hour_of loc now * 60 + Minute_of loc now) in *. clearbody wd m.
  unfold minutesPerWeek, minutesPerDay in *.
  destruct (Z.ltb_spec (rw_StartMinute w) (rw_EndMinute w)).
  - rewrite !andb_true_iff, containsDay_elem, Z.leb_le, Z.ltb_lt. split.
    + intros [[Hin ?] ?]. exists wd. split; [done|]. Z.to_euclidean_division_equations; lia.
    + intros (d & Hin & Hlt). specialize (Hday d Hin).
      assert (d = wd /\ rw_StartMinute w <= m < rw_EndMinute w) as [-> ?] by (Z.to_euclidean_division_equations; lia).
      split_and!; [done|lia..].
  - destruct (Z.leb_spec (rw_StartMinute w) m).
    + rewrite containsDay_elem. split.
      * intros Hin. exists wd. split; [done|]. Z.to_euclidean_division_equations; lia.
      * intros (d & Hin & Hlt). specialize (Hday d Hin).
        assert (d = wd) as -> by (Z.to_euclidean_division_equations; lia). done.
    + rewrite andb_true_iff, containsDay_elem, Z.ltb_lt. split.
      * intros [? Hin]. eexists. split; [exact Hin|]. case_if; reflect_bools; Z.to_euclidean_division_equations; lia.
      * intros (d & Hin & Hlt). specialize (Hday d Hin).
        assert (d = (if wd =? 0 then 6 else wd - 1) /\ m < rw_EndMinute w) as [-> ?]
          by (destruct (Z.eqb_spec wd 0); Z.to_euclidean_division_equations; lia).
        done.
Qed.

(** * The gate *)

Definition open_window (now : Time) (w : RelayUploadWindow) : bool :=
  rw_Enabled w && Open_at w (window_location w) now.
Definition open_ids (now : Time) (ws : list RelayUploadWindow) : list string := rw_ID <$> List.filter (open_window now) ws.
(** The windows the gate accepts: valid ones with identifiers of their own. *)
Definition gate_policy (ws : list RelayUploadWindow) : Prop :=
  Forall (fun w => Validate w = Ok tt /\ rw_ID w <> "") ws /\ NoDup (rw_ID <$> ws).

Lemma Open_eq w now :
  Open w now = match Validate w with Ok _ => Ok (open_window now w) | Err e => Err e end.
Proof. unfold Open, open_window. destruct (Validate w); [|done]. by destruct (rw_Enabled w). Qed.

Lemma Validate_tt w u : Validate w = Ok u -> Validate w = Ok tt.
Proof. by destruct u. Qed.

Lemma gate_window_eq now seen enabled ids w :
  gate_window now (seen, enabled, ids) w =
  if is_ok (Validate w) && bool_decide (rw_ID w <> "") && bool_decide (rw_ID w ∉ seen)
  then Ok ({[ rw_ID w ]} ∪ seen, enabled || rw_Enabled w, (ids ++ (if open_window now w then [rw_ID w] else []))%list)
  else Err "invalid_window_policy".
Proof.
  unfold gate_window. rewrite Open_eq, !bool_decide_not. cbv zeta.
  destruct (bool_decide (rw_ID w = "")), (bool_decide (rw_ID w ∈ seen)), (Validate w); simpl; try done.
  unfold open_window. destruct (rw_Enabled w); simpl; rewrite ?orb_true_r, ?orb_false_r, ?app_nil_r; [|done].
  by destruct (Open_at w _ now); rewrite ?app_nil_r.
Qed.

Lemma gate_windows now ws seen enabled ids :
  match for_each (gate_window now) (seen, enabled, ids) ws with
  | Ok (_, enabled', ids') =>
      gate_policy ws /\ Forall (fun w => rw_ID w ∉ seen) ws /\
      enabled' = enabled || existsb rw_Enabled ws /\ ids' = (ids ++ open_ids now ws)%list
  | Err e => e = "invalid_window_policy" /\ ~ (gate_policy ws /\ Forall (fun w => rw_ID w ∉ seen) ws)
  end.
Proof.
  revert seen enabled ids. induction ws as [|w ws IH]; intros seen enabled ids; cbn [for_each].
  { unfold gate_policy, open_ids. simpl. rewrite orb_false_r, app_nil_r. split_and!; try constructor; constructor. }
  rewrite gate_window_eq. unfold gate_policy in *.
  assert (Hcons : forall P Q : RelayUploadWindow -> Prop, ((Forall P (w :: ws) /\ NoDup (rw_ID <$> (w :: ws))) /\ Forall Q (w :: ws)) <->
    P w /\ Q w /\ (rw_ID w ∉ (rw_ID <$> ws)) /\ (Forall P ws /\ NoDup (rw_ID <$> ws)) /\ Forall Q ws).
  { intros P Q. rewrite !Forall_cons, fmap_cons, NoDup_cons. tauto. }
  destruct (Validate w) as [u|e] eqn:Ev; cbn [is_ok andb];
    [apply Validate_tt in Ev|split; [done|]; rewrite Hcons; intros ([Hv _] & _); congruence].
  case_bool_decide as Hid; cbn [andb]; [|split; [done|]; rewrite Hcons; by intros ([_ Hw] & _)].
  case_bool_decide as Hin; cbn [andb]; [|split; [done|]; rewrite Hcons; by intros (_ & Hw & _)].
  cbn [mbind result_bind]. specialize (IH ({[ rw_ID w ]} ∪ seen) (enabled || rw_Enabled w)
    (ids ++ (if open_window now w then [rw_ID w] else []))%list).
  assert (Hseen : Forall (fun x => rw_ID x ∉ {[ rw_ID w ]} ∪ seen) ws <->
    (rw_ID w ∉ (rw_ID <$> ws)) /\ Forall (fun x => rw_ID x ∉ seen) ws).
  { rewrite !Forall_forall, list_elem_of_fmap. split.
    - intros H. split; [intros (x & E & Hx)|intros x Hx]; specialize (H x Hx); set_solver.
    - intros [Hn H] x Hx. specialize (H x Hx). assert (rw_ID x <> rw_ID w) by naive_solver. set_solver. }
  destruct (for_each _ _ ws) as [[[seen' enabled'] ids']|e].
  - destruct IH as ([Hv Hnd] & [Hw Hf]%Hseen & -> & ->).
    destruct (proj2 (Hcons (fun w => Validate w = Ok tt /\ rw_ID w <> "") (fun w => rw_ID w ∉ seen))) as [Hp Hs]; [done|].
    split; [done|]. split; [done|]. split.
    + simpl. by rewrite orb_assoc.
    + rewrite <- app_assoc. f_equal. unfold open_ids. simpl. by destruct (open_window now w).
  - destruct IH as [-> Hn]. split; [done|]. rewrite Hcons. intros (_ & _ & Hw & Hp & Hf). apply Hn. split; [done|]. by apply Hseen.
Qed.

(** When the gate allows a connection, and what it answers. *)
Lemma Evaluate_allowed ws agentNow now :
  gd_Allowed (Evaluate ws agentNow now) = true <->
  IsZero agentNow = false /\ IsZero now = false /\ absoluteDuration (Sub agentNow now) <= maximumClockDrift /\
  gate_policy ws /\ open_ids now ws <> [].
Proof.
  unfold Evaluate. cbv zeta. destruct (IsZero agentNow), (IsZero now); simpl; try naive_solver.
  destruct (Z.ltb_spec maximumClockDrift (absoluteDuration (Sub agentNow now))); simpl; [split; [done|lia]|].
  pose proof (gate_windows now ws ∅ false []) as L. destruct (for_each _ _ ws) as [[[seen enabled] ids]|e].
  - destruct L as (Hp & _ & -> & ->). simpl. destruct (open_ids now ws) eqn:Eo; simpl; naive_solver.
  - destruct L as [_ Hn]. simpl. split; [done|]. intros (_ & _ & _ & Hp & _). exfalso. apply Hn. split; [done|].
    apply Forall_forall. set_solver.
Qed.

Lemma Evaluate_ids ws agentNow now :
  gd_WindowIDs (Evaluate ws agentNow now) = if gd_Allowed (Evaluate ws agentNow now) then open_ids now ws else [].
Proof.
  unfold Evaluate. cbv zeta. case_if; [done|]. case_if; [done|].
  pose proof (gate_windows now ws ∅ false []) as L. destruct (for_each _ _ ws) as [[[seen enabled] ids]|e]; [|done].
  destruct L as (_ & _ & _ & ->). simpl. by destruct (open_ids now ws).
Qed.

Lemma open_ids_not_nil now ws : open_ids now ws <> [] <-> exists w, w ∈ ws /\ open_window now w = true.
Proof.
  unfold open_ids. split.
  - intros H. destruct (List.filter (open_window now) ws) as [|w l] eqn:E; [done|]. exists w.
    apply elem_of_select_where. unfold select_where. rewrite E. by left.
  - intros (w & Hw%elem_of_select_where) E%fmap_nil_inv. unfold select_where in Hw. rewrite E in Hw.
    by apply not_elem_of_nil in Hw.
Qed.

Lemma drift_bound a b : int64_min < a - b <= int64_max -> absoluteDuration (Sub a b) = Z.abs (a - b).
Proof.
  intros H. rewrite Sub_small by (unfold int64_range; lia). unfold absoluteDuration.
  destruct (Z.ltb_spec (a - b) 0); [rewrite wrap64_id; [lia|]|lia]. unfold int64_range, int64_min, int64_max in *. lia.
Qed.


(** A difference of clocks past the range of a duration is taken for no drift:
    [Sub] saturates at the least [int64], whose negation wraps to itself. *)
Lemma saturated_drift_not_detected agentNow now :
  agentNow - now <= int64_min -> absoluteDuration (Sub agentNow now) < 0.
Proof.
  intros H. unfold Sub. replace (Z.max int64_min (Z.min int64_max (agentNow - now))) with int64_min.
  - by vm_compute.
  - unfold int64_min, int64_max in *. lia.
Qed.

(** An endpoint whose clock is more than 292 years behind the server's is not
    stopped by the drift check: the saturated difference negates to a negative
    duration, and the gate opens as if the clocks agreed. *)
Theorem far_clock_drift_allowed ws agentNow now
    (Hr : agentNow - now <= int64_min) (Ha : IsZero agentNow = false) (Hn : IsZero now = false) :
  gate_policy ws -> open_ids now ws <> [] -> gd_Allowed (Evaluate ws agentNow now) = true.
Proof.
  intros Hp Ho. apply Evaluate_allowed. split_and!; try done.
  pose proof (saturated_drift_not_detected _ _ Hr). unfold maximumClockDrift, Minute, Second. lia.
Qed.

(** * Closing times *)

(** Days past the start day on which the window closes. *)
Definition close_day (w : RelayUploadWindow) : Z := if rw_EndMinute w <? rw_StartMinute w then 1 else 0.
(** In a zone at offset [off]: the close of the window opened on day [day] (counted from 1970-01-01). *)
Definition close_of_day (w : RelayUploadWindow) (off day : Z) : Time :=
  ((day + close_day w) * 86400 + rw_EndMinute w * 60 - off) * Second.
(** The instants at which the window closes. *)
Definition closes (w : RelayUploadWindow) (off : Z) (t : Time) : Prop :=
  exists day, (day + 4) mod 7 ∈ rw_Days w /\ t = close_of_day w off day.

Lemma close_after_fixed w loc off now k : fixed_zone loc off ->
  close_after w loc now k =
  ((wall_seconds loc now / 86400 - k + 4) mod 7, close_of_day w off (wall_seconds loc now / 86400 - k)).
Proof.
  intros H. unfold close_after, close_of_day, close_day. cbv zeta.
  assert (Hw : forall t j, wall_seconds loc (t + j * 86400 * Second) = wall_seconds loc t + j * 86400).
  { intros t j. rewrite !(wall_seconds_fixed loc off) by done. unfold Unix. rewrite Z.div_add by done. lia. }
  assert (Hd : forall t j, wall_seconds loc (t + j * 86400 * Second) / 86400 = wall_seconds loc t / 86400 + j).
  { intros t j. by rewrite Hw, Z.div_add. }
  rewrite !(AddDays_fixed loc off) by done. unfold Weekday, Date_of. rewrite Hd.
  set (add := if rw_EndMinute w <? rw_StartMinute w then 1 else 0).
  match goal with |- context [civil_of_days ?x] => replace x with (wall_seconds loc now / 86400 - k + add) end.
  2: { subst add. case_if; rewrite ?Hd; lia. }
  pose proof (days_of_civil_of_days (wall_seconds loc now / 86400 - k + add)) as D.
  destruct (civil_of_days _) as [[y m] d]. rewrite (Date_fixed loc off) by done. rewrite D.
  f_equal. rewrite Z.add_0_r. f_equal.
  pose proof (Z.div_mod (rw_EndMinute w) 60 ltac:(done)). lia.
Qed.

(** The fold that keeps the latest admissible candidate. *)
Lemma latest_fold {A} (p : A -> bool) (f : A -> Z) (l : list A) z :
  let r := fold_left (fun latest x => if negb (p x) then latest else if negb (After (f x) latest) then latest else f x) l z in
  z <= r /\ (r = z \/ exists x, x ∈ l /\ p x = true /\ r = f x) /\ forall x, x ∈ l -> p x = true -> f x <= r.
Proof.
  cbv zeta. revert z. induction l as [|x l IH]; intros z; simpl.
  { split_and!; [lia|by left|]. by intros x ?%not_elem_of_nil. }
  assert (Ha : After (f x) z = true <-> z < f x) by apply Z.ltb_lt.
  destruct (p x) eqn:Ep; simpl; [destruct (After (f x) z); simpl|];
    match goal with |- context [fold_left _ l ?y] => specialize (IH y) end;
    destruct IH as (Hz & Hr & Hm); (split; [lia|split]).
  all: try (destruct Hr as [->|(y & ? & ? & ->)]; [auto; right; by exists x; split; [left|]|right; exists y; split; [by right|done]]).
  all: intros y [->|Hy]%elem_of_cons Hpy; [congruence || (destruct Ha; lia)|by apply Hm].
Qed.

Lemma previousDay_mod n : previousDay (n mod 7) = (n - 1) mod 7.
Proof. unfold previousDay, Sunday, Saturday. case_if; reflect_bools; Z.to_euclidean_division_equations; lia. Qed.

(** The wall clock's day and the close of a day, in whole seconds. *)
Lemma close_of_day_le w loc off day now : fixed_zone loc off ->
  close_of_day w off day <= now <-> (day + close_day w) * 86400 + rw_EndMinute w * 60 <= wall_seconds loc now.
Proof.
  intros H. rewrite (wall_seconds_fixed loc off) by done. unfold close_of_day, Unix.
  pose proof (Z.div_mod now Second ltac:(done)). pose proof (Z.mod_pos_bound now Second ltac:(done)).
  unfold Second in *. lia.
Qed.

(** Every close before an instant at which the window is not open is at most
    one of the eight candidates. *)
Lemma close_candidate w loc off now day : valid_window w -> fixed_zone loc off -> Open_at w loc now = false ->
  (day + 4) mod 7 ∈ rw_Days w -> close_of_day w off day <= now ->
  exists k, 0 <= k <= 7 /\ let day' := wall_seconds loc now / 86400 - k in
    (day' + 4) mod 7 ∈ rw_Days w /\ close_of_day w off day' <= now /\ close_of_day w off day <= close_of_day w off day'.
Proof.
  intros [Hs He Hd _ _ _ _] Hz Ho Hin Hle. pose proof Hle as Hle0. rewrite (close_of_day_le w loc off) in Hle by done.
  set (wall := wall_seconds loc now) in *. set (W := wall / 86400).
  pose proof (Z.div_mod wall 86400 ltac:(done)) as HW. fold W in HW. pose proof (Z.mod_pos_bound wall 86400 ltac:(done)).
  assert (Hcd : 0 <= close_day w <= 1) by (unfold close_day; case_if; lia). unfold minutesPerDay in *.
  assert (HDW : day <= W) by lia.
  destruct (decide (W - 7 <= day)).
  { exists (W - day). split; [lia|]. cbv zeta. replace (W - (W - day)) with day by lia. done. }
  exists (1 + (W - 1 - day) mod 7). pose proof (Z.mod_pos_bound (W - 1 - day) 7 ltac:(done)). split; [lia|]. cbv zeta.
  set (day' := W - (1 + (W - 1 - day) mod 7)).
  assert (Hmod : (day' + 4) mod 7 = (day + 4) mod 7) by (subst day'; Z.to_euclidean_division_equations; lia).
  assert (Hd' : (day' + 4) mod 7 ∈ rw_Days w) by (by rewrite Hmod).
  split_and!; [done|rewrite (close_of_day_le w loc off) by done; fold wall|unfold close_of_day, Second; lia].
  destruct (decide (day' + close_day w < W)); [lia|].
  unfold close_day in *. destruct (Z.ltb_spec (rw_EndMinute w) (rw_StartMinute w)) as [Hov|]; [|lia].
  unfold Open_at in Ho. destruct (Z.ltb_spec (rw_StartMinute w) (rw_EndMinute w)); [lia|].
  destruct (Z.leb_spec (rw_StartMinute w) (Hour_of loc now * 60 + Minute_of loc now)) as [Hm|Hm];
    unfold Hour_of, Minute_of in *; fold wall in Ho, Hm.
  - Z.to_euclidean_division_equations; lia.
  - apply andb_false_iff in Ho as [Ho|Ho].
    + apply Z.ltb_ge in Ho. Z.to_euclidean_division_equations; lia.
    + exfalso. unfold Weekday in Ho. fold wall W in Ho. rewrite previousDay_mod in Ho.
      replace (W + 4 - 1) with (day' + 4) in Ho by lia. apply not_true_iff_false in Ho. by apply Ho, containsDay_elem.
Qed.

(** A close no more than eight days back exists. *)
Lemma some_close w loc off now : valid_window w -> fixed_zone loc off ->
  exists day, (day + 4) mod 7 ∈ rw_Days w /\ close_of_day w off day <= now /\
    wall_seconds loc now / 86400 - 8 <= day.
Proof.
  intros [Hs He Hd _ Hne Hday _] Hz. destruct (rw_Days w) as [|d l] eqn:E; [done|].
  specialize (Hday d ltac:(by left)). set (W := wall_seconds loc now / 86400).
  exists (W - 2 - (W - 2 + 4 - d) mod 7). pose proof (Z.mod_pos_bound (W - 2 + 4 - d) 7 ltac:(done)). split_and!.
  - replace ((W - 2 - (W - 2 + 4 - d) mod 7 + 4) mod 7) with d by (Z.to_euclidean_division_equations; lia). by left.
  - rewrite (close_of_day_le w loc off) by done. pose proof (Z.div_mod (wall_seconds loc now) 86400 ltac:(done)).
    pose proof (Z.mod_pos_bound (wall_seconds loc now) 86400 ltac:(done)). fold W in H0.
    assert (0 <= close_day w <= 1) by (unfold close_day; case_if; lia). unfold minutesPerDay in *. lia.
  - lia.
Qed.

Lemma mostRecentClose_exact w off now : valid_window w -> fixed_zone (window_location w) off ->
  Open_at w (window_location w) now = false -> ZeroTime + 10 * 86400 * Second <= now ->
  closes w off (mostRecentClose w now) /\ mostRecentClose w now <= now /\
  (forall t, closes w off t -> t <= now -> t <= mostRecentClose w now).
Proof.
  intros Hv Hz Ho Hnow. set (loc := window_location w) in *. set (W := wall_seconds loc now / 86400).
  set (f := fun k => close_of_day w off (W - k)).
  set (p := fun k => containsDay (rw_Days w) ((W - k + 4) mod 7) && negb (After (f k) now)).
  assert (Hfold : mostRecentClose w now =
    fold_left (fun latest k => if negb (p k) then latest else if negb (After (f k) latest) then latest else f k)
      [0; 1; 2; 3; 4; 5; 6; 7] ZeroTime).
  { unfold mostRecentClose. fold loc. cbv zeta. generalize [0; 1; 2; 3; 4; 5; 6; 7] ZeroTime.
    intros l. induction l as [|k l IH]; intros z; cbn [fold_left]; [done|]. rewrite (close_after_fixed w loc off) by done.
    rewrite IH. f_equal. fold W. change (close_of_day w off (W - k)) with (f k). unfold p.
    by destruct (containsDay _ _), (After (f k) now). }
  pose proof (latest_fold p f [0; 1; 2; 3; 4; 5; 6; 7] ZeroTime) as L. cbv zeta in L. rewrite <- Hfold in L.
  destruct L as (_ & Hr & Hmax).
  assert (Hp : forall k, p k = true <-> (W - k + 4) mod 7 ∈ rw_Days w /\ f k <= now).
  { intros k. unfold p, After. rewrite andb_true_iff, containsDay_elem, negb_true_iff, Z.ltb_ge. done. }
  assert (Hall : forall day, (day + 4) mod 7 ∈ rw_Days w -> close_of_day w off day <= now ->
    close_of_day w off day <= mostRecentClose w now).
  { intros day Hin Hle. destruct (close_candidate w loc off now day) as (k & Hk & Hd & Hn & Hc); try done.
    etransitivity; [exact Hc|]. apply (Hmax k); [|by apply Hp].
    rewrite !elem_of_cons, elem_of_nil. lia. }
  split_and!.
  - destruct Hr as [Hr|(k & _ & [Hd _]%Hp & ->)]; [|by exists (W - k)].
    exfalso. destruct (some_close w loc off now Hv Hz) as (day & Hin & Hle & Hlow). specialize (Hall day Hin Hle).
    rewrite Hr in Hall. unfold close_of_day in Hall. destruct Hv as [_ [He _] _ _ _ _ _].
    rewrite (wall_seconds_fixed loc off) in Hlow by done. unfold Unix, Second in *.
    assert (0 <= close_day w) by (unfold close_day; case_if; lia).
    unfold ZeroTime, Second in *. Z.to_euclidean_division_equations; lia.
  - destruct Hr as [->|(k & _ & [_ Hn]%Hp & ->)]; [unfold Second in *; lia|done].
  - intros t (day & Hin & ->). by apply Hall.
Qed.

(** * Suppression of heartbeat alerts *)

Definition latest_close (now : Time) (ws : list RelayUploadWindow) (latest : Time) : Time :=
  fold_left (fun latest w => if negb (rw_Enabled w) then latest
    else if negb (After (mostRecentClose w now) latest) then latest else mostRecentClose w now) ws latest.

Lemma suppress_window_eq now r latest w : Validate w = Ok tt ->
  suppress_window now (r, latest) w =
  Ok (mkHeartbeatSuppression (hs_Suppressed r || open_window now w)
        (if open_window now w then "upload_window_open" else hs_Reason r)
        (hs_WindowIDs r ++ (if open_window now w then [rw_ID w] else []))%list (hs_LastCloseAt r),
      latest_close now [w] latest).
Proof.
  intros Hw. unfold suppress_window. rewrite Open_eq, !Hw. unfold latest_close, open_window. simpl.
  destruct (rw_Enabled w); simpl; [destruct (Open_at w _ now), (After _ latest)|]; simpl;
    rewrite ?orb_true_r, ?orb_false_r, ?app_nil_r; by destruct r.
Qed.

Lemma suppress_windows now ws r latest : Forall (fun w => Validate w = Ok tt) ws ->
  for_each (suppress_window now) (r, latest) ws =
  Ok (mkHeartbeatSuppression (hs_Suppressed r || existsb (open_window now) ws)
        (if existsb (open_window now) ws then "upload_window_open" else hs_Reason r)
        (hs_WindowIDs r ++ open_ids now ws)%list (hs_LastCloseAt r), latest_close now ws latest).
Proof.
  intros Hv. revert r latest. induction Hv as [|w ws Hw _ IH]; intros r latest; cbn [for_each].
  { simpl. rewrite orb_false_r. unfold open_ids. simpl. rewrite app_nil_r. by destruct r. }
  rewrite suppress_window_eq by done. cbn [mbind result_bind]. rewrite IH. simpl. unfold open_ids, latest_close. simpl.
  rewrite orb_assoc, <- app_assoc. by destruct (open_window now w), (existsb (open_window now) ws).
Qed.

Lemma latest_close_spec now ws :
  (latest_close now ws ZeroTime = ZeroTime \/ exists w, w ∈ ws /\ rw_Enabled w = true /\ latest_close now ws ZeroTime = mostRecentClose w now) /\
  forall w, w ∈ ws -> rw_Enabled w = true -> mostRecentClose w now <= latest_close now ws ZeroTime.
Proof.
  pose proof (latest_fold rw_Enabled (fun w => mostRecentClose w now) ws ZeroTime) as [_ [H1 H2]]. done.
Qed.

End windows.
