(* ===== verification/AgentUpdate.v ===== *)
(** Signed update manifests of the endpoint agent and the order of versions
    (internal/agentupdate/manifest.go and version.go). Ed25519, base64, JSON
    and the URL parser are class operations. *)
From Stdlib Require Import ZArith Lia String Ascii.
From stdpp Require Import base tactics list strings.
From S2P Require Import Prelude GoStrings GoTime GoRegex Netip.
Open Scope string_scope.
Open Scope Z_scope.

Definition manifestSchemaVersion : Z := 1.
Definition maximumManifestBytes : Z := 64 * 1024.
Definition maximumArtifactBytes : Z := 256 * 2 ^ 20.
Definition maximumManifestLife : Duration := 30 * 24 * Hour.
Definition maximumClockSkew : Duration := 5 * Minute.
Definition minimumHealthTimeout : Z := 30.
Definition maximumHealthTimeout : Z := 600.

(** Three numbers and an optional prerelease of letters, digits, dots and dashes. *)
Definition versionPattern : re :=
  let number := RPlus (RClass is_digit) in
  RSeq number (RSeq (RByte ".") (RSeq number (RSeq (RByte ".") (RSeq number
    (ROpt (RSeq (RByte "-") (RPlus (RClass (por is_digit (por is_upper (por is_lower (por (is_byte ".") (is_byte "-"))))))))))))).

Record Envelope := mkEnvelope { Envelope_KeyID : string; Envelope_Manifest : string; Envelope_Signature : string }.

Record UpdateManifest := {
  um_SchemaVersion : Z; um_Version : string; um_OperatingSystem : string; um_Architecture : string; um_ArtifactURL : string;
  um_ArtifactSHA256 : string; um_ArtifactSize : Z; um_IssuedAt : Time; um_ExpiresAt : Time; um_HealthTimeoutSeconds : Z }.

(** The fields of a parsed URL the code reads. *)
Record URL := { url_Scheme : string; url_Host : string; url_HasUser : bool; url_Fragment : string }.

(** [decode_envelope] and [decode_manifest] decode one strict JSON object;
    [None] covers unknown fields, trailing data and more than the limit. *)
Class UpdateCrypto := {
  decode_envelope : string -> option Envelope;
  decode_manifest : string -> option UpdateManifest;
  base64_decode : string -> option string;
  ed25519_verify : string -> string -> string -> bool;   (* key, message, signature *)
  url_parse : string -> option URL;
  sha256_sum : string -> string;
  hex_encode : string -> string }.

(** * Versions *)

(** [strconv.Atoi] of a run of digits. *)
Definition Atoi (s : string) : option Z := n ← ParseInt64 s; Some n.

(** [strings.Cut(value, "-")] *)
Fixpoint cut_version (s : string) : string * string :=
  match s with
  | EmptyString => ("", "")
  | String a s' => if Ascii.eqb a "-" then ("", s') else let '(u, v) := cut_version s' in (String a u, v)
  end.

Definition parseVersion (value : string) : option (list Z * string) :=
  if negb (re_match versionPattern value) then None
  else
    let '(core, prerelease) := cut_version value in
    parts ← mapM Atoi (split_byte "." core);
    Some (parts, prerelease).

(** The loop over the three numbers, then the prereleases. *)
Fixpoint upgrade_from (currentParts : list Z) (currentPrerelease : string) (targetParts : list Z) (targetPrerelease : string) : bool :=
  match currentParts, targetParts with
  | c :: cs, t :: ts => if negb (t =? c) then c <? t else upgrade_from cs currentPrerelease ts targetPrerelease
  | _, _ =>
      if bool_decide (currentPrerelease = targetPrerelease) then false
      else if bool_decide (currentPrerelease = "") then false
      else if bool_decide (targetPrerelease = "") then true
      else str_ltb currentPrerelease targetPrerelease
  end.

Definition IsUpgrade (current target : string) : bool :=
  match parseVersion current with
  | None => false
  | Some (currentParts, currentPrerelease) =>
      match parseVersion target with
      | None => false
      | Some (targetParts, targetPrerelease) => upgrade_from currentParts currentPrerelease targetParts targetPrerelease
      end
  end.

Section manifest.
Context {UC : UpdateCrypto}.

Definition ValidateManifest (m : UpdateManifest) (now : Time) : result unit :=
  reject negb (um_SchemaVersion m =? manifestSchemaVersion) || negb (re_match versionPattern (um_Version m))
    as "update manifest schema or version is invalid" ;;
  reject (negb (bool_decide (um_OperatingSystem m = "linux")) && negb (bool_decide (um_OperatingSystem m = "windows"))) ||
         (negb (bool_decide (um_Architecture m = "amd64")) && negb (bool_decide (um_Architecture m = "arm64")))
    as "update manifest platform is unsupported" ;;
  reject match url_parse (um_ArtifactURL m) with
         | None => true
         | Some u => negb (bool_decide (url_Scheme u = "https")) || bool_decide (url_Host u = "") || url_HasUser u ||
                     negb (bool_decide (url_Fragment u = ""))
         end as "update artifact URL must be HTTPS without credentials or fragments" ;;
  reject negb (bool_decide (hex_decoded_length (um_ArtifactSHA256 m) = Some 32)) as "update artifact SHA-256 is invalid" ;;
  reject (um_ArtifactSize m <? 1) || (maximumArtifactBytes <? um_ArtifactSize m)
    as "update artifact size is outside the permitted range" ;;
  reject After (um_IssuedAt m) (Add now maximumClockSkew) || negb (After (um_ExpiresAt m) now) ||
         negb (After (um_ExpiresAt m) (um_IssuedAt m)) || (maximumManifestLife <? Sub (um_ExpiresAt m) (um_IssuedAt m))
    as "update manifest validity window is invalid" ;;
  reject (um_HealthTimeoutSeconds m <? minimumHealthTimeout) || (maximumHealthTimeout <? um_HealthTimeoutSeconds m)
    as "update health timeout is outside the permitted range" ;;
  Ok tt.

(** The key, a byte zero, the manifest. *)
Definition signingPayload (keyID manifest : string) : string := keyID +:+ String "000" "" +:+ manifest.

Definition Verify (envelope trustedKey expectedKeyID : string) (now : Time) : result UpdateManifest :=
  match decode_envelope envelope with
  | None => Err "decode update envelope"
  | Some e =>
      reject bool_decide (Envelope_KeyID e = "") || negb (bool_decide (Envelope_KeyID e = expectedKeyID))
        as "update envelope uses an untrusted signing key" ;;
      match base64_decode (Envelope_Manifest e) with
      | None => Err "update manifest encoding is invalid"
      | Some manifestBytes =>
          reject match base64_decode (Envelope_Signature e) with
                 | None => true
                 | Some signature => negb (ed25519_verify trustedKey (signingPayload (Envelope_KeyID e) manifestBytes) signature)
                 end as "update manifest signature is invalid" ;;
          match decode_manifest manifestBytes with
          | None => Err "decode signed update manifest"
          | Some manifest => try ValidateManifest manifest now ;; Ok manifest
          end
      end
  end.
End manifest.

(** * The order of versions *)

Lemma upgrade_irrefl ps p : upgrade_from ps p ps p = false.
Proof. induction ps as [|c ps IH]; simpl; [by rewrite bool_decide_eq_true_2|]. by rewrite Z.eqb_refl. Qed.

(** The order of prereleases: a release after its prereleases, those by their text. *)
Lemma upgrade_pre_trans p q r : upgrade_from [] p [] q = true -> upgrade_from [] q [] r = true -> upgrade_from [] p [] r = true.
Proof.
  simpl. repeat case_bool_decide; subst; try done; intros A B; try congruence.
  - pose proof (str_ltb_trans _ _ _ A B) as C. by rewrite str_ltb_irrefl in C.
  - by eapply str_ltb_trans.
Qed.

Lemma upgrade_trans ps p qs q rs r : length ps = length qs -> length qs = length rs ->
  upgrade_from ps p qs q = true -> upgrade_from qs q rs r = true -> upgrade_from ps p rs r = true.
Proof.
  revert qs rs. induction ps as [|a ps IH]; intros [|b qs] [|c rs] L1 L2; try done; [apply upgrade_pre_trans|].
  simpl in L1, L2. injection L1 as L1. injection L2 as L2. simpl.
  destruct (Z.eqb_spec b a), (Z.eqb_spec c b), (Z.eqb_spec c a); simpl; rewrite ?Z.ltb_lt; subst; try lia; try done.
  by apply IH.
Qed.

Lemma upgrade_total ps p qs q : length ps = length qs ->
  upgrade_from ps p qs q = true \/ (ps = qs /\ p = q) \/ upgrade_from qs q ps p = true.
Proof.
  revert qs. induction ps as [|a ps IH]; intros [|b qs] L; try done; simpl.
  - repeat case_bool_decide; subst; try done; auto; destruct (str_trichotomy p q) as [?|[?|?]]; auto.
  - injection L as L. destruct (Z.eqb_spec b a), (Z.eqb_spec a b); subst; simpl; try congruence; [|rewrite !Z.ltb_lt; lia].
    destruct (IH qs L) as [?|[[-> ->]|?]]; auto.
Qed.

Lemma digits_language s : re_lang (RPlus (RClass is_digit)) s -> str_forall is_digit s = true /\ s <> "".
Proof.
  unfold RPlus. intros H. inversion H as [| |? ? c t Hc Ht| | | |]; subst. inversion Hc; subst. split; [|done].
  assert (Hs : forall r u, re_lang r u -> r = RStar (RClass is_digit) -> str_forall is_digit u = true).
  { clear. induction 1; try discriminate; [done|]. intros [= ->].
    match goal with Hc : re_lang (RClass _) _ |- _ => inversion Hc; subst end.
    change (is_digit a && str_forall is_digit t = true). by rewrite IHre_lang2, andb_true_r. }
  change (is_digit a && str_forall is_digit t = true). rewrite (Hs _ _ Ht eq_refl). by apply andb_true_iff.
Qed.

Lemma digits_no_split c s : is_digit c = false -> str_forall is_digit s = true -> split_byte c s = [s].
Proof.
  intros Hc. induction s as [|a s IH]; [done|]. simpl. intros [Ha Hs]%andb_true_iff. rewrite IH by done.
  destruct (Ascii.eqb_spec a c); [congruence|done].
Qed.

Lemma cut_version_digits s t : str_forall is_digit s = true -> (cut_version (s +:+ t)).1 = s +:+ (cut_version t).1.
Proof.
  induction s as [|a s IH]; [done|]. simpl. intros [Ha Hs]%andb_true_iff.
  change (String a s +:+ t) with (String a (s +:+ t)). simpl.
  destruct (Ascii.eqb_spec a "-"); [by subst|]. destruct (cut_version (s +:+ t)) eqn:E. simpl in *. by rewrite IH.
Qed.
Lemma cut_version_dot t : (cut_version ("." +:+ t)).1 = "." +:+ (cut_version t).1.
Proof. change ("." +:+ t) with (String "." t). simpl. by destruct (cut_version t). Qed.

(** A version has exactly three numbers. *)
Lemma parseVersion_three v parts pre : parseVersion v = Some (parts, pre) -> length parts = 3%nat.
Proof.
  unfold parseVersion. destruct (re_match versionPattern v) eqn:E; simpl; [|done]. apply re_match_correct in E.
  unfold versionPattern in E. inversion E as [| |? ? n1 v1 H1 Hv1| | | |]; subst. inversion Hv1 as [| |? ? d1 v2 Hd1 Hv2| | | |]; subst.
  inversion Hv2 as [| |? ? n2 v3 H2 Hv3| | | |]; subst. inversion Hv3 as [| |? ? d2 v4 Hd2 Hv4| | | |]; subst.
  inversion Hv4 as [| |? ? n3 rest H3 Hrest| | | |]; subst. unfold RByte in *. inversion Hd1; subst. inversion Hd2; subst.
  unfold is_byte in *. repeat match goal with Hb : Ascii.eqb _ _ = true |- _ => apply Ascii.eqb_eq in Hb; subst end.
  apply digits_language in H1 as [H1 _], H2 as [H2 _], H3 as [H3 _].
  assert (Hr : (cut_version rest).1 = "").
  { unfold ROpt in Hrest. inversion Hrest as [| | |? ? ? He|? ? ? Hp| |]; subst; [by inversion He|].
    inversion Hp as [| |? ? d p Hd Hp'| | | |]; subst. inversion Hd; subst. unfold is_byte in *.
    match goal with Hb : Ascii.eqb _ _ = true |- _ => apply Ascii.eqb_eq in Hb; subst end. done. }
  match goal with |- context [cut_version ?x] => destruct (cut_version x) as [core p] eqn:Ec end. intros H. apply bind_Some in H as (l & Hl & [= <- <-]).
  assert (Hcore : core = n1 +:+ "." +:+ (n2 +:+ "." +:+ n3)).
  { change core with (core, p).1. rewrite <- Ec, cut_version_digits, cut_version_dot, cut_version_digits, cut_version_dot by done.
    by rewrite cut_version_digits, Hr, str_app_nil_r. }
  subst core. apply length_mapM in Hl. rewrite <- Hl.
  rewrite (split_byte_sep "." n1 _ [n2; n3]); [done|by apply digits_no_split|].
  apply split_byte_sep; by apply digits_no_split.
Qed.

(** "Is an upgrade" is a strict order on the versions an agent understands, so updates
    never cycle: no version is an upgrade of itself, upgrades compose, and of two
    different versions exactly one is an upgrade of the other. *)
Theorem IsUpgrade_strict_order u v w :
  IsUpgrade u u = false /\
  (IsUpgrade u v = true -> IsUpgrade v w = true -> IsUpgrade u w = true) /\
  (IsUpgrade u v = true -> IsUpgrade v u = false) /\
  (is_Some (parseVersion u) -> is_Some (parseVersion v) ->
   IsUpgrade u v = true \/ parseVersion u = parseVersion v \/ IsUpgrade v u = true).
Proof.
  assert (Hirr : forall x, IsUpgrade x x = false).
  { intros x. unfold IsUpgrade. destruct (parseVersion x) as [[ps p]|]; [|done]. apply upgrade_irrefl. }
  assert (Htr : forall x y z, IsUpgrade x y = true -> IsUpgrade y z = true -> IsUpgrade x z = true).
  { intros x y z. unfold IsUpgrade. destruct (parseVersion x) as [[xs xp]|] eqn:Ex, (parseVersion y) as [[ys yp]|] eqn:Ey,
      (parseVersion z) as [[zs zp]|] eqn:Ez; try done. apply parseVersion_three in Ex, Ey, Ez. apply upgrade_trans; congruence. }
  split_and!; [apply Hirr|apply Htr| |].
  - intros H. apply not_true_iff_false. intros H'. pose proof (Htr _ _ _ H H') as C. by rewrite Hirr in C.
  - intros [[us up] Eu] [[vs vp] Ev]. unfold IsUpgrade. rewrite Eu, Ev. apply parseVersion_three in Eu, Ev.
    destruct (upgrade_total us up vs vp) as [?|[[-> ->]|?]]; [congruence|auto|auto|auto].
Qed.

Lemma IsUpgrade_strict_order_witness : IsUpgrade "1.2.0-rc.1" "1.2.1" = true.
Proof. apply (IsUpgrade_strict_order "1.2.0-rc.1" "1.2.0" "1.2.1"); vm_compute; reflexivity. Defined.

(** Prereleases are ordered by their text, so the tenth release candidate is not an
    upgrade of the ninth (in the order of semantic versions it is). *)
Theorem prerelease_text_order :
  IsUpgrade "2.0.0-rc.9" "2.0.0-rc.10" = false /\ IsUpgrade "2.0.0-rc.10" "2.0.0-rc.9" = true.
Proof. vm_compute. auto. Qed.
