(* ===== verification/EndpointModel.v ===== *)
(** Endpoint agents: the records they exchange with the server
    (internal/model/endpoint.go) and the validation of a check-in
    (internal/agentidentity/service.go). *)
From Stdlib Require Import ZArith Lia String Ascii.
From stdpp Require Import base tactics list strings gmap sets.
From coqutil Require Import Datatypes.RecordSettersUsingExistingGetters.
From S2P Require Import Prelude GoStrings GoTime Netip WorkerModel NetworkPolicy.
Open Scope string_scope.
Open Scope Z_scope.

#[global] Arguments RecordSettersUsingExistingGetters.const {_} _ _ /.

(** * Data *)

Definition CollectorID := string.
Definition CollectorOperatingSystem : CollectorID := "operating_system".
Definition CollectorInstalledSoftware : CollectorID := "installed_software".
Definition CollectorListeningServices : CollectorID := "listening_services".
Definition CollectorSecurityPosture : CollectorID := "security_posture".
Definition CollectorNetworkTelemetry : CollectorID := "network_telemetry".

(** The certificate text is not kept; [Endpoint_AssetID] is the asset column. *)
Record Endpoint := mkEndpoint {
  Endpoint_ID : string; Endpoint_Name : string; Endpoint_Status : EndpointStatus; Endpoint_CertificateSerial : string;
  Endpoint_EnrolledAt : Time; Endpoint_ExpiresAt : Time; Endpoint_LastSeenAt : option Time;
  Endpoint_LastHeartbeatGeneratedAt : option Time; Endpoint_LastHeartbeatReceivedAt : option Time;
  Endpoint_RenewedAt : option Time; Endpoint_RevokedAt : option Time; Endpoint_RevocationReason : string;
  Endpoint_AllowedCollectors : list CollectorID; Endpoint_NetworkExclusions : NetworkTelemetryExclusions;
  Endpoint_SoftwareVersion : string; Endpoint_OperatingSystem : string; Endpoint_Architecture : string;
  Endpoint_AssetID : option string }.

Record AgentIntegritySnapshot := {
  Snapshot_ExecutableSHA256 : string; Snapshot_ConfigurationSHA256 : string; Snapshot_IdentitySHA256 : string;
  Snapshot_ObservedAt : Time }.
(** [Envelope_Sequence] is a [uint64]. *)
Record SignedAgentIntegritySnapshot := {
  Envelope_Sequence : Z; Envelope_Snapshot : AgentIntegritySnapshot; Envelope_Signature : string }.

Record EndpointPatch := { Patch_ID : string; Patch_Description : string; Patch_InstalledAt : option Time }.
Record EndpointOSInventory := {
  OS_Family : string; OS_Name : string; OS_Version : string; OS_Build : string; OS_Kernel : string; OS_Architecture : string;
  OS_Patches : list EndpointPatch; OS_CollectedAt : Time }.
Record InstalledSoftware := {
  Software_Name : string; Software_Version : string; Software_Publisher : string; Software_Architecture : string;
  Software_Source : string }.
Record EndpointSoftwareInventory := { SoftwareInv_Items : list InstalledSoftware; SoftwareInv_CollectedAt : Time }.
Record ListeningService := {
  Listening_Protocol : string; Listening_Address : string; Listening_Port : Z; Listening_ProcessID : Z;
  Listening_ProcessName : string; Listening_Executable : string }.
Record EndpointListeningInventory := { ListeningInv_Services : list ListeningService; ListeningInv_CollectedAt : Time }.
Record PostureEvidence := {
  Posture_ID : string; Posture_Title : string; Posture_Status : string; Posture_Detail : string }.
Record EndpointPostureInventory := { PostureInv_Evidence : list PostureEvidence; PostureInv_CollectedAt : Time }.
Record EndpointNetworkInventory := mkNetworkInventory { NetworkInv_Connections : list NetworkConnection; NetworkInv_CollectedAt : Time }.

(** internal/agentmodule/catalog.go [Health] *)
Record ModuleHealth := {
  Health_ModuleID : string; Health_Version : string; Health_Healthy : bool; Health_CrashCount : Z; Health_Error : string;
  Health_ObservedAt : Time }.

Record AgentCheckIn := {
  CheckIn_SchemaVersion : Z; CheckIn_GeneratedAt : Time; CheckIn_SoftwareVersion : string; CheckIn_OperatingSystem : string;
  CheckIn_Architecture : string; CheckIn_SupportedCollectors : list CollectorID; CheckIn_ModuleHealth : list ModuleHealth;
  CheckIn_OSInventory : option EndpointOSInventory; CheckIn_SoftwareInventory : option EndpointSoftwareInventory;
  CheckIn_ListeningInventory : option EndpointListeningInventory; CheckIn_PostureInventory : option EndpointPostureInventory;
  CheckIn_NetworkInventory : option EndpointNetworkInventory; CheckIn_IntegritySnapshot : option SignedAgentIntegritySnapshot }.

(** * Validation *)

(** [strings.ToLower] of any text reads the Unicode tables. *)
Class LowerCase := { ToLowerText : string -> string }.

(** A byte zero between fields. *)
Definition nul : string := String "000" "".

Definition one_of (value : string) (allowed : list string) : bool := existsb (fun a => bool_decide (value = a)) allowed.

(** The loop body of the validators that keep a map of what they have seen. *)
Definition check_distinct {A} (bad : A -> bool) (key : A -> string) (err : error) (seen : gset string) (x : A) : result (gset string) :=
  reject bad x || bool_decide (key x ∈ seen) as err ;; Ok ({[ key x ]} ∪ seen).

Definition fingerprint_ok (value : string) : bool :=
  bool_decide (hex_decoded_length value = Some 32) && bool_decide (value = ToLower value).

Definition validateIntegritySnapshot (envelope : option SignedAgentIntegritySnapshot) : result unit :=
  match envelope with
  | None => Ok tt
  | Some e =>
      reject (Envelope_Sequence e =? 0) || (2 ^ 63 - 1 <? Envelope_Sequence e) ||
             (strlen (Envelope_Signature e) <? 1) || (256 <? strlen (Envelope_Signature e))
        as "endpoint integrity envelope is invalid" ;;
      let s := Envelope_Snapshot e in
      reject negb (forallb fingerprint_ok [Snapshot_ExecutableSHA256 s; Snapshot_ConfigurationSHA256 s; Snapshot_IdentitySHA256 s])
        as "endpoint integrity fingerprint is invalid" ;;
      reject IsZero (Snapshot_ObservedAt s) as "endpoint integrity observation time is required" ;;
      Ok tt
  end.

Definition address_text (a : option Addr) : string := match a with Some a => Addr_String a | None => Addr_String AddrNone end.
Definition IsUnspecified (a : Addr) : bool :=
  match a with AddrNone => false | Addr4 v => v =? 0 | Addr6 v zone => (v =? 0) && bool_decide (zone = "") end.

Definition connection_identity (c : NetworkConnection) : string :=
  Conn_Protocol c +:+ nul +:+ address_text (ParseAddr (Conn_LocalAddress c)) +:+ nul +:+ append_int (Conn_LocalPort c) 0 +:+ nul +:+
  address_text (ParseAddr (Conn_RemoteAddress c)) +:+ nul +:+ append_int (Conn_RemotePort c) 0 +:+ nul +:+ append_int (Conn_ProcessID c) 0.

Definition bad_port (port : Z) : bool := (port <? 1) || (65535 <? port).

Definition bad_connection (c : NetworkConnection) : bool :=
  negb (one_of (Conn_Protocol c) ["tcp"; "udp"]) ||
  match ParseAddr (Conn_LocalAddress c), ParseAddr (Conn_RemoteAddress c) with
  | Some _, Some remote => IsUnspecified remote
  | _, _ => true
  end || bad_port (Conn_LocalPort c) || bad_port (Conn_RemotePort c) || (Conn_ProcessID c <? 0) ||
  (500 <? strlen (Conn_ProcessName c)) || (2000 <? strlen (Conn_Executable c)) || (253 <? strlen (Conn_RemoteHostname c)) ||
  (253 <? strlen (Conn_TLSServerName c)) || negb (one_of (Conn_HostnameSource c) [""; "hosts_file"; "windows_dns_cache"]) ||
  negb (eqb (bool_decide (Conn_RemoteHostname c = "")) (bool_decide (Conn_HostnameSource c = ""))) ||
  negb (bool_decide (Conn_Direction c = "outbound_candidate")).

Definition validateNetworkInventory (inventory : option EndpointNetworkInventory) : result unit :=
  match inventory with
  | None => Ok tt
  | Some i =>
      reject IsZero (NetworkInv_CollectedAt i) || (10000 <? Z.of_nat (length (NetworkInv_Connections i)))
        as "endpoint network metadata is invalid" ;;
      try for_each (check_distinct bad_connection connection_identity "endpoint network connection metadata is invalid")
            ∅ (NetworkInv_Connections i) ;;
      Ok tt
  end.

Definition bad_evidence (e : PostureEvidence) : bool :=
  blank (Posture_ID e) || (100 <? strlen (Posture_ID e)) || blank (Posture_Title e) || (200 <? strlen (Posture_Title e)) ||
  (1000 <? strlen (Posture_Detail e)) || negb (one_of (Posture_Status e) ["pass"; "fail"; "unknown"]).

Definition validatePostureInventory (inventory : option EndpointPostureInventory) : result unit :=
  match inventory with
  | None => Ok tt
  | Some i =>
      reject IsZero (PostureInv_CollectedAt i) || bool_decide (PostureInv_Evidence i = []) ||
             (100 <? Z.of_nat (length (PostureInv_Evidence i)))
        as "endpoint security-posture inventory is invalid" ;;
      try for_each (check_distinct bad_evidence Posture_ID "endpoint security-posture evidence is invalid") ∅ (PostureInv_Evidence i) ;;
      Ok tt
  end.

Definition service_identity (s : ListeningService) : string :=
  Listening_Protocol s +:+ nul +:+ Listening_Address s +:+ nul +:+ append_int (Listening_Port s) 0 +:+ nul +:+ append_int (Listening_ProcessID s) 0.
Definition bad_service (s : ListeningService) : bool :=
  negb (one_of (Listening_Protocol s) ["tcp"; "udp"]) || bad_port (Listening_Port s) || (Listening_ProcessID s <? 0) ||
  (500 <? strlen (Listening_ProcessName s)) || (2000 <? strlen (Listening_Executable s)).
Definition check_service (seen : gset string) (s : ListeningService) : result (gset string) :=
  reject bad_service s || bool_decide (service_identity s ∈ seen) as "endpoint listening-service record is invalid" ;;
  reject bool_decide (ParseAddr (Listening_Address s) = None) as "endpoint listening-service address is invalid" ;;
  Ok ({[ service_identity s ]} ∪ seen).

Definition validateListeningInventory (inventory : option EndpointListeningInventory) : result unit :=
  match inventory with
  | None => Ok tt
  | Some i =>
      reject IsZero (ListeningInv_CollectedAt i) || (20000 <? Z.of_nat (length (ListeningInv_Services i)))
        as "endpoint listening-service inventory is invalid" ;;
      try for_each check_service ∅ (ListeningInv_Services i) ;;
      Ok tt
  end.

Definition bad_software (i : InstalledSoftware) : bool :=
  blank (Software_Name i) || (500 <? strlen (Software_Name i)) || (200 <? strlen (Software_Version i)) ||
  (500 <? strlen (Software_Publisher i)) || (50 <? strlen (Software_Architecture i)) ||
  negb (one_of (Software_Source i) ["dpkg"; "rpm"; "apk"; "windows_registry"]).

Section validate.
Context {LC : LowerCase}.

Definition software_identity (i : InstalledSoftware) : string :=
  ToLowerText (TrimSpace (Software_Name i) +:+ nul +:+ TrimSpace (Software_Version i) +:+ nul +:+ Software_Architecture i).

Definition validateSoftwareInventory (inventory : option EndpointSoftwareInventory) : result unit :=
  match inventory with
  | None => Ok tt
  | Some i =>
      reject IsZero (SoftwareInv_CollectedAt i) || (10000 <? Z.of_nat (length (SoftwareInv_Items i)))
        as "endpoint software inventory is invalid" ;;
      try for_each (check_distinct bad_software software_identity "endpoint software inventory item is invalid") ∅ (SoftwareInv_Items i) ;;
      Ok tt
  end.

Definition bad_patch (p : EndpointPatch) : bool :=
  blank (Patch_ID p) || (200 <? strlen (Patch_ID p)) || (500 <? strlen (Patch_Description p)).

Definition validateOSInventory (inventory : option EndpointOSInventory) : result unit :=
  match inventory with
  | None => Ok tt
  | Some i =>
      reject negb (one_of (OS_Family i) ["linux"; "windows"]) as "endpoint OS inventory family is unsupported" ;;
      reject blank (OS_Name i) || blank (OS_Version i) || blank (OS_Kernel i) ||
             negb (one_of (OS_Architecture i) ["amd64"; "arm64"]) || IsZero (OS_CollectedAt i) ||
             (10000 <? Z.of_nat (length (OS_Patches i)))
        as "endpoint OS inventory is invalid" ;;
      try for_each (check_distinct bad_patch Patch_ID "endpoint OS patch inventory is invalid") ∅ (OS_Patches i) ;;
      Ok tt
  end.

Definition allowed_collectors : list CollectorID :=
  [CollectorOperatingSystem; CollectorInstalledSoftware; CollectorListeningServices; CollectorSecurityPosture; CollectorNetworkTelemetry].
Definition validateEndpointCollectors (collectors : list CollectorID) : result unit :=
  try for_each (check_distinct (fun c => negb (one_of c allowed_collectors)) (fun c => c)
        "endpoint collector policy contains an unsupported or duplicate collector") ∅ collectors ;;
  Ok tt.

Definition bad_health (r : ModuleHealth) : bool :=
  blank (Health_ModuleID r) || blank (Health_Version r) || (Health_CrashCount r <? 0) || (500 <? strlen (Health_Error r)).

Definition validateEndpointCheckIn (c : AgentCheckIn) : result unit :=
  reject (CheckIn_SchemaVersion c =? 2) && IsZero (CheckIn_GeneratedAt c) as "endpoint heartbeat generation time is required" ;;
  reject blank (CheckIn_SoftwareVersion c) as "endpoint software version is required" ;;
  reject negb (one_of (CheckIn_OperatingSystem c) ["linux"; "windows"]) as "endpoint operating system is unsupported" ;;
  reject negb (one_of (CheckIn_Architecture c) ["amd64"; "arm64"]) as "endpoint architecture is unsupported" ;;
  try validateIntegritySnapshot (CheckIn_IntegritySnapshot c) ;;
  reject 256 <? Z.of_nat (length (CheckIn_ModuleHealth c)) as "endpoint module health report is too large" ;;
  try for_each (check_distinct bad_health Health_ModuleID "endpoint module health report is invalid") ∅ (CheckIn_ModuleHealth c) ;;
  try validateOSInventory (CheckIn_OSInventory c) ;;
  try validateSoftwareInventory (CheckIn_SoftwareInventory c) ;;
  try validateListeningInventory (CheckIn_ListeningInventory c) ;;
  try validatePostureInventory (CheckIn_PostureInventory c) ;;
  try validateNetworkInventory (CheckIn_NetworkInventory c) ;;
  validateEndpointCollectors (CheckIn_SupportedCollectors c).
End validate.

(** The validated loops: every element is acceptable and no key comes twice. *)
Lemma check_distinct_ok {A} (bad : A -> bool) (key : A -> string) err l :
  is_ok (for_each (check_distinct bad key err) ∅ l) = true <-> Forall (fun x => bad x = false) l /\ NoDup (key <$> l).
Proof.
  rewrite (for_each_distinct_ok (check_distinct bad key err) (fun x => negb (bad x)) key err).
  - f_equiv. apply Forall_proper; [|done]. intros x. by rewrite negb_true_iff.
  - intros seen x. unfold check_distinct. rewrite bool_decide_not.
    by destruct (bad x), (bool_decide (key x ∈ seen)).
Qed.
