(* ===== verification/EndpointStore.v ===== *)
(** The endpoint tables of the SQLite store, statement by statement:
    enrollment tokens, endpoints, integrity snapshots and events, inventories,
    heartbeat settings, maintenance windows, upload windows and
    delayed-heartbeat policies (internal/store/endpoint*.go, relay_window.go,
    delayed_heartbeat.go). Audit events and the users the rows refer to are not
    modelled; a transaction that fails leaves the database as it was. *)
From Stdlib Require Import ZArith Lia String Ascii.
From stdpp Require Import base tactics list strings gmap sets.
From coqutil Require Import Datatypes.RecordSettersUsingExistingGetters.
From S2P Require Import Prelude GoStrings GoTime GoLocation WorkerModel Sql WorkerStore WorkerIdentity NetworkPolicy AgentModule RelayWindow EndpointModel.
Open Scope string_scope.
Open Scope Z_scope.

Definition ErrEndpointCertificateChanged : error := "endpoint certificate is no longer current".
Definition ErrEndpointIntegrityReplay : error := "endpoint integrity sequence was already used".

(** * Rows *)

Record AgentEnrollmentToken := mkAgentToken {
  AgentToken_ID : string; AgentToken_Name : string; AgentToken_TokenHash : string; AgentToken_CreatedBy : string;
  AgentToken_CreatedAt : Time; AgentToken_ExpiresAt : Time }.
Record AgentTokenRow := mkAgentTokenRow { atr_token : AgentEnrollmentToken; atr_expires_at : string; atr_used_at : option string }.

Record SnapshotRow := mkSnapshotRow {
  snap_endpoint_id : string; snap_executable : string; snap_configuration : string; snap_identity : string;
  snap_observed_at : string; snap_received_at : string; snap_sequence : Z; snap_signature : string }.
Record IntegrityEventRow := mkIntegrityEvent {
  event_endpoint_id : string; event_component : string; event_previous : string; event_current : string;
  event_observed_at : string; event_received_at : string; event_sequence : Z; event_signature : string }.

Record EndpointHeartbeatSettings := mkHeartbeatSettings {
  hb_Enabled : bool; hb_MissedAfterMinutes : Z; hb_StaleAfterMinutes : Z; hb_UpdatedBy : string; hb_UpdatedAt : Time }.

Record MaintenanceRow := mkMaintenance {
  mw_id : string; mw_name : string; mw_target_type : string; mw_target_id : string; mw_starts_at : string; mw_ends_at : string;
  mw_reason : string; mw_created_by : string; mw_created_at : string; mw_cancelled_by : string; mw_cancelled_at : option string }.

(** agent_update_releases and agent_update_assignments *)
Record AgentUpdateRelease := mkUpdateRelease {
  Release_ID : string; Release_Version : string; Release_OperatingSystem : string; Release_Architecture : string;
  Release_ArtifactSHA256 : string; Release_ArtifactSize : Z; Release_SigningKeyID : string; Release_Envelope : string;
  Release_Status : string; Release_CreatedBy : string; Release_CreatedAt : Time; Release_ApprovedBy : string;
  Release_ApprovedAt : option Time; Release_RevokedBy : string; Release_RevokedAt : option Time; Release_RevocationReason : string }.
Record UpdateAssignmentRow := mkUpdateAssignment {
  ua_endpoint_id : string; ua_release_id : string; ua_status : string; ua_assigned_by : string; ua_assigned_at : string;
  ua_offered_at : option string; ua_installed_at : option string }.

(** agent_module_publishers, _releases, _assignments and _health *)
Record ModulePublisher := mkPublisher {
  Publisher_KeyID : string; Publisher_Name : string; Publisher_PublicKey : string; Publisher_Enabled : bool;
  Publisher_CreatedBy : string; Publisher_CreatedAt : Time }.
Record ModuleRelease := mkModuleRelease {
  mr_ID : string; mr_Manifest : Manifest; mr_Envelope : string; mr_Status : string; mr_CreatedBy : string; mr_CreatedAt : Time;
  mr_ApprovedBy : string; mr_ApprovedAt : option Time; mr_RevokedBy : string; mr_RevokedAt : option Time; mr_RevocationReason : string }.
Record ModuleAssignment := mkModuleAssignment {
  ma_ID : string; ma_ReleaseID : string; ma_TargetType : string; ma_TargetID : string; ma_RingPercent : Z; ma_Enabled : bool;
  ma_CreatedBy : string; ma_CreatedAt : Time }.

(** An inventory with the instant the server received it. *)
Record Received (A : Type) := mkReceived { received_item : A; received_at : Time }.
Arguments mkReceived {A} _ _.
Arguments received_item {A} _.
Arguments received_at {A} _.

Record EndpointDb := {
  ed_tokens : list AgentTokenRow;
  ed_endpoints : list Endpoint;
  ed_snapshots : list SnapshotRow;
  ed_events : list IntegrityEventRow;
  ed_os : gmap string (Received EndpointOSInventory);
  ed_software : gmap string (Received EndpointSoftwareInventory);
  ed_listening : gmap string (Received EndpointListeningInventory);
  ed_posture : gmap string (Received EndpointPostureInventory);
  ed_network : gmap string (Received EndpointNetworkInventory);
  ed_heartbeat : EndpointHeartbeatSettings;
  ed_maintenance : list MaintenanceRow;
  ed_windows : list RelayUploadWindow;
  ed_policies : list DelayedHeartbeatPolicy;
  ed_groups : list string;                 (* asset_groups.id *)
  ed_members : list (string * string);     (* asset_group_members: group, asset *)
  ed_releases : list AgentUpdateRelease;
  ed_assignments : list UpdateAssignmentRow;
  ed_publishers : list ModulePublisher;
  ed_module_releases : list ModuleRelease;
  ed_module_assignments : list ModuleAssignment;
  ed_module_health : gmap (string * string) ModuleHealth;
  ed_modules_enabled : bool }.

(** [INSERT ... ON CONFLICT(key) DO UPDATE]: the new row, or the row merged into the one with its key. *)
Definition upsert {Row K} `{EqDecision K} (key : Row -> K) (merge : Row -> Row -> Row) (row : Row) (table : list Row) : list Row :=
  if existsb (fun r => bool_decide (key r = key row)) table
  then update_where (fun r => bool_decide (key r = key row)) (fun old => merge old row) table
  else (table ++ [row])%list.

(** * Enrollment *)

Definition CreateAgentEnrollmentToken (token : AgentEnrollmentToken) : st EndpointDb unit := fun s =>
  if bool_decide (AgentToken_ID token ∈ AgentToken_ID ∘ atr_token <$> ed_tokens s) ||
     bool_decide (AgentToken_TokenHash token ∈ AgentToken_TokenHash ∘ atr_token <$> ed_tokens s)
  then (Err ErrConstraint, s)
  else (Ok tt, s <| ed_tokens ::= fun l => (l ++ [mkAgentTokenRow token (formatTime (AgentToken_ExpiresAt token)) None])%list |>).

(** [token_hash=? AND used_at IS NULL AND expires_at>?] *)
Definition agent_token_usable (hash now : string) (r : AgentTokenRow) : bool :=
  bool_decide (AgentToken_TokenHash (atr_token r) = hash) && bool_decide (atr_used_at r = None) && str_ltb now (atr_expires_at r).

Definition AgentEnrollmentTokenName (hash : string) (now : Time) (s : EndpointDb) : result string :=
  match query_row (agent_token_usable hash (formatTime now)) (ed_tokens s) with
  | Some r => Ok (AgentToken_Name (atr_token r))
  | None => Err ErrInvalidEnrollmentToken
  end.

Definition ConsumeAgentEnrollmentToken (hash : string) (endpoint : Endpoint) (now : Time) : st EndpointDb unit := fun s =>
  let target := agent_token_usable hash (formatTime now) in
  if negb (affected target (ed_tokens s) =? 1) then (Err ErrInvalidEnrollmentToken, s) else
  if bool_decide (Endpoint_ID endpoint ∈ Endpoint_ID <$> ed_endpoints s) ||
     bool_decide (Endpoint_CertificateSerial endpoint ∈ Endpoint_CertificateSerial <$> ed_endpoints s) ||
     negb (one_of (Endpoint_Status endpoint) [EndpointActive; EndpointRevoked])
  then (Err ErrConstraint, s)
  else (Ok tt, s <| ed_tokens ::= update_where target (fun r => r <| atr_used_at := Some (formatTime now) |>) |>
                 <| ed_endpoints ::= fun l => (l ++ [endpoint])%list |>).

Definition EndpointBySerial (serial : string) (s : EndpointDb) : result Endpoint :=
  match query_row (fun e => bool_decide (Endpoint_CertificateSerial e = serial)) (ed_endpoints s) with
  | Some e => Ok e
  | None => Err ErrNotFound
  end.

(** [ORDER BY name, enrolled_at] *)
Definition endpoint_ltb (a b : Endpoint) : bool :=
  str_ltb (Endpoint_Name a) (Endpoint_Name b) ||
  (bool_decide (Endpoint_Name a = Endpoint_Name b) && str_ltb (formatTime (Endpoint_EnrolledAt a)) (formatTime (Endpoint_EnrolledAt b))).
Definition ListEndpoints (s : EndpointDb) : list Endpoint := sort_slice endpoint_ltb (ed_endpoints s).

(** * Life of an endpoint *)

(** [id=? AND status='active'] *)
Definition active_endpoint (id : string) (e : Endpoint) : bool :=
  bool_decide (Endpoint_ID e = id) && bool_decide (Endpoint_Status e = EndpointActive).

(** [UPDATE endpoints SET f WHERE p], refused unless it changes one row. *)
Definition update_endpoint (p : Endpoint -> bool) (f : Endpoint -> Endpoint) (missing : error) : st EndpointDb unit := fun s =>
  if negb (affected p (ed_endpoints s) =? 1) then (Err missing, s)
  else (Ok tt, s <| ed_endpoints ::= update_where p f |>).

(** Rewriting [certificate_serial] must keep it unique. *)
Definition RenewEndpointCertificate (oldSerial id serial : string) (expiresAt renewedAt : Time) : st EndpointDb unit := fun s =>
  let p e := active_endpoint id e && bool_decide (Endpoint_CertificateSerial e = oldSerial) in
  if existsb p (ed_endpoints s) &&
     existsb (fun e => negb (p e) && bool_decide (Endpoint_CertificateSerial e = serial)) (ed_endpoints s)
  then (Err ErrConstraint, s)
  else update_endpoint p (fun e => e <| Endpoint_CertificateSerial := serial |> <| Endpoint_ExpiresAt := expiresAt |>
                                     <| Endpoint_RenewedAt := Some renewedAt |>) ErrEndpointCertificateChanged s.

Definition RevokeEndpointRow (id reason : string) (revokedAt : Time) : st EndpointDb unit :=
  update_endpoint (active_endpoint id)
    (fun e => e <| Endpoint_Status := EndpointRevoked |> <| Endpoint_RevokedAt := Some revokedAt |>
                <| Endpoint_RevocationReason := reason |>) ErrNotFound.

Definition MarkEndpointSeen (id : string) (seenAt : Time) : st EndpointDb unit := fun s =>
  (Ok tt, s <| ed_endpoints ::= update_where (active_endpoint id) (fun e => e <| Endpoint_LastSeenAt := Some seenAt |>) |>).

Definition heard_from (c : AgentCheckIn) (seenAt : Time) (e : Endpoint) : Endpoint :=
  e <| Endpoint_LastSeenAt := Some seenAt |>
    <| Endpoint_LastHeartbeatGeneratedAt := if IsZero (CheckIn_GeneratedAt c) then None else Some (CheckIn_GeneratedAt c) |>
    <| Endpoint_LastHeartbeatReceivedAt := Some seenAt |> <| Endpoint_SoftwareVersion := CheckIn_SoftwareVersion c |>
    <| Endpoint_OperatingSystem := CheckIn_OperatingSystem c |> <| Endpoint_Architecture := CheckIn_Architecture c |>.

(** [endpoint_id=? AND status IN ('assigned','offered')
    AND release_id IN (SELECT id FROM agent_update_releases WHERE version=?)] *)
Definition pending_version (s : EndpointDb) (id version : string) (a : UpdateAssignmentRow) : bool :=
  bool_decide (ua_endpoint_id a = id) && one_of (ua_status a) ["assigned"; "offered"] &&
  existsb (fun r => bool_decide (Release_ID r = ua_release_id a) && bool_decide (Release_Version r = version)) (ed_releases s).

Definition RecordEndpointCheckIn (id : string) (c : AgentCheckIn) (seenAt : Time) : st EndpointDb unit := fun s =>
  if negb (affected (active_endpoint id) (ed_endpoints s) =? 1) then (Err ErrNotFound, s)
  else (Ok tt, s <| ed_endpoints ::= update_where (active_endpoint id) (heard_from c seenAt) |>
                 <| ed_assignments ::= update_where (pending_version s id (CheckIn_SoftwareVersion c))
                      (fun a => a <| ua_status := "installed" |> <| ua_installed_at := Some (formatTime seenAt) |>) |>).

Definition SetEndpointCollectorsRow (id : string) (collectors : list CollectorID) : st EndpointDb unit :=
  update_endpoint (active_endpoint id) (fun e => e <| Endpoint_AllowedCollectors := collectors |>) ErrNotFound.
Definition SetEndpointNetworkExclusionsRow (id : string) (exclusions : NetworkTelemetryExclusions) : st EndpointDb unit :=
  update_endpoint (active_endpoint id) (fun e => e <| Endpoint_NetworkExclusions := exclusions |>) ErrNotFound.
Definition LinkEndpointAsset (id assetID : string) : st EndpointDb unit :=
  update_endpoint (active_endpoint id) (fun e => e <| Endpoint_AssetID := Some assetID |>) ErrNotFound.

(** [SELECT 1 FROM endpoints WHERE id=? AND status='active'], as the
    [INSERT ... SELECT id FROM endpoints] of the inventories uses it. *)
Definition is_active (id : string) (s : EndpointDb) : bool := existsb (active_endpoint id) (ed_endpoints s).

(** * Integrity *)

Definition changed_components (previous : SnapshotRow) (snapshot : AgentIntegritySnapshot) : list (string * string * string) :=
  List.filter (fun '(_, before, after) => negb (bool_decide (before = after)))
    [("executable", snap_executable previous, Snapshot_ExecutableSHA256 snapshot);
     ("configuration", snap_configuration previous, Snapshot_ConfigurationSHA256 snapshot);
     ("identity", snap_identity previous, Snapshot_IdentitySHA256 snapshot)].

Definition RecordEndpointIntegritySnapshot (id : string) (envelope : SignedAgentIntegritySnapshot) (receivedAt : Time) : st EndpointDb unit := fun s =>
  let snapshot := Envelope_Snapshot envelope in
  let events previous :=
    (fun '(component, before, after) =>
       mkIntegrityEvent id component before after (formatTime (Snapshot_ObservedAt snapshot)) (formatTime receivedAt)
         (Envelope_Sequence envelope) (Envelope_Signature envelope)) <$> changed_components previous snapshot in
  let row := mkSnapshotRow id (Snapshot_ExecutableSHA256 snapshot) (Snapshot_ConfigurationSHA256 snapshot)
               (Snapshot_IdentitySHA256 snapshot) (formatTime (Snapshot_ObservedAt snapshot)) (formatTime receivedAt)
               (Envelope_Sequence envelope) (Envelope_Signature envelope) in
  let finish added :=
    if negb (is_active id s) then (Err ErrNotFound, s)
    else (Ok tt, s <| ed_events ::= fun l => (l ++ added)%list |>
                   <| ed_snapshots ::= upsert snap_endpoint_id (fun _ new => new) row |>) in
  match query_row (fun r => bool_decide (snap_endpoint_id r = id)) (ed_snapshots s) with
  | None => finish []
  | Some previous =>
      if Envelope_Sequence envelope <=? snap_sequence previous then (Err ErrEndpointIntegrityReplay, s)
      else finish (events previous)
  end.

(** The events of an endpoint, oldest first. *)
Definition integrity_events (id : string) (s : EndpointDb) : list IntegrityEventRow :=
  select_where (fun e => bool_decide (event_endpoint_id e = id)) (ed_events s).
(** [ORDER BY received_at DESC,id DESC]; identifiers grow with insertion. *)
Definition EndpointIntegrityEvents (id : string) (s : EndpointDb) : list IntegrityEventRow :=
  sort_slice (fun a b => str_ltb (event_received_at b) (event_received_at a)) (rev (integrity_events id s)).

(** * Inventories *)

Definition RecordEndpointOSInventory (id : string) (i : EndpointOSInventory) (receivedAt : Time) : st EndpointDb unit := fun s =>
  if negb (is_active id s) then (Err ErrNotFound, s)
  else if negb (bool_decide (NoDup (Patch_ID <$> OS_Patches i))) then (Err ErrConstraint, s)
  else (Ok tt, s <| ed_os ::= <[id := mkReceived i receivedAt]> |>).

(** [refresh] is the outcome of matching the software against the known
    vulnerabilities, which runs after the commit. *)
Definition RecordEndpointSoftwareInventory (refresh : option error) (id : string) (i : EndpointSoftwareInventory) (receivedAt : Time)
  : st EndpointDb unit := fun s =>
  if negb (is_active id s) then (Err ErrNotFound, s)
  else (match refresh with Some e => Err e | None => Ok tt end, s <| ed_software ::= <[id := mkReceived i receivedAt]> |>).

Definition RecordEndpointListeningInventory (id : string) (i : EndpointListeningInventory) (receivedAt : Time) : st EndpointDb unit := fun s =>
  if negb (is_active id s) then (Err ErrNotFound, s)
  else (Ok tt, s <| ed_listening ::= <[id := mkReceived i receivedAt]> |>).

Definition RecordEndpointPostureInventory (id : string) (i : EndpointPostureInventory) (receivedAt : Time) : st EndpointDb unit := fun s =>
  if negb (is_active id s) then (Err ErrNotFound, s)
  else if negb (bool_decide (NoDup (Posture_ID <$> PostureInv_Evidence i))) ||
          negb (forallb (fun e => one_of (Posture_Status e) ["pass"; "fail"; "unknown"]) (PostureInv_Evidence i))
  then (Err ErrConstraint, s)
  else (Ok tt, s <| ed_posture ::= <[id := mkReceived i receivedAt]> |>).

(** [refresh] is the outcome of matching the connections against the threat
    indicators, inside the transaction. *)
Definition RecordEndpointNetworkInventory (refresh : option error) (id : string) (i : EndpointNetworkInventory) (receivedAt : Time)
  : st EndpointDb unit := fun s =>
  if negb (is_active id s) then (Err ErrNotFound, s)
  else match refresh with
  | Some e => (Err e, s)
  | None => (Ok tt, s <| ed_network ::= <[id := mkReceived i receivedAt]> |>)
  end.

(** Reading an inventory back. *)
Definition inventory_of {A} (table : gmap string (Received A)) (id : string) : result (Received A) :=
  match table !! id with Some r => Ok r | None => Err ErrNotFound end.

(** * Heartbeat settings, maintenance, upload windows and policies *)

Definition SetEndpointHeartbeatSettings (settings : EndpointHeartbeatSettings) : st EndpointDb unit := fun s =>
  (Ok tt, s <| ed_heartbeat := settings |>).

Definition maintenanceTargetExists (s : EndpointDb) (targetType targetID : string) : bool :=
  if bool_decide (targetType = MaintenanceTargetGroup) then bool_decide (targetID ∈ ed_groups s)
  else bool_decide (targetID ∈ Endpoint_ID <$> ed_endpoints s).

(** [target_type='endpoint' AND target_id=? OR target_type='group' AND the
    endpoint's asset is a member of the group] *)
Definition in_group (s : EndpointDb) (endpointID groupID : string) : bool :=
  existsb (fun e => bool_decide (Endpoint_ID e = endpointID) &&
    match Endpoint_AssetID e with
    | Some asset => existsb (fun m => bool_decide (m = (groupID, asset))) (ed_members s)
    | None => false
    end) (ed_endpoints s).
Definition targets (s : EndpointDb) (endpointID targetType targetID : string) : bool :=
  (bool_decide (targetType = MaintenanceTargetEndpoint) && bool_decide (targetID = endpointID)) ||
  (bool_decide (targetType = MaintenanceTargetGroup) && in_group s endpointID targetID).

Definition CreateEndpointMaintenanceWindow (id name targetType targetID reason createdBy : string) (startsAt endsAt createdAt : Time)
  : st EndpointDb unit := fun s =>
  if negb (maintenanceTargetExists s targetType targetID) then (Err ErrNotFound, s)
  else if bool_decide (id ∈ mw_id <$> ed_maintenance s) || negb (one_of targetType ["endpoint"; "group"]) then (Err ErrConstraint, s)
  else (Ok tt, s <| ed_maintenance ::= fun l => (l ++ [mkMaintenance id name targetType targetID (formatTime startsAt)
                      (formatTime endsAt) reason createdBy (formatTime createdAt) "" None])%list |>).

Definition CancelEndpointMaintenanceWindow (id actorID : string) (now : Time) : st EndpointDb unit := fun s =>
  let p w := bool_decide (mw_id w = id) && bool_decide (mw_cancelled_at w = None) in
  if negb (affected p (ed_maintenance s) =? 1) then (Err ErrNotFound, s)
  else (Ok tt, s <| ed_maintenance ::= update_where p
                      (fun w => w <| mw_cancelled_by := actorID |> <| mw_cancelled_at := Some (formatTime now) |>) |>).

Definition EndpointInMaintenance (endpointID : string) (now : Time) (s : EndpointDb) : bool :=
  existsb (fun w => bool_decide (mw_cancelled_at w = None) && str_leb (mw_starts_at w) (formatTime now) &&
    str_ltb (formatTime now) (mw_ends_at w) && targets s endpointID (mw_target_type w) (mw_target_id w)) (ed_maintenance s).

Section policies.
Context {TZ : TimeZones}.

(** Creator and creation time of an existing window are kept. *)
Definition merge_window (old new : RelayUploadWindow) : RelayUploadWindow :=
  new <| rw_CreatedBy := rw_CreatedBy old |> <| rw_CreatedAt := rw_CreatedAt old |>.
Definition UpsertRelayUploadWindow (window : RelayUploadWindow) : st EndpointDb unit := fun s =>
  match Validate window with
  | Err e => (Err e, s)
  | Ok _ =>
      if negb (maintenanceTargetExists s (rw_TargetType window) (rw_TargetID window)) then (Err ErrNotFound, s)
      else (Ok tt, s <| ed_windows ::= upsert rw_ID merge_window window |>)
  end.
End policies.

(** [ORDER BY name,id] *)
Definition window_ltb (a b : RelayUploadWindow) : bool :=
  str_ltb (rw_Name a) (rw_Name b) || (bool_decide (rw_Name a = rw_Name b) && str_ltb (rw_ID a) (rw_ID b)).
Definition ListRelayUploadWindows (s : EndpointDb) : list RelayUploadWindow := sort_slice window_ltb (ed_windows s).
Definition RelayUploadWindowsForEndpoint (endpointID : string) (s : EndpointDb) : list RelayUploadWindow :=
  sort_slice window_ltb (select_where (fun w => targets s endpointID (rw_TargetType w) (rw_TargetID w)) (ed_windows s)).

Definition policy_key (p : DelayedHeartbeatPolicy) : string * string := (dp_TargetType p, dp_TargetID p).
Definition UpsertDelayedHeartbeatPolicy (policy : DelayedHeartbeatPolicy) : st EndpointDb unit := fun s =>
  match ValidatePolicy policy with
  | Err e => (Err e, s)
  | Ok _ =>
      if negb (maintenanceTargetExists s (dp_TargetType policy) (dp_TargetID policy)) then (Err ErrNotFound, s)
      else (Ok tt, s <| ed_policies ::= upsert policy_key (fun _ new => new) policy |>)
  end.

Definition DeleteDelayedHeartbeatPolicy (targetType targetID : string) : st EndpointDb unit := fun s =>
  if negb (one_of targetType [MaintenanceTargetEndpoint; MaintenanceTargetGroup]) then (Err "delayed-heartbeat policy target is invalid", s)
  else
    let p q := bool_decide (policy_key q = (targetType, targetID)) in
    if negb (affected p (ed_policies s) =? 1) then (Err ErrNotFound, s)
    else (Ok tt, s <| ed_policies ::= List.filter (fun q => negb (p q)) |>).

Definition ResolveDelayedHeartbeatPolicy (endpointID : string) (s : EndpointDb) : result ResolvedDelayedHeartbeatPolicy :=
  if negb (bool_decide (endpointID ∈ Endpoint_ID <$> ed_endpoints s)) then Err ErrNotFound
  else Ok (Resolve endpointID (select_where (fun p => targets s endpointID (dp_TargetType p) (dp_TargetID p)) (ed_policies s))).
