(* ===== verification/ModuleCatalog.v ===== *)
(** The catalogs of agent updates and agent modules. Updates
    (internal/agentupdatecatalog/service.go, internal/store/agent_update.go and
    agent_update_assignment.go): import, approval, assignment and the offer at a
    check-in. Modules (internal/agentmodulecatalog/service.go,
    internal/agentmodule/package.go and declarative.go, internal/store/agent_module.go):
    publishers, signed packages, approval, deployment rings and the offers made
    at a check-in. *)
From Stdlib Require Import ZArith Lia String Ascii.
From stdpp Require Import base tactics list strings gmap sets.
From coqutil Require Import Datatypes.RecordSettersUsingExistingGetters.
From S2P Require Import Prelude GoStrings GoTime GoRegex WorkerModel Sql WorkerStore WorkerIdentity AgentModule RelayWindow AgentUpdate EndpointModel EndpointStore.
Open Scope string_scope.
Open Scope Z_scope.

Definition AgentUpdateStaged : string := "staged".
Definition AgentUpdateApproved : string := "approved".
Definition AgentUpdateRevoked : string := "revoked".
Definition maximumRevocationReasonLength : Z := 500.

(** * internal/store/agent_update.go *)

(** [UNIQUE(version, operating_system, architecture)] and the primary key. *)
Definition CreateAgentUpdateRelease (r : AgentUpdateRelease) : st EndpointDb unit := fun s =>
  let platform r := (Release_Version r, Release_OperatingSystem r, Release_Architecture r) in
  if bool_decide (Release_ID r ∈ Release_ID <$> ed_releases s) || bool_decide (platform r ∈ platform <$> ed_releases s) ||
     negb (one_of (Release_Status r) [AgentUpdateStaged; AgentUpdateApproved; AgentUpdateRevoked])
  then (Err ErrConstraint, s)
  else (Ok tt, s <| ed_releases ::= fun l => (l ++ [r])%list |>).

Definition transitionAgentUpdate (id from to actorID : string) (at_ : Time) (reason : string) : st EndpointDb unit := fun s =>
  let p r := bool_decide (Release_ID r = id) && bool_decide (Release_Status r = from) in
  let f r :=
    if bool_decide (to = AgentUpdateRevoked)
    then r <| Release_Status := to |> <| Release_RevokedBy := actorID |> <| Release_RevokedAt := Some at_ |>
           <| Release_RevocationReason := reason |>
    else r <| Release_Status := to |> <| Release_ApprovedBy := actorID |> <| Release_ApprovedAt := Some at_ |> in
  if negb (affected p (ed_releases s) =? 1) then (Err ErrNotFound, s)
  else (Ok tt, s <| ed_releases ::= update_where p f |>).

Definition AgentUpdateEnvelope (id : string) (s : EndpointDb) : result string :=
  match query_row (fun r => bool_decide (Release_ID r = id) && bool_decide (Release_Status r = AgentUpdateApproved)) (ed_releases s) with
  | Some r => Ok (Release_Envelope r)
  | None => Err ErrNotFound
  end.

(** * internal/store/agent_update_assignment.go *)

Definition AssignAgentUpdateRow (endpointID releaseID actorID : string) (assignedAt : Time) : st EndpointDb unit := fun s =>
  match query_row (active_endpoint endpointID) (ed_endpoints s) with
  | None => (Err ErrNotFound, s)
  | Some e =>
      if bool_decide (Endpoint_OperatingSystem e = "") || bool_decide (Endpoint_Architecture e = "")
      then (Err "endpoint must check in before an update can be assigned", s)
      else
        match query_row (fun r => bool_decide (Release_ID r = releaseID) && bool_decide (Release_Status r = AgentUpdateApproved)) (ed_releases s) with
        | None => (Err ErrNotFound, s)
        | Some r =>
            if negb (bool_decide (Endpoint_OperatingSystem e = Release_OperatingSystem r)) ||
               negb (bool_decide (Endpoint_Architecture e = Release_Architecture r))
            then (Err "endpoint and update release platforms do not match", s)
            else (Ok tt, s <| ed_assignments ::= upsert ua_endpoint_id (fun _ new => new)
                    (mkUpdateAssignment endpointID releaseID "assigned" actorID (formatTime assignedAt) None None) |>)
        end
  end.

(** The join of the offer: an assignment that is not installed, of an approved
    release, for an active endpoint of its platform. *)
Definition offered_release (s : EndpointDb) (endpointID : string) (a : UpdateAssignmentRow) : option AgentUpdateRelease :=
  if negb (bool_decide (ua_endpoint_id a = endpointID)) || negb (one_of (ua_status a) ["assigned"; "offered"]) then None
  else
    e ← query_row (active_endpoint endpointID) (ed_endpoints s);
    query_row (fun r => bool_decide (Release_ID r = ua_release_id a) && bool_decide (Release_Status r = AgentUpdateApproved) &&
      bool_decide (Release_OperatingSystem r = Endpoint_OperatingSystem e) && bool_decide (Release_Architecture r = Endpoint_Architecture e))
      (ed_releases s).

Definition AgentUpdateOffer (endpointID : string) (offeredAt : Time) : st EndpointDb (option string) := fun s =>
  match omap (offered_release s endpointID) (ed_assignments s) with
  | [] => (Ok None, s)
  | r :: _ =>
      (Ok (Some (Release_Envelope r)),
       s <| ed_assignments ::= update_where (fun a => bool_decide (ua_endpoint_id a = endpointID))
              (fun a => a <| ua_status := "offered" |>
                          <| ua_offered_at ::= fun t => match t with Some t => Some t | None => Some (formatTime offeredAt) end |>) |>)
  end.

(** * internal/agentupdatecatalog/service.go *)

Section service.
Context {UC : UpdateCrypto}.

(** The trusted key and its identifier. *)
Record UpdateService := { us_keyID : string; us_key : string }.

Definition imported_release (keyID envelope actorID : string) (m : UpdateManifest) (now : Time) : AgentUpdateRelease :=
  mkUpdateRelease (hex_encode (String.substring 0 16 (sha256_sum envelope))) (um_Version m) (um_OperatingSystem m) (um_Architecture m)
    (um_ArtifactSHA256 m) (um_ArtifactSize m) keyID envelope AgentUpdateStaged actorID now "" None "" None "".

Definition UpdateService_Import (svc : UpdateService) (envelope actorID : string) (now : Time) : st EndpointDb AgentUpdateRelease := fun s =>
  match Verify envelope (us_key svc) (us_keyID svc) now with
  | Err e => (Err e, s)
  | Ok m =>
      let release := imported_release (us_keyID svc) envelope actorID m now in
      (_ ⇐ CreateAgentUpdateRelease release ;; st_ret release) s
  end.

Definition UpdateService_Approve (id actorID : string) (now : Time) : st EndpointDb unit :=
  transitionAgentUpdate id AgentUpdateStaged AgentUpdateApproved actorID now "".

Definition UpdateService_Revoke (id reason actorID : string) (now : Time) : st EndpointDb unit := fun s =>
  let reason := TrimSpace reason in
  if bool_decide (reason = "") || (maximumRevocationReasonLength <? strlen reason)
  then (Err "update revocation reason must be between 1 and 500 characters", s)
  else transitionAgentUpdate id AgentUpdateApproved AgentUpdateRevoked actorID now reason s.

Definition UpdateService_Assign (endpointID releaseID actorID : string) (now : Time) : st EndpointDb unit := fun s =>
  let endpointID := TrimSpace endpointID in let releaseID := TrimSpace releaseID in
  if bool_decide (endpointID = "") || bool_decide (releaseID = "") then (Err "endpoint and update release are required", s)
  else AssignAgentUpdateRow endpointID releaseID actorID now s.
End service.

Definition ReleaseStaged : string := "staged".
Definition ReleaseApproved : string := "approved".
Definition ReleaseRevoked : string := "revoked".
Definition PublicKeySize : Z := 32.

(** * internal/agentmodule: packages *)

(** The raw manifest, the package and the signature of an envelope. *)
Record ModuleEnvelope := { me_Manifest : string; me_Package : string; me_Signature : string }.
Record DeclarativeCheck := {
  dc_ID : string; dc_Source : string; dc_Field : string; dc_Operator : string; dc_Severity : string }.
Record DeclarativePackage := { pkg_SchemaVersion : Z; pkg_Checks : list DeclarativeCheck }.

(** JSON, base64, SHA-256 and Ed25519. [parse_envelope] is the strict decoding
    of [Verify], [peek_publisher] what [envelopePublisher] reads of an envelope. *)
Class ModuleCrypto := {
  parse_envelope : string -> option ModuleEnvelope;
  parse_manifest : string -> option Manifest;
  parse_package : string -> option DeclarativePackage;
  peek_publisher : string -> option string;
  raw_base64_decode : string -> option string;
  package_sha256 : string -> string;
  to_hex : string -> string;
  ed25519_ok : string -> string -> string -> bool }.

Section packages.
Context {MC : ModuleCrypto}.

Definition signedPayload (manifest digest : string) : string := manifest +:+ nul +:+ digest.

Definition VerifyModule (envelope publicKey expectedKeyID : string) : result (Manifest * string) :=
  match parse_envelope envelope with
  | None => Err "module envelope is invalid"
  | Some e =>
      match parse_manifest (me_Manifest e) with
      | None => Err "module manifest is invalid"
      | Some manifest =>
          try Manifest_Validate manifest ;;
          reject negb (bool_decide (Manifest_PublisherKeyID manifest = expectedKeyID)) || negb (strlen publicKey =? PublicKeySize)
            as "module publisher is not trusted" ;;
          match raw_base64_decode (me_Package e) with
          | None => Err "module package size is invalid"
          | Some pkg =>
              reject negb (strlen pkg =? Manifest_PackageSize manifest) as "module package size is invalid" ;;
              let digest := package_sha256 pkg in
              reject negb (bool_decide (to_hex digest = Manifest_PackageSHA256 manifest)) as "module package checksum mismatch" ;;
              reject match raw_base64_decode (me_Signature e) with
                     | None => true
                     | Some signature => negb (ed25519_ok publicKey (signedPayload (me_Manifest e) digest) signature)
                     end as "module signature is invalid" ;;
              Ok (manifest, pkg)
          end
      end
  end.

Definition permissionDeclared (manifest : Manifest) (permission : string) : bool :=
  existsb (fun declared => bool_decide (declared = permission)) (Manifest_Permissions manifest).

(** The messages are without the identifier they quote. *)
Definition check_declarative (manifest : Manifest) (seen : gset string) (check : DeclarativeCheck) : result (gset string) :=
  reject negb (re_match moduleIDPattern (dc_ID check)) || bool_decide (dc_ID check ∈ seen)
    as "declarative check identifier is invalid or duplicated" ;;
  reject negb (permissionDeclared manifest (dc_Source check)) as "declarative check uses an undeclared permission" ;;
  reject bool_decide (dc_Field check = "") || negb (one_of (dc_Operator check) ["equals"; "not_equals"; "contains"; "exists"])
    as "declarative check is invalid" ;;
  reject negb (one_of (dc_Severity check) ["info"; "low"; "medium"; "high"; "critical"]) as "declarative check severity is invalid" ;;
  Ok ({[ dc_ID check ]} ∪ seen).

Definition ValidateDeclarativePackage (pkg : string) (manifest : Manifest) : result unit :=
  reject negb (bool_decide (Manifest_Kind manifest = KindDeclarative)) as "module is not declarative" ;;
  match parse_package pkg with
  | None => Err "declarative module package is invalid"
  | Some definition =>
      reject negb (pkg_SchemaVersion definition =? 1) || bool_decide (pkg_Checks definition = []) ||
             (1000 <? Z.of_nat (length (pkg_Checks definition)))
        as "declarative module package is invalid" ;;
      try for_each (check_declarative manifest) ∅ (pkg_Checks definition) ;;
      Ok tt
  end.
End packages.

#[export] Instance DeclarativeCheck_eq_dec : EqDecision DeclarativeCheck.
Proof. solve_decision. Defined.

(** * internal/store/agent_module.go *)

(** Creator and creation time of a known publisher are kept. *)
Definition merge_publisher (old new : ModulePublisher) : ModulePublisher :=
  new <| Publisher_CreatedBy := Publisher_CreatedBy old |> <| Publisher_CreatedAt := Publisher_CreatedAt old |>.
Definition SaveAgentModulePublisher (p : ModulePublisher) : st EndpointDb unit := fun s =>
  (Ok tt, s <| ed_publishers ::= upsert Publisher_KeyID merge_publisher p |>).
Definition AgentModulePublisher (keyID : string) (s : EndpointDb) : result ModulePublisher :=
  match query_row (fun p => bool_decide (Publisher_KeyID p = keyID)) (ed_publishers s) with
  | Some p => Ok p
  | None => Err ErrNotFound
  end.

(** [UNIQUE(module_id,version)] and the primary key. *)
Definition CreateAgentModuleRelease (r : ModuleRelease) : st EndpointDb unit := fun s =>
  let name r := (Manifest_ID (mr_Manifest r), Manifest_Version (mr_Manifest r)) in
  if bool_decide (mr_ID r ∈ mr_ID <$> ed_module_releases s) || bool_decide (name r ∈ name <$> ed_module_releases s) ||
     negb (one_of (mr_Status r) [ReleaseStaged; ReleaseApproved; ReleaseRevoked])
  then (Err ErrConstraint, s)
  else (Ok tt, s <| ed_module_releases ::= fun l => (l ++ [r])%list |>).

Definition TransitionAgentModuleRelease (id from to actorID reason : string) (at_ : Time) : st EndpointDb unit := fun s =>
  let p r := bool_decide (mr_ID r = id) && bool_decide (mr_Status r = from) in
  let f r :=
    if bool_decide (to = ReleaseRevoked)
    then r <| mr_Status := to |> <| mr_RevokedBy := actorID |> <| mr_RevokedAt := Some at_ |> <| mr_RevocationReason := reason |>
    else r <| mr_Status := to |> <| mr_ApprovedBy := actorID |> <| mr_ApprovedAt := Some at_ |> in
  if negb (affected p (ed_module_releases s) =? 1) then (Err ErrNotFound, s)
  else (Ok tt, s <| ed_module_releases ::= update_where p f |>).

Definition validateModuleAssignmentTarget (s : EndpointDb) (targetType targetID : string) : result unit :=
  reject negb (one_of targetType ["endpoint"; "group"]) as "module assignment target type is invalid" ;;
  reject negb (if bool_decide (targetType = "group") then bool_decide (targetID ∈ ed_groups s) else is_active targetID s) as ErrNotFound ;;
  Ok tt.

(** A new assignment of a release to the same target changes the ring and the switch of the old one. *)
Definition merge_assignment (old new : ModuleAssignment) : ModuleAssignment :=
  old <| ma_RingPercent := ma_RingPercent new |> <| ma_Enabled := ma_Enabled new |>.
Definition assignment_key (a : ModuleAssignment) : string * string * string := (ma_ReleaseID a, ma_TargetType a, ma_TargetID a).

Definition SaveAgentModuleAssignment (a : ModuleAssignment) : st EndpointDb unit := fun s =>
  match validateModuleAssignmentTarget s (ma_TargetType a) (ma_TargetID a) with
  | Err e => (Err e, s)
  | Ok _ =>
      match query_row (fun r => bool_decide (mr_ID r = ma_ReleaseID a)) (ed_module_releases s) with
      | None => (Err ErrNotFound, s)
      | Some r =>
          if negb (bool_decide (mr_Status r = ReleaseApproved)) then (Err ErrNotFound, s)
          else if negb (within 1 (ma_RingPercent a) 100) ||
                  existsb (fun b => bool_decide (ma_ID b = ma_ID a) && negb (bool_decide (assignment_key b = assignment_key a))) (ed_module_assignments s)
          then (Err ErrConstraint, s)
          else (Ok tt, s <| ed_module_assignments ::= upsert assignment_key merge_assignment a |>)
      end
  end.

(** 32-bit FNV-1a. *)
Fixpoint fnv32a_from (hash : Z) (s : string) : Z :=
  match s with
  | EmptyString => hash
  | String a s' => fnv32a_from (Z.lxor hash (byte_val a) * 16777619 mod 2 ^ 32) s'
  end.
Definition fnv32a (s : string) : Z := fnv32a_from 2166136261 s.

Definition inModuleRing (endpointID assignmentID : string) (percent : Z) : bool :=
  fnv32a (endpointID +:+ nul +:+ assignmentID) mod 100 <? percent.

Record ModuleOffer := mkOffer { Offer_ReleaseID : string; Offer_Envelope : string; Offer_Disabled : bool }.

(** [a.enabled=1 AND r.status='approved' AND (a.target_type='endpoint' AND a.target_id=e.id OR
    a.target_type='group' AND the endpoint's asset is in the group)], joined with the release. *)
Definition applicable_assignment (s : EndpointDb) (endpointID : string) (a : ModuleAssignment) : option (ModuleAssignment * ModuleRelease) :=
  if ma_Enabled a && bool_decide (endpointID ∈ Endpoint_ID <$> ed_endpoints s) && targets s endpointID (ma_TargetType a) (ma_TargetID a) then
    r ← query_row (fun r => bool_decide (mr_ID r = ma_ReleaseID a) && bool_decide (mr_Status r = ReleaseApproved)) (ed_module_releases s);
    Some (a, r)
  else None.

(** [ORDER BY CASE a.target_type WHEN 'endpoint' THEN 0 ELSE 1 END,a.created_at DESC] *)
Definition target_rank (a : ModuleAssignment) : Z := if bool_decide (ma_TargetType a = "endpoint") then 0 else 1.
Definition offer_ltb (x y : ModuleAssignment * ModuleRelease) : bool :=
  (target_rank x.1 <? target_rank y.1) ||
  ((target_rank x.1 =? target_rank y.1) && str_ltb (formatTime (ma_CreatedAt y.1)) (formatTime (ma_CreatedAt x.1))).

(** The loop over the rows: the offers and the modules selected so far. *)
Definition offer_step (endpointID agentVersion os arch : string) (acc : list ModuleOffer * gset string)
    (row : ModuleAssignment * ModuleRelease) : list ModuleOffer * gset string :=
  let '(a, r) := row in
  let m := mr_Manifest r in
  if bool_decide (Manifest_ID m ∈ acc.2) || negb (default false (Compatible m agentVersion os arch)) ||
     negb (inModuleRing endpointID (ma_ID a) (ma_RingPercent a))
  then acc
  else ((acc.1 ++ [mkOffer (mr_ID r) (mr_Envelope r) false])%list, {[ Manifest_ID m ]} ∪ acc.2).

Definition AgentModuleOffers (endpointID agentVersion os arch : string) (s : EndpointDb) : list ModuleOffer :=
  if negb (ed_modules_enabled s) then [mkOffer "" "" true]
  else (fold_left (offer_step endpointID agentVersion os arch)
          (sort_slice offer_ltb (omap (applicable_assignment s endpointID) (ed_module_assignments s))) ([], ∅)).1.

Definition RecordAgentModuleHealth (endpointID : string) (reports : list ModuleHealth) : st EndpointDb unit := fun s =>
  if negb (bool_decide (reports = [])) && negb (bool_decide (endpointID ∈ Endpoint_ID <$> ed_endpoints s)) then (Err ErrConstraint, s)
  else (Ok tt, s <| ed_module_health ::= fun m => fold_left (fun m r => <[(endpointID, Health_ModuleID r) := r]> m) reports m |>).

Definition SetAgentModulesEnabled (enabled : bool) : st EndpointDb unit := fun s => (Ok tt, s <| ed_modules_enabled := enabled |>).

(** * internal/agentmodulecatalog/service.go *)

Section service.
Context {MC : ModuleCrypto}.

Definition SavePublisher (keyID name publicKey : string) (enabled : bool) (actorID : string) (now : Time) : st EndpointDb unit := fun s =>
  let keyID := TrimSpace keyID in let name := TrimSpace name in
  if bool_decide (keyID = "") || bool_decide (name = "") || negb (strlen publicKey =? PublicKeySize)
  then (Err "publisher key ID, name, and Ed25519 public key are required", s)
  else SaveAgentModulePublisher (mkPublisher keyID name publicKey enabled actorID now) s.

Definition ImportModule (envelope actorID : string) (now : Time) : st EndpointDb ModuleRelease := fun s =>
  match peek_publisher envelope with
  | None => (Err "module envelope is invalid", s)
  | Some keyID =>
      if blank keyID then (Err "module publisher is missing", s) else
      match AgentModulePublisher keyID s with
      | Err _ => (Err "module publisher is not trusted", s)
      | Ok publisher =>
          if negb (Publisher_Enabled publisher) then (Err "module publisher is not trusted", s) else
          match VerifyModule envelope (Publisher_PublicKey publisher) (Publisher_KeyID publisher) with
          | Err e => (Err e, s)
          | Ok (manifest, pkg) =>
              match (if bool_decide (Manifest_Kind manifest = KindDeclarative) then ValidateDeclarativePackage pkg manifest else Ok tt) with
              | Err e => (Err e, s)
              | Ok _ =>
                  let release := mkModuleRelease (to_hex (String.substring 0 16 (package_sha256 envelope))) manifest envelope ReleaseStaged
                                   actorID now "" None "" None "" in
                  (_ ⇐ CreateAgentModuleRelease release ;; st_ret release) s
              end
          end
      end
  end.

Definition ApproveModule (id actorID : string) (now : Time) : st EndpointDb unit :=
  TransitionAgentModuleRelease id ReleaseStaged ReleaseApproved actorID "" now.

Definition RevokeModule (id reason actorID : string) (now : Time) : st EndpointDb unit := fun s =>
  let reason := TrimSpace reason in
  if bool_decide (reason = "") || (500 <? strlen reason) then (Err "revocation reason must be between 1 and 500 characters", s)
  else TransitionAgentModuleRelease id ReleaseApproved ReleaseRevoked actorID reason now s.

(** [id] is the random identifier it draws. *)
Definition AssignModule (id releaseID targetType targetID : string) (ringPercent : Z) (enabled : bool) (actorID : string) (now : Time)
  : st EndpointDb unit := fun s =>
  if (ringPercent <? 1) || (100 <? ringPercent) then (Err "deployment ring percentage must be between 1 and 100", s)
  else SaveAgentModuleAssignment (mkModuleAssignment id releaseID targetType targetID ringPercent enabled actorID now) s.
End service.

Example fnv32a_ex : fnv32a "a" = 0xe40c292c /\ fnv32a "foobar" = 0xbf9cf968.
Proof. vm_compute. auto. Qed.
