(* ===== verification/EndpointService.v ===== *)
(** The endpoint agents' half of internal/agentidentity/service.go: enrollment,
    renewal and revocation, the connection's identity, the check-in handler over
    the endpoint store, and the alerts of the endpoint list. Signing of
    integrity snapshots is internal/agentintegrity/signature.go. *)
From Stdlib Require Import ZArith Lia String Ascii.
From stdpp Require Import base tactics list strings gmap sets.
From coqutil Require Import Datatypes.RecordSettersUsingExistingGetters.
From S2P Require Import Prelude GoStrings GoTime GoLocation WorkerModel WorkerEvidence Sql WorkerStore WorkerIdentity WorkerService NetworkPolicy RelayWindow EndpointModel EndpointStore ModuleCatalog.
Open Scope string_scope.
Open Scope Z_scope.

(** * internal/agentintegrity *)

(** Canonical JSON of sequence and snapshot, SHA-256, base64 and ECDSA; the
    last argument of [integrity_sign] is the random source. *)
Class IntegrityCrypto := {
  canonical : Z -> AgentIntegritySnapshot -> option string;
  digest : string -> string;
  encode_signature : string -> string;
  decode_signature : string -> option string;
  IntegrityKey : Type;
  integrity_public : IntegrityKey -> string;
  integrity_sign : IntegrityKey -> string -> string -> string;
  integrity_verify : string -> string -> string -> bool }.
Class IntegrityCryptoLaws `{IntegrityCrypto} : Prop := {
  decode_encode : forall s, decode_signature (encode_signature s) = Some s;
  encode_nonempty : forall key d random, encode_signature (integrity_sign key d random) <> "";
  verify_sign : forall key d random, integrity_verify (integrity_public key) d (integrity_sign key d random) = true }.

Section integrity.
Context {IC : IntegrityCrypto}.

Definition SignIntegrity (key : IntegrityKey) (sequence : Z) (snapshot : AgentIntegritySnapshot) (random : string) : result SignedAgentIntegritySnapshot :=
  match canonical sequence snapshot with
  | None => Err "encode integrity snapshot"
  | Some payload =>
      Ok {| Envelope_Sequence := sequence; Envelope_Snapshot := snapshot;
            Envelope_Signature := encode_signature (integrity_sign key (digest payload) random) |}
  end.

Definition VerifyIntegrity (publicKey : string) (envelope : SignedAgentIntegritySnapshot) : result unit :=
  reject (Envelope_Sequence envelope =? 0) || bool_decide (Envelope_Signature envelope = "")
    as "integrity sequence and signature are required" ;;
  match decode_signature (Envelope_Signature envelope) with
  | None => Err "integrity signature is invalid"
  | Some signature =>
      match canonical (Envelope_Sequence envelope) (Envelope_Snapshot envelope) with
      | None => Err "encode integrity snapshot"
      | Some payload =>
          reject negb (integrity_verify publicKey (digest payload) signature) as "integrity signature verification failed" ;;
          Ok tt
      end
  end.
End integrity.

(** * Enrollment, renewal and revocation *)

Definition no_exclusions : NetworkTelemetryExclusions := mkExclusions [] [].
(** The columns of an enrolled endpoint; the others take their defaults. *)
Definition enrolled_endpoint (id name serial : string) (now expiresAt : Time) : Endpoint :=
  mkEndpoint id name EndpointActive serial now expiresAt None None None None None "" [] no_exclusions "" "" "" None.

Section service.
(** SHA-256, the certificate authority (serial and expiry it issues for an
    identifier, name and request), the Unicode tables, time zones and JSON. *)
Context (Sum256 : string -> string) (IssueEndpoint : string -> string -> string -> Time -> result (string * Time)).
Context {LC : LowerCase} {CF : CaseFolding} {TZ : TimeZones} {IC : IntegrityCrypto}.

(** With the identifier and token hash [newEnrollmentToken] drew. *)
Definition CreateEnrollmentToken (name actorID id hash : string) (now : Time) : st EndpointDb AgentEnrollmentToken := fun s =>
  let name := TrimSpace name in
  if bool_decide (name = "") || (endpointNameLimit <? strlen name)
  then (Err "endpoint name must be between 1 and 200 characters", s)
  else
    let token := mkAgentToken id name hash actorID now (Add now enrollmentTokenLifetime) in
    (_ ⇐ CreateAgentEnrollmentToken token ;; st_ret token) s.

(** With the random identifier. *)
Definition Enroll (token csrPEM id : string) (now : Time) : st EndpointDb Endpoint := fun s =>
  match enrollmentTokenHash Sum256 token with
  | None => (Err ErrInvalidEnrollmentToken, s)
  | Some hash =>
      match AgentEnrollmentTokenName hash now s with
      | Err _ => (Err ErrInvalidEnrollmentToken, s)
      | Ok name =>
          match IssueEndpoint id name csrPEM now with
          | Err e => (Err e, s)
          | Ok (serial, expiresAt) =>
              let endpoint := enrolled_endpoint id name serial now expiresAt in
              (_ ⇐ ConsumeAgentEnrollmentToken hash endpoint now ;; st_ret endpoint) s
          end
      end
  end.

Definition Renew (endpoint : Endpoint) (csrPEM : string) (now : Time) : st EndpointDb Endpoint := fun s =>
  if Before now (Add (Endpoint_ExpiresAt endpoint) (- certificateRenewBefore))
  then (Err "endpoint certificate is not within its renewal window", s)
  else
    match IssueEndpoint (Endpoint_ID endpoint) (Endpoint_Name endpoint) csrPEM now with
    | Err e => (Err e, s)
    | Ok (serial, expiresAt) =>
        let renewed := endpoint <| Endpoint_CertificateSerial := serial |> <| Endpoint_ExpiresAt := expiresAt |>
                                <| Endpoint_RenewedAt := Some now |> in
        (_ ⇐ RenewEndpointCertificate (Endpoint_CertificateSerial endpoint) (Endpoint_ID endpoint) serial expiresAt now ;;
         st_ret renewed) s
    end.

Definition Revoke (id reason : string) (now : Time) : st EndpointDb unit := fun s =>
  let reason := TrimSpace reason in
  if bool_decide (reason = "") || (revocationReasonLimit <? strlen reason)
  then (Err "revocation reason must be between 1 and 500 characters", s)
  else RevokeEndpointRow id reason now s.

Definition SetEndpointCollectors (id : string) (collectors : list CollectorID) : st EndpointDb unit := fun s =>
  match validateEndpointCollectors collectors with
  | Err e => (Err e, s)
  | Ok _ => SetEndpointCollectorsRow id collectors s
  end.

Definition SetEndpointNetworkExclusions (id : string) (exclusions : NetworkTelemetryExclusions) : st EndpointDb unit := fun s =>
  match Normalize exclusions with
  | Err e => (Err e, s)
  | Ok normalized => SetEndpointNetworkExclusionsRow id normalized s
  end.

(** * Connections *)

Definition endpointFromConnection (certificate : option (string * list string)) (now : Time) (s : EndpointDb) : result Endpoint :=
  match certificate with
  | None => Err "client certificate missing"
  | Some (serial, uris) =>
      match EndpointBySerial serial s with
      | Err _ => Err "endpoint certificate is not active"
      | Ok endpoint =>
          reject negb (bool_decide (Endpoint_Status endpoint = EndpointActive)) || negb (Before now (Endpoint_ExpiresAt endpoint))
            as "endpoint certificate is not active" ;;
          reject negb (existsb (fun uri => bool_decide (uri = "spiffe://mossward/endpoint/" +:+ Endpoint_ID endpoint)) uris)
            as "endpoint certificate identity mismatch" ;;
          Ok endpoint
      end
  end.

(** The TLS callback: a connection is one of an endpoint or of a scanner worker. *)
Definition verifyConnection (certificate : option (string * list string)) (now : Time) (s : EndpointDb) (workers : IdentityDb) : result unit :=
  match endpointFromConnection certificate now s with
  | Ok _ => Ok tt
  | Err _ => match workerFromConnection certificate now workers with Ok _ => Ok tt | Err e => Err e end
  end.

(** * The check-in *)

Record AgentCheckInResponse := mkCheckInResponse {
  Answer_EndpointID : string; Answer_ServerTime : Time; Answer_AllowedCollectors : list CollectorID;
  Answer_NetworkExclusions : NetworkTelemetryExclusions; Answer_UpdateEnvelope : option string; Answer_ModuleOffers : list ModuleOffer }.

(** A call of the store: its failure is answered with a status. *)
Definition store_step {A B} (m : st EndpointDb A) (status : error -> Z) (k : A -> EndpointDb -> Response B * EndpointDb)
  : EndpointDb -> Response B * EndpointDb := fun s =>
  match m s with
  | (Err e, s') => (refuse (status e), s')
  | (Ok a, s') => k a s'
  end.
Definition unavailable (_ : error) : Z := StatusServiceUnavailable.

(** An inventory is recorded when it was sent and its collector is allowed. *)
Definition record_when {A} (inventory : option A) (allowed : bool) (record : A -> st EndpointDb unit) : st EndpointDb unit :=
  match inventory with
  | Some i => if allowed then record i else st_ret tt
  | None => st_ret tt
  end.

Definition filtered_inventory (endpoint : Endpoint) (i : EndpointNetworkInventory) : EndpointNetworkInventory :=
  mkNetworkInventory (Filter (NetworkInv_Connections i) [Endpoint_NetworkExclusions endpoint]) (NetworkInv_CollectedAt i).

(** The integrity part: the envelope must verify under the key of the
    connection's certificate, an ECDSA key. *)
Definition record_integrity (certificate : option Certificate) (endpoint : Endpoint) (envelope : option SignedAgentIntegritySnapshot) (now : Time)
  : EndpointDb -> option Z * EndpointDb := fun s =>
  match envelope with
  | None => (None, s)
  | Some e =>
      match certificate with
      | Some c =>
          if negb (match Certificate_Key c with KeyECDSA => true | _ => false end) || negb (is_ok (VerifyIntegrity (Certificate_PublicKey c) e))
          then (Some StatusBadRequest, s)
          else match RecordEndpointIntegritySnapshot (Endpoint_ID endpoint) e now s with
               | (Ok _, s') => (None, s')
               | (Err e, s') => (Some (if bool_decide (e = ErrEndpointIntegrityReplay) then StatusConflict else StatusServiceUnavailable), s')
               end
      | None => (Some StatusBadRequest, s)
      end
  end.

(** The part of the handler after authentication: [refresh_software] and
    [refresh_network] are the outcomes of the matching the store runs on new
    inventories. *)
Definition check_in (certificate : option Certificate) (refresh_software refresh_network : option error) (heartbeat : AgentCheckIn) (now : Time)
    (endpoint : Endpoint) : EndpointDb -> Response AgentCheckInResponse * EndpointDb := fun s =>
  let id := Endpoint_ID endpoint in
  let allowed c := bool_decide (c ∈ Endpoint_AllowedCollectors endpoint) in
  if negb (CheckIn_SchemaVersion heartbeat =? 1) && negb (CheckIn_SchemaVersion heartbeat =? 2) then (refuse StatusBadRequest, s) else
  if negb (is_ok (validateEndpointCheckIn heartbeat)) then (refuse StatusBadRequest, s) else
  match record_integrity certificate endpoint (CheckIn_IntegritySnapshot heartbeat) now s with
  | (Some status, s) => (refuse status, s)
  | (None, s) =>
  store_step (RecordEndpointCheckIn id heartbeat now) unavailable (fun _ =>
  store_step (AgentUpdateOffer id now) unavailable (fun updateEnvelope =>
  store_step (RecordAgentModuleHealth id (CheckIn_ModuleHealth heartbeat)) unavailable (fun _ =>
  store_step (record_when (CheckIn_OSInventory heartbeat) (allowed CollectorOperatingSystem)
                (fun i => RecordEndpointOSInventory id i now)) unavailable (fun _ =>
  store_step (record_when (CheckIn_SoftwareInventory heartbeat) (allowed CollectorInstalledSoftware)
                (fun i => RecordEndpointSoftwareInventory refresh_software id i now)) unavailable (fun _ =>
  store_step (record_when (CheckIn_ListeningInventory heartbeat) (allowed CollectorListeningServices)
                (fun i => RecordEndpointListeningInventory id i now)) unavailable (fun _ =>
  store_step (record_when (CheckIn_PostureInventory heartbeat) (allowed CollectorSecurityPosture)
                (fun i => RecordEndpointPostureInventory id i now)) unavailable (fun _ =>
  store_step (record_when (CheckIn_NetworkInventory heartbeat) (allowed CollectorNetworkTelemetry)
                (fun i => RecordEndpointNetworkInventory refresh_network id (filtered_inventory endpoint i) now)) unavailable (fun _ s =>
  let offers := AgentModuleOffers id (CheckIn_SoftwareVersion heartbeat) (CheckIn_OperatingSystem heartbeat) (CheckIn_Architecture heartbeat) s in
  (respond StatusOK (Some (mkCheckInResponse id now (Endpoint_AllowedCollectors endpoint) (Endpoint_NetworkExclusions endpoint)
                             updateEnvelope offers)), s))))))))) s
  end.

(** A request of an endpoint agent. *)
Inductive agent_request :=
| AgentCheckInRequest (heartbeat : AgentCheckIn) (refresh_software refresh_network : option error)
| AgentRenewRequest (csrPEM : string).
Inductive agent_answer :=
| CheckInAnswer (r : AgentCheckInResponse)
| RenewAnswer (e : Endpoint).
Definition StatusCreated : Z := 201.

(** [Handler] on the two endpoint-agent paths, with the body decoded. *)
Definition agent_handler (certificate : option Certificate) (request : agent_request) (authAt now : Time) (s : EndpointDb)
  : Response agent_answer * EndpointDb :=
  match endpointFromConnection (WorkerService.connection_identity certificate) authAt s with
  | Err _ => (refuse StatusUnauthorized, s)
  | Ok endpoint =>
      match request with
      | AgentRenewRequest csrPEM =>
          match Renew endpoint csrPEM now s with
          | (Err _, s') => (refuse StatusBadRequest, s')
          | (Ok e, s') => (respond StatusCreated (Some (RenewAnswer e)), s')
          end
      | AgentCheckInRequest heartbeat refresh_software refresh_network =>
          let '(r, s') := check_in certificate refresh_software refresh_network heartbeat now endpoint s in
          (respond (Response_Status r) (CheckInAnswer <$> Response_Body r), s')
      end
  end.

(** * The endpoint list and its alerts *)

Definition minutes (n : Z) : Duration := wrap64 (n * Minute).

(** The instant the age of the last heartbeat is counted from. *)
Definition last_heartbeat (e : Endpoint) : Time :=
  match Endpoint_LastHeartbeatReceivedAt e with
  | Some t => t
  | None => match Endpoint_LastSeenAt e with Some t => t | None => Endpoint_EnrolledAt e end
  end.

Definition endpointAlerts (e : Endpoint) (hb : EndpointHeartbeatSettings) (inMaintenance relayWindowSuppressed : bool) (now : Time)
  : list EndpointAlert :=
  if bool_decide (Endpoint_Status e = EndpointRevoked)
  then [alert "certificate_revoked" "error" "Endpoint certificate is revoked"]
  else if negb (Before now (Endpoint_ExpiresAt e))
  then [alert "certificate_expired" "error" "Endpoint certificate has expired"]
  else
    let alerts := if negb (Before now (Add (Endpoint_ExpiresAt e) (- certificateRenewBefore)))
                  then [alert "certificate_expiring" "warning" "Endpoint certificate expires within 30 days"] else [] in
    if negb (hb_Enabled hb) then alerts
    else
      let age := Sub now (last_heartbeat e) in
      if inMaintenance && (minutes (hb_MissedAfterMinutes hb) <=? age)
      then (alerts ++ [alert "heartbeat_suppressed_maintenance" "info" "Heartbeat alert is suppressed by an active maintenance window"])%list
      else if relayWindowSuppressed && (minutes (hb_MissedAfterMinutes hb) <=? age)
      then (alerts ++ [alert "heartbeat_suppressed_upload_window" "info" "Heartbeat alert is suppressed by an approved relay upload window or grace period"])%list
      else if minutes (hb_StaleAfterMinutes hb) <=? age
      then (alerts ++ [alert "agent_stale" "error" "Endpoint agent has exceeded the stale-heartbeat threshold"])%list
      else if minutes (hb_MissedAfterMinutes hb) <=? age
      then (alerts ++ [alert "heartbeat_missed" "warning" "Endpoint agent has missed its heartbeat threshold"])%list
      else alerts.

(** Whether upload windows silence the endpoint's heartbeat alerts. *)
Definition relay_suppressed (id : string) (now : Time) (s : EndpointDb) : result bool :=
  policy ← ResolveDelayedHeartbeatPolicy id s;
  if rp_AllowDelayedHeartbeats policy
  then r ← HeartbeatAlertSuppression (RelayUploadWindowsForEndpoint id s) policy now; Ok (hs_Suppressed r)
  else Ok false.

(** One iteration of [Endpoints]. *)
Definition listed_endpoint (now : Time) (s : EndpointDb) (e : Endpoint) : result (Endpoint * list EndpointAlert) :=
  suppressed ← relay_suppressed (Endpoint_ID e) now s;
  Ok (e, endpointAlerts e (ed_heartbeat s) (EndpointInMaintenance (Endpoint_ID e) now s) suppressed now).

(** The loop reads the clock once per endpoint; [now] is the reading of each. *)
Definition Endpoints (now : Endpoint -> Time) (s : EndpointDb) : result (list (Endpoint * list EndpointAlert)) :=
  for_each (fun acc e => r ← listed_endpoint (now e) s e; Ok (acc ++ [r])%list) [] (ListEndpoints s).
End service.
