(* ===== verification/EndpointAdmin.v ===== *)
(** The administrator's requests on endpoints (internal/api/endpoint.go):
    heartbeat thresholds, maintenance windows, relay upload windows and
    delayed-heartbeat policies. The actor is the administrator the session
    was authorised for; bodies are decoded; audit events are not kept. *)
From Stdlib Require Import ZArith Lia String Ascii.
From stdpp Require Import base tactics list strings gmap sets.
From coqutil Require Import Datatypes.RecordSettersUsingExistingGetters.
From S2P Require Import Prelude GoStrings GoTime GoLocation WorkerModel Sql WorkerStore WorkerIdentity WorkerService RelayWindow EndpointModel EndpointStore EndpointService.
Open Scope string_scope.
Open Scope Z_scope.

Definition StatusNotFound : Z := 404.
Definition StatusInternalServerError : Z := 500.

(** The answer to a failed store call. *)
Definition store_failure (e : error) : Z := if bool_decide (e = ErrNotFound) then StatusNotFound else StatusInternalServerError.
(** A handler that ends with a store call: its failure, or [answer]. *)
Definition finish {A} (m : st EndpointDb unit) (answer : Response A) : EndpointDb -> Response A * EndpointDb := fun s =>
  match m s with
  | (Err e, s') => (refuse (store_failure e), s')
  | (Ok _, s') => (answer, s')
  end.

(** * Heartbeat thresholds *)

Definition validateEndpointHeartbeatSettings (settings : EndpointHeartbeatSettings) : result unit :=
  reject (hb_MissedAfterMinutes settings <? 1) || (1440 <? hb_MissedAfterMinutes settings)
    as "missed-heartbeat threshold must be between 1 minute and 24 hours" ;;
  reject (hb_StaleAfterMinutes settings <=? hb_MissedAfterMinutes settings) || (10080 <? hb_StaleAfterMinutes settings)
    as "stale-agent threshold must exceed the missed-heartbeat threshold and be no more than 7 days" ;;
  Ok tt.

(** [defaultEndpointHeartbeatSettings] *)
Definition defaultEndpointHeartbeatSettings : EndpointHeartbeatSettings := mkHeartbeatSettings true 5 30 "" ZeroTime.

Definition defaulted (settings : EndpointHeartbeatSettings) : EndpointHeartbeatSettings :=
  settings <| hb_MissedAfterMinutes ::= fun n => if n =? 0 then 5 else n |>
           <| hb_StaleAfterMinutes ::= fun n => if n =? 0 then 30 else n |>.

Definition updateEndpointHeartbeatSettings (actorID : string) (settings : EndpointHeartbeatSettings) (now : Time)
  : EndpointDb -> Response EndpointHeartbeatSettings * EndpointDb := fun s =>
  let settings := defaulted settings in
  if negb (is_ok (validateEndpointHeartbeatSettings settings)) then (refuse StatusBadRequest, s)
  else
    let settings := settings <| hb_UpdatedBy := actorID |> <| hb_UpdatedAt := now |> in
    match SetEndpointHeartbeatSettings settings s with
    | (Err _, s') => (refuse StatusInternalServerError, s')
    | (Ok _, s') => (respond StatusOK (Some settings), s')
    end.

(** * Maintenance windows *)

(** internal/model/maintenance.go, as a request gives it *)
Record EndpointMaintenanceWindow := mkMaintenanceWindow {
  mnt_Name : string; mnt_TargetType : string; mnt_TargetID : string; mnt_StartsAt : Time; mnt_EndsAt : Time; mnt_Reason : string }.

Definition validateEndpointMaintenanceWindow (window : EndpointMaintenanceWindow) (now : Time) : result unit :=
  reject bool_decide (mnt_Name window = "") || (100 <? strlen (mnt_Name window)) || bool_decide (mnt_Reason window = "") ||
         (500 <? strlen (mnt_Reason window))
    as "maintenance name and reason are required and must remain within their limits" ;;
  reject bool_decide (mnt_TargetID window = "") ||
         (negb (bool_decide (mnt_TargetType window = MaintenanceTargetEndpoint)) && negb (bool_decide (mnt_TargetType window = MaintenanceTargetGroup)))
    as "maintenance target must be an endpoint or group" ;;
  reject Before (mnt_StartsAt window) (Add now (- (5 * Minute))) || negb (After (mnt_EndsAt window) (mnt_StartsAt window)) ||
         negb (After (mnt_EndsAt window) now)
    as "maintenance window must start now or later and end in the future" ;;
  reject 30 * 24 * Hour <? Sub (mnt_EndsAt window) (mnt_StartsAt window) as "maintenance window cannot exceed 30 days" ;;
  Ok tt.

(** [id] is the random identifier it draws. *)
Definition createEndpointMaintenanceWindow (actorID id : string) (window : EndpointMaintenanceWindow) (now : Time)
  : EndpointDb -> Response EndpointMaintenanceWindow * EndpointDb := fun s =>
  let window := window <| mnt_Name ::= TrimSpace |> <| mnt_TargetID ::= TrimSpace |> <| mnt_Reason ::= TrimSpace |> in
  if negb (is_ok (validateEndpointMaintenanceWindow window now)) then (refuse StatusBadRequest, s)
  else finish (CreateEndpointMaintenanceWindow id (mnt_Name window) (mnt_TargetType window) (mnt_TargetID window) (mnt_Reason window) actorID
                 (mnt_StartsAt window) (mnt_EndsAt window) now) (respond StatusCreated (Some window)) s.

Definition cancelEndpointMaintenanceWindow (actorID id : string) (now : Time) : EndpointDb -> Response unit * EndpointDb :=
  finish (CancelEndpointMaintenanceWindow id actorID now) (respond StatusNoContent None).

(** * Upload windows *)

Section windows.
Context {TZ : TimeZones}.

Definition prepareRelayUploadWindow (w : RelayUploadWindow) : RelayUploadWindow :=
  mkRelayUploadWindow (rw_ID w) (TrimSpace (rw_Name w)) (rw_TargetType w) (TrimSpace (rw_TargetID w)) (TrimSpace (rw_Timezone w))
    (rw_Days w) (rw_StartMinute w) (rw_EndMinute w) (rw_Enabled w) (TrimSpace (rw_Reason w))
    (rw_CreatedBy w) (rw_CreatedAt w) (rw_UpdatedBy w) (rw_UpdatedAt w).

(** The columns the server sets itself. *)
Definition stamped (id : string) (enabled : bool) (createdBy : string) (createdAt : Time) (actorID : string) (now : Time) (w : RelayUploadWindow)
  : RelayUploadWindow :=
  mkRelayUploadWindow id (rw_Name w) (rw_TargetType w) (rw_TargetID w) (rw_Timezone w) (rw_Days w) (rw_StartMinute w) (rw_EndMinute w)
    enabled (rw_Reason w) createdBy createdAt actorID now.

(** With the random identifier. *)
Definition createRelayUploadWindow (actorID id : string) (window : RelayUploadWindow) (now : Time)
  : EndpointDb -> Response RelayUploadWindow * EndpointDb := fun s =>
  let window := prepareRelayUploadWindow (window <| rw_ID := "" |>) in
  if negb (is_ok (Validate window)) then (refuse StatusBadRequest, s)
  else
    let window := stamped id true actorID now actorID now window in
    finish (UpsertRelayUploadWindow window) (respond StatusCreated (Some window)) s.

Definition relayUploadWindow (id : string) (s : EndpointDb) : option RelayUploadWindow :=
  List.find (fun w => bool_decide (rw_ID w = id)) (ListRelayUploadWindows s).

Definition updateRelayUploadWindow (actorID id : string) (window : RelayUploadWindow) (now : Time)
  : EndpointDb -> Response RelayUploadWindow * EndpointDb := fun s =>
  match relayUploadWindow id s with
  | None => (refuse StatusNotFound, s)
  | Some existing =>
      let window := prepareRelayUploadWindow window in
      if negb (is_ok (Validate window)) then (refuse StatusBadRequest, s)
      else
        let window := stamped (rw_ID existing) (rw_Enabled window) (rw_CreatedBy existing) (rw_CreatedAt existing) actorID now window in
        finish (UpsertRelayUploadWindow window) (respond StatusOK (Some window)) s
  end.
End windows.

(** * Delayed-heartbeat policies *)

Definition delayedHeartbeatTargetType (value : string) : bool :=
  bool_decide (value = MaintenanceTargetEndpoint) || bool_decide (value = MaintenanceTargetGroup).

Definition updateDelayedHeartbeatPolicy (actorID targetType targetID : string) (allow : bool) (grace : Z) (reason : string) (now : Time)
  : EndpointDb -> Response DelayedHeartbeatPolicy * EndpointDb := fun s =>
  if negb (delayedHeartbeatTargetType targetType) then (refuse StatusBadRequest, s)
  else
    let policy := mkDelayedHeartbeatPolicy targetType (TrimSpace targetID) allow grace (TrimSpace reason) actorID now in
    if negb (is_ok (ValidatePolicy policy)) then (refuse StatusBadRequest, s)
    else finish (UpsertDelayedHeartbeatPolicy policy) (respond StatusOK (Some policy)) s.

Definition decodeRelayTransitionReason (reason : string) : option string :=
  let reason := TrimSpace reason in
  if bool_decide (reason = "") || (500 <? strlen reason) then None else Some reason.

Definition deleteDelayedHeartbeatPolicy (targetType targetID reason : string) : EndpointDb -> Response unit * EndpointDb := fun s =>
  if negb (delayedHeartbeatTargetType targetType) then (refuse StatusBadRequest, s)
  else match decodeRelayTransitionReason reason with
  | None => (refuse StatusBadRequest, s)
  | Some _ => finish (DeleteDelayedHeartbeatPolicy targetType (TrimSpace targetID)) (respond StatusNoContent None) s
  end.
