(* ===== verification/EndpointMachine.v ===== *)
(** The endpoint database as a state machine: the statements of the store, the
    operations of the services, and the decomposition of every operation into
    statements that satisfy what the services checked before. *)
From Stdlib Require Import ZArith Lia String Ascii.
From stdpp Require Import base tactics list strings gmap sets.
From coqutil Require Import Datatypes.RecordSettersUsingExistingGetters.
From S2P Require Import Prelude GoStrings GoTime GoLocation WorkerModel WorkerEvidence Sql WorkerStore WorkerIdentity WorkerService NetworkPolicy AgentModule RelayWindow AgentUpdate EndpointModel EndpointStore ModuleCatalog EndpointService EndpointAdmin.
Open Scope string_scope.
Open Scope Z_scope.

(** * Statements *)

Inductive stmt :=
| SToken (token : AgentEnrollmentToken)
| SConsume (hash : string) (endpoint : Endpoint) (now : Time)
| SRenew (oldSerial id serial : string) (expiresAt renewedAt : Time)
| SRevoke (id reason : string) (revokedAt : Time)
| SSeen (id : string) (seenAt : Time)
| SCollectors (id : string) (collectors : list CollectorID)
| SExclusions (id : string) (exclusions : NetworkTelemetryExclusions)
| SLinkAsset (id assetID : string)
| SSnapshot (id : string) (envelope : SignedAgentIntegritySnapshot) (receivedAt : Time)
| SCheckIn (id : string) (c : AgentCheckIn) (seenAt : Time)
| SOffer (id : string) (offeredAt : Time)
| SHealth (id : string) (reports : list ModuleHealth)
| SOS (id : string) (i : EndpointOSInventory) (receivedAt : Time)
| SSoftware (refresh : option error) (id : string) (i : EndpointSoftwareInventory) (receivedAt : Time)
| SListening (id : string) (i : EndpointListeningInventory) (receivedAt : Time)
| SPosture (id : string) (i : EndpointPostureInventory) (receivedAt : Time)
| SNetwork (refresh : option error) (id : string) (i : EndpointNetworkInventory) (receivedAt : Time)
| SHeartbeat (settings : EndpointHeartbeatSettings)
| SMaintenance (id name targetType targetID reason createdBy : string) (startsAt endsAt createdAt : Time)
| SCancelMaintenance (id actorID : string) (now : Time)
| SWindow (window : RelayUploadWindow)
| SPolicy (policy : DelayedHeartbeatPolicy)
| SDeletePolicy (targetType targetID : string)
| SGroups (groups : list string) (members : list (string * string))
| SRelease (r : AgentUpdateRelease)
| STransition (id from to actorID : string) (at_ : Time) (reason : string)
| SAssign (endpointID releaseID actorID : string) (assignedAt : Time)
| SPublisher (p : ModulePublisher)
| SModule (r : ModuleRelease)
| SModuleTransition (id from to actorID reason : string) (at_ : Time)
| SModuleAssign (a : ModuleAssignment)
| SModulesEnabled (enabled : bool).

Section machine.
Context {TZ : TimeZones}.

(** What a statement leaves; group membership is managed elsewhere and is set as a whole. *)
Definition exec (c : stmt) (s : EndpointDb) : EndpointDb :=
  match c with
  | SToken token => (CreateAgentEnrollmentToken token s).2
  | SConsume hash endpoint now => (ConsumeAgentEnrollmentToken hash endpoint now s).2
  | SRenew oldSerial id serial expiresAt renewedAt => (RenewEndpointCertificate oldSerial id serial expiresAt renewedAt s).2
  | SRevoke id reason revokedAt => (RevokeEndpointRow id reason revokedAt s).2
  | SSeen id seenAt => (MarkEndpointSeen id seenAt s).2
  | SCollectors id collectors => (SetEndpointCollectorsRow id collectors s).2
  | SExclusions id exclusions => (SetEndpointNetworkExclusionsRow id exclusions s).2
  | SLinkAsset id assetID => (LinkEndpointAsset id assetID s).2
  | SSnapshot id envelope receivedAt => (RecordEndpointIntegritySnapshot id envelope receivedAt s).2
  | SCheckIn id c seenAt => (RecordEndpointCheckIn id c seenAt s).2
  | SOffer id offeredAt => (AgentUpdateOffer id offeredAt s).2
  | SHealth id reports => (RecordAgentModuleHealth id reports s).2
  | SOS id i receivedAt => (RecordEndpointOSInventory id i receivedAt s).2
  | SSoftware refresh id i receivedAt => (RecordEndpointSoftwareInventory refresh id i receivedAt s).2
  | SListening id i receivedAt => (RecordEndpointListeningInventory id i receivedAt s).2
  | SPosture id i receivedAt => (RecordEndpointPostureInventory id i receivedAt s).2
  | SNetwork refresh id i receivedAt => (RecordEndpointNetworkInventory refresh id i receivedAt s).2
  | SHeartbeat settings => (SetEndpointHeartbeatSettings settings s).2
  | SMaintenance id name targetType targetID reason createdBy startsAt endsAt createdAt =>
      (CreateEndpointMaintenanceWindow id name targetType targetID reason createdBy startsAt endsAt createdAt s).2
  | SCancelMaintenance id actorID now => (CancelEndpointMaintenanceWindow id actorID now s).2
  | SWindow window => (UpsertRelayUploadWindow window s).2
  | SPolicy policy => (UpsertDelayedHeartbeatPolicy policy s).2
  | SDeletePolicy targetType targetID => (DeleteDelayedHeartbeatPolicy targetType targetID s).2
  | SGroups groups members => s <| ed_groups := groups |> <| ed_members := members |>
  | SRelease r => (CreateAgentUpdateRelease r s).2
  | STransition id from to actorID at_ reason => (transitionAgentUpdate id from to actorID at_ reason s).2
  | SAssign endpointID releaseID actorID assignedAt => (AssignAgentUpdateRow endpointID releaseID actorID assignedAt s).2
  | SPublisher p => (SaveAgentModulePublisher p s).2
  | SModule r => (CreateAgentModuleRelease r s).2
  | SModuleTransition id from to actorID reason at_ => (TransitionAgentModuleRelease id from to actorID reason at_ s).2
  | SModuleAssign a => (SaveAgentModuleAssignment a s).2
  | SModulesEnabled enabled => (SetAgentModulesEnabled enabled s).2
  end.
Definition exec_all (cs : list stmt) (s : EndpointDb) : EndpointDb := fold_left (fun s c => exec c s) cs s.

Lemma exec_all_ind (P : EndpointDb -> Prop) (ok : stmt -> Prop) cs s :
  (forall c s, ok c -> P s -> P (exec c s)) -> Forall ok cs -> P s -> P (exec_all cs s).
Proof. intros Hstep. revert s. induction cs as [|c cs IH]; intros s; [done|]. intros [Hc Hcs]%Forall_cons H. apply IH; [done|]. by apply Hstep. Qed.

Lemma exec_all_app cs cs' s : exec_all (cs ++ cs') s = exec_all cs' (exec_all cs s).
Proof. apply fold_left_app. Qed.

(** The endpoint whose request a statement serves. *)
Definition stmt_endpoint (c : stmt) : option string :=
  match c with
  | SRenew _ id _ _ _ | SSnapshot id _ _ | SCheckIn id _ _ | SOffer id _ | SHealth id _ | SOS id _ _ | SSoftware _ id _ _
  | SListening id _ _ | SPosture id _ _ | SNetwork _ id _ _ => Some id
  | _ => None
  end.

(** * Operations *)

Inductive endpoint_op :=
| OpCreateToken (name actorID id hash : string) (now : Time)
| OpEnroll (token csrPEM id : string) (now : Time)
| OpRequest (certificate : option Certificate) (request : agent_request) (authAt now : Time)
| OpRevoke (id reason : string) (now : Time)
| OpCollectors (id : string) (collectors : list CollectorID)
| OpExclusions (id : string) (exclusions : NetworkTelemetryExclusions)
| OpLinkAsset (id assetID : string)
| OpHeartbeat (actorID : string) (settings : EndpointHeartbeatSettings) (now : Time)
| OpMaintenance (actorID id : string) (window : EndpointMaintenanceWindow) (now : Time)
| OpCancelMaintenance (actorID id : string) (now : Time)
| OpCreateWindow (actorID id : string) (window : RelayUploadWindow) (now : Time)
| OpUpdateWindow (actorID id : string) (window : RelayUploadWindow) (now : Time)
| OpPolicy (actorID targetType targetID : string) (allow : bool) (grace : Z) (reason : string) (now : Time)
| OpDeletePolicy (targetType targetID reason : string)
| OpGroups (groups : list string) (members : list (string * string))
| OpImportUpdate (envelope actorID : string) (now : Time)
| OpApproveUpdate (id actorID : string) (now : Time)
| OpRevokeUpdate (id reason actorID : string) (now : Time)
| OpAssignUpdate (endpointID releaseID actorID : string) (now : Time)
| OpPublisher (keyID name publicKey : string) (enabled : bool) (actorID : string) (now : Time)
| OpImportModule (envelope actorID : string) (now : Time)
| OpApproveModule (id actorID : string) (now : Time)
| OpRevokeModule (id reason actorID : string) (now : Time)
| OpAssignModule (id releaseID targetType targetID : string) (ringPercent : Z) (enabled : bool) (actorID : string) (now : Time)
| OpModulesEnabled (enabled : bool).

Context (Sum256 : string -> string) (IssueEndpoint : string -> string -> string -> Time -> result (string * Time)).
Context {LC : LowerCase} {CF : CaseFolding} {IC : IntegrityCrypto} {UC : UpdateCrypto} {MC : ModuleCrypto}.
(** The trusted update key of the catalog. *)
Context (svc : UpdateService).

Definition run_endpoint (op : endpoint_op) (s : EndpointDb) : EndpointDb :=
  match op with
  | OpCreateToken name actorID id hash now => (CreateEnrollmentToken name actorID id hash now s).2
  | OpEnroll token csrPEM id now => (Enroll Sum256 IssueEndpoint token csrPEM id now s).2
  | OpRequest certificate request authAt now => (agent_handler IssueEndpoint certificate request authAt now s).2
  | OpRevoke id reason now => (Revoke id reason now s).2
  | OpCollectors id collectors => (SetEndpointCollectors id collectors s).2
  | OpExclusions id exclusions => (SetEndpointNetworkExclusions id exclusions s).2
  | OpLinkAsset id assetID => (LinkEndpointAsset id assetID s).2
  | OpHeartbeat actorID settings now => (updateEndpointHeartbeatSettings actorID settings now s).2
  | OpMaintenance actorID id window now => (createEndpointMaintenanceWindow actorID id window now s).2
  | OpCancelMaintenance actorID id now => (cancelEndpointMaintenanceWindow actorID id now s).2
  | OpCreateWindow actorID id window now => (createRelayUploadWindow actorID id window now s).2
  | OpUpdateWindow actorID id window now => (updateRelayUploadWindow actorID id window now s).2
  | OpPolicy actorID targetType targetID allow grace reason now =>
      (updateDelayedHeartbeatPolicy actorID targetType targetID allow grace reason now s).2
  | OpDeletePolicy targetType targetID reason => (deleteDelayedHeartbeatPolicy targetType targetID reason s).2
  | OpGroups groups members => s <| ed_groups := groups |> <| ed_members := members |>
  | OpImportUpdate envelope actorID now => (UpdateService_Import svc envelope actorID now s).2
  | OpApproveUpdate id actorID now => (UpdateService_Approve id actorID now s).2
  | OpRevokeUpdate id reason actorID now => (UpdateService_Revoke id reason actorID now s).2
  | OpAssignUpdate endpointID releaseID actorID now => (UpdateService_Assign endpointID releaseID actorID now s).2
  | OpPublisher keyID name publicKey enabled actorID now => (SavePublisher keyID name publicKey enabled actorID now s).2
  | OpImportModule envelope actorID now => (ImportModule envelope actorID now s).2
  | OpApproveModule id actorID now => (ApproveModule id actorID now s).2
  | OpRevokeModule id reason actorID now => (RevokeModule id reason actorID now s).2
  | OpAssignModule id releaseID targetType targetID ringPercent enabled actorID now =>
      (AssignModule id releaseID targetType targetID ringPercent enabled actorID now s).2
  | OpModulesEnabled enabled => (SetAgentModulesEnabled enabled s).2
  end.
Definition run_endpoints (ops : list endpoint_op) (s : EndpointDb) : EndpointDb := fold_left (fun s op => run_endpoint op s) ops s.

(** * What the services checked *)

(** An update release carries an envelope that verified under the catalog's key. *)
Definition release_verified (r : AgentUpdateRelease) : Prop :=
  exists now m, Verify (Release_Envelope r) (us_key svc) (us_keyID svc) now = Ok m /\
    um_Version m = Release_Version r /\ um_OperatingSystem m = Release_OperatingSystem r /\ um_Architecture m = Release_Architecture r /\
    um_ArtifactSHA256 m = Release_ArtifactSHA256 r.
(** A module release carries an envelope that verified under a publisher's key. *)
Definition module_verified (r : ModuleRelease) : Prop :=
  exists publicKey keyID pkg, VerifyModule (mr_Envelope r) publicKey keyID = Ok (mr_Manifest r, pkg) /\
    (Manifest_Kind (mr_Manifest r) = KindDeclarative -> ValidateDeclarativePackage pkg (mr_Manifest r) = Ok tt).

Definition stmt_ok (c : stmt) : Prop :=
  match c with
  | SToken t => 1 <= strlen (AgentToken_Name t) <= endpointNameLimit
  | SConsume _ e _ => Endpoint_Status e = EndpointActive /\ Endpoint_AllowedCollectors e = [] /\ Endpoint_NetworkExclusions e = no_exclusions
  | SCollectors _ cs => validateEndpointCollectors cs = Ok tt
  | SExclusions _ x => exists policy, Normalize policy = Ok x
  | SHeartbeat settings => validateEndpointHeartbeatSettings settings = Ok tt
  | SSnapshot _ e _ => validateIntegritySnapshot (Some e) = Ok tt
  | SOS _ i _ => validateOSInventory (Some i) = Ok tt
  | SSoftware _ _ i _ => validateSoftwareInventory (Some i) = Ok tt
  | SListening _ i _ => validateListeningInventory (Some i) = Ok tt
  | SPosture _ i _ => validatePostureInventory (Some i) = Ok tt
  | SNetwork _ _ i _ => validateNetworkInventory (Some i) = Ok tt
  | SRelease r => release_verified r /\ Release_Status r = AgentUpdateStaged
  | STransition _ from to _ _ _ => (from, to) = (AgentUpdateStaged, AgentUpdateApproved) \/ (from, to) = (AgentUpdateApproved, AgentUpdateRevoked)
  | SModule r => module_verified r /\ mr_Status r = ReleaseStaged
  | SModuleTransition _ from to _ _ _ => (from, to) = (ReleaseStaged, ReleaseApproved) \/ (from, to) = (ReleaseApproved, ReleaseRevoked)
  | _ => True
  end.
End machine.
