(* ===== verification/EndpointSafety.v ===== *)
(** Every operation on the endpoints is a sequence of checked statements; the
    identity part of the invariant, and what a request can change. *)
From Stdlib Require Import ZArith Lia String Ascii.
From stdpp Require Import base tactics list strings gmap sets.
From coqutil Require Import Datatypes.RecordSettersUsingExistingGetters.
From S2P Require Import Prelude GoStrings GoTime GoLocation WorkerModel WorkerEvidence Sql WorkerStore WorkerIdentity WorkerService NetworkPolicy AgentModule RelayWindow AgentUpdate EndpointModel EndpointStore ModuleCatalog EndpointService EndpointAdmin EndpointMachine.
Open Scope string_scope.
Open Scope Z_scope.

Section safety.
Context {TZ : TimeZones} (Sum256 : string -> string) (IssueEndpoint : string -> string -> string -> Time -> result (string * Time)).
Context {LC : LowerCase} {CF : CaseFolding} {IC : IntegrityCrypto} {UC : UpdateCrypto} {MC : ModuleCrypto} (svc : UpdateService).

Abbreviation stmt_ok := (stmt_ok svc).
Abbreviation run_endpoint := (run_endpoint Sum256 IssueEndpoint svc).
Abbreviation run_endpoints := (run_endpoints Sum256 IssueEndpoint svc).

(** * Decomposition *)

(** What [f] does to the database is a sequence of [good] statements. *)
Definition decomposes (good : stmt -> Prop) (f : EndpointDb -> EndpointDb) : Prop :=
  forall s, exists cs, Forall good cs /\ f s = exec_all cs s.

Lemma decomposes_none good f : (forall s, f s = s) -> decomposes good f.
Proof. intros H s. exists []. split; [constructor|apply H]. Qed.

Lemma decomposes_one good (c : stmt) f : good c -> (forall s, f s = exec c s) -> decomposes good f.
Proof. intros Hc H s. exists [c]. split; [by constructor|]. simpl. apply H. Qed.

Lemma decomposes_step {A B} good (m : st EndpointDb A) status (k : A -> EndpointDb -> Response B * EndpointDb) :
  decomposes good (fun s => (m s).2) -> (forall a, decomposes good (fun s => (k a s).2)) ->
  decomposes good (fun s => (store_step m status k s).2).
Proof.
  intros Hm Hk s. destruct (Hm s) as (cs & Hcs & E). unfold store_step. destruct (m s) as [[a|e] s']; simpl in E; [|by exists cs].
  destruct (Hk a s') as (cs' & Hcs' & ->). exists (cs ++ cs')%list. split; [by apply Forall_app|]. by rewrite exec_all_app, E.
Qed.

Lemma decomposes_when {A} good (inventory : option A) allowed record :
  (forall i, inventory = Some i -> allowed = true -> decomposes good (fun s => (record i s).2)) ->
  decomposes good (fun s => (record_when inventory allowed record s).2).
Proof. intros H. unfold record_when. destruct inventory as [i|]; [destruct allowed|]; [by apply H|by apply decomposes_none..]. Qed.

Lemma decomposes_case good (b : bool) (f g : EndpointDb -> EndpointDb) :
  (b = true -> decomposes good f) -> (b = false -> decomposes good g) -> decomposes good (fun s => if b then f s else g s).
Proof. destruct b; auto. Qed.

(** The network inventory a check-in stores is a part of the validated one. *)
Lemma filter_fmap_NoDup {A} (f : A -> string) (p : A -> bool) l : NoDup (f <$> l) -> NoDup (f <$> List.filter p l).
Proof.
  induction l as [|x l IH]; [done|]. simpl. intros [Hx Hnd]%NoDup_cons. destruct (p x); [|by apply IH].
  simpl. apply NoDup_cons. split; [|by apply IH]. intros (y & E & Hy)%list_elem_of_fmap. apply Hx. rewrite E.
  apply list_elem_of_fmap_2. by apply elem_of_select_where in Hy as [? _].
Qed.

Lemma filtered_inventory_valid endpoint i :
  validateNetworkInventory (Some i) = Ok tt -> validateNetworkInventory (Some (filtered_inventory endpoint i)) = Ok tt.
Proof.
  unfold validateNetworkInventory, filtered_inventory. simpl. intros H. apply reject_ok in H as [Hc H]. apply try_ok in H as [H _].
  apply check_distinct_ok in H as [Hf Hnd]. apply orb_false_iff in Hc as [Hz Hl]. rewrite Hz. simpl.
  replace (10000 <? Z.of_nat (length (Filter (NetworkInv_Connections i) [Endpoint_NetworkExclusions endpoint]))) with false.
  - match goal with |- (match for_each ?b ?x ?l with _ => _ end) = _ => assert (C : is_ok (for_each b x l) = true) end.
    { apply check_distinct_ok. unfold Filter. split; [|by apply filter_fmap_NoDup]. rewrite Forall_forall in *.
      intros c Hc. apply Hf. by apply elem_of_Filter in Hc as [? _]. }
    by destruct (for_each _ _ _).
  - symmetry. apply Z.ltb_ge. apply Z.ltb_ge in Hl. etransitivity; [|exact Hl]. apply inj_le.
    unfold Filter. apply List.filter_length_le.
Qed.

(** A request runs statements of the endpoint it is authenticated as. *)
Definition request_stmt (id : string) (c : stmt) : Prop := stmt_endpoint c = Some id /\ stmt_ok c.

(** The inventories it stores were sent, by collectors that are allowed. *)
Definition collection_ok (endpoint : Endpoint) (heartbeat : AgentCheckIn) (c : stmt) : Prop :=
  match c with
  | SOS _ i _ => CollectorOperatingSystem ∈ Endpoint_AllowedCollectors endpoint /\ CheckIn_OSInventory heartbeat = Some i
  | SSoftware _ _ i _ => CollectorInstalledSoftware ∈ Endpoint_AllowedCollectors endpoint /\ CheckIn_SoftwareInventory heartbeat = Some i
  | SListening _ i _ => CollectorListeningServices ∈ Endpoint_AllowedCollectors endpoint /\ CheckIn_ListeningInventory heartbeat = Some i
  | SPosture _ i _ => CollectorSecurityPosture ∈ Endpoint_AllowedCollectors endpoint /\ CheckIn_PostureInventory heartbeat = Some i
  | SNetwork _ _ i _ => CollectorNetworkTelemetry ∈ Endpoint_AllowedCollectors endpoint /\
                        exists sent, CheckIn_NetworkInventory heartbeat = Some sent /\ i = filtered_inventory endpoint sent
  | _ => True
  end.
Definition check_in_stmt (endpoint : Endpoint) (heartbeat : AgentCheckIn) (c : stmt) : Prop :=
  request_stmt (Endpoint_ID endpoint) c /\ collection_ok endpoint heartbeat c.

Lemma validated_check_in c : is_ok (validateEndpointCheckIn c) = true ->
  validateIntegritySnapshot (CheckIn_IntegritySnapshot c) = Ok tt /\ validateOSInventory (CheckIn_OSInventory c) = Ok tt /\
  validateSoftwareInventory (CheckIn_SoftwareInventory c) = Ok tt /\ validateListeningInventory (CheckIn_ListeningInventory c) = Ok tt /\
  validatePostureInventory (CheckIn_PostureInventory c) = Ok tt /\ validateNetworkInventory (CheckIn_NetworkInventory c) = Ok tt.
Proof.
  assert (G : forall r : result unit, is_ok r = true -> r = Ok tt) by (by intros [[]|]).
  intros H%G. unfold validateEndpointCheckIn in H. do 4 apply reject_ok in H as [_ H]. apply try_ok in H as [H1 H].
  apply reject_ok in H as [_ H]. apply try_ok in H as [_ H]. apply try_ok in H as [H2 H]. apply try_ok in H as [H3 H].
  apply try_ok in H as [H4 H]. apply try_ok in H as [H5 H]. apply try_ok in H as [H6 _]. split_and!; by apply G.
Qed.

Ltac one c := apply (decomposes_one _ c); [split; [split; [done|]|]|done].

Lemma check_in_decomposes certificate rs rn heartbeat now endpoint :
  decomposes (check_in_stmt endpoint heartbeat) (fun s => (check_in certificate rs rn heartbeat now endpoint s).2).
Proof.
  unfold check_in. cbv zeta. intros s. case_if; [exists []; split; [constructor|done]|]. case_if; [exists []; split; [constructor|done]|].
  apply negb_false_iff in E0. apply validated_check_in in E0 as (Vi & Vo & Vs & Vl & Vp & Vn).
  match goal with |- context [record_integrity ?c ?e ?x ?n s] => destruct (record_integrity c e x n s) as [r s'] eqn:Er end.
  assert (Hi : exists cs, Forall (check_in_stmt endpoint heartbeat) cs /\ s' = exec_all cs s).
  { unfold record_integrity in Er. destruct (CheckIn_IntegritySnapshot heartbeat) as [e|];
      [|injection Er as <- <-; by exists []; split; [constructor|]].
    destruct certificate as [c|]; [|injection Er as <- <-; by exists []; split; [constructor|]].
    case_if_in Er; [injection Er as <- <-; by exists []; split; [constructor|]|].
    exists [SSnapshot (Endpoint_ID endpoint) e now]. split; [by repeat constructor|]. simpl.
    destruct (RecordEndpointIntegritySnapshot _ _ _ _) as [[]]; by injection Er as <- <-. }
  destruct Hi as (cs & Hcs & ->). destruct r as [status|]; [by exists cs|].
  match goal with |- exists _, _ /\ (?f (exec_all cs s)).2 = _ =>
    assert (D : decomposes (check_in_stmt endpoint heartbeat) (fun s => (f s).2)) end.
  { apply decomposes_step; [one (SCheckIn (Endpoint_ID endpoint) heartbeat now); done|intros _].
    apply decomposes_step; [one (SOffer (Endpoint_ID endpoint) now); done|intros u].
    apply decomposes_step; [one (SHealth (Endpoint_ID endpoint) (CheckIn_ModuleHealth heartbeat)); done|intros _].
    apply decomposes_step; [apply decomposes_when; intros i Hi Ha%bool_decide_eq_true; rewrite Hi in Vo; one (SOS (Endpoint_ID endpoint) i now); done|intros _].
    apply decomposes_step; [apply decomposes_when; intros i Hi Ha%bool_decide_eq_true; rewrite Hi in Vs; one (SSoftware rs (Endpoint_ID endpoint) i now); done|intros _].
    apply decomposes_step; [apply decomposes_when; intros i Hi Ha%bool_decide_eq_true; rewrite Hi in Vl; one (SListening (Endpoint_ID endpoint) i now); done|intros _].
    apply decomposes_step; [apply decomposes_when; intros i Hi Ha%bool_decide_eq_true; rewrite Hi in Vp; one (SPosture (Endpoint_ID endpoint) i now); done|intros _].
    apply decomposes_step.
    - apply decomposes_when; intros i Hi Ha%bool_decide_eq_true; rewrite Hi in Vn.
      one (SNetwork rn (Endpoint_ID endpoint) (filtered_inventory endpoint i) now); [by apply filtered_inventory_valid|].
      split; [done|]. by exists i.
    - intros _. by apply decomposes_none. }
  destruct (D (exec_all cs s)) as (cs' & Hcs' & ->). exists (cs ++ cs')%list. split; [by apply Forall_app|]. by rewrite exec_all_app.
Qed.

Lemma agent_handler_decomposes certificate request authAt now s :
  ((agent_handler IssueEndpoint certificate request authAt now s).2 = s /\
   Response_Status (agent_handler IssueEndpoint certificate request authAt now s).1 = StatusUnauthorized) \/
  exists endpoint, endpointFromConnection (WorkerService.connection_identity certificate) authAt s = Ok endpoint /\
    exists cs, Forall (request_stmt (Endpoint_ID endpoint)) cs /\
      (agent_handler IssueEndpoint certificate request authAt now s).2 = exec_all cs s.
Proof.
  unfold agent_handler. destruct (endpointFromConnection _ _ _) as [endpoint|]; [|by left]. right. exists endpoint. split; [done|].
  destruct request as [heartbeat rs rn|csrPEM].
  - destruct (check_in_decomposes certificate rs rn heartbeat now endpoint s) as (cs & Hcs & E).
    destruct (check_in _ _ _ _ _ _ s) as [r s']. simpl in *. exists cs. split; [|done]. eapply Forall_impl; [exact Hcs|]. by intros c [? _].
  - unfold Renew. case_if; [by exists []; split; [constructor|]|].
    destruct (IssueEndpoint _ _ _ _) as [[serial expiresAt]|]; [|by exists []; split; [constructor|]].
    exists [SRenew (Endpoint_CertificateSerial endpoint) (Endpoint_ID endpoint) serial expiresAt now].
    split; [by repeat constructor|]. simpl. unfold st_bind.
    by destruct (RenewEndpointCertificate _ _ _ _ _ s) as [[]].
Qed.

Lemma finish_state {A} (m : st EndpointDb unit) (answer : Response A) s : (finish m answer s).2 = (m s).2.
Proof. unfold finish. by destruct (m s) as [[]]. Qed.

(** Every operation of the services runs checked statements. *)
Lemma run_endpoint_decomposes op : decomposes stmt_ok (run_endpoint op).
Proof.
  assert (Hnone : forall s, exists cs, Forall stmt_ok cs /\ s = exec_all cs s) by (intros s; by exists []; split; [constructor|]).
  assert (Hone : forall c s s', stmt_ok c -> s' = exec c s -> exists cs, Forall stmt_ok cs /\ s' = exec_all cs s)
    by (intros c s s' Hc ->; exists [c]; split; [by constructor|done]).
  destruct op; intros s; cbn [EndpointMachine.run_endpoint].
  - unfold CreateEnrollmentToken. case_if; [apply Hnone|]. apply (Hone (SToken (mkAgentToken id (TrimSpace name) hash actorID now (Add now enrollmentTokenLifetime)))).
    + simpl. reflect_bools. unfold strlen in *. destruct (TrimSpace name); [done|]. simpl in *. lia.
    + unfold st_bind. simpl. by destruct (CreateAgentEnrollmentToken _ s) as [[]].
  - unfold Enroll. destruct (enrollmentTokenHash _ _) as [hash|]; [|apply Hnone]. destruct (AgentEnrollmentTokenName _ _ _) as [name|]; [|apply Hnone].
    destruct (IssueEndpoint _ _ _ _) as [[serial expiresAt]|]; [|apply Hnone].
    apply (Hone (SConsume hash (enrolled_endpoint id name serial now expiresAt) now)); [done|].
    unfold st_bind. simpl. by destruct (ConsumeAgentEnrollmentToken _ _ _ s) as [[]].
  - destruct (agent_handler_decomposes certificate request authAt now s) as [[-> _]|(e & _ & cs & Hcs & ->)]; [apply Hnone|].
    exists cs. split; [|done]. eapply Forall_impl; [exact Hcs|]. by intros c [_ ?].
  - unfold Revoke. case_if; [apply Hnone|]. by apply (Hone (SRevoke id (TrimSpace reason) now)).
  - unfold SetEndpointCollectors. destruct (validateEndpointCollectors collectors) as [[]|] eqn:E; [|apply Hnone].
    by apply (Hone (SCollectors id collectors)).
  - unfold SetEndpointNetworkExclusions. destruct (Normalize exclusions) as [x|] eqn:E; [|apply Hnone].
    apply (Hone (SExclusions id x)); [by exists exclusions|done].
  - by apply (Hone (SLinkAsset id assetID)).
  - unfold updateEndpointHeartbeatSettings. cbv zeta. destruct (validateEndpointHeartbeatSettings _) as [[]|] eqn:E; [|apply Hnone].
    apply (Hone (SHeartbeat (defaulted settings <| hb_UpdatedBy := actorID |> <| hb_UpdatedAt := now |>))); [exact E|reflexivity].
  - unfold createEndpointMaintenanceWindow. cbv zeta. case_if; [apply Hnone|]. rewrite finish_state.
    by apply (Hone (SMaintenance id (TrimSpace (mnt_Name window)) (mnt_TargetType window) (TrimSpace (mnt_TargetID window))
      (TrimSpace (mnt_Reason window)) actorID (mnt_StartsAt window) (mnt_EndsAt window) now)).
  - unfold cancelEndpointMaintenanceWindow. rewrite finish_state. by apply (Hone (SCancelMaintenance id actorID now)).
  - unfold createRelayUploadWindow. cbv zeta. case_if; [apply Hnone|]. rewrite finish_state.
    match goal with |- context [UpsertRelayUploadWindow ?w s] => apply (Hone (SWindow w)); [exact I|reflexivity] end.
  - unfold updateRelayUploadWindow. destruct (relayUploadWindow _ _); [|apply Hnone]. cbv zeta. case_if; [apply Hnone|]. rewrite finish_state.
    match goal with |- context [UpsertRelayUploadWindow ?w s] => apply (Hone (SWindow w)); [exact I|reflexivity] end.
  - unfold updateDelayedHeartbeatPolicy. case_if; [apply Hnone|]. cbv zeta. case_if; [apply Hnone|]. rewrite finish_state.
    match goal with |- context [UpsertDelayedHeartbeatPolicy ?p s] => apply (Hone (SPolicy p)); [exact I|reflexivity] end.
  - unfold deleteDelayedHeartbeatPolicy. case_if; [apply Hnone|]. destruct (decodeRelayTransitionReason _); [|apply Hnone]. rewrite finish_state.
    by apply (Hone (SDeletePolicy targetType (TrimSpace targetID))).
  - by apply (Hone (SGroups groups members)).
  - unfold UpdateService_Import. destruct (Verify _ _ _ _) as [m|] eqn:E; [|apply Hnone].
    apply (Hone (SRelease (imported_release (us_keyID svc) envelope actorID m now))).
    + split; [|done]. by exists now, m.
    + unfold st_bind. simpl. by destruct (CreateAgentUpdateRelease _ s) as [[]].
  - apply (Hone (STransition id AgentUpdateStaged AgentUpdateApproved actorID now "")); [by left|done].
  - unfold UpdateService_Revoke. case_if; [apply Hnone|].
    apply (Hone (STransition id AgentUpdateApproved AgentUpdateRevoked actorID now (TrimSpace reason))); [by right|done].
  - unfold UpdateService_Assign. case_if; [apply Hnone|]. by apply (Hone (SAssign (TrimSpace endpointID) (TrimSpace releaseID) actorID now)).
  - unfold SavePublisher. case_if; [apply Hnone|].
    by apply (Hone (SPublisher (mkPublisher (TrimSpace keyID) (TrimSpace name) publicKey enabled actorID now))).
  - unfold ImportModule. destruct (peek_publisher envelope) as [keyID|]; [|apply Hnone]. case_if; [apply Hnone|].
    destruct (AgentModulePublisher _ _) as [p|]; [|apply Hnone]. case_if; [apply Hnone|].
    destruct (VerifyModule _ _ _) as [[manifest pkg]|] eqn:Ev; [|apply Hnone].
    destruct (if bool_decide (Manifest_Kind manifest = KindDeclarative) then _ else _) as [u|] eqn:Ed; [|apply Hnone].
    apply (Hone (SModule (mkModuleRelease (to_hex (String.substring 0 16 (package_sha256 envelope))) manifest envelope ReleaseStaged
                            actorID now "" None "" None ""))).
    + split; [|done]. exists (Publisher_PublicKey p), (Publisher_KeyID p), pkg. split; [done|]. simpl. intros Hk.
      rewrite bool_decide_eq_true_2 in Ed by done. by destruct u.
    + unfold st_bind. simpl. by destruct (CreateAgentModuleRelease _ s) as [[]].
  - apply (Hone (SModuleTransition id ReleaseStaged ReleaseApproved actorID "" now)); [by left|done].
  - unfold RevokeModule. case_if; [apply Hnone|].
    apply (Hone (SModuleTransition id ReleaseApproved ReleaseRevoked actorID (TrimSpace reason) now)); [by right|done].
  - unfold AssignModule. case_if; [apply Hnone|].
    by apply (Hone (SModuleAssign (mkModuleAssignment id releaseID targetType targetID ringPercent enabled actorID now))).
  - by apply (Hone (SModulesEnabled enabled)).
Qed.

(** What every checked statement preserves holds in every reachable database. *)
Lemma reachable_ind (P : EndpointDb -> Prop) ops s :
  (forall c s, stmt_ok c -> P s -> P (exec c s)) -> P s -> P (run_endpoints ops s).
Proof.
  intros Hstep. unfold EndpointMachine.run_endpoints. revert s. induction ops as [|op ops IH]; intros s H; [done|]. simpl. apply IH.
  destruct (run_endpoint_decomposes op s) as (cs & Hcs & ->). by apply (exec_all_ind P stmt_ok).
Qed.
End safety.
