(* ===== verification/EndpointInvariant.v ===== *)
(** The invariant of the endpoint database, statement by statement and then for
    every run. *)
From Stdlib Require Import ZArith Lia String Ascii.
From stdpp Require Import base tactics list strings gmap sets.
From coqutil Require Import Datatypes.RecordSettersUsingExistingGetters.
From S2P Require Import Prelude GoStrings GoTime GoLocation WorkerModel WorkerEvidence Sql WorkerStore WorkerIdentity WorkerService NetworkPolicy AgentModule RelayWindow AgentUpdate EndpointModel EndpointStore ModuleCatalog EndpointService EndpointAdmin EndpointMachine EndpointSafety.
Open Scope string_scope.
Open Scope Z_scope.

(** * Tables *)

(** What a row update and an upsert keep of a table whose rows satisfy [P] and
    are told apart by [key]. *)
Section table.
Context {Row K : Type} `{EqDecision K} (P : Row -> Prop) (key : Row -> K).

Definition keyed (table : list Row) : Prop := NoDup (key <$> table) /\ Forall P table.

Lemma keyed_update p f table :
  (forall r, key (f r) = key r) -> (forall r, p r = true -> P r -> P (f r)) -> keyed table -> keyed (update_where p f table).
Proof.
  intros Hk Hf [Hnd HP]. split; [by rewrite update_where_key|]. rewrite Forall_forall in *.
  intros r' (r & Hr & ->)%elem_of_update_where. destruct (p r) eqn:E; auto.
Qed.

Lemma keyed_app row table : key row ∉ key <$> table -> P row -> keyed table -> keyed (table ++ [row])%list.
Proof.
  intros Hn Hr [Hnd HP]. split; [|by rewrite Forall_app, Forall_singleton].
  rewrite fmap_app. apply NoDup_app. split; [done|]. split; [|apply NoDup_singleton].
  by intros x Hx ->%list_elem_of_singleton.
Qed.

Lemma keyed_filter p table : keyed table -> keyed (List.filter p table).
Proof.
  intros [Hnd HP]. split.
  - clear HP. induction table as [|r table IH]; [done|]. simpl in *. apply NoDup_cons in Hnd as [Hr Hnd].
    destruct (p r); [|by apply IH]. simpl. apply NoDup_cons. split; [|by apply IH].
    intros (y & E & Hy)%list_elem_of_fmap. apply Hr. rewrite E. apply list_elem_of_fmap_2. by apply elem_of_select_where in Hy as [? _].
  - rewrite Forall_forall in *. intros r [Hr _]%elem_of_select_where. auto.
Qed.

Lemma keyed_upsert merge row table :
  (forall old, key old = key row -> key (merge old row) = key row) -> (forall old, P old -> P (merge old row)) -> P row ->
  keyed table -> keyed (upsert key merge row table).
Proof.
  intros Hk Hm Hr [Hnd HP]. unfold upsert. destruct (existsb _ table) eqn:E.
  - split.
    + replace (key <$> update_where _ _ table) with (key <$> table); [done|].
      unfold update_where. rewrite <- list_fmap_compose. apply list_fmap_ext. intros i r _. simpl.
      case_bool_decide; [by rewrite Hk|done].
    + rewrite Forall_forall in *. intros r' (r & Hr' & ->)%elem_of_update_where. case_bool_decide; auto.
  - apply keyed_app; [|done|done]. intros (y & Ek & Hy)%list_elem_of_fmap.
    assert (Ht : existsb (fun r => bool_decide (key r = key row)) table = true); [|congruence].
    apply existsb_exists. exists y. split; [by apply list_elem_of_In|]. by apply bool_decide_eq_true_2.
Qed.

(** One row gets a key that no other row has. *)
Lemma rekey_NoDup p f k table :
  (forall r, p r = true -> key (f r) = k) -> (forall r, r ∈ table -> p r = false -> key r <> k) -> affected p table = 1 ->
  NoDup (key <$> table) -> NoDup (key <$> update_where p f table).
Proof.
  intros Hk Ho Ha. induction table as [|r table IH]; [done|]. simpl. intros [Hr Hnd]%NoDup_cons.
  unfold affected, select_where in *. simpl in Ha. destruct (p r) eqn:E.
  - simpl in Ha. assert (Hn : forall x, x ∈ table -> p x = false) by (apply affected_0; unfold affected, select_where; lia).
    fold (update_where p f table). rewrite update_where_id by done. apply NoDup_cons. split; [|done].
    rewrite (Hk r E). intros (x & Ex & Hx)%list_elem_of_fmap. apply (Ho x); [by right|by apply Hn|done].
  - apply NoDup_cons. split; [|apply IH; [intros x Hx; apply Ho; by right|done..]].
    intros (x & Ex & (y & Hy & ->)%elem_of_update_where)%list_elem_of_fmap. destruct (p y) eqn:Ey.
    + rewrite (Hk y Ey) in Ex. by apply (Ho r); [left|done|].
    + apply Hr. rewrite Ex. by apply list_elem_of_fmap_2.
Qed.
End table.

(** A statement that leaves a table alone. *)
Ltac table_frame :=
  cbn [exec];
  unfold CreateAgentEnrollmentToken, ConsumeAgentEnrollmentToken, RenewEndpointCertificate, RevokeEndpointRow, MarkEndpointSeen,
    SetEndpointCollectorsRow, SetEndpointNetworkExclusionsRow, LinkEndpointAsset, update_endpoint, RecordEndpointIntegritySnapshot,
    RecordEndpointCheckIn, AgentUpdateOffer, RecordAgentModuleHealth, RecordEndpointOSInventory, RecordEndpointSoftwareInventory,
    RecordEndpointListeningInventory, RecordEndpointPostureInventory, RecordEndpointNetworkInventory, SetEndpointHeartbeatSettings,
    CreateEndpointMaintenanceWindow, CancelEndpointMaintenanceWindow, UpsertRelayUploadWindow, UpsertDelayedHeartbeatPolicy,
    DeleteDelayedHeartbeatPolicy, CreateAgentUpdateRelease, transitionAgentUpdate, AssignAgentUpdateRow, SaveAgentModulePublisher,
    CreateAgentModuleRelease, TransitionAgentModuleRelease, SaveAgentModuleAssignment, SetAgentModulesEnabled;
  cbv zeta; repeat (case_match; simpl); try done.

(** The statements left are the ones that write the table. *)
Ltac table_step := intros Hc H; match goal with c : stmt |- _ => destruct c; try (table_frame; fail) end; cbn [exec stmt_ok] in *.
Ltac guards := repeat (case_if; [done|]); reflect_bools; simpl.

(** * The invariant *)

Section invariant.
Context {TZ : TimeZones} {LC : LowerCase} {CF : CaseFolding} {IC : IntegrityCrypto} {UC : UpdateCrypto} {MC : ModuleCrypto}.
Context (Sum256 : string -> string) (IssueEndpoint : string -> string -> string -> Time -> result (string * Time)) (svc : UpdateService).

Definition endpoint_ok (e : Endpoint) : Prop :=
  validateEndpointCollectors (Endpoint_AllowedCollectors e) = Ok tt /\
  (Endpoint_Status e = EndpointActive \/ Endpoint_Status e = EndpointRevoked) /\
  (Endpoint_NetworkExclusions e = no_exclusions \/ exists policy, Normalize policy = Ok (Endpoint_NetworkExclusions e)).
Definition inventories_ok {A} (validate : option A -> result unit) (table : gmap string (Received A)) : Prop :=
  map_Forall (fun _ r => validate (Some (received_item r)) = Ok tt) table.

Record endpoints_ok (s : EndpointDb) : Prop := {
  ok_tokens : keyed (fun _ => True) (fun r => AgentToken_TokenHash (atr_token r)) (ed_tokens s);
  ok_endpoints : keyed endpoint_ok Endpoint_ID (ed_endpoints s);
  ok_serials : NoDup (Endpoint_CertificateSerial <$> ed_endpoints s);
  ok_snapshots : keyed (fun r => snap_sequence r <> 0 /\ snap_sequence r < 2 ^ 63) snap_endpoint_id (ed_snapshots s);
  ok_os : inventories_ok validateOSInventory (ed_os s);
  ok_software : inventories_ok validateSoftwareInventory (ed_software s);
  ok_listening : inventories_ok validateListeningInventory (ed_listening s);
  ok_posture : inventories_ok validatePostureInventory (ed_posture s);
  ok_network : inventories_ok validateNetworkInventory (ed_network s);
  ok_heartbeat : validateEndpointHeartbeatSettings (ed_heartbeat s) = Ok tt;
  ok_windows : keyed (fun w => Validate w = Ok tt) rw_ID (ed_windows s);
  ok_policies : keyed (fun p => ValidatePolicy p = Ok tt) policy_key (ed_policies s);
  ok_releases : keyed (release_verified svc) Release_ID (ed_releases s);
  ok_assignments : keyed (fun _ => True) ua_endpoint_id (ed_assignments s);
  ok_modules : keyed module_verified mr_ID (ed_module_releases s);
  ok_module_assignments : keyed (fun a => within 1 (ma_RingPercent a) 100 = true) assignment_key (ed_module_assignments s) }.

Lemma tokens_step c s : stmt_ok svc c ->
  keyed (fun _ => True) (fun r => AgentToken_TokenHash (atr_token r)) (ed_tokens s) ->
  keyed (fun _ => True) (fun r => AgentToken_TokenHash (atr_token r)) (ed_tokens (exec c s)).
Proof.
  table_step.
  - unfold CreateAgentEnrollmentToken. guards. by apply keyed_app.
  - unfold ConsumeAgentEnrollmentToken. cbv zeta. guards. by apply keyed_update.
Qed.

Lemma update_endpoint_ok p f missing s :
  (forall e, Endpoint_ID (f e) = Endpoint_ID e) -> (forall e, endpoint_ok e -> endpoint_ok (f e)) ->
  keyed endpoint_ok Endpoint_ID (ed_endpoints s) -> keyed endpoint_ok Endpoint_ID (ed_endpoints (update_endpoint p f missing s).2).
Proof. intros Hid Hf H. unfold update_endpoint. case_if; [done|]. simpl. apply keyed_update; auto. Qed.

Lemma endpoints_step c s : stmt_ok svc c ->
  keyed endpoint_ok Endpoint_ID (ed_endpoints s) -> keyed endpoint_ok Endpoint_ID (ed_endpoints (exec c s)).
Proof.
  table_step; try (apply update_endpoint_ok; [done|intros e (He & Hs & Hx)|done]; split_and!; simpl; by auto).
  - unfold ConsumeAgentEnrollmentToken. cbv zeta. guards. apply keyed_app; [done| |done].
    destruct Hc as (Ha & Hx & Hn). split_and!; [by rewrite Hx|by left|by left].
  - unfold RenewEndpointCertificate. cbv zeta. case_if; [done|]. apply update_endpoint_ok; done.
  - apply keyed_update; done.
  - unfold RecordEndpointCheckIn. guards. apply keyed_update; done.
Qed.

(** The certificate serials are one to one too. *)
Lemma serials_step c s : stmt_ok svc c -> NoDup (Endpoint_ID <$> ed_endpoints s) ->
  NoDup (Endpoint_CertificateSerial <$> ed_endpoints s) -> NoDup (Endpoint_CertificateSerial <$> ed_endpoints (exec c s)).
Proof.
  assert (Hu : forall p f missing, (forall e, Endpoint_CertificateSerial (f e) = Endpoint_CertificateSerial e) ->
    NoDup (Endpoint_CertificateSerial <$> ed_endpoints s) ->
    NoDup (Endpoint_CertificateSerial <$> ed_endpoints (update_endpoint p f missing s).2)).
  { intros p f missing Hf H. unfold update_endpoint. case_if; [done|]. simpl. by rewrite update_where_key. }
  intros Hc Hid. revert Hc. table_step; try (by apply Hu).
  - unfold ConsumeAgentEnrollmentToken. cbv zeta. guards.
    apply (keyed_app (fun _ => True) Endpoint_CertificateSerial); [done..|]. split; [done|]. by apply Forall_true.
  - unfold RenewEndpointCertificate. cbv zeta. case_if; [done|]. unfold update_endpoint. case_if; [done|]. simpl.
    apply negb_false_iff, Z.eqb_eq in E0. pose proof (affected_1 _ _ E0) as (e & He & Hp).
    apply (rekey_NoDup Endpoint_CertificateSerial _ _ serial); [done| |done|done].
    intros e' He' Hp' Hs. apply andb_false_iff in E as [E|E]; apply not_true_iff_false in E; apply E; apply existsb_exists.
    + exists e. by rewrite <- list_elem_of_In.
    + exists e'. rewrite <- list_elem_of_In. split; [done|]. by rewrite Hp', bool_decide_eq_true_2.
  - simpl. by rewrite update_where_key.
  - unfold RecordEndpointCheckIn. guards. by rewrite update_where_key.
Qed.

(** The inventory a statement stores was validated. *)
Lemma inventories_insert {A} (validate : option A -> result unit) table id i t :
  validate (Some i) = Ok tt -> inventories_ok validate table -> inventories_ok validate (<[id := mkReceived i t]> table).
Proof. intros Hi Ht. by apply map_Forall_insert_2. Qed.

Lemma inventories_step c s : stmt_ok svc c ->
  inventories_ok validateOSInventory (ed_os s) /\ inventories_ok validateSoftwareInventory (ed_software s) /\
  inventories_ok validateListeningInventory (ed_listening s) /\ inventories_ok validatePostureInventory (ed_posture s) /\
  inventories_ok validateNetworkInventory (ed_network s) ->
  let s' := exec c s in
  inventories_ok validateOSInventory (ed_os s') /\ inventories_ok validateSoftwareInventory (ed_software s') /\
  inventories_ok validateListeningInventory (ed_listening s') /\ inventories_ok validatePostureInventory (ed_posture s') /\
  inventories_ok validateNetworkInventory (ed_network s').
Proof.
  table_step; destruct H as (? & ? & ? & ? & ?); cbv zeta;
    unfold RecordEndpointOSInventory, RecordEndpointSoftwareInventory, RecordEndpointListeningInventory, RecordEndpointPostureInventory,
      RecordEndpointNetworkInventory; repeat (case_match; [by split_and!|]); simpl; split_and!; auto using inventories_insert.
Qed.

Lemma integrity_sequence e : validateIntegritySnapshot (Some e) = Ok tt -> Envelope_Sequence e <> 0 /\ Envelope_Sequence e < 2 ^ 63.
Proof.
  unfold validateIntegritySnapshot. cbv zeta. intros [Hc _]%reject_ok. reflect_bools. lia.
Qed.

Lemma snapshots_step c s : stmt_ok svc c ->
  keyed (fun r => snap_sequence r <> 0 /\ snap_sequence r < 2 ^ 63) snap_endpoint_id (ed_snapshots s) ->
  keyed (fun r => snap_sequence r <> 0 /\ snap_sequence r < 2 ^ 63) snap_endpoint_id (ed_snapshots (exec c s)).
Proof.
  table_step. unfold RecordEndpointIntegritySnapshot. cbv zeta. apply integrity_sequence in Hc.
  repeat (case_match; try done); simpl; by apply keyed_upsert.
Qed.

Lemma heartbeat_step c s : stmt_ok svc c ->
  validateEndpointHeartbeatSettings (ed_heartbeat s) = Ok tt -> validateEndpointHeartbeatSettings (ed_heartbeat (exec c s)) = Ok tt.
Proof. by table_step. Qed.

Lemma windows_step c s : stmt_ok svc c ->
  keyed (fun w => Validate w = Ok tt) rw_ID (ed_windows s) -> keyed (fun w => Validate w = Ok tt) rw_ID (ed_windows (exec c s)).
Proof.
  table_step. unfold UpsertRelayUploadWindow. destruct (Validate window) as [[]|] eqn:E; [|done]. case_if; [done|]. simpl.
  by apply keyed_upsert.
Qed.

Lemma policies_step c s : stmt_ok svc c ->
  keyed (fun p => ValidatePolicy p = Ok tt) policy_key (ed_policies s) ->
  keyed (fun p => ValidatePolicy p = Ok tt) policy_key (ed_policies (exec c s)).
Proof.
  table_step.
  - unfold UpsertDelayedHeartbeatPolicy. destruct (ValidatePolicy policy) as [[]|] eqn:E; [|done]. case_if; [done|]. by apply keyed_upsert.
  - unfold DeleteDelayedHeartbeatPolicy. cbv zeta. guards. by apply keyed_filter.
Qed.

Lemma releases_step c s : stmt_ok svc c ->
  keyed (release_verified svc) Release_ID (ed_releases s) -> keyed (release_verified svc) Release_ID (ed_releases (exec c s)).
Proof.
  table_step.
  - unfold CreateAgentUpdateRelease. cbv zeta. guards. apply keyed_app; [done|apply Hc|done].
  - unfold transitionAgentUpdate. cbv zeta. guards. apply keyed_update; [by intros r; case_if..|done].
Qed.

Lemma assignments_step c s : stmt_ok svc c ->
  keyed (fun _ => True) ua_endpoint_id (ed_assignments s) -> keyed (fun _ => True) ua_endpoint_id (ed_assignments (exec c s)).
Proof.
  table_step.
  - unfold RecordEndpointCheckIn. guards. by apply keyed_update.
  - unfold AgentUpdateOffer. case_match; [done|]. by apply keyed_update.
  - unfold AssignAgentUpdateRow. repeat (case_match; try done). by apply keyed_upsert.
Qed.

Lemma modules_step c s : stmt_ok svc c ->
  keyed module_verified mr_ID (ed_module_releases s) -> keyed module_verified mr_ID (ed_module_releases (exec c s)).
Proof.
  table_step.
  - unfold CreateAgentModuleRelease. cbv zeta. guards. apply keyed_app; [done|apply Hc|done].
  - unfold TransitionAgentModuleRelease. cbv zeta. guards. apply keyed_update; [by intros x; case_if..|done].
Qed.

Lemma module_assignments_step c s : stmt_ok svc c ->
  keyed (fun a => within 1 (ma_RingPercent a) 100 = true) assignment_key (ed_module_assignments s) ->
  keyed (fun a => within 1 (ma_RingPercent a) 100 = true) assignment_key (ed_module_assignments (exec c s)).
Proof.
  table_step. unfold SaveAgentModuleAssignment. repeat (case_match; try done). simpl.
  apply orb_false_iff in H3 as [Hr%negb_false_iff _]. by apply keyed_upsert.
Qed.

Lemma exec_ok c s : stmt_ok svc c -> endpoints_ok s -> endpoints_ok (exec c s).
Proof.
  intros Hc []. destruct (inventories_step c s Hc) as (? & ? & ? & ? & ?); [done|].
  split; auto using tokens_step, endpoints_step, snapshots_step, heartbeat_step, windows_step, policies_step, releases_step, assignments_step,
    modules_step, module_assignments_step.
  apply serials_step; [done|apply ok_endpoints0|done].
Qed.

Lemma run_endpoints_ok ops s : endpoints_ok s -> endpoints_ok (run_endpoints Sum256 IssueEndpoint svc ops s).
Proof. apply reachable_ind, exec_ok. Qed.

(** C40: every reachable endpoint database is well formed: identifiers, certificate
    serials, token hashes, snapshots, windows, policies, releases and
    assignments are unique; every endpoint is active or revoked, with a validated
    collector policy and normalised exclusions; stored inventories, heartbeat
    thresholds, upload windows and delayed-heartbeat policies passed validation; every update
    release verified under the catalog's key and every module release under a
    publisher's; rings are percentages. *)
Theorem endpoint_invariant ops s : endpoints_ok s -> endpoints_ok (run_endpoints Sum256 IssueEndpoint svc ops s).
Proof. apply run_endpoints_ok. Qed.
End invariant.

