(* ===== verification/EndpointIdentity.v ===== *)
(** What the identity of an endpoint agent guarantees: tokens enroll once,
    revocation is final, a request touches only its own endpoint, and what is
    stored of a check-in is what the administrator allowed. *)
From Stdlib Require Import ZArith Lia String Ascii.
From stdpp Require Import base tactics list strings gmap sets.
From coqutil Require Import Datatypes.RecordSettersUsingExistingGetters.
From S2P Require Import Prelude GoStrings GoTime GoLocation WorkerModel WorkerEvidence Sql WorkerStore WorkerIdentity WorkerService NetworkPolicy AgentModule RelayWindow AgentUpdate EndpointModel EndpointStore ModuleCatalog EndpointService EndpointMachine EndpointSafety EndpointInvariant.
Open Scope string_scope.
Open Scope Z_scope.

Section identity.
Context {TZ : TimeZones} {LC : LowerCase} {CF : CaseFolding} {IC : IntegrityCrypto} {UC : UpdateCrypto} {MC : ModuleCrypto}.
Context (Sum256 : string -> string) (IssueEndpoint : string -> string -> string -> Time -> result (string * Time)) (svc : UpdateService).

Abbreviation run_endpoints := (run_endpoints Sum256 IssueEndpoint svc).
Abbreviation Enroll := (Enroll Sum256 IssueEndpoint).
Abbreviation agent_handler := (agent_handler IssueEndpoint).

(** * Enrollment *)

Definition agent_token_used (hash : string) (s : EndpointDb) : Prop :=
  exists r, r ∈ ed_tokens s /\ AgentToken_TokenHash (atr_token r) = hash /\ atr_used_at r <> None.

Lemma agent_token_used_step hash c s : stmt_ok svc c -> agent_token_used hash s -> agent_token_used hash (exec c s).
Proof.
  table_step; destruct H as (r & Hr & Hh & Hu).
  - unfold CreateAgentEnrollmentToken. case_if; [by exists r|]. exists r. simpl. split; [|done]. apply elem_of_app. by left.
  - unfold ConsumeAgentEnrollmentToken. cbv zeta. do 2 (case_if; [by exists r|]). exists r. simpl. split; [|done].
    apply elem_of_update_where. exists r. split; [done|]. unfold agent_token_usable. rewrite (bool_decide_eq_false_2 (_ = None)) by done.
    by rewrite andb_false_r.
Qed.

Lemma agent_token_spent hash now s r :
  endpoints_ok svc s -> agent_token_used hash s -> r ∈ ed_tokens s -> agent_token_usable hash now r = false.
Proof.
  intros Hs (r' & Hr' & Hh & Hu) Hr. unfold agent_token_usable. case_bool_decide as E; [|done]. simpl.
  replace r with r'; [by rewrite bool_decide_eq_false_2|].
  apply (key_inj (fun r => AgentToken_TokenHash (atr_token r)) (ed_tokens s)); [apply Hs|done|done|]. by rewrite E.
Qed.

Lemma Enroll_inv token csrPEM id now s e s' :
  Enroll token csrPEM id now s = (Ok e, s') ->
  exists hash r serial expiresAt, enrollmentTokenHash Sum256 token = Some hash /\ r ∈ ed_tokens s /\
    agent_token_usable hash (formatTime now) r = true /\ e = enrolled_endpoint id (AgentToken_Name (atr_token r)) serial now expiresAt /\
    IssueEndpoint id (AgentToken_Name (atr_token r)) csrPEM now = Ok (serial, expiresAt) /\
    ConsumeAgentEnrollmentToken hash e now s = (Ok tt, s').
Proof.
  unfold EndpointService.Enroll, AgentEnrollmentTokenName. destruct (enrollmentTokenHash Sum256 token) as [hash|]; [|done].
  destruct (query_row _ _) as [r|] eqn:Er; [|done]. apply query_row_Some in Er as [Hr Hu].
  destruct (IssueEndpoint _ _ _ _) as [[serial expiresAt]|] eqn:Ei; [|done]. unfold st_bind.
  destruct (ConsumeAgentEnrollmentToken _ _ _ s) as [[[]|] s1] eqn:Ec; [|done]. intros [= <- <-].
  by exists hash, r, serial, expiresAt.
Qed.

Lemma Consume_inv hash e now s s' : ConsumeAgentEnrollmentToken hash e now s = (Ok tt, s') ->
  e ∈ ed_endpoints s' /\ agent_token_used hash s'.
Proof.
  unfold ConsumeAgentEnrollmentToken. cbv zeta. case_if; [done|]. case_if; [done|]. intros [= <-]. simpl.
  apply negb_false_iff, Z.eqb_eq, affected_1 in E as (r & Hr & Hp). split; [apply elem_of_app; right; by left|].
  exists (r <| atr_used_at := Some (formatTime now) |>). split; [|by apply andb_prop in Hp as [[?%bool_decide_eq_true _]%andb_prop _]].
  apply elem_of_update_where. exists r. by rewrite Hp.
Qed.

(** An enrollment token admits one endpoint: enrolling with it needs an unused,
    unexpired token, takes the endpoint's name from the token and starts without
    any collector allowed, and in every later state the same token is refused and
    nothing changes. *)
Theorem agent_token_enrolls_once token csrPEM id now s e s1 ops csrPEM' id' now' :
  endpoints_ok svc s -> Enroll token csrPEM id now s = (Ok e, s1) ->
  (exists r, r ∈ ed_tokens s /\ Endpoint_Name e = AgentToken_Name (atr_token r) /\ atr_used_at r = None /\
    str_ltb (formatTime now) (atr_expires_at r) = true) /\
    e ∈ ed_endpoints s1 /\ Endpoint_Status e = EndpointActive /\ Endpoint_AllowedCollectors e = [] /\
    let s2 := run_endpoints ops s1 in Enroll token csrPEM' id' now' s2 = (Err ErrInvalidEnrollmentToken, s2).
Proof.
  intros Hs He. pose proof (Enroll_inv _ _ _ _ _ _ _ He) as (hash & r & serial & expiresAt & Hh & Hr & Hu & -> & _ & Hc).
  pose proof (Consume_inv _ _ _ _ _ Hc) as [Hin Hused].
  assert (H1 : endpoints_ok svc s1).
  { replace s1 with (run_endpoints [OpEnroll token csrPEM id now] s) by (simpl; by rewrite He). by apply run_endpoints_ok. }
  apply andb_prop in Hu as [[_ Hu%bool_decide_eq_true]%andb_prop Hx]. split_and!; [by exists r|done..|]. cbv zeta.
  pose proof (run_endpoints_ok Sum256 IssueEndpoint svc ops s1 H1) as H2.
  assert (Hs2 : agent_token_used hash (run_endpoints ops s1)) by (apply reachable_ind; [intros; by apply agent_token_used_step|done]).
  unfold EndpointService.Enroll, AgentEnrollmentTokenName. rewrite Hh.
  replace (query_row _ _) with (@None AgentTokenRow); [done|]. symmetry. apply query_row_None. intros r' Hr'.
  by apply agent_token_spent with (run_endpoints ops s1).
Qed.

(** * Revocation *)

Lemma revoked_endpoint_step e c s : stmt_ok svc c ->
  e ∈ ed_endpoints s /\ Endpoint_Status e = EndpointRevoked -> e ∈ ed_endpoints (exec c s) /\ Endpoint_Status e = EndpointRevoked.
Proof.
  assert (Hu : forall (p : Endpoint -> bool) f table, p e = false -> e ∈ table -> e ∈ update_where p f table).
  { intros p f table Hp He. apply elem_of_update_where. exists e. by rewrite Hp. }
  assert (Ha : forall id, Endpoint_Status e = EndpointRevoked -> active_endpoint id e = false).
  { intros id He. unfold active_endpoint. rewrite He, (bool_decide_eq_false_2 (EndpointRevoked = _)) by done. by rewrite andb_false_r. }
  table_step; destruct H as [He Hr]; (split; [|done]);
    unfold ConsumeAgentEnrollmentToken, RenewEndpointCertificate, RevokeEndpointRow, MarkEndpointSeen, SetEndpointCollectorsRow,
      SetEndpointNetworkExclusionsRow, LinkEndpointAsset, update_endpoint, RecordEndpointCheckIn; cbv zeta;
    repeat (case_if; [done|]); simpl; try (by apply Hu; [rewrite ?Ha|]).
  apply elem_of_app. by left.
Qed.

Lemma revoked_connection e certificate now s :
  endpoints_ok svc s -> e ∈ ed_endpoints s -> Endpoint_Status e = EndpointRevoked ->
  is_ok (endpointFromConnection (Some (Endpoint_CertificateSerial e, certificate)) now s) = false.
Proof.
  intros Hs He Hr. unfold endpointFromConnection, EndpointBySerial.
  rewrite (query_row_key Endpoint_CertificateSerial) by (apply Hs || done). by rewrite Hr.
Qed.


(** * Isolation *)

(** What a request may not change of the endpoints: their names, life and
    permissions. *)
Definition permissions (e : Endpoint) :=
  (Endpoint_ID e, Endpoint_Name e, Endpoint_Status e, Endpoint_EnrolledAt e, Endpoint_RevokedAt e, Endpoint_RevocationReason e,
   Endpoint_AllowedCollectors e, Endpoint_NetworkExclusions e, Endpoint_AssetID e).

(** The rows of a table that are not the endpoint's. *)
Definition rows_of_others {Row} (owner : Row -> string) (id : string) (table : list Row) : list Row :=
  select_where (fun r => negb (bool_decide (owner r = id))) table.

Record others_unchanged (id : string) (s s' : EndpointDb) : Prop := {
  same_tokens : ed_tokens s' = ed_tokens s;
  same_permissions : permissions <$> ed_endpoints s' = permissions <$> ed_endpoints s;
  same_endpoints : rows_of_others Endpoint_ID id (ed_endpoints s') = rows_of_others Endpoint_ID id (ed_endpoints s);
  same_snapshots : rows_of_others snap_endpoint_id id (ed_snapshots s') = rows_of_others snap_endpoint_id id (ed_snapshots s);
  same_events : rows_of_others event_endpoint_id id (ed_events s') = rows_of_others event_endpoint_id id (ed_events s);
  same_os : delete id (ed_os s') = delete id (ed_os s);
  same_software : delete id (ed_software s') = delete id (ed_software s);
  same_listening : delete id (ed_listening s') = delete id (ed_listening s);
  same_posture : delete id (ed_posture s') = delete id (ed_posture s);
  same_network : delete id (ed_network s') = delete id (ed_network s);
  same_settings : (ed_heartbeat s', ed_maintenance s', ed_windows s', ed_policies s', ed_groups s', ed_members s') =
                  (ed_heartbeat s, ed_maintenance s, ed_windows s, ed_policies s, ed_groups s, ed_members s);
  same_catalogs : (ed_releases s', ed_publishers s', ed_module_releases s', ed_module_assignments s', ed_modules_enabled s') =
                  (ed_releases s, ed_publishers s, ed_module_releases s, ed_module_assignments s, ed_modules_enabled s);
  same_assignments : rows_of_others ua_endpoint_id id (ed_assignments s') = rows_of_others ua_endpoint_id id (ed_assignments s);
  same_health : forall other m, other <> id -> ed_module_health s' !! (other, m) = ed_module_health s !! (other, m) }.

#[local] Instance others_unchanged_preorder id : PreOrder (others_unchanged id).
Proof.
  split; [by intros s|]. intros s1 s2 s3 [] []. split; try congruence. intros other m H. rewrite same_health1 by done. auto.
Qed.

Lemma others_update {Row} (owner : Row -> string) id p f table :
  (forall r, p r = true -> owner r = id) -> (forall r, owner (f r) = owner r) ->
  rows_of_others owner id (update_where p f table) = rows_of_others owner id table.
Proof.
  intros Hp Hf. unfold rows_of_others, select_where, update_where. induction table as [|r table IH]; [done|]. simpl.
  destruct (p r) eqn:E; rewrite ?Hf; [by rewrite !(bool_decide_eq_true_2 _ (Hp r E))|]. case_match; [by f_equal|done].
Qed.

Lemma others_app {Row} (owner : Row -> string) id table rows :
  (forall r, r ∈ rows -> owner r = id) -> rows_of_others owner id (table ++ rows) = rows_of_others owner id table.
Proof.
  intros Hr. unfold rows_of_others, select_where. rewrite List.filter_app, (select_where_none _ rows); [apply app_nil_r|].
  intros r ->%Hr. by rewrite bool_decide_eq_true_2.
Qed.

Lemma others_upsert {Row} (owner : Row -> string) id row table :
  owner row = id -> rows_of_others owner id (upsert owner (fun _ new => new) row table) = rows_of_others owner id table.
Proof.
  intros Ho. unfold upsert. case_if; [|apply others_app; intros r ->%list_elem_of_singleton; done].
  unfold rows_of_others, select_where, update_where. clear E. induction table as [|r table IH]; [done|]. simpl.
  destruct (decide (owner r = owner row)) as [Er|Er].
  - rewrite (bool_decide_eq_true_2 _ Er), !(bool_decide_eq_true_2 (_ = id)) by congruence. exact IH.
  - rewrite (bool_decide_eq_false_2 _ Er). case_match; [by f_equal|done].
Qed.

Lemma permissions_update p f table : (forall e, permissions (f e) = permissions e) -> permissions <$> update_where p f table = permissions <$> table.
Proof. apply update_where_key. Qed.

Lemma health_others id reports m : forall other k, other <> id ->
  fold_left (fun m r => <[(id, Health_ModuleID r) := r]> m) reports m !! (other, k) = (m : gmap (string * string) ModuleHealth) !! (other, k).
Proof.
  revert m. induction reports as [|r reports IH]; intros m other k H; [done|]. simpl. rewrite IH by done. apply lookup_insert_ne. congruence.
Qed.

Lemma active_endpoint_id id e : active_endpoint id e = true -> Endpoint_ID e = id.
Proof. by intros [?%bool_decide_eq_true _]%andb_prop. Qed.

Lemma request_stmt_isolated id c s : request_stmt svc id c -> others_unchanged id s (exec c s).
Proof.
  intros [Hc _]. destruct c; try discriminate Hc; injection Hc as ->; cbn [exec];
    unfold RenewEndpointCertificate, RecordEndpointIntegritySnapshot, RecordEndpointCheckIn, AgentUpdateOffer, RecordAgentModuleHealth,
      RecordEndpointOSInventory, RecordEndpointSoftwareInventory, RecordEndpointListeningInventory, RecordEndpointPostureInventory,
      RecordEndpointNetworkInventory, update_endpoint; cbv zeta;
    repeat (case_match; try done); simpl;
    (split; simpl; try done; rewrite ?delete_insert_eq; try done);
    first
      [ by apply update_where_key
      | by apply others_upsert
      | by apply health_others
      | apply others_update; [intros r Hr|done];
        first [ by apply active_endpoint_id | by apply andb_prop in Hr as [?%active_endpoint_id _]
              | by apply andb_prop in Hr as [[?%bool_decide_eq_true _]%andb_prop _] | by apply bool_decide_eq_true in Hr ]
      | apply others_app; intros r Hr; first [ by apply not_elem_of_nil in Hr | by apply list_elem_of_fmap in Hr as ([[]] & -> & _) ] ].
Qed.

Lemma endpointFromConnection_inv certificate now s e : endpointFromConnection certificate now s = Ok e ->
  e ∈ ed_endpoints s /\ Endpoint_Status e = EndpointActive /\ Before now (Endpoint_ExpiresAt e) = true /\
  exists uris, certificate = Some (Endpoint_CertificateSerial e, uris) /\ ("spiffe://mossward/endpoint/" +:+ Endpoint_ID e) ∈ uris.
Proof.
  unfold endpointFromConnection, EndpointBySerial. destruct certificate as [[serial uris]|]; [|done].
  destruct (query_row _ _) as [e'|] eqn:E; [|done]. intros [Hs H]%reject_ok. apply reject_ok in H as [Hu [= <-]].
  apply query_row_Some in E as [He Hse%bool_decide_eq_true]. reflect_bools. split_and!; [done..|].
  exists uris. rewrite Hse. split; [done|]. apply existsb_exists in Hu as (uri & Hin & Eu%bool_decide_eq_true).
  apply list_elem_of_In. by rewrite <- Eu.
Qed.

(** C15: a request of an agent either is answered 401 and changes nothing, or comes over a
    connection whose certificate carries the serial and the identity of an active,
    unexpired endpoint, and then it changes no row of another endpoint in any table,
    no catalog, policy or setting, and not the endpoint's own permissions. *)
Theorem agent_requests_isolated certificate request authAt now s :
  let '(r, s') := agent_handler certificate request authAt now s in
  (Response_Status r = StatusUnauthorized /\ s' = s) \/
  exists e c, certificate = Some c /\ e ∈ ed_endpoints s /\ Endpoint_Status e = EndpointActive /\
    Before authAt (Endpoint_ExpiresAt e) = true /\ default "<nil>" (Certificate_Serial c) = Endpoint_CertificateSerial e /\
    ("spiffe://mossward/endpoint/" +:+ Endpoint_ID e) ∈ Certificate_URIs c /\ others_unchanged (Endpoint_ID e) s s'.
Proof using svc UC TZ MC.
  pose proof (agent_handler_decomposes IssueEndpoint svc certificate request authAt now s) as H.
  destruct (agent_handler certificate request authAt now s) as [r s'].
  destruct H as [[? ?]|(e & He & cs & Hcs & Es)]; [by left|]. right. simpl in Es. subst s'.
  apply endpointFromConnection_inv in He as (He & Ha & Hx & uris & Hc & Hu).
  destruct certificate as [c|]; [|done]. injection Hc as Hc <-. exists e, c. split_and!; [done..|].
  apply (exec_all_ind (others_unchanged (Endpoint_ID e) s) (request_stmt svc (Endpoint_ID e))); [|done|done].
  intros c' s' Hc' H. transitivity s'; [done|]. by apply request_stmt_isolated.
Qed.
End identity.

Section answer.
Context {TZ : TimeZones} {LC : LowerCase} {CF : CaseFolding} {IC : IntegrityCrypto}.

Lemma store_step_ok {A B} (m : st EndpointDb A) status (k : A -> EndpointDb -> Response B * EndpointDb) s r s' :
  store_step m status k s = (r, s') -> Response_Status r = StatusOK -> (forall e, status e <> StatusOK) ->
  exists a s1, m s = (Ok a, s1) /\ k a s1 = (r, s').
Proof.
  unfold store_step. destruct (m s) as [[a|e] s1]; [by eauto|]. intros [= <- <-] Hr Hs. simpl in Hr. by apply Hs in Hr.
Qed.

(** The states between the calls of a check-in that was answered. *)
Record answered (certificate : option Certificate) (rs rn : option error) (heartbeat : AgentCheckIn) (now : Time) (endpoint : Endpoint)
    (s s' : EndpointDb) (answer : AgentCheckInResponse) : Prop := {
  ans_valid : is_ok (validateEndpointCheckIn heartbeat) = true;
  ans_states : exists s0 s1 s2 s3 s4 s5 s6 s7,
    let id := Endpoint_ID endpoint in
    let allowed c := bool_decide (c ∈ Endpoint_AllowedCollectors endpoint) in
    record_integrity certificate endpoint (CheckIn_IntegritySnapshot heartbeat) now s = (None, s0) /\
    RecordEndpointCheckIn id heartbeat now s0 = (Ok tt, s1) /\
    AgentUpdateOffer id now s1 = (Ok (Answer_UpdateEnvelope answer), s2) /\
    RecordAgentModuleHealth id (CheckIn_ModuleHealth heartbeat) s2 = (Ok tt, s3) /\
    record_when (CheckIn_OSInventory heartbeat) (allowed CollectorOperatingSystem) (fun i => RecordEndpointOSInventory id i now) s3 = (Ok tt, s4) /\
    record_when (CheckIn_SoftwareInventory heartbeat) (allowed CollectorInstalledSoftware)
      (fun i => RecordEndpointSoftwareInventory rs id i now) s4 = (Ok tt, s5) /\
    record_when (CheckIn_ListeningInventory heartbeat) (allowed CollectorListeningServices)
      (fun i => RecordEndpointListeningInventory id i now) s5 = (Ok tt, s6) /\
    record_when (CheckIn_PostureInventory heartbeat) (allowed CollectorSecurityPosture)
      (fun i => RecordEndpointPostureInventory id i now) s6 = (Ok tt, s7) /\
    record_when (CheckIn_NetworkInventory heartbeat) (allowed CollectorNetworkTelemetry)
      (fun i => RecordEndpointNetworkInventory rn id (filtered_inventory endpoint i) now) s7 = (Ok tt, s') /\
    answer = mkCheckInResponse id now (Endpoint_AllowedCollectors endpoint) (Endpoint_NetworkExclusions endpoint) (Answer_UpdateEnvelope answer)
               (AgentModuleOffers id (CheckIn_SoftwareVersion heartbeat) (CheckIn_OperatingSystem heartbeat) (CheckIn_Architecture heartbeat) s') }.

Lemma record_integrity_status certificate endpoint envelope now s status s' :
  record_integrity certificate endpoint envelope now s = (Some status, s') -> status <> StatusOK.
Proof.
  unfold record_integrity. destruct envelope as [e|]; [|done]. destruct certificate as [c|]; [|by intros [= <- _]].
  case_if; [by intros [= <- _]|]. destruct (RecordEndpointIntegritySnapshot _ _ _ _) as [[]]; [done|]. intros [= <- _]. by case_bool_decide.
Qed.

Ltac next H := apply store_step_ok in H as ([] & ? & ? & H); [|done|done].

Lemma check_in_answered certificate rs rn heartbeat now endpoint s r s' :
  check_in certificate rs rn heartbeat now endpoint s = (r, s') -> Response_Status r = StatusOK ->
  exists answer, r = respond StatusOK (Some answer) /\ answered certificate rs rn heartbeat now endpoint s s' answer.
Proof.
  unfold check_in. cbv zeta. case_if; [by intros [= <- <-]|]. case_if; [by intros [= <- <-]|].
  destruct (record_integrity _ _ _ _ _) as [[status|] s0] eqn:E1;
    [intros [= <- <-] H; simpl in H; by apply record_integrity_status in E1|].
  intros H Hr. next H. apply store_step_ok in H as (u & ? & ? & H); [|done|done]. do 6 next H. injection H as <- <-.
  eexists. split; [done|]. split; [by apply negb_false_iff|]. by eexists _, _, _, _, _, _, _, _.
Qed.
End answer.

(** * Frames *)

(** Whatever comes of the call, it leaves [F] of the database alone. *)
Definition keeps {X A} (F : EndpointDb -> X) (m : st EndpointDb A) : Prop := forall s, F (m s).2 = F s.

Lemma keeps_ok {X A} (F : EndpointDb -> X) (m : st EndpointDb A) s a s' : keeps F m -> m s = (Ok a, s') -> F s' = F s.
Proof. intros H E. specialize (H s). by rewrite E in H. Qed.

Lemma keeps_when {X A} (F : EndpointDb -> X) (inventory : option A) allowed record :
  (forall i, keeps F (record i)) -> keeps F (record_when inventory allowed record).
Proof. intros H. unfold record_when. destruct inventory as [i|]; [destruct allowed|]; [apply H|done..]. Qed.

Lemma record_when_ok {A} (inventory : option A) allowed record s s' :
  record_when inventory allowed record s = (Ok tt, s') ->
  match inventory with Some i => if allowed then record i s = (Ok tt, s') else s' = s | None => s' = s end.
Proof. unfold record_when. destruct inventory; [destruct allowed|]; [done|by intros [= <-]..]. Qed.

(** Proves [F s' = F s] along the calls that lead from [s] to [s']. *)
Ltac kept :=
  repeat match goal with
  | H : ?m ?s = (Ok ?a, ?s') |- ?F ?s' = _ =>
      etransitivity; [apply (keeps_ok F m s a s'); [first [solve [apply keeps_when; intros ? ?; table_frame]|solve [intros ?; table_frame]]|exact H]|]; clear H
  end; try done.

(** * The effect *)

Definition stored_when {A} (inventory : option A) (allowed : bool) (id : string) (now : Time) (table : gmap string (Received A))
  : gmap string (Received A) :=
  match inventory with Some i => if allowed then <[id := mkReceived i now]> table else table | None => table end.

Lemma record_stores {A B} (get : EndpointDb -> gmap string (Received B)) (f : A -> B) inventory allowed record id now s s' :
  (forall i s s', record i s = (Ok tt, s') -> get s' = <[id := mkReceived (f i) now]> (get s)) ->
  record_when inventory allowed record s = (Ok tt, s') -> get s' = stored_when (f <$> inventory) allowed id now (get s).
Proof.
  intros Hr H%record_when_ok. destruct inventory as [i|]; [simpl; destruct allowed; [by apply Hr|by subst]|by subst].
Qed.

Section effect.
Context {TZ : TimeZones} {LC : LowerCase} {CF : CaseFolding} {IC : IntegrityCrypto}.

Lemma integrity_keeps {X} (F : EndpointDb -> X) certificate endpoint envelope now s s' :
  (forall id e t, keeps F (RecordEndpointIntegritySnapshot id e t)) ->
  record_integrity certificate endpoint envelope now s = (None, s') -> F s' = F s.
Proof.
  intros HF. unfold record_integrity. destruct envelope as [e|]; [|by intros [= <-]]. destruct certificate as [c|]; [|done].
  case_if; [done|]. specialize (HF (Endpoint_ID endpoint) e now s). destruct (RecordEndpointIntegritySnapshot _ _ _ _) as [[]]; [|done].
  by intros [= <-].
Qed.

(** The table [get] after the step [H] that fills it. *)
Ltac stores get f H Hi :=
  etransitivity;
  [ eapply (record_stores get f); [|exact H];
    intros ? ? ?; unfold RecordEndpointOSInventory, RecordEndpointSoftwareInventory, RecordEndpointListeningInventory,
      RecordEndpointPostureInventory, RecordEndpointNetworkInventory; repeat case_match; intros [= <-]; done
  | f_equal; kept; apply (integrity_keeps get _ _ _ _ _ _ ltac:(intros ? ? ? ?; table_frame) Hi) ].

(** The tables after an answered check-in. *)
Lemma answered_tables certificate rs rn heartbeat now endpoint s s' answer :
  answered certificate rs rn heartbeat now endpoint s s' answer ->
  let id := Endpoint_ID endpoint in
  let allowed c := bool_decide (c ∈ Endpoint_AllowedCollectors endpoint) in
  ed_endpoints s' = update_where (active_endpoint id) (heard_from heartbeat now) (ed_endpoints s) /\
  ed_os s' = stored_when (CheckIn_OSInventory heartbeat) (allowed CollectorOperatingSystem) id now (ed_os s) /\
  ed_software s' = stored_when (CheckIn_SoftwareInventory heartbeat) (allowed CollectorInstalledSoftware) id now (ed_software s) /\
  ed_listening s' = stored_when (CheckIn_ListeningInventory heartbeat) (allowed CollectorListeningServices) id now (ed_listening s) /\
  ed_posture s' = stored_when (CheckIn_PostureInventory heartbeat) (allowed CollectorSecurityPosture) id now (ed_posture s) /\
  ed_network s' = stored_when (filtered_inventory endpoint <$> CheckIn_NetworkInventory heartbeat) (allowed CollectorNetworkTelemetry) id now (ed_network s).
Proof.
  intros [_ (s0 & s1 & s2 & s3 & s4 & s5 & s6 & s7 & H)]. cbv zeta in *. destruct H as (Hi & Hc & Hu & Hh & Ho & Hs & Hl & Hp & Hn & _).
  split_and!.
  - kept. unfold RecordEndpointCheckIn in Hc. case_if_in Hc; [done|]. injection Hc as <-. simpl.
    by rewrite (integrity_keeps ed_endpoints _ _ _ _ _ _ ltac:(intros ????; table_frame) Hi).
  - kept. rewrite <- (option_fmap_id (CheckIn_OSInventory heartbeat)). stores ed_os (fun x : EndpointOSInventory => x) Ho Hi.
  - kept. rewrite <- (option_fmap_id (CheckIn_SoftwareInventory heartbeat)). stores ed_software (fun x : EndpointSoftwareInventory => x) Hs Hi.
  - kept. rewrite <- (option_fmap_id (CheckIn_ListeningInventory heartbeat)). stores ed_listening (fun x : EndpointListeningInventory => x) Hl Hi.
  - kept. rewrite <- (option_fmap_id (CheckIn_PostureInventory heartbeat)). stores ed_posture (fun x : EndpointPostureInventory => x) Hp Hi.
  - stores ed_network (filtered_inventory endpoint) Hn Hi.
Qed.
End effect.

(** * Collection *)

(** The inventories of a database are those of another, but for what the collectors of
    an endpoint may send; its network connections are outside the exclusions. *)
Record collected {CF : CaseFolding} (endpoint : Endpoint) (heartbeat : AgentCheckIn) (s s' : EndpointDb) : Prop := {
  col_os : CollectorOperatingSystem ∉ Endpoint_AllowedCollectors endpoint -> ed_os s' = ed_os s;
  col_software : CollectorInstalledSoftware ∉ Endpoint_AllowedCollectors endpoint -> ed_software s' = ed_software s;
  col_listening : CollectorListeningServices ∉ Endpoint_AllowedCollectors endpoint -> ed_listening s' = ed_listening s;
  col_posture : CollectorSecurityPosture ∉ Endpoint_AllowedCollectors endpoint -> ed_posture s' = ed_posture s;
  col_network : CollectorNetworkTelemetry ∉ Endpoint_AllowedCollectors endpoint -> ed_network s' = ed_network s;
  col_connections : forall id r, ed_network s' !! id = Some r -> ed_network s !! id = Some r \/
    id = Endpoint_ID endpoint /\
    forall c, c ∈ NetworkInv_Connections (received_item r) -> excluded c [Endpoint_NetworkExclusions endpoint] = false /\
      exists sent, CheckIn_NetworkInventory heartbeat = Some sent /\ c ∈ NetworkInv_Connections sent }.

#[export] Instance collected_preorder {CF : CaseFolding} endpoint heartbeat : PreOrder (collected endpoint heartbeat).
Proof.
  split; [split; auto|]. intros s1 s2 s3 [] []. split; try (intros Hn; repeat match goal with H : _ ∉ _ -> _ |- _ => first [specialize (H Hn)|clear H] end; congruence).
  intros id r Hr.
  destruct (col_connections1 id r Hr) as [H2|H2]; [auto|by right].
Qed.

Section collection.
Context {TZ : TimeZones} {LC : LowerCase} {CF : CaseFolding} {IC : IntegrityCrypto} {UC : UpdateCrypto} {MC : ModuleCrypto}.
Context (Sum256 : string -> string) (IssueEndpoint : string -> string -> string -> Time -> result (string * Time)) (svc : UpdateService).

Lemma collected_same endpoint heartbeat s s' :
  (ed_os s', ed_software s', ed_listening s', ed_posture s', ed_network s') = (ed_os s, ed_software s, ed_listening s, ed_posture s, ed_network s) ->
  collected endpoint heartbeat s s'.
Proof. intros [= E1 E2 E3 E4 E5]. split; [done..|]. intros id r. rewrite E5. by left. Qed.

Lemma check_in_stmt_collected endpoint heartbeat c s : check_in_stmt svc endpoint heartbeat c -> collected endpoint heartbeat s (exec c s).
Proof.
  intros [[He _] Hc]. destruct c; try (apply collected_same; table_frame; fail); injection He as ->; destruct Hc as [Ha Hc]; cbn [exec];
    unfold RecordEndpointOSInventory, RecordEndpointSoftwareInventory, RecordEndpointListeningInventory, RecordEndpointPostureInventory,
      RecordEndpointNetworkInventory; repeat (case_match; try done); simpl; (split; try done; simpl; try (by left)).
  intros id r [[<- <-]|[_ H1]]%lookup_insert_Some; [|by left]. right. split; [done|]. simpl. destruct Hc as (sent & Hsent & ->).
  intros c [Hin Hx]%elem_of_Filter. split; [done|]. by exists sent.
Qed.

End collection.
