(* ===== verification/EndpointIntegrity.v ===== *)
(** The integrity log of an endpoint: signed snapshots are accepted once and in
    order, and the events between two of them account for every change. *)
From Stdlib Require Import ZArith Lia String Ascii.
From stdpp Require Import base tactics list strings gmap sets.
From coqutil Require Import Datatypes.RecordSettersUsingExistingGetters.
From S2P Require Import Prelude GoStrings GoTime GoLocation WorkerModel WorkerEvidence Sql WorkerStore WorkerIdentity WorkerService NetworkPolicy AgentModule RelayWindow AgentUpdate EndpointModel EndpointStore ModuleCatalog EndpointService EndpointMachine EndpointSafety EndpointInvariant EndpointIdentity.
Open Scope string_scope.
Open Scope Z_scope.

(** * The log *)

Definition snapshot_of (id : string) (s : EndpointDb) : option SnapshotRow :=
  query_row (fun r => bool_decide (snap_endpoint_id r = id)) (ed_snapshots s).
Definition integrity_components : list string := ["executable"; "configuration"; "identity"].
Definition fingerprint (component : string) (r : SnapshotRow) : string :=
  if bool_decide (component = "executable") then snap_executable r
  else if bool_decide (component = "configuration") then snap_configuration r else snap_identity r.
Definition events_about (component : string) (events : list IntegrityEventRow) : list IntegrityEventRow :=
  select_where (fun e => bool_decide (event_component e = component)) events.

(** The events lead from one fingerprint to another: each starts where the one
    before ended, changes something and carries a later sequence number. *)
Fixpoint linked (sequence : Z) (before : string) (events : list IntegrityEventRow) (sequence' : Z) (after : string) : Prop :=
  match events with
  | [] => before = after /\ sequence <= sequence'
  | e :: events =>
      event_previous e = before /\ event_current e <> before /\ sequence < event_sequence e /\
      linked (event_sequence e) (event_current e) events sequence' after
  end.

Lemma linked_app q b es q1 b1 es' q2 b2 : linked q b es q1 b1 -> linked q1 b1 es' q2 b2 -> linked q b (es ++ es') q2 b2.
Proof.
  revert q b. induction es as [|e es IH]; intros q b; simpl.
  - intros [-> Hq]. destruct es' as [|e' es']; simpl; [intros [-> ?]; split; [done|lia]|].
    intros (? & ? & ? & ?). split_and!; [done..|lia|done].
  - intros (? & ? & ? & H) H'. split_and!; auto.
Qed.

(** What the log gained between two states. *)
Definition accounted (id : string) (s s' : EndpointDb) : Prop :=
  forall r, snapshot_of id s = Some r ->
  exists r' added, snapshot_of id s' = Some r' /\ integrity_events id s' = (integrity_events id s ++ added)%list /\
    (forall e, e ∈ added -> event_component e ∈ integrity_components) /\
    forall component, component ∈ integrity_components ->
      linked (snap_sequence r) (fingerprint component r) (events_about component added) (snap_sequence r') (fingerprint component r').

Lemma all_selected {Row} (p : Row -> bool) table : (forall r, r ∈ table -> p r = true) -> List.filter p table = table.
Proof.
  induction table as [|r table IH]; intros H; [done|]. simpl. rewrite H by (by left). f_equal. apply IH. intros x Hx. apply H. by right.
Qed.

Lemma linked_refl q b : linked q b [] q b.
Proof. by split. Qed.

#[export] Instance accounted_preorder id : PreOrder (accounted id).
Proof.
  split.
  - intros s r Hr. exists r, []. split_and!; [done|by rewrite app_nil_r|by intros e ?%not_elem_of_nil|intros; apply linked_refl].
  - intros s1 s2 s3 H12 H23 r Hr. destruct (H12 r Hr) as (r2 & l2 & Hr2 & E2 & C2 & L2). destruct (H23 r2 Hr2) as (r3 & l3 & Hr3 & E3 & C3 & L3).
    exists r3, (l2 ++ l3)%list. split_and!; [done|by rewrite E3, E2, app_assoc|intros e [?|?]%elem_of_app; auto|].
    intros component Hc. unfold events_about, select_where. rewrite List.filter_app. by eapply linked_app; [apply L2|apply L3].
Qed.

Lemma snapshot_upsert_same id row table :
  snap_endpoint_id row = id -> query_row (fun r => bool_decide (snap_endpoint_id r = id)) (upsert snap_endpoint_id (fun _ new => new) row table) = Some row.
Proof.
  intros Hid. unfold upsert. destruct (existsb _ table) eqn:E.
  - apply existsb_exists in E as (x & Hx & Ex). destruct (query_row (fun r => bool_decide (snap_endpoint_id r = id)) table) as [y|] eqn:Ey.
    + rewrite Hid. apply query_row_replace with y; [done|]. by apply bool_decide_eq_true_2.
    + apply query_row_None with (r := x) in Ey; [|by apply list_elem_of_In]. rewrite <- Hid in Ey. congruence.
  - unfold query_row. induction table as [|x table IH]; simpl in *; [by rewrite bool_decide_eq_true_2|].
    apply orb_false_iff in E as [Ex E]. rewrite <- Hid, Ex, Hid. by apply IH.
Qed.

Lemma snapshot_upsert_other id row table :
  snap_endpoint_id row <> id ->
  query_row (fun r => bool_decide (snap_endpoint_id r = id)) (upsert snap_endpoint_id (fun _ new => new) row table) =
  query_row (fun r => bool_decide (snap_endpoint_id r = id)) table.
Proof.
  intros Hid. unfold upsert, query_row. destruct (existsb _ table) eqn:E; clear E; induction table as [|x table IH]; simpl; try done.
  - destruct (decide (snap_endpoint_id x = snap_endpoint_id row)) as [Ex|Ex].
    + rewrite (bool_decide_eq_true_2 _ Ex), !(bool_decide_eq_false_2 (_ = id)) by congruence. exact IH.
    + rewrite (bool_decide_eq_false_2 _ Ex). by case_match.
  - by rewrite bool_decide_eq_false_2.
  - by case_match.
Qed.

(** The changes of one snapshot, component by component. *)
Lemma changed_linked component previous row sequence snapshot (mk : string * string * string -> IntegrityEventRow) :
  component ∈ integrity_components -> snap_sequence previous < sequence -> snap_sequence row = sequence ->
  snap_executable row = Snapshot_ExecutableSHA256 snapshot -> snap_configuration row = Snapshot_ConfigurationSHA256 snapshot ->
  snap_identity row = Snapshot_IdentitySHA256 snapshot ->
  (forall c before after, event_component (mk (c, before, after)) = c /\ event_previous (mk (c, before, after)) = before /\
     event_current (mk (c, before, after)) = after /\ event_sequence (mk (c, before, after)) = sequence) ->
  linked (snap_sequence previous) (fingerprint component previous) (events_about component (mk <$> changed_components previous snapshot))
    (snap_sequence row) (fingerprint component row).
Proof.
  intros Hc Hq Hrow He Hco Hi Hmk. unfold changed_components, events_about, select_where, fingerprint. rewrite He, Hco, Hi, Hrow. simpl.
  assert (Hmk' : forall c b a, event_component (mk (c, b, a)) = c) by (intros; apply Hmk).
  unfold integrity_components in Hc. repeat (rewrite elem_of_cons in Hc; destruct Hc as [->|Hc]); [..|by apply not_elem_of_nil in Hc];
    repeat (case_bool_decide; simpl; rewrite ?Hmk'; simpl; try done); try (split; [done|lia]);
    match goal with |- context [mk (?c, ?b, ?a)] => destruct (Hmk c b a) as (_ & -> & -> & ->) end; split_and!; try done; lia.
Qed.

Lemma accounted_same id s s' : ed_snapshots s' = ed_snapshots s -> ed_events s' = ed_events s -> accounted id s s'.
Proof.
  intros E1 E2. intros r Hr. exists r, []. unfold snapshot_of, integrity_events. rewrite E1, E2.
  split_and!; [done|by rewrite app_nil_r|by intros e ?%not_elem_of_nil|intros; apply linked_refl].
Qed.

Lemma accounted_snapshot id id' envelope receivedAt s : accounted id s (RecordEndpointIntegritySnapshot id' envelope receivedAt s).2.
Proof.
  unfold RecordEndpointIntegritySnapshot. cbv zeta. destruct (query_row _ (ed_snapshots s)) as [previous|] eqn:Eq.
  - case_if; [done|]. case_if; [done|]. simpl. clear E0. apply Z.leb_gt in E.
    destruct (decide (id' = id)) as [->|Hid].
    + intros r Hr. unfold snapshot_of in Hr. rewrite Eq in Hr. injection Hr as ->.
      eexists _, _. split_and!.
      * unfold snapshot_of. simpl. by apply snapshot_upsert_same.
      * unfold integrity_events. simpl. unfold select_where. rewrite List.filter_app, (all_selected _ (_ <$> _)); [done|].
        intros e ([[]] & -> & _)%list_elem_of_fmap. simpl. by apply bool_decide_eq_true_2.
      * intros e ([[c b] a] & -> & Hc)%list_elem_of_fmap. unfold changed_components in Hc. apply elem_of_select_where in Hc as [Hc _].
        unfold integrity_components. set_solver.
      * intros component Hc. by eapply changed_linked.
    + intros r Hr. exists r, []. split_and!; [|unfold integrity_events|by intros e ?%not_elem_of_nil|intros; apply linked_refl].
      * unfold snapshot_of in *. simpl. by rewrite snapshot_upsert_other.
      * simpl. unfold select_where. rewrite List.filter_app. f_equal. apply select_where_none.
        intros e ([[]] & -> & _)%list_elem_of_fmap. simpl. by apply bool_decide_eq_false_2.
  - case_if; [done|]. simpl. intros r Hr. assert (Hid : id' <> id) by (intros ->; unfold snapshot_of in Hr; congruence).
    exists r, []. split_and!; [|unfold integrity_events; simpl; by rewrite !app_nil_r|by intros e ?%not_elem_of_nil|intros; apply linked_refl].
    unfold snapshot_of in *. simpl. by rewrite snapshot_upsert_other.
Qed.

Section integrity.
Context {TZ : TimeZones} {LC : LowerCase} {CF : CaseFolding} {IC : IntegrityCrypto} {UC : UpdateCrypto} {MC : ModuleCrypto}.
Context (Sum256 : string -> string) (IssueEndpoint : string -> string -> string -> Time -> result (string * Time)) (svc : UpdateService).

Lemma accounted_step id c s : accounted id s (exec c s).
Proof.
  destruct c; try (apply accounted_same; table_frame; fail). apply accounted_snapshot.
Qed.

(** C18: the integrity log accounts for every change: over any run of operations from a
    state where an endpoint has a snapshot, no event is removed or altered, and for
    each component the events added lead, link by link and with growing sequence
    numbers, from the old snapshot's fingerprint to the new one's. *)
Theorem integrity_log_complete id ops s : accounted id s (run_endpoints Sum256 IssueEndpoint svc ops s).
Proof.
  apply reachable_ind; [|done]. intros c s' _ H. transitivity s'; [done|]. apply accounted_step.
Qed.

(** An envelope an agent signs verifies under the public half of its key, whatever
    the random source gave, as it arrives at the server; sequence number zero is the only
    one that does not. *)
Theorem integrity_round_trip {ICL : IntegrityCryptoLaws} (key : IntegrityKey) sequence snapshot random e
    (Hq : sequence <> 0) (Hs : SignIntegrity key sequence snapshot random = Ok e) :
  VerifyIntegrity (integrity_public key) e = Ok tt.
Proof.
  unfold SignIntegrity in Hs. destruct (canonical sequence snapshot) as [payload|] eqn:Ec; [|done]. injection Hs as <-.
  unfold VerifyIntegrity. simpl. rewrite (proj2 (Z.eqb_neq _ _) Hq), bool_decide_eq_false_2 by apply encode_nonempty. simpl.
  by rewrite decode_encode, Ec, verify_sign.
Qed.

(** * Acceptance *)

Lemma stored_snapshot id envelope receivedAt s s' :
  RecordEndpointIntegritySnapshot id envelope receivedAt s = (Ok tt, s') ->
  (forall r, snapshot_of id s = Some r -> snap_sequence r < Envelope_Sequence envelope) /\
  exists r, snapshot_of id s' = Some r /\ snap_sequence r = Envelope_Sequence envelope /\
    snap_signature r = Envelope_Signature envelope /\ snap_executable r = Snapshot_ExecutableSHA256 (Envelope_Snapshot envelope) /\
    snap_configuration r = Snapshot_ConfigurationSHA256 (Envelope_Snapshot envelope) /\
    snap_identity r = Snapshot_IdentitySHA256 (Envelope_Snapshot envelope).
Proof.
  unfold RecordEndpointIntegritySnapshot, snapshot_of. cbv zeta.
  destruct (query_row _ (ed_snapshots s)) as [r|]; [destruct (_ <=? _) eqn:E; [done|apply Z.leb_gt in E]|]; (case_if; [done|]); intros [= <-].
  all: (split; [by intros ? [= <-]|]); eexists; split; [simpl; by apply snapshot_upsert_same|done].
Qed.

Definition verified (certificate : Certificate) (envelope : SignedAgentIntegritySnapshot) : Prop :=
  Certificate_Key certificate = KeyECDSA /\ VerifyIntegrity (Certificate_PublicKey certificate) envelope = Ok tt.
Definition fresh (id : string) (envelope : SignedAgentIntegritySnapshot) (s : EndpointDb) : Prop :=
  forall row, snapshot_of id s = Some row -> snap_sequence row < Envelope_Sequence envelope.

Lemma verified_bool certificate envelope :
  negb (match Certificate_Key certificate with KeyECDSA => true | _ => false end) || negb (is_ok (VerifyIntegrity (Certificate_PublicKey certificate) envelope)) = false
  <-> verified certificate envelope.
Proof.
  unfold verified. rewrite orb_false_iff, !negb_false_iff. destruct (VerifyIntegrity _ _) as [[]|], (Certificate_Key certificate); (split; intros [? ?]; split; done).
Qed.

Lemma record_unverified certificate endpoint envelope now s :
  ~ verified certificate envelope -> record_integrity (Some certificate) endpoint (Some envelope) now s = (Some StatusBadRequest, s).
Proof. rewrite <- verified_bool, not_false_iff_true. intros H. unfold record_integrity. by rewrite H. Qed.

Lemma record_replayed certificate endpoint envelope now s :
  verified certificate envelope -> ~ fresh (Endpoint_ID endpoint) envelope s ->
  record_integrity (Some certificate) endpoint (Some envelope) now s = (Some StatusConflict, s).
Proof.
  rewrite <- verified_bool. unfold fresh, snapshot_of. intros H Hf. unfold record_integrity. rewrite H. unfold RecordEndpointIntegritySnapshot. cbv zeta.
  destruct (query_row _ (ed_snapshots s)) as [row|]; [|by destruct Hf].
  destruct (Envelope_Sequence envelope <=? snap_sequence row) eqn:E; [done|]. destruct Hf. intros ? [= <-]. by apply Z.leb_gt in E.
Qed.

Lemma record_accepted certificate endpoint envelope now s s' :
  record_integrity (Some certificate) endpoint (Some envelope) now s = (None, s') ->
  verified certificate envelope /\ RecordEndpointIntegritySnapshot (Endpoint_ID endpoint) envelope now s = (Ok tt, s').
Proof.
  unfold record_integrity. case_if; [done|]. apply verified_bool in E.
  destruct (RecordEndpointIntegritySnapshot _ _ _ _) as [[[]|] s1]; [|done]. intros [= <-]. done.
Qed.

Lemma check_in_refused certificate rs rn heartbeat now endpoint s status s0 :
  (CheckIn_SchemaVersion heartbeat = 1 \/ CheckIn_SchemaVersion heartbeat = 2) -> is_ok (validateEndpointCheckIn heartbeat) = true ->
  record_integrity certificate endpoint (CheckIn_IntegritySnapshot heartbeat) now s = (Some status, s0) ->
  check_in certificate rs rn heartbeat now endpoint s = (refuse status, s0).
Proof. intros Hv Hok Hi. unfold check_in. rewrite Hok, Hi. by destruct Hv as [-> | ->]. Qed.

(** C37: the integrity evidence of a check-in is accepted once and only when signed: an
    envelope that does not verify under the connection's ECDSA key is answered 400, a
    verified one whose sequence number is not beyond the last accepted is answered
    409, both without any change; and when the check-in is answered 200 the envelope
    verified, its number is beyond the last, and it is the endpoint's snapshot. *)
Theorem integrity_evidence_gate certificate heartbeat rs rn authAt now s endpoint envelope :
  endpointFromConnection (WorkerService.connection_identity (Some certificate)) authAt s = Ok endpoint ->
  (CheckIn_SchemaVersion heartbeat = 1 \/ CheckIn_SchemaVersion heartbeat = 2) ->
  is_ok (validateEndpointCheckIn heartbeat) = true -> CheckIn_IntegritySnapshot heartbeat = Some envelope ->
  let '(r, s') := agent_handler IssueEndpoint (Some certificate) (AgentCheckInRequest heartbeat rs rn) authAt now s in
  (~ verified certificate envelope -> Response_Status r = StatusBadRequest /\ s' = s) /\
  (verified certificate envelope -> ~ fresh (Endpoint_ID endpoint) envelope s -> Response_Status r = StatusConflict /\ s' = s) /\
  (Response_Status r = StatusOK -> verified certificate envelope /\ fresh (Endpoint_ID endpoint) envelope s /\
    exists row, snapshot_of (Endpoint_ID endpoint) s' = Some row /\ snap_sequence row = Envelope_Sequence envelope /\
      snap_signature row = Envelope_Signature envelope /\ snap_executable row = Snapshot_ExecutableSHA256 (Envelope_Snapshot envelope) /\
      snap_configuration row = Snapshot_ConfigurationSHA256 (Envelope_Snapshot envelope) /\
      snap_identity row = Snapshot_IdentitySHA256 (Envelope_Snapshot envelope)).
Proof.
  intros He Hv Hok Hs. unfold agent_handler. rewrite He.
  destruct (check_in (Some certificate) rs rn heartbeat now endpoint s) as [r s'] eqn:Ec. simpl. split_and!.
  - intros Hn. rewrite (check_in_refused _ _ _ _ _ _ _ StatusBadRequest s) in Ec; [by injection Ec as <- <-|done..|].
    rewrite Hs. by apply record_unverified.
  - intros Hy Hf. rewrite (check_in_refused _ _ _ _ _ _ _ StatusConflict s) in Ec; [by injection Ec as <- <-|done..|].
    rewrite Hs. by apply record_replayed.
  - intros Hr. destruct (check_in_answered _ _ _ _ _ _ _ _ _ Ec Hr) as (answer & -> & [_ (s0 & s1 & s2 & s3 & s4 & s5 & s6 & s7 & H)]).
    cbv zeta in H. destruct H as (Hi & Hc & Hu & Hh & Ho & Hso & Hl & Hp & Hn & _). rewrite Hs in Hi.
    apply record_accepted in Hi as [Hy Hrec]. apply stored_snapshot in Hrec as [Hf (row & Hrow & Hseq)].
    split_and!; [apply Hy..|exact Hf|]. exists row. split; [|done]. rewrite <- Hrow. unfold snapshot_of. f_equal. clear Hrow. kept.
Qed.
End integrity.
