(* ===== verification/EndpointOffers.v ===== *)
(** What a check-in is offered: the update assigned to the endpoint and the
    modules of the deployment rings it is in; and the alerts of the endpoint
    list. *)
From Stdlib Require Import ZArith Lia String Ascii Sorting.Sorted.
From stdpp Require Import base tactics list strings gmap sets.
From coqutil Require Import Datatypes.RecordSettersUsingExistingGetters.
From S2P Require Import Prelude GoStrings GoTime GoLocation WorkerModel WorkerEvidence Sql WorkerStore WorkerIdentity WorkerService NetworkPolicy AgentModule RelayWindow RelayWindowSafety AgentUpdate EndpointModel EndpointStore ModuleCatalog EndpointService EndpointAdmin EndpointMachine EndpointSafety EndpointInvariant EndpointIdentity.
Open Scope string_scope.
Open Scope Z_scope.

(** * Updates *)

(** A row that a [WHERE] on a key that identifies rows returns. *)
Lemma query_row_unique {Row K} `{EqDecision K} (key : Row -> K) (k : K) p table r :
  NoDup (key <$> table) -> (forall r, p r = true -> key r = k) -> r ∈ table -> p r = true -> query_row p table = Some r.
Proof.
  intros Hnd Hk Hr Hp. destruct (query_row p table) as [r'|] eqn:E.
  - apply query_row_Some in E as [Hr' Hp']. f_equal. apply (key_inj key table); [done..|]. by rewrite (Hk r), (Hk r').
  - rewrite query_row_None in E. by rewrite E in Hp.
Qed.

Section updates.
Context {TZ : TimeZones} {LC : LowerCase} {CF : CaseFolding} {IC : IntegrityCrypto} {UC : UpdateCrypto} {MC : ModuleCrypto}.
Context (IssueEndpoint : string -> string -> string -> Time -> result (string * Time)) (svc : UpdateService).

(** The release that an endpoint of this platform and version has yet to install. *)
Definition pending_release (s : EndpointDb) (id version os arch : string) (r : AgentUpdateRelease) : Prop :=
  r ∈ ed_releases s /\ Release_Status r = AgentUpdateApproved /\ Release_OperatingSystem r = os /\ Release_Architecture r = arch /\
  Release_Version r <> version /\
  exists a, a ∈ ed_assignments s /\ ua_endpoint_id a = id /\ one_of (ua_status a) ["assigned"; "offered"] = true /\ ua_release_id a = Release_ID r.

Lemma active_of_id e s : NoDup (Endpoint_ID <$> ed_endpoints s) -> e ∈ ed_endpoints s -> Endpoint_Status e = EndpointActive ->
  query_row (active_endpoint (Endpoint_ID e)) (ed_endpoints s) = Some e.
Proof.
  intros Hnd He Ha. apply (query_row_unique Endpoint_ID (Endpoint_ID e)); [done|by apply active_endpoint_id|done|].
  unfold active_endpoint. by rewrite Ha, !bool_decide_eq_true_2.
Qed.

Lemma heard_endpoint heartbeat now e s : NoDup (Endpoint_ID <$> ed_endpoints s) -> e ∈ ed_endpoints s -> Endpoint_Status e = EndpointActive ->
  query_row (active_endpoint (Endpoint_ID e)) (update_where (active_endpoint (Endpoint_ID e)) (heard_from heartbeat now) (ed_endpoints s)) =
  Some (heard_from heartbeat now e).
Proof.
  intros Hnd He Ha. assert (Hp : active_endpoint (Endpoint_ID e) e = true) by (unfold active_endpoint; by rewrite Ha, !bool_decide_eq_true_2).
  apply (query_row_unique Endpoint_ID (Endpoint_ID e)); [by rewrite update_where_key|by apply active_endpoint_id| |done].
  apply elem_of_update_where. exists e. by rewrite Hp.
Qed.

(** Which assignments the report of a version leaves pending. *)
Lemma pending_version_spec s id version a r :
  NoDup (Release_ID <$> ed_releases s) -> r ∈ ed_releases s -> ua_release_id a = Release_ID r ->
  ua_endpoint_id a = id -> one_of (ua_status a) ["assigned"; "offered"] = true ->
  pending_version s id version a = bool_decide (Release_Version r = version).
Proof.
  intros Hnd Hr Ha Hid Hst. unfold pending_version. rewrite Hst, bool_decide_eq_true_2 by done. simpl. case_bool_decide as Hv.
  - apply existsb_exists. exists r. rewrite <- list_elem_of_In. by rewrite !bool_decide_eq_true_2.
  - apply not_true_is_false. intros (r' & Hr' & [Hi%bool_decide_eq_true Hv'%bool_decide_eq_true]%andb_prop)%existsb_exists.
    apply list_elem_of_In in Hr'. rewrite (key_inj Release_ID (ed_releases s) r' r) in Hv' by (done || congruence). done.
Qed.

(** The offer as the database after [RecordEndpointCheckIn] gives it. *)
Lemma offered_after_report s e heartbeat now s1 r :
  NoDup (Endpoint_ID <$> ed_endpoints s) -> NoDup (Release_ID <$> ed_releases s) ->
  e ∈ ed_endpoints s -> Endpoint_Status e = EndpointActive ->
  RecordEndpointCheckIn (Endpoint_ID e) heartbeat now s = (Ok tt, s1) ->
  r ∈ omap (offered_release s1 (Endpoint_ID e)) (ed_assignments s1) <->
  pending_release s (Endpoint_ID e) (CheckIn_SoftwareVersion heartbeat) (CheckIn_OperatingSystem heartbeat) (CheckIn_Architecture heartbeat) r.
Proof.
  intros Hnd Hrel He Ha Hrec. unfold RecordEndpointCheckIn in Hrec. case_if_in Hrec; [done|]. injection Hrec as <-. clear E.
  rewrite list_elem_of_omap. unfold offered_release. simpl. rewrite heard_endpoint by done. simpl. split.
  - intros (a1 & (a & Hain & ->)%elem_of_update_where & H). case_if_in H; [done|]. apply orb_false_iff in E as [Hid Hst].
    apply negb_false_iff in Hid, Hst. destruct (pending_version s _ _ a) eqn:Ep; [done|]. apply bool_decide_eq_true in Hid.
    apply query_row_Some in H as [Hr H]. reflect_bools. split_and!; [done..| |by exists a].
    intros Hv. rewrite (pending_version_spec _ _ _ _ r) in Ep by done. by apply bool_decide_eq_false in Ep.
  - intros (Hr & Hst & Hos & Harch & Hv & a & Hain & Hid & Has & Hrid). exists a. split.
    + apply elem_of_update_where. exists a. split; [done|]. rewrite (pending_version_spec _ _ _ _ r) by done.
      by rewrite bool_decide_eq_false_2.
    + unfold one_of in Has; simpl in Has. rewrite Hid, Has, bool_decide_eq_true_2 by done. simpl.
      apply (query_row_unique Release_ID (Release_ID r)); [done| |done|].
      * intros r' H. reflect_bools. congruence.
      * by rewrite Hrid, Hst, Hos, Harch, !bool_decide_eq_true_2.
Qed.

(** All pending assignments of an endpoint name one release. *)
Lemma pending_unique s id version os arch r r' :
  NoDup (ua_endpoint_id <$> ed_assignments s) -> NoDup (Release_ID <$> ed_releases s) ->
  pending_release s id version os arch r -> pending_release s id version os arch r' -> r = r'.
Proof.
  intros Ha Hr (Hin & _ & _ & _ & _ & a & Hain & Hid & _ & Hrid) (Hin' & _ & _ & _ & _ & a' & Hain' & Hid' & _ & Hrid').
  apply (key_inj Release_ID (ed_releases s)); [done..|]. rewrite <- Hrid, <- Hrid'. f_equal.
  apply (key_inj ua_endpoint_id (ed_assignments s)); [done..|congruence].
Qed.

(** C36: an answered check-in offers an update exactly when one is pending for the endpoint:
    the release assigned to it, approved and not revoked since, built for the platform
    the agent reports, and of another version than the one it runs; and what is offered
    is the envelope that verified under the trusted key when it was imported. *)
Theorem update_offer_exact certificate heartbeat rs rn authAt now s endpoint answer s' :
  endpoints_ok svc s -> endpointFromConnection (WorkerService.connection_identity certificate) authAt s = Ok endpoint ->
  agent_handler IssueEndpoint certificate (AgentCheckInRequest heartbeat rs rn) authAt now s = (respond StatusOK (Some (CheckInAnswer answer)), s') ->
  let pending := pending_release s (Endpoint_ID endpoint) (CheckIn_SoftwareVersion heartbeat) (CheckIn_OperatingSystem heartbeat)
                   (CheckIn_Architecture heartbeat) in
  (forall envelope, Answer_UpdateEnvelope answer = Some envelope <-> exists r, pending r /\ Release_Envelope r = envelope) /\
  (forall r, pending r -> exists at_ m, Verify (Release_Envelope r) (us_key svc) (us_keyID svc) at_ = Ok m /\
     um_Version m = Release_Version r /\ um_OperatingSystem m = CheckIn_OperatingSystem heartbeat /\ um_Architecture m = CheckIn_Architecture heartbeat).
Proof.
  intros Hok He Hh. cbv zeta. apply endpointFromConnection_inv in He as Hinv. destruct Hinv as (Hin & Hact & _).
  destruct (ok_releases _ _ Hok) as [Hrel Hver], (ok_assignments _ _ Hok) as [Hasg _], (ok_endpoints _ _ Hok) as [Hend _].
  assert (Hr : exists s0 s1 s2, (ed_endpoints s0, ed_releases s0, ed_assignments s0) = (ed_endpoints s, ed_releases s, ed_assignments s) /\
    RecordEndpointCheckIn (Endpoint_ID endpoint) heartbeat now s0 = (Ok tt, s1) /\
    AgentUpdateOffer (Endpoint_ID endpoint) now s1 = (Ok (Answer_UpdateEnvelope answer), s2)).
  { unfold agent_handler in Hh. rewrite He in Hh. destruct (check_in _ _ _ _ _ _ _) as [r s1] eqn:Ec. injection Hh as Hr Hb ->.
    destruct (check_in_answered _ _ _ _ _ _ _ _ _ Ec Hr) as (answer' & -> & [_ (s0 & s1 & s2 & s3 & s4 & s5 & s6 & s7 & H)]).
    injection Hb as <-. destruct H as (Hi & Hc & Hu & _). exists s0, s1, s2. split; [|done].
    apply (integrity_keeps (fun s => (ed_endpoints s, ed_releases s, ed_assignments s)) _ _ _ _ _ _ ltac:(intros ? ? ? ?; table_frame) Hi). }
  destruct Hr as (s0 & s1 & s2 & [= E1 E2 E3] & Hc & Hu).
  assert (Hpend : forall r, pending_release s (Endpoint_ID endpoint) (CheckIn_SoftwareVersion heartbeat) (CheckIn_OperatingSystem heartbeat)
      (CheckIn_Architecture heartbeat) r <-> r ∈ omap (offered_release s1 (Endpoint_ID endpoint)) (ed_assignments s1)).
  { intros r. rewrite (offered_after_report s0 endpoint heartbeat now s1) by (rewrite ?E1, ?E2; done).
    unfold pending_release. by rewrite E2, E3. }
  split.
  - intros envelope. unfold AgentUpdateOffer in Hu. destruct (omap _ _) as [|r l] eqn:Eo.
    + injection Hu as <- <-. split; [done|]. intros (r & Hr & _). apply Hpend in Hr. by apply not_elem_of_nil in Hr.
    + injection Hu as <- <-. split.
      * intros [= <-]. exists r. split; [|done]. apply Hpend. by left.
      * intros (r' & Hr' & <-). do 2 f_equal. eapply pending_unique; [done|done| |exact Hr']. apply Hpend. by left.
  - intros r (Hin' & _ & Hos & Harch & _). rewrite Forall_forall in Hver. destruct (Hver r Hin') as (t & m & Hv & ? & ? & ? & _).
    exists t, m. split_and!; congruence.
Qed.
End updates.

(** * Modules *)

#[export] Instance offer_ltb_weak : StrictWeak offer_ltb.
Proof.
  split.
  - intros x y. unfold offer_ltb. rewrite orb_true_iff, orb_false_iff, andb_true_iff, Z.ltb_lt, Z.ltb_ge, Z.eqb_eq.
    intros [H|[H1 H2]]; (split; [lia|]).
    + apply andb_false_iff. left. apply Z.eqb_neq. lia.
    + apply andb_false_iff. right. by apply less_asym; [apply _|].
  - intros x y z. unfold offer_ltb. rewrite !orb_false_iff, !andb_false_iff, !Z.ltb_ge, !Z.eqb_neq. intros [H1 H2] [H3 H4].
    split; [lia|]. destruct (decide (target_rank z.1 = target_rank x.1)); [|by left]. right.
    destruct H2 as [?|H2]; [lia|]. destruct H4 as [?|H4]; [lia|]. by eapply less_ntrans; [apply _|exact H4|exact H2].
Qed.

Section modules.
Context (endpointID agentVersion os arch : string).

Definition module_id (x : ModuleAssignment * ModuleRelease) : string := Manifest_ID (mr_Manifest x.2).
Definition offer_of (x : ModuleAssignment * ModuleRelease) : ModuleOffer := mkOffer (mr_ID x.2) (mr_Envelope x.2) false.
Definition fits (x : ModuleAssignment * ModuleRelease) : bool :=
  default false (Compatible (mr_Manifest x.2) agentVersion os arch) && inModuleRing endpointID (ma_ID x.1) (ma_RingPercent x.1).

(** The rows the loop selects, in order. *)
Fixpoint selected (seen : gset string) (rows : list (ModuleAssignment * ModuleRelease)) : list (ModuleAssignment * ModuleRelease) :=
  match rows with
  | [] => []
  | x :: rows =>
      if bool_decide (module_id x ∈ seen) || negb (fits x) then selected seen rows
      else x :: selected ({[ module_id x ]} ∪ seen) rows
  end.

Lemma offers_selected rows acc :
  (fold_left (offer_step endpointID agentVersion os arch) rows acc).1 = (acc.1 ++ (offer_of <$> selected acc.2 rows))%list.
Proof.
  revert acc. induction rows as [|[a r] rows IH]; intros [offers seen]; simpl; [by rewrite app_nil_r|].
  rewrite IH. unfold fits, module_id. simpl. rewrite negb_andb, orb_assoc.
  case_if; [done|]. simpl. by rewrite <- app_assoc.
Qed.

Lemma selected_sound seen rows x : x ∈ selected seen rows -> x ∈ rows /\ fits x = true /\ module_id x ∉ seen.
Proof.
  revert seen. induction rows as [|y rows IH]; intros seen; simpl; [by intros ?%not_elem_of_nil|]. case_if.
  - intros H%IH. split_and!; [right|..]; apply H.
  - apply orb_false_iff in E as [Es%bool_decide_eq_false Ef%negb_false_iff]. intros [->|H]%elem_of_cons; [split_and!; [by left|done..]|].
    apply IH in H as (H1 & H2 & H3). split_and!; [by right|done|set_solver].
Qed.

Lemma selected_NoDup seen rows : NoDup (module_id <$> selected seen rows).
Proof.
  revert seen. induction rows as [|y rows IH]; intros seen; simpl; [constructor|]. case_if; [done|]. simpl. apply NoDup_cons. split; [|done].
  intros (x & Ex & Hx)%list_elem_of_fmap. apply selected_sound in Hx as (_ & _ & Hx). set_solver.
Qed.

(** For each module the first row that fits is selected. *)
Lemma selected_best seen rows x :
  ordered offer_ltb rows -> x ∈ rows -> fits x = true -> module_id x ∉ seen ->
  exists y, y ∈ selected seen rows /\ module_id y = module_id x /\ offer_ltb x y = false.
Proof.
  intros Ho. revert seen. induction Ho as [|z rows Ho IH Hz]; intros seen; [by intros ?%not_elem_of_nil|].
  rewrite Forall_forall in Hz. intros Hx Hf Hs. simpl. case_if.
  - apply elem_of_cons in Hx as [->|Hx]; [|by apply IH]. exfalso. apply orb_true_iff in E as [E%bool_decide_eq_true|E]; [done|].
    by rewrite Hf in E.
  - destruct (decide (module_id z = module_id x)) as [Ez|Ez].
    + exists z. split_and!; [by left|done|]. apply elem_of_cons in Hx as [->|Hx]; [|by apply Hz].
      destruct (offer_ltb z z) eqn:Ezz; [|done]. pose proof (less_asym offer_ltb _ _ Ezz). congruence.
    + apply elem_of_cons in Hx as [->|Hx]; [done|]. destruct (IH ({[ module_id z ]} ∪ seen)) as (y & Hy & ? & ?); [done..|set_solver|].
      exists y. split_and!; [by right|done..].
Qed.
End modules.

(** A release offered to an endpoint and the assignment it is offered for. *)
Definition deployed (s : EndpointDb) (endpointID agentVersion os arch : string) (x : ModuleAssignment * ModuleRelease) : Prop :=
  x.1 ∈ ed_module_assignments s /\ ma_Enabled x.1 = true /\ endpointID ∈ Endpoint_ID <$> ed_endpoints s /\
  targets s endpointID (ma_TargetType x.1) (ma_TargetID x.1) = true /\
  x.2 ∈ ed_module_releases s /\ mr_ID x.2 = ma_ReleaseID x.1 /\ mr_Status x.2 = ReleaseApproved /\
  Compatible (mr_Manifest x.2) agentVersion os arch = Some true /\ inModuleRing endpointID (ma_ID x.1) (ma_RingPercent x.1) = true.

Lemma applicable_spec s endpointID x : NoDup (mr_ID <$> ed_module_releases s) ->
  x ∈ omap (applicable_assignment s endpointID) (ed_module_assignments s) <->
  x.1 ∈ ed_module_assignments s /\ ma_Enabled x.1 = true /\ endpointID ∈ Endpoint_ID <$> ed_endpoints s /\
  targets s endpointID (ma_TargetType x.1) (ma_TargetID x.1) = true /\
  x.2 ∈ ed_module_releases s /\ mr_ID x.2 = ma_ReleaseID x.1 /\ mr_Status x.2 = ReleaseApproved.
Proof.
  intros Hnd. rewrite list_elem_of_omap. unfold applicable_assignment. split.
  - intros (a & Ha & H). case_if_in H; [|done]. destruct (query_row _ _) as [r|] eqn:Er; [|done]. injection H as <-. simpl.
    apply query_row_Some in Er as [Hr [Hi%bool_decide_eq_true Hst%bool_decide_eq_true]%andb_prop]. reflect_bools. by split_and!.
  - destruct x as [a r]. simpl. intros (Ha & Hen & Hin & Ht & Hr & Hi & Hst). exists a. split; [done|].
    rewrite Hen, Ht, bool_decide_eq_true_2 by done. simpl.
    rewrite (query_row_unique mr_ID (mr_ID r) _ _ r); [done|done| |done|].
    + intros r' H. reflect_bools. congruence.
    + by rewrite Hi, Hst, !bool_decide_eq_true_2.
Qed.

Section module_offers.
Context {TZ : TimeZones} {LC : LowerCase} {CF : CaseFolding} {UC : UpdateCrypto} {MC : ModuleCrypto} (svc : UpdateService).

(** The modules offered at a check-in are one release per module: enabled for the
    endpoint or a group of its asset, approved, verified under a publisher's key,
    compatible with the agent and in the deployment ring; every module that has such a
    release is offered, by an assignment to the endpoint itself rather than to a group
    and then by the newest; and when modules are switched off the only answer is the
    order to disable them. *)
Theorem module_offers_exact endpointID agentVersion os arch s (Hok : endpoints_ok svc s) :
  if ed_modules_enabled s
  then exists chosen, AgentModuleOffers endpointID agentVersion os arch s = offer_of <$> chosen /\ NoDup (module_id <$> chosen) /\
    Forall (fun x => deployed s endpointID agentVersion os arch x /\ module_verified x.2) chosen /\
    forall x, deployed s endpointID agentVersion os arch x ->
      exists y, y ∈ chosen /\ module_id y = module_id x /\ offer_ltb x y = false
  else AgentModuleOffers endpointID agentVersion os arch s = [mkOffer "" "" true].
Proof.
  unfold AgentModuleOffers. destruct (ed_modules_enabled s); [|done]. simpl. rewrite offers_selected. simpl.
  set (rows := omap (applicable_assignment s endpointID) (ed_module_assignments s)).
  destruct (ok_modules _ _ Hok) as [Hnd Hver]. rewrite Forall_forall in Hver.
  assert (Hrows : forall x, x ∈ sort_slice offer_ltb rows /\ fits endpointID agentVersion os arch x = true <->
    deployed s endpointID agentVersion os arch x).
  { intros x. rewrite elem_of_sort_slice. unfold rows. rewrite applicable_spec by done. unfold deployed, fits. rewrite andb_true_iff.
    destruct (Compatible _ _ _ _) as [[]|]; naive_solver. }
  exists (selected endpointID agentVersion os arch ∅ (sort_slice offer_ltb rows)). split_and!.
  - done.
  - apply selected_NoDup.
  - apply Forall_forall. intros x (Hx & Hf & _)%selected_sound.
    assert (Hd : deployed s endpointID agentVersion os arch x) by (by apply Hrows). split; [done|]. apply Hver, Hd.
  - intros x Hx. apply Hrows in Hx as [Hx Hf]. apply selected_best; [apply sort_slice_ordered; apply _|done|done|set_solver].
Qed.
End module_offers.

(** A loop whose body never fails. *)
Lemma for_each_collect {A B} (f : A -> result B) acc l :
  (forall x, x ∈ l -> is_ok (f x) = true) ->
  exists rs, for_each (fun acc x => r ← f x; Ok (acc ++ [r])%list) acc l = Ok (acc ++ rs)%list /\ Forall2 (fun x r => f x = Ok r) l rs.
Proof.
  revert acc. induction l as [|x l IH]; intros acc H; simpl; [exists []; by rewrite app_nil_r|].
  specialize (H x ltac:(by left)) as Hx. destruct (f x) as [r|] eqn:E; [|done]. simpl.
  destruct (IH (acc ++ [r])%list) as (rs & -> & Hrs); [intros y Hy; apply H; by right|].
  exists (r :: rs). rewrite <- app_assoc. split; [done|]. by constructor.
Qed.

Section alerts.
Context {TZ : TimeZones} {LC : LowerCase} {CF : CaseFolding} {UC : UpdateCrypto} {MC : ModuleCrypto} (svc : UpdateService).

Lemma suppression_total ws policy now : Forall (fun w => Validate w = Ok tt) ws ->
  exists r, HeartbeatAlertSuppression ws policy now = Ok r.
Proof.
  intros H. unfold HeartbeatAlertSuppression. case_if; [by eexists|]. rewrite suppress_windows by done. simpl.
  repeat (case_if; [by eexists|]). by eexists.
Qed.

Lemma relay_suppressed_total id now s : endpoints_ok svc s -> id ∈ Endpoint_ID <$> ed_endpoints s -> exists b, relay_suppressed id now s = Ok b.
Proof.
  intros Hok Hid. unfold relay_suppressed, ResolveDelayedHeartbeatPolicy. rewrite bool_decide_eq_true_2 by done. simpl.
  case_if; [|by eexists]. destruct (suppression_total (RelayUploadWindowsForEndpoint id s)
    (Resolve id (select_where (fun p => targets s id (dp_TargetType p) (dp_TargetID p)) (ed_policies s))) now) as [r Hr]; [|rewrite Hr; by eexists].
  unfold RelayUploadWindowsForEndpoint. apply Forall_forall. intros w Hw. rewrite elem_of_sort_slice in Hw. apply elem_of_select_where in Hw as [Hw _].
  destruct (ok_windows _ _ Hok) as [_ Hv]. rewrite Forall_forall in Hv. auto.
Qed.

Definition has_alert (code : string) (alerts : list EndpointAlert) : Prop := exists a, a ∈ alerts /\ Alert_Code a = code.

Lemma minutes_small n : 0 <= n <= 10080 -> minutes n = n * Minute.
Proof. intros H. unfold minutes. apply wrap64_id, int64_range_small. unfold Minute, Second. lia. Qed.

(** The thresholds the settings were validated for. *)
Lemma thresholds hb : validateEndpointHeartbeatSettings hb = Ok tt ->
  minutes (hb_MissedAfterMinutes hb) = hb_MissedAfterMinutes hb * Minute /\ minutes (hb_StaleAfterMinutes hb) = hb_StaleAfterMinutes hb * Minute /\
  0 < hb_MissedAfterMinutes hb < hb_StaleAfterMinutes hb.
Proof.
  intros [H1 [H2 _]%reject_ok]%reject_ok. reflect_bools. rewrite !minutes_small by lia. lia.
Qed.

Lemma has_alert_nil code : ~ has_alert code [].
Proof. by intros (a & ?%not_elem_of_nil & _). Qed.
Lemma has_alert_app code l l' : has_alert code (l ++ l') <-> has_alert code l \/ has_alert code l'.
Proof. unfold has_alert. setoid_rewrite elem_of_app. naive_solver. Qed.
Lemma has_alert_one code c severity message : has_alert code [alert c severity message] <-> c = code.
Proof. unfold has_alert. setoid_rewrite list_elem_of_singleton. naive_solver. Qed.

Lemma endpointAlerts_spec e hb inMaintenance suppressed now (Hhb : validateEndpointHeartbeatSettings hb = Ok tt) :
  let alerts := endpointAlerts e hb inMaintenance suppressed now in
  let shown := Endpoint_Status e <> EndpointRevoked /\ Before now (Endpoint_ExpiresAt e) = true /\ hb_Enabled hb = true /\
               inMaintenance = false /\ suppressed = false in
  let age := Sub now (last_heartbeat e) in
  (has_alert "agent_stale" alerts <-> shown /\ hb_StaleAfterMinutes hb * Minute <= age) /\
  (has_alert "heartbeat_missed" alerts <-> shown /\ hb_MissedAfterMinutes hb * Minute <= age < hb_StaleAfterMinutes hb * Minute).
Proof.
  cbv zeta. destruct (thresholds hb Hhb) as (Em & Es & Hlt). unfold endpointAlerts. rewrite Em, Es.
  assert (Hms : hb_MissedAfterMinutes hb * Minute < hb_StaleAfterMinutes hb * Minute) by (unfold Minute, Second; lia).
  clear Em Es Hlt Hhb. generalize (Sub now (last_heartbeat e)) as age. intros age.
  case_bool_decide as Hr; [rewrite !has_alert_one; naive_solver|].
  destruct (Before now (Endpoint_ExpiresAt e)) eqn:Eb; simpl; [|rewrite !has_alert_one; naive_solver].
  match goal with |- context [if ?c then [alert "certificate_expiring" ?x ?y] else []] =>
    set (prefix := if c then [alert "certificate_expiring" x y] else []) end.
  assert (Hp : ~ has_alert "agent_stale" prefix /\ ~ has_alert "heartbeat_missed" prefix)
    by (unfold prefix; case_if; rewrite ?has_alert_one; split; try apply has_alert_nil; done).
  clearbody prefix. destruct (hb_Enabled hb); simpl; [|naive_solver].
  destruct inMaintenance, suppressed, (hb_MissedAfterMinutes hb * Minute <=? age) eqn:Em, (hb_StaleAfterMinutes hb * Minute <=? age) eqn:Es;
    simpl; reflect_bools; rewrite ?has_alert_app, ?has_alert_one; naive_solver lia.
Qed.

(** What the list shows of an endpoint. *)
Definition silenced (e : Endpoint) (now : Time) (s : EndpointDb) : Prop :=
  EndpointInMaintenance (Endpoint_ID e) now s = true \/ relay_suppressed (Endpoint_ID e) now s = Ok true.
Definition age (e : Endpoint) (now : Time) : Duration := Sub now (last_heartbeat e).
Definition watched (e : Endpoint) (now : Time) (s : EndpointDb) : Prop :=
  Endpoint_Status e <> EndpointRevoked /\ Before now (Endpoint_ExpiresAt e) = true /\ hb_Enabled (ed_heartbeat s) = true /\ ~ silenced e now s.

(** Listing the endpoints never fails: it returns every endpoint once, by name; an
    endpoint is reported stale, or late, exactly when it is neither revoked nor expired,
    the alerts are on, neither a maintenance window nor an upload window or its grace
    covers it, and the age of its last heartbeat has reached the stale threshold, or the
    missed threshold but not the stale one. *)
Theorem endpoint_list_alerts now s (Hok : endpoints_ok svc s) :
  exists rows, Endpoints now s = Ok rows /\ rows.*1 = ListEndpoints s /\ rows.*1 ≡ₚ ed_endpoints s /\
  forall e alerts, (e, alerts) ∈ rows ->
    (has_alert "agent_stale" alerts <-> watched e (now e) s /\ hb_StaleAfterMinutes (ed_heartbeat s) * Minute <= age e (now e)) /\
    (has_alert "heartbeat_missed" alerts <-> watched e (now e) s /\
       hb_MissedAfterMinutes (ed_heartbeat s) * Minute <= age e (now e) < hb_StaleAfterMinutes (ed_heartbeat s) * Minute).
Proof.
  assert (Hin : forall e, e ∈ ListEndpoints s -> e ∈ ed_endpoints s) by (intros e; unfold ListEndpoints; by rewrite elem_of_sort_slice).
  assert (Hrel : forall e, e ∈ ListEndpoints s -> exists b, relay_suppressed (Endpoint_ID e) (now e) s = Ok b).
  { intros e He. apply relay_suppressed_total; [done|]. by apply list_elem_of_fmap_2, Hin. }
  destruct (for_each_collect (fun e => listed_endpoint (now e) s e) [] (ListEndpoints s)) as (rows & Hrows & Hf).
  { intros e He. unfold listed_endpoint. destruct (Hrel e He) as [b ->]. done. }
  exists rows. split; [exact Hrows|].
  assert (Hfst : rows.*1 = ListEndpoints s).
  { clear Hrows Hin Hrel. induction Hf as [|e r l rs He Hf IH]; [done|]. simpl. f_equal; [|exact IH].
    unfold listed_endpoint in He. destruct (relay_suppressed _ _ _); [|done]. by injection He as <-. }
  split; [done|]. split; [rewrite Hfst; apply sort_slice_perm|]. intros e alerts Hea.
  apply list_elem_of_lookup in Hea as [i Hi]. destruct (Forall2_lookup_r _ _ _ _ _ Hf Hi) as (e' & He' & Hl).
  apply list_elem_of_lookup_2 in He'. unfold listed_endpoint in Hl. destruct (Hrel e' He') as [b Hb]. rewrite Hb in Hl. injection Hl as <- <-.
  destruct (endpointAlerts_spec e' (ed_heartbeat s) (EndpointInMaintenance (Endpoint_ID e') (now e') s) b (now e') (ok_heartbeat _ _ Hok)) as [-> ->].
  assert (Hsil : ~ silenced e' (now e') s <-> EndpointInMaintenance (Endpoint_ID e') (now e') s = false /\ b = false).
  { unfold silenced. rewrite Hb. destruct (EndpointInMaintenance _ _ _), b; naive_solver. }
  unfold watched, age. rewrite Hsil. naive_solver.
Qed.
End alerts.
