(* ===== verification/EndpointExamples.v ===== *)
(** Upload windows at concrete times, and endpoint agents on a concrete history: a laptop is enrolled, its collectors
    and exclusions are set, it checks in, an update and a module are imported,
    approved and assigned, and it checks in again. *)
From Stdlib Require Import ZArith Lia String.
From stdpp Require Import base tactics list strings gmap sets.
From S2P Require Import Prelude GoStrings GoTime GoLocation Netip WorkerModel WorkerEvidence Sql WorkerStore WorkerExamples WorkerIdentity WorkerService WorkerServiceExamples NetworkPolicy AgentModule RelayWindow RelayWindowSafety AgentUpdate EndpointModel EndpointStore ModuleCatalog EndpointService EndpointAdmin EndpointMachine EndpointSafety EndpointInvariant EndpointIdentity EndpointIntegrity EndpointOffers.
Open Scope Z_scope.

(** UTC and one zone two hours east of it. *)
Definition test_zones : TimeZones := {| LoadLocation name :=
  if bool_decide (name = "UTC"%string) then Some utc_location
  else if bool_decide (name = "Etc/GMT-2"%string) then Some (FixedZone 7200) else None |}.
#[local] Existing Instance test_zones.

(** Tuesday 2023-11-14 22:13:20 UTC. *)
Definition tuesday_night : Time := 1700000000 * Second.

(** Tuesdays from 22:00 to 01:00 on the clock of the zone. *)
Definition night_window (id zone : string) : RelayUploadWindow := {|
  rw_ID := id; rw_Name := "night"; rw_TargetType := MaintenanceTargetEndpoint; rw_TargetID := "e1"; rw_Timezone := zone; rw_Days := [2];
  rw_StartMinute := 1320; rw_EndMinute := 60; rw_Enabled := true; rw_Reason := ""; rw_CreatedBy := "admin"; rw_CreatedAt := ZeroTime;
  rw_UpdatedBy := "admin"; rw_UpdatedAt := ZeroTime |}.

Definition group_delay (group : string) (allow : bool) (grace : Z) : DelayedHeartbeatPolicy := {|
  dp_TargetType := MaintenanceTargetGroup; dp_TargetID := group; dp_AllowDelayedHeartbeats := allow; dp_PostWindowGraceMinutes := grace;
  dp_Reason := "isolated"; dp_UpdatedBy := "admin"; dp_UpdatedAt := ZeroTime |}.
Definition two_groups : list DelayedHeartbeatPolicy := [group_delay "g1" true 60; group_delay "g2" true 30].

Lemma resolved_policy_restrictive_witness :
  Resolve "e1" [group_delay "g2" true 30; group_delay "g1" true 60] = Resolve "e1" two_groups /\
  rp_AllowDelayedHeartbeats (Resolve "e1" two_groups) = true /\ rp_PostWindowGraceMinutes (Resolve "e1" two_groups) = 30.
Proof.
  split; [|vm_compute; auto].
  apply (resolved_policy_restrictive "e1" two_groups).
  - repeat constructor.
  - apply Permutation_swap.
Defined.

Definition one_window : list RelayUploadWindow := [night_window "w1" "UTC"].
Lemma one_window_policy : gate_policy one_window.
Proof. split; [constructor; [|constructor]; split; [vm_compute; reflexivity|discriminate]|]. apply NoDup_singleton. Defined.


(** The clock of an endpoint in the year 1700. *)
Lemma far_clock_drift_allowed_witness :
  gd_Allowed (Evaluate one_window (tuesday_night - 324 * 365 * 86400 * Second) tuesday_night) = true.
Proof.
  apply (far_clock_drift_allowed one_window (tuesday_night - 324 * 365 * 86400 * Second) tuesday_night).
  - vm_compute. discriminate.
  - reflexivity.
  - reflexivity.
  - exact one_window_policy.
  - vm_compute. discriminate.
Defined.

Definition delay_allowed : ResolvedDelayedHeartbeatPolicy := Resolve "e1" two_groups.
(** On the clock two hours east the window closed 73 minutes before, on UTC it is open. *)
Definition two_windows : list RelayUploadWindow := [night_window "w1" "UTC"; night_window "w2" "Etc/GMT-2"].


(** * The parameters *)

#[local] Existing Instance test_zones.
#[local] Instance test_lower : LowerCase := {| ToLowerText := ToLower |}.
#[local] Instance test_folding : CaseFolding := ascii_folding.
(** A signature is the digest behind the key. *)
#[local] Instance test_integrity : IntegrityCrypto := {|
  canonical sequence snapshot := Some (append_int sequence 0 +:+ Snapshot_ExecutableSHA256 snapshot +:+ Snapshot_ConfigurationSHA256 snapshot);
  digest payload := append_int (fnv32a payload) 0;
  encode_signature s := ("=" +:+ s)%string;
  decode_signature s := match s with String _ s => Some s | EmptyString => None end;
  IntegrityKey := string; integrity_public key := key;
  integrity_sign key d _ := (key +:+ d)%string;
  integrity_verify key d s := bool_decide (s = key +:+ d) |}.
#[local] Instance test_integrity_laws : IntegrityCryptoLaws.
Proof. split; [done|done|]. intros key d random. simpl. by apply bool_decide_eq_true_2. Qed.

Definition hex64 (c : string) : string := String.concat "" (replicate 64 c).
Definition test_manifest : UpdateManifest := {|
  um_SchemaVersion := 1; um_Version := "1.3.0"; um_OperatingSystem := "linux"; um_Architecture := "amd64";
  um_ArtifactURL := "https://updates.example/agent"; um_ArtifactSHA256 := hex64 "a"; um_ArtifactSize := 1000;
  um_IssuedAt := after (-60); um_ExpiresAt := after 86400; um_HealthTimeoutSeconds := 60 |}.
#[local] Instance test_update : UpdateCrypto := {|
  decode_envelope e := if bool_decide (e = "signed-update"%string) then Some (AgentUpdate.mkEnvelope "k1" "manifest" "signature") else None;
  decode_manifest m := if bool_decide (m = "manifest"%string) then Some test_manifest else None;
  base64_decode s := Some s;
  ed25519_verify key message signature := bool_decide (signature = "signature"%string);
  url_parse u := Some {| url_Scheme := "https"; url_Host := "updates.example"; url_HasUser := false; url_Fragment := "" |};
  sha256_sum s := s; hex_encode s := s |}.
Definition update_service : UpdateService := {| us_keyID := "k1"; us_key := "key" |}.

Definition module_manifest : Manifest := {|
  Manifest_SchemaVersion := 1; Manifest_ModuleAPIVersion := 1; Manifest_ID := "com.example.disk"; Manifest_Name := "Disk";
  Manifest_Version := "0.1.0"; Manifest_MinimumAgentVersion := "1.2.0"; Manifest_OperatingSystems := ["linux"%string];
  Manifest_Architectures := ["amd64"%string]; Manifest_Capabilities := firstn 1 supportedCaps; Manifest_Kind := KindDeclarative;
  Manifest_Permissions := firstn 1 supportedPermissions; Manifest_Entrypoint := ""; Manifest_PackageSHA256 := hex64 "b"; Manifest_PackageSize := 7;
  Manifest_PublisherKeyID := "pub"; Manifest_MemoryLimitMB := 64; Manifest_TimeoutSeconds := 30 |}.
#[local] Instance test_module : ModuleCrypto := {|
  parse_envelope e := if bool_decide (e = "signed-module"%string) then Some {| me_Manifest := "m"; me_Package := "package"; me_Signature := "s" |} else None;
  parse_manifest m := Some module_manifest;
  parse_package p := Some {| pkg_SchemaVersion := 1; pkg_Checks := [{| dc_ID := "com.example.free"; dc_Source := default ""%string (head supportedPermissions);
    dc_Field := "free"; dc_Operator := "equals"; dc_Severity := "low" |}] |};
  peek_publisher e := Some "pub"%string;
  raw_base64_decode s := Some s; package_sha256 s := s; to_hex s := if bool_decide (s = "package"%string) then hex64 "b" else s;
  ed25519_ok key message signature := true |}.

(** * The history *)

Definition the_snapshot (c : string) : AgentIntegritySnapshot := {|
  Snapshot_ExecutableSHA256 := hex64 c; Snapshot_ConfigurationSHA256 := hex64 "2"; Snapshot_IdentitySHA256 := hex64 "3";
  Snapshot_ObservedAt := t0 |}.
Definition signed (sequence : Z) (c : string) : SignedAgentIntegritySnapshot :=
  match SignIntegrity ("pk"%string : IntegrityKey) sequence (the_snapshot c) "" with
  | Ok e => e
  | Err _ => {| Envelope_Sequence := sequence; Envelope_Snapshot := the_snapshot c; Envelope_Signature := "" |}
  end.
Definition envelope_of (sequence : Z) (c : string) : option SignedAgentIntegritySnapshot := Some (signed sequence c).
Definition heartbeat (version : string) (integrity : option SignedAgentIntegritySnapshot) : AgentCheckIn := {|
  CheckIn_SchemaVersion := 2; CheckIn_GeneratedAt := t0; CheckIn_SoftwareVersion := version; CheckIn_OperatingSystem := "linux";
  CheckIn_Architecture := "amd64"; CheckIn_SupportedCollectors := [CollectorNetworkTelemetry]; CheckIn_ModuleHealth := [];
  CheckIn_OSInventory := Some {| OS_Family := "linux"; OS_Name := "Debian"; OS_Version := "12"; OS_Build := ""; OS_Kernel := "6.1";
    OS_Architecture := "amd64"; OS_Patches := []; OS_CollectedAt := t0 |};
  CheckIn_SoftwareInventory := None; CheckIn_ListeningInventory := None; CheckIn_PostureInventory := None;
  CheckIn_NetworkInventory := Some (mkNetworkInventory [sample_connection "10.1.2.3"; sample_connection "198.51.100.7"] t0);
  CheckIn_IntegritySnapshot := integrity |}.
Definition e1_certificate : Certificate := {|
  Certificate_Serial := Some "serial-e1"%string; Certificate_NotBefore := after (-86400); Certificate_NotAfter := after 86400;
  Certificate_DigitalSignature := true; Certificate_URIs := ["spiffe://mossward/endpoint/e1"]%string;
  Certificate_Key := KeyECDSA; Certificate_PublicKey := "pk" |}.

Definition empty_endpoints : EndpointDb := {|
  ed_tokens := []; ed_endpoints := []; ed_snapshots := []; ed_events := []; ed_os := ∅; ed_software := ∅; ed_listening := ∅; ed_posture := ∅;
  ed_network := ∅; ed_heartbeat := defaultEndpointHeartbeatSettings; ed_maintenance := []; ed_windows := []; ed_policies := [];
  ed_groups := []; ed_members := []; ed_releases := []; ed_assignments := []; ed_publishers := []; ed_module_releases := [];
  ed_module_assignments := []; ed_module_health := ∅; ed_modules_enabled := true |}.
Definition run_e (ops : list endpoint_op) (s : EndpointDb) : EndpointDb := run_endpoints test_sum test_issue update_service ops s.

Definition ops_ticket : list endpoint_op := [OpCreateToken "laptop" "admin" "t1" test_token (after (-120))].
Definition ops_joined : list endpoint_op := ops_ticket ++ [OpEnroll test_token "csr" "e1" (after (-60))].
Definition ops_configured : list endpoint_op := ops_joined ++
  [OpCollectors "e1" [CollectorNetworkTelemetry];
   OpExclusions "e1" (mkExclusions [] [mkExclusion NetworkExcludeCIDR "10.9.0.0/8"])].
Definition check_in_op (h : AgentCheckIn) (seconds : Z) : endpoint_op :=
  OpRequest (Some e1_certificate) (AgentCheckInRequest h None None) (after seconds) (after seconds).
Definition ops_seen : list endpoint_op := ops_configured ++ [check_in_op (heartbeat "1.2.0" (envelope_of 1 "1")) 0].
Definition ops_catalog : list endpoint_op := ops_seen ++
  [OpImportUpdate "signed-update" "admin" (after 1); OpApproveUpdate (String.substring 0 16 "signed-update") "admin" (after 2);
   OpAssignUpdate "e1" (String.substring 0 16 "signed-update") "admin" (after 3);
   OpPublisher "pub" "Example" (String.substring 0 32 (hex64 "k")) true "admin" (after 4); OpImportModule "signed-module" "admin" (after 5);
   OpApproveModule "signed-module" "admin" (after 6);
   OpAssignModule "a1" "signed-module" "endpoint" "e1" 100 true "admin" (after 7)].
Definition ops_changed : list endpoint_op := ops_catalog ++ [check_in_op (heartbeat "1.2.0" (envelope_of 2 "4")) 60].
Definition ops_installed : list endpoint_op := ops_changed ++ [check_in_op (heartbeat "1.3.0" (envelope_of 3 "4")) 120].

Definition answer_of (ops : list endpoint_op) (h : AgentCheckIn) (seconds : Z) : Response agent_answer :=
  (agent_handler test_issue (Some e1_certificate) (AgentCheckInRequest h None None) (after seconds) (after seconds) (run_e ops empty_endpoints)).1.
Definition offers_in (r : Response agent_answer) : option (option string * list ModuleOffer) :=
  match Response_Body r with Some (CheckInAnswer a) => Some (Answer_UpdateEnvelope a, Answer_ModuleOffers a) | _ => None end.

Example catalog_offered :
  offers_in (answer_of ops_catalog (heartbeat "1.2.0" (envelope_of 2 "4")) 60) =
  Some (Some "signed-update"%string, [mkOffer "signed-module" "signed-module" false]).
Proof. vm_compute. reflexivity. Qed.

(** The agent's report of 1.3.0 settles the assignment, and nothing is offered any more. *)
Example update_installed :
  ua_status <$> ed_assignments (run_e ops_installed empty_endpoints) = ["installed"%string] /\
  offers_in (answer_of ops_installed (heartbeat "1.3.0" (envelope_of 4 "4")) 180) = Some (None, [mkOffer "signed-module" "signed-module" false]).
Proof. vm_compute. auto. Qed.

(** The change of the executable is one event. *)
Example executable_changed :
  (fun e => (event_component e, event_previous e, event_current e, event_sequence e)) <$> integrity_events "e1" (run_e ops_installed empty_endpoints) =
  [("executable"%string, hex64 "1", hex64 "4", 2)].
Proof. vm_compute. reflexivity. Qed.

(** The excluded range is not stored, nor the inventory of a collector that is not allowed. *)
Example only_allowed_collected :
  let s := run_e ops_seen empty_endpoints in
  ed_os s !! "e1"%string = None /\ (fun r => Conn_RemoteAddress <$> NetworkInv_Connections (received_item r)) <$> (ed_network s !! "e1"%string)
    = Some ["198.51.100.7"]%string.
Proof. vm_compute. auto. Qed.

(** * Witnesses *)

Lemma empty_endpoints_ok : endpoints_ok update_service empty_endpoints.
Proof. split; simpl; try (split; constructor); try apply map_Forall_empty; try constructor; try done. Qed.
Lemma run_e_ok ops : endpoints_ok update_service (run_e ops empty_endpoints).
Proof. apply run_endpoints_ok, empty_endpoints_ok. Qed.

Lemma endpoint_invariant_witness :
  endpoints_ok update_service (run_e ops_installed empty_endpoints) /\ length (ed_endpoints (run_e ops_installed empty_endpoints)) = 1%nat.
Proof.
  split; [|vm_compute; reflexivity].
  exact (endpoint_invariant test_sum test_issue update_service ops_installed empty_endpoints empty_endpoints_ok).
Defined.

Lemma agent_token_enrolls_once_witness :
  exists s1 e, Enroll test_sum test_issue test_token "csr" "e1" (after (-60)) (run_e ops_ticket empty_endpoints) = (Ok e, s1) /\
  let s2 := run_e [OpRevoke "e1" "lost" t0] s1 in
  Enroll test_sum test_issue test_token "other" "e2" t0 s2 = (Err ErrInvalidEnrollmentToken, s2).
Proof.
  destruct (Enroll test_sum test_issue test_token "csr" "e1" (after (-60)) (run_e ops_ticket empty_endpoints)) as [r s1] eqn:E.
  destruct r as [e|err].
  - exists s1, e. split; [reflexivity|].
    apply (agent_token_enrolls_once test_sum test_issue update_service test_token "csr" "e1" (after (-60)) (run_e ops_ticket empty_endpoints) e s1
      [OpRevoke "e1" "lost" t0] "other" "e2" t0 (run_e_ok _) E).
  - exfalso. vm_compute in E. discriminate E.
Defined.


Abbreviation e1_endpoint s := (endpointFromConnection (WorkerService.connection_identity (Some e1_certificate)) (after 60) s).
Abbreviation replayed :=
  (agent_handler test_issue (Some e1_certificate) (AgentCheckInRequest (heartbeat "1.2.0" (envelope_of 1 "1")) None None) (after 60) (after 60)
    (run_e ops_seen empty_endpoints)).

Lemma integrity_evidence_gate_witness : Response_Status replayed.1 = StatusConflict /\ replayed.2 = run_e ops_seen empty_endpoints.
Proof.
  assert (He : Endpoint_ID <$> e1_endpoint (run_e ops_seen empty_endpoints) = Ok "e1"%string) by (vm_compute; reflexivity).
  destruct (e1_endpoint (run_e ops_seen empty_endpoints)) as [e|err] eqn:E; [|discriminate He]. injection He as He.
  pose proof (integrity_evidence_gate test_issue e1_certificate (heartbeat "1.2.0" (envelope_of 1 "1")) None None (after 60) (after 60)
    (run_e ops_seen empty_endpoints) e (signed 1 "1") E (or_intror eq_refl) ltac:(vm_compute; reflexivity) eq_refl) as H.
  destruct replayed as [r s']. destruct H as (_ & H & _). apply H.
  - split; [reflexivity|]. vm_compute. reflexivity.
  - rewrite He. intros Hf. assert (Hrow : exists row, snapshot_of "e1" (run_e ops_seen empty_endpoints) = Some row /\ snap_sequence row = 1)
      by (eexists; split; vm_compute; reflexivity).
    destruct Hrow as (row & Hrow & Hseq). specialize (Hf row Hrow). rewrite Hseq in Hf. vm_compute in Hf. discriminate Hf.
Defined.


Abbreviation offered :=
  (agent_handler test_issue (Some e1_certificate) (AgentCheckInRequest (heartbeat "1.2.0" (envelope_of 2 "4")) None None) (after 60) (after 60)
    (run_e ops_catalog empty_endpoints)).
Lemma update_offer_exact_witness :
  exists e answer, offered.1 = respond StatusOK (Some (CheckInAnswer answer)) /\ Answer_UpdateEnvelope answer = Some "signed-update"%string /\
    exists r, pending_release (run_e ops_catalog empty_endpoints) (Endpoint_ID e) "1.2.0" "linux" "amd64" r.
Proof.
  assert (He : is_ok (e1_endpoint (run_e ops_catalog empty_endpoints)) = true) by (vm_compute; reflexivity).
  destruct (e1_endpoint (run_e ops_catalog empty_endpoints)) as [e|err] eqn:E; [|discriminate He].
  assert (Hf : (Response_Status offered.1, fst <$> offers_in offered.1) = (StatusOK, Some (Some "signed-update"%string))) by (vm_compute; reflexivity).
  destruct offered as [[status [[answer|renewed]|]] s'] eqn:Eo; try discriminate Hf. injection Hf as -> Ha.
  exists e, answer. split; [reflexivity|]. split; [exact Ha|].
  destruct (update_offer_exact test_issue update_service (Some e1_certificate) (heartbeat "1.2.0" (envelope_of 2 "4")) None None (after 60) (after 60)
    (run_e ops_catalog empty_endpoints) e answer s' (run_e_ok _) E Eo) as [H _].
  destruct (proj1 (H _) Ha) as (r & Hr & _). exists r. exact Hr.
Defined.

Lemma module_offers_exact_witness :
  exists chosen, AgentModuleOffers "e1" "1.2.0" "linux" "amd64" (run_e ops_catalog empty_endpoints) = offer_of <$> chosen /\ chosen <> [].
Proof.
  pose proof (module_offers_exact update_service "e1" "1.2.0" "linux" "amd64" (run_e ops_catalog empty_endpoints) (run_e_ok _)) as H.
  replace (ed_modules_enabled (run_e ops_catalog empty_endpoints)) with true in H by (vm_compute; reflexivity).
  destruct H as (chosen & H & _). exists chosen. split; [exact H|]. intros ->. vm_compute in H. discriminate H.
Defined.

(** Two hours without a heartbeat. *)
Lemma endpoint_list_alerts_witness :
  exists rows, Endpoints (fun _ => after 7200) (run_e ops_seen empty_endpoints) = Ok rows /\
    rows.*1 ≡ₚ ed_endpoints (run_e ops_seen empty_endpoints) /\
    forall e alerts, (e, alerts) ∈ rows -> has_alert "agent_stale" alerts.
Proof.
  destruct (endpoint_list_alerts update_service (fun _ => after 7200) (run_e ops_seen empty_endpoints) (run_e_ok _)) as (rows & H & _ & Hp & _).
  exists rows. split; [exact H|]. split; [exact Hp|]. intros e alerts Hin. vm_compute in H. injection H as <-.
  apply elem_of_cons in Hin as [[= -> ->]|Hin]; [|destruct (not_elem_of_nil _ Hin)]. eexists. split; [left|reflexivity].
Defined.

Lemma Compatible_total_witness : exists b, Compatible module_manifest "1.2.0-rc.1" "linux" "amd64" = Some b.
Proof. apply (Compatible_total module_manifest). vm_compute. reflexivity. Defined.

(** An integrity envelope verifies under the key that signed it. *)
Lemma integrity_round_trip_witness :
  exists e, SignIntegrity ("pk"%string : @IntegrityKey test_integrity) 7 (the_snapshot "1") "" = Ok e /\ VerifyIntegrity "pk" e = Ok tt.
Proof.
  destruct (SignIntegrity ("pk"%string : @IntegrityKey test_integrity) 7 (the_snapshot "1") "") as [e|err] eqn:E; [|exfalso; vm_compute in E; discriminate E].
  exists e. split; [reflexivity|]. apply (integrity_round_trip ("pk"%string : @IntegrityKey test_integrity) 7 (the_snapshot "1") "" e); [discriminate|exact E].
Defined.
