(* ===== verification/RelayQueue.v ===== *)
(** internal/relaytransport/protocol.go and queue.go: the relay's frame format
    and its bounded store-and-forward queue, over the rows of its table in
    rowid order (insertion order). The queue file and its permissions are not
    modelled; a frame's JSON text is represented by the frame, and by [None]
    when it does not decode. *)
From Stdlib Require Import ZArith Lia String.
From stdpp Require Import base tactics list strings.
From S2P Require Import Prelude GoStrings GoTime Sql.
Open Scope Z_scope.

(** * Frames *)

Definition ProtocolVersion : Z := 1.
Definition MaximumCiphertextSize : Z := 4 * 2 ^ 20.

Definition MessageKind := string.
Definition MessageAgentCheckIn : MessageKind := "agent_check_in".
Definition MessageServerReply : MessageKind := "server_reply".
Definition MessageAgentLogBatch : MessageKind := "agent_log_batch".
Definition MessageIntegrityAlert : MessageKind := "integrity_alert".
Definition MessageTamperAlert : MessageKind := "tamper_alert".

(** [Frame]; a byte slice is a string of bytes. *)
Record Frame := {
  Frame_ProtocolVersion : Z;
  Frame_MessageID : string;
  Frame_Kind : MessageKind;
  Frame_DownstreamEndpointID : string;
  Frame_SenderID : string;
  Frame_RecipientID : string;
  Frame_RecipientKeyID : string;
  Frame_Sequence : Z;
  Frame_CreatedAt : Time;
  Frame_EphemeralPublicKey : string;
  Frame_Nonce : string;
  Frame_Ciphertext : string;
  Frame_Signature : string }.

Definition AllowedMessageKinds : list MessageKind :=
  [MessageAgentCheckIn; MessageServerReply; MessageAgentLogBatch; MessageIntegrityAlert; MessageTamperAlert].
Definition allowedMessageKind (kind : MessageKind) : bool :=
  existsb (fun allowed => bool_decide (kind = allowed)) AllowedMessageKinds.

Definition ValidateFrame (frame : Frame) (now : Time) : result () :=
  reject negb (Frame_ProtocolVersion frame =? ProtocolVersion) as "unsupported Mossward relay protocol version";;
  reject negb (bool_decide (hex_decoded_length (Frame_MessageID frame) = Some 16))
    as "relay message ID must be a 128-bit hexadecimal value";;
  reject negb (allowedMessageKind (Frame_Kind frame)) as "unsupported Mossward relay message kind";;
  reject bool_decide (Frame_DownstreamEndpointID frame = ""%string) || bool_decide (Frame_SenderID frame = ""%string) ||
         bool_decide (Frame_RecipientID frame = ""%string) || bool_decide (Frame_RecipientKeyID frame = ""%string) ||
         (Frame_Sequence frame =? 0) || IsZero (Frame_CreatedAt frame)
    as "relay endpoint identity, sequence, and creation time are required";;
  reject After (Frame_CreatedAt frame) (Add now (5 * Minute)) || Before (Frame_CreatedAt frame) (Add now (- (30 * 24 * Hour)))
    as "relay message creation time is outside the accepted window";;
  reject (strlen (Frame_Ciphertext frame) =? 0) || (MaximumCiphertextSize <? strlen (Frame_Ciphertext frame))
    as "relay ciphertext size is invalid";;
  reject negb (strlen (Frame_EphemeralPublicKey frame) =? 32) || negb (strlen (Frame_Nonce frame) =? 12) ||
         (strlen (Frame_Signature frame) <? 64) || (80 <? strlen (Frame_Signature frame))
    as "relay cryptographic envelope is invalid";;
  Ok tt.

(** * The queue *)

Definition queueSchemaVersion : Z := 3.
Definition maximumQueueAge : Duration := 30 * 24 * Hour.

Definition QueuePriorityRoutine : Z := 100.
Definition QueuePriorityElevated : Z := 200.
Definition QueuePriorityCritical : Z := 300.

Definition ErrQueueDuplicate : error := "relay queue message already exists".
Definition ErrQueueEmpty : error := "relay queue is empty".
Definition ErrQueueFull : error := "relay queue capacity is exhausted".
Definition ErrQueueAckRejected : error := "relay queue acknowledgement was rejected".
Definition ErrStoredInvalid : error := "stored relay frame is invalid".

Record Delivery := {
  Delivery_Frame : Frame;
  Delivery_Token : string;
  Delivery_Attempt : Z;
  Delivery_LeaseUntil : Time }.

Record QueueLimits := { MaxItems : Z; MaxBytes : Z; MaxAge : Duration }.

Record QueueStats := {
  Stats_Items : Z;
  Stats_Bytes : Z;
  Stats_RoutineItems : Z;
  Stats_ElevatedItems : Z;
  Stats_CriticalItems : Z;
  Stats_LeasedItems : Z;
  Stats_OldestFrame : Time }.

(** relay_frames at schema version 3. *)
Record FrameRow := {
  frame_message_id : string;
  frame_json : option Frame;
  frame_size : Z;
  frame_created_at : Z;
  frame_priority : Z;
  frame_delivery_token : option string;
  frame_lease_until : option Z;
  frame_attempt_count : Z }.

Definition priorityForFrame (frame : Frame) : Z :=
  if bool_decide (Frame_Kind frame = MessageIntegrityAlert) || bool_decide (Frame_Kind frame = MessageTamperAlert)
  then QueuePriorityCritical
  else if bool_decide (Frame_Kind frame = MessageAgentCheckIn) || bool_decide (Frame_Kind frame = MessageServerReply)
  then QueuePriorityElevated
  else QueuePriorityRoutine.

Definition validateQueueLimits (limits : QueueLimits) : result () :=
  reject (MaxItems limits <? 1) || (MaxBytes limits <? 1) || (MaxAge limits <=? 0) || (maximumQueueAge <? MaxAge limits)
    as "relay queue limits are invalid";;
  Ok tt.

Definition has_message_id (id : string) (r : FrameRow) : bool := bool_decide (frame_message_id r = id).
(** [COALESCE(SUM(frame_size),0)] *)
Definition total_size (rows : list FrameRow) : Z := fold_right (fun r n => frame_size r + n) 0 rows.
Definition item_total (rows : list FrameRow) : Z := Z.of_nat (length rows).

Section queue.
(** The length of a frame's JSON encoding. *)
Context (json_length : Frame -> Z) (limits : QueueLimits).

Definition frame_row (frame : Frame) : FrameRow :=
  {| frame_message_id := Frame_MessageID frame; frame_json := Some frame; frame_size := json_length frame;
     frame_created_at := UnixNano (Frame_CreatedAt frame); frame_priority := priorityForFrame frame;
     frame_delivery_token := None; frame_lease_until := None; frame_attempt_count := 0 |}.

Definition Enqueue (frame : Frame) (now : Time) : st (list FrameRow) () := fun rows =>
  match ValidateFrame frame now with
  | Err e => (Err e, rows)
  | Ok _ =>
      if Before (Frame_CreatedAt frame) (Add now (- MaxAge limits))
      then (Err "relay frame exceeds the queue retention limit", rows) else
      if MaxBytes limits <? json_length frame then (Err ErrQueueFull, rows) else
      match query_row (has_message_id (Frame_MessageID frame)) rows with
      | Some _ => (Err ErrQueueDuplicate, rows)
      | None =>
          if (MaxItems limits <=? item_total rows) || (MaxBytes limits <? wrap64 (total_size rows + json_length frame))
          then (Err ErrQueueFull, rows)
          else (Ok tt, rows ++ [frame_row frame])
      end
  end.

(** [ORDER BY priority DESC,rowid]: the rowid order is the list order, and the
    sort is stable on it, so only the priority is compared. *)
Definition higher_priority (a b : FrameRow) : bool := frame_priority b <? frame_priority a.
Definition first_by_priority (p : FrameRow -> bool) (rows : list FrameRow) : option FrameRow :=
  fold_left (fun best r => match best with
                           | None => if p r then Some r else None
                           | Some b => if p r && higher_priority r b then Some r else Some b
                           end) rows None.

Definition decode_frame (r : FrameRow) (now : Time) : result Frame :=
  match frame_json r with
  | None => Err ErrStoredInvalid
  | Some frame => try ValidateFrame frame now;; Ok frame
  end.

Definition Peek (now : Time) (rows : list FrameRow) : result Frame :=
  match first_by_priority (fun _ => true) rows with
  | None => Err ErrQueueEmpty
  | Some r => decode_frame r now
  end.

(** [delivery_token IS NULL OR lease_until<=?] *)
Definition claimable (now : Time) (r : FrameRow) : bool :=
  match frame_delivery_token r with
  | None => true
  | Some _ => match frame_lease_until r with Some t => t <=? UnixNano now | None => false end
  end.

Definition claim_row (token : string) (until attempt : Z) (r : FrameRow) : FrameRow :=
  {| frame_message_id := frame_message_id r; frame_json := frame_json r; frame_size := frame_size r;
     frame_created_at := frame_created_at r; frame_priority := frame_priority r;
     frame_delivery_token := Some token; frame_lease_until := Some until; frame_attempt_count := attempt |}.

(** [Claim], with the random token [newDeliveryToken] returned. *)
Definition Claim (token : string) (now : Time) (leaseDuration : Duration) : st (list FrameRow) Delivery := fun rows =>
  if leaseDuration <=? 0 then (Err "relay delivery lease duration must be positive", rows) else
  match first_by_priority (claimable now) rows with
  | None => (Err ErrQueueEmpty, rows)
  | Some r =>
      let attempt := frame_attempt_count r + 1 in
      let until := Add now leaseDuration in
      let target r' := has_message_id (frame_message_id r) r' && claimable now r' in
      if negb (affected target rows =? 1) then (Err ErrQueueEmpty, rows) else
      match decode_frame r now with
      | Err e => (Err e, rows) (* rolled back *)
      | Ok frame =>
          (Ok {| Delivery_Frame := frame; Delivery_Token := token; Delivery_Attempt := attempt; Delivery_LeaseUntil := until |},
           update_where target (claim_row token (UnixNano until) attempt) rows)
      end
  end.

Definition held_with (messageID token : string) (r : FrameRow) : bool :=
  has_message_id messageID r && null_eqb (frame_delivery_token r) token.

Definition Acknowledge (messageID token : string) : st (list FrameRow) () := fun rows =>
  if blank messageID || blank token then (Err ErrQueueAckRejected, rows) else
  if negb (affected (held_with messageID token) rows =? 1)
  then (Err ErrQueueAckRejected, select_where (fun r => negb (held_with messageID token r)) rows)
  else (Ok tt, select_where (fun r => negb (held_with messageID token r)) rows).

Definition release_row (r : FrameRow) : FrameRow :=
  {| frame_message_id := frame_message_id r; frame_json := frame_json r; frame_size := frame_size r;
     frame_created_at := frame_created_at r; frame_priority := frame_priority r;
     frame_delivery_token := None; frame_lease_until := None; frame_attempt_count := frame_attempt_count r |}.

Definition Release (messageID token : string) : st (list FrameRow) () := fun rows =>
  let rows' := update_where (held_with messageID token) release_row rows in
  if negb (affected (held_with messageID token) rows =? 1) then (Err ErrQueueAckRejected, rows') else (Ok tt, rows').

Definition PurgeExpired (now : Time) : st (list FrameRow) Z := fun rows =>
  let cutoff := UnixNano (Add now (- MaxAge limits)) in
  let expired r := frame_created_at r <? cutoff in
  (Ok (affected expired rows), select_where (fun r => negb (expired r)) rows).

Definition count_where (p : FrameRow -> bool) (rows : list FrameRow) : Z := affected p rows.
Definition min_created (rows : list FrameRow) : option Z :=
  fold_right (fun r m => Some (match m with Some x => Z.min (frame_created_at r) x | None => frame_created_at r end)) None rows.

Definition Stats (rows : list FrameRow) : QueueStats :=
  {| Stats_Items := item_total rows; Stats_Bytes := total_size rows;
     Stats_RoutineItems := count_where (fun r => frame_priority r =? QueuePriorityRoutine) rows;
     Stats_ElevatedItems := count_where (fun r => frame_priority r =? QueuePriorityElevated) rows;
     Stats_CriticalItems := count_where (fun r => frame_priority r =? QueuePriorityCritical) rows;
     Stats_LeasedItems := count_where (fun r => bool_decide (is_Some (frame_delivery_token r))) rows;
     Stats_OldestFrame := default ZeroTime (min_created rows) |}.
End queue.

(** * Migration of older queue files *)

(** relay_frames at schema versions 1 and 2. *)
Record FrameRowV1 := { v1_message_id : string; v1_json : option Frame; v1_size : Z; v1_created_at : Z }.
Record FrameRowV2 := { v2_row : FrameRowV1; v2_priority : Z }.
Inductive QueueFile :=
| FileV1 (rows : list FrameRowV1)
| FileV2 (rows : list FrameRowV2)
| FileV3 (rows : list FrameRow)
| FileNewer (version : Z).

(** The priority of each legacy row, read before any is updated, then one
    [UPDATE ... WHERE message_id=?] per row. *)
Definition legacy_priority (r : FrameRowV1) : Z :=
  match v1_json r with Some frame => priorityForFrame frame | None => QueuePriorityRoutine end.
Definition migratePriorityQueue (rows : list FrameRowV1) : list FrameRowV2 :=
  let added := (fun r => {| v2_row := r; v2_priority := 100 |}) <$> rows in
  fold_left (fun table item => update_where (fun r => bool_decide (v1_message_id (v2_row r) = v1_message_id item))
               (fun r => {| v2_row := v2_row r; v2_priority := legacy_priority item |}) table) rows added.
Definition migrateDeliveryQueue (rows : list FrameRowV2) : list FrameRow :=
  (fun r => {| frame_message_id := v1_message_id (v2_row r); frame_json := v1_json (v2_row r); frame_size := v1_size (v2_row r);
               frame_created_at := v1_created_at (v2_row r); frame_priority := v2_priority r;
               frame_delivery_token := None; frame_lease_until := None; frame_attempt_count := 0 |}) <$> rows.
Definition migrate (file : QueueFile) : result (list FrameRow) :=
  match file with
  | FileV1 rows => Ok (migrateDeliveryQueue (migratePriorityQueue rows))
  | FileV2 rows => Ok (migrateDeliveryQueue rows)
  | FileV3 rows => Ok rows
  | FileNewer version => Err "unsupported relay queue schema"
  end.
