(* ===== verification/RelayQueueSafety.v ===== *)
(** The relay queue's contract: its invariant over any sequence of calls, the
    order in which it hands frames out, exclusive delivery leases, and the only
    ways a frame leaves it. *)
From Stdlib Require Import ZArith Lia String.
From stdpp Require Import base tactics list strings.
From S2P Require Import Prelude GoStrings GoTime Sql RelayQueue.
Open Scope Z_scope.

(** * Calls *)

Inductive queue_op :=
| OpEnqueue (frame : Frame) (now : Time)
| OpClaim (token : string) (now : Time) (leaseDuration : Duration)
| OpAcknowledge (messageID token : string)
| OpRelease (messageID token : string)
| OpPurge (now : Time).

Section queue.
Context (json_length : Frame -> Z) (limits : QueueLimits).

Definition run_op (op : queue_op) (rows : list FrameRow) : list FrameRow :=
  match op with
  | OpEnqueue frame now => (Enqueue json_length limits frame now rows).2
  | OpClaim token now lease => (Claim token now lease rows).2
  | OpAcknowledge id token => (Acknowledge id token rows).2
  | OpRelease id token => (Release id token rows).2
  | OpPurge now => (PurgeExpired limits now rows).2
  end.
Definition run_ops (ops : list queue_op) (rows : list FrameRow) : list FrameRow :=
  fold_left (fun rows op => run_op op rows) ops rows.

(** What the columns of a row say of the frame it stores. *)
Record row_ok (r : FrameRow) : Prop := {
  row_frame : exists frame, frame_json r = Some frame /\ frame_message_id r = Frame_MessageID frame /\
    frame_size r = json_length frame /\ frame_priority r = priorityForFrame frame /\
    frame_created_at r = UnixNano (Frame_CreatedAt frame) /\ exists now, ValidateFrame frame now = Ok ();
  row_lease : is_Some (frame_delivery_token r) <-> is_Some (frame_lease_until r);
  row_attempts : 0 <= frame_attempt_count r;
  row_leased_attempt : is_Some (frame_delivery_token r) -> 0 < frame_attempt_count r }.

Record queue_ok (rows : list FrameRow) : Prop := {
  queue_ids : NoDup (frame_message_id <$> rows);
  queue_items : item_total rows <= MaxItems limits;
  queue_bytes : total_size rows <= MaxBytes limits;
  queue_rows : Forall row_ok rows }.

(** * Columns that a call leaves alone *)

Lemma total_size_app rows rows' : total_size (rows ++ rows') = total_size rows + total_size rows'.
Proof. induction rows as [|r rows IH]; simpl; [done|]. rewrite IH. lia. Qed.

Lemma total_size_update p f rows : (forall r, frame_size (f r) = frame_size r) -> total_size (update_where p f rows) = total_size rows.
Proof.
  intros Hf. induction rows as [|r rows IH]; [done|].
  change (frame_size (if p r then f r else r) + total_size (update_where p f rows) = frame_size r + total_size rows).
  rewrite IH. destruct (p r); by rewrite ?Hf.
Qed.

Lemma total_size_select p rows : Forall (fun r => 0 <= frame_size r) rows -> total_size (select_where p rows) <= total_size rows.
Proof.
  induction 1 as [|r rows Hr _ IH]; simpl; [lia|]. destruct (p r); simpl; lia.
Qed.

Lemma NoDup_select p rows : NoDup (frame_message_id <$> rows) -> NoDup (frame_message_id <$> select_where p rows).
Proof.
  induction rows as [|r rows IH]; simpl; [done|]. intros [Hr Hnd]%NoDup_cons.
  destruct (p r); simpl; [|by apply IH]. constructor; [|by apply IH].
  rewrite !list_elem_of_fmap in *. intros (r' & E & Hr'). apply Hr. exists r'. split; [done|].
  by apply elem_of_select_where in Hr' as [? _].
Qed.

Lemma queue_ok_update p f rows :
  queue_ok rows ->
  (forall r, frame_message_id (f r) = frame_message_id r) -> (forall r, frame_size (f r) = frame_size r) ->
  (forall r, r ∈ rows -> row_ok r -> row_ok (f r)) -> queue_ok (update_where p f rows).
Proof.
  intros [Hid Hit Hb Hr] Hfid Hfs Hok. split.
  - by rewrite update_where_key.
  - unfold item_total, update_where in *. by rewrite length_fmap.
  - by rewrite total_size_update.
  - rewrite Forall_forall in *. intros r' (r & Hin & ->)%elem_of_update_where. destruct (p r); auto.
Qed.

Hypothesis json_length_pos : forall frame, 0 <= json_length frame.

Lemma row_ok_size r : row_ok r -> 0 <= frame_size r.
Proof using json_length_pos. intros [(frame & _ & _ & -> & _) _ _ _]. done. Qed.

Lemma queue_ok_select p rows : queue_ok rows -> queue_ok (select_where p rows).
Proof using json_length_pos.
  intros [Hid Hit Hb Hr]. split.
  - by apply NoDup_select.
  - unfold item_total, select_where in *. pose proof (filter_length_le p rows). lia.
  - etrans; [apply total_size_select|done]. eapply Forall_impl; [exact Hr|]. apply row_ok_size.
  - rewrite Forall_forall in *. intros r [Hin _]%elem_of_select_where. auto.
Qed.

Lemma claim_row_ok token until attempt r :
  0 < attempt -> row_ok r -> row_ok (claim_row token until attempt r).
Proof.
  intros Ha [Hf Hl Hc Hla]. split; simpl; [exact Hf| |lia|done]. split; intros _; by eexists.
Qed.

Lemma release_row_ok r : row_ok r -> row_ok (release_row r).
Proof. intros [Hf Hl Hc Hla]. split; simpl; [exact Hf| |done|]; [split; by intros [? [=]]|by intros [? [=]]]. Qed.

(** * Selection *)

Lemma first_by_priority_spec p rows :
  match first_by_priority p rows with
  | None => forall r, r ∈ rows -> p r = false
  | Some r => exists l1 l2, rows = l1 ++ r :: l2 /\ p r = true /\
      (forall r', r' ∈ l1 -> p r' = true -> frame_priority r' < frame_priority r) /\
      (forall r', r' ∈ l2 -> p r' = true -> frame_priority r' <= frame_priority r)
  end.
Proof.
  unfold first_by_priority. induction rows as [|x rows IH] using rev_ind.
  - intros r Hr. by apply not_elem_of_nil in Hr.
  - rewrite fold_left_app. simpl. destruct (fold_left _ rows None) as [b|].
    + destruct IH as (l1 & l2 & -> & Hb & H1 & H2). unfold higher_priority.
      destruct (p x && (frame_priority b <? frame_priority x)) eqn:E.
      * reflect_bools. exists (l1 ++ b :: l2), []. split_and!; [done|done| |by intros ? ?%not_elem_of_nil].
        intros r' [Hr|[->|Hr]%elem_of_cons]%elem_of_app Hp; [specialize (H1 r' Hr Hp)| |specialize (H2 r' Hr Hp)]; lia.
      * exists l1, (l2 ++ [x]). split_and!; [by rewrite <- app_assoc|done|done|].
        intros r' [Hr|Hx%list_elem_of_singleton]%elem_of_app Hp; [by apply H2|]. subst r'.
        rewrite Hp in E. simpl in E. lia.
    + destruct (p x) eqn:E.
      * exists rows, []. split_and!; [done|done| |by intros ? ?%not_elem_of_nil].
        intros r' Hr Hp. rewrite IH in Hp by done. done.
      * intros r [Hr|Hr%list_elem_of_singleton]%elem_of_app; subst; auto.
Qed.

Lemma first_by_priority_Some p rows r :
  first_by_priority p rows = Some r ->
  r ∈ rows /\ p r = true /\ forall r', r' ∈ rows -> p r' = true -> frame_priority r' <= frame_priority r.
Proof.
  intros H. pose proof (first_by_priority_spec p rows) as L. rewrite H in L.
  destruct L as (l1 & l2 & -> & Hp & H1 & H2). split_and!; [apply elem_of_app; right; by left|done|].
  intros r' [Hr|[->|Hr]%elem_of_cons]%elem_of_app Hp'; [|lia|by apply H2]. specialize (H1 r' Hr Hp'). lia.
Qed.

(** Only one row of a queue has the identifier an [UPDATE] names. *)
Lemma update_where_split (q : FrameRow -> bool) f l1 r l2 :
  NoDup (frame_message_id <$> l1 ++ r :: l2) -> q r = true -> (forall r', q r' = true -> frame_message_id r' = frame_message_id r) ->
  update_where q f (l1 ++ r :: l2) = l1 ++ f r :: l2.
Proof.
  intros Hnd Hq Hid. rewrite fmap_app, fmap_cons in Hnd.
  apply NoDup_app in Hnd as (_ & H1 & [H2 _]%NoDup_cons).
  assert (forall l, frame_message_id r ∉ frame_message_id <$> l -> update_where q f l = l) as Hid'.
  { intros l Hl. apply update_where_id. intros r' Hr'. destruct (q r') eqn:E; [|done]. exfalso. apply Hl.
    rewrite <- (Hid r' E). by apply list_elem_of_fmap_2. }
  unfold update_where in *. rewrite fmap_app, fmap_cons, Hq. f_equal; [|f_equal]; apply Hid'; [|done].
  intros Hin. apply (H1 _ Hin). by left.
Qed.

Lemma affected_key q rows r :
  NoDup (frame_message_id <$> rows) -> r ∈ rows -> q r = true ->
  (forall r', q r' = true -> frame_message_id r' = frame_message_id r) -> affected q rows = 1.
Proof.
  intros Hnd Hr Hq Hid. destruct (decide (affected q rows = 1)) as [|Hn]; [done|].
  exfalso. pose proof (affected_unique frame_message_id (frame_message_id r) q rows Hnd Hid Hn r Hr). congruence.
Qed.

Lemma claim_target_id r now r' :
  has_message_id (frame_message_id r) r' && claimable now r' = true -> frame_message_id r' = frame_message_id r.
Proof. intros [H _]%andb_true_iff. by apply bool_decide_eq_true in H. Qed.

(** [Claim] when it hands a frame out. *)
Lemma claim_inv token now lease rows d rows' :
  queue_ok rows -> Claim token now lease rows = (Ok d, rows') ->
  exists l1 r l2, rows = l1 ++ r :: l2 /\ 0 < lease /\ claimable now r = true /\
    (forall r', r' ∈ l1 -> claimable now r' = true -> frame_priority r' < frame_priority r) /\
    (forall r', r' ∈ l2 -> claimable now r' = true -> frame_priority r' <= frame_priority r) /\
    frame_json r = Some (Delivery_Frame d) /\ ValidateFrame (Delivery_Frame d) now = Ok () /\
    Delivery_Token d = token /\ Delivery_Attempt d = frame_attempt_count r + 1 /\
    Delivery_LeaseUntil d = Add now lease /\
    rows' = l1 ++ claim_row token (UnixNano (Add now lease)) (frame_attempt_count r + 1) r :: l2.
Proof.
  intros Hq. unfold Claim. case_if; [done|]. pose proof (first_by_priority_spec (claimable now) rows) as L.
  destruct (first_by_priority _ rows) as [r|]; [|done]. destruct L as (l1 & l2 & -> & Hc & H1 & H2).
  case_if; [done|]. destruct (decode_frame r now) as [frame|] eqn:Ed; [|done]. intros [= <- <-].
  unfold decode_frame in Ed. destruct (frame_json r) as [fr|] eqn:Ej; [|done].
  destruct (ValidateFrame fr now) as [[]|] eqn:Ev; [|done]. injection Ed as ->.
  reflect_bools. exists l1, r, l2. split_and!; try done.
  apply update_where_split; [by destruct Hq| |apply claim_target_id].
  unfold has_message_id. rewrite bool_decide_eq_true_2 by done. done.
Qed.

Lemma claim_err token now lease rows e rows' : Claim token now lease rows = (Err e, rows') -> rows' = rows.
Proof.
  unfold Claim. case_if; [naive_solver|]. destruct (first_by_priority _ rows) as [r|]; [|naive_solver].
  case_if; [naive_solver|]. destruct (decode_frame r now); naive_solver.
Qed.

(** [Enqueue] adds at the end or changes nothing. *)
Lemma enqueue_inv frame now rows res rows' :
  Enqueue json_length limits frame now rows = (res, rows') ->
  (exists e, res = Err e /\ rows' = rows) \/
  (res = Ok () /\ rows' = rows ++ [frame_row json_length frame] /\ ValidateFrame frame now = Ok () /\
   (forall r, r ∈ rows -> frame_message_id r <> Frame_MessageID frame) /\
   item_total rows < MaxItems limits /\ json_length frame <= MaxBytes limits /\
   wrap64 (total_size rows + json_length frame) <= MaxBytes limits /\
   Frame_CreatedAt frame >= now - MaxAge limits).
Proof.
  unfold Enqueue. destruct (ValidateFrame frame now) as [[]|e] eqn:Ev; [|naive_solver].
  case_if; [naive_solver|]. case_if; [naive_solver|].
  destruct (query_row _ rows) eqn:Eq; [naive_solver|]. case_if; [naive_solver|]. intros [= <- <-]. right.
  apply query_row_None in Eq || rewrite query_row_None in Eq. unfold Before, Add in *. reflect_bools.
  split_and!; try done; try lia.
  intros r Hr E'. specialize (Eq r Hr). unfold has_message_id in Eq. by apply bool_decide_eq_false in Eq.
Qed.

(** * The invariant *)

Hypothesis limits_ok : validateQueueLimits limits = Ok ().
(** Queue limits are far from the [int64] range. *)
Hypothesis limits_small : MaxBytes limits <= 2 ^ 61.

Lemma total_size_nonneg rows : Forall row_ok rows -> 0 <= total_size rows.
Proof using json_length_pos. induction 1 as [|r rows Hr _ IH]; simpl; [lia|]. apply row_ok_size in Hr. lia. Qed.

Lemma empty_queue_ok : queue_ok [].
Proof using limits_ok.
  pose proof limits_ok as H. unfold validateQueueLimits in H. case_if_in H; [done|]. reflect_bools.
  split; unfold item_total; simpl; [constructor|lia|lia|constructor].
Qed.

Lemma enqueue_ok frame now rows res rows' :
  Enqueue json_length limits frame now rows = (res, rows') -> queue_ok rows -> queue_ok rows'.
Proof using json_length_pos limits_small.
  intros H Hq. apply enqueue_inv in H as [(e & _ & ->)|(_ & -> & Hv & Hnew & Hi & Hl & Hb & _)]; [done|].
  destruct Hq as [Hid Hit Hbt Hr]. pose proof (total_size_nonneg rows Hr) as Hpos. pose proof (json_length_pos frame).
  rewrite wrap64_id in Hb by (apply int64_range_small; lia). split.
  - rewrite fmap_app. apply NoDup_app. split_and!; [done| |apply NoDup_singleton].
    intros id (r & -> & Hr')%list_elem_of_fmap Hn%list_elem_of_singleton. by apply (Hnew r).
  - unfold item_total in *. rewrite length_app. simpl. lia.
  - rewrite total_size_app. simpl. lia.
  - apply Forall_app. split; [done|]. repeat constructor; simpl.
    + exists frame. split_and!; eauto.
    + by intros [? [=]].
    + by intros [? [=]].
    + lia.
    + by intros [? [=]].
Qed.

Lemma claim_ok token now lease rows : queue_ok rows -> queue_ok (Claim token now lease rows).2.
Proof.
  intros Hq. unfold Claim. case_if; [done|]. destruct (first_by_priority _ rows) as [r|] eqn:Ef; [|done].
  case_if; [done|]. destruct (decode_frame r now); [|done]. simpl. apply queue_ok_update; try done.
  intros r' _ Hr'. apply claim_row_ok; [|done]. apply first_by_priority_Some in Ef as (Hin & _ & _).
  destruct Hq as [_ _ _ Hrows]. rewrite Forall_forall in Hrows. destruct (Hrows r Hin). lia.
Qed.

Lemma run_op_ok op rows : queue_ok rows -> queue_ok (run_op op rows).
Proof using json_length_pos limits_small.
  intros Hq. destruct op as [frame now|token now lease|id token|id token|now]; simpl.
  - eapply enqueue_ok; [apply surjective_pairing|done].
  - by apply claim_ok.
  - unfold Acknowledge. repeat case_if; try done; by apply queue_ok_select.
  - unfold Release. case_if; simpl; (apply queue_ok_update; [done..|]; intros; by apply release_row_ok).
  - by apply queue_ok_select.
Qed.

Lemma run_ops_ok ops rows : queue_ok rows -> queue_ok (run_ops ops rows).
Proof using json_length_pos limits_small. revert rows. induction ops as [|op ops IH]; intros rows Hq; [done|]. by apply IH, run_op_ok. Qed.

(** * Leases *)

(** A call that does not end the lease of [d] on a frame created at [created]. *)
Definition undisturbed (d : Delivery) (op : queue_op) : Prop :=
  match op with
  | OpEnqueue _ _ => True
  | OpClaim _ now _ => UnixNano now < UnixNano (Delivery_LeaseUntil d)
  | OpAcknowledge id token | OpRelease id token => ~ (id = Frame_MessageID (Delivery_Frame d) /\ token = Delivery_Token d)
  | OpPurge now => UnixNano (Add now (- MaxAge limits)) <= UnixNano (Frame_CreatedAt (Delivery_Frame d))
  end.

(** The row that records delivery [d]. *)
Record leased_row (d : Delivery) (r : FrameRow) : Prop := {
  leased_id : frame_message_id r = Frame_MessageID (Delivery_Frame d);
  leased_token : frame_delivery_token r = Some (Delivery_Token d);
  leased_until : frame_lease_until r = Some (UnixNano (Delivery_LeaseUntil d));
  leased_created : frame_created_at r = UnixNano (Frame_CreatedAt (Delivery_Frame d)) }.

Lemma leased_not_claimable d r now :
  leased_row d r -> UnixNano now < UnixNano (Delivery_LeaseUntil d) -> claimable now r = false.
Proof. intros [_ Ht Hu _] Hn. unfold claimable. rewrite Ht, Hu. apply Z.leb_gt. lia. Qed.

Lemma leased_not_held d r id token :
  leased_row d r -> ~ (id = Frame_MessageID (Delivery_Frame d) /\ token = Delivery_Token d) -> held_with id token r = false.
Proof.
  intros [Hi Ht _ _] Hn. unfold held_with, has_message_id, null_eqb. rewrite Hi, Ht.
  apply not_true_iff_false. rewrite andb_true_iff, !bool_decide_eq_true. naive_solver.
Qed.

Lemma leased_step d r op rows :
  queue_ok rows -> r ∈ rows -> leased_row d r -> undisturbed d op -> r ∈ run_op op rows.
Proof using Type.
  intros Hq Hr Hl Hu. destruct op as [frame now|token now lease|id token|id token|now]; simpl in *.
  - destruct (Enqueue _ _ _ _ _) as [res rows'] eqn:E. apply enqueue_inv in E as [(e & _ & ->)|(_ & -> & _)]; [done|].
    apply elem_of_app. by left.
  - destruct (Claim _ _ _ _) as [[d'|e] rows'] eqn:E; [|by apply claim_err in E as ->].
    apply claim_inv in E as (l1 & r' & l2 & -> & _ & Hc & _ & _ & _ & _ & _ & _ & _ & ->); [|done]. simpl.
    rewrite elem_of_app, elem_of_cons in Hr |- *. destruct Hr as [|[->|]]; [by left| |by right; right].
    by rewrite (leased_not_claimable d r' now) in Hc.
  - pose proof (leased_not_held d r id token Hl Hu) as Hh.
    assert (r ∈ select_where (fun r => negb (held_with id token r)) rows) by (apply elem_of_select_where; by rewrite Hh).
    unfold Acknowledge. repeat case_if; done.
  - pose proof (leased_not_held d r id token Hl Hu) as Hh.
    assert (r ∈ update_where (held_with id token) release_row rows).
    { apply elem_of_update_where. exists r. by rewrite Hh. }
    unfold Release. case_if; done.
  - apply elem_of_select_where. split; [done|]. destruct Hl as [_ _ _ ->]. apply negb_true_iff, Z.ltb_ge. done.
Qed.

Lemma leased_steps d r ops rows :
  queue_ok rows -> r ∈ rows -> leased_row d r -> Forall (undisturbed d) ops -> r ∈ run_ops ops rows.
Proof using json_length_pos limits_small.
  intros Hq Hr Hl Hu. revert rows Hq Hr. induction Hu as [|op ops Hop _ IH]; intros rows Hq Hr; [done|].
  apply IH; [by apply run_op_ok|by eapply leased_step].
Qed.

Lemma claim_leases token now lease rows d rows' :
  queue_ok rows -> Claim token now lease rows = (Ok d, rows') -> exists r, r ∈ rows' /\ leased_row d r.
Proof.
  intros Hq H. pose proof H as (l1 & r & l2 & -> & _ & _ & _ & _ & Hj & _ & <- & _ & <- & ->)%claim_inv; [|done].
  eexists. split; [apply elem_of_app; right; by left|].
  destruct Hq as [_ _ _ Hr]. apply Forall_app in Hr as [_ [Hr _]%Forall_cons].
  destruct Hr as [(frame & Hf & Hi & _ & _ & Hc & _) _ _ _]. rewrite Hj in Hf. injection Hf as <-. split; simpl; done.
Qed.
End queue.

(** * The contract *)

Section contract.
Context (json_length : Frame -> Z) (limits : QueueLimits).
Context (json_length_pos : forall frame, 0 <= json_length frame).
Context (limits_ok : validateQueueLimits limits = Ok ()) (limits_small : MaxBytes limits <= 2 ^ 61).

(** After any sequence of calls on a new queue the message identifiers are
    distinct, the item and byte limits hold, and each row's columns agree with
    its frame: its size, creation time and priority class, and a lease exactly
    when there is a delivery token. *)
Theorem queue_invariant (ops : list queue_op) : queue_ok json_length limits (run_ops json_length limits ops []).
Proof using json_length_pos limits_ok limits_small. by apply run_ops_ok, empty_queue_ok. Qed.

(** [Claim] hands out the first claimable frame of the highest priority: no
    claimable row has a higher one, and those before it have a lower one; the
    delivery carries the row's frame, the new token and the attempt count
    raised by one, and no other row changes. When it fails the queue is
    unchanged, and it reports an empty queue only if no row is claimable. *)
Theorem claim_order (token : string) (now : Time) (lease : Duration) (rows : list FrameRow)
  (Hq : queue_ok json_length limits rows) (Hlease : 0 < lease) :
  match Claim token now lease rows with
  | (Ok d, rows') =>
      exists l1 r l2, rows = l1 ++ r :: l2 /\ claimable now r = true /\
      (forall r', r' ∈ l1 -> claimable now r' = true -> frame_priority r' < frame_priority r) /\
      (forall r', r' ∈ l2 -> claimable now r' = true -> frame_priority r' <= frame_priority r) /\
      frame_json r = Some (Delivery_Frame d) /\ Delivery_Token d = token /\
      Delivery_Attempt d = frame_attempt_count r + 1 /\ Delivery_LeaseUntil d = Add now lease /\
      rows' = l1 ++ claim_row token (UnixNano (Add now lease)) (frame_attempt_count r + 1) r :: l2
  | (Err e, rows') =>
      rows' = rows /\ (e = ErrQueueEmpty <-> forall r, r ∈ rows -> claimable now r = false)
  end.
Proof.
  destruct (Claim token now lease rows) as [[d|e] rows'] eqn:E.
  - apply (claim_inv json_length limits) in E as (l1 & r & l2 & -> & _ & H); [|done]. exists l1, r, l2. naive_solver.
  - split; [by apply claim_err in E|]. unfold Claim in E. rewrite (proj2 (Z.leb_gt lease 0)) in E by lia.
    pose proof (first_by_priority_spec (claimable now) rows) as L.
    destruct (first_by_priority _ rows) as [r|]; [|by injection E as <- <-].
    destruct L as (l1 & l2 & Hrows & Hc & _).
    assert (Hr : r ∈ rows) by (rewrite Hrows; apply elem_of_app; right; by left).
    rewrite (affected_key _ _ r) in E; [|by destruct Hq|done| |apply claim_target_id].
    2: { unfold has_message_id. by rewrite bool_decide_eq_true_2. }
    simpl in E. assert (Hne : e <> ErrQueueEmpty).
    { destruct (decode_frame r now) as [|e'] eqn:Ed; [done|]. injection E as <- _. intros ->.
      unfold decode_frame, ErrStoredInvalid, ErrQueueEmpty in Ed. destruct (frame_json r) as [fr|]; [|done].
      unfold ValidateFrame in Ed. repeat (case_if_in Ed; [done|]). done. }
    split; [done|]. intros Hnone. rewrite Hnone in Hc; done.
Qed.

(** C29: a delivery lease is exclusive: after [Claim] handed a frame out, no
    sequence of calls before the lease ends, other than an acknowledgement or
    release with its own token or a purge of the frame, lets [Claim] hand the
    same frame out again. *)
Theorem claim_exclusive (token token2 : string) (now now2 : Time) (lease lease2 : Duration)
  (rows rows' : list FrameRow) (d d2 : Delivery) (ops : list queue_op)
  (Hq : queue_ok json_length limits rows) (Hclaim : Claim token now lease rows = (Ok d, rows'))
  (Hops : Forall (undisturbed limits d) ops) (Hnow : UnixNano now2 < UnixNano (Delivery_LeaseUntil d))
  (Hclaim2 : (Claim token2 now2 lease2 (run_ops json_length limits ops rows')).1 = Ok d2) :
  Frame_MessageID (Delivery_Frame d2) <> Frame_MessageID (Delivery_Frame d).
Proof using json_length_pos limits_small.
  assert (Hq' : queue_ok json_length limits rows').
  { change rows' with ((Ok d, rows').2 : list FrameRow). rewrite <- Hclaim. by apply claim_ok. }
  destruct (claim_leases json_length limits _ _ _ _ _ _ Hq Hclaim) as (r & Hr & Hl).
  pose proof (leased_steps json_length limits json_length_pos limits_small _ _ _ _ Hq' Hr Hl Hops) as Hin.
  pose proof (run_ops_ok json_length limits json_length_pos limits_small ops _ Hq') as Hq2.
  destruct (Claim token2 now2 lease2 _) as [res rows2] eqn:E2. simpl in Hclaim2. subst res.
  apply (claim_inv json_length limits) in E2 as (l1 & r2 & l2 & Erows & _ & Hc & _ & _ & Hj & _); [|done].
  intros Eid. destruct Hq2 as [Hnd _ _ Hrows]. rewrite Erows in *.
  apply Forall_app in Hrows as [_ [[(fr & Hf & Hi & _) _ _ _] _]%Forall_cons].
  rewrite Hj in Hf. injection Hf as <-.
  assert (r = r2) as ->; [|by rewrite (leased_not_claimable d r2 now2 Hl Hnow) in Hc].
  apply list_elem_of_lookup_1 in Hin as [i Hlk].
  assert (Hlk2 : (l1 ++ r2 :: l2) !! length l1 = Some r2) by (by rewrite lookup_app_r, Nat.sub_diag).
  assert (i = length l1) as ->; [|congruence].
  eapply NoDup_lookup; [exact Hnd| |].
  - rewrite list_lookup_fmap, Hlk. done.
  - rewrite list_lookup_fmap, Hlk2. simpl. pose proof (leased_id d r Hl). congruence.
Qed.

(** What a frame's row keeps while it is queued. *)
Definition same_frame (r r' : FrameRow) : Prop :=
  frame_message_id r' = frame_message_id r /\ frame_json r' = frame_json r /\
  frame_size r' = frame_size r /\ frame_created_at r' = frame_created_at r /\ frame_priority r' = frame_priority r.

(** The call removes the row: an acknowledgement with the row's current token,
    or a purge past the retention age. *)
Definition removes (op : queue_op) (r : FrameRow) : Prop :=
  match op with
  | OpAcknowledge id token =>
      id = frame_message_id r /\ frame_delivery_token r = Some token /\ blank id = false /\ blank token = false
  | OpPurge now => frame_created_at r < UnixNano (Add now (- MaxAge limits))
  | _ => False
  end.

Lemma held_with_spec id token r :
  held_with id token r = true <-> id = frame_message_id r /\ frame_delivery_token r = Some token.
Proof.
  unfold held_with, has_message_id, null_eqb. rewrite andb_true_iff, bool_decide_eq_true.
  destruct (frame_delivery_token r); [rewrite bool_decide_eq_true|]; naive_solver.
Qed.

Lemma kept_update p f rows r :
  (forall r, same_frame r (f r)) -> r ∈ rows -> exists r', r' ∈ update_where p f rows /\ same_frame r r'.
Proof.
  intros Hf Hr. exists (if p r then f r else r). split; [apply elem_of_update_where; eauto|].
  destruct (p r); [done|]. by repeat split.
Qed.

Lemma removed_select p rows r :
  NoDup (frame_message_id <$> rows) -> r ∈ rows -> p r = false -> frame_message_id r ∉ frame_message_id <$> select_where p rows.
Proof.
  intros Hnd Hr Hp. rewrite list_elem_of_fmap. intros (r' & E & [Hr' Hp']%elem_of_select_where).
  apply list_elem_of_lookup_1 in Hr as [i Hi], Hr' as [j Hj].
  assert (i = j) as ->; [|congruence].
  eapply NoDup_lookup; [exact Hnd| |]; rewrite list_lookup_fmap; [by rewrite Hi|rewrite Hj; simpl; congruence].
Qed.

Lemma kept_select p rows r : r ∈ rows -> p r = true -> exists r', r' ∈ select_where p rows /\ same_frame r r'.
Proof. intros Hr Hp. exists r. split; [by apply elem_of_select_where|]. by repeat split. Qed.

(** No queued frame is lost: a call removes a row exactly when it is an
    acknowledgement that carries the row's current delivery token or a purge of
    a frame past the retention age; every other call keeps the row's identifier,
    frame, size, creation time and priority. *)
Theorem frame_kept_until_removed (rows : list FrameRow) (r : FrameRow) (op : queue_op)
  (Hq : queue_ok json_length limits rows) (Hr : r ∈ rows) :
  (removes op r -> frame_message_id r ∉ frame_message_id <$> run_op json_length limits op rows) /\
  (~ removes op r -> exists r', r' ∈ run_op json_length limits op rows /\ same_frame r r').
Proof using Type.
  assert (Hnd : NoDup (frame_message_id <$> rows)) by by destruct Hq.
  assert (Hid : exists r', r' ∈ rows /\ same_frame r r') by (exists r; by repeat split).
  destruct op as [frame now|token now lease|id token|id token|now]; simpl.
  - split; [done|]. intros _. destruct (Enqueue _ _ _ _ _) as [res rows'] eqn:E.
    apply enqueue_inv in E as [(e & _ & ->)|(_ & -> & _)]; [done|].
    exists r. split; [apply elem_of_app; by left|by repeat split].
  - split; [done|]. intros _. unfold Claim. case_if; [done|]. destruct (first_by_priority _ rows); [|done].
    case_if; [done|]. destruct (decode_frame _ now); [|done]. by apply kept_update.
  - unfold Acknowledge. destruct (blank id || blank token) eqn:Eb.
    + split; [|done]. intros (_ & _ & B1 & B2). by rewrite B1, B2 in Eb.
    + apply orb_false_iff in Eb as [B1 B2]. pose proof (held_with_spec id token r) as Hh.
      set (rows' := select_where _ rows).
      assert ((if negb (affected (held_with id token) rows =? 1) then (@Err () ErrQueueAckRejected, rows') else (Ok (), rows')).2 = rows')
        as -> by by case_if.
      split.
      * intros (-> & Ht & _). apply removed_select; [done..|]. apply negb_false_iff. naive_solver.
      * intros Hn. apply kept_select; [done|]. apply negb_true_iff, not_true_iff_false. naive_solver.
  - split; [done|]. intros _. unfold Release. case_if; by apply kept_update.
  - split.
    + intros Hlt. apply removed_select; [done..|]. by apply negb_false_iff, Z.ltb_lt.
    + intros Hn. apply kept_select; [done|]. apply negb_true_iff, Z.ltb_ge. lia.
Qed.

(** Frames as they are before [now], by a clock that did not go back, and near
    enough to the present for their nanosecond count. *)
Definition queued_before (now : Time) (r : FrameRow) : Prop :=
  forall frame, frame_json r = Some frame ->
    int64_range (Frame_CreatedAt frame) /\ Frame_CreatedAt frame <= now + 5 * Minute.

Lemma ValidateFrame_later frame t now :
  ValidateFrame frame t = Ok () -> now - 30 * 24 * Hour <= Frame_CreatedAt frame <= now + 5 * Minute ->
  ValidateFrame frame now = Ok ().
Proof.
  unfold ValidateFrame, After, Before, Add. intros H Hr. repeat (case_if_in H; [done|]).
  assert (T : (now + 5 * Minute <? Frame_CreatedAt frame) || (Frame_CreatedAt frame <? now + - (30 * 24 * Hour)) = false)
    by (apply orb_false_iff; split; apply Z.ltb_ge; lia).
  by repeat match goal with E : ?b = false |- context [if ?b then _ else _] => rewrite E; clear E end.
Qed.

(** A purge unblocks the queue: after [PurgeExpired] at a time no earlier
    than the frames', [Claim] at that time hands a frame out whenever a row is
    claimable; an old frame at the head of the queue does not stop it. *)
Theorem claim_after_purge (token : string) (now : Time) (lease : Duration) (rows : list FrameRow)
  (Hq : queue_ok json_length limits rows) (Hlease : 0 < lease) (Hrows : Forall (queued_before now) rows)
  (Hnow : int64_range (now - MaxAge limits)) :
  let rows' := (PurgeExpired limits now rows).2 in
  is_ok (Claim token now lease rows').1 = existsb (claimable now) rows'.
Proof using json_length_pos limits_ok.
  intros rows'. assert (Hq' : queue_ok json_length limits rows') by by apply queue_ok_select.
  pose proof (first_by_priority_spec (claimable now) rows') as L.
  unfold Claim. rewrite (proj2 (Z.leb_gt lease 0)) by lia.
  destruct (first_by_priority (claimable now) rows') as [r|].
  2: { simpl. symmetry. apply not_true_iff_false. rewrite existsb_exists. setoid_rewrite <- list_elem_of_In.
       intros (r & Hr & Ec). by rewrite L in Ec. }
  destruct L as (l1 & l2 & Erows & Ec & _).
  assert (Hr : r ∈ rows') by (rewrite Erows; apply elem_of_app; right; by left).
  replace (existsb (claimable now) rows') with true.
  2: { symmetry. apply existsb_exists. setoid_rewrite <- list_elem_of_In. eauto. }
  rewrite (affected_key _ _ r); [|by destruct Hq'|done| |apply claim_target_id].
  2: { unfold has_message_id. by rewrite bool_decide_eq_true_2. }
  simpl in *. destruct Hq' as [_ _ _ Hok]. rewrite Forall_forall in Hok, Hrows.
  destruct (Hok r Hr) as [(frame & Hj & _ & _ & _ & Ht & t & Hv) _ _ _].
  apply elem_of_select_where in Hr as [Hin Hkeep]. destruct (Hrows r Hin frame Hj) as [Hrange Hle].
  unfold decode_frame. rewrite Hj. rewrite (ValidateFrame_later frame t now Hv); [done|].
  unfold UnixNano, Add in *. rewrite Ht, !wrap64_id in Hkeep by done.
  pose proof limits_ok as Hl. unfold validateQueueLimits, maximumQueueAge in Hl. case_if_in Hl; [done|]. reflect_bools. lia.
Qed.
End contract.

(** * Migration *)

Lemma migrate_updates (rows todo : list FrameRowV1) (done_ids : list string) table :
  NoDup (v1_message_id <$> todo) -> v2_row <$> table = rows ->
  fold_left (fun table item => update_where (fun r => bool_decide (v1_message_id (v2_row r) = v1_message_id item))
               (fun r => {| v2_row := v2_row r; v2_priority := legacy_priority item |}) table) todo table =
  (fun r => match query_row (fun item => bool_decide (v1_message_id (v2_row r) = v1_message_id item)) todo with
            | Some item => {| v2_row := v2_row r; v2_priority := legacy_priority item |}
            | None => r
            end) <$> table.
Proof.
  intros Hnd. revert table. induction todo as [|item todo IH]; intros table Ht; simpl.
  { by rewrite list_fmap_id. }
  apply NoDup_cons in Hnd as [Hitem Hnd]. rewrite IH; [|done|].
  2: { rewrite <- Ht. by apply update_where_key. }
  unfold update_where. rewrite <- list_fmap_compose. apply list_fmap_ext. intros i r _. simpl.
  unfold query_row. simpl. case_bool_decide as E; simpl; [|done].
  destruct (List.find _ todo) as [item'|] eqn:F; [|done]. exfalso. apply find_some in F as [Hin F].
  apply bool_decide_eq_true in F. apply Hitem. rewrite <- E, F. apply list_elem_of_fmap_2. by apply list_elem_of_In.
Qed.

(** Migrating an old queue file keeps every frame in its place and gives it
    the priority class of its kind (the routine class when the stored text does
    not decode), with no lease and no attempts; files of the current version
    are unchanged and newer ones are refused. *)
Theorem migrate_preserves (rows : list FrameRowV1) (Hnd : NoDup (v1_message_id <$> rows)) :
  migrate (FileV1 rows) = Ok ((fun r =>
    {| frame_message_id := v1_message_id r; frame_json := v1_json r; frame_size := v1_size r;
       frame_created_at := v1_created_at r;
       frame_priority := match v1_json r with Some frame => priorityForFrame frame | None => QueuePriorityRoutine end;
       frame_delivery_token := None; frame_lease_until := None; frame_attempt_count := 0 |}) <$> rows) /\
  (forall current, migrate (FileV3 current) = Ok current) /\ (forall v, is_ok (migrate (FileNewer v)) = false).
Proof.
  split; [|done]. simpl. f_equal. unfold migratePriorityQueue, migrateDeliveryQueue.
  rewrite (migrate_updates rows _ []); [|done|].
  2: { rewrite <- list_fmap_compose. apply list_fmap_id. }
  rewrite <- !list_fmap_compose. apply list_fmap_ext. intros i r Hr. simpl.
  assert (Hin : r ∈ rows) by by eapply list_elem_of_lookup_2.
  pose proof (query_row_key v1_message_id rows r Hnd Hin) as Hk.
  replace (query_row _ rows) with (Some r); [done|]. rewrite <- Hk. unfold query_row. clear.
  induction rows as [|x rows IH]; [done|]. simpl. rewrite IH.
  by rewrite (bool_decide_ext (v1_message_id r = v1_message_id x) (v1_message_id x = v1_message_id r)) by (split; congruence).
Qed.
