(* ===== verification/RelayFailover.v ===== *)
(** internal/relaytransport/failover.go: the choice among approved relay
    routes. The mutex serialises the methods, so each is one step on the
    controller's fields. *)
From Stdlib Require Import ZArith Lia String.
From stdpp Require Import base tactics list strings gmap sets sorting.
From S2P Require Import Prelude GoStrings GoTime.
Open Scope Z_scope.

Definition RouteKind := string.
Definition RouteRelay : RouteKind := "relay".
Definition RouteDirect : RouteKind := "direct".

Definition minimumObservationAge : Duration := 10 * Second.
Definition maximumObservationAge : Duration := Hour.
Definition maximumFailureThreshold : Z := 10.
Definition maximumFailoverRoutes : Z := 16.
Definition maximumRouteIDLength : Z := 200.

Definition ErrNoApprovedRoute : error := "no healthy approved relay route is available".

Record ApprovedRoute := {
  Route_ID : string;
  Route_Kind : RouteKind;
  Route_RelayEndpointID : string;
  Route_Priority : Z }.

Record FailoverPolicy := {
  Policy_EndpointID : string;
  Policy_Routes : list ApprovedRoute;
  Policy_FailureThreshold : Z;
  Policy_ObservationMaxAge : Duration }.

Record RouteAvailability := {
  Availability_RouteID : string;
  Availability_Healthy : bool;
  Availability_ObservedAt : Time }.

Record RouteDecision := {
  Decision_Route : ApprovedRoute;
  Decision_PreviousRouteID : string;
  Decision_Reason : string;
  Decision_ConsecutiveFailures : Z;
  Decision_SelectedAt : Time }.

Record FailoverController := {
  policy : FailoverPolicy;
  activeRouteID : string;
  consecutiveFailures : Z }.

Definition with_active (c : FailoverController) (id : string) : FailoverController :=
  {| policy := policy c; activeRouteID := id; consecutiveFailures := 0 |}.
Definition with_failures (c : FailoverController) (n : Z) : FailoverController :=
  {| policy := policy c; activeRouteID := activeRouteID c; consecutiveFailures := n |}.

(** * Policies *)

(** The variables of the loop over the routes. *)
Record route_scan := { scan_ids : gset string; scan_priorities : gset Z; directRoutes : Z }.

Definition check_route (endpointID : string) (s : route_scan) (route : ApprovedRoute) : result route_scan :=
  reject blank (Route_ID route) || (maximumRouteIDLength <? strlen (Route_ID route)) ||
         (maximumRouteIDLength <? strlen (Route_RelayEndpointID route)) || (Route_Priority route <? 1) ||
         bool_decide (Route_ID route ∈ scan_ids s) || bool_decide (Route_Priority route ∈ scan_priorities s)
    as "relay failover routes require unique IDs and priorities";;
  let ids := {[ Route_ID route ]} ∪ scan_ids s in
  let priorities := {[ Route_Priority route ]} ∪ scan_priorities s in
  if bool_decide (Route_Kind route = RouteRelay) then
    reject bool_decide (Route_RelayEndpointID route = ""%string) || bool_decide (Route_RelayEndpointID route = endpointID)
      as "relay route requires a different approved relay endpoint";;
    Ok {| scan_ids := ids; scan_priorities := priorities; directRoutes := directRoutes s |}
  else if bool_decide (Route_Kind route = RouteDirect) then
    let direct := directRoutes s + 1 in
    reject negb (bool_decide (Route_RelayEndpointID route = ""%string)) || (1 <? direct)
      as "direct fallback must be explicit and unique";;
    Ok {| scan_ids := ids; scan_priorities := priorities; directRoutes := direct |}
  else Err "relay failover route kind is invalid".

Definition validateFailoverPolicy (p : FailoverPolicy) : result () :=
  reject blank (Policy_EndpointID p) || (maximumRouteIDLength <? strlen (Policy_EndpointID p)) ||
         (Z.of_nat (length (Policy_Routes p)) =? 0) || (maximumFailoverRoutes <? Z.of_nat (length (Policy_Routes p))) ||
         (Policy_FailureThreshold p <? 1) || (maximumFailureThreshold <? Policy_FailureThreshold p) ||
         (Policy_ObservationMaxAge p <? minimumObservationAge) || (maximumObservationAge <? Policy_ObservationMaxAge p)
    as "relay failover policy is invalid";;
  try for_each (check_route (Policy_EndpointID p)) {| scan_ids := ∅; scan_priorities := ∅; directRoutes := 0 |} (Policy_Routes p);;
  Ok ().

Definition route_less (a b : ApprovedRoute) : bool := Route_Priority a <? Route_Priority b.

Definition NewFailoverController (p : FailoverPolicy) : result FailoverController :=
  try validateFailoverPolicy p;;
  Ok {| policy := {| Policy_EndpointID := Policy_EndpointID p; Policy_Routes := sort_slice route_less (Policy_Routes p);
                     Policy_FailureThreshold := Policy_FailureThreshold p;
                     Policy_ObservationMaxAge := Policy_ObservationMaxAge p |};
        activeRouteID := ""; consecutiveFailures := 0 |}.

(** * Observations *)

Definition fresh_observation (maximumAge : Duration) (now : Time) (o : RouteAvailability) : bool :=
  negb (negb (Availability_Healthy o) || IsZero (Availability_ObservedAt o) ||
        After (Availability_ObservedAt o) (Add now (5 * Minute)) || Before (Availability_ObservedAt o) (Add now (- maximumAge))).

(** The loop's [available] and [seen] maps, as the sets of their keys. *)
Definition observe (maximumAge : Duration) (now : Time) (maps : gset string * gset string) (o : RouteAvailability)
  : gset string * gset string :=
  let '(available, seen) := maps in
  let id := Availability_RouteID o in
  if bool_decide (id = ""%string) then (available, seen)
  else if bool_decide (id ∈ seen) then (available ∖ {[ id ]}, seen)
  else if negb (fresh_observation maximumAge now o) then (available, {[ id ]} ∪ seen)
  else ({[ id ]} ∪ available, {[ id ]} ∪ seen).
Definition availableRouteIDs (observations : list RouteAvailability) (maximumAge : Duration) (now : Time) : gset string :=
  (fold_left (observe maximumAge now) observations (∅, ∅)).1.

(** * The controller *)

Definition decision (c : FailoverController) (routeID previous reason : string) (now : Time) : option RouteDecision :=
  match List.find (fun route => bool_decide (Route_ID route = routeID)) (Policy_Routes (policy c)) with
  | Some route => Some {| Decision_Route := route; Decision_PreviousRouteID := previous; Decision_Reason := reason;
                          Decision_ConsecutiveFailures := consecutiveFailures c; Decision_SelectedAt := now |}
  | None => None
  end.

Definition zero_decision : RouteDecision :=
  {| Decision_Route := {| Route_ID := ""; Route_Kind := ""; Route_RelayEndpointID := ""; Route_Priority := 0 |};
     Decision_PreviousRouteID := ""; Decision_Reason := ""; Decision_ConsecutiveFailures := 0; Decision_SelectedAt := ZeroTime |}.
Definition set_failures (d : RouteDecision) (n : Z) : RouteDecision :=
  {| Decision_Route := Decision_Route d; Decision_PreviousRouteID := Decision_PreviousRouteID d;
     Decision_Reason := Decision_Reason d; Decision_ConsecutiveFailures := n; Decision_SelectedAt := Decision_SelectedAt d |}.

Definition Select (availability : list RouteAvailability) (now : Time) : st FailoverController RouteDecision := fun c =>
  let health := availableRouteIDs availability (Policy_ObservationMaxAge (policy c)) now in
  if negb (bool_decide (activeRouteID c = ""%string)) && (consecutiveFailures c <? Policy_FailureThreshold (policy c)) &&
     bool_decide (activeRouteID c ∈ health)
  then (Ok (default zero_decision (decision c (activeRouteID c) (activeRouteID c) "active_route_healthy" now)), c)
  else
    let previous := activeRouteID c in
    match List.find (fun route => negb (bool_decide (Route_ID route = previous) || negb (bool_decide (Route_ID route ∈ health))))
            (Policy_Routes (policy c)) with
    | Some route =>
        let failures := consecutiveFailures c in
        let c' := with_active c (Route_ID route) in
        let reason := (if bool_decide (previous = ""%string) then "approved_initial_route" else "approved_failover")%string in
        (Ok (set_failures (default zero_decision (decision c' (Route_ID route) previous reason now)) failures), c')
    | None => (Err ErrNoApprovedRoute, c)
    end.

Definition RecordDelivery (routeID : string) (succeeded : bool) : st FailoverController () := fun c =>
  if bool_decide (routeID = ""%string) || negb (bool_decide (routeID = activeRouteID c))
  then (Err "delivery result does not match the active approved route", c)
  else if succeeded then (Ok tt, with_failures c 0)
  else if consecutiveFailures c <? Policy_FailureThreshold (policy c) then (Ok tt, with_failures c (consecutiveFailures c + 1))
  else (Ok tt, c).

Definition SelectApprovedRoute (routeID : string) (availability : list RouteAvailability) (now : Time)
  : st FailoverController RouteDecision := fun c =>
  let health := availableRouteIDs availability (Policy_ObservationMaxAge (policy c)) now in
  if negb (bool_decide (routeID ∈ health)) then (Err ErrNoApprovedRoute, c) else
  match decision c routeID (activeRouteID c) "server_selected_approved_route" now with
  | None => (Err ErrNoApprovedRoute, c)
  | Some d => (Ok d, with_active c routeID)
  end.

(** * What a valid policy guarantees *)

#[export] Instance route_less_weak : StrictWeak route_less.
Proof. unfold route_less. split; intros; rewrite ?Z.ltb_lt, ?Z.ltb_ge in *; lia. Qed.

(** What [validateFailoverPolicy] accepts of one route. *)
Definition approved_route (endpointID : string) (r : ApprovedRoute) : Prop :=
  blank (Route_ID r) = false /\ strlen (Route_ID r) <= maximumRouteIDLength /\
  strlen (Route_RelayEndpointID r) <= maximumRouteIDLength /\ 1 <= Route_Priority r /\
  (Route_Kind r = RouteRelay /\ Route_RelayEndpointID r <> ""%string /\ Route_RelayEndpointID r <> endpointID \/
   Route_Kind r = RouteDirect /\ Route_RelayEndpointID r = ""%string).
Definition is_direct (r : ApprovedRoute) : bool := bool_decide (Route_Kind r = RouteDirect).
Definition direct_count (routes : list ApprovedRoute) : Z := Z.of_nat (length (List.filter is_direct routes)).

Lemma check_route_ok endpointID s route s' :
  check_route endpointID s route = Ok s' ->
  approved_route endpointID route /\ (Route_ID route ∉ scan_ids s) /\ (Route_Priority route ∉ scan_priorities s) /\
  (scan_ids s' = {[ Route_ID route ]} ∪ scan_ids s) /\ (scan_priorities s' = {[ Route_Priority route ]} ∪ scan_priorities s) /\
  directRoutes s' = directRoutes s + (if is_direct route then 1 else 0) /\ (is_direct route = true -> directRoutes s' <= 1).
Proof.
  unfold check_route, is_direct, approved_route. intros H. apply reject_ok in H as [E H]. reflect_bools.
  destruct (bool_decide (Route_Kind route = RouteRelay)) eqn:Er.
  - apply reject_ok in H as [E' [= <-]]. reflect_bools. rewrite bool_decide_eq_false_2 by (rewrite Er; done).
    simpl. split_and!; try done; try lia. left. done.
  - destruct (bool_decide (Route_Kind route = RouteDirect)) eqn:Ed; [|done].
    apply reject_ok in H as [E' [= <-]]. reflect_bools. simpl. split_and!; try done; try lia. right. done.
Qed.

Lemma check_routes_ok endpointID routes s s' :
  for_each (check_route endpointID) s routes = Ok s' -> directRoutes s <= 1 ->
  Forall (approved_route endpointID) routes /\ NoDup (Route_ID <$> routes) /\ NoDup (Route_Priority <$> routes) /\
  Forall (fun r => (Route_ID r ∉ scan_ids s) /\ Route_Priority r ∉ scan_priorities s) routes /\
  directRoutes s + direct_count routes <= 1.
Proof.
  unfold direct_count. revert s. induction routes as [|r routes IH]; intros s H Hd; simpl in H.
  { split_and!; try constructor. simpl. lia. }
  apply bind_ok in H as (s1 & Hr & H).
  apply check_route_ok in Hr as (Ha & Hi & Hp & Ei & Ep & Ed & Hd1).
  destruct (IH s1 H) as (Has & Hni & Hnp & Hf & Hc). { destruct (is_direct r); [by apply Hd1|lia]. }
  rewrite Ei, Ep in Hf. rewrite Forall_forall in Hf. simpl. split_and!.
  - by constructor.
  - constructor; [|done]. rewrite list_elem_of_fmap. intros (y & Ey & Hy). destruct (Hf y Hy). set_solver.
  - constructor; [|done]. rewrite list_elem_of_fmap. intros (y & Ey & Hy). destruct (Hf y Hy). set_solver.
  - constructor; [done|]. apply Forall_forall. intros y Hy. destruct (Hf y Hy). set_solver.
  - destruct (is_direct r); simpl; lia.
Qed.

Lemma validateFailoverPolicy_ok p :
  validateFailoverPolicy p = Ok () ->
  Policy_Routes p <> [] /\ 1 <= Policy_FailureThreshold p <= maximumFailureThreshold /\
  Forall (approved_route (Policy_EndpointID p)) (Policy_Routes p) /\
  NoDup (Route_ID <$> Policy_Routes p) /\ NoDup (Route_Priority <$> Policy_Routes p) /\ direct_count (Policy_Routes p) <= 1.
Proof.
  unfold validateFailoverPolicy. intros H. apply reject_ok in H as [E H]. reflect_bools.
  destruct (for_each _ _ _) as [s'|] eqn:Ef; [|done]. apply check_routes_ok in Ef as (Ha & Hi & Hp & _ & Hc); [|simpl; lia].
  simpl in Hc. split_and!; try done. intros En. rewrite En in *. done.
Qed.

(** * Invariant *)

Record controller_ok (c : FailoverController) : Prop := {
  ok_routes : Forall (approved_route (Policy_EndpointID (policy c))) (Policy_Routes (policy c));
  ok_ids : NoDup (Route_ID <$> Policy_Routes (policy c));
  ok_priorities : StronglySorted (fun a b => Route_Priority a < Route_Priority b) (Policy_Routes (policy c));
  ok_direct : direct_count (Policy_Routes (policy c)) <= 1;
  ok_threshold : 1 <= Policy_FailureThreshold (policy c) <= maximumFailureThreshold;
  ok_active : activeRouteID c = ""%string \/ activeRouteID c ∈ Route_ID <$> Policy_Routes (policy c);
  ok_failures : 0 <= consecutiveFailures c <= Policy_FailureThreshold (policy c);
  ok_idle : activeRouteID c = ""%string -> consecutiveFailures c = 0 }.

Lemma ordered_strict routes :
  ordered route_less routes -> NoDup (Route_Priority <$> routes) ->
  StronglySorted (fun a b => Route_Priority a < Route_Priority b) routes.
Proof.
  induction 1 as [|r routes Hs IH Hf]; intros Hnd; [constructor|]. apply NoDup_cons in Hnd as [Hr Hnd].
  constructor; [by apply IH|]. rewrite Forall_forall in *. intros r' Hr'. specialize (Hf r' Hr').
  unfold route_less in Hf. apply Z.ltb_ge in Hf.
  assert (Route_Priority r <> Route_Priority r') by (intros E; apply Hr; rewrite E; by apply list_elem_of_fmap_2). lia.
Qed.

Lemma direct_count_perm routes routes' : routes ≡ₚ routes' -> direct_count routes = direct_count routes'.
Proof.
  unfold direct_count. intros P. f_equal.
  induction P as [|x l l' _ IH|x y l|l l' l'' _ IH1 _ IH2]; simpl; try done; [| |congruence].
  - destruct (is_direct x); simpl; congruence.
  - destruct (is_direct x), (is_direct y); done.
Qed.

Lemma new_controller_ok p c : NewFailoverController p = Ok c -> controller_ok c.
Proof.
  unfold NewFailoverController. destruct (validateFailoverPolicy p) as [[]|] eqn:Ev; [|done]. intros [= <-].
  apply validateFailoverPolicy_ok in Ev as (_ & Ht & Ha & Hi & Hp & Hd).
  pose proof (sort_slice_perm route_less (Policy_Routes p)) as P. split; simpl; try done; try lia.
  - by rewrite P.
  - by rewrite P.
  - apply ordered_strict; [apply sort_slice_ordered, _|]. by rewrite P.
  - by rewrite (direct_count_perm _ _ P).
  - by left.
Qed.

Inductive controller_op :=
| OpSelect (availability : list RouteAvailability) (now : Time)
| OpRecordDelivery (routeID : string) (succeeded : bool)
| OpSelectApprovedRoute (routeID : string) (availability : list RouteAvailability) (now : Time).
Definition run_controller (op : controller_op) (c : FailoverController) : FailoverController :=
  match op with
  | OpSelect availability now => (Select availability now c).2
  | OpRecordDelivery id succeeded => (RecordDelivery id succeeded c).2
  | OpSelectApprovedRoute id availability now => (SelectApprovedRoute id availability now c).2
  end.
Definition run_controllers (ops : list controller_op) (c : FailoverController) : FailoverController :=
  fold_left (fun c op => run_controller op c) ops c.

Lemma approved_not_empty endpointID r : approved_route endpointID r -> Route_ID r <> ""%string.
Proof. intros (H & _) E. by rewrite E in H. Qed.

Lemma with_active_ok c id : controller_ok c -> id ∈ Route_ID <$> Policy_Routes (policy c) -> controller_ok (with_active c id).
Proof. intros [] Hid. split; simpl; try done; [by right|lia]. Qed.

Lemma find_route p (routes : list ApprovedRoute) r : List.find p routes = Some r -> r ∈ routes /\ p r = true.
Proof. intros H. apply find_some in H as [? ?]. by rewrite list_elem_of_In. Qed.

Lemma decision_spec c id previous reason now :
  match decision c id previous reason now with
  | Some d => Decision_Route d ∈ Policy_Routes (policy c) /\ Route_ID (Decision_Route d) = id /\
      d = {| Decision_Route := Decision_Route d; Decision_PreviousRouteID := previous; Decision_Reason := reason;
             Decision_ConsecutiveFailures := consecutiveFailures c; Decision_SelectedAt := now |}
  | None => id ∉ Route_ID <$> Policy_Routes (policy c)
  end.
Proof.
  unfold decision. destruct (List.find _ _) as [r|] eqn:E.
  - apply find_route in E as [Hr Hid]. apply bool_decide_eq_true in Hid. done.
  - rewrite list_elem_of_fmap. intros (r & -> & Hr). apply list_elem_of_In in Hr.
    apply (find_none _ _ E) in Hr. by apply bool_decide_eq_false in Hr.
Qed.

Lemma run_controller_ok op c : controller_ok c -> controller_ok (run_controller op c).
Proof.
  intros Hc. destruct op as [availability now|id succeeded|id availability now]; simpl.
  - unfold Select. case_if; [done|]. destruct (List.find _ _) as [r|] eqn:Ef; [|done].
    apply find_route in Ef as [Hr _]. apply with_active_ok; [done|]. by apply list_elem_of_fmap_2.
  - unfold RecordDelivery. case_if; [done|]. reflect_bools. destruct Hc. case_if; [|case_if]; simpl; [| |by split].
    + split; simpl; try done. lia.
    + reflect_bools. split; simpl; try done; [lia|]. intros Ea. congruence.
  - unfold SelectApprovedRoute. case_if; [done|].
    pose proof (decision_spec c id (activeRouteID c) "server_selected_approved_route" now) as D.
    destruct (decision _ _ _ _ _) as [d|]; [|done]. destruct D as (Hd & <- & _). apply with_active_ok; [done|].
    by apply list_elem_of_fmap_2.
Qed.

(** For a controller built from a policy, whatever calls are made: the routes
    stay the approved ones in strictly increasing priority with distinct
    identifiers and at most one direct route, no relay route leads to the
    endpoint itself, the active route is an approved one, and the failure count
    stays between zero and the threshold. *)
Theorem controller_invariant (p : FailoverPolicy) (c : FailoverController) (ops : list controller_op)
  (Hnew : NewFailoverController p = Ok c) : controller_ok (run_controllers ops c).
Proof.
  apply new_controller_ok in Hnew. revert c Hnew. unfold run_controllers.
  induction ops as [|op ops IH]; intros c Hc; [done|]. simpl. by apply IH, run_controller_ok.
Qed.

(** * Observations *)

Definition observations_of (id : string) (os : list RouteAvailability) : list RouteAvailability :=
  List.filter (fun o => bool_decide (Availability_RouteID o = id)) os.

Lemma observe_spec maximumAge now os id :
  let '(available, seen) := fold_left (observe maximumAge now) os (∅, ∅) in
  (id ∈ seen <-> id <> ""%string /\ observations_of id os <> []) /\
  (id ∈ available <-> id <> ""%string /\ exists o, observations_of id os = [o] /\ fresh_observation maximumAge now o = true).
Proof.
  unfold observations_of. induction os as [|o os IH] using rev_ind.
  { simpl. split; [set_solver|]. split; [set_solver|]. naive_solver. }
  rewrite fold_left_app, List.filter_app. destruct (fold_left _ os _) as [available seen] eqn:Ef. simpl.
  destruct IH as [IHs IHa]. set (L := List.filter _ os) in *.
  destruct (decide (Availability_RouteID o = id)) as [Ho|Ho].
  2: { rewrite (bool_decide_eq_false_2 _ Ho), app_nil_r. unfold observe.
       case_bool_decide; [done|]. case_bool_decide; [set_solver|]. case_if; set_solver. }
  rewrite (bool_decide_eq_true_2 _ Ho). unfold observe. rewrite Ho.
  case_bool_decide as Hid; [split; naive_solver|].
  assert (Hlen : forall o', L ++ [o] = [o'] <-> L = [] /\ o' = o).
  { intros o'. destruct L as [|x L']; simpl; [naive_solver|]. split; [|naive_solver].
    intros [= -> E]. destruct L'; done. }
  assert (Hne : L ++ [o] <> []) by by destruct L.
  case_bool_decide as Hs.
  - simpl. setoid_rewrite Hlen. apply IHs in Hs as [_ HL]. split; [split; [done|tauto]|].
    rewrite elem_of_difference, elem_of_singleton. split; [tauto|]. intros (_ & o' & [E _] & _). done.
  - assert (HL : L = []). { destruct L; [done|]. exfalso. apply Hs, IHs. done. }
    assert (Ha : id ∉ available). { rewrite IHa, HL. intros (_ & o' & [=] & _). }
    destruct (fresh_observation maximumAge now o) eqn:Efr; simpl; setoid_rewrite Hlen;
      rewrite !elem_of_union, !elem_of_singleton; (split; [split; [done|tauto]|]); split.
    + intros _. split; [done|]. exists o. done.
    + tauto.
    + done.
    + intros (_ & o' & [_ ->] & Ef'). congruence.
Qed.

(** A route counts as available exactly when it has one observation and that
    one is healthy, dated, at most five minutes in the future and no older than
    the policy's maximum age: a route reported twice is not available, whatever
    the reports say. *)
Theorem availableRouteIDs_spec (observations : list RouteAvailability) (maximumAge : Duration) (now : Time) (id : string) :
  id ∈ availableRouteIDs observations maximumAge now <->
  id <> ""%string /\ exists o, observations_of id observations = [o] /\ Availability_Healthy o = true /\
    Availability_ObservedAt o <> ZeroTime /\
    now - maximumAge <= Availability_ObservedAt o <= now + 5 * Minute.
Proof.
  unfold availableRouteIDs. pose proof (observe_spec maximumAge now observations id) as H.
  destruct (fold_left _ _ _) as [available seen]. simpl. rewrite (proj2 H).
  assert (F : forall o, fresh_observation maximumAge now o = true <-> Availability_Healthy o = true /\
    Availability_ObservedAt o <> ZeroTime /\ now - maximumAge <= Availability_ObservedAt o <= now + 5 * Minute).
  { intros o. unfold fresh_observation, IsZero, After, Before, Add.
    rewrite negb_true_iff, !orb_false_iff, negb_false_iff, Z.eqb_neq, !Z.ltb_ge.
    replace (now + - maximumAge) with (now - maximumAge) by lia. tauto. }
  split; intros (Hid & o & Ho & Hf); (split; [done|]); exists o; (split; [done|]); by apply F.
Qed.

(** * Selection *)

(** The active route is kept: it is healthy and has failed less often in a row
    than the threshold. *)
Definition keeps_active (c : FailoverController) (health : gset string) : Prop :=
  activeRouteID c <> ""%string /\ consecutiveFailures c < Policy_FailureThreshold (policy c) /\ activeRouteID c ∈ health.

Lemma keeps_active_spec c health :
  negb (bool_decide (activeRouteID c = ""%string)) && (consecutiveFailures c <? Policy_FailureThreshold (policy c)) &&
  bool_decide (activeRouteID c ∈ health) = true <-> keeps_active c health.
Proof. unfold keeps_active. rewrite !andb_true_iff, negb_true_iff, bool_decide_eq_false, bool_decide_eq_true, Z.ltb_lt. tauto. Qed.

Lemma route_id_inj (c : FailoverController) r r' :
  controller_ok c -> r ∈ Policy_Routes (policy c) -> r' ∈ Policy_Routes (policy c) -> Route_ID r = Route_ID r' -> r = r'.
Proof.
  intros [_ Hnd _ _ _ _ _ _] Hr Hr' E. apply list_elem_of_lookup_1 in Hr as [i Hi], Hr' as [j Hj].
  assert (i = j) as ->; [|congruence].
  eapply NoDup_lookup; [exact Hnd| |]; rewrite list_lookup_fmap; [by rewrite Hi|rewrite Hj; simpl; congruence].
Qed.

Lemma decision_of c r previous reason now :
  controller_ok c -> r ∈ Policy_Routes (policy c) ->
  decision c (Route_ID r) previous reason now =
    Some {| Decision_Route := r; Decision_PreviousRouteID := previous; Decision_Reason := reason;
            Decision_ConsecutiveFailures := consecutiveFailures c; Decision_SelectedAt := now |}.
Proof.
  intros Hc Hr. pose proof (decision_spec c (Route_ID r) previous reason now) as D.
  destruct (decision _ _ _ _ _) as [d|]; [|exfalso; by apply D, list_elem_of_fmap_2].
  destruct D as (Hd & E & ->). by rewrite (route_id_inj c _ _ Hc Hd Hr E).
Qed.

Lemma find_sorted_least (p : ApprovedRoute -> bool) routes r :
  StronglySorted (fun a b => Route_Priority a < Route_Priority b) routes -> List.find p routes = Some r ->
  forall r', r' ∈ routes -> p r' = true -> Route_Priority r <= Route_Priority r'.
Proof.
  induction 1 as [|x routes Hs IH Hx]; simpl; [done|]. rewrite Forall_forall in Hx. destruct (p x) eqn:E.
  - intros [= <-] r' [->|Hr']%elem_of_cons _; [lia|]. specialize (Hx r' Hr'). lia.
  - intros Hf r' [->|Hr']%elem_of_cons Hp; [congruence|]. by apply IH.
Qed.

(** [Select] keeps the active route while it is healthy and below the failure
    threshold; otherwise it moves to the healthy approved route of the lowest
    priority number other than the one it leaves, and fails, changing nothing,
    only when there is none. A decision always names an approved route that the
    observations show available, the route before it and the failures counted. *)
Theorem select_route (c : FailoverController) (availability : list RouteAvailability) (now : Time) (Hc : controller_ok c) :
  let health := availableRouteIDs availability (Policy_ObservationMaxAge (policy c)) now in
  match Select availability now c with
  | (Ok d, c') =>
      Decision_Route d ∈ Policy_Routes (policy c) /\ (Route_ID (Decision_Route d) ∈ health) /\
      Decision_PreviousRouteID d = activeRouteID c /\ Decision_ConsecutiveFailures d = consecutiveFailures c /\
      Decision_SelectedAt d = now /\
      (keeps_active c health /\ Route_ID (Decision_Route d) = activeRouteID c /\ c' = c \/
       ~ keeps_active c health /\ Route_ID (Decision_Route d) <> activeRouteID c /\
       c' = with_active c (Route_ID (Decision_Route d)) /\
       forall r, r ∈ Policy_Routes (policy c) -> Route_ID r <> activeRouteID c -> Route_ID r ∈ health ->
         Route_Priority (Decision_Route d) <= Route_Priority r)
  | (Err e, c') =>
      e = ErrNoApprovedRoute /\ c' = c /\ ~ keeps_active c health /\
      forall r, r ∈ Policy_Routes (policy c) -> Route_ID r = activeRouteID c \/ Route_ID r ∉ health
  end.
Proof.
  intros health. unfold Select. fold health. pose proof (keeps_active_spec c health) as K.
  destruct (negb _ && _ && _) eqn:Ek.
  - assert (Hk : keeps_active c health) by by apply K. destruct Hk as (Hne & Hlt & Hin).
    assert (Ha : activeRouteID c ∈ Route_ID <$> Policy_Routes (policy c)) by (destruct (ok_active c Hc); done).
    apply list_elem_of_fmap in Ha as (r & Er & Hr). rewrite Er, decision_of by done. simpl.
    rewrite <- Er. split_and!; try done. left. done.
  - assert (Hk : ~ keeps_active c health) by (rewrite <- K; congruence). clear K Ek.
    set (p := fun route => negb _). destruct (List.find p _) as [r|] eqn:Ef.
    + pose proof (find_sorted_least p _ r (ok_priorities c Hc) Ef) as Hleast.
      apply find_route in Ef as [Hr Hp]. unfold p in Hp. rewrite negb_orb, negb_involutive in Hp. reflect_bools.
      assert (Hin : Route_ID r ∈ Route_ID <$> Policy_Routes (policy c)) by by apply list_elem_of_fmap_2.
      rewrite decision_of by (done || by apply with_active_ok). simpl. split_and!; try done. right. split_and!; try done.
      intros r' Hr' Hne Hh. apply Hleast; [done|]. unfold p.
      rewrite (bool_decide_eq_false_2 _ Hne), (bool_decide_eq_true_2 _ Hh). done.
    + split_and!; try done. intros r Hr. apply list_elem_of_In in Hr. pose proof (find_none _ _ Ef r Hr) as Hp.
      unfold p in Hp. apply negb_false_iff, orb_true_iff in Hp as [Hp|Hp]; reflect_bools; auto.
Qed.

(** [n] failed deliveries on the active route. *)
Definition fail_deliveries (n : nat) (c : FailoverController) : FailoverController :=
  Nat.iter n (fun c => (RecordDelivery (activeRouteID c) false c).2) c.

Lemma fail_deliveries_spec n c :
  controller_ok c -> activeRouteID c <> ""%string ->
  fail_deliveries n c = with_failures c (Z.min (Policy_FailureThreshold (policy c)) (consecutiveFailures c + Z.of_nat n)).
Proof.
  intros Hc Hne. pose proof (ok_failures c Hc). induction n as [|n IH].
  - unfold fail_deliveries. simpl. rewrite Z.min_r by lia. rewrite Z.add_0_r. by destruct c.
  - unfold fail_deliveries in *. simpl. rewrite IH. unfold RecordDelivery. simpl.
    rewrite (bool_decide_eq_false_2 _ Hne), bool_decide_eq_true_2 by done. simpl. unfold with_failures. simpl.
    case_if; simpl; f_equal; [apply Z.ltb_lt in E|apply Z.ltb_ge in E]; lia.
Qed.

(** A route that stays observed healthy is left after exactly the threshold
    of consecutive failed deliveries: with fewer failures [Select] stays on it
    and with as many or more it never does; one success starts the count over. *)
Theorem failover_after_threshold (c : FailoverController) (n : nat) (availability : list RouteAvailability) (now : Time)
  (Hc : controller_ok c) (Hactive : activeRouteID c <> ""%string)
  (Hhealth : activeRouteID c ∈ availableRouteIDs availability (Policy_ObservationMaxAge (policy c)) now) :
  let stays c' := exists d, Select availability now c' = (Ok d, c') /\ Route_ID (Decision_Route d) = activeRouteID c in
  (stays (fail_deliveries n c) <-> consecutiveFailures c + Z.of_nat n < Policy_FailureThreshold (policy c)) /\
  (Z.of_nat n < Policy_FailureThreshold (policy c) ->
   stays (fail_deliveries n (RecordDelivery (activeRouteID c) true c).2)).
Proof.
  intros stays. pose proof (ok_failures c Hc) as Hf. pose proof (ok_threshold c Hc) as Ht.
  assert (S : forall c', controller_ok c' -> policy c' = policy c -> activeRouteID c' = activeRouteID c ->
    (stays c' <-> consecutiveFailures c' < Policy_FailureThreshold (policy c))).
  { intros c' Hc' Ep Ea. pose proof (select_route c' availability now Hc') as H. simpl in H. rewrite Ep, Ea in H. unfold stays.
    destruct (Select availability now c') as [[d|e] c2].
    - destruct H as (_ & _ & _ & _ & _ & [((_ & Hlt & _) & Er & ->)|(Hk & Er & _ & _)]).
      + rewrite Ep in Hlt. split; [done|]. intros _. by exists d.
      + split; [intros (d' & [= <- <-] & E); congruence|]. intros Hlt. exfalso. apply Hk. unfold keeps_active. by rewrite Ep, Ea.
    - destruct H as (_ & _ & Hk & _). split; [by intros (d' & [=] & _)|]. intros Hlt. exfalso. apply Hk.
      unfold keeps_active. by rewrite Ep, Ea. }
  assert (Hn : forall m c', controller_ok c' -> controller_ok (fail_deliveries m c')).
  { intros m c' Hc'. induction m as [|m IH]; [done|].
    apply (run_controller_ok (OpRecordDelivery (activeRouteID (fail_deliveries m c')) false)), IH. }
  split.
  - rewrite S; [|by apply Hn|by rewrite fail_deliveries_spec..]. rewrite fail_deliveries_spec by done. simpl. lia.
  - intros Hlt. set (c1 := (RecordDelivery _ true c).2).
    assert (Hc1 : controller_ok c1) by by apply (run_controller_ok (OpRecordDelivery (activeRouteID c) true)).
    assert (E1 : c1 = with_failures c 0).
    { unfold c1, RecordDelivery. rewrite (bool_decide_eq_false_2 _ Hactive), bool_decide_eq_true_2 by done. done. }
    assert (Ha1 : activeRouteID c1 <> ""%string) by (by rewrite E1).
    rewrite S; [|by apply Hn|rewrite fail_deliveries_spec by done; by rewrite E1..].
    rewrite fail_deliveries_spec, E1 by done. simpl. lia.
Qed.
