(* ===== verification/RelayTelemetry.v ===== *)
(** internal/relaytransport/telemetry.go: the relay's counters, the reports it
    derives from them and their signed envelope. The monitor's mutex makes each
    method one step on its fields; SHA-256, ECDSA and the JSON text of a report
    are operations of a class. *)
From Stdlib Require Import ZArith Lia String.
From stdpp Require Import base tactics list strings.
From S2P Require Import Prelude GoStrings GoTime RelayQueue RelayFailover.
Open Scope Z_scope.

Definition HealthState := string.
Definition HealthHealthy : HealthState := "healthy".
Definition HealthDegraded : HealthState := "degraded".
Definition HealthCritical : HealthState := "critical".

(** Each counter is a [uint64]. *)
Record TelemetryCounters := {
  AcceptedFrames : Z;
  AcknowledgedFrames : Z;
  DuplicateFrames : Z;
  CapacityRejections : Z;
  ExpiredFrames : Z;
  IntegrityFailures : Z;
  DroppedRecords : Z }.

Record PathVisibility := {
  Path_RouteID : string;
  Path_Kind : RouteKind;
  Path_RelayEndpointID : string;
  Path_PreviousRouteID : string;
  Path_TransitionReason : string;
  Path_SelectedAt : Time;
  Path_LastEndToEndAcknowledgement : Time }.

Record TelemetryReport := {
  Report_SchemaVersion : Z;
  Report_RelayID : string;
  Report_Sequence : Z;
  Report_Health : HealthState;
  Report_QueueItems : Z;
  Report_QueueBytes : Z;
  Report_QueueItemLimit : Z;
  Report_QueueByteLimit : Z;
  Report_QueueMaximumAgeSeconds : Z;
  Report_QueueItemUtilization : Z;
  Report_QueueByteUtilization : Z;
  Report_QueueRoutineItems : Z;
  Report_QueueElevatedItems : Z;
  Report_QueueCriticalItems : Z;
  Report_QueueLeasedItems : Z;
  Report_OldestFrameAgeSeconds : Z;
  Report_Counters : TelemetryCounters;
  Report_Path : option PathVisibility;
  Report_LastServerAcknowledgement : Time;
  Report_LastUploadAttempt : Time;
  Report_LastSuccessfulUpload : Time;
  Report_ObservedAt : Time }.

Record SignedTelemetry := { Signed_Report : TelemetryReport; Signed_Signature : string }.

Record TelemetryMonitor := {
  counters : TelemetryCounters;
  lastServerAcknowledgement : Time;
  lastUploadAttempt : Time;
  lastSuccessfulUpload : Time;
  path : option PathVisibility;
  sequence : Z }.

Definition new_monitor : TelemetryMonitor :=
  {| counters := {| AcceptedFrames := 0; AcknowledgedFrames := 0; DuplicateFrames := 0; CapacityRejections := 0;
                    ExpiredFrames := 0; IntegrityFailures := 0; DroppedRecords := 0 |};
     lastServerAcknowledgement := ZeroTime; lastUploadAttempt := ZeroTime; lastSuccessfulUpload := ZeroTime;
     path := None; sequence := 0 |}.

(** * Recording *)

(** The amounts added to each counter, in the order of the struct's fields. *)
Definition add_counters (accepted acknowledged duplicate capacity expired integrity dropped : Z) (c : TelemetryCounters)
  : TelemetryCounters :=
  {| AcceptedFrames := wrapu64 (AcceptedFrames c + accepted);
     AcknowledgedFrames := wrapu64 (AcknowledgedFrames c + acknowledged);
     DuplicateFrames := wrapu64 (DuplicateFrames c + duplicate);
     CapacityRejections := wrapu64 (CapacityRejections c + capacity);
     ExpiredFrames := wrapu64 (ExpiredFrames c + expired);
     IntegrityFailures := wrapu64 (IntegrityFailures c + integrity);
     DroppedRecords := wrapu64 (DroppedRecords c + dropped) |}.
Definition with_counters (m : TelemetryMonitor) (c : TelemetryCounters) : TelemetryMonitor :=
  {| counters := c; lastServerAcknowledgement := lastServerAcknowledgement m; lastUploadAttempt := lastUploadAttempt m;
     lastSuccessfulUpload := lastSuccessfulUpload m; path := path m; sequence := sequence m |}.
Definition with_path (m : TelemetryMonitor) (p : option PathVisibility) : TelemetryMonitor :=
  {| counters := counters m; lastServerAcknowledgement := lastServerAcknowledgement m; lastUploadAttempt := lastUploadAttempt m;
     lastSuccessfulUpload := lastSuccessfulUpload m; path := p; sequence := sequence m |}.

Definition RecordEnqueue (res : result ()) (m : TelemetryMonitor) : TelemetryMonitor :=
  match res with
  | Ok _ => with_counters m (add_counters 1 0 0 0 0 0 0 (counters m))
  | Err e =>
      if bool_decide (e = ErrQueueDuplicate) then with_counters m (add_counters 0 0 1 0 0 0 0 (counters m))
      else if bool_decide (e = ErrQueueFull) then with_counters m (add_counters 0 0 0 1 0 0 0 (counters m))
      else m
  end.

Definition acknowledge_path (observedAt : Time) (p : PathVisibility) : PathVisibility :=
  {| Path_RouteID := Path_RouteID p; Path_Kind := Path_Kind p; Path_RelayEndpointID := Path_RelayEndpointID p;
     Path_PreviousRouteID := Path_PreviousRouteID p; Path_TransitionReason := Path_TransitionReason p;
     Path_SelectedAt := Path_SelectedAt p; Path_LastEndToEndAcknowledgement := observedAt |}.

Definition RecordAcknowledgement (res : result ()) (observedAt : Time) (m : TelemetryMonitor) : TelemetryMonitor :=
  match res with
  | Err _ => m
  | Ok _ =>
      {| counters := add_counters 0 1 0 0 0 0 0 (counters m); lastServerAcknowledgement := observedAt;
         lastUploadAttempt := lastUploadAttempt m; lastSuccessfulUpload := observedAt;
         path := acknowledge_path observedAt <$> path m; sequence := sequence m |}
  end.

Definition RecordUploadAttempt (observedAt : Time) (m : TelemetryMonitor) : TelemetryMonitor :=
  if IsZero observedAt then m else
  {| counters := counters m; lastServerAcknowledgement := lastServerAcknowledgement m; lastUploadAttempt := observedAt;
     lastSuccessfulUpload := lastSuccessfulUpload m; path := path m; sequence := sequence m |}.

Definition RecordDropped (count : Z) (m : TelemetryMonitor) : TelemetryMonitor :=
  if count =? 0 then m else with_counters m (add_counters 0 0 0 0 0 0 count (counters m)).

Definition RecordExpired (count : Z) (m : TelemetryMonitor) : TelemetryMonitor :=
  if count <=? 0 then m else with_counters m (add_counters 0 0 0 0 (wrapu64 count) 0 0 (counters m)).

Definition RecordIntegrityFailure (m : TelemetryMonitor) : TelemetryMonitor :=
  with_counters m (add_counters 0 0 0 0 0 1 0 (counters m)).

Definition transition_reasons : list string :=
  ["approved_initial_route"; "approved_failover"; "active_route_healthy"; "server_selected_approved_route"]%string.

Definition validatePathVisibility (p : PathVisibility) : result () :=
  reject bool_decide (Path_RouteID p = ""%string) || (maximumRouteIDLength <? strlen (Path_RouteID p)) ||
         (maximumRouteIDLength <? strlen (Path_RelayEndpointID p)) || (maximumRouteIDLength <? strlen (Path_PreviousRouteID p)) ||
         IsZero (Path_SelectedAt p)
    as "relay path visibility is invalid";;
  try (if bool_decide (Path_Kind p = RouteRelay) then
         reject bool_decide (Path_RelayEndpointID p = ""%string) as "relayed path requires an approved relay identity";; Ok tt
       else if bool_decide (Path_Kind p = RouteDirect) then
         reject negb (bool_decide (Path_RelayEndpointID p = ""%string)) as "direct path cannot identify a relay";; Ok tt
       else Err "relay path kind is invalid");;
  if bool_decide (Path_TransitionReason p ∈ transition_reasons) then Ok tt
  else Err "relay path transition reason is invalid".

Definition path_of_decision (d : RouteDecision) : PathVisibility :=
  {| Path_RouteID := Route_ID (Decision_Route d); Path_Kind := Route_Kind (Decision_Route d);
     Path_RelayEndpointID := Route_RelayEndpointID (Decision_Route d); Path_PreviousRouteID := Decision_PreviousRouteID d;
     Path_TransitionReason := Decision_Reason d; Path_SelectedAt := Decision_SelectedAt d;
     Path_LastEndToEndAcknowledgement := ZeroTime |}.

Definition RecordRouteDecision (d : RouteDecision) : st TelemetryMonitor () := fun m =>
  let p := path_of_decision d in
  match validatePathVisibility p with
  | Err e => (Err e, m)
  | Ok _ => (Ok tt, with_path m (Some p))
  end.

(** * Reports *)

(** [int(used * 10000 / limit)], in [int64]. *)
Definition utilizationBasisPoints (used limit : Z) : Z :=
  if (used <=? 0) || (limit <=? 0) then 0
  else if limit <=? used then 10000
  else Z.quot (wrap64 (used * 10000)) limit.

Definition classifyRelayHealth (report : TelemetryReport) : HealthState :=
  if 0 <? IntegrityFailures (Report_Counters report) then HealthCritical
  else if (0 <? CapacityRejections (Report_Counters report)) || (0 <? ExpiredFrames (Report_Counters report)) ||
          (0 <? DroppedRecords (Report_Counters report)) || (9000 <=? Report_QueueItemUtilization report) ||
          (9000 <=? Report_QueueByteUtilization report)
  then HealthDegraded else HealthHealthy.

Definition set_health (r : TelemetryReport) (h : HealthState) : TelemetryReport :=
  {| Report_SchemaVersion := Report_SchemaVersion r; Report_RelayID := Report_RelayID r; Report_Sequence := Report_Sequence r;
     Report_Health := h; Report_QueueItems := Report_QueueItems r; Report_QueueBytes := Report_QueueBytes r;
     Report_QueueItemLimit := Report_QueueItemLimit r; Report_QueueByteLimit := Report_QueueByteLimit r;
     Report_QueueMaximumAgeSeconds := Report_QueueMaximumAgeSeconds r;
     Report_QueueItemUtilization := Report_QueueItemUtilization r; Report_QueueByteUtilization := Report_QueueByteUtilization r;
     Report_QueueRoutineItems := Report_QueueRoutineItems r; Report_QueueElevatedItems := Report_QueueElevatedItems r;
     Report_QueueCriticalItems := Report_QueueCriticalItems r; Report_QueueLeasedItems := Report_QueueLeasedItems r;
     Report_OldestFrameAgeSeconds := Report_OldestFrameAgeSeconds r; Report_Counters := Report_Counters r;
     Report_Path := Report_Path r; Report_LastServerAcknowledgement := Report_LastServerAcknowledgement r;
     Report_LastUploadAttempt := Report_LastUploadAttempt r; Report_LastSuccessfulUpload := Report_LastSuccessfulUpload r;
     Report_ObservedAt := Report_ObservedAt r |}.

Definition advance_sequence (m : TelemetryMonitor) : TelemetryMonitor :=
  {| counters := counters m; lastServerAcknowledgement := lastServerAcknowledgement m; lastUploadAttempt := lastUploadAttempt m;
     lastSuccessfulUpload := lastSuccessfulUpload m; path := path m; sequence := wrapu64 (sequence m + 1) |}.

Definition Report (relayID : string) (stats : QueueStats) (limits : QueueLimits) (observedAt : Time)
  : st TelemetryMonitor TelemetryReport := fun m =>
  if bool_decide (relayID = ""%string) || IsZero observedAt
  then (Err "relay telemetry identity and observation time are required", m) else
  match validateQueueLimits limits with
  | Err e => (Err e, m)
  | Ok _ =>
      let m' := advance_sequence m in
      let report :=
        {| Report_SchemaVersion := 1; Report_RelayID := relayID; Report_Sequence := sequence m'; Report_Health := "";
           Report_QueueItems := Stats_Items stats; Report_QueueBytes := Stats_Bytes stats;
           Report_QueueItemLimit := MaxItems limits; Report_QueueByteLimit := MaxBytes limits;
           Report_QueueMaximumAgeSeconds := truncated_seconds (MaxAge limits);
           Report_QueueItemUtilization := utilizationBasisPoints (Stats_Items stats) (MaxItems limits);
           Report_QueueByteUtilization := utilizationBasisPoints (Stats_Bytes stats) (MaxBytes limits);
           Report_QueueRoutineItems := Stats_RoutineItems stats; Report_QueueElevatedItems := Stats_ElevatedItems stats;
           Report_QueueCriticalItems := Stats_CriticalItems stats; Report_QueueLeasedItems := Stats_LeasedItems stats;
           Report_OldestFrameAgeSeconds :=
             if negb (IsZero (Stats_OldestFrame stats)) && After observedAt (Stats_OldestFrame stats)
             then truncated_seconds (Sub observedAt (Stats_OldestFrame stats)) else 0;
           Report_Counters := counters m'; Report_Path := path m';
           Report_LastServerAcknowledgement := lastServerAcknowledgement m';
           Report_LastUploadAttempt := lastUploadAttempt m'; Report_LastSuccessfulUpload := lastSuccessfulUpload m';
           Report_ObservedAt := observedAt |} in
      (Ok (set_health report (classifyRelayHealth report)), m')
  end.

(** * Signing *)

Class TelemetryCrypto := {
  ECDSAPrivate : Type;
  ECDSAPublic : Type;
  ecdsa_public : ECDSAPrivate -> ECDSAPublic;
  report_json : TelemetryReport -> option string;
  Sum256 : string -> string;
  (** The signature for a value of [rand.Reader]. *)
  SignASN1 : string -> ECDSAPrivate -> string -> string;
  VerifyASN1 : ECDSAPublic -> string -> string -> bool }.

Class TelemetryCryptoLaws `{TelemetryCrypto} : Prop := {
  VerifyASN1_SignASN1 : forall random key digest, VerifyASN1 (ecdsa_public key) digest (SignASN1 random key digest) = true }.

Section signing.
Context `{TelemetryCrypto}.

Definition telemetryDigest (report : TelemetryReport) : result string :=
  match report_json report with
  | Some encoded => Ok (Sum256 encoded)
  | None => Err "json: error calling MarshalJSON"
  end.

Definition SignTelemetry (random : string) (report : TelemetryReport) (key : option ECDSAPrivate) : result SignedTelemetry :=
  match key with
  | None => Err "relay telemetry signing key is required"
  | Some key =>
      digest ← telemetryDigest report;
      Ok {| Signed_Report := report; Signed_Signature := SignASN1 random key digest |}
  end.

Definition VerifyTelemetry (signed : SignedTelemetry) (key : option ECDSAPublic) (now : Time) : result () :=
  let report := Signed_Report signed in
  match key with
  | None => Err "relay telemetry envelope is invalid"
  | Some key =>
      reject negb (Report_SchemaVersion report =? 1) || bool_decide (Report_RelayID report = ""%string) ||
             (Report_Sequence report =? 0) || IsZero (Report_ObservedAt report)
        as "relay telemetry envelope is invalid";;
      reject After (Report_ObservedAt report) (Add now (5 * Minute)) || Before (Report_ObservedAt report) (Add now (- (24 * Hour)))
        as "relay telemetry observation time is outside the accepted window";;
      digest ← telemetryDigest report;
      reject negb (VerifyASN1 key digest (Signed_Signature signed)) as "relay telemetry signature verification failed";;
      match Report_Path report with
      | Some p => validatePathVisibility p
      | None => Ok tt
      end
  end.
End signing.

(** * Histories *)

Inductive monitor_event :=
| EvEnqueue (res : result ())
| EvAcknowledgement (res : result ()) (observedAt : Time)
| EvUploadAttempt (observedAt : Time)
| EvDropped (count : Z)
| EvRouteDecision (d : RouteDecision)
| EvExpired (count : Z)
| EvIntegrityFailure
| EvReport (relayID : string) (stats : QueueStats) (limits : QueueLimits) (observedAt : Time).

Definition run_event (ev : monitor_event) (m : TelemetryMonitor) : TelemetryMonitor :=
  match ev with
  | EvEnqueue res => RecordEnqueue res m
  | EvAcknowledgement res t => RecordAcknowledgement res t m
  | EvUploadAttempt t => RecordUploadAttempt t m
  | EvDropped n => RecordDropped n m
  | EvRouteDecision d => (RecordRouteDecision d m).2
  | EvExpired n => RecordExpired n m
  | EvIntegrityFailure => RecordIntegrityFailure m
  | EvReport id stats limits t => (Report id stats limits t m).2
  end.
Definition run_events (evs : list monitor_event) (m : TelemetryMonitor) : TelemetryMonitor :=
  fold_left (fun m ev => run_event ev m) evs m.

(** Totals of a history, each of one kind of event. *)
Definition total (f : monitor_event -> Z) (evs : list monitor_event) : Z := fold_right (fun ev n => f ev + n) 0 evs.
Definition one_if (b : bool) : Z := if b then 1 else 0.
Definition accepted (ev : monitor_event) : Z := match ev with EvEnqueue (Ok _) => 1 | _ => 0 end.
Definition acknowledged (ev : monitor_event) : Z := match ev with EvAcknowledgement (Ok _) _ => 1 | _ => 0 end.
Definition duplicate (ev : monitor_event) : Z :=
  match ev with EvEnqueue (Err e) => one_if (bool_decide (e = ErrQueueDuplicate)) | _ => 0 end.
Definition capacity (ev : monitor_event) : Z :=
  match ev with EvEnqueue (Err e) => one_if (bool_decide (e = ErrQueueFull)) | _ => 0 end.
Definition expired (ev : monitor_event) : Z := match ev with EvExpired n => Z.max 0 n | _ => 0 end.
Definition integrity (ev : monitor_event) : Z := match ev with EvIntegrityFailure => 1 | _ => 0 end.
Definition dropped (ev : monitor_event) : Z := match ev with EvDropped n => n | _ => 0 end.

Definition history_counters (evs : list monitor_event) : TelemetryCounters :=
  {| AcceptedFrames := total accepted evs; AcknowledgedFrames := total acknowledged evs; DuplicateFrames := total duplicate evs;
     CapacityRejections := total capacity evs; ExpiredFrames := total expired evs; IntegrityFailures := total integrity evs;
     DroppedRecords := total dropped evs |}.

(** Counts are values of their machine types. *)
Definition event_ok (ev : monitor_event) : Prop :=
  match ev with
  | EvDropped n => uint64_range n
  | EvExpired n => int64_range n
  | _ => True
  end.

(** The counters' [uint64] arithmetic. *)
Definition wrap_counters (c : TelemetryCounters) : TelemetryCounters := add_counters 0 0 0 0 0 0 0 c.
Definition plus_counters (c d : TelemetryCounters) : TelemetryCounters :=
  add_counters (AcceptedFrames d) (AcknowledgedFrames d) (DuplicateFrames d) (CapacityRejections d) (ExpiredFrames d)
    (IntegrityFailures d) (DroppedRecords d) c.
Definition event_counters (ev : monitor_event) : TelemetryCounters := history_counters [ev].

Lemma wrapu64_add a b : wrapu64 (wrapu64 a + b) = wrapu64 (a + b).
Proof. unfold wrapu64. apply Zplus_mod_idemp_l. Qed.

Lemma run_event_counters ev m :
  event_ok ev -> wrap_counters (counters m) = counters m ->
  counters (run_event ev m) = plus_counters (counters m) (event_counters ev).
Proof.
  intros Hok Hw. pose proof Hw as Hz. unfold wrap_counters in Hz.
  destruct ev as [[[]|e]|[[]|e] t|t|n|d|n| |id stats limits t]; try done; unfold plus_counters, event_counters; simpl;
    rewrite ?Z.add_0_r, ?Hz; try done.
  - destruct (bool_decide (e = ErrQueueDuplicate)) eqn:Ed.
    + reflect_bools. subst e. rewrite bool_decide_eq_false_2 by done. done.
    + destruct (bool_decide (e = ErrQueueFull)); [done|]. simpl. by rewrite Hz.
  - unfold RecordUploadAttempt. by case_if.
  - unfold RecordDropped. destruct (n =? 0) eqn:E; [|done]. apply Z.eqb_eq in E as ->. by rewrite Hz.
  - unfold RecordRouteDecision. by destruct (validatePathVisibility _).
  - unfold RecordExpired. destruct (n <=? 0) eqn:E.
    + apply Z.leb_le in E. rewrite Z.max_l by lia. by rewrite Hz.
    + apply Z.leb_gt in E. rewrite Z.max_r, (wrapu64_id n); [done| |lia].
      simpl in Hok. unfold int64_range, int64_max, uint64_range in *. lia.
  - unfold Report. case_if; [done|]. by destruct (validateQueueLimits limits).
Qed.

Lemma wrap_plus_counters c d : wrap_counters (plus_counters c d) = plus_counters c d.
Proof. unfold wrap_counters, plus_counters, add_counters. simpl. f_equal; by rewrite wrapu64_add, Z.add_0_r. Qed.

Lemma run_events_counters evs m :
  Forall event_ok evs -> wrap_counters (counters m) = counters m ->
  counters (run_events evs m) = plus_counters (counters m) (history_counters evs).
Proof.
  intros Hok. revert m. induction Hok as [|ev evs Hev _ IH]; intros m Hw; [by symmetry|].
  simpl. pose proof (run_event_counters ev m Hev Hw) as E.
  rewrite IH by (rewrite E; apply wrap_plus_counters). rewrite E.
  unfold plus_counters, event_counters, history_counters, add_counters. simpl.
  f_equal; rewrite wrapu64_add; f_equal; lia.
Qed.

(** Whatever calls a relay's monitor gets, each counter is the total of its
    events modulo 2^64: accepted, duplicate and refused frames by the outcome of
    the enqueue, acknowledged ones by that of the acknowledgement, and the
    expired and dropped counts as reported (a non-positive expiry count adds
    nothing). *)
Theorem monitor_counts_history (evs : list monitor_event) (Hok : Forall event_ok evs) :
  counters (run_events evs new_monitor) = wrap_counters (history_counters evs).
Proof.
  rewrite run_events_counters by done. unfold plus_counters, wrap_counters, add_counters. simpl.
  by rewrite !Z.add_0_r.
Qed.

(** * Reports *)

Lemma utilization_bounds used limit :
  used <= 2 ^ 48 -> 0 < limit -> 0 <= utilizationBasisPoints used limit <= 10000.
Proof.
  intros Hu Hl. unfold utilizationBasisPoints. case_if; [lia|]. case_if; [lia|]. reflect_bools.
  rewrite wrap64_id by (apply int64_range_small; lia). rewrite Z.quot_div_nonneg by lia.
  split; [apply Z.div_pos; lia|]. apply Z.div_le_upper_bound; nia.
Qed.

Lemma utilization_ge used limit :
  used <= 2 ^ 48 -> 0 < limit -> 9000 <= utilizationBasisPoints used limit <-> 9 * limit <= 10 * used.
Proof.
  intros Hu Hl. unfold utilizationBasisPoints. case_if.
  { apply orb_true_iff in E as [E|E]; apply Z.leb_le in E; lia. }
  case_if; reflect_bools; [lia|].
  rewrite wrap64_id by (apply int64_range_small; lia). rewrite Z.quot_div_nonneg by lia.
  split; intros L.
  - assert (9000 * limit <= used * 10000); [|lia].
    etrans; [|apply (Z.mul_div_le (used * 10000) limit); lia]. nia.
  - apply Z.div_le_lower_bound; lia.
Qed.

(** A history short enough that no counter wraps. *)
Definition unwrapped (evs : list monitor_event) : Prop := wrap_counters (history_counters evs) = history_counters evs.

(** The health a report shows: critical exactly when an integrity failure was
    recorded; otherwise degraded exactly when frames were refused for capacity,
    expired or dropped, or the queue holds nine tenths of its item or byte
    limit. The utilization figures stay between 0 and 10000 basis points. *)
Theorem report_health (evs : list monitor_event) (relayID : string) (stats : QueueStats) (limits : QueueLimits)
  (observedAt : Time) (report : TelemetryReport) (m' : TelemetryMonitor)
  (Hok : Forall event_ok evs) (Hu : unwrapped evs) (Hitems : Stats_Items stats <= 2 ^ 48) (Hbytes : Stats_Bytes stats <= 2 ^ 48)
  (Hreport : Report relayID stats limits observedAt (run_events evs new_monitor) = (Ok report, m')) :
  let troubled :=
    0 < total capacity evs \/ 0 < total expired evs \/ 0 < total dropped evs \/
    9 * MaxItems limits <= 10 * Stats_Items stats \/ 9 * MaxBytes limits <= 10 * Stats_Bytes stats in
  (Report_Health report = HealthCritical <-> 0 < total integrity evs) /\
  (Report_Health report = HealthDegraded <-> total integrity evs <= 0 /\ troubled) /\
  (Report_Health report = HealthHealthy <-> total integrity evs <= 0 /\ ~ troubled) /\
  0 <= Report_QueueItemUtilization report <= 10000 /\ 0 <= Report_QueueByteUtilization report <= 10000.
Proof.
  intros troubled. unfold Report in Hreport. case_if_in Hreport; [done|].
  destruct (validateQueueLimits limits) as [[]|] eqn:El; [|done]. injection Hreport as <- _.
  unfold validateQueueLimits in El. case_if_in El; [done|]. clear El. reflect_bools.
  simpl. split; [|split; [|split; [|split; apply utilization_bounds; lia]]].
  all: rewrite monitor_counts_history by done; rewrite Hu; unfold classifyRelayHealth; simpl.
  all: destruct (0 <? total integrity evs) eqn:Ei; [apply Z.ltb_lt in Ei|apply Z.ltb_ge in Ei].
  all: try (split; [try done; lia|intros; try done; lia]).
  all: match goal with |- context [if ?b then _ else _] => assert (B : b = true <-> troubled) end.
  all: try (unfold troubled; rewrite !orb_true_iff, !Z.ltb_lt, !Z.leb_le, !utilization_ge by lia; tauto).
  all: case_if; split; intros; try done; try tauto; try (split; [lia|]); try (exfalso; lia).
  all: try (apply B; done). all: try (rewrite <- B; congruence).
  all: exfalso; rewrite <- B in *; intuition congruence.
Qed.

(** * Signed reports *)

Definition path_ok (m : TelemetryMonitor) : Prop :=
  match path m with Some p => validatePathVisibility p = Ok tt | None => True end.

Lemma run_event_path ev m : path_ok m -> path_ok (run_event ev m).
Proof.
  unfold path_ok. destruct ev as [[[]|e]|[[]|e] t|t|n|d|n| |id stats limits t]; simpl; intros Hp; try done.
  - repeat case_if; done.
  - destruct (path m) as [p|]; done.
  - unfold RecordUploadAttempt. case_if; done.
  - unfold RecordDropped. case_if; done.
  - unfold RecordRouteDecision. destruct (validatePathVisibility (path_of_decision d)) as [[]|] eqn:Ev; done.
  - unfold RecordExpired. case_if; done.
  - unfold Report. case_if; [done|]. destruct (validateQueueLimits limits); done.
Qed.

Lemma run_events_path evs m : path_ok m -> path_ok (run_events evs m).
Proof. revert m. induction evs as [|ev evs IH]; intros m Hm; [done|]. by apply IH, run_event_path. Qed.

Definition reports (evs : list monitor_event) : Z := total (fun ev => match ev with EvReport _ _ _ _ => 1 | _ => 0 end) evs.

Lemma run_event_sequence ev m :
  0 <= sequence m -> sequence (run_event ev m) = sequence m \/
  (exists id stats limits t, ev = EvReport id stats limits t) /\ sequence (run_event ev m) = wrapu64 (sequence m + 1).
Proof.
  intros Hs. destruct ev as [[[]|e]|[[]|e] t|t|n|d|n| |id stats limits t]; simpl; try (by left).
  - repeat case_if; by left.
  - unfold RecordUploadAttempt. case_if; by left.
  - unfold RecordDropped. case_if; by left.
  - unfold RecordRouteDecision. destruct (validatePathVisibility _); by left.
  - unfold RecordExpired. case_if; by left.
  - unfold Report. case_if; [by left|]. destruct (validateQueueLimits limits); [right|by left]. split; [|done]. by repeat eexists.
Qed.

Lemma run_events_sequence evs m :
  0 <= sequence m -> sequence m + reports evs < 2 ^ 64 ->
  sequence m <= sequence (run_events evs m) <= sequence m + reports evs.
Proof.
  assert (R : forall evs, 0 <= reports evs).
  { induction evs0 as [|ev evs0 IH]; unfold reports in *; simpl; [lia|]. destruct ev; lia. }
  revert m. induction evs as [|ev evs IH]; intros m H0 Hlt; [unfold reports; simpl; lia|].
  unfold reports in Hlt |- *. simpl in Hlt |- *. fold (reports evs) in *. specialize (R evs).
  destruct (run_event_sequence ev m H0) as [E|[(id & stats & limits & t & ->) E]].
  - specialize (IH (run_event ev m)). rewrite E in IH. destruct ev; lia.
  - rewrite wrapu64_id in E by (unfold uint64_range; lia). specialize (IH (run_event (EvReport id stats limits t) m)).
    rewrite E in IH. lia.
Qed.

(** A report the monitor makes and the relay signs is accepted by the
    server that holds the relay's public key, from five minutes before to a day
    after its time, provided fewer than 2^64 - 1 reports were made before
    (sequence 0 is refused). *)
Theorem signed_report_verifies `{TelemetryCryptoLaws} (evs : list monitor_event) (relayID : string) (stats : QueueStats)
  (limits : QueueLimits) (observedAt now : Time) (random : string) (key : ECDSAPrivate)
  (report : TelemetryReport) (m' : TelemetryMonitor) (signed : SignedTelemetry)
  (Hcount : reports evs < 2 ^ 64 - 1)
  (Hreport : Report relayID stats limits observedAt (run_events evs new_monitor) = (Ok report, m'))
  (Hsign : SignTelemetry random report (Some key) = Ok signed)
  (Hnow : now - 24 * Hour <= observedAt <= now + 5 * Minute) :
  VerifyTelemetry signed (Some (ecdsa_public key)) now = Ok tt.
Proof.
  pose proof (run_events_path evs new_monitor I) as Hp. unfold path_ok in Hp.
  pose proof (run_events_sequence evs new_monitor ltac:(done) ltac:(simpl; lia)) as Hs. simpl in Hs.
  unfold Report in Hreport. case_if_in Hreport; [done|]. apply orb_false_iff in E as [E1 E2].
  destruct (validateQueueLimits limits); [|done]. injection Hreport as <- _.
  unfold SignTelemetry in Hsign. apply bind_ok in Hsign as (digest & Hd & [= <-]).
  unfold VerifyTelemetry. simpl in *. rewrite Hd. simpl. rewrite E1, E2. simpl.
  rewrite wrapu64_id by (unfold uint64_range; lia). rewrite (proj2 (Z.eqb_neq _ 0)) by lia. simpl.
  unfold After, Before, Add. rewrite (proj2 (Z.ltb_ge _ _)) by lia. rewrite (proj2 (Z.ltb_ge observedAt _)) by lia. simpl.
  rewrite VerifyASN1_SignASN1. simpl. by destruct (path (run_events evs new_monitor)).
Qed.
