(* ===== verification/RelayRouteExamples.v ===== *)
(** Relay queues, routes and telemetry on concrete histories: the theorems of
    the queue, of the failover controller and of the monitor at inputs where their
    hypotheses hold. *)
From Stdlib Require Import ZArith Lia String.
From stdpp Require Import base tactics list strings gmap sets.
From S2P Require Import Prelude GoStrings GoTime Sql RelayQueue RelayQueueSafety RelayFailover RelayTelemetry.
Open Scope Z_scope.

(** 2026-03-01T00:00:00Z. *)
Definition now0 : Time := 1772323200 * Second.
Definition sample_length (frame : Frame) : Z := 512 + strlen (Frame_Ciphertext frame).
Definition sample_limits : QueueLimits := {| MaxItems := 3; MaxBytes := 2000; MaxAge := 7 * 24 * Hour |}.

Definition sample_frame (id : string) (kind : MessageKind) (created : Time) : Frame :=
  {| Frame_ProtocolVersion := 1; Frame_MessageID := "0123456789abcdef0123456789abcd" ++ id; Frame_Kind := kind;
     Frame_DownstreamEndpointID := "endpoint-1"; Frame_SenderID := "agent"; Frame_RecipientID := "server";
     Frame_RecipientKeyID := "key-1"; Frame_Sequence := 1; Frame_CreatedAt := created;
     Frame_EphemeralPublicKey := "0123456789abcdef0123456789abcdef"; Frame_Nonce := "0123456789ab";
     Frame_Ciphertext := "sealed";
     Frame_Signature := "0123456789abcdef0123456789abcdef0123456789abcdef0123456789abcdef" |}.
Definition log_frame := sample_frame "00" MessageAgentLogBatch now0.
Definition check_in_frame := sample_frame "01" MessageAgentCheckIn now0.
Definition tamper_frame := sample_frame "02" MessageTamperAlert now0.
Definition second_tamper_frame := sample_frame "03" MessageTamperAlert now0.
Definition old_tamper_frame := sample_frame "04" MessageTamperAlert (now0 - 6 * 24 * Hour).

Lemma sample_length_pos frame : 0 <= sample_length frame.
Proof. unfold sample_length, strlen. lia. Qed.
Lemma sample_limits_ok : validateQueueLimits sample_limits = Ok ().
Proof. reflexivity. Qed.
Lemma sample_limits_small : MaxBytes sample_limits <= 2 ^ 61.
Proof. unfold sample_limits. simpl. lia. Qed.
Lemma sample_queue_ok ops : queue_ok sample_length sample_limits (run_ops sample_length sample_limits ops []).
Proof. apply run_ops_ok; [apply sample_length_pos|apply sample_limits_small|]. apply empty_queue_ok, sample_limits_ok. Qed.

Definition fill_ops : list queue_op :=
  [OpEnqueue log_frame now0; OpEnqueue check_in_frame now0; OpEnqueue tamper_frame now0; OpEnqueue second_tamper_frame now0].
(** The fourth frame is refused: the queue holds three. *)
Definition filled : list FrameRow := run_ops sample_length sample_limits fill_ops [].
Definition sample_delivery : Delivery :=
  {| Delivery_Frame := tamper_frame; Delivery_Token := "token-1"; Delivery_Attempt := 1;
     Delivery_LeaseUntil := now0 + Minute |}.
Definition next_delivery : Delivery :=
  {| Delivery_Frame := check_in_frame; Delivery_Token := "token-2"; Delivery_Attempt := 1;
     Delivery_LeaseUntil := now0 + 90 * Second |}.
Definition claimed : list FrameRow := (Claim "token-1" now0 Minute filled).2.

Example filled_ids : frame_message_id <$> filled =
  ["0123456789abcdef0123456789abcd00"; "0123456789abcdef0123456789abcd01"; "0123456789abcdef0123456789abcd02"]%string.
Proof. vm_compute. reflexivity. Qed.
Example claim_tamper : (Claim "token-1" now0 Minute filled).1 = Ok sample_delivery.
Proof. vm_compute. reflexivity. Qed.

(** A purge and a re-send between the two claims. *)
Definition between_ops : list queue_op :=
  [OpPurge now0; OpEnqueue tamper_frame now0; OpAcknowledge (Frame_MessageID tamper_frame) "token-0"].

(** * Witnesses *)

Lemma queue_invariant_witness : queue_ok sample_length sample_limits (run_ops sample_length sample_limits fill_ops []).
Proof.
  apply (queue_invariant sample_length sample_limits); [apply sample_length_pos|apply sample_limits_ok|apply sample_limits_small].
Defined.

Lemma claim_order_witness :
  exists l1 r l2, filled = l1 ++ r :: l2 /\ frame_json r = Some tamper_frame.
Proof.
  pose proof (claim_order sample_length sample_limits "token-1" now0 Minute filled (sample_queue_ok fill_ops) ltac:(done)) as H.
  destruct (Claim "token-1" now0 Minute filled) as [res rows'] eqn:E.
  assert (Er : res = Ok sample_delivery) by (rewrite <- claim_tamper, E; reflexivity). rewrite Er in H.
  destruct H as (l1 & r & l2 & Hrows & _ & _ & _ & Hj & _). exists l1, r, l2. exact (conj Hrows Hj).
Defined.

Lemma claim_exclusive_witness :
  (Claim "token-2" (now0 + 30 * Second) Minute (run_ops sample_length sample_limits between_ops claimed)).1 = Ok next_delivery /\
  Frame_MessageID check_in_frame <> Frame_MessageID tamper_frame.
Proof.
  assert (H2 : (Claim "token-2" (now0 + 30 * Second) Minute (run_ops sample_length sample_limits between_ops claimed)).1
               = Ok next_delivery) by (vm_compute; reflexivity).
  split; [exact H2|].
  apply (claim_exclusive sample_length sample_limits sample_length_pos sample_limits_small
    "token-1" "token-2" now0 (now0 + 30 * Second) Minute Minute filled claimed sample_delivery next_delivery between_ops
    (sample_queue_ok fill_ops)).
  - rewrite <- claim_tamper. apply surjective_pairing.
  - repeat constructor; [vm_compute; congruence|intros [_ H]; vm_compute in H; congruence].
  - vm_compute. reflexivity.
  - exact H2.
Defined.

Lemma frame_kept_until_removed_witness :
  exists r, r ∈ claimed /\ frame_message_id r ∉ frame_message_id <$>
    run_op sample_length sample_limits (OpAcknowledge (frame_message_id r) "token-1") claimed.
Proof.
  assert (Hq : queue_ok sample_length sample_limits claimed).
  { apply (sample_queue_ok (fill_ops ++ [OpClaim "token-1" now0 Minute])). }
  assert (Hr : exists r, r ∈ claimed /\ frame_delivery_token r = Some "token-1"%string /\ blank (frame_message_id r) = false).
  { eexists. split_and!; [apply list_elem_of_lookup_2 with (i := 2%nat); vm_compute; reflexivity|reflexivity|reflexivity]. }
  destruct Hr as (r & Hr & Ht & Hb). exists r. split; [exact Hr|].
  apply (frame_kept_until_removed sample_length sample_limits claimed r _ Hq Hr). simpl. done.
Defined.

(** [queued_before], evaluated. *)
Definition queued_beforeb (now : Time) (r : FrameRow) : bool :=
  match frame_json r with
  | Some frame => (int64_min <=? Frame_CreatedAt frame) && (Frame_CreatedAt frame <=? int64_max) &&
                  (Frame_CreatedAt frame <=? now + 5 * Minute)
  | None => true
  end.
Lemma forallb_queued_before now rows : forallb (queued_beforeb now) rows = true -> Forall (queued_before now) rows.
Proof.
  rewrite forallb_forall, Forall_forall. setoid_rewrite list_elem_of_In. intros H r Hr frame Hj. specialize (H r Hr).
  unfold queued_beforeb in H. rewrite Hj in H. unfold int64_range. reflect_bools. lia.
Qed.

(** Six days old, an alert is still delivered after a purge. *)
Definition aged : list FrameRow :=
  run_ops sample_length sample_limits [OpEnqueue old_tamper_frame (now0 - 6 * 24 * Hour); OpEnqueue log_frame now0] [].
Lemma claim_after_purge_witness : is_ok (Claim "token-1" now0 Minute (PurgeExpired sample_limits now0 aged).2).1 = true.
Proof.
  rewrite (claim_after_purge sample_length sample_limits sample_length_pos sample_limits_ok "token-1" now0 Minute aged
    (sample_queue_ok _) ltac:(done)).
  - vm_compute. reflexivity.
  - apply forallb_queued_before. vm_compute. reflexivity.
  - vm_compute. split; congruence.
Defined.

Lemma migrate_preserves_witness :
  migrate (FileV1 [{| v1_message_id := "m1"; v1_json := Some tamper_frame; v1_size := 500; v1_created_at := 7 |};
                   {| v1_message_id := "m2"; v1_json := None; v1_size := 9; v1_created_at := 8 |}]) =
  Ok [{| frame_message_id := "m1"; frame_json := Some tamper_frame; frame_size := 500; frame_created_at := 7;
         frame_priority := 300; frame_delivery_token := None; frame_lease_until := None; frame_attempt_count := 0 |};
      {| frame_message_id := "m2"; frame_json := None; frame_size := 9; frame_created_at := 8;
         frame_priority := 100; frame_delivery_token := None; frame_lease_until := None; frame_attempt_count := 0 |}].
Proof.
  refine (proj1 (migrate_preserves _ _)). apply NoDup_cons; split; [by intros ?%list_elem_of_singleton|apply NoDup_singleton].
Defined.

Definition noon : Time := 1772366400 * Second.

(** * Routes *)

Definition relay_route (id endpoint : string) (priority : Z) : ApprovedRoute :=
  {| Route_ID := id; Route_Kind := RouteRelay; Route_RelayEndpointID := endpoint; Route_Priority := priority |}.
Definition direct_route : ApprovedRoute :=
  {| Route_ID := "direct"; Route_Kind := RouteDirect; Route_RelayEndpointID := ""; Route_Priority := 9 |}.
(** Listed out of priority order. *)
Definition sample_policy : FailoverPolicy :=
  {| Policy_EndpointID := "endpoint-1"; Policy_Routes := [direct_route; relay_route "east" "relay-e" 2; relay_route "west" "relay-w" 1];
     Policy_FailureThreshold := 3; Policy_ObservationMaxAge := Minute |}.
Definition seen_healthy (id : string) : RouteAvailability :=
  {| Availability_RouteID := id; Availability_Healthy := true; Availability_ObservedAt := noon |}.

Definition sample_controller : FailoverController :=
  match NewFailoverController sample_policy with Ok c => c | Err _ => {| policy := sample_policy; activeRouteID := ""; consecutiveFailures := 0 |} end.
Lemma sample_controller_new : NewFailoverController sample_policy = Ok sample_controller.
Proof. vm_compute. reflexivity. Qed.
(** After a first selection, on the route of the lowest priority number. *)
Definition on_west : FailoverController := (Select [seen_healthy "east"; seen_healthy "west"] noon sample_controller).2.
Lemma on_west_ok : controller_ok on_west.
Proof. apply (run_controller_ok (OpSelect _ _)), (new_controller_ok sample_policy), sample_controller_new. Qed.

Example first_selection : activeRouteID on_west = "west"%string.
Proof. vm_compute. reflexivity. Qed.
(** A route reported twice is not available. *)
Example reported_twice : activeRouteID (Select [seen_healthy "west"; seen_healthy "east"; seen_healthy "west"] noon sample_controller).2 = "east"%string.
Proof. vm_compute. reflexivity. Qed.

Lemma controller_invariant_witness :
  controller_ok (run_controllers [OpSelect [seen_healthy "east"] noon; OpRecordDelivery "east" false;
                                  OpSelectApprovedRoute "direct" [seen_healthy "direct"] noon] sample_controller).
Proof. apply (controller_invariant sample_policy), sample_controller_new. Defined.

Lemma select_route_witness :
  match Select [seen_healthy "direct"; seen_healthy "east"] noon on_west with
  | (Ok d, c') => Decision_PreviousRouteID d = "west"%string /\ Decision_Route d ∈ Policy_Routes (policy on_west)
  | (Err _, _) => False
  end.
Proof.
  pose proof (select_route on_west [seen_healthy "direct"; seen_healthy "east"] noon on_west_ok) as H.
  destruct (Select _ noon on_west) as [[d|e] c'] eqn:E.
  - destruct H as (Hr & _ & Hp & _). split; [rewrite Hp; vm_compute; reflexivity|exact Hr].
  - assert (is_ok (Select [seen_healthy "direct"; seen_healthy "east"] noon on_west).1 = true) as Hok by (vm_compute; reflexivity).
    rewrite E in Hok. discriminate Hok.
Defined.

Lemma failover_after_threshold_witness :
  ~ (exists d, Select [seen_healthy "west"] noon (fail_deliveries 3 on_west) = (Ok d, fail_deliveries 3 on_west) /\
               Route_ID (Decision_Route d) = activeRouteID on_west).
Proof.
  assert (Hh : activeRouteID on_west ∈
               availableRouteIDs [seen_healthy "west"] (Policy_ObservationMaxAge (policy on_west)) noon)
    by (refine (bool_decide_eq_true_1 _ _); vm_compute; reflexivity).
  intros Hs. apply (failover_after_threshold on_west 3 [seen_healthy "west"] noon on_west_ok ltac:(done) Hh) in Hs.
  vm_compute in Hs. discriminate Hs.
Defined.

(** * Telemetry *)

Definition sample_history : list monitor_event :=
  [EvEnqueue (Ok tt); EvEnqueue (Err ErrQueueDuplicate); EvEnqueue (Ok tt); EvAcknowledgement (Ok tt) noon; EvExpired (-4);
   EvDropped 0].
Definition sample_stats : QueueStats :=
  {| Stats_Items := 9; Stats_Bytes := 100; Stats_RoutineItems := 9; Stats_ElevatedItems := 0; Stats_CriticalItems := 0;
     Stats_LeasedItems := 1; Stats_OldestFrame := noon - 90 * Second |}.
Definition ten_items : QueueLimits := {| MaxItems := 10; MaxBytes := 4096; MaxAge := 30 * 24 * Hour |}.

Lemma sample_history_ok : Forall event_ok sample_history.
Proof. repeat (apply Forall_cons; split); try apply Forall_nil; try exact I; split; vm_compute; congruence. Qed.

Lemma monitor_counts_history_witness : AcceptedFrames (counters (run_events sample_history new_monitor)) = 2.
Proof. rewrite (monitor_counts_history sample_history sample_history_ok). vm_compute. reflexivity. Defined.

Definition sample_report : result TelemetryReport := (Report "relay-e" sample_stats ten_items noon (run_events sample_history new_monitor)).1.
Definition after_report : TelemetryMonitor := (Report "relay-e" sample_stats ten_items noon (run_events sample_history new_monitor)).2.

(** Nine of ten items queued. *)
Lemma report_health_witness : exists report, sample_report = Ok report /\ Report_Health report = HealthDegraded.
Proof.
  destruct sample_report as [report|e] eqn:E; [|vm_compute in E; discriminate E].
  exists report. split; [reflexivity|].
  assert (Hr : Report "relay-e" sample_stats ten_items noon (run_events sample_history new_monitor) = (Ok report, after_report))
    by (rewrite <- E; apply surjective_pairing).
  apply (report_health sample_history "relay-e" sample_stats ten_items noon report after_report sample_history_ok);
    [vm_compute; reflexivity|vm_compute; congruence|vm_compute; congruence|exact Hr|].
  split; [vm_compute; congruence|]. right; right; right; left. vm_compute. congruence.
Defined.

(** A signature scheme for the laws: the signature is the digest with the key. *)
#[local] Instance toy_ecdsa : TelemetryCrypto := {|
  ECDSAPrivate := string; ECDSAPublic := string; ecdsa_public := fun k => k;
  report_json := fun r => Some (Report_RelayID r); Sum256 := fun s => s;
  SignASN1 := fun random k digest => (k ++ digest)%string;
  VerifyASN1 := fun k digest signature => bool_decide (signature = (k ++ digest)%string) |}.
#[local] Instance toy_ecdsa_laws : TelemetryCryptoLaws.
Proof. split. intros random key digest. simpl. by apply bool_decide_eq_true. Qed.

Lemma signed_report_verifies_witness : exists report signed,
  sample_report = Ok report /\ SignTelemetry "" report (Some "key"%string) = Ok signed /\
  VerifyTelemetry signed (Some "key"%string) (noon + Hour) = Ok tt.
Proof.
  destruct sample_report as [report|e] eqn:E; [|vm_compute in E; discriminate E].
  assert (Hr : Report "relay-e" sample_stats ten_items noon (run_events sample_history new_monitor) = (Ok report, after_report))
    by (rewrite <- E; apply surjective_pairing).
  exists report. eexists. split; [reflexivity|]. split; [reflexivity|].
  apply (@signed_report_verifies toy_ecdsa toy_ecdsa_laws sample_history "relay-e" sample_stats ten_items noon (noon + Hour) ""
    "key"%string report after_report); [vm_compute; reflexivity|exact Hr|reflexivity|vm_compute; split; congruence].
Defined.
