(* ===== verification/UserStore.v ===== *)
(** User accounts in the SQLite store: users, sessions, second factors,
    invitations, login attempts, authentication ceremonies, identity providers
    and the audit log (internal/model/identity.go and internal/store/identity.go,
    users.go, auth_policy.go, ceremony.go, oidc.go, webauthn.go, with the
    constraints of identity_schema.go and the later migrations). A transaction
    that fails leaves the tables as they were. Columns that statements compare
    hold text; the other timestamps and the encoded columns hold what the code
    reads back from them. *)
From Stdlib Require Import ZArith Lia String Ascii.
From stdpp Require Import base tactics list strings gmap sets.
From coqutil Require Import Datatypes.RecordSettersUsingExistingGetters.
From S2P Require Import Prelude GoStrings GoTime WorkerModel Sql EndpointModel.
Open Scope string_scope.
Open Scope Z_scope.

Definition ErrIdentityNotFound : error := "identity not found".
Definition ErrAlreadyInitialized : error := "Mossward has already been initialized".
Definition ErrFinalAdministrator : error := "cannot remove the final active local administrator".
Definition ErrCeremonyNotFound : error := "authentication ceremony not found".
Definition ErrProviderState : error := "OIDC provider must be tested before it can be enabled".
(** A violated constraint. *)
Definition ErrUserConstraint : error := "constraint failed".

(** * Data *)

Definition UserRole := string.
Definition RoleAdministrator : UserRole := "administrator".
Definition RoleAnalyst : UserRole := "analyst".
Definition RoleViewer : UserRole := "viewer".

Definition UserStatus := string.
Definition UserInvited : UserStatus := "invited".
Definition UserActive : UserStatus := "active".
Definition UserDisabled : UserStatus := "disabled".

Definition IdentityKind := string.
Definition IdentityLocal : IdentityKind := "local".
Definition IdentitySSO : IdentityKind := "sso".

Definition ProvisioningMode := string.
Definition ProvisionInviteOnly : ProvisioningMode := "invite_only".
Definition ProvisionJIT : ProvisioningMode := "jit".

Record User := mkUser {
  User_ID : string; User_Email : string; User_DisplayName : string; User_Role : UserRole; User_Status : UserStatus;
  User_MFARequired : bool; User_CreatedAt : Time; User_UpdatedAt : Time; User_LastLoginAt : option Time }.
Record LocalIdentity := mkLocalIdentity { Identity_User : User; Identity_PasswordHash : string }.

Record Invitation := mkInvitation {
  Invitation_ID : string; Invitation_Email : string; Invitation_Role : UserRole; Invitation_Kind : IdentityKind;
  Invitation_InvitedBy : string; Invitation_ExpiresAt : Time; Invitation_CreatedAt : Time; Invitation_TokenHash : string }.

Record Session := mkSession {
  Session_PublicID : string; Session_IDHash : string; Session_UserID : string; Session_CreatedAt : Time; Session_ExpiresAt : Time;
  Session_LastSeenAt : Time; Session_MFAVerifiedAt : option Time; Session_SourceIP : string; Session_UserAgentHash : string }.

Record BootstrapMFA := mkBootstrapMFA { MFA_TOTPSecretCiphertext : string; MFA_RecoveryCodeHashes : list string }.

Record WebAuthnCredential := mkWebAuthnCredential {
  WebAuthn_ID : string; WebAuthn_UserID : string; WebAuthn_Name : string; WebAuthn_Ciphertext : string; WebAuthn_CreatedAt : Time;
  WebAuthn_LastUsedAt : option Time; WebAuthn_SignCount : Z; WebAuthn_BackupEligible : bool; WebAuthn_BackupState : bool }.

Definition AuthenticationCeremonyKind := string.
Definition CeremonyWebAuthnRegister : AuthenticationCeremonyKind := "webauthn_register".
Definition CeremonyWebAuthnLogin : AuthenticationCeremonyKind := "webauthn_login".
Definition CeremonyOIDC : AuthenticationCeremonyKind := "oidc".

Record AuthenticationCeremony := mkCeremony {
  Ceremony_IDHash : string; Ceremony_UserID : string; Ceremony_Kind : AuthenticationCeremonyKind; Ceremony_StateCiphertext : string;
  Ceremony_ExpiresAt : Time; Ceremony_CreatedAt : Time }.

Record OIDCClaims := mkOIDCClaims {
  Claims_UserID : string; Claims_Subject : string; Claims_Email : string; Claims_Name : string; Claims_TenantID : string;
  Claims_Groups : list string }.

Record OIDCProvider := mkOIDCProvider {
  Provider_ID : string; Provider_Name : string; Provider_IssuerURL : string; Provider_ClientID : string; Provider_Mode : ProvisioningMode;
  Provider_AllowedTenantID : string; Provider_AllowedEmailDomains : list string; Provider_AllowedGroups : list string;
  Provider_DefaultRole : UserRole; Provider_Enabled : bool; Provider_RedirectURL : string; Provider_RoleMappings : gmap string UserRole;
  Provider_TestedAt : option Time; Provider_CreatedAt : Time; Provider_UpdatedAt : Time }.
Record OIDCProviderRecord := mkProviderRecord { Record_Provider : OIDCProvider; Record_ClientSecretCiphertext : string }.

Definition AuditSeverity := string.
Definition AuditInfo : AuditSeverity := "info".
Definition AuditWarning : AuditSeverity := "warning".
Definition AuditError : AuditSeverity := "error".

(** The fields of the JSON object in [Details], before it is encoded. *)
Inductive detail := DString (s : string) | DInt (n : Z) | DBool (b : bool) | DFlags (flags : gmap string bool).

Record AuditEvent := mkAuditEvent {
  Audit_OccurredAt : Time; Audit_ActorID : string; Audit_Action : string; Audit_Severity : AuditSeverity; Audit_TargetType : string;
  Audit_TargetID : string; Audit_SourceIP : string; Audit_Details : list (string * detail) }.

Record AuthenticationPolicy := mkAuthenticationPolicy {
  Policy_SessionLifetimeMinutes : Z; Policy_AuditRetentionDays : Z; Policy_MFARequired : gmap UserRole bool }.

(** * Tables *)

Record SessionRow := mkSessionRow {
  se_hash : string; se_public : string; se_user : string; se_created : string; se_expires : string; se_last_seen : Time;
  se_mfa : option Time; se_ip : string; se_agent_hash : string }.
Record TotpRow := mkTotpRow { tc_user : string; tc_secret : string; tc_counter : Z }.
Record CodeRow := mkCodeRow { rc_user : string; rc_hash : string; rc_used_at : option string }.
Record InvitationRow := mkInvitationRow { in_invitation : Invitation; in_expires : string; in_accepted : option string }.
Record AttemptRow := mkAttemptRow { la_key : string; la_failures : Z; la_started : Time; la_blocked_until : option Time }.
Record ExternalRow := mkExternalRow {
  ex_provider : string; ex_subject : string; ex_user : string; ex_tenant : string; ex_email : string; ex_last_login : option Time }.
Record AuditRow := mkAuditRow { au_event : AuditEvent; au_occurred : string }.

Record UserDb := mkUserDb {
  ub_users : list LocalIdentity; ub_sessions : list SessionRow; ub_totp : list TotpRow; ub_codes : list CodeRow;
  ub_invitations : list InvitationRow; ub_attempts : list AttemptRow; ub_ceremonies : list AuthenticationCeremony;
  ub_credentials : list WebAuthnCredential; ub_providers : list OIDCProviderRecord; ub_externals : list ExternalRow;
  ub_audit : list AuditRow; ub_policy : option AuthenticationPolicy; ub_smtp_password : option string }.

Definition emptyUserDb : UserDb := mkUserDb [] [] [] [] [] [] [] [] [] [] [] None None.

(** A transaction: its writes are kept when it commits. *)
Definition user_tx {A} (f : UserDb -> result (A * UserDb)) : st UserDb A := fun s =>
  match f s with Ok (a, s') => (Ok a, s') | Err e => (Err e, s) end.

Definition user_id (r : LocalIdentity) : string := User_ID (Identity_User r).
Definition user_is (id : string) (r : LocalIdentity) : bool := bool_decide (user_id r = id).
(** [COLLATE NOCASE] folds the ASCII letters. *)
Fixpoint nocase (s : string) : string := match s with EmptyString => "" | String a s' => String (lower_byte a) (nocase s') end.
Definition nocase_eq (a b : string) : bool := bool_decide (nocase a = nocase b).
Definition email_is (email : string) (r : LocalIdentity) : bool := nocase_eq (User_Email (Identity_User r)) email.
Definition user_exists (id : string) (s : UserDb) : bool := existsb (user_is id) (ub_users s).

Definition set_user (f : User -> User) (r : LocalIdentity) : LocalIdentity := mkLocalIdentity (f (Identity_User r)) (Identity_PasswordHash r).

(** [insertAuditEvent]: the actor is a user or NULL. *)
Definition insertAuditEvent (event : AuditEvent) (s : UserDb) : result UserDb :=
  reject negb (bool_decide (Audit_ActorID event = "")) && negb (user_exists (Audit_ActorID event) s) as ErrUserConstraint ;;
  reject negb (one_of (Audit_Severity event) [AuditInfo; AuditWarning; AuditError]) as ErrUserConstraint ;;
  Ok (s <| ub_audit ::= fun l => (l ++ [mkAuditRow event (formatTime (Audit_OccurredAt event))])%list |>).

Definition valid_user_row (u : User) : bool :=
  one_of (User_Role u) [RoleAdministrator; RoleAnalyst; RoleViewer] && one_of (User_Status u) [UserInvited; UserActive; UserDisabled].

(** [INSERT INTO users] *)
Definition insert_user (row : LocalIdentity) (s : UserDb) : result UserDb :=
  let u := Identity_User row in
  reject existsb (fun r => user_is (User_ID u) r || email_is (User_Email u) r) (ub_users s) || negb (valid_user_row u) as ErrUserConstraint ;;
  Ok (s <| ub_users ::= fun l => (l ++ [row])%list |>).

(** [INSERT INTO totp_credentials]; the counter starts at -1. *)
Definition insert_totp (userID secret : string) (s : UserDb) : result UserDb :=
  reject existsb (fun r => bool_decide (tc_user r = userID)) (ub_totp s) || negb (user_exists userID s) as ErrUserConstraint ;;
  Ok (s <| ub_totp ::= fun l => (l ++ [mkTotpRow userID secret (-1)])%list |>).

(** [INSERT INTO recovery_codes], one statement for each hash. *)
Definition insert_code (userID : string) (s : UserDb) (hash : string) : result UserDb :=
  reject existsb (fun r => bool_decide (rc_user r = userID /\ rc_hash r = hash)) (ub_codes s) || negb (user_exists userID s) as ErrUserConstraint ;;
  Ok (s <| ub_codes ::= fun l => (l ++ [mkCodeRow userID hash None])%list |>).

Fixpoint insert_codes (userID : string) (hashes : list string) (s : UserDb) : result UserDb :=
  match hashes with
  | [] => Ok s
  | hash :: rest => insert_code userID s hash ≫= insert_codes userID rest
  end.

Section Store.
Context {LC : LowerCase}.

Definition normalizeEmail (email : string) : string := ToLowerText (TrimSpace email).

(** * identity.go: bootstrap and lookups *)

Definition IdentityInitialized (s : UserDb) : bool := 0 <? Z.of_nat (length (ub_users s)).

Definition BootstrapAdministrator (user : User) (passwordHash : string) (mfa : BootstrapMFA) (event : AuditEvent) : st UserDb unit :=
  user_tx (fun s =>
    reject negb (Z.of_nat (length (ub_users s)) =? 0) as ErrAlreadyInitialized ;;
    s ← insert_user (mkLocalIdentity (mkUser (User_ID user) (normalizeEmail (User_Email user)) (User_DisplayName user) (User_Role user)
          (User_Status user) (User_MFARequired user) (User_CreatedAt user) (User_UpdatedAt user) None) passwordHash) s ;
    s ← insert_totp (User_ID user) (MFA_TOTPSecretCiphertext mfa) s ;
    s ← insert_codes (User_ID user) (MFA_RecoveryCodeHashes mfa) s ;
    s ← insertAuditEvent event s ;
    Ok (tt, s)).

Definition local_identity (p : LocalIdentity -> bool) (s : UserDb) : result LocalIdentity :=
  match query_row p (ub_users s) with Some identity => Ok identity | None => Err ErrIdentityNotFound end.
Definition LocalIdentityByEmail (email : string) : UserDb -> result LocalIdentity := local_identity (email_is (normalizeEmail email)).
Definition LocalIdentityByID (userID : string) : UserDb -> result LocalIdentity := local_identity (user_is userID).

(** * identity.go: sessions *)

Definition sessionTouchInterval : Duration := 5 * Minute.

Definition session_is (hash : string) (r : SessionRow) : bool := bool_decide (se_hash r = hash).

Definition CreateSession (session : Session) (event : AuditEvent) : st UserDb unit :=
  user_tx (fun s =>
    reject existsb (fun r => session_is (Session_IDHash session) r || bool_decide (se_public r = Session_PublicID session)) (ub_sessions s)
           || negb (user_exists (Session_UserID session) s) as ErrUserConstraint ;;
    let row := mkSessionRow (Session_IDHash session) (Session_PublicID session) (Session_UserID session) (formatTime (Session_CreatedAt session))
                 (formatTime (Session_ExpiresAt session)) (Session_LastSeenAt session) (Session_MFAVerifiedAt session)
                 (Session_SourceIP session) (Session_UserAgentHash session) in
    let s := s <| ub_sessions ::= fun l => (l ++ [row])%list |>
               <| ub_users ::= update_where (user_is (Session_UserID session)) (set_user (fun u =>
                    u <| User_LastLoginAt := Some (Session_CreatedAt session) |> <| User_UpdatedAt := Session_CreatedAt session |>)) |> in
    s ← insertAuditEvent event s ;
    Ok (tt, s)).

(** [s.id_hash=? AND s.expires_at>?], with [user_id] where the statement names it. *)
Definition live_session (hash now : string) (r : SessionRow) : bool := session_is hash r && str_ltb now (se_expires r).

Definition SessionMFAVerifiedAt (idHash userID : string) (now : Time) (s : UserDb) : result (option Time) :=
  match query_row (fun r => live_session idHash (formatTime now) r && bool_decide (se_user r = userID)) (ub_sessions s) with
  | Some r => Ok (se_mfa r)
  | None => Err ErrIdentityNotFound
  end.

Definition UpdateSessionMFAVerifiedAt (idHash userID : string) (verifiedAt : Time) : st UserDb unit := fun s =>
  let target r := session_is idHash r && bool_decide (se_user r = userID) in
  if affected target (ub_sessions s) =? 0 then (Err ErrIdentityNotFound, s)
  else (Ok tt, s <| ub_sessions ::= update_where target (fun r => r <| se_mfa := Some verifiedAt |>) |>).

(** The row of the join of sessions and users. *)
Definition session_user_row (hash now : string) (s : UserDb) : option (SessionRow * LocalIdentity) :=
  match query_row (fun r => live_session hash now r &&
      existsb (fun u => user_is (se_user r) u && bool_decide (User_Status (Identity_User u) = UserActive)) (ub_users s)) (ub_sessions s) with
  | Some r => match query_row (user_is (se_user r)) (ub_users s) with Some u => Some (r, u) | None => None end
  | None => None
  end.

Definition SessionUser (idHash : string) (now : Time) : st UserDb User := fun s =>
  match session_user_row idHash (formatTime now) s with
  | None => (Err ErrIdentityNotFound, s)
  | Some (r, u) =>
      (Ok (Identity_User u),
       if sessionTouchInterval <=? Sub now (se_last_seen r)
       then s <| ub_sessions ::= update_where (session_is idHash) (fun r => r <| se_last_seen := now |>) |>
       else s)
  end.

Record SessionInfo := mkSessionInfo {
  Info_ID : string; Info_CreatedAt : string; Info_ExpiresAt : string; Info_LastSeenAt : Time; Info_MFAVerifiedAt : option Time;
  Info_SourceIP : string; Info_Current : bool }.

(** [ORDER BY created_at DESC]; the two times as the columns hold them. *)
Definition ListUserSessions (userID currentHash : string) (now : Time) (s : UserDb) : list SessionInfo :=
  (fun r => mkSessionInfo (se_public r) (se_created r) (se_expires r) (se_last_seen r) (se_mfa r) (se_ip r) (bool_decide (se_hash r = currentHash)))
  <$> sort_slice (fun a b => str_ltb (se_created b) (se_created a))
        (select_where (fun r => bool_decide (se_user r = userID) && str_ltb (formatTime now) (se_expires r)) (ub_sessions s)).

(** [DELETE FROM sessions WHERE p] and the audit event. *)
Definition revokeSessions (p : SessionRow -> bool) (event : AuditEvent) : st UserDb unit :=
  user_tx (fun s =>
    s ← insertAuditEvent event (s <| ub_sessions ::= select_where (fun r => negb (p r)) |>) ;
    Ok (tt, s)).
Definition RevokeUserSession (userID publicID : string) : AuditEvent -> st UserDb unit :=
  revokeSessions (fun r => bool_decide (se_user r = userID) && bool_decide (se_public r = publicID)).
Definition RevokeOtherUserSessions (userID currentHash : string) : AuditEvent -> st UserDb unit :=
  revokeSessions (fun r => bool_decide (se_user r = userID) && negb (session_is currentHash r)).
Definition DeleteSession (idHash : string) : AuditEvent -> st UserDb unit := revokeSessions (session_is idHash).

Definition AppendAuditEvent (event : AuditEvent) : st UserDb unit :=
  user_tx (fun s => s ← insertAuditEvent event s ; Ok (tt, s)).

(** * identity.go: login throttle *)

Definition attempt_is (key : string) (r : AttemptRow) : bool := bool_decide (la_key r = key).

(** What [QueryRow(...).Scan] ends with: a row, no row, or a failure. *)
Inductive scan_outcome (A : Type) := Scanned (row : A) | NoRows | ScanFailed (e : error).
Arguments Scanned {A} row.
Arguments NoRows {A}.
Arguments ScanFailed {A} e.

(** After the query: [errors.Is(err, sql.ErrNoRows) || !blocked.Valid] is
    looked at before [err != nil], and a failed scan leaves [blocked] invalid. *)
Definition throttle_of (outcome : scan_outcome (option Time)) (now : Time) : result (Time * bool) :=
  let blocked := match outcome with Scanned value => value | NoRows | ScanFailed _ => None end in
  match outcome, blocked with
  | NoRows, _ | _, None => Ok (ZeroTime, false)
  | ScanFailed e, Some _ => Err e
  | Scanned _, Some until => Ok (until, Before now until)
  end.

Definition LoginThrottle (keyHash : string) (now : Time) (s : UserDb) : result (Time * bool) :=
  throttle_of (match query_row (attempt_is keyHash) (ub_attempts s) with Some r => Scanned (la_blocked_until r) | None => NoRows end) now.

(** The failures of the window and where it starts, after one more. *)
Definition counted_failures (r : option AttemptRow) (now : Time) (window : Duration) : Z * Time :=
  match r with
  | Some r => if Sub now (la_started r) <=? window then (wrap64 (la_failures r + 1), la_started r) else (1, now)
  | None => (1, now)
  end.

Definition block_until (failures : Z) (now : Time) (threshold : Z) (baseBlock maxBlock : Duration) : option Time :=
  if threshold <=? failures
  then let block := wrap64 (wrap64 (wrap64 (failures - threshold) + 1) * baseBlock) in
       Some (Add now (if maxBlock <? block then maxBlock else block))
  else None.

(** [INSERT ... ON CONFLICT(key_hash) DO UPDATE] *)
Definition upsert_attempt (row : AttemptRow) (l : list AttemptRow) : list AttemptRow :=
  match query_row (attempt_is (la_key row)) l with
  | Some _ => update_where (attempt_is (la_key row)) (fun _ => row) l
  | None => (l ++ [row])%list
  end.

Definition RecordLoginFailure (keyHash : string) (now : Time) (window : Duration) (threshold : Z) (baseBlock maxBlock : Duration) : st UserDb Time := fun s =>
  let '(failures, windowStart) := counted_failures (query_row (attempt_is keyHash) (ub_attempts s)) now window in
  let blockedUntil := block_until failures now threshold baseBlock maxBlock in
  (Ok (default ZeroTime blockedUntil), s <| ub_attempts ::= upsert_attempt (mkAttemptRow keyHash failures windowStart blockedUntil) |>).

Fixpoint ClearLoginFailures (keyHashes : list string) (s : UserDb) : UserDb :=
  match keyHashes with
  | [] => s
  | keyHash :: rest => ClearLoginFailures rest (s <| ub_attempts ::= select_where (fun r => negb (attempt_is keyHash r)) |>)
  end.

(** * identity.go: second factors *)

Definition totp_is (userID : string) (r : TotpRow) : bool := bool_decide (tc_user r = userID).

Definition TOTPSecret (userID : string) (s : UserDb) : result (string * Z) :=
  match query_row (totp_is userID) (ub_totp s) with
  | Some r => Ok (tc_secret r, tc_counter r)
  | None => Err ErrIdentityNotFound
  end.

Definition ConsumeTOTPCounter (userID : string) (counter : Z) : st UserDb bool := fun s =>
  let target r := totp_is userID r && (tc_counter r <? counter) in
  (Ok (affected target (ub_totp s) =? 1), s <| ub_totp ::= update_where target (fun r => r <| tc_counter := counter |>) |>).

Definition unused_code (userID codeHash : string) (r : CodeRow) : bool :=
  bool_decide (rc_user r = userID) && bool_decide (rc_hash r = codeHash) && bool_decide (rc_used_at r = None).

Definition ConsumeRecoveryCode (userID codeHash : string) (usedAt : Time) (event : AuditEvent) : st UserDb bool :=
  user_tx (fun s =>
    let target := unused_code userID codeHash in
    if negb (affected target (ub_codes s) =? 1) then Ok (false, s)
    else
      s ← insertAuditEvent event (s <| ub_codes ::= update_where target (fun r => r <| rc_used_at := Some (formatTime usedAt) |>) |>) ;
      Ok (true, s)).

(** * users.go *)

(** [ORDER BY email], whose collation is NOCASE. *)
Definition ListUsers (s : UserDb) : list User :=
  Identity_User <$> sort_slice (fun a b => str_ltb (nocase (User_Email (Identity_User a))) (nocase (User_Email (Identity_User b)))) (ub_users s).

(** [role='administrator' AND status='active' AND password_hash<>''] *)
Definition local_administrator (r : LocalIdentity) : bool :=
  bool_decide (User_Role (Identity_User r) = RoleAdministrator) && bool_decide (User_Status (Identity_User r) = UserActive) &&
  negb (bool_decide (Identity_PasswordHash r = "")).

Definition UpdateUserAccess (userID : string) (role : UserRole) (status : UserStatus) (now : Time) (event : AuditEvent) : st UserDb unit :=
  user_tx (fun s =>
    match query_row (user_is userID) (ub_users s) with
    | None => Err ErrIdentityNotFound
    | Some current =>
        let removesLocalAdmin := local_administrator current && (negb (bool_decide (role = RoleAdministrator)) || negb (bool_decide (status = UserActive))) in
        reject removesLocalAdmin && (affected local_administrator (ub_users s) <=? 1) as ErrFinalAdministrator ;;
        reject negb (valid_user_row ((Identity_User current) <| User_Role := role |> <| User_Status := status |>)) as ErrUserConstraint ;;
        s ← insertAuditEvent event
              (s <| ub_users ::= update_where (user_is userID) (set_user (fun u =>
                      u <| User_Role := role |> <| User_Status := status |> <| User_UpdatedAt := now |>)) |>
                 <| ub_sessions ::= select_where (fun r => negb (bool_decide (se_user r = userID))) |>) ;
        Ok (tt, s)
    end).

Definition invitation_id (r : InvitationRow) : string := Invitation_ID (in_invitation r).
Definition invitation_hash (r : InvitationRow) : string := Invitation_TokenHash (in_invitation r).

Definition CreateInvitation (invitation : Invitation) (event : AuditEvent) : st UserDb unit :=
  user_tx (fun s =>
    reject existsb (fun r => bool_decide (invitation_id r = Invitation_ID invitation) ||
                             bool_decide (invitation_hash r = Invitation_TokenHash invitation)) (ub_invitations s)
           || negb (user_exists (Invitation_InvitedBy invitation) s)
           || negb (one_of (Invitation_Kind invitation) [IdentityLocal; IdentitySSO]) as ErrUserConstraint ;;
    let row := mkInvitationRow (mkInvitation (Invitation_ID invitation) (normalizeEmail (Invitation_Email invitation)) (Invitation_Role invitation)
                 (Invitation_Kind invitation) (Invitation_InvitedBy invitation) (Invitation_ExpiresAt invitation) (Invitation_CreatedAt invitation)
                 (Invitation_TokenHash invitation)) (formatTime (Invitation_ExpiresAt invitation)) None in
    s ← insertAuditEvent event (s <| ub_invitations ::= fun l => (l ++ [row])%list |>) ;
    Ok (tt, s)).

(** [accepted_at IS NULL AND expires_at>?] *)
Definition open_invitation (now : string) (r : InvitationRow) : bool := bool_decide (in_accepted r = None) && str_ltb now (in_expires r).

Definition ListInvitations (now : Time) (s : UserDb) : list Invitation :=
  in_invitation <$> sort_slice (fun a b => str_ltb (formatTime (Invitation_CreatedAt (in_invitation b))) (formatTime (Invitation_CreatedAt (in_invitation a))))
    (select_where (open_invitation (formatTime now)) (ub_invitations s)).

Definition InvitationByTokenHash (tokenHash : string) (now : Time) (s : UserDb) : result Invitation :=
  match query_row (fun r => bool_decide (invitation_hash r = tokenHash) && open_invitation (formatTime now) r) (ub_invitations s) with
  | Some r => Ok (in_invitation r)
  | None => Err ErrIdentityNotFound
  end.

Definition accept_invitation (p : InvitationRow -> bool) (now : string) (s : UserDb) : UserDb :=
  s <| ub_invitations ::= update_where p (fun r => r <| in_accepted := Some now |>) |>.

Definition AcceptLocalInvitation (invitation : Invitation) (user : User) (passwordHash : string) (mfa : BootstrapMFA) (now : Time) (event : AuditEvent) : st UserDb unit :=
  user_tx (fun s =>
    let target r := bool_decide (invitation_id r = Invitation_ID invitation) && bool_decide (invitation_hash r = Invitation_TokenHash invitation) &&
                    open_invitation (formatTime now) r in
    reject negb (affected target (ub_invitations s) =? 1) as ErrIdentityNotFound ;;
    let s := accept_invitation target (formatTime now) s in
    s ← insert_user (mkLocalIdentity (mkUser (User_ID user) (normalizeEmail (User_Email user)) (User_DisplayName user) (User_Role user)
          UserActive true now now None) passwordHash) s ;
    s ← insert_totp (User_ID user) (MFA_TOTPSecretCiphertext mfa) s ;
    s ← insert_codes (User_ID user) (MFA_RecoveryCodeHashes mfa) s ;
    s ← insertAuditEvent event s ;
    Ok (tt, s)).

(** * auth_policy.go *)

Definition defaultAuthenticationPolicy : AuthenticationPolicy :=
  mkAuthenticationPolicy 720 365 {[ RoleAdministrator := true; RoleAnalyst := true; RoleViewer := true ]}.

Definition AuthenticationPolicy_ (s : UserDb) : AuthenticationPolicy := default defaultAuthenticationPolicy (ub_policy s).

(** [now.AddDate(0, 0, -days)] of a time in UTC. *)
Definition audit_cutoff (days : Z) (now : Time) : Time := Add now (- (days * 24 * Hour)).

Definition SaveAuthenticationPolicy (policy : AuthenticationPolicy) (now : Time) (event : AuditEvent) : st UserDb unit :=
  user_tx (fun s =>
    let cutoff := audit_cutoff (Policy_AuditRetentionDays policy) now in
    s ← insertAuditEvent event
          (s <| ub_policy := Some policy |>
             <| ub_audit ::= select_where (fun r => negb (str_ltb (au_occurred r) (formatTime cutoff))) |>) ;
    Ok (tt, s)).

(** The text [LIKE] finds in the action, the target or the encoded details; the
    matching of SQLite is an argument. *)
Definition ListAuditEvents (like : string -> AuditEvent -> bool) (text : string) (severity : AuditSeverity) (limit : Z) (s : UserDb) : list AuditEvent :=
  let p r := (bool_decide (text = "") || like text (au_event r)) && (bool_decide (severity = "") || bool_decide (Audit_Severity (au_event r) = severity)) in
  au_event <$> take (Z.to_nat limit) (sort_slice (fun a b => str_ltb (au_occurred b) (au_occurred a)) (select_where p (ub_audit s))).

(** * ceremony.go *)

Definition ceremony_is (idHash : string) (c : AuthenticationCeremony) : bool := bool_decide (Ceremony_IDHash c = idHash).

Definition CreateAuthenticationCeremony (ceremony : AuthenticationCeremony) : st UserDb unit := fun s =>
  if existsb (ceremony_is (Ceremony_IDHash ceremony)) (ub_ceremonies s) ||
     negb (bool_decide (Ceremony_UserID ceremony = "")) && negb (user_exists (Ceremony_UserID ceremony) s) ||
     negb (one_of (Ceremony_Kind ceremony) [CeremonyWebAuthnRegister; CeremonyWebAuthnLogin; CeremonyOIDC])
  then (Err ErrUserConstraint, s)
  else (Ok tt, s <| ub_ceremonies ::= fun l => (l ++ [ceremony])%list |>).

Definition ConsumeAuthenticationCeremony (idHash : string) (kind : AuthenticationCeremonyKind) : st UserDb AuthenticationCeremony :=
  user_tx (fun s =>
    match query_row (fun c => ceremony_is idHash c && bool_decide (Ceremony_Kind c = kind)) (ub_ceremonies s) with
    | None => Err ErrCeremonyNotFound
    | Some ceremony => Ok (ceremony, s <| ub_ceremonies ::= select_where (fun c => negb (ceremony_is idHash c)) |>)
    end).

(** * webauthn.go *)

Definition credential_of (userID id : string) (c : WebAuthnCredential) : bool :=
  bool_decide (WebAuthn_UserID c = userID) && bool_decide (WebAuthn_ID c = id).

Definition CreateWebAuthnCredential (credential : WebAuthnCredential) : st UserDb unit := fun s =>
  if existsb (fun c => bool_decide (WebAuthn_ID c = WebAuthn_ID credential)) (ub_credentials s) || negb (user_exists (WebAuthn_UserID credential) s)
  then (Err ErrUserConstraint, s)
  else (Ok tt, s <| ub_credentials ::= fun l => (l ++
         [mkWebAuthnCredential (WebAuthn_ID credential) (WebAuthn_UserID credential) (WebAuthn_Name credential) (WebAuthn_Ciphertext credential)
            (WebAuthn_CreatedAt credential) None 0 false false])%list |>).

(** [ORDER BY created_at, name] *)
Definition credential_ltb (a b : WebAuthnCredential) : bool :=
  str_ltb (formatTime (WebAuthn_CreatedAt a)) (formatTime (WebAuthn_CreatedAt b)) ||
  bool_decide (formatTime (WebAuthn_CreatedAt a) = formatTime (WebAuthn_CreatedAt b)) && str_ltb (WebAuthn_Name a) (WebAuthn_Name b).

(** A row without its ciphertext fails the listing. *)
Definition ListWebAuthnCredentials (userID : string) (s : UserDb) : result (list WebAuthnCredential) :=
  let rows := sort_slice credential_ltb (select_where (fun c => bool_decide (WebAuthn_UserID c = userID)) (ub_credentials s)) in
  reject existsb (fun c => bool_decide (WebAuthn_Ciphertext c = "")) rows as "WebAuthn credential is missing encrypted data" ;;
  Ok rows.

Definition DeleteWebAuthnCredential (userID id : string) : st UserDb bool := fun s =>
  (Ok (0 <? affected (credential_of userID id) (ub_credentials s)),
   s <| ub_credentials ::= select_where (fun c => negb (credential_of userID id c)) |>).

Definition UpdateWebAuthnCredential (credential : WebAuthnCredential) : st UserDb unit := fun s =>
  let target := credential_of (WebAuthn_UserID credential) (WebAuthn_ID credential) in
  if affected target (ub_credentials s) =? 0 then (Err ErrIdentityNotFound, s)
  else (Ok tt, s <| ub_credentials ::= update_where target (fun c =>
         c <| WebAuthn_Ciphertext := WebAuthn_Ciphertext credential |> <| WebAuthn_SignCount := WebAuthn_SignCount credential |>
           <| WebAuthn_BackupEligible := WebAuthn_BackupEligible credential |> <| WebAuthn_BackupState := WebAuthn_BackupState credential |>
           <| WebAuthn_LastUsedAt := WebAuthn_LastUsedAt credential |>) |>).

(** * oidc.go *)

Definition provider_id (r : OIDCProviderRecord) : string := Provider_ID (Record_Provider r).
Definition provider_is (id : string) (r : OIDCProviderRecord) : bool := bool_decide (provider_id r = id).

(** An existing provider keeps its creation date; a saved one is disabled and untested. *)
Definition UpsertOIDCProvider (record : OIDCProviderRecord) (event : AuditEvent) : st UserDb unit :=
  user_tx (fun s =>
    let p := Record_Provider record in
    reject existsb (fun r => negb (provider_is (Provider_ID p) r) && bool_decide (Provider_IssuerURL (Record_Provider r) = Provider_IssuerURL p)) (ub_providers s)
           || negb (one_of (Provider_Mode p) [ProvisionInviteOnly; ProvisionJIT]) as ErrUserConstraint ;;
    let row created := mkProviderRecord (p <| Provider_Enabled := false |> <| Provider_TestedAt := None |> <| Provider_CreatedAt := created |>)
                         (Record_ClientSecretCiphertext record) in
    s ← insertAuditEvent event
          (s <| ub_providers ::= fun l =>
             match query_row (provider_is (Provider_ID p)) l with
             | Some _ => update_where (provider_is (Provider_ID p)) (fun r => row (Provider_CreatedAt (Record_Provider r))) l
             | None => (l ++ [row (Provider_CreatedAt p)])%list
             end |>) ;
    Ok (tt, s)).

Definition ListOIDCProviders (s : UserDb) : list OIDCProviderRecord :=
  sort_slice (fun a b => str_ltb (Provider_Name (Record_Provider a)) (Provider_Name (Record_Provider b))) (ub_providers s).

Definition OIDCProvider_ (id : string) (s : UserDb) : result OIDCProviderRecord :=
  match query_row (provider_is id) (ub_providers s) with Some r => Ok r | None => Err ErrIdentityNotFound end.

Definition updateOIDCProviderState (target : OIDCProviderRecord -> bool) (f : OIDCProvider -> OIDCProvider) (event : AuditEvent) : st UserDb unit :=
  user_tx (fun s =>
    reject negb (affected target (ub_providers s) =? 1) as ErrProviderState ;;
    s ← insertAuditEvent event (s <| ub_providers ::= update_where target (fun r => r <| Record_Provider ::= f |>) |>) ;
    Ok (tt, s)).

Definition MarkOIDCProviderTested (id : string) (now : Time) : AuditEvent -> st UserDb unit :=
  updateOIDCProviderState (provider_is id) (fun p => p <| Provider_TestedAt := Some now |> <| Provider_UpdatedAt := now |>).

Definition SetOIDCProviderEnabled (id : string) (enabled : bool) (now : Time) : AuditEvent -> st UserDb unit :=
  updateOIDCProviderState (fun r => provider_is id r && (negb enabled || negb (bool_decide (Provider_TestedAt (Record_Provider r) = None))))
    (fun p => p <| Provider_Enabled := enabled |> <| Provider_UpdatedAt := now |>).

Definition external_is (providerID subject : string) (r : ExternalRow) : bool :=
  bool_decide (ex_provider r = providerID) && bool_decide (ex_subject r = subject).

(** The join of external identities and users; the last login is not read. *)
Definition linkedOIDCUser (providerID subject : string) (s : UserDb) : option User :=
  match query_row (external_is providerID subject) (ub_externals s) with
  | Some e => match query_row (user_is (ex_user e)) (ub_users s) with
              | Some r => Some ((Identity_User r) <| User_LastLoginAt := None |>)
              | None => None
              end
  | None => None
  end.

Definition updateLinkedOIDCUser (provider : OIDCProvider) (claims : OIDCClaims) (user : User) (role : UserRole) (now : Time) (event : AuditEvent)
  (s : UserDb) : result (User * UserDb) :=
  reject negb (bool_decide (User_Status user = UserActive)) as ErrIdentityNotFound ;;
  let derived := bool_decide (Provider_Mode provider = ProvisionJIT) && negb (bool_decide (User_Role user = role)) in
  reject derived && negb (valid_user_row (user <| User_Role := role |>)) as ErrUserConstraint ;;
  let s := if derived then s <| ub_users ::= update_where (user_is (User_ID user)) (set_user (fun u => u <| User_Role := role |> <| User_UpdatedAt := now |>)) |> else s in
  let user := if derived then user <| User_Role := role |> else user in
  s ← insertAuditEvent event
        (s <| ub_externals ::= update_where (external_is (Provider_ID provider) (Claims_Subject claims)) (fun e =>
             e <| ex_last_login := Some now |> <| ex_tenant := Claims_TenantID claims |> <| ex_email := normalizeEmail (Claims_Email claims) |>) |>) ;
  Ok (user, s).

(** The row the invitation lookup of [provisionOIDCUser] returns. *)
Definition sso_invitation (email now : string) (r : InvitationRow) : bool :=
  nocase_eq (Invitation_Email (in_invitation r)) email && bool_decide (Invitation_Kind (in_invitation r) = IdentitySSO) && open_invitation now r.

Definition claim_invitation (provider : OIDCProvider) (claims : OIDCClaims) (role : UserRole) (now : Time) (s : UserDb) : result (UserRole * UserDb) :=
  if bool_decide (Provider_Mode provider = ProvisionInviteOnly) then
    match query_row (sso_invitation (normalizeEmail (Claims_Email claims)) (formatTime now)) (ub_invitations s) with
    | None => Err ErrIdentityNotFound
    | Some r => Ok (Invitation_Role (in_invitation r), accept_invitation (fun r' => bool_decide (invitation_id r' = invitation_id r)) (formatTime now) s)
    end
  else Ok (role, s).

(** [INSERT INTO external_identities] *)
Definition insert_external (row : ExternalRow) (s : UserDb) : result UserDb :=
  reject existsb (fun r => external_is (ex_provider row) (ex_subject row) r || bool_decide (ex_provider r = ex_provider row /\ ex_user r = ex_user row)) (ub_externals s)
         || negb (user_exists (ex_user row) s) || negb (existsb (provider_is (ex_provider row)) (ub_providers s)) as ErrUserConstraint ;;
  Ok (s <| ub_externals ::= fun l => (l ++ [row])%list |>).

Definition provisionOIDCUser (provider : OIDCProvider) (claims : OIDCClaims) (role : UserRole) (now : Time) (s : UserDb) : result (User * UserDb) :=
  '(role, s) ← claim_invitation provider claims role now s ;
  reject bool_decide (Claims_UserID claims = "") as "OIDC provisioning user ID is required" ;;
  let user := mkUser (Claims_UserID claims) (normalizeEmail (Claims_Email claims)) (Claims_Name claims) role UserActive true now now None in
  s ← insert_user (mkLocalIdentity user "") s ;
  s ← insert_external (mkExternalRow (Provider_ID provider) (Claims_Subject claims) (User_ID user) (Claims_TenantID claims) (User_Email user) (Some now)) s ;
  Ok (user, s).

Definition ResolveOIDCUser (provider : OIDCProvider) (claims : OIDCClaims) (role : UserRole) (now : Time) (event : AuditEvent) : st UserDb User :=
  user_tx (fun s =>
    match linkedOIDCUser (Provider_ID provider) (Claims_Subject claims) s with
    | Some user => updateLinkedOIDCUser provider claims user role now event s
    | None =>
        '(user, s) ← provisionOIDCUser provider claims role now s ;
        s ← insertAuditEvent event s ;
        Ok (user, s)
    end).
End Store.

(** * identity_rotation.go *)

(** [IdentityCipher]: the methods of the secret box; [Encrypt] takes the nonce that it draws. *)
Record IdentityCipher := mkCipher { cipher_Encrypt : string -> string -> result string; cipher_Decrypt : string -> result string }.

Definition reencrypt (cipher : IdentityCipher) (nonce ciphertext : string) : result string :=
  match cipher_Decrypt cipher ciphertext with
  | Err _ => Err "decrypt during identity-key rotation"
  | Ok plaintext => match cipher_Encrypt cipher nonce plaintext with Err _ => Err "encrypt during identity-key rotation" | Ok c => Ok c end
  end.

(** The rows with a ciphertext are read first, then updated one by one by their key; [nonce] is what is drawn for a key. *)
Definition rotateEncryptedColumn {Row} (key value : Row -> string) (put : string -> Row -> Row) (cipher : IdentityCipher) (nonce : string -> string)
  (table : list Row) : result (list Row * Z) :=
  let records := select_where (fun r => 0 <? strlen (value r)) table in
  table ← for_each (fun t r => c ← reencrypt cipher (nonce (key r)) (value r) ; Ok (update_where (fun r' => bool_decide (key r' = key r)) (put c) t)) table records ;
  Ok (table, Z.of_nat (length records)).

(** The nonces drawn for the rows of each column. *)
Definition RotateIdentityCiphertexts (cipher : IdentityCipher) (nonce : string -> string -> string) (now : Time) : st UserDb Z :=
  user_tx (fun s =>
    '(totp, n1) ← rotateEncryptedColumn tc_user tc_secret (fun c r => r <| tc_secret := c |>) cipher (nonce "totp_credentials") (ub_totp s) ;
    '(credentials, n2) ← rotateEncryptedColumn WebAuthn_ID WebAuthn_Ciphertext (fun c r => r <| WebAuthn_Ciphertext := c |>) cipher (nonce "webauthn_credentials") (ub_credentials s) ;
    '(ceremonies, n3) ← rotateEncryptedColumn Ceremony_IDHash Ceremony_StateCiphertext (fun c r => r <| Ceremony_StateCiphertext := c |>) cipher (nonce "authentication_ceremonies") (ub_ceremonies s) ;
    '(providers, n4) ← rotateEncryptedColumn provider_id Record_ClientSecretCiphertext (fun c r => r <| Record_ClientSecretCiphertext := c |>) cipher (nonce "oidc_providers") (ub_providers s) ;
    '(smtp, n5) ← rotateEncryptedColumn (fun _ => "1") id (fun c _ => c) cipher (nonce "smtp_settings") (match ub_smtp_password s with Some c => [c] | None => [] end) ;
    s ← insertAuditEvent (mkAuditEvent now "" "identity.encryption_key.rotated" AuditWarning "identity_key" "" "" [("ciphertexts", DInt (n1 + n2 + n3 + n4 + n5))])
          (s <| ub_totp := totp |> <| ub_credentials := credentials |> <| ub_ceremonies := ceremonies |> <| ub_providers := providers |> <| ub_smtp_password := head smtp |>) ;
    Ok (n1 + n2 + n3 + n4 + n5, s)).
