(* ===== verification/ScanModel.v ===== *)
(** Scans: the records of internal/model/model.go and asset_group.go that scan
    planning, scheduling, execution and storage share. *)
From Stdlib Require Import ZArith String.
From stdpp Require Import base tactics list strings gmap sets.
From S2P Require Import Prelude GoStrings GoTime WorkerModel.
Open Scope string_scope.
Open Scope Z_scope.

Definition ScanStatus := string.
Definition StatusQueued : ScanStatus := "queued".
Definition StatusRunning : ScanStatus := "running".
Definition StatusCompleted : ScanStatus := "completed".
Definition StatusFailed : ScanStatus := "failed".
Definition StatusPaused : ScanStatus := "paused".
Definition StatusCanceled : ScanStatus := "canceled".

(** A match names the vulnerability and the observation; scores are not kept. *)
Record CVEMatch := {
  Match_CVEID : string; Match_ObservationID : string; Match_Target : string; Match_Address : string; Match_Port : Z;
  Match_Product : string; Match_Version : string; Match_Confidence : string; Match_Evidence : string; Match_MatchedAt : Time }.
#[export] Instance CVEMatch_eq_dec : EqDecision CVEMatch.
Proof. unfold EqDecision, Decision, Time in *. solve_decision. Defined.

Record ScanCheckpoint := mkScanCheckpoint { ScanCheckpoint_Address : string; ScanCheckpoint_Port : Z; ScanCheckpoint_CompletedAt : Time }.
#[export] Instance ScanCheckpoint_eq_dec : EqDecision ScanCheckpoint.
Proof. unfold EqDecision, Decision, Time in *. solve_decision. Defined.

Record Scan := mkScan {
  Scan_ID : string; Scan_Name : string; Scan_Targets : list Target; Scan_Ports : list Z; Scan_Status : ScanStatus;
  Scan_Error : string; Scan_Observations : list ServiceObservation; Scan_Findings : list Finding; Scan_CVEMatches : list CVEMatch;
  Scan_TotalChecks : Z; Scan_DoneChecks : Z; Scan_CreatedAt : Time; Scan_StartedAt : option Time; Scan_CompletedAt : option Time;
  Scan_ScopePolicyID : string; Scan_MaxConcurrent : Z; Scan_ScanPolicyID : string; Scan_Checkpoints : list ScanCheckpoint;
  Scan_ActiveSeconds : Z; Scan_WindowEnd : option Time; Scan_LongAlertSent : bool; Scan_RateLimitPerSecond : Z }.

Record CreateScanRequest := mkScanRequest { Request_Name : string; Request_Targets : list string; Request_Ports : list Z; Request_ScopePolicyID : string }.

(** The organization, the author and the dates of a policy are not kept. *)
Record ScopePolicy := mkScopePolicy {
  Scope_ID : string; Scope_Name : string; Scope_AllowedCIDRs : list string; Scope_AllowedPorts : list Z;
  Scope_MaxTargets : Z; Scope_MaxConcurrent : Z; Scope_Enabled : bool }.

Definition ScanExecutionMode := string.
Definition ScanExecutionLocal : ScanExecutionMode := "local".
Definition ScanExecutionRemote : ScanExecutionMode := "remote".

Record ReusableScanPolicy := mkScanPolicy {
  Policy_ID : string; Policy_Name : string; Policy_ScopePolicyID : string; Policy_GroupIDs : list string; Policy_Ports : list Z;
  Policy_Enabled : bool; Policy_ScheduleKind : string; Policy_ScheduleExpression : string; Policy_ScheduleTimezone : string;
  Policy_WindowStart : string; Policy_WindowEnd : string; Policy_RunMissed : bool; Policy_LongRunAlertSeconds : Z;
  Policy_RateLimitPerSecond : Z; Policy_ExecutionMode : ScanExecutionMode; Policy_WorkerSiteID : string;
  Policy_NextRunAt : option Time; Policy_LastScheduledAt : option Time }.

(** The fields of internal/config/config.go the scanner reads; the allowed ports
    are the keys of a map whose values are all true. *)
Record Config := mkConfig {
  Config_AllowedCIDRs : list string; Config_AllowedPorts : gset Z; Config_MaxTargets : Z; Config_MaxConcurrent : Z;
  Config_QueueSize : Z; Config_ConnectTimeout : Duration }.
