(* ===== verification/ScanScope.v ===== *)
(** What a scan may reach (internal/scanner/scanner.go): the expansion of the
    requested targets into addresses, under the limits of the configuration
    and of a scope policy. *)
From Stdlib Require Import ZArith Lia String Ascii.
From stdpp Require Import base tactics list strings gmap sets.
From S2P Require Import Prelude GoStrings GoTime Netip NetAddr WorkerModel ScanModel.
Open Scope string_scope.
Open Scope Z_scope.

(** * Limits *)

(** The fields of the engine that validation reads. *)
Record Validator := mkValidator { v_cfg : Config; v_nets : list IPNet }.

(** The networks of a list of CIDR texts, or the error of the first that does not parse. *)
Fixpoint parse_networks (e : error) (cidrs : list string) : result (list IPNet) :=
  match cidrs with
  | [] => Ok []
  | raw :: cidrs' =>
      match ParseCIDR (TrimSpace raw) with
      | None => Err e
      | Some n => match parse_networks e cidrs' with Ok ns => Ok (n :: ns) | Err e' => Err e' end
      end
  end.

(** The checks at the head of [New]. *)
Definition new_validator (cfg : Config) : result Validator :=
  reject Config_MaxConcurrent cfg <? 1 as "MaxConcurrent must be at least 1" ;;
  reject Config_QueueSize cfg <? 1 as "QueueSize must be at least 1" ;;
  reject Config_ConnectTimeout cfg <=? 0 as "ConnectTimeout must be positive" ;;
  match parse_networks "invalid allowed CIDR" (Config_AllowedCIDRs cfg) with
  | Err e => Err e
  | Ok [] => Err "at least one allowed CIDR is required"
  | Ok nets => Ok (mkValidator cfg nets)
  end.

Definition policyValidator (e : Validator) (policy : ScopePolicy) : result Validator :=
  let cfg := v_cfg e in
  reject negb (Scope_Enabled policy) as "scope policy is disabled" ;;
  reject (Scope_MaxTargets policy <? 1) || (Config_MaxTargets cfg <? Scope_MaxTargets policy) as "scope-policy target limit" ;;
  reject (Scope_MaxConcurrent policy <? 1) || (Config_MaxConcurrent cfg <? Scope_MaxConcurrent policy) as "scope-policy concurrency" ;;
  match parse_networks "invalid scope-policy CIDR" (Scope_AllowedCIDRs policy) with
  | Err e => Err e
  | Ok networks =>
      reject bool_decide (networks = []) as "scope policy requires at least one authorized CIDR" ;;
      reject negb (forallb (fun port => in_range 1 port 65535) (Scope_AllowedPorts policy)) as "invalid scope-policy port" ;;
      reject bool_decide (Scope_AllowedPorts policy = []) as "scope policy requires at least one allowed port" ;;
      Ok (mkValidator (mkConfig (Config_AllowedCIDRs cfg) (list_to_set (Scope_AllowedPorts policy)) (Scope_MaxTargets policy)
                                (Config_MaxConcurrent cfg) (Config_QueueSize cfg) (Config_ConnectTimeout cfg)) networks)
  end.

Definition ValidatePolicy (e : Validator) (policy : ScopePolicy) : result unit :=
  match policyValidator e policy with Ok _ => Ok tt | Err err => Err err end.

(** * Targets *)

Definition allowed (e : Validator) (ip : IP) : bool := existsb (fun network => IPNet_Contains network ip) (v_nets e).

(** The targets collected so far and the keys of the map [seen]. *)
Definition Expansion : Type := list Target * gset string.

Definition addTarget (e : Validator) (name : string) (address : Addr) (acc : Expansion) : result Expansion :=
  let '(targets, seen) := acc in
  let key := Addr_String address in
  reject negb (allowed e (AsSlice address)) as "target includes an address outside the configured network allowlist" ;;
  if bool_decide (key ∈ seen) then Ok acc
  else if Config_MaxTargets (v_cfg e) <=? Z.of_nat (length targets)
  then Err "expanded target addresses exceed the limit"
  else Ok (targets ++ [Build_Target name key []], {[ key ]} ∪ seen)%list.

(** [address] is a host of the prefix: not its network or broadcast address. *)
Definition scannable (prefix : Prefix) (skipEdges : bool) (address : Addr) : bool :=
  negb skipEdges || (negb (bool_decide (address = PrefixAddr prefix)) && Contains prefix (Next address)).

(** The loops of [addPrefixTargets] and [addRangeTargets]; [None]: out of fuel. *)
Fixpoint prefix_loop (fuel : nat) (e : Validator) (name : string) (prefix : Prefix) (skipEdges : bool) (address : Addr)
    (acc : Expansion) : option (result Expansion) :=
  match fuel with
  | O => None
  | S fuel' =>
      if negb (Contains prefix address) then Some (Ok acc) else
      match (if scannable prefix skipEdges address then addTarget e name address acc else Ok acc) with
      | Err err => Some (Err err)
      | Ok acc' =>
          if negb (IsValid (Next address)) then Some (Ok acc')
          else prefix_loop fuel' e name prefix skipEdges (Next address) acc'
      end
  end.

Fixpoint range_loop (fuel : nat) (e : Validator) (name : string) (last address : Addr) (acc : Expansion) : option (result Expansion) :=
  match fuel with
  | O => None
  | S fuel' =>
      match addTarget e name address acc with
      | Err err => Some (Err err)
      | Ok acc' => if bool_decide (address = last) then Some (Ok acc') else range_loop fuel' e name last (Next address) acc'
      end
  end.

(** More iterations than the target limit lets a loop make ([expansion_total]). *)
Definition expansion_fuel (e : Validator) : nat := Z.to_nat (Config_MaxTargets (v_cfg e)) + 4.
Definition completed (r : option (result Expansion)) : result Expansion := default (Err "expansion does not end") r.

Definition skips_edges (p : Prefix) : bool := Is4 (PrefixAddr p) && (PrefixBits p <=? 30).

Definition addPrefixTargets (e : Validator) (name : string) (prefix : Prefix) (acc : Expansion) : result Expansion :=
  let p := Masked prefix in
  match completed (prefix_loop (expansion_fuel e) e name p (skips_edges p) (PrefixAddr p) acc) with
  | Err err => Err err
  | Ok acc' => reject bool_decide (acc'.1 = []) as "CIDR target contains no scannable host addresses" ;; Ok acc'
  end.

Definition addRangeTargets (e : Validator) (name : string) (start last : Addr) (acc : Expansion) : result Expansion :=
  let start := Unmap start in let last := Unmap last in
  reject negb (BitLen start =? BitLen last) || addr_greater start last as "invalid IP range" ;;
  completed (range_loop (expansion_fuel e) e name last start acc).

(** [strings.Cut(value, "-")] *)
Definition cut_range (value : string) : option (string * string) :=
  match split_byte "-" value with
  | f :: g :: gs => Some (f, String.concat "-" (g :: gs))
  | _ => None
  end.

Definition parseAddressRange (value : string) : option (Addr * Addr) :=
  match cut_range value with
  | None => None
  | Some (startRaw, endRaw) =>
      match ParseAddr (TrimSpace startRaw), ParseAddr (TrimSpace endRaw) with
      | Some start, Some last => Some (start, last)
      | _, _ => None
      end
  end.

Section Resolver.
(** What the name service answers for a name: [None] when the lookup fails. *)
Context (LookupHost : string -> option (list (list Byte.byte))).

(** [net.LookupIP]: an address literal is its own answer, in sixteen bytes and
    without its zone; [None] in the list is a slice of another length. *)
Definition As16 (a : Addr) : option Addr :=
  match a with
  | AddrNone => None
  | Addr4 v => Some (Addr6 (65535 * 2 ^ 32 + v) "")
  | Addr6 v _ => Some (Addr6 v "")
  end.
Definition LookupIP (name : string) : option (list (option Addr)) :=
  match ParseAddr name with
  | Some a => Some [As16 a]
  | None => match LookupHost name with Some ips => Some (AddrFromSlice <$> ips) | None => None end
  end.

Definition add_resolved (e : Validator) (name : string) (acc : Expansion) (ip : option Addr) : result Expansion :=
  match ip with
  | None => Err "target resolved to an invalid address"
  | Some address => addTarget e name (Unmap address) acc
  end.

(** The body of the loop over the requested targets. *)
Definition expand_target (e : Validator) (acc : Expansion) (requested : string) : result Expansion :=
  let name := TrimSpace requested in
  reject bool_decide (name = "") as "targets cannot be blank" ;;
  if negb (lacks "/" name) then
    match ParsePrefix name with
    | None => Err "invalid CIDR target"
    | Some prefix => addPrefixTargets e name prefix acc
    end
  else
  match parseAddressRange name with
  | Some (start, last) => addRangeTargets e name start last acc
  | None =>
      match LookupIP name with
      | None | Some [] => Err "cannot resolve target"
      | Some ips => for_each (add_resolved e name) acc ips
      end
  end.

Definition sort_Ints (l : list Z) : list Z := sort_slice Z.ltb l.

Fixpoint dedup_after (last : Z) (ports : list Z) : list Z :=
  match ports with
  | [] => []
  | p :: ports' => if p =? last then dedup_after last ports' else p :: dedup_after p ports'
  end.
Definition deduplicatePorts (ports : list Z) : list Z :=
  match ports with [] => [] | p :: ports' => p :: dedup_after p ports' end.

Definition Validate (e : Validator) (req : CreateScanRequest) : result (list Target * list Z) :=
  let cfg := v_cfg e in
  reject bool_decide (Request_Targets req = []) || (Config_MaxTargets cfg <? Z.of_nat (length (Request_Targets req)))
    as "provide between 1 and the maximum number of targets" ;;
  let ports := match Request_Ports req with [] => elements (Config_AllowedPorts cfg) | ps => ps end in
  let ports := deduplicatePorts (sort_Ints ports) in
  reject negb (forallb (fun port => bool_decide (port ∈ Config_AllowedPorts cfg)) ports) as "port is not in the configured allowlist" ;;
  match for_each (expand_target e) ([], ∅) (Request_Targets req) with
  | Err err => Err err
  | Ok (targets, _) => Ok (targets, ports)
  end.

Definition ValidateWithPolicy (e : Validator) (req : CreateScanRequest) (policy : ScopePolicy) : result (list Target * list Z) :=
  match policyValidator e policy with
  | Err err => Err err
  | Ok validator => Validate validator req
  end.
End Resolver.

(** * Examples *)

Definition sample_scope : ScopePolicy := mkScopePolicy "default" "Lab" ["10.0.0.0/8"; " fd00::/8"] [22; 443; 80] 8 4 true.
Definition sample_config : Config := mkConfig ["0.0.0.0/0"] {[ 22 ]} 256 32 16 1000.
Definition sample_lookup (name : string) : option (list (list Byte.byte)) :=
  if bool_decide (name = "db.lab") then Some [[Byte.x0a; Byte.x01; Byte.x00; Byte.x02]] else None.

Definition sample_validate (targets : list string) (ports : list Z) : result (list string * list Z) :=
  match new_validator sample_config with
  | Err e => Err e
  | Ok v =>
      match ValidateWithPolicy sample_lookup v (mkScanRequest "nightly" targets ports "") sample_scope with
      | Ok (ts, ps) => Ok (Target_Address <$> ts, ps)
      | Err e => Err e
      end
  end.

Example validate_sample :
  sample_validate ["10.1.0.0/30"; " 10.1.0.2-10.1.0.4 "; "db.lab"; "::ffff:10.1.0.9"; "fd00::fe-fd00::ff"] [443; 22; 443]
  = Ok (["10.1.0.1"; "10.1.0.2"; "10.1.0.3"; "10.1.0.4"; "10.1.0.9"; "fd00::fe"; "fd00::ff"], [22; 443]).
Proof. vm_compute. reflexivity. Qed.
Example validate_outside :
  sample_validate ["11.0.0.1"] [] = Err "target includes an address outside the configured network allowlist" /\
  sample_validate ["printer"] [] = Err "cannot resolve target" /\ sample_validate ["10.0.0.1"] [25] = Err "port is not in the configured allowlist".
Proof. vm_compute. repeat split. Qed.
Example validate_limit : sample_validate ["fd00::/8"] [] = Err "expanded target addresses exceed the limit".
Proof. vm_compute. reflexivity. Qed.
(** A 4-in-6 prefix keeps its spelling, and with it the edges of the network. *)
Example validate_mapped_prefix :
  sample_validate ["::ffff:10.0.0.0/126"; "10.0.0.0/30"] [22]
  = Ok (["::ffff:10.0.0.0"; "::ffff:10.0.0.1"; "::ffff:10.0.0.2"; "::ffff:10.0.0.3"; "10.0.0.1"; "10.0.0.2"], [22]).
Proof. vm_compute. reflexivity. Qed.
