(* ===== verification/ScanScopeSafety.v ===== *)
(** What validation of a scan request guarantees: the expansion ends, stays
    inside the authorized networks and limits, and is exactly the set of
    addresses the request denotes. *)
From Stdlib Require Import ZArith Lia String Ascii.
From stdpp Require Import base tactics list strings gmap sets sorting.
From S2P Require Import Prelude GoStrings GoTime Netip NetAddr WorkerModel ScanModel ScanScope.
Open Scope string_scope.
Open Scope Z_scope.

(** * Addresses of one family *)

Definition zone_of (a : Addr) : string := match a with Addr6 _ z => z | _ => "" end.
Definition same_family (a b : Addr) : Prop := BitLen a = BitLen b /\ zone_of a = zone_of b.

Lemma same_family_eq a b : same_family a b -> addr_bits a = addr_bits b -> a = b.
Proof. destruct a, b; unfold same_family; simpl; intros [? ?] ?; try lia; by subst. Qed.

Lemma hasZone_zone a : hasZone a = false <-> zone_of a = "".
Proof. destruct a; simpl; rewrite ?negb_false_iff, ?bool_decide_eq_true; done. Qed.

Definition addr_max (a : Addr) : Z := match a with Addr4 _ => 2 ^ 32 - 1 | _ => 2 ^ 128 - 1 end.

Lemma Next_spec a : addr_ok a -> a <> AddrNone ->
  if IsValid (Next a) then same_family (Next a) a /\ addr_bits (Next a) = addr_bits a + 1 /\ Next a <> AddrNone
  else addr_bits a = addr_max a.
Proof.
  destruct a as [|v|v z]; intros Ha Hn; [done|..]; simpl.
  - destruct (Z.eqb_spec v (2 ^ 32 - 1)) as [->|]; simpl; [done|]. done.
  - destruct (Z.eqb_spec v (2 ^ 128 - 1)) as [->|]; simpl; [done|]. done.
Qed.

Lemma addr_bits_max a b : addr_ok b -> same_family a b -> a <> AddrNone -> addr_bits b <= addr_max a.
Proof. destruct a, b; unfold same_family; simpl; intros ? [? ?] ?; done || lia. Qed.

Lemma IsValid_spec a : IsValid a = true <-> a <> AddrNone.
Proof. unfold IsValid. by rewrite negb_true_iff, bool_decide_eq_false. Qed.

(** A masked prefix contains an interval of addresses. *)
Definition prefix_ok (p : Prefix) : Prop :=
  addr_ok (PrefixAddr p) /\ 0 <= PrefixBits p <= BitLen (PrefixAddr p) /\ zone_of (PrefixAddr p) = "" /\ PrefixAddr p <> AddrNone /\
  addr_bits (PrefixAddr p) mod 2 ^ (BitLen (PrefixAddr p) - PrefixBits p) = 0.

Lemma Masked_ok s p : ParsePrefix s = Some p -> prefix_ok (Masked p).
Proof.
  intros H. pose proof (ParsePrefix_ok s p H) as [Ha Hb].
  pose proof (ParsePrefix_valid s p H) as Hn.
  split; [by apply addr_ok_Masked|]. destruct p as [[|v|v z] n]; simpl in *; [done|..].
  - split; [done|]. split; [done|]. split; [done|]. unfold clear_bits. by rewrite Z.mod_mul by (apply Z.pow_nonzero; lia).
  - split; [done|]. split; [done|]. split; [done|]. unfold clear_bits. by rewrite Z.mod_mul by (apply Z.pow_nonzero; lia).
Qed.

Lemma Contains_interval p a : prefix_ok p ->
  Contains p a = true <-> same_family a (PrefixAddr p) /\
    addr_bits (PrefixAddr p) <= addr_bits a < addr_bits (PrefixAddr p) + 2 ^ (BitLen (PrefixAddr p) - PrefixBits p).
Proof.
  intros (Hok & Hb & Hz & Hn & Hm). rewrite (Contains_spec p a Hb). unfold same_family. rewrite hasZone_zone, Hz.
  assert (HB : BitLen (PrefixAddr p) <> 0) by (destruct (PrefixAddr p); done).
  set (h := BitLen (PrefixAddr p) - PrefixBits p) in *. set (lo := addr_bits (PrefixAddr p)) in *.
  pose proof (Z.pow_pos_nonneg 2 h ltac:(lia) ltac:(lia)) as Hp.
  assert (Hd : forall x, x / 2 ^ h = lo / 2 ^ h <-> lo <= x < lo + 2 ^ h).
  { intros x. pose proof (Z.div_mod x (2 ^ h) ltac:(lia)). pose proof (Z.mod_pos_bound x (2 ^ h) Hp).
    pose proof (Z.div_mod lo (2 ^ h) ltac:(lia)). split; [intros E; rewrite E in *; lia|]. intros Hx.
    assert (- 2 ^ h < 2 ^ h * (x / 2 ^ h - lo / 2 ^ h) < 2 ^ h) by lia. nia. }
  split.
  - intros (E & _ & Ez & Hx). rewrite E in Hx. fold h in Hx. by rewrite <- Hd.
  - intros [[E Ez] Hx]. rewrite E. fold h. by rewrite Hd.
Qed.

(** * One address *)

(** A collected target is the text of an authorized address. *)
Definition target_ok (e : Validator) (t : Target) : Prop :=
  exists a, addr_ok a /\ a <> AddrNone /\ Target_Address t = Addr_String a /\ allowed e (AsSlice a) = true.

Definition expansion_ok (e : Validator) (acc : Expansion) : Prop :=
  acc.2 = list_to_set (Target_Address <$> acc.1) /\ NoDup (Target_Address <$> acc.1) /\
  Z.of_nat (length acc.1) <= Z.max 0 (Config_MaxTargets (v_cfg e)) /\ Forall (target_ok e) acc.1.

Lemma allowed_valid e a : allowed e (AsSlice a) = true -> a <> AddrNone.
Proof.
  unfold allowed. rewrite existsb_exists. intros (n & _ & H) ->. unfold IPNet_Contains in H. simpl in H.
  by destruct (To4 (net_ip n)), (net_ip n).
Qed.

Lemma addTarget_ok e name a acc acc' : addr_ok a -> expansion_ok e acc -> addTarget e name a acc = Ok acc' ->
  expansion_ok e acc' /\ a <> AddrNone /\ acc'.2 = {[ Addr_String a ]} ∪ acc.2.
Proof.
  destruct acc as [targets seen]. intros Ha (Hs & Hnd & Hl & Hf) H. unfold addTarget in H. apply reject_ok in H as [Hal H].
  apply negb_false_iff in Hal. pose proof (allowed_valid e a Hal) as Hn. simpl in *.
  case_bool_decide as Hin; [simplify_eq; split; [done|]; split; [done|]; set_solver|].
  case_match eqn:Em; [done|]. apply Z.leb_gt in Em. injection H as <-. simpl. split; [|done].
  split; [|split; [|split]]; simpl.
  - rewrite fmap_app, list_to_set_app_L. simpl. set_solver.
  - rewrite fmap_app, NoDup_app. split; [done|]. split; [|apply NoDup_singleton].
    intros x Hx. simpl. rewrite list_elem_of_singleton. intros ->. set_solver.
  - rewrite length_app. simpl. lia.
  - apply Forall_app. split; [done|]. apply Forall_singleton. by exists a.
Qed.

(** * The loop over a prefix *)

Section Loops.
Context (e : Validator) (name : string).

(** [x] is one of the addresses from [a] on. *)
Definition at_or_after (a x : Addr) : Prop := same_family x a /\ addr_bits a <= addr_bits x.

Lemma at_or_after_Next a x : addr_ok a -> a <> AddrNone -> addr_ok x ->
  at_or_after a x <-> x = a \/ (IsValid (Next a) = true /\ at_or_after (Next a) x).
Proof.
  intros Ha Hn Hx. pose proof (Next_spec a Ha Hn) as N. unfold at_or_after. split.
  - intros [Hf Hle]. destruct (decide (addr_bits x = addr_bits a)) as [E|E]; [left; by apply same_family_eq|right].
    destruct (IsValid (Next a)).
    + destruct N as ([F1 F2] & N & _). destruct Hf as [F3 F4]. split; [done|]. split; [by split; congruence|lia].
    + assert (Hf' : same_family a x) by (destruct Hf; done). pose proof (addr_bits_max a x Hx Hf' Hn). lia.
  - intros [->|[V [[F3 F4] Hle]]]; [done|]. rewrite V in N. destruct N as ([F1 F2] & N & _). split; [by split; congruence|lia].
Qed.

Lemma prefix_loop_spec fuel p skip a acc acc' : prefix_ok p -> addr_ok a -> at_or_after (PrefixAddr p) a -> expansion_ok e acc ->
  prefix_loop fuel e name p skip a acc = Some (Ok acc') ->
  expansion_ok e acc' /\ forall k, k ∈ acc'.2 <->
    k ∈ acc.2 \/ exists x, k = Addr_String x /\ addr_ok x /\ Contains p x = true /\ scannable p skip x = true /\ at_or_after a x.
Proof.
  intros Hp. revert a acc. induction fuel as [|fuel IH]; intros a acc Ha Haf Hacc H; [done|]. cbn [prefix_loop] in H.
  destruct Hp as (Hpo & Hpb & Hpz & Hpn & Hpm). assert (Hp : prefix_ok p) by done.
  assert (Hn : a <> AddrNone) by (intros ->; destruct Haf as [[E _] _], (PrefixAddr p); done).
  destruct (Contains p a) eqn:Ec; simpl in H.
  2: { injection H as <-. split; [done|]. intros k. split; [by left|]. intros [|(x & _ & _ & Hx & _ & [_ Hle])]; [done|].
       rewrite Contains_interval in Hx by done. destruct Hx as [_ Hx]. destruct (Contains p a) eqn:E; [done|].
       assert (Contains p a = true); [|congruence]. apply Contains_interval; [done|]. destruct Haf as [Hf Hlo]. split; [done|lia]. }
  destruct (if scannable p skip a then _ else _) as [acc1|] eqn:Ea; [|done].
  assert (H1 : expansion_ok e acc1 /\ forall k, k ∈ acc1.2 <-> k ∈ acc.2 \/ (scannable p skip a = true /\ k = Addr_String a)).
  { destruct (scannable p skip a); [|injection Ea as <-; naive_solver].
    destruct (addTarget_ok _ _ _ _ _ Ha Hacc Ea) as (Hok & _ & ->). split; [done|]. set_solver. }
  destruct H1 as [H1 K1]. destruct (IsValid (Next a)) eqn:Ev; simpl in H.
  - pose proof (Next_spec a Ha Hn) as N. rewrite Ev in N. destruct N as ([F1 F2] & N & _).
    assert (Haf' : at_or_after (PrefixAddr p) (Next a)).
    { destruct Haf as [[F3 F4] Hle]. split; [split; congruence|lia]. }
    destruct (IH _ _ (addr_ok_Next a Ha) Haf' H1 H) as [Hok K]. split; [done|]. intros k. rewrite K, K1. split.
    + intros [[?|[? ->]]|(x & -> & Hx & ? & ? & Hg)]; [by left|right; exists a; by repeat split|].
      right. exists x. rewrite at_or_after_Next by done. naive_solver.
    + intros [?|(x & -> & Hx & ? & ? & Hg)]; [by left; left|]. rewrite at_or_after_Next in Hg by done.
      destruct Hg as [->|[_ Hg]]; [by left; right|right]. by exists x.
  - injection H as <-. split; [done|]. intros k. rewrite K1. split.
    + intros [?|[? ->]]; [by left|right]. exists a. by repeat split.
    + intros [?|(x & -> & Hx & ? & ? & Hg)]; [by left|]. rewrite at_or_after_Next, Ev in Hg by done. naive_solver.
Qed.

(** ** The number of iterations *)

(** Addresses visited so far, each before [a], whose texts are already among the targets. *)
Definition visited_ok (visited : list Addr) (a : Addr) (acc : Expansion) : Prop :=
  NoDup visited /\ Forall (fun x => addr_ok x /\ x <> AddrNone /\ same_family x a /\ addr_bits x < addr_bits a /\ Addr_String x ∈ acc.2) visited.

Lemma visited_bound visited a acc : expansion_ok e acc -> visited_ok visited a acc ->
  Z.of_nat (length visited) <= Z.max 0 (Config_MaxTargets (v_cfg e)).
Proof.
  intros (Hs & Hnd & Hl & _) [Hv Hf]. etransitivity; [|exact Hl]. apply Nat2Z.inj_le.
  rewrite <- (length_fmap Addr_String visited), <- (length_fmap Target_Address acc.1).
  apply submseteq_length, NoDup_submseteq.
  - revert Hv Hf. clear. induction visited as [|x l IH]; intros Hv Hf; [constructor|].
    apply NoDup_cons in Hv as [Hx Hv]. apply Forall_cons in Hf as [(Ho & Hn & _) Hf]. rewrite fmap_cons. constructor; [|by apply IH].
    intros (y & E & Hy)%list_elem_of_fmap. rewrite Forall_forall in Hf. destruct (Hf y Hy) as (Ho' & Hn' & _).
    apply Addr_String_inj in E; [|done..]. by subst.
  - intros k (x & -> & Hx)%list_elem_of_fmap. rewrite Forall_forall in Hf. destruct (Hf x Hx) as (_ & _ & _ & _ & Hk).
    rewrite Hs in Hk. by apply elem_of_list_to_set in Hk.
Qed.

Lemma visited_step visited a acc acc' : addr_ok a -> expansion_ok e acc -> visited_ok visited a acc ->
  addTarget e name a acc = Ok acc' -> IsValid (Next a) = true ->
  expansion_ok e acc' /\ visited_ok (a :: visited) (Next a) acc'.
Proof.
  intros Ha Hacc [Hv Hf] Hadd V. destruct (addTarget_ok _ _ _ _ _ Ha Hacc Hadd) as (Hacc' & Hn & Hs). split; [done|].
  pose proof (Next_spec a Ha Hn) as N. rewrite V in N. destruct N as ([F1 F2] & N & _). split.
  - apply NoDup_cons. split; [|done]. intros Hin. rewrite Forall_forall in Hf. destruct (Hf a Hin) as (_ & _ & _ & Hlt & _). lia.
  - apply Forall_cons. split.
    + split; [done|]. split; [done|]. split; [by split|]. split; [lia|]. rewrite Hs. set_solver.
    + eapply Forall_impl; [exact Hf|]. intros x (Ho & Hx & [F3 F4] & Hlt & Hk). split; [done|]. split; [done|].
      split; [by split; congruence|]. split; [lia|]. rewrite Hs. set_solver.
Qed.

Lemma prefix_loop_ends fuel p skip a acc visited : addr_ok a -> expansion_ok e acc -> visited_ok visited a acc ->
  skip = false \/ a <> PrefixAddr p /\ same_family a (PrefixAddr p) /\ addr_bits (PrefixAddr p) < addr_bits a ->
  Z.max 0 (Config_MaxTargets (v_cfg e)) + 3 <= Z.of_nat fuel + Z.of_nat (length visited) ->
  is_Some (prefix_loop fuel e name p skip a acc).
Proof.
  revert a acc visited. induction fuel as [|fuel IH]; intros a acc visited Ha Hacc Hv Hskip Hfuel;
    pose proof (visited_bound _ _ _ Hacc Hv) as Hb; [lia|]. cbn [prefix_loop].
  destruct (Contains p a) eqn:Ec; [|by eexists]. cbn [negb].
  destruct (scannable p skip a) eqn:Es.
  - destruct (addTarget e name a acc) as [acc1|] eqn:Ea; [|by eexists]. destruct (IsValid (Next a)) eqn:V; [|by eexists]. cbn [negb].
    destruct (visited_step _ _ _ _ Ha Hacc Hv Ea V) as [Hacc1 Hv1]. eapply IH; [by apply addr_ok_Next|exact Hacc1|exact Hv1| |simpl length; lia].
    destruct (addTarget_ok _ _ _ _ _ Ha Hacc Ea) as (_ & Hn & _).
    pose proof (Next_spec a Ha Hn) as N. rewrite V in N. destruct N as ([F1 F2] & N & _).
    destruct Hskip as [?|(_ & [F3 F4] & Hlt)]; [by left|right]. split; [intros E; rewrite E in N; lia|]. split; [split; congruence|lia].
  - destruct (IsValid (Next a)) eqn:V; [|by eexists]. cbn [negb].
    (* a skipped address after the first is the last one *)
    unfold scannable in Es. destruct Hskip as [->|(Hne & _)]; [done|]. destruct skip; [|done]. cbn [negb orb] in Es.
    rewrite bool_decide_eq_false_2 in Es by done. cbn [negb andb] in Es.
    destruct fuel as [|fuel]; [lia|]. cbn [prefix_loop]. rewrite Es. by eexists.
Qed.

Lemma range_loop_ends fuel last a acc visited : addr_ok a -> expansion_ok e acc -> visited_ok visited a acc ->
  Z.max 0 (Config_MaxTargets (v_cfg e)) + 2 <= Z.of_nat fuel + Z.of_nat (length visited) ->
  is_Some (range_loop fuel e name last a acc).
Proof.
  revert a acc visited. induction fuel as [|fuel IH]; intros a acc visited Ha Hacc Hv Hfuel;
    pose proof (visited_bound _ _ _ Hacc Hv) as Hb; [lia|]. cbn [range_loop].
  destruct (addTarget e name a acc) as [acc1|] eqn:Ea; [|by eexists]. case_bool_decide; [by eexists|].
  destruct (IsValid (Next a)) eqn:V.
  - destruct (visited_step _ _ _ _ Ha Hacc Hv Ea V) as [Hacc1 Hv1]. eapply IH; [by apply addr_ok_Next|exact Hacc1|exact Hv1|simpl length; lia].
  - (* past the last address nothing is authorized *)
    assert (En : Next a = AddrNone) by (destruct (Next a); done). rewrite En. destruct fuel as [|fuel]; [lia|]. cbn [range_loop].
    destruct (addTarget e name AddrNone acc1) as [acc2|] eqn:E2; [|by eexists].
    destruct (addTarget_ok _ _ _ _ _ Ha Hacc Ea) as (Hacc1 & _). destruct (addTarget_ok e name AddrNone acc1 acc2 I Hacc1 E2) as (_ & Hc & _). done.
Qed.
End Loops.

(** However many addresses a prefix or a range denotes, up to the 2^128 of an
    IPv6 prefix, its expansion ends within four iterations more than the
    configured target limit: with any such fuel the loops return. *)
Theorem expansion_total e name acc fuel : expansion_ok e acc ->
  (Z.to_nat (Config_MaxTargets (v_cfg e)) + 4 <= fuel)%nat ->
  (forall s p skip, ParsePrefix s = Some p -> is_Some (prefix_loop fuel e name (Masked p) skip (PrefixAddr (Masked p)) acc)) /\
  (forall start last, addr_ok start -> is_Some (range_loop fuel e name last start acc)).
Proof.
  intros Hacc Hfuel. split.
  - intros s p skip Hp. destruct (Masked_ok s p Hp) as (Hok & _ & _ & Hn & _). set (q := Masked p) in *.
    assert (Hv : forall a, visited_ok [] a acc) by (intros; split; constructor).
    destruct fuel as [|fuel]; [lia|]. cbn [prefix_loop]. destruct (Contains q (PrefixAddr q)); [|by eexists]. cbn [negb].
    pose proof (Next_spec _ Hok Hn) as N. unfold scannable at 1. rewrite bool_decide_eq_true_2 by done. cbn [negb andb]. rewrite orb_false_r.
    destruct skip; cbn [negb].
    + destruct (IsValid (Next (PrefixAddr q))); [|by eexists]. cbn [negb]. destruct N as (F & N & _).
      eapply prefix_loop_ends; [by apply addr_ok_Next|done|apply Hv| |simpl; lia]. right.
      split; [intros E; rewrite E in N; lia|]. split; [done|lia].
    + destruct (addTarget e name (PrefixAddr q) acc) as [acc1|] eqn:Ea; [|by eexists].
      destruct (IsValid (Next (PrefixAddr q))) eqn:V; [|by eexists]. cbn [negb].
      destruct (visited_step e name [] _ _ _ Hok Hacc (Hv _) Ea V) as [Hacc1 Hv1].
      eapply prefix_loop_ends; [by apply addr_ok_Next|done|exact Hv1|by left|simpl length; lia].
  - intros start last Hs. eapply (range_loop_ends e name fuel last start acc []); [done..|split; constructor|simpl length; lia].
Qed.

(** * The loop over a range *)

Lemma range_loop_spec e name fuel last a acc acc' : addr_ok a -> addr_ok last -> expansion_ok e acc ->
  range_loop fuel e name last a acc = Some (Ok acc') ->
  expansion_ok e acc' /\ at_or_after a last /\ forall k, k ∈ acc'.2 <->
    k ∈ acc.2 \/ exists x, k = Addr_String x /\ addr_ok x /\ at_or_after a x /\ addr_bits x <= addr_bits last.
Proof.
  revert a acc. induction fuel as [|fuel IH]; intros a acc Ha Hl Hacc H; [done|]. cbn [range_loop] in H.
  destruct (addTarget e name a acc) as [acc1|] eqn:Ea; [|done].
  destruct (addTarget_ok _ _ _ _ _ Ha Hacc Ea) as (H1 & Hn & K1). case_bool_decide as E.
  - injection H as <-. subst last. split; [done|]. split; [by repeat split|]. intros k. rewrite K1, elem_of_union, elem_of_singleton. split.
    + intros [->|?]; [right|by left]. exists a. by repeat split.
    + intros [?|(x & -> & Hx & [Hf Hle] & Hge)]; [by right|]. left. f_equal. apply same_family_eq; [done|lia].
  - destruct (IsValid (Next a)) eqn:V.
    + destruct (IH _ _ (addr_ok_Next a Ha) Hl H1 H) as (Hok & Hge & K). split; [done|].
      split; [by apply at_or_after_Next; [..|right]|]. intros k. rewrite K, K1, elem_of_union, elem_of_singleton. split.
      * intros [[->|?]|(x & -> & Hx & Hg & Hb)]; [right; exists a|by left|right; exists x].
        -- split; [done|]. split; [done|]. split; [by repeat split|]. pose proof (Next_spec a Ha Hn) as N. rewrite V in N.
           destruct N as (_ & N & _), Hge as [_ Hge]. lia.
        -- split; [done|]. split; [done|]. split; [by apply at_or_after_Next; [..|right]|done].
      * intros [?|(x & -> & Hx & Hg & Hb)]; [by left; right|]. rewrite at_or_after_Next in Hg by done.
        destruct Hg as [->|[_ Hg]]; [by left; left|right]. by exists x.
    + destruct fuel as [|fuel]; [done|]. cbn [range_loop] in H. assert (En : Next a = AddrNone) by (destruct (Next a); done).
      rewrite En in H. destruct (addTarget e name AddrNone acc1) as [acc2|] eqn:E2; [|done].
      by destruct (addTarget_ok e name AddrNone acc1 acc2 I H1 E2) as (_ & Hc & _).
Qed.

(** * Lookups and ports *)

Lemma bytes_val_range l : 0 <= bytes_val l < 256 ^ Z.of_nat (length l).
Proof.
  unfold bytes_val. induction l as [|b l IH] using rev_ind; [simpl; lia|].
  rewrite fold_left_app, length_app. cbn [length fold_left]. rewrite Nat.add_1_r, Nat2Z.inj_succ, Z.pow_succ_r by lia.
  assert (0 <= Z.of_N (Byte.to_N b) < 256) by (by destruct b). set (q := 256 ^ Z.of_nat (length l)) in *. lia.
Qed.

Lemma add_resolved_spec e name ips : (forall ip, Some ip ∈ ips -> addr_ok ip) -> forall acc acc', expansion_ok e acc ->
  for_each (add_resolved e name) acc ips = Ok acc' ->
  expansion_ok e acc' /\ forall k, k ∈ acc'.2 <-> k ∈ acc.2 \/ exists ip, Some ip ∈ ips /\ k = Addr_String (Unmap ip).
Proof.
  induction ips as [|[ip|] ips IH]; intros Hok acc acc' Hacc H; [|simpl in H|done].
  - injection H as <-. split; [done|]. set_solver.
  - destruct (addTarget e name (Unmap ip) acc) as [acc1|] eqn:Ea; [|done].
    destruct (addTarget_ok _ _ _ _ _ (addr_ok_Unmap _ (Hok ip ltac:(set_solver))) Hacc Ea) as (H1 & _ & K1).
    destruct (IH ltac:(set_solver) _ _ H1 H) as [Hok' K]. split; [done|]. intros k. rewrite K, K1. set_solver.
Qed.

Lemma completed_Ok r acc : completed r = Ok acc -> r = Some (Ok acc).
Proof. destruct r as [[]|]; simpl; congruence. Qed.

Lemma Z_ltb_weak : StrictWeak Z.ltb.
Proof. constructor; intros; lia. Qed.

Lemma dedup_after_spec last ports : Sorted Z.le (last :: ports) ->
  Sorted Z.lt (last :: dedup_after last ports) /\ forall p, p ∈ last :: dedup_after last ports <-> p ∈ last :: ports.
Proof.
  revert last. induction ports as [|q ports IH]; intros last Hs; [split; [simpl; by repeat constructor|done]|].
  apply Sorted_inv in Hs as [Hs Hr]. apply HdRel_inv in Hr. simpl. destruct (Z.eqb_spec q last) as [->|Hne].
  - destruct (IH last Hs) as [H1 H2]. split; [done|]. intros p. rewrite H2. set_solver.
  - destruct (IH q Hs) as [H1 H2]. split; [constructor; [done|constructor; lia]|]. intros p. specialize (H2 p). set_solver.
Qed.


Lemma parse_networks_in err cidrs ns n : parse_networks err cidrs = Ok ns -> List.In n ns ->
  exists cidr, cidr ∈ cidrs /\ ParseCIDR (TrimSpace cidr) = Some n.
Proof.
  revert ns. induction cidrs as [|raw cidrs IH]; intros ns H Hin; simpl in H; [by simplify_eq|].
  destruct (ParseCIDR (TrimSpace raw)) as [m|] eqn:E; [|done]. destruct (parse_networks err cidrs) as [ns'|] eqn:E'; [|done].
  injection H as <-. destruct Hin as [->|Hin]; [exists raw; by split; [left|]|].
  destruct (IH ns' eq_refl Hin) as (c & Hc & Ec). exists c. by split; [right|].
Qed.

(** * What a request denotes *)

Section Denotation.
Context (LookupHost : string -> option (list (list Byte.byte))).

(** The addresses a requested target stands for: the hosts of a prefix, the
    addresses of a range, or what its name resolves to. *)
Definition denotes (requested : string) (a : Addr) : Prop :=
  let name := TrimSpace requested in
  if negb (lacks "/" name) then
    exists p, ParsePrefix name = Some p /\ Contains (Masked p) a = true /\ scannable (Masked p) (skips_edges (Masked p)) a = true
  else
    match parseAddressRange name with
    | Some (start, last) => at_or_after (Unmap start) a /\ addr_bits a <= addr_bits (Unmap last)
    | None => exists ips ip, LookupIP LookupHost name = Some ips /\ Some ip ∈ ips /\ a = Unmap ip
    end.

Lemma LookupIP_ok name ips ip : LookupIP LookupHost name = Some ips -> Some ip ∈ ips -> addr_ok ip.
Proof.
  unfold LookupIP. destruct (ParseAddr name) as [a|] eqn:Ea.
  - intros [= <-] Hin%list_elem_of_singleton. apply ParseAddr_ok in Ea. destruct a as [|v|v z]; [done|..]; injection Hin as ->; simpl in *; [|done].
    change (2 ^ 128) with (2 ^ 96 * 2 ^ 32). lia.
  - destruct (LookupHost name) as [l|]; [|done]. intros [= <-] (b & E & Hb)%list_elem_of_fmap. unfold AddrFromSlice in E.
    pose proof (bytes_val_range b) as Hr.
    case_bool_decide as H4; [|case_bool_decide as H16; [|done]]; injection E as ->; [rewrite H4 in Hr|rewrite H16 in Hr]; exact Hr.
Qed.

Lemma expand_target_spec e requested acc acc' : expansion_ok e acc -> expand_target LookupHost e acc requested = Ok acc' ->
  expansion_ok e acc' /\ forall k, k ∈ acc'.2 <-> k ∈ acc.2 \/ exists a, k = Addr_String a /\ addr_ok a /\ denotes requested a.
Proof.
  intros Hacc H. unfold expand_target in H. apply reject_ok in H as [_ H]. unfold denotes.
  destruct (negb (lacks "/" (TrimSpace requested))).
  - destruct (ParsePrefix (TrimSpace requested)) as [p|] eqn:Ep; [|done]. unfold addPrefixTargets in H.
    destruct (completed _) as [acc1|] eqn:El; [|done]. apply reject_ok in H as [_ [= ->]]. apply completed_Ok in El.
    pose proof (Masked_ok _ _ Ep) as Hp. pose proof Hp as (Hpo & _).
    apply prefix_loop_spec in El as [Hok K]; [|done..|by repeat split|done]. split; [done|]. intros k. rewrite K. split.
    + intros [?|(x & -> & Hx & Hc & Hs & _)]; [by left|right]. exists x. split; [done|]. split; [done|]. by exists p.
    + intros [?|(x & -> & Hx & p' & E & Hc & Hs)]; [by left|right]. simplify_eq. exists x.
      split; [done|]. split; [done|]. split; [done|]. split; [done|]. rewrite Contains_interval in Hc by done. split; [apply Hc|lia].
  - destruct (parseAddressRange (TrimSpace requested)) as [[start last]|] eqn:Er.
    + unfold addRangeTargets in H. apply reject_ok in H as [_ H]. apply completed_Ok in H.
      assert (Hs : addr_ok start /\ addr_ok last).
      { unfold parseAddressRange in Er. destruct (cut_range _) as [[x y]|]; [|done].
        destruct (ParseAddr (TrimSpace x)) eqn:E1, (ParseAddr (TrimSpace y)) eqn:E2; try done. simplify_eq.
        split; by eapply ParseAddr_ok. }
      apply range_loop_spec in H as (Hok & _ & K); [|apply addr_ok_Unmap, Hs..|done]. split; [done|]. intros k. rewrite K. naive_solver.
    + destruct (LookupIP LookupHost (TrimSpace requested)) as [ips|] eqn:Ei; [|done].
      assert (H' : for_each (add_resolved e (TrimSpace requested)) acc ips = Ok acc') by (destruct ips; done).
      assert (Hip : forall ip, Some ip ∈ ips -> addr_ok ip) by (intros ip; by apply LookupIP_ok with (TrimSpace requested)).
      destruct (add_resolved_spec _ _ _ Hip _ _ Hacc H') as [Hok K]. split; [done|]. intros k. rewrite K. split.
      * intros [?|(ip & Hin & ->)]; [by left|right]. exists (Unmap ip). split; [done|]. split; [by apply addr_ok_Unmap, Hip|]. by exists ips, ip.
      * intros [?|(a & -> & Ha & ips' & ip & E & Hin & ->)]; [by left|right]. simplify_eq. by exists ip.
Qed.

Lemma expand_targets_spec e requests : forall acc acc', expansion_ok e acc -> for_each (expand_target LookupHost e) acc requests = Ok acc' ->
  expansion_ok e acc' /\ forall k, k ∈ acc'.2 <-> k ∈ acc.2 \/ exists r a, r ∈ requests /\ k = Addr_String a /\ addr_ok a /\ denotes r a.
Proof.
  induction requests as [|r requests IH]; intros acc acc' Hacc H; simpl in H.
  - injection H as <-. split; [done|]. set_solver.
  - destruct (expand_target LookupHost e acc r) as [acc1|] eqn:Ea; [|done].
    destruct (expand_target_spec _ _ _ _ Hacc Ea) as [H1 K1]. destruct (IH _ _ H1 H) as [Hok K]. split; [done|].
    intros k. rewrite K, K1. split.
    + intros [[?|(a & ?)]|(r' & a & Hr & ?)]; [by left|right; exists r, a|right; exists r', a]; set_solver.
    + intros [?|(r' & a & Hr & -> & Ha & Hd)]; [by left; left|]. apply elem_of_cons in Hr as [->|Hr]; [left; right|right]; eauto 10.
Qed.


Lemma deduplicatePorts_spec ports : Sorted Z.lt (deduplicatePorts (sort_Ints ports)) /\
  forall p, p ∈ deduplicatePorts (sort_Ints ports) <-> p ∈ ports.
Proof using.
  pose proof Z_ltb_weak. assert (Hs : Sorted Z.le (sort_Ints ports)).
  { apply StronglySorted_Sorted. pose proof (sort_slice_ordered Z.ltb ports) as Ho. unfold ordered, sort_Ints in *.
    induction Ho as [|x l _ IH Hx]; constructor; [done|]. eapply Forall_impl; [exact Hx|]. simpl. intros y E. lia. }
  assert (Hin : forall p, p ∈ sort_Ints ports <-> p ∈ ports) by (intros; apply elem_of_sort_slice).
  destruct (sort_Ints ports) as [|p l]; [by split; [constructor|]|]. destruct (dedup_after_spec p l Hs) as [H1 H2].
  split; [done|]. intros q. rewrite <- Hin. apply H2.
Qed.

(** What [Validate] returns, for any validator. *)
Lemma Validate_spec e req targets ports : Validate LookupHost e req = Ok (targets, ports) ->
  Z.of_nat (length targets) <= Config_MaxTargets (v_cfg e) /\ NoDup (Target_Address <$> targets) /\ Forall (target_ok e) targets /\
  (forall k, k ∈ Target_Address <$> targets <-> exists r a, r ∈ Request_Targets req /\ k = Addr_String a /\ addr_ok a /\ denotes r a) /\
  Sorted Z.lt ports /\ (forall p, p ∈ ports -> p ∈ Config_AllowedPorts (v_cfg e)) /\
  (forall p, p ∈ ports <-> if decide (Request_Ports req = []) then p ∈ Config_AllowedPorts (v_cfg e) else p ∈ Request_Ports req).
Proof.
  intros H. unfold Validate in H. apply reject_ok in H as [Hc H]. apply reject_ok in H as [Hp H].
  destruct (for_each _ _ _) as [[ts seen]|] eqn:E; [|done]. injection H as -> <-.
  assert (H0 : expansion_ok e ([], ∅)) by (split; [done|]; split; [constructor|]; split; [simpl; lia|constructor]).
  destruct (expand_targets_spec _ _ _ _ H0 E) as [(Hs & Hnd & Hl & Hf) K]. simpl in *.
  apply orb_false_iff in Hc as [Hne Hmax]. apply bool_decide_eq_false in Hne.
  assert (1 <= Z.of_nat (length (Request_Targets req))) by (destruct (Request_Targets req); [done|simpl; lia]).
  apply negb_false_iff, forallb_forall in Hp || (apply negb_false_iff in Hp; rewrite forallb_forall in Hp).
  set (l := match Request_Ports req with [] => _ | _ => _ end) in *. destruct (deduplicatePorts_spec l) as [Hsp Hin].
  split; [lia|]. split; [done|]. split; [done|]. split; [|split; [done|split]].
  - intros k. specialize (K k). rewrite Hs, elem_of_list_to_set in K. set_solver.
  - intros p Hip. apply list_elem_of_In in Hip. specialize (Hp p Hip). by apply bool_decide_eq_true in Hp.
  - intros p. rewrite Hin. subst l. destruct (Request_Ports req); simpl; [apply elem_of_elements|done].
Qed.

(** C2: A scan request that a scope policy admits is confined to the policy and is
    exactly what was asked for: the policy is enabled; there are at most its (and
    the server's) maximum of targets, without duplicates; every target is the text
    of an address inside one of the policy's networks; the target addresses are
    precisely those the request's prefixes, ranges and names denote; and the ports
    are the requested ones (all of the policy's when none is requested), sorted,
    without duplicates, allowed by the policy and between 1 and 65535. *)
Theorem admitted_scan_confined e req policy targets ports :
  ValidateWithPolicy LookupHost e req policy = Ok (targets, ports) ->
  Scope_Enabled policy = true /\
  Z.of_nat (length targets) <= Scope_MaxTargets policy <= Config_MaxTargets (v_cfg e) /\
  NoDup (Target_Address <$> targets) /\
  (forall t, t ∈ targets -> exists a cidr n, Target_Address t = Addr_String a /\ addr_ok a /\ cidr ∈ Scope_AllowedCIDRs policy /\
    ParseCIDR (TrimSpace cidr) = Some n /\ IPNet_Contains n (AsSlice a) = true) /\
  (forall k, k ∈ Target_Address <$> targets <-> exists r a, r ∈ Request_Targets req /\ k = Addr_String a /\ addr_ok a /\ denotes r a) /\
  Sorted Z.lt ports /\
  (forall p, p ∈ ports -> p ∈ Scope_AllowedPorts policy /\ 1 <= p <= 65535) /\
  (forall p, p ∈ ports <-> if decide (Request_Ports req = []) then p ∈ Scope_AllowedPorts policy else p ∈ Request_Ports req).
Proof.
  intros H. unfold ValidateWithPolicy in H. destruct (policyValidator e policy) as [v|] eqn:Ev; [|done].
  unfold policyValidator in Ev. apply reject_ok in Ev as [He Ev]. apply reject_ok in Ev as [Ht Ev]. apply reject_ok in Ev as [_ Ev].
  destruct (parse_networks _ _) as [ns|] eqn:En; [|done]. apply reject_ok in Ev as [_ Ev]. apply reject_ok in Ev as [Hp Ev].
  apply reject_ok in Ev as [_ [= <-]]. apply Validate_spec in H as (Hl & Hnd & Hf & K & Hsp & Hin & Hports). simpl in *.
  setoid_rewrite elem_of_list_to_set in Hin.
  apply negb_false_iff in He, Hp. apply orb_false_iff in Ht as [Ht1 Ht2]. rewrite forallb_forall in Hp.
  split; [done|]. split; [lia|]. split; [done|]. split; [|split; [done|split; [done|split]]].
  - intros t Hin_t. rewrite Forall_forall in Hf. destruct (Hf t Hin_t) as (a & Ha & _ & E & Hal).
    unfold allowed in Hal. apply existsb_exists in Hal as (n & Hn & Hc). simpl in Hn.
    destruct (parse_networks_in _ _ _ n En Hn) as (cidr & Hcidr & Hparse). by exists a, cidr, n.
  - intros p Hip. split; [by apply Hin|]. specialize (Hp p (proj1 (list_elem_of_In _ _) (Hin p Hip))). unfold in_range in Hp. lia.
  - intros p. rewrite Hports. destruct (decide _); [apply elem_of_list_to_set|done].
Qed.
End Denotation.

(** * Examples *)

(** The networks and ports of the configuration do not limit a scope policy:
    only its numbers of targets and of concurrent checks do. *)
Theorem environment_networks_not_capped :
  let cfg := mkConfig ["10.0.0.0/8"] {[ 22 ]} 256 32 16 1000 in
  let policy := mkScopePolicy "wide" "Wide" ["8.8.8.8/32"] [25] 1 1 true in
  match new_validator cfg with
  | Ok e =>
      ValidatePolicy e policy = Ok tt /\
      ValidateWithPolicy sample_lookup e (mkScanRequest "" ["8.8.8.8"] [] "") policy = Ok ([Build_Target "8.8.8.8" "8.8.8.8" []], [25]) /\
      allowed e (IP4 0x08080808) = false /\ 25 ∉ Config_AllowedPorts (v_cfg e)
  | Err _ => False
  end.
Proof. vm_compute. repeat split. by intros ?. Qed.

Lemma admitted_scan_confined_witness :
  exists e, new_validator sample_config = Ok e /\ 443 ∈ Scope_AllowedPorts sample_scope /\
    Z.of_nat (length ["10.1.0.1"; "10.1.0.2"]) <= Scope_MaxTargets sample_scope.
Proof.
  destruct (new_validator sample_config) as [e|] eqn:He; [|exfalso; revert He; vm_compute; discriminate].
  exists e. split; [done|].
  assert (H : ValidateWithPolicy sample_lookup e (mkScanRequest "" ["10.1.0.0/30"] [443] "") sample_scope =
    Ok ([Build_Target "10.1.0.0/30" "10.1.0.1" []; Build_Target "10.1.0.0/30" "10.1.0.2" []], [443])).
  { vm_compute in He. injection He as <-. vm_compute. reflexivity. }
  pose proof (admitted_scan_confined sample_lookup e _ _ _ _ H) as (_ & [Hl _] & _ & _ & _ & _ & Hp & _).
  split; [apply (Hp 443); by left|exact Hl].
Defined.

Lemma expansion_total_witness :
  is_Some (prefix_loop 12 (mkValidator (mkConfig [] ∅ 8 1 1 1) []) "fd00::/8" (Masked (Build_Prefix (Addr6 (0xfd * 2 ^ 120) "") 8)) false
    (PrefixAddr (Masked (Build_Prefix (Addr6 (0xfd * 2 ^ 120) "") 8))) ([], ∅)).
Proof.
  set (e := mkValidator (mkConfig [] ∅ 8 1 1 1) []).
  assert (H0 : expansion_ok e ([], ∅)) by (split; [done|]; split; [constructor|]; split; [simpl; lia|constructor]).
  assert (Hf : (Z.to_nat (Config_MaxTargets (v_cfg e)) + 4 <= 12)%nat) by (vm_compute; lia).
  assert (Hp : ParsePrefix "fd00::/8" = Some (Build_Prefix (Addr6 (0xfd * 2 ^ 120) "") 8)) by (vm_compute; reflexivity).
  exact (proj1 (expansion_total e "fd00::/8" ([], ∅) 12 H0 Hf) "fd00::/8" _ false Hp).
Defined.
