(* ===== verification/AssetStore.v ===== *)
(** The asset inventory: internal/store/asset.go, asset_service.go,
    asset_merge.go, the groups of asset_group.go and endpoint_coverage.go, one
    definition per statement or transaction. Columns that hold timestamps hold
    text, which the statements compare. *)
From Stdlib Require Import ZArith Lia String Ascii.
From stdpp Require Import base tactics list strings gmap sets.
From S2P Require Import Prelude GoStrings GoTime Netip NetAddr NetworkPolicy WorkerModel Sql ScanModel.
Open Scope string_scope.
Open Scope Z_scope.

Definition ErrAssetNotFound : error := "asset not found".
Definition ErrInvalidAssetLifecycle : error := "invalid asset lifecycle status".
(** A violated constraint. *)
Definition ErrConstraint : error := "constraint failed".

(** * Tables *)

Definition AgentEligibilityStatus := string.
Definition AgentEligibilityUnknown : AgentEligibilityStatus := "unknown".
Definition AgentEligibilityEligible : AgentEligibilityStatus := "eligible".
Definition AgentEligibilityIneligible : AgentEligibilityStatus := "ineligible".

Definition AssetLifecycleStatus := string.
Definition AssetActive : AssetLifecycleStatus := "active".
Definition AssetStale : AssetLifecycleStatus := "stale".
Definition AssetRetired : AssetLifecycleStatus := "retired".

Record AssetRow := mkAssetRow {
  as_id : string; as_name : string; as_address : string; as_first_seen : string; as_last_seen : string; as_last_scan_id : string;
  as_owner : string; as_environment : string; as_classification : string;
  as_lifecycle_status : AssetLifecycleStatus; as_retired_at : option string; as_retired_by : string; as_retirement_reason : string;
  as_eligibility : AgentEligibilityStatus; as_eligibility_reason : string; as_eligibility_by : string; as_eligibility_at : option string }.

Record AddressRow := mkAddressRow {
  ad_asset : string; ad_address : string; ad_first_seen : string; ad_last_seen : string; ad_last_scan_id : string }.

Record NameRow := mkNameRow { na_asset : string; na_name : string; na_normalized : string }.

Definition AssetServiceState := string.
Definition AssetServiceObserved : AssetServiceState := "observed".
Definition AssetServiceNotObserved : AssetServiceState := "not_observed".
Definition AssetServiceStale : AssetServiceState := "stale".

Record ServiceRow := mkServiceRow {
  sv_asset : string; sv_address : string; sv_port : Z; sv_protocol : string; sv_product : string; sv_version : string;
  sv_confidence : string; sv_state : AssetServiceState; sv_first_seen : string; sv_last_seen : string; sv_last_checked : string;
  sv_last_scan_id : string; sv_count : Z }.

Definition EvidenceSourceType := string.
Definition EvidenceSourceScanner : EvidenceSourceType := "scanner".
Definition EvidenceSourceEndpoint : EvidenceSourceType := "endpoint".

Record ServiceEventRow := mkServiceEventRow {
  ev_observation : string; ev_asset : string; ev_scan : string; ev_address : string; ev_port : Z; ev_protocol : string;
  ev_product : string; ev_version : string; ev_confidence : string; ev_observed_at : string;
  ev_findings : list string; ev_cves : list string; ev_source_type : EvidenceSourceType; ev_source_id : string }.

Record AssetEvidence := mkAssetEvidence {
  ae_id : string; ae_asset : string; ae_scan : string; ae_address : string; ae_summary : string;
  ae_source_type : EvidenceSourceType; ae_source_id : string; ae_record_type : string; ae_record_id : string; ae_collected_at : Time }.

Record MemberRow := mkMemberRow { gm_group : string; gm_asset : string; gm_added_at : string; gm_added_by : string }.

(** The columns of endpoints and of scanner_worker_jobs that the inventory reads or writes. *)
Record EndpointLink := mkEndpointLink { el_endpoint : string; el_status : string; el_asset : option string }.
Record JobSource := mkJobSource { js_scan : string; js_worker : string; js_created_at : string }.

Record AssetDb := mkAssetDb {
  adb_assets : list AssetRow; adb_addresses : list AddressRow; adb_names : list NameRow; adb_services : list ServiceRow;
  adb_events : list ServiceEventRow; adb_evidence : list AssetEvidence; adb_members : list MemberRow;
  adb_endpoints : list EndpointLink; adb_jobs : list JobSource; adb_stale_after_days : Z }.

Definition set_assets (x : list AssetRow) (db : AssetDb) : AssetDb :=
  mkAssetDb x (adb_addresses db) (adb_names db) (adb_services db) (adb_events db) (adb_evidence db) (adb_members db) (adb_endpoints db) (adb_jobs db) (adb_stale_after_days db).
Definition set_addresses (x : list AddressRow) (db : AssetDb) : AssetDb :=
  mkAssetDb (adb_assets db) x (adb_names db) (adb_services db) (adb_events db) (adb_evidence db) (adb_members db) (adb_endpoints db) (adb_jobs db) (adb_stale_after_days db).
Definition set_names (x : list NameRow) (db : AssetDb) : AssetDb :=
  mkAssetDb (adb_assets db) (adb_addresses db) x (adb_services db) (adb_events db) (adb_evidence db) (adb_members db) (adb_endpoints db) (adb_jobs db) (adb_stale_after_days db).
Definition set_services (x : list ServiceRow) (db : AssetDb) : AssetDb :=
  mkAssetDb (adb_assets db) (adb_addresses db) (adb_names db) x (adb_events db) (adb_evidence db) (adb_members db) (adb_endpoints db) (adb_jobs db) (adb_stale_after_days db).
Definition set_events (x : list ServiceEventRow) (db : AssetDb) : AssetDb :=
  mkAssetDb (adb_assets db) (adb_addresses db) (adb_names db) (adb_services db) x (adb_evidence db) (adb_members db) (adb_endpoints db) (adb_jobs db) (adb_stale_after_days db).
Definition set_asset_evidence (x : list AssetEvidence) (db : AssetDb) : AssetDb :=
  mkAssetDb (adb_assets db) (adb_addresses db) (adb_names db) (adb_services db) (adb_events db) x (adb_members db) (adb_endpoints db) (adb_jobs db) (adb_stale_after_days db).
Definition set_members (x : list MemberRow) (db : AssetDb) : AssetDb :=
  mkAssetDb (adb_assets db) (adb_addresses db) (adb_names db) (adb_services db) (adb_events db) (adb_evidence db) x (adb_endpoints db) (adb_jobs db) (adb_stale_after_days db).
Definition set_endpoint_links (x : list EndpointLink) (db : AssetDb) : AssetDb :=
  mkAssetDb (adb_assets db) (adb_addresses db) (adb_names db) (adb_services db) (adb_events db) (adb_evidence db) (adb_members db) x (adb_jobs db) (adb_stale_after_days db).
Definition set_stale_after_days (x : Z) (db : AssetDb) : AssetDb :=
  mkAssetDb (adb_assets db) (adb_addresses db) (adb_names db) (adb_services db) (adb_events db) (adb_evidence db) (adb_members db) (adb_endpoints db) (adb_jobs db) x.

(** SQL's MAX and MIN of two texts. *)
Definition max_text (a b : string) : string := if str_ltb a b then b else a.
Definition min_text (a b : string) : string := if str_ltb b a then b else a.

(** * asset.go: names and correlation *)

Definition validDNSLabel (label : string) : bool :=
  negb (bool_decide (label = "") || (63 <? strlen label) || has_prefix "-" label || has_prefix "-" (str_rev label)) &&
  str_forall (fun c => ((97 <=? byte_val c) && (byte_val c <=? 122)) || ((48 <=? byte_val c) && (byte_val c <=? 57)) || Ascii.eqb c "-") label.

Definition normalizedAssetName (value : string) : string :=
  let name := TrimSuffixByte "." (ToLower (TrimSpace value)) in
  if bool_decide (name = "") || lacks "." name then ""
  else match ParseAddr name with
  | Some _ => ""
  | None =>
      match ParsePrefix name with
      | Some _ => ""
      | None => if forallb validDNSLabel (split_byte "." name) then name else ""
      end
  end.

Definition address_is (address : string) (r : AddressRow) : bool := bool_decide (ad_address r = address).
Definition name_is (normalized : string) (r : NameRow) : bool := bool_decide (na_normalized r = normalized).
Definition asset_is (id : string) (r : AssetRow) : bool := bool_decide (as_id r = id).

(** The two queries of [lookupAssetID]; the empty string when no row matches. *)
Definition lookupAddress (address : string) (db : AssetDb) : string :=
  match query_row (address_is address) (adb_addresses db) with Some r => ad_asset r | None => "" end.
Definition lookupName (normalized : string) (db : AssetDb) : string :=
  match query_row (name_is normalized) (adb_names db) with Some r => na_asset r | None => "" end.

Definition correlatedAssetID (address normalizedName : string) (db : AssetDb) : string :=
  let addressID := lookupAddress address db in
  if bool_decide (normalizedName = "") then addressID
  else if negb (bool_decide (addressID = "")) then addressID
  else lookupName normalizedName db.

Definition completedOrCreatedAt (scan : Scan) : Time := default (Scan_CreatedAt scan) (Scan_CompletedAt scan).

(** [INSERT INTO assets ... ON CONFLICT(id) DO UPDATE ... WHERE excluded.last_seen >= assets.last_seen];
    the
    conflict on the identifier is looked for first, and an address that another
    asset has violates the table's UNIQUE. *)
Definition upsert_asset (id name address seen scanID : string) (db : AssetDb) : result AssetDb :=
  match query_row (asset_is id) (adb_assets db) with
  | Some _ =>
      Ok (set_assets (update_where (fun r => asset_is id r && str_leb (as_last_seen r) seen)
        (fun r => mkAssetRow (as_id r) name (as_address r) (as_first_seen r) seen scanID (as_owner r) (as_environment r) (as_classification r)
           (as_lifecycle_status r) (as_retired_at r) (as_retired_by r) (as_retirement_reason r)
           (as_eligibility r) (as_eligibility_reason r) (as_eligibility_by r) (as_eligibility_at r)) (adb_assets db)) db)
  | None =>
      if existsb (fun r => bool_decide (as_address r = address)) (adb_assets db) then Err ErrConstraint
      else Ok (set_assets (adb_assets db ++ [mkAssetRow id name address seen seen scanID "" "" "" AssetActive None "" "" AgentEligibilityUnknown "" "" None]) db)
  end.

Definition upsertAssetAddress (id address seen scanID : string) (db : AssetDb) : AssetDb :=
  match query_row (address_is address) (adb_addresses db) with
  | None => set_addresses (adb_addresses db ++ [mkAddressRow id address seen seen scanID]) db
  | Some _ =>
      set_addresses (update_where (fun r => address_is address r && bool_decide (ad_asset r = id) && str_leb (ad_last_seen r) seen)
        (fun r => mkAddressRow (ad_asset r) (ad_address r) (ad_first_seen r) seen scanID) (adb_addresses db)) db
  end.

Definition addAssetName (id name normalized : string) (db : AssetDb) : AssetDb :=
  if bool_decide (normalized = "") then db
  else match query_row (name_is normalized) (adb_names db) with
  | Some _ => db
  | None => set_names (adb_names db ++ [mkNameRow id name normalized]) db
  end.

(** hex.EncodeToString *)
Fixpoint EncodeToString (bytes : string) : string :=
  match bytes with
  | EmptyString => ""
  | String c rest => String (hex_char (byte_val c / 16)) (String (hex_char (byte_val c mod 16)) (EncodeToString rest))
  end.

Definition assetIDBytes : Z := 16.

Section Hash.
(** sha256.Sum256 of crypto/sha256. *)
Context (Sum256 : string -> string).

Definition assetIDForAddress (address : string) : string := EncodeToString (substring 0 (Z.to_nat assetIDBytes) (Sum256 address)).

Definition upsertObservationAsset (scan : Scan) (db : AssetDb) (o : ServiceObservation) : result AssetDb :=
  let observedAt := if IsZero (Observation_ObservedAt o) then completedOrCreatedAt scan else Observation_ObservedAt o in
  let seen := formatTime observedAt in
  let normalizedName := normalizedAssetName (Observation_Target o) in
  let correlated := correlatedAssetID (Observation_Address o) normalizedName db in
  let assetID := if bool_decide (correlated = "") then assetIDForAddress (Observation_Address o) else correlated in
  match upsert_asset assetID (Observation_Target o) (Observation_Address o) seen (Scan_ID scan) db with
  | Err e => Err e
  | Ok db1 => Ok (addAssetName assetID (Observation_Target o) normalizedName (upsertAssetAddress assetID (Observation_Address o) seen (Scan_ID scan) db1))
  end.

Definition upsertScanAssets (scan : Scan) (db : AssetDb) : result AssetDb :=
  if negb (bool_decide (Scan_Status scan = StatusCompleted)) then Ok db
  else for_each (upsertObservationAsset scan) db (Scan_Observations scan).
End Hash.

(** * asset_service.go *)

Definition assetServiceStaleAfter : Duration := 30 * 24 * Hour.
Definition localScannerSourceID : string := "scanner/local".
Definition evidenceIdentityLimit : Z := 200.
Definition evidenceSummaryLimit : Z := 1000.

Definition scannerEvidenceSourceID (scanID : string) (db : AssetDb) : string :=
  match query_first (fun j => bool_decide (js_scan j = scanID)) (fun j j' => str_ltb (js_created_at j') (js_created_at j)) (adb_jobs db) with
  | None => localScannerSourceID
  | Some j => "scanner-worker/" +:+ js_worker j
  end.

(** [UPDATE asset_services SET state='not_observed' ... WHERE address=? AND port=? AND last_checked<=?] *)
Definition mark_not_observed (scanID checkedAt address : string) (port : Z) (services : list ServiceRow) : list ServiceRow :=
  update_where (fun r => bool_decide (sv_address r = address) && (sv_port r =? port) && str_leb (sv_last_checked r) checkedAt)
    (fun r => mkServiceRow (sv_asset r) (sv_address r) (sv_port r) (sv_protocol r) (sv_product r) (sv_version r) (sv_confidence r)
       AssetServiceNotObserved (sv_first_seen r) (sv_last_seen r) checkedAt scanID (sv_count r)) services.

Definition service_key (asset address : string) (port : Z) (protocol : string) (r : ServiceRow) : bool :=
  bool_decide (sv_asset r = asset) && bool_decide (sv_address r = address) && (sv_port r =? port) && bool_decide (sv_protocol r = protocol).
Definition same_service (x r : ServiceRow) : bool := service_key (sv_asset x) (sv_address x) (sv_port x) (sv_protocol x) r.

(** The [DO UPDATE] of an observation: the newer check decides, the count grows by [increment]. *)
Definition observe_service (x : ServiceRow) (increment : Z) (r : ServiceRow) : ServiceRow :=
  let newer := str_leb (sv_last_checked r) (sv_last_checked x) in
  mkServiceRow (sv_asset r) (sv_address r) (sv_port r) (sv_protocol r)
    (if newer then sv_product x else sv_product r) (if newer then sv_version x else sv_version r)
    (if newer then sv_confidence x else sv_confidence r) (if newer then AssetServiceObserved else sv_state r)
    (sv_first_seen r) (max_text (sv_last_seen r) (sv_last_seen x)) (max_text (sv_last_checked r) (sv_last_checked x))
    (if newer then sv_last_scan_id x else sv_last_scan_id r) (sv_count r + increment).

Definition upsert_service (x : ServiceRow) (increment : Z) (services : list ServiceRow) : list ServiceRow :=
  match query_row (same_service x) services with
  | None => services ++ [x]
  | Some _ => update_where (same_service x) (observe_service x increment) services
  end.

(** [ON CONFLICT(source_type,source_id,record_type,record_id) DO NOTHING]; the
    identifier is the primary key and the asset a foreign key. *)
Definition same_record (x e : AssetEvidence) : bool :=
  bool_decide (ae_source_type e = ae_source_type x) && bool_decide (ae_source_id e = ae_source_id x) &&
  bool_decide (ae_record_type e = ae_record_type x) && bool_decide (ae_record_id e = ae_record_id x).
Definition insertAssetEvidence (x : AssetEvidence) (db : AssetDb) : result AssetDb :=
  if existsb (same_record x) (adb_evidence db) then Ok db
  else if existsb (fun e => bool_decide (ae_id e = ae_id x)) (adb_evidence db) then Err ErrConstraint
  else if negb (existsb (asset_is (ae_asset x)) (adb_assets db)) then Err ErrConstraint
  else Ok (set_asset_evidence (adb_evidence db ++ [x]) db).

Definition observation_evidence (scan : Scan) (assetID sourceID : string) (collectedAt : Time) (o : ServiceObservation) : AssetEvidence :=
  mkAssetEvidence ("scanner:" +:+ Observation_ID o) assetID (Scan_ID scan) (Observation_Address o)
    (Observation_Protocol o +:+ " service observed on port " +:+ append_int (Observation_Port o) 0)
    EvidenceSourceScanner sourceID "service_observation" (Observation_ID o) collectedAt.

Definition service_event (scan : Scan) (assetID sourceID : string) (collectedAt : Time) (o : ServiceObservation) : ServiceEventRow :=
  mkServiceEventRow (Observation_ID o) assetID (Scan_ID scan) (Observation_Address o) (Observation_Port o) (Observation_Protocol o)
    (Observation_Product o) (Observation_Version o) (Observation_Confidence o) (formatTime collectedAt)
    (Finding_ID <$> List.filter (fun f => bool_decide (Finding_Address f = Observation_Address o) && (Finding_Port f =? Observation_Port o)) (Scan_Findings scan))
    (Match_CVEID <$> List.filter (fun m => bool_decide (Match_ObservationID m = Observation_ID o)) (Scan_CVEMatches scan))
    EvidenceSourceScanner sourceID.

Definition service_row (scan : Scan) (assetID : string) (collectedAt checkedAt : Time) (o : ServiceObservation) : ServiceRow :=
  mkServiceRow assetID (Observation_Address o) (Observation_Port o) (Observation_Protocol o) (Observation_Product o) (Observation_Version o)
    (Observation_Confidence o) AssetServiceObserved (formatTime collectedAt) (formatTime collectedAt) (formatTime checkedAt) (Scan_ID scan) 1.

Definition recordAssetServiceObservation (scan : Scan) (checkedAt : Time) (sourceID : string) (db : AssetDb) (o : ServiceObservation)
  : result AssetDb :=
  let assetID := lookupAddress (Observation_Address o) db in
  if bool_decide (assetID = "") then Ok db
  else
    let collectedAt := if IsZero (Observation_ObservedAt o) then checkedAt else Observation_ObservedAt o in
    let known := existsb (fun e => bool_decide (ev_observation e = Observation_ID o)) (adb_events db) in
    let db1 := if known then db else set_events (adb_events db ++ [service_event scan assetID sourceID collectedAt o])%list db in
    let db2 := set_services (upsert_service (service_row scan assetID collectedAt checkedAt o) (if known then 0 else 1) (adb_services db1)) db1 in
    insertAssetEvidence (observation_evidence scan assetID sourceID collectedAt o) db2.

Definition updateAssetServiceHistory (scan : Scan) (db : AssetDb) : result AssetDb :=
  if negb (bool_decide (Scan_Status scan = StatusCompleted)) then Ok db
  else
    let checkedAt := completedOrCreatedAt scan in
    let marked := fold_left (fun services t =>
      fold_left (fun services port => mark_not_observed (Scan_ID scan) (formatTime checkedAt) (Target_Address t) port services)
        (Scan_Ports scan) services) (Scan_Targets scan) (adb_services db) in
    for_each (recordAssetServiceObservation scan checkedAt (scannerEvidenceSourceID (Scan_ID scan) db)) (set_services marked db) (Scan_Observations scan).

Definition validateAssetEvidence (e : AssetEvidence) : result unit :=
  reject bool_decide (ae_id e = "") || bool_decide (ae_asset e = "") || bool_decide (ae_source_id e = "") || bool_decide (ae_record_type e = "") ||
         bool_decide (ae_record_id e = "") || IsZero (ae_collected_at e) as "asset evidence identity and collection time are required" ;;
  reject negb (bool_decide (ae_source_type e = EvidenceSourceScanner)) && negb (bool_decide (ae_source_type e = EvidenceSourceEndpoint))
    as "asset evidence source type is invalid" ;;
  reject (evidenceIdentityLimit <? strlen (ae_id e)) || (evidenceIdentityLimit <? strlen (ae_asset e)) ||
         (evidenceIdentityLimit <? strlen (ae_source_id e)) || (evidenceIdentityLimit <? strlen (ae_record_type e)) ||
         (evidenceIdentityLimit <? strlen (ae_record_id e)) || (evidenceSummaryLimit <? strlen (ae_summary e))
    as "asset evidence fields exceed their limits" ;;
  Ok tt.

(** A transaction: its changes are kept when it succeeds. *)
Definition transaction {S} (body : S -> result S) : st S unit := fun s =>
  match body s with Ok s' => (Ok tt, s') | Err e => (Err e, s) end.

Definition RecordAssetEvidence (e : AssetEvidence) : st AssetDb unit := fun db =>
  match validateAssetEvidence e with
  | Err err => (Err err, db)
  | Ok _ => transaction (insertAssetEvidence e) db
  end.

(** The state a service is shown with: an observation that was not checked for
    thirty days is stale ([loadAssetServices]). *)
Definition shown_service_state (now : Time) (r : ServiceRow) : AssetServiceState :=
  let checked := default ZeroTime (parseTime (sv_last_checked r)) in
  if bool_decide (sv_state r = AssetServiceObserved) && (assetServiceStaleAfter <=? Sub now checked) then AssetServiceStale else sv_state r.

(** * asset.go: updates *)

Definition update_asset (id : string) (f : AssetRow -> AssetRow) : st AssetDb unit :=
  transaction (fun db =>
    if negb (affected (asset_is id) (adb_assets db) =? 1) then Err ErrAssetNotFound
    else Ok (set_assets (update_where (asset_is id) f (adb_assets db)) db)).

Definition UpdateAssetMetadata (id owner environment classification : string) : st AssetDb unit :=
  update_asset id (fun r => mkAssetRow (as_id r) (as_name r) (as_address r) (as_first_seen r) (as_last_seen r) (as_last_scan_id r)
    owner environment classification (as_lifecycle_status r) (as_retired_at r) (as_retired_by r) (as_retirement_reason r)
    (as_eligibility r) (as_eligibility_reason r) (as_eligibility_by r) (as_eligibility_at r)).

(** The column's CHECK admits the three statuses; an update that matches no row violates nothing. *)
Definition UpdateAssetAgentEligibility (id : string) (status : AgentEligibilityStatus) (reason actor : string) (at_ : Time) : st AssetDb unit := fun db =>
  if existsb (asset_is id) (adb_assets db) &&
     negb (existsb (fun s => bool_decide (s = status)) [AgentEligibilityUnknown; AgentEligibilityEligible; AgentEligibilityIneligible])
  then (Err ErrConstraint, db)
  else update_asset id (fun r => mkAssetRow (as_id r) (as_name r) (as_address r) (as_first_seen r) (as_last_seen r) (as_last_scan_id r)
    (as_owner r) (as_environment r) (as_classification r) (as_lifecycle_status r) (as_retired_at r) (as_retired_by r) (as_retirement_reason r)
    status reason actor (Some (formatTime at_))) db.

Definition UpdateAssetLifecycle (id : string) (status : AssetLifecycleStatus) (reason actor : string) (at_ : Time) : st AssetDb unit := fun db =>
  if negb (bool_decide (status = AssetActive)) && negb (bool_decide (status = AssetRetired)) then (Err ErrInvalidAssetLifecycle, db)
  else
    let '(retiredAt, by_, why) := if bool_decide (status = AssetRetired) then (Some (formatTime at_), actor, reason) else (None, "", "") in
    update_asset id (fun r => mkAssetRow (as_id r) (as_name r) (as_address r) (as_first_seen r) (as_last_seen r) (as_last_scan_id r)
      (as_owner r) (as_environment r) (as_classification r) status retiredAt by_ why
      (as_eligibility r) (as_eligibility_reason r) (as_eligibility_by r) (as_eligibility_at r)) db.

Definition minimumAssetStaleDays : Z := 1.
Definition maximumAssetStaleDays : Z := 3650.
Definition UpdateAssetAgingSettings (days : Z) : st AssetDb unit := fun db =>
  if (days <? minimumAssetStaleDays) || (maximumAssetStaleDays <? days) then (Err "asset stale threshold is out of range", db)
  else (Ok tt, set_stale_after_days days db).

(** The lifecycle status an asset is listed with ([ListAssets]). *)
Definition shown_lifecycle (db : AssetDb) (now : Time) (r : AssetRow) : AssetLifecycleStatus :=
  let seen := default ZeroTime (parseTime (as_last_seen r)) in
  if bool_decide (as_lifecycle_status r = AssetActive) && (wrap64 (wrap64 (adb_stale_after_days db * 24) * Hour) <=? Sub now seen)
  then AssetStale else as_lifecycle_status r.

(** [ORDER BY lifecycle_status,last_seen DESC,name] *)
Definition asset_before (a b : AssetRow) : bool :=
  str_ltb (as_lifecycle_status a) (as_lifecycle_status b) ||
  (bool_decide (as_lifecycle_status a = as_lifecycle_status b) &&
   (str_ltb (as_last_seen b) (as_last_seen a) || (bool_decide (as_last_seen a = as_last_seen b) && str_ltb (as_name a) (as_name b)))).

(** An asset with the status it is shown with, its names and its addresses. *)
Record AssetView := mkAssetView {
  view_row : AssetRow; view_status : AssetLifecycleStatus; view_names : list string; view_addresses : list AddressRow }.
Definition ListAssets (now : Time) (db : AssetDb) : list AssetView :=
  (fun r => mkAssetView r (shown_lifecycle db now r)
     (sort_slice str_ltb (na_name <$> select_where (fun n => bool_decide (na_asset n = as_id r)) (adb_names db)))
     (sort_slice (fun a b => str_ltb (ad_address a) (ad_address b)) (select_where (fun a => bool_decide (ad_asset a = as_id r)) (adb_addresses db))))
  <$> sort_slice asset_before (adb_assets db).

(** * asset_merge.go *)

Record AssetMergeRequest := mkMergeRequest {
  merge_survivor : string; merge_merged : string; name_from : string; address_from : string; owner_from : string;
  environment_from : string; classification_from : string; lifecycle_from : string }.

Definition validMergeSources (q : AssetMergeRequest) : bool :=
  let valid id := bool_decide (id = merge_survivor q) || bool_decide (id = merge_merged q) in
  valid (name_from q) && valid (address_from q) && valid (owner_from q) && valid (environment_from q) && valid (classification_from q) && valid (lifecycle_from q).

Definition loadMergeAsset (id : string) (db : AssetDb) : result AssetRow :=
  match query_row (asset_is id) (adb_assets db) with Some r => Ok r | None => Err ErrAssetNotFound end.

Definition mergedAssetTimes (survivor merged : AssetRow) : string * string * string :=
  let firstSeen := if str_ltb (as_first_seen merged) (as_first_seen survivor) then as_first_seen merged else as_first_seen survivor in
  if str_ltb (as_last_seen survivor) (as_last_seen merged)
  then (firstSeen, as_last_seen merged, as_last_scan_id merged)
  else (firstSeen, as_last_seen survivor, as_last_scan_id survivor).

(** The surviving row after the merge; agent eligibility is the survivor's. *)
Definition mergeSelectedAsset (q : AssetMergeRequest) (survivor merged : AssetRow) : AssetRow :=
  let by_id id := if bool_decide (id = as_id merged) then merged else survivor in
  let '(firstSeen, lastSeen, lastScanID) := mergedAssetTimes survivor merged in
  mkAssetRow (as_id survivor) (as_name (by_id (name_from q))) (as_address (by_id (address_from q))) firstSeen lastSeen lastScanID
    (as_owner (by_id (owner_from q))) (as_environment (by_id (environment_from q))) (as_classification (by_id (classification_from q)))
    (as_lifecycle_status (by_id (lifecycle_from q))) (as_retired_at (by_id (lifecycle_from q))) (as_retired_by (by_id (lifecycle_from q)))
    (as_retirement_reason (by_id (lifecycle_from q)))
    (as_eligibility survivor) (as_eligibility_reason survivor) (as_eligibility_by survivor) (as_eligibility_at survivor).

Definition moved (merged survivor id : string) : string := if bool_decide (id = merged) then survivor else id.

(** The group memberships: the survivor joins the merged asset's groups, which the latter leaves. *)
Definition move_members (survivor merged : string) (members : list MemberRow) : list MemberRow :=
  List.filter (fun m => negb (bool_decide (gm_asset m = merged)))
    (fold_left (fun ms m => if existsb (fun x => bool_decide (gm_group x = gm_group m) && bool_decide (gm_asset x = survivor)) ms then ms
                            else ms ++ [mkMemberRow (gm_group m) survivor (gm_added_at m) (gm_added_by m)])%list
       (List.filter (fun m => bool_decide (gm_asset m = merged)) members) members).

Definition transferAssetRelationships (survivor merged : string) (db : AssetDb) : AssetDb :=
  let mv := moved merged survivor in
  mkAssetDb (adb_assets db)
    ((fun r => mkAddressRow (mv (ad_asset r)) (ad_address r) (ad_first_seen r) (ad_last_seen r) (ad_last_scan_id r)) <$> adb_addresses db)
    ((fun r => mkNameRow (mv (na_asset r)) (na_name r) (na_normalized r)) <$> adb_names db)
    (adb_services db)
    ((fun r => mkServiceEventRow (ev_observation r) (mv (ev_asset r)) (ev_scan r) (ev_address r) (ev_port r) (ev_protocol r) (ev_product r)
       (ev_version r) (ev_confidence r) (ev_observed_at r) (ev_findings r) (ev_cves r) (ev_source_type r) (ev_source_id r)) <$> adb_events db)
    ((fun r => mkAssetEvidence (ae_id r) (mv (ae_asset r)) (ae_scan r) (ae_address r) (ae_summary r) (ae_source_type r) (ae_source_id r)
       (ae_record_type r) (ae_record_id r) (ae_collected_at r)) <$> adb_evidence db)
    (move_members survivor merged (adb_members db))
    ((fun r => mkEndpointLink (el_endpoint r) (el_status r) (mv <$> el_asset r)) <$> adb_endpoints db)
    (adb_jobs db) (adb_stale_after_days db).

(** The [DO UPDATE] of a merged service. *)
Definition merge_service (x r : ServiceRow) : ServiceRow :=
  let newer := str_leb (sv_last_checked r) (sv_last_checked x) in
  mkServiceRow (sv_asset r) (sv_address r) (sv_port r) (sv_protocol r)
    (if newer then sv_product x else sv_product r) (if newer then sv_version x else sv_version r)
    (if newer then sv_confidence x else sv_confidence r) (if newer then sv_state x else sv_state r)
    (min_text (sv_first_seen r) (sv_first_seen x)) (max_text (sv_last_seen r) (sv_last_seen x)) (max_text (sv_last_checked r) (sv_last_checked x))
    (if newer then sv_last_scan_id x else sv_last_scan_id r) (sv_count r + sv_count x).

Definition with_asset (id : string) (x : ServiceRow) : ServiceRow :=
  mkServiceRow id (sv_address x) (sv_port x) (sv_protocol x) (sv_product x) (sv_version x) (sv_confidence x) (sv_state x) (sv_first_seen x)
    (sv_last_seen x) (sv_last_checked x) (sv_last_scan_id x) (sv_count x).

Definition insert_merged_service (survivor : string) (services : list ServiceRow) (x : ServiceRow) : list ServiceRow :=
  let x := with_asset survivor x in
  match query_row (same_service x) services with
  | None => services ++ [x]
  | Some _ => update_where (same_service x) (merge_service x) services
  end.

Definition mergeAssetServices (survivor merged : string) (services : list ServiceRow) : list ServiceRow :=
  List.filter (fun r => negb (bool_decide (sv_asset r = merged)))
    (fold_left (insert_merged_service survivor) (select_where (fun r => bool_decide (sv_asset r = merged)) services) services).

(** [UPDATE assets SET ... WHERE id=survivor] after [DELETE FROM assets WHERE id=merged];
    the rows that referred to the merged asset have moved. *)
Definition MergeAssets (q : AssetMergeRequest) : st AssetDb unit := fun db =>
  let survivorID := merge_survivor q in let mergedID := merge_merged q in
  if bool_decide (survivorID = "") || bool_decide (mergedID = "") || bool_decide (survivorID = mergedID) then (Err "two different assets are required", db)
  else if negb (validMergeSources q) then (Err "each selected value must come from one of the merged assets", db)
  else transaction (fun db =>
    match loadMergeAsset survivorID db, loadMergeAsset mergedID db with
    | Ok survivor, Ok merged =>
        let row := mergeSelectedAsset q survivor merged in
        let db1 := transferAssetRelationships survivorID mergedID db in
        let db2 := set_services (mergeAssetServices survivorID mergedID (adb_services db1)) db1 in
        let rest := List.filter (fun r => negb (asset_is mergedID r)) (adb_assets db2) in
        if existsb (fun r => bool_decide (as_address r = as_address row) && negb (asset_is survivorID r)) rest then Err ErrConstraint
        else Ok (set_assets (update_where (asset_is survivorID) (fun _ => row) rest) db2)
    | Err e, _ | _, Err e => Err e
    end) db.

(** * endpoint_coverage.go *)

Definition missingEndpointReason : string := "no active endpoint is linked to this asset".
Record CoverageGap := mkGap { gap_asset : AssetRow; gap_reason : string }.

(** Assets that are neither retired nor ineligible and have no active endpoint. *)
Definition uncovered (db : AssetDb) (a : AssetRow) : bool :=
  negb (bool_decide (as_lifecycle_status a = AssetRetired)) &&
  negb (existsb (fun e => bool_decide (el_asset e = Some (as_id a)) && bool_decide (el_status e = EndpointActive)) (adb_endpoints db)) &&
  negb (bool_decide (as_eligibility a = AgentEligibilityIneligible)).

(** [ORDER BY a.last_seen DESC,a.name,a.id] *)
Definition gap_before (a b : AssetRow) : bool :=
  str_ltb (as_last_seen b) (as_last_seen a) || (bool_decide (as_last_seen a = as_last_seen b) &&
    (str_ltb (as_name a) (as_name b) || (bool_decide (as_name a = as_name b) && str_ltb (as_id a) (as_id b)))).

(** The gaps and the unclassified assets of an enabled report. *)
Definition EndpointCoverageReport (enabled : bool) (db : AssetDb) : list CoverageGap * list CoverageGap :=
  if negb enabled then ([], []) else
  let rows := sort_slice gap_before (select_where (uncovered db) (adb_assets db)) in
  ((fun a => mkGap a missingEndpointReason) <$> List.filter (fun a => bool_decide (as_eligibility a = AgentEligibilityEligible)) rows,
   (fun a => mkGap a "agent eligibility has not been classified") <$> List.filter (fun a => negb (bool_decide (as_eligibility a = AgentEligibilityEligible))) rows).

(** * Reading an asset in detail *)

Record AssetServiceEvent := mkAssetServiceEvent {
  Event_ObservationID : string; Event_ScanID : string; Event_Product : string; Event_Version : string; Event_Confidence : string;
  Event_ObservedAt : Time; Event_FindingIDs : list string; Event_CVEIDs : list string; Event_SourceType : EvidenceSourceType; Event_SourceID : string }.
Record AssetService := mkAssetService {
  Service_Row : ServiceRow; Service_State : AssetServiceState; Service_Events : list AssetServiceEvent }.
Record AssetDetail := mkAssetDetail { Detail_Asset : AssetView; Detail_Services : list AssetService; Detail_Evidence : list AssetEvidence }.

Definition read_event (r : ServiceEventRow) : AssetServiceEvent :=
  mkAssetServiceEvent (ev_observation r) (ev_scan r) (ev_product r) (ev_version r) (ev_confidence r) (default ZeroTime (parseTime (ev_observed_at r)))
    (ev_findings r) (ev_cves r) (ev_source_type r) (ev_source_id r).

Definition loadAssetServiceEvents (assetID : string) (service : ServiceRow) (db : AssetDb) : list AssetServiceEvent :=
  read_event <$> sort_slice (fun a b => str_ltb (ev_observed_at b) (ev_observed_at a))
    (select_where (fun e => bool_decide (ev_asset e = assetID) && bool_decide (ev_address e = sv_address service) && (ev_port e =? sv_port service) &&
       bool_decide (ev_protocol e = sv_protocol service)) (adb_events db)).

(** [ORDER BY state,port,protocol] *)
Definition service_before (a b : ServiceRow) : bool :=
  str_ltb (sv_state a) (sv_state b) || (bool_decide (sv_state a = sv_state b) &&
    ((sv_port a <? sv_port b) || ((sv_port a =? sv_port b) && str_ltb (sv_protocol a) (sv_protocol b)))).

Definition loadAssetServices (assetID : string) (now : Time) (db : AssetDb) : list AssetService :=
  (fun r => mkAssetService r (shown_service_state now r) (loadAssetServiceEvents assetID r db)) <$>
    sort_slice service_before (select_where (fun r => bool_decide (sv_asset r = assetID)) (adb_services db)).

Definition loadAssetEvidence (assetID : string) (db : AssetDb) : list AssetEvidence :=
  sort_slice (fun a b => str_ltb (formatTime (ae_collected_at b)) (formatTime (ae_collected_at a)))
    (select_where (fun e => bool_decide (ae_asset e = assetID)) (adb_evidence db)).

(** [clock] is the time [ListAssets] reads, [now] the caller's. *)
Definition assetDetail (id : string) (clock now : Time) (db : AssetDb) : result AssetDetail :=
  match List.find (fun v => asset_is id (view_row v)) (ListAssets clock db) with
  | None => Err ErrAssetNotFound
  | Some v => Ok (mkAssetDetail v (loadAssetServices id now db) (loadAssetEvidence id db))
  end.
