(* ===== verification/AssetSafety.v ===== *)
(** The invariant of the asset inventory, and what recording a completed scan
    and merging two assets guarantee. *)
From Stdlib Require Import ZArith Lia String Ascii.
From stdpp Require Import base tactics list strings gmap sets.
From S2P Require Import Prelude GoStrings GoTime Netip NetAddr NetworkPolicy WorkerModel Sql ScanModel AssetStore.
Open Scope string_scope.
Open Scope Z_scope.

(** * The invariant *)

(** [address] belongs to the asset [id]. *)
Definition owns (db : AssetDb) (id address : string) : Prop :=
  exists r, r ∈ adb_addresses db /\ ad_address r = address /\ ad_asset r = id.
Definition asset_exists (db : AssetDb) (id : string) : Prop := exists a, a ∈ adb_assets db /\ as_id a = id.

Definition service_ident (r : ServiceRow) : string * string * Z * string := (sv_asset r, sv_address r, sv_port r, sv_protocol r).

Record inventory_ok (db : AssetDb) : Prop := {
  inv_ids : NoDup (as_id <$> adb_assets db);
  inv_addresses : NoDup (ad_address <$> adb_addresses db);
  inv_names : NoDup (na_normalized <$> adb_names db);
  inv_named : forall a, a ∈ adb_assets db -> as_id a <> "" /\ owns db (as_id a) (as_address a) /\ str_leb (as_first_seen a) (as_last_seen a) = true;
  inv_owned : forall r, r ∈ adb_addresses db -> asset_exists db (ad_asset r) /\ str_leb (ad_first_seen r) (ad_last_seen r) = true;
  inv_name_owner : forall r, r ∈ adb_names db -> asset_exists db (na_asset r);
  inv_service_keys : NoDup (service_ident <$> adb_services db);
  inv_services : forall r, r ∈ adb_services db -> owns db (sv_asset r) (sv_address r) /\ str_leb (sv_first_seen r) (sv_last_seen r) = true;
  inv_events : NoDup (ev_observation <$> adb_events db);
  inv_event_owner : forall r, r ∈ adb_events db -> owns db (ev_asset r) (ev_address r);
  inv_evidence_owner : forall r, r ∈ adb_evidence db -> asset_exists db (ae_asset r) }.

(** ** Lookups *)

Lemma lookupAddress_owns db address : inventory_ok db -> lookupAddress address db <> "" -> owns db (lookupAddress address db) address.
Proof.
  intros _. unfold lookupAddress. destruct (query_row _ _) as [r|] eqn:E; [|done]. intros _.
  apply query_row_Some in E as [Hin Hp]. apply bool_decide_eq_true in Hp. by exists r.
Qed.

Lemma owns_lookup db id address : inventory_ok db -> owns db id address -> lookupAddress address db = id.
Proof.
  intros H (r & Hin & <- & <-). unfold lookupAddress, address_is.
  by rewrite (query_row_key ad_address (adb_addresses db) r (inv_addresses db H) Hin).
Qed.

Lemma owns_unique db id id' address : inventory_ok db -> owns db id address -> owns db id' address -> id = id'.
Proof. intros H H1 H2. by rewrite <- (owns_lookup db id address H H1), <- (owns_lookup db id' address H H2). Qed.

Lemma owner_id db r : inventory_ok db -> r ∈ adb_addresses db -> ad_asset r <> "".
Proof. intros H Hr. destruct (inv_owned db H r Hr) as [(a & Ha & <-) _]. by destruct (inv_named db H a Ha). Qed.

Lemma lookupAddress_none db address : inventory_ok db -> lookupAddress address db = "" -> query_row (address_is address) (adb_addresses db) = None.
Proof.
  intros H. unfold lookupAddress. destruct (query_row _ _) as [r|] eqn:E; [|done]. apply query_row_Some in E as [Hin _].
  intros E'. by apply owner_id in Hin.
Qed.

Lemma lookupName_exists db n : inventory_ok db -> lookupName n db <> "" -> asset_exists db (lookupName n db).
Proof.
  intros H. unfold lookupName. destruct (query_row _ _) as [r|] eqn:E; [|done]. apply query_row_Some in E as [Hin _].
  intros _. by apply inv_name_owner.
Qed.

(** * Recording an observation *)

Lemma max_text_ub a b c : str_leb c a = true -> str_leb c (max_text a b) = true.
Proof. unfold max_text. intros H. case_match eqn:E; [|done]. eapply str_leb_trans; [exact H|]. apply str_leb_lt_or_eq. by left. Qed.

Lemma upsert_asset_spec id name address seen scan db db1 : inventory_ok db -> id <> "" ->
  upsert_asset id name address seen scan db = Ok db1 ->
  exists assets, db1 = set_assets assets db /\ NoDup (as_id <$> assets) /\
    (forall x, asset_exists db x -> asset_exists db1 x) /\ asset_exists db1 id /\
    (forall a, a ∈ assets -> str_leb (as_first_seen a) (as_last_seen a) = true /\
      ((exists a0, a0 ∈ adb_assets db /\ as_id a0 = as_id a /\ as_address a0 = as_address a) \/ (as_id a = id /\ as_address a = address))).
Proof.
  intros H Hid Hu. unfold upsert_asset in Hu. destruct (query_row (asset_is id) (adb_assets db)) as [r|] eqn:Eq.
  - injection Hu as <-. eexists. split; [done|]. apply query_row_Some in Eq as [Hr Hp]. apply bool_decide_eq_true in Hp.
    assert (K : forall q f, (forall r, as_id (f r) = as_id r) -> forall x, asset_exists db x -> asset_exists (set_assets (update_where q f (adb_assets db)) db) x).
    { intros q f Hf x (a & Ha & <-). exists (if q a then f a else a). split; [apply elem_of_update_where; by exists a|]. by destruct (q a). }
    split; [by rewrite update_where_key; [apply inv_ids|]|]. split; [by apply K|]. split; [apply K; [done|by exists r]|].
    intros a (a0 & Ha0 & ->)%elem_of_update_where. destruct (inv_named db H a0 Ha0) as (_ & _ & Hle).
    destruct (asset_is id a0 && _) eqn:E; simpl; [|by split; [|left; exists a0]]. apply andb_true_iff in E as [_ E].
    split; [by eapply str_leb_trans|]. left. by exists a0.
  - destruct (existsb _ _) eqn:Ex; [done|]. injection Hu as <-. eexists. split; [done|].
    assert (Hn : forall a, a ∈ adb_assets db -> as_id a <> id).
    { intros a Ha. rewrite query_row_None in Eq. specialize (Eq a Ha). by apply bool_decide_eq_false in Eq. }
    split; [|split; [|split]].
    + rewrite fmap_app, NoDup_app. split; [by apply inv_ids|]. split; [|apply NoDup_singleton].
      intros x (a & -> & Ha)%list_elem_of_fmap. simpl. rewrite list_elem_of_singleton. by apply Hn.
    + intros x (a & Ha & <-). exists a. split; [by apply elem_of_app; left|done].
    + eexists. split; [apply elem_of_app; right; by apply list_elem_of_singleton|done].
    + intros a [Ha|Ha%list_elem_of_singleton]%elem_of_app.
      * destruct (inv_named db H a Ha) as (_ & _ & Hle). split; [done|]. left. by exists a.
      * subst a. split; [apply str_leb_refl|]. by right.
Qed.

Lemma upsertAssetAddress_spec id address seen scan db : NoDup (ad_address <$> adb_addresses db) ->
  (forall r, r ∈ adb_addresses db -> str_leb (ad_first_seen r) (ad_last_seen r) = true) ->
  exists rows, upsertAssetAddress id address seen scan db = set_addresses rows db /\ NoDup (ad_address <$> rows) /\
    (forall i x, owns db i x -> owns (set_addresses rows db) i x) /\
    (query_row (address_is address) (adb_addresses db) = None \/ lookupAddress address db = id -> owns (set_addresses rows db) id address) /\
    (forall r, r ∈ rows -> str_leb (ad_first_seen r) (ad_last_seen r) = true /\
      ((exists r0, r0 ∈ adb_addresses db /\ ad_asset r0 = ad_asset r /\ ad_address r0 = ad_address r) \/ ad_asset r = id)).
Proof.
  intros Hnd Hle. unfold upsertAssetAddress. destruct (query_row (address_is address) (adb_addresses db)) as [r|] eqn:Eq.
  - eexists. split; [done|].
    assert (K : forall q f, (forall r, ad_asset (f r) = ad_asset r /\ ad_address (f r) = ad_address r) ->
      forall i x, owns db i x -> owns (set_addresses (update_where q f (adb_addresses db)) db) i x).
    { intros q f Hf i x (a & Ha & <- & <-). exists (if q a then f a else a).
      split; [apply elem_of_update_where; by exists a|]. destruct (q a); [|done]. by destruct (Hf a). }
    split; [by rewrite update_where_key|]. split; [by apply K|]. split.
    + intros [?|E]; [done|]. apply K; [done|]. unfold lookupAddress in E. rewrite Eq in E.
      apply query_row_Some in Eq as [Hr Hp]. apply bool_decide_eq_true in Hp. by exists r.
    + intros a (a0 & Ha0 & ->)%elem_of_update_where. destruct (_ && _) eqn:E; simpl; [|split; [by apply Hle|left; by exists a0]].
      apply andb_true_iff in E as [_ E]. split; [eapply str_leb_trans; [by apply Hle|done]|]. left. by exists a0.
  - eexists. split; [done|]. rewrite query_row_None in Eq. split; [|split; [|split]].
    + rewrite fmap_app, NoDup_app. split; [done|]. split; [|apply NoDup_singleton].
      intros x (a & -> & Ha)%list_elem_of_fmap. simpl. rewrite list_elem_of_singleton. specialize (Eq a Ha). by apply bool_decide_eq_false in Eq.
    + intros i x (a & Ha & <- & <-). exists a. split; [by apply elem_of_app; left|done].
    + intros _. eexists. split; [apply elem_of_app; right; by apply list_elem_of_singleton|done].
    + intros a [Ha|Ha%list_elem_of_singleton]%elem_of_app; [split; [by apply Hle|left; by exists a]|]. subst a. split; [apply str_leb_refl|]. by right.
Qed.

Section Recording.
Context (Sum256 : string -> string).
Hypothesis Sum256_length : forall text, String.length (Sum256 text) = 32%nat.

Lemma assetID_nonempty address : assetIDForAddress Sum256 address <> "".
Proof using Sum256_length.
  unfold assetIDForAddress. specialize (Sum256_length address). by destruct (Sum256 address).
Qed.

(** The asset an observation is attributed to. *)
Definition attributed (db : AssetDb) (o : ServiceObservation) : string :=
  let correlated := correlatedAssetID (Observation_Address o) (normalizedAssetName (Observation_Target o)) db in
  if bool_decide (correlated = "") then assetIDForAddress Sum256 (Observation_Address o) else correlated.

Lemma correlated_cases db address n : inventory_ok db ->
  let id := correlatedAssetID address n db in
  (lookupAddress address db <> "" /\ id = lookupAddress address db) \/
  (lookupAddress address db = "" /\ (id = "" \/ asset_exists db id)).
Proof.
  intros H. cbv zeta. unfold correlatedAssetID. destruct (decide (lookupAddress address db = "")) as [E|E].
  - right. split; [done|]. rewrite E. case_bool_decide; [by left|]. simpl.
    destruct (decide (lookupName n db = "")); [by left|right]. by apply lookupName_exists.
  - left. split; [done|]. case_bool_decide; [done|]. by rewrite bool_decide_eq_false_2.
Qed.

(** Nothing but the three identity tables changes, no address changes hands, and
    no name does. *)
Record grows (db db' : AssetDb) : Prop := {
  grows_owns : forall i x, owns db i x -> owns db' i x;
  grows_assets : forall i, asset_exists db i -> asset_exists db' i;
  grows_names : forall r, r ∈ adb_names db -> r ∈ adb_names db';
  grows_rest : adb_services db' = adb_services db /\ adb_events db' = adb_events db /\ adb_evidence db' = adb_evidence db /\
    adb_members db' = adb_members db /\ adb_endpoints db' = adb_endpoints db /\ adb_jobs db' = adb_jobs db }.

Lemma upsertObservationAsset_ok scan db o : inventory_ok db ->
  exists db', upsertObservationAsset Sum256 scan db o = Ok db' /\ inventory_ok db' /\ grows db db' /\
    owns db' (attributed db o) (Observation_Address o) /\
    (normalizedAssetName (Observation_Target o) <> "" -> lookupName (normalizedAssetName (Observation_Target o)) db' <> "").
Proof using Sum256_length.
  intros H. unfold upsertObservationAsset. fold (attributed db o). set (id := attributed db o). set (address := Observation_Address o).
  set (seen := formatTime _). set (n := normalizedAssetName (Observation_Target o)).
  assert (Hid : id <> "" /\ (asset_exists db id \/ lookupAddress address db = "") /\ (lookupAddress address db = "" \/ lookupAddress address db = id)).
  { subst id address n. unfold attributed. destruct (correlated_cases db (Observation_Address o) (normalizedAssetName (Observation_Target o)) H) as [[Hne ->]|[Hne Hc]].
    - rewrite bool_decide_eq_false_2 by done. split; [done|]. split; [left|by right].
      destruct (lookupAddress_owns db (Observation_Address o) H Hne) as (r & Hr & _ & <-). by destruct (inv_owned db H r Hr).
    - case_bool_decide as Ec; [split; [apply assetID_nonempty|by split; [right|left]]|].
      split; [done|]. split; [|by left]. left. by destruct Hc. }
  destruct Hid as (Hid & Hex & Hown).
  assert (Hu : exists db1, upsert_asset id (Observation_Target o) address seen (Scan_ID scan) db = Ok db1).
  { unfold upsert_asset. destruct (query_row (asset_is id) (adb_assets db)) as [r|] eqn:Eq; [by eexists|].
    destruct Hex as [(a & Ha & E)|Hex]; [rewrite query_row_None in Eq; specialize (Eq a Ha); by apply bool_decide_eq_false in Eq|].
    destruct (existsb _ _) eqn:Ex; [|by eexists]. apply existsb_exists in Ex as (a & Ha & E). apply bool_decide_eq_true in E.
    apply list_elem_of_In in Ha. destruct (inv_named db H a Ha) as (_ & Hw & _). rewrite E in Hw.
    pose proof (owns_lookup db _ _ H Hw) as El. rewrite Hex in El. destruct (inv_named db H a Ha) as [Hne _]. by rewrite <- El in Hne. }
  destruct Hu as [db1 Hu]. rewrite Hu. eexists. split; [done|].
  destruct (upsert_asset_spec _ _ _ _ _ _ _ H Hid Hu) as (assets & -> & Hids & Hmono & Hidex & Hassets).
  destruct (upsertAssetAddress_spec id address seen (Scan_ID scan) (set_assets assets db) (inv_addresses db H) (fun r Hr => proj2 (inv_owned db H r Hr)))
    as (rows & -> & Hads & Hwmono & Hw & Hrows).
  assert (Hw' : owns (set_addresses rows (set_assets assets db)) id address).
  { apply Hw. destruct Hown as [E|E]; [left|by right]. by apply (lookupAddress_none db address H). }
  clear Hw. set (db2 := set_addresses rows (set_assets assets db)) in *.
  assert (Hnames : exists names, addAssetName id (Observation_Target o) n db2 = set_names names db2 /\ NoDup (na_normalized <$> names) /\
    (forall r, r ∈ adb_names db -> r ∈ names) /\ (forall r, r ∈ names -> r ∈ adb_names db \/ na_asset r = id) /\
    (n <> "" -> exists r, r ∈ names /\ na_normalized r = n)).
  { unfold addAssetName. case_bool_decide as En; [exists (adb_names db); split; [done|]; split; [exact (inv_names db H)|]; naive_solver|].
    destruct (query_row (name_is n) (adb_names db2)) as [r|] eqn:Eq.
    - exists (adb_names db). split; [done|]. split; [exact (inv_names db H)|]. split; [done|]. split; [by left|]. intros _.
      apply query_row_Some in Eq as [Hr Hp]. apply bool_decide_eq_true in Hp. by exists r.
    - eexists. split; [done|]. rewrite query_row_None in Eq. split; [|split; [|split]].
      + rewrite fmap_app, NoDup_app. split; [exact (inv_names db H)|]. split; [|apply NoDup_singleton].
        intros x (a & -> & Ha)%list_elem_of_fmap. simpl. rewrite list_elem_of_singleton. specialize (Eq a Ha). by apply bool_decide_eq_false in Eq.
      + intros r Hr. by apply elem_of_app; left.
      + intros r [Hr|Hr%list_elem_of_singleton]%elem_of_app; [by left|subst r; by right].
      + intros _. eexists. split; [apply elem_of_app; right; by apply list_elem_of_singleton|done]. }
  destruct Hnames as (names & -> & Hnnd & Hnmono & Hnames & Hnew). set (db3 := set_names names db2).
  assert (Howns : forall i x, owns db i x -> owns db3 i x) by (intros i x Hi; by apply Hwmono).
  assert (Hexists : forall i, asset_exists db i -> asset_exists db3 i) by (intros i Hi; by apply Hmono).
  assert (Hok : inventory_ok db3).
  { constructor; try done.
    - intros a Ha. destruct (Hassets a Ha) as [Hle [(a0 & Ha0 & <- & <-)|[-> ->]]].
      + destruct (inv_named db H a0 Ha0) as (Hne & Hown0 & _). split; [done|]. split; [by apply Howns|done].
      + split; [done|]. by split.
    - intros r Hr. destruct (Hrows r Hr) as [Hle [(r0 & Hr0 & <- & _)| ->]]; (split; [|exact Hle]).
      + apply Hexists. by destruct (inv_owned db H r0 Hr0).
      + exact Hidex.
    - intros r Hr. destruct (Hnames r Hr) as [Hr0| ->]; [by apply Hexists, inv_name_owner|by apply Hidex].
    - exact (inv_service_keys db H).
    - intros r Hr. destruct (inv_services db H r Hr) as [? ?]. split; [by apply Howns|done].
    - exact (inv_events db H).
    - intros r Hr. by apply Howns, inv_event_owner.
    - intros r Hr. by apply Hexists, inv_evidence_owner. }
  split; [done|]. split; [by constructor|]. split; [done|].
  intros Hn. destruct (Hnew Hn) as (r & Hr & <-). unfold lookupName, name_is. rewrite (query_row_key na_normalized names r Hnnd Hr).
  destruct (inv_name_owner db3 Hok r Hr) as (a & Ha & <-). by destruct (inv_named db3 Hok a Ha).
Qed.
End Recording.

(** * The service history of a completed scan *)

(** Only services, events and evidence change, and the identities stay. *)
Lemma inventory_history db services events evidence :
  inventory_ok db ->
  NoDup (service_ident <$> services) ->
  (forall r, r ∈ services -> owns db (sv_asset r) (sv_address r) /\ str_leb (sv_first_seen r) (sv_last_seen r) = true) ->
  NoDup (ev_observation <$> events) -> (forall r, r ∈ events -> owns db (ev_asset r) (ev_address r)) ->
  (forall r, r ∈ evidence -> asset_exists db (ae_asset r)) ->
  inventory_ok (set_asset_evidence evidence (set_events events (set_services services db))).
Proof. intros H ? ? ? ? ?. destruct H. by constructor. Qed.

Lemma mark_not_observed_fst scanID checked address port services :
  service_ident <$> mark_not_observed scanID checked address port services = service_ident <$> services.
Proof. by apply update_where_key. Qed.

(** The rows a scan checked: its targets' addresses on its ports. *)
Definition covered (scan : Scan) (r : ServiceRow) : Prop := sv_address r ∈ Target_Address <$> Scan_Targets scan /\ sv_port r ∈ Scan_Ports scan.

Definition mark_ports (scan : Scan) (checked address : string) (services : list ServiceRow) : list ServiceRow :=
  fold_left (fun services port => mark_not_observed (Scan_ID scan) checked address port services) (Scan_Ports scan) services.
Definition mark_all (scan : Scan) (checked : string) (services : list ServiceRow) : list ServiceRow :=
  fold_left (fun services t => mark_ports scan checked (Target_Address t) services) (Scan_Targets scan) services.

(** A row after marking: itself, or not observed in this scan. *)
Definition marked_from (scan : Scan) (checked : string) (r r' : ServiceRow) : Prop :=
  service_ident r' = service_ident r /\ sv_first_seen r' = sv_first_seen r /\ sv_last_seen r' = sv_last_seen r /\
  (r' = r \/ (sv_state r' = AssetServiceNotObserved /\ sv_last_checked r' = checked /\ sv_last_scan_id r' = Scan_ID scan)).

Lemma marked_refl scan checked r : marked_from scan checked r r.
Proof. repeat split. by left. Qed.

Lemma marked_trans scan checked r r' r'' : marked_from scan checked r r' -> marked_from scan checked r' r'' -> marked_from scan checked r r''.
Proof.
  intros (E1 & E2 & E3 & H1) (F1 & F2 & F3 & H2). split; [congruence|]. split; [congruence|]. split; [congruence|].
  destruct H2 as [->|?]; [done|by right].
Qed.

Lemma Forall2_origin {A B} (R : A -> B -> Prop) l l' y : Forall2 R l l' -> y ∈ l' -> exists x, x ∈ l /\ R x y.
Proof.
  induction 1 as [|a b l l' Hab _ IH]; [by intros ?%not_elem_of_nil|].
  intros [->|Hy]%elem_of_cons; [exists a; split; [by left|done]|]. destruct (IH Hy) as (x & ? & ?). exists x. split; [by right|done].
Qed.

Lemma mark_one scan checked address port services :
  Forall2 (fun r r' => marked_from scan checked r r' /\
    (sv_address r = address -> sv_port r = port -> str_leb (sv_last_checked r) checked = true ->
     sv_state r' = AssetServiceNotObserved /\ sv_last_checked r' = checked /\ sv_last_scan_id r' = Scan_ID scan))
    services (mark_not_observed (Scan_ID scan) checked address port services).
Proof.
  unfold mark_not_observed, update_where. induction services as [|r services IH]; simpl; constructor; [|done].
  destruct (_ && _) eqn:E.
  - split; [|done]. repeat split. by right.
  - split; [apply marked_refl|]. intros <- <- H. by rewrite bool_decide_eq_true_2, Z.eqb_refl, H in E.
Qed.

Lemma Forall2_compose {A} (R S T : A -> A -> Prop) l1 l2 l3 :
  Forall2 R l1 l2 -> Forall2 S l2 l3 -> (forall a b c, R a b -> S b c -> T a c) -> Forall2 T l1 l3.
Proof.
  intros H1 H2 H. revert l3 H2. induction H1 as [|a b l1 l2 Hab H1 IH]; intros l3 H2; inversion H2; subst; constructor; [by eapply H|by apply IH].
Qed.

Lemma mark_ports_spec scan checked address services ports :
  Forall2 (fun r r' => marked_from scan checked r r' /\
    (sv_address r = address -> sv_port r ∈ ports -> str_leb (sv_last_checked r) checked = true ->
     sv_state r' = AssetServiceNotObserved /\ sv_last_checked r' = checked /\ sv_last_scan_id r' = Scan_ID scan))
    services (fold_left (fun services port => mark_not_observed (Scan_ID scan) checked address port services) ports services).
Proof.
  revert services. induction ports as [|p ports IH]; intros services; simpl.
  - apply Forall_Forall2_diag, Forall_forall. intros r _. split; [apply marked_refl|]. by intros _ ?%not_elem_of_nil.
  - eapply Forall2_compose; [apply mark_one|apply IH|]. intros r r' r'' [M1 H1] [M2 H2]. split; [by eapply marked_trans|].
    intros Ea Hp Hle. destruct M1 as (E1 & _ & _ & [->|(Es & Ec & Ei)]).
    + apply elem_of_cons in Hp as [Hp|Hp]; [|by apply H2]. destruct (H1 Ea Hp Hle) as (? & ? & ?).
      destruct M2 as (_ & _ & _ & [->|?]); done.
    + destruct M2 as (_ & _ & _ & [->|?]); done.
Qed.

Lemma mark_all_spec scan checked services targets :
  Forall2 (fun r r' => marked_from scan checked r r' /\
    (sv_address r ∈ Target_Address <$> targets -> sv_port r ∈ Scan_Ports scan -> str_leb (sv_last_checked r) checked = true ->
     sv_state r' = AssetServiceNotObserved /\ sv_last_checked r' = checked /\ sv_last_scan_id r' = Scan_ID scan))
    services (fold_left (fun services t => mark_ports scan checked (Target_Address t) services) targets services).
Proof.
  revert services. induction targets as [|t targets IH]; intros services; simpl.
  - apply Forall_Forall2_diag, Forall_forall. intros r _. split; [apply marked_refl|]. by intros ?%not_elem_of_nil.
  - eapply Forall2_compose; [apply mark_ports_spec|apply IH|]. intros r r' r'' [M1 H1] [M2 H2]. split; [by eapply marked_trans|].
    intros Ha Hp Hle. destruct M1 as (E1 & _ & _ & [->|(Es & Ec & Ei)]).
    + apply elem_of_cons in Ha as [Ha|Ha]; [|by apply H2]. destruct (H1 Ha Hp Hle) as (? & ? & ?).
      destruct M2 as (_ & _ & _ & [->|?]); done.
    + destruct M2 as (_ & _ & _ & [->|?]); done.
Qed.

(** ** Observations *)

Lemma same_service_spec x r : same_service x r = true <-> service_ident r = service_ident x.
Proof. unfold same_service, service_key, service_ident. rewrite !andb_true_iff, !bool_decide_eq_true, Z.eqb_eq. split; [intros (((-> & ->) & ->) & ->); done|by intros [= -> -> -> ->]]. Qed.

Lemma upsert_service_spec x increment services : NoDup (service_ident <$> services) -> str_leb (sv_first_seen x) (sv_last_seen x) = true ->
  let services' := upsert_service x increment services in
  NoDup (service_ident <$> services') /\
  forall r', r' ∈ services' ->
    (r' ∈ services /\ service_ident r' <> service_ident x) \/
    (r' = x /\ forall r, r ∈ services -> service_ident r <> service_ident x) \/
    (exists r, r ∈ services /\ service_ident r = service_ident x /\ r' = observe_service x increment r).
Proof.
  intros Hnd Hx. cbv zeta. unfold upsert_service. destruct (query_row (same_service x) services) as [r|] eqn:Eq.
  - split; [by rewrite update_where_key|]. intros r' (r0 & Hr0 & ->)%elem_of_update_where.
    destruct (same_service x r0) eqn:E; [apply same_service_spec in E; right; right; by exists r0|].
    left. split; [done|]. intros E'%same_service_spec. congruence.
  - rewrite query_row_None in Eq. assert (Hn : forall r, r ∈ services -> service_ident r <> service_ident x).
    { intros r Hr E%same_service_spec. by rewrite Eq in E. }
    split.
    + rewrite fmap_app, NoDup_app. split; [done|]. split; [|apply NoDup_singleton].
      intros k (r & -> & Hr)%list_elem_of_fmap. simpl. rewrite list_elem_of_singleton. by apply Hn.
    + intros r' [Hr|Hr%list_elem_of_singleton]%elem_of_app; [left; split; [done|by apply Hn]|right; left; by split].
Qed.

Lemma observe_service_ident x i r : service_ident (observe_service x i r) = service_ident r.
Proof. done. Qed.

(** [o] was observed where the row [r] says. *)
Definition observes (o : ServiceObservation) (r : ServiceRow) : Prop :=
  Observation_Address o = sv_address r /\ Observation_Port o = sv_port r /\ Observation_Protocol o = sv_protocol r.

(** The rows of a scan while its observations are recorded. *)
Definition reflects (scan : Scan) (checked : string) (seen : list ServiceObservation) (r : ServiceRow) : Prop :=
  covered scan r -> sv_last_checked r = checked /\ sv_last_scan_id r = Scan_ID scan /\
    (sv_state r = AssetServiceObserved <-> exists o, o ∈ seen /\ observes o r).
Arguments reflects : simpl never.

(** The two tables an observation extends besides the services. *)
Lemma insertAssetEvidence_spec x db db' : insertAssetEvidence x db = Ok db' ->
  exists rows, db' = set_asset_evidence rows db /\ (forall e, e ∈ rows -> e ∈ adb_evidence db \/ (e = x /\ asset_exists db (ae_asset x))).
Proof.
  unfold insertAssetEvidence. destruct (existsb (same_record x) _); [|destruct (existsb _ (adb_evidence db)); [done|destruct (negb _) eqn:E; [done|]]];
    intros H; injection H as <-.
  - exists (adb_evidence db). destruct db. split; [done|by left].
  - eexists. split; [done|]. intros e [He|He%list_elem_of_singleton]%elem_of_app; [by left|subst e; right]. split; [done|].
    apply negb_false_iff in E. apply existsb_exists in E as (a & Ha%list_elem_of_In & Hp). apply bool_decide_eq_true in Hp. by exists a.
Qed.

Lemma append_event e db : inventory_ok db -> owns db (ev_asset e) (ev_address e) ->
  exists rows, NoDup (ev_observation <$> rows) /\ (forall r, r ∈ rows -> owns db (ev_asset r) (ev_address r)) /\
    (if existsb (fun e' => bool_decide (ev_observation e' = ev_observation e)) (adb_events db) then db else set_events (adb_events db ++ [e])%list db) = set_events rows db.
Proof.
  intros H Hw. destruct (existsb _ _) eqn:Ex.
  - exists (adb_events db). split; [by apply inv_events|]. split; [by apply inv_event_owner|by destruct db].
  - eexists. split; [|split; [|done]].
    + rewrite fmap_app, NoDup_app. split; [by apply inv_events|]. split; [|apply NoDup_singleton].
      intros k (r & -> & Hr%list_elem_of_In)%list_elem_of_fmap. simpl. rewrite list_elem_of_singleton. intros E.
      rewrite (proj2 (existsb_exists _ _)) in Ex; [done|]. exists r. split; [done|]. by apply bool_decide_eq_true.
    + intros r [Hr|Hr%list_elem_of_singleton]%elem_of_app; [by apply inv_event_owner|by subst r].
Qed.

Lemma observes_ident db scan collectedAt checkedAt o r : inventory_ok db -> owns db (sv_asset r) (sv_address r) ->
  observes o r <-> service_ident r = service_ident (service_row scan (lookupAddress (Observation_Address o) db) collectedAt checkedAt o).
Proof.
  intros H Hw. unfold observes, service_ident, service_row; simpl. split.
  - intros (E1 & E2 & E3). rewrite <- E1 in Hw. rewrite (owns_lookup db _ _ H Hw). congruence.
  - intros [= _ E1 E2 E3]. by rewrite E1, E2, E3.
Qed.

Lemma reflects_more scan checked seen o r : ~ observes o r -> reflects scan checked seen r -> reflects scan checked (seen ++ [o])%list r.
Proof.
  intros Hno Hf Hc. destruct (Hf Hc) as (E1 & E2 & E3). split; [done|]. split; [done|]. rewrite E3. split.
  - intros (o' & Ho & Hob). exists o'. split; [by apply elem_of_app; left|done].
  - intros (o' & [Ho|Ho%list_elem_of_singleton]%elem_of_app & Hob); [by exists o'|by subst].
Qed.

Lemma reflects_last scan checked seen o r : observes o r -> sv_last_checked r = checked -> sv_last_scan_id r = Scan_ID scan ->
  sv_state r = AssetServiceObserved -> reflects scan checked (seen ++ [o])%list r.
Proof.
  intros Hob E1 E2 E3 _. split; [done|]. split; [done|]. split; [|done]. intros _. exists o.
  split; [by apply elem_of_app; right; apply list_elem_of_singleton|done].
Qed.

Lemma recordAssetServiceObservation_ok scan checkedAt sourceID seen db o db' : inventory_ok db ->
  recordAssetServiceObservation scan checkedAt sourceID db o = Ok db' ->
  inventory_ok db' /\ (Forall (reflects scan (formatTime checkedAt) seen) (adb_services db) ->
    Forall (reflects scan (formatTime checkedAt) (seen ++ [o])%list) (adb_services db')).
Proof.
  intros H Hr. rewrite Forall_forall. unfold recordAssetServiceObservation in Hr. case_bool_decide as Ea.
  { injection Hr as <-. split; [done|]. intros Hf. apply Forall_forall. intros r Hin. apply reflects_more; [|by apply Hf].
    intros (E & _). destruct (inv_services db H r Hin) as [Hw _]. rewrite <- E in Hw.
    pose proof (owns_lookup db _ _ H Hw) as El. rewrite Ea in El. destruct Hw as (a & Ha & _ & Hid).
    destruct (owner_id db a H Ha). congruence. }
  set (collectedAt := if IsZero (Observation_ObservedAt o) then checkedAt else Observation_ObservedAt o) in *.
  pose proof (lookupAddress_owns db _ H Ea) as Hw. set (x := service_row scan (lookupAddress (Observation_Address o) db) collectedAt checkedAt o) in *.
  destruct (append_event (service_event scan (lookupAddress (Observation_Address o) db) sourceID collectedAt o) db H Hw) as (events & Hev & Hevo & E).
  cbv zeta in Hr. simpl in E. rewrite E in Hr. clear E. apply insertAssetEvidence_spec in Hr as (evidence & -> & Hevid). simpl in Hevid |- *.
  set (n := if existsb _ _ then 0 else 1) in *.
  destruct (upsert_service_spec x n (adb_services db) (inv_service_keys db H) (str_leb_refl _)) as [Hkeys Hrows].
  split.
  - apply (inventory_history db _ _ _ H); try done.
    + intros r Hr. destruct (Hrows r Hr) as [[Hr0 _]|[[-> _]|(r0 & Hr0 & _ & ->)]].
      * by apply inv_services.
      * split; [exact Hw|apply str_leb_refl].
      * destruct (inv_services db H r0 Hr0) as [? ?]. split; [done|]. by apply max_text_ub.
    + intros e He. destruct (Hevid e He) as [?|[-> ?]]; [by apply inv_evidence_owner|done].
  - intros Hf. apply Forall_forall. intros r Hr. destruct (Hrows r Hr) as [[Hr0 Hne]|[[-> _]|(r0 & Hr0 & Heq & ->)]].
    + apply reflects_more; [|by apply Hf]. rewrite (observes_ident db scan collectedAt checkedAt) by (done || by apply inv_services). done.
    + by apply reflects_last.
    + assert (Hob : observes o r0) by (apply (observes_ident db scan collectedAt checkedAt); [done|by apply inv_services|done]).
      intros Hc. destruct (Hf r0 Hr0 Hc) as (E1 & E2 & _).
      assert (El : str_leb (sv_last_checked r0) (sv_last_checked x) = true) by (rewrite E1; apply str_leb_refl).
      apply (reflects_last scan (formatTime checkedAt) seen o); [done| | | |done]; simpl in El |- *; rewrite ?El; [|done|done].
      unfold max_text. rewrite E1. by case_match.
Qed.

Lemma record_observations_ok scan checkedAt sourceID os : forall seen db db', inventory_ok db ->
  for_each (recordAssetServiceObservation scan checkedAt sourceID) db os = Ok db' ->
  inventory_ok db' /\ (Forall (reflects scan (formatTime checkedAt) seen) (adb_services db) ->
    Forall (reflects scan (formatTime checkedAt) (seen ++ os)%list) (adb_services db')).
Proof.
  induction os as [|o os IH]; intros seen db db' H Hr; simpl in Hr.
  - injection Hr as <-. by rewrite app_nil_r.
  - apply bind_ok in Hr as (db1 & Hr1 & Hr2). destruct (recordAssetServiceObservation_ok scan checkedAt sourceID seen db o db1 H Hr1) as (H1 & Hf1).
    destruct (IH (seen ++ [o])%list _ _ H1 Hr2) as [? Hf2]. rewrite <- app_assoc in Hf2. split; [done|]. intros Hf. by apply Hf2, Hf1.
Qed.

Lemma upsertScanAssets_ok Sum256 scan os : (forall text, String.length (Sum256 text) = 32%nat) -> forall db, inventory_ok db ->
  exists db', for_each (upsertObservationAsset Sum256 scan) db os = Ok db' /\ inventory_ok db' /\ grows db db' /\
    Forall (fun o => lookupAddress (Observation_Address o) db' <> "") os.
Proof.
  intros Hid. induction os as [|o os IH]; intros db H; simpl.
  - exists db. split; [done|]. split; [done|]. split; [|done]. by constructor.
  - destruct (upsertObservationAsset_ok Sum256 Hid scan db o H) as (db1 & -> & H1 & G1 & Hw & _). simpl.
    destruct (IH db1 H1) as (db2 & -> & H2 & G2 & Hos). exists db2. split; [done|]. split; [done|]. split.
    + clear Hos. destruct G1 as [a1 b1 c1 (d1 & e1 & f1 & g1 & h1 & i1)], G2 as [a2 b2 c2 (d2 & e2 & f2 & g2 & h2 & i2)].
      constructor; [by auto|by auto|by auto|]. split_and!; congruence.
    + constructor; [|done]. apply (grows_owns _ _ G2) in Hw as Hw2. rewrite (owns_lookup db2 _ _ H2 Hw2).
      destruct Hw2 as (r & Hr & _ & <-). by apply (owner_id db2).
Qed.

(** ** Every observation has its row *)

Lemma upsert_service_has x n services : exists r, r ∈ upsert_service x n services /\ service_ident r = service_ident x.
Proof.
  unfold upsert_service. destruct (query_row _ _) as [r|] eqn:Eq; [|exists x; split; [apply elem_of_app; right; by apply list_elem_of_singleton|done]].
  apply query_row_Some in Eq as [Hr Hp]. exists (observe_service x n r). split; [|by apply same_service_spec in Hp].
  apply elem_of_update_where. exists r. by rewrite Hp.
Qed.

Lemma upsert_service_keeps x n services k : (exists r, r ∈ services /\ service_ident r = k) -> exists r, r ∈ upsert_service x n services /\ service_ident r = k.
Proof.
  intros (r & Hr & <-). unfold upsert_service. destruct (query_row _ _); [|exists r; split; [by apply elem_of_app; left|done]].
  eexists. split; [apply elem_of_update_where; by exists r|]. by destruct (same_service x r).
Qed.

Definition has_service (db : AssetDb) (o : ServiceObservation) : Prop := exists r, r ∈ adb_services db /\ observes o r.

Lemma record_has_service scan checkedAt sourceID db o db' : lookupAddress (Observation_Address o) db <> "" ->
  recordAssetServiceObservation scan checkedAt sourceID db o = Ok db' ->
  has_service db' o /\ (forall o', has_service db o' -> has_service db' o') /\ adb_addresses db' = adb_addresses db.
Proof.
  intros Ha Hr. unfold recordAssetServiceObservation in Hr. rewrite bool_decide_eq_false_2 in Hr by done. cbv zeta in Hr.
  apply insertAssetEvidence_spec in Hr as (evidence & -> & _). unfold has_service; simpl.
  set (n := if existsb _ _ then 0 else 1). set (x := service_row _ _ _ _ o).
  assert (Es : forall e : ServiceEventRow, adb_services (if existsb (fun e => bool_decide (ev_observation e = Observation_ID o)) (adb_events db) then db else set_events (adb_events db ++ [e])%list db) = adb_services db)
    by (intros; by case_match).
  rewrite Es. split; [|split; [|by case_match]].
  - destruct (upsert_service_has x n (adb_services db)) as (r & Hr & [= E1 E2 E3 E4]). by exists r.
  - intros o' (r & Hr & Hob). destruct (upsert_service_keeps x n (adb_services db) (service_ident r)) as (r' & Hr' & [= E1 E2 E3 E4]); [by exists r|].
    exists r'. split; [done|]. destruct Hob as (Eo1 & Eo2 & Eo3). unfold observes. by rewrite E2, E3, E4.
Qed.

Lemma records_have_services scan checkedAt sourceID os : forall db db', Forall (fun o => lookupAddress (Observation_Address o) db <> "") os ->
  for_each (recordAssetServiceObservation scan checkedAt sourceID) db os = Ok db' ->
  Forall (has_service db') os /\ (forall o, has_service db o -> has_service db' o).
Proof.
  induction os as [|o os IH]; intros db db' Hl Hr; simpl in Hr; [injection Hr as <-; by split|].
  apply Forall_cons in Hl as [Ha Hl]. apply bind_ok in Hr as (db1 & Hr1 & Hr2).
  destruct (record_has_service _ _ _ _ _ _ Ha Hr1) as (H1 & H2 & E). destruct (IH db1 db') as [H3 H4]; [|done|].
  { eapply Forall_impl; [exact Hl|]. intros o' Ho. unfold lookupAddress in *. by rewrite E. }
  split; [constructor; [by apply H4|done]|]. intros o' Ho. by apply H4, H2.
Qed.

(** A scan's part of the transaction of [Save]. *)
Definition saveScanInventory (Sum256 : string -> string) (scan : Scan) (db : AssetDb) : result AssetDb :=
  match upsertScanAssets Sum256 scan db with Err e => Err e | Ok db1 => updateAssetServiceHistory scan db1 end.

Lemma marked_inventory scan checked db : inventory_ok db ->
  inventory_ok (set_services (mark_all scan checked (adb_services db)) db).
Proof.
  intros H. pose proof (mark_all_spec scan checked (adb_services db) (Scan_Targets scan)) as F. fold (mark_all scan checked (adb_services db)) in F.
  assert (E : service_ident <$> mark_all scan checked (adb_services db) = service_ident <$> adb_services db).
  { clear H. induction F as [|r r' l l' [(E & _) _] F IH]; [done|]. by rewrite !fmap_cons, E, IH. }
  assert (K := inventory_history db (mark_all scan checked (adb_services db)) (adb_events db) (adb_evidence db) H).
  replace (set_services _ _) with (set_asset_evidence (adb_evidence db) (set_events (adb_events db) (set_services (mark_all scan checked (adb_services db)) db))) by (by destruct db).
  apply K; [rewrite E; by apply inv_service_keys| |by apply inv_events|by apply inv_event_owner|by apply inv_evidence_owner].
  intros r Hr. destruct (Forall2_origin _ _ _ r F Hr) as (r0 & Hr0 & [(Ei & E1 & E2 & _) _]).
  destruct (inv_services db H r0 Hr0) as [Hw Hle]. injection Ei as -> -> _ _. by rewrite E1, E2.
Qed.

(** The inventory tells what the latest completed scan saw. When none of
    the service rows a completed scan covers (its targets' addresses on its
    ports) was checked later, then once the scan is saved these rows carry its
    identifier and its completion time, and are in state observed exactly when
    the scan observed that address, port and protocol; and every observation of
    the scan has a service row. *)
Theorem services_reflect_scan Sum256 scan db db' :
  (forall text, String.length (Sum256 text) = 32%nat) -> inventory_ok db -> Scan_Status scan = StatusCompleted ->
  (forall r, r ∈ adb_services db -> covered scan r -> str_leb (sv_last_checked r) (formatTime (completedOrCreatedAt scan)) = true) ->
  saveScanInventory Sum256 scan db = Ok db' ->
  inventory_ok db' /\
  (forall r, r ∈ adb_services db' -> covered scan r ->
     sv_last_checked r = formatTime (completedOrCreatedAt scan) /\ sv_last_scan_id r = Scan_ID scan /\
     (sv_state r = AssetServiceObserved <-> exists o, o ∈ Scan_Observations scan /\ observes o r)) /\
  (forall o, o ∈ Scan_Observations scan -> has_service db' o).
Proof.
  intros Hid H Hc Hold Hs. unfold saveScanInventory, upsertScanAssets, updateAssetServiceHistory in Hs. rewrite Hc in Hs. simpl in Hs.
  destruct (upsertScanAssets_ok Sum256 scan (Scan_Observations scan) Hid db H) as (db1 & E1 & H1 & G1 & Hos). rewrite E1 in Hs.
  set (checked := formatTime (completedOrCreatedAt scan)) in *. change (fold_left _ (Scan_Targets scan) (adb_services db1)) with (mark_all scan checked (adb_services db1)) in Hs.
  assert (Hf : Forall (reflects scan checked []) (adb_services (set_services (mark_all scan checked (adb_services db1)) db1))).
  { apply Forall_forall. intros r Hr Hcov. simpl in Hr.
    destruct (Forall2_origin _ _ _ r (mark_all_spec scan checked (adb_services db1) (Scan_Targets scan)) Hr) as (r0 & Hr0 & [(Ei & _) Hm]).
    destruct (grows_rest _ _ G1) as [Es _]. rewrite Es in Hr0. injection Ei as _ E2 E3 _.
    destruct Hcov as [Ha Hp]. rewrite E2 in Ha. rewrite E3 in Hp. destruct (Hm Ha Hp (Hold r0 Hr0 (conj Ha Hp))) as (Est & Ec & Ei).
    split; [done|]. split; [done|]. rewrite Est. split; [done|]. by intros (o & ?%not_elem_of_nil & _). }
  destruct (record_observations_ok _ _ _ _ [] _ _ (marked_inventory scan checked db1 H1) Hs) as [Hok Hf']. specialize (Hf' Hf). split; [done|]. split.
  - rewrite Forall_forall in Hf'. intros r Hr Hcov. by apply (Hf' r Hr Hcov).
  - destruct (records_have_services _ _ _ (Scan_Observations scan) (set_services (mark_all scan checked (adb_services db1)) db1) db' Hos Hs) as [Hall _].
    by rewrite Forall_forall in Hall.
Qed.

(** * Merging two assets *)

Lemma moved_other m s id : id <> m -> moved m s id = id.
Proof. intros H. unfold moved. by rewrite bool_decide_eq_false_2. Qed.
Lemma moved_merged m s : moved m s m = s.
Proof. unfold moved. by rewrite bool_decide_eq_true_2. Qed.

Definition observations_total (services : list ServiceRow) : Z := foldr (fun r n => sv_count r + n) 0 services.

Lemma observations_total_app l1 l2 : observations_total (l1 ++ l2) = observations_total l1 + observations_total l2.
Proof. induction l1 as [|r l1 IH]; simpl; [lia|]. fold (observations_total l2) in *. lia. Qed.

(** Services whose addresses the survivor does not have yet are taken over as they are. *)
Lemma merge_services_disjoint survivor (rows : list ServiceRow) : forall services : list ServiceRow,
  NoDup (service_ident <$> (services ++ (with_asset survivor <$> rows))%list) ->
  fold_left (insert_merged_service survivor) rows services = (services ++ (with_asset survivor <$> rows))%list.
Proof.
  induction rows as [|x rows IH]; intros services Hnd; simpl; [by rewrite app_nil_r|].
  unfold insert_merged_service at 2. simpl in Hnd. rewrite fmap_app, fmap_cons, NoDup_app in Hnd. destruct Hnd as (H1 & H2 & H3).
  assert (Eq : query_row (same_service (with_asset survivor x)) services = None).
  { apply query_row_None. intros r Hr. apply not_true_iff_false. intros E%same_service_spec.
    apply (H2 (service_ident r)); [by apply list_elem_of_fmap; exists r|]. rewrite E. by left. }
  rewrite Eq, IH; [by rewrite <- app_assoc|]. rewrite <- app_assoc. simpl. rewrite fmap_app, fmap_cons, NoDup_app. done.
Qed.

Lemma merge_rows_distinct survivor merged db : inventory_ok db -> survivor <> merged ->
  NoDup (service_ident <$> (adb_services db ++ (with_asset survivor <$> List.filter (fun r => bool_decide (sv_asset r = merged)) (adb_services db)))%list).
Proof.
  intros H Hne. rewrite fmap_app, NoDup_app. split; [by apply inv_service_keys|]. split.
  - intros k (r & -> & Hr)%list_elem_of_fmap (r' & Ek & (r0 & -> & Hr0)%list_elem_of_fmap)%list_elem_of_fmap.
    apply list_elem_of_In, filter_In in Hr0 as [Hr0 Hm%bool_decide_eq_true]. apply list_elem_of_In in Hr0.
    injection Ek as E1 E2 _ _. simpl in E1, E2.
    destruct (inv_services db H r Hr) as [W1 _], (inv_services db H r0 Hr0) as [W2 _]. rewrite E2 in W1.
    pose proof (owns_unique db _ _ _ H W1 W2). congruence.
  - rewrite <- list_fmap_compose. pose proof (inv_service_keys db H) as Hnd.
    induction (adb_services db) as [|r l IH]; simpl; [constructor|]. rewrite fmap_cons in Hnd. apply NoDup_cons in Hnd as [Hn Hnd].
    case_bool_decide as Em; [|by apply IH]. rewrite fmap_cons. constructor; [|by apply IH].
    intros (r' & E & Hr')%list_elem_of_fmap. apply list_elem_of_In, filter_In in Hr' as [Hr' Em'%bool_decide_eq_true].
    apply Hn, list_elem_of_fmap. exists r'. apply list_elem_of_In in Hr'. split; [|done].
    injection E as E2 E3 E4. unfold service_ident. congruence.
Qed.

Lemma mergeAssetServices_spec survivor merged db : inventory_ok db -> survivor <> merged ->
  mergeAssetServices survivor merged (adb_services db) =
    (List.filter (fun r => negb (bool_decide (sv_asset r = merged))) (adb_services db) ++
     (with_asset survivor <$> List.filter (fun r => bool_decide (sv_asset r = merged)) (adb_services db)))%list.
Proof.
  intros H Hne. unfold mergeAssetServices, select_where. rewrite merge_services_disjoint by (by apply merge_rows_distinct).
  rewrite List.filter_app. f_equal. apply forallb_filter_id, forallb_forall. intros r Hr%list_elem_of_In.
  apply list_elem_of_fmap in Hr as (r0 & -> & _). simpl. by rewrite bool_decide_eq_false_2.
Qed.

Lemma with_asset_total survivor l : observations_total (with_asset survivor <$> l) = observations_total l.
Proof. induction l as [|r l IH]; [done|]. unfold observations_total in *. rewrite fmap_cons. cbn [foldr]. by rewrite IH. Qed.

Lemma filter_total (p : ServiceRow -> bool) l :
  observations_total (List.filter (fun r => negb (p r)) l) + observations_total (List.filter p l) = observations_total l.
Proof.
  induction l as [|r l IH]; [done|]. simpl. unfold observations_total in *. destruct (p r); simpl; lia.
Qed.

(** An accepted merge request. *)
Definition merge_request_ok (q : AssetMergeRequest) : Prop :=
  merge_survivor q <> "" /\ merge_merged q <> "" /\ merge_survivor q <> merge_merged q /\ validMergeSources q = true.

Lemma mergeSelectedAsset_ok q s m : as_id (mergeSelectedAsset q s m) = as_id s /\
  (as_address (mergeSelectedAsset q s m) = as_address s \/ as_address (mergeSelectedAsset q s m) = as_address m) /\
  (str_leb (as_first_seen s) (as_last_seen s) = true -> str_leb (as_first_seen m) (as_last_seen m) = true ->
   str_leb (as_first_seen (mergeSelectedAsset q s m)) (as_last_seen (mergeSelectedAsset q s m)) = true).
Proof.
  unfold mergeSelectedAsset, mergedAssetTimes. destruct (str_ltb (as_last_seen s) (as_last_seen m)) eqn:El; simpl;
    (split; [done|]; split; [case_bool_decide; auto|]); intros Hs Hm; case_match eqn:Ef; try done.
  - eapply str_leb_trans; [exact Hs|]. apply str_leb_lt_or_eq. by left.
  - eapply str_leb_trans; [|exact Hs]. apply str_leb_lt_or_eq. by left.
Qed.

(** Asset rows are told apart by their addresses. *)
Lemma asset_address_key db a a' : inventory_ok db -> a ∈ adb_assets db -> a' ∈ adb_assets db -> as_address a = as_address a' -> a = a'.
Proof.
  intros H Ha Ha' E. destruct (inv_named db H a Ha) as (_ & W & _), (inv_named db H a' Ha') as (_ & W' & _).
  rewrite E in W. pose proof (owns_unique db _ _ _ H W W') as Ei. by apply (key_inj as_id (adb_assets db)); [apply inv_ids| | |].
Qed.

Lemma merge_runs q db : inventory_ok db -> merge_request_ok q -> asset_exists db (merge_survivor q) -> asset_exists db (merge_merged q) ->
  exists s m, s ∈ adb_assets db /\ as_id s = merge_survivor q /\ m ∈ adb_assets db /\ as_id m = merge_merged q /\
    MergeAssets q db = (Ok tt, set_assets (update_where (asset_is (merge_survivor q)) (fun _ => mergeSelectedAsset q s m)
        (List.filter (fun r => negb (asset_is (merge_merged q) r)) (adb_assets db)))
      (set_services (mergeAssetServices (merge_survivor q) (merge_merged q) (adb_services db))
        (transferAssetRelationships (merge_survivor q) (merge_merged q) db))).
Proof.
  intros H (Hs & Hm & Hne & Hv) (s & Hsin & Es) (m & Hmin & Em). exists s, m. do 4 (split; [done|]).
  unfold MergeAssets, transaction, loadMergeAsset. rewrite !bool_decide_eq_false_2 by done. rewrite Hv. simpl.
  rewrite <- Es, <- Em. unfold asset_is at 1 2.
  rewrite (query_row_key as_id (adb_assets db) s), (query_row_key as_id (adb_assets db) m) by (done || by apply inv_ids). rewrite Es, Em.
  destruct (existsb _ _) eqn:Ex; [|done]. exfalso. apply existsb_exists in Ex as (a & [Ha Hnm]%filter_In & Hp).
  apply andb_true_iff in Hp as [Ea%bool_decide_eq_true Hns]. apply list_elem_of_In in Ha.
  apply negb_true_iff in Hnm, Hns. apply bool_decide_eq_false in Hnm, Hns.
  destruct (mergeSelectedAsset_ok q s m) as (_ & [E|E] & _); rewrite E in Ea.
  - apply Hns. by rewrite (asset_address_key db a s H Ha Hsin Ea).
  - apply Hnm. by rewrite (asset_address_key db a m H Ha Hmin Ea).
Qed.

(** The inventory after a merge. *)
Definition merged_inventory (q : AssetMergeRequest) (assets : list AssetRow) (db : AssetDb) : AssetDb :=
  set_assets assets (set_services (mergeAssetServices (merge_survivor q) (merge_merged q) (adb_services db))
    (transferAssetRelationships (merge_survivor q) (merge_merged q) db)).

Lemma merged_owns q assets db id address : owns (merged_inventory q assets db) id address <->
  exists id0, owns db id0 address /\ moved (merge_merged q) (merge_survivor q) id0 = id.
Proof.
  split.
  - intros (r & (r0 & -> & Hr0)%list_elem_of_fmap & <- & <-). exists (ad_asset r0). split; [by exists r0|done].
  - intros (id0 & (r & Hr & <- & <-) & <-). eexists. split; [apply list_elem_of_fmap; by exists r|done].
Qed.

Lemma merged_assets q db s m id : asset_exists db (merge_survivor q) -> as_id s = merge_survivor q -> merge_survivor q <> merge_merged q ->
  asset_exists (merged_inventory q (update_where (asset_is (merge_survivor q)) (fun _ => mergeSelectedAsset q s m)
    (List.filter (fun r => negb (asset_is (merge_merged q) r)) (adb_assets db))) db) id <-> asset_exists db id /\ id <> merge_merged q.
Proof.
  intros Hs Es Hne. unfold asset_exists, merged_inventory, asset_is; simpl. split.
  - intros (a & (a0 & Ha0 & ->)%elem_of_update_where & <-). apply list_elem_of_In, filter_In in Ha0 as [Ha0 Hn%negb_true_iff].
    apply list_elem_of_In in Ha0. apply bool_decide_eq_false in Hn. case_bool_decide as E; [|split; [by exists a0|done]].
    destruct (mergeSelectedAsset_ok q s m) as [-> _]. rewrite Es. by split.
  - intros [(a & Ha & <-) Hn]. eexists. split.
    + apply elem_of_update_where. exists a. split; [|done]. apply list_elem_of_In, filter_In. apply list_elem_of_In in Ha.
      by rewrite bool_decide_eq_false_2.
    + case_bool_decide as E; [|done]. destruct (mergeSelectedAsset_ok q s m) as [-> _]. congruence.
Qed.

Lemma merged_service q db r : inventory_ok db -> merge_survivor q <> merge_merged q ->
  r ∈ mergeAssetServices (merge_survivor q) (merge_merged q) (adb_services db) <->
  exists r0, r0 ∈ adb_services db /\ r = (if bool_decide (sv_asset r0 = merge_merged q) then with_asset (merge_survivor q) r0 else r0).
Proof.
  intros H Hne. rewrite mergeAssetServices_spec by done. rewrite elem_of_app, list_elem_of_fmap. split.
  - intros [Hr|(r0 & -> & Hr)]; apply list_elem_of_In, filter_In in Hr as [Hr Hp]; apply list_elem_of_In in Hr.
    + exists r. split; [done|]. apply negb_true_iff in Hp. by rewrite Hp.
    + exists r0. by rewrite Hp.
  - intros (r0 & Hr & ->). case_bool_decide as E; [right; exists r0; split; [done|]|left]; apply list_elem_of_In, filter_In; apply list_elem_of_In in Hr.
    + by rewrite bool_decide_eq_true_2.
    + by rewrite bool_decide_eq_false_2.
Qed.

Lemma NoDup_key_filter {A K} (key : A -> K) p (l : list A) : NoDup (key <$> l) -> NoDup (key <$> List.filter p l).
Proof.
  induction l as [|x l IH]; [done|]. rewrite fmap_cons. intros [Hn Hnd]%NoDup_cons. simpl. destruct (p x); [|by apply IH].
  rewrite fmap_cons. constructor; [|by apply IH]. intros (y & E & Hy)%list_elem_of_fmap. apply Hn, list_elem_of_fmap. exists y.
  split; [done|]. apply list_elem_of_In, filter_In in Hy as [Hy _]. by apply list_elem_of_In.
Qed.

Lemma merged_service_keys q db : inventory_ok db -> merge_survivor q <> merge_merged q ->
  NoDup (service_ident <$> mergeAssetServices (merge_survivor q) (merge_merged q) (adb_services db)).
Proof.
  intros H Hne. unfold mergeAssetServices. apply (NoDup_key_filter service_ident). unfold select_where.
  rewrite merge_services_disjoint by (by apply merge_rows_distinct). by apply merge_rows_distinct.
Qed.

Lemma update_where_key_eq {Row K} (key : Row -> K) p f table :
  (forall r, r ∈ table -> p r = true -> key (f r) = key r) -> key <$> update_where p f table = key <$> table.
Proof.
  intros Hf. unfold update_where. rewrite <- list_fmap_compose. apply list_fmap_ext.
  intros i r Hr%list_elem_of_lookup_2. simpl. destruct (p r) eqn:E; [by apply Hf|done].
Qed.

Lemma elem_of_list_filter_bool {A} (p : A -> bool) l (x : A) : x ∈ List.filter p l <-> x ∈ l /\ p x = true.
Proof. by rewrite !list_elem_of_In, filter_In. Qed.

Lemma merged_inventory_ok q db s m : inventory_ok db -> merge_survivor q <> merge_merged q ->
  s ∈ adb_assets db -> as_id s = merge_survivor q -> m ∈ adb_assets db -> as_id m = merge_merged q ->
  inventory_ok (merged_inventory q (update_where (asset_is (merge_survivor q)) (fun _ => mergeSelectedAsset q s m)
    (List.filter (fun r => negb (asset_is (merge_merged q) r)) (adb_assets db))) db).
Proof.
  intros H Hne Hs Es Hm Em. assert (Hse : asset_exists db (merge_survivor q)) by (by exists s).
  destruct (mergeSelectedAsset_ok q s m) as (Ei & Ea & Et).
  assert (Hex : forall id, asset_exists db id -> asset_exists (merged_inventory q (update_where (asset_is (merge_survivor q)) (fun _ => mergeSelectedAsset q s m)
    (List.filter (fun r => negb (asset_is (merge_merged q) r)) (adb_assets db))) db) (moved (merge_merged q) (merge_survivor q) id)).
  { intros id Hid. apply merged_assets; [done..|]. unfold moved. by case_bool_decide. }
  destruct (inv_named db H s Hs) as (Hsn & Hsw & Hsl), (inv_named db H m Hm) as (Hmn & Hmw & Hml).
  constructor.
  - unfold merged_inventory; simpl. rewrite update_where_key_eq; [by apply NoDup_key_filter, inv_ids|].
    intros r _ Hr%bool_decide_eq_true. congruence.
  - unfold merged_inventory; simpl. rewrite <- list_fmap_compose. by apply inv_addresses.
  - unfold merged_inventory; simpl. rewrite <- list_fmap_compose. by apply inv_names.
  - intros a (a0 & [Ha0 Hn]%elem_of_list_filter_bool & ->)%elem_of_update_where. apply negb_true_iff, bool_decide_eq_false in Hn.
    destruct (asset_is (merge_survivor q) a0) eqn:E; [apply bool_decide_eq_true in E|apply bool_decide_eq_false in E].
    + rewrite Ei. split; [done|]. split; [|by apply Et]. apply merged_owns.
      destruct Ea as [-> | ->]; [exists (as_id s)|exists (as_id m)]; (split; [done|]); [rewrite moved_other; congruence|rewrite Em, moved_merged; congruence].
    + destruct (inv_named db H a0 Ha0) as (H1 & H2 & H3). split; [done|]. split; [|done]. apply merged_owns. exists (as_id a0).
      split; [done|by apply moved_other].
  - intros r (r0 & -> & Hr0)%list_elem_of_fmap. simpl. destruct (inv_owned db H r0 Hr0) as [H1 H2]. split; [by apply Hex|done].
  - intros r (r0 & -> & Hr0)%list_elem_of_fmap. simpl. apply Hex. by apply (inv_name_owner db).
  - by apply merged_service_keys.
  - intros r Hr. apply merged_service in Hr as (r0 & Hr0 & ->); [|done..]. destruct (inv_services db H r0 Hr0) as [H1 H2].
    split; [|by case_bool_decide]. apply merged_owns. exists (sv_asset r0). split; [by case_bool_decide|].
    case_bool_decide as E; [by rewrite E, moved_merged|by apply moved_other].
  - unfold merged_inventory; simpl. rewrite <- list_fmap_compose. by apply inv_events.
  - intros e (e0 & -> & He)%list_elem_of_fmap. apply merged_owns. exists (ev_asset e0). split; [exact (inv_event_owner db H e0 He)|done].
  - intros e (e0 & -> & He)%list_elem_of_fmap. apply Hex. by apply (inv_evidence_owner db).
Qed.


(** * Every operation keeps the invariant *)

Inductive AssetOp :=
| SaveInventory (scan : Scan)
| RecordEvidence (e : AssetEvidence)
| SetMetadata (id owner environment classification : string)
| SetEligibility (id : string) (status : AgentEligibilityStatus) (reason actor : string) (at_ : Time)
| SetLifecycle (id : string) (status : AssetLifecycleStatus) (reason actor : string) (at_ : Time)
| SetAging (days : Z)
| Merge (q : AssetMergeRequest).

Definition asset_step (Sum256 : string -> string) (op : AssetOp) : st AssetDb unit :=
  match op with
  | SaveInventory scan => transaction (saveScanInventory Sum256 scan)
  | RecordEvidence e => RecordAssetEvidence e
  | SetMetadata id owner environment classification => UpdateAssetMetadata id owner environment classification
  | SetEligibility id status reason actor at_ => UpdateAssetAgentEligibility id status reason actor at_
  | SetLifecycle id status reason actor at_ => UpdateAssetLifecycle id status reason actor at_
  | SetAging days => UpdateAssetAgingSettings days
  | Merge q => MergeAssets q
  end.

Lemma saveScanInventory_ok Sum256 scan db db' : (forall text, String.length (Sum256 text) = 32%nat) -> inventory_ok db ->
  saveScanInventory Sum256 scan db = Ok db' -> inventory_ok db'.
Proof.
  intros Hid H Hs. unfold saveScanInventory, upsertScanAssets, updateAssetServiceHistory in Hs.
  destruct (negb _); [by injection Hs as <-|]. destruct (upsertScanAssets_ok Sum256 scan (Scan_Observations scan) Hid db H) as (db1 & E & H1 & _).
  rewrite E in Hs. eapply (record_observations_ok scan _ _ _ []); [|exact Hs]. by apply marked_inventory.
Qed.

Lemma update_asset_ok id f db : inventory_ok db ->
  (forall r, as_id (f r) = as_id r /\ as_address (f r) = as_address r /\ as_first_seen (f r) = as_first_seen r /\ as_last_seen (f r) = as_last_seen r) ->
  inventory_ok (update_asset id f db).2.
Proof.
  intros H Hf. unfold update_asset, transaction. destruct (negb _); [done|]. simpl.
  assert (Hex : forall i, asset_exists db i -> asset_exists (set_assets (update_where (asset_is id) f (adb_assets db)) db) i).
  { intros i (a & Ha & <-). eexists. split; [apply elem_of_update_where; by exists a|]. destruct (asset_is id a); [apply Hf|done]. }
  destruct H. constructor; try done; simpl.
  - rewrite update_where_key; [done|]. intros r. apply Hf.
  - intros a (a0 & Ha0 & ->)%elem_of_update_where. destruct (inv_named0 a0 Ha0) as (H1 & H2 & H3).
    destruct (asset_is id a0); [|by split]. destruct (Hf a0) as (-> & -> & -> & ->). by split.
  - intros r Hr. destruct (inv_owned0 r Hr). split; [by apply Hex|done].
  - intros r Hr. by apply Hex, inv_name_owner0.
  - intros r Hr. by apply Hex, inv_evidence_owner0.
Qed.

Lemma asset_step_ok Sum256 op db : (forall text, String.length (Sum256 text) = 32%nat) -> inventory_ok db ->
  inventory_ok (asset_step Sum256 op db).2.
Proof.
  intros Hid H. destruct op as [scan|e|id o n c|id s why who t|id s why who t|days|q]; simpl.
  - unfold transaction. destruct (saveScanInventory _ scan db) eqn:E; [|done]. by eapply saveScanInventory_ok.
  - unfold RecordAssetEvidence, transaction. destruct (validateAssetEvidence e); [|done]. destruct (insertAssetEvidence e db) as [db'|] eqn:E; [|done].
    apply insertAssetEvidence_spec in E as (rows & -> & Hrows). destruct H. constructor; try done.
    intros x Hx. destruct (Hrows x Hx) as [?|[-> ?]]; [by apply inv_evidence_owner0|done].
  - by apply update_asset_ok.
  - unfold UpdateAssetAgentEligibility. destruct (_ && _); [done|]. by apply update_asset_ok.
  - unfold UpdateAssetLifecycle. destruct (_ && _); [done|]. case_bool_decide; by apply update_asset_ok.
  - unfold UpdateAssetAgingSettings. destruct (_ || _); [done|]. destruct H. by constructor.
  - destruct (bool_decide (merge_survivor q = "") || bool_decide (merge_merged q = "") || bool_decide (merge_survivor q = merge_merged q)) eqn:E1;
      [unfold MergeAssets; by rewrite E1|].
    destruct (negb (validMergeSources q)) eqn:E2; [unfold MergeAssets; by rewrite E1, E2|].
    destruct (query_row (asset_is (merge_survivor q)) (adb_assets db)) as [s|] eqn:Es; [destruct (query_row (asset_is (merge_merged q)) (adb_assets db)) as [m|] eqn:Em|].
    + apply query_row_Some in Es as [Hs Es%bool_decide_eq_true], Em as [Hm Em%bool_decide_eq_true].
      apply orb_false_iff in E1 as [[E1 E3]%orb_false_iff E4]. apply bool_decide_eq_false in E1, E3, E4. apply negb_false_iff in E2.
      destruct (merge_runs q db H) as (s' & m' & Hs' & Es' & Hm' & Em' & Hr); [done|by exists s|by exists m|].
      rewrite Hr. by apply merged_inventory_ok.
    + unfold MergeAssets, transaction, loadMergeAsset. by rewrite E1, E2, Es, Em.
    + unfold MergeAssets, transaction, loadMergeAsset. by rewrite E1, E2, Es.
Qed.

Definition empty_inventory : AssetDb := mkAssetDb [] [] [] [] [] [] [] [] [] 30.

Lemma empty_inventory_ok : inventory_ok empty_inventory.
Proof. constructor; simpl; first [apply NoDup_nil_2 | intros r Hr; by apply not_elem_of_nil in Hr]. Qed.

(** C34: Whatever operations are run on an empty inventory, in whatever order and
    whether they succeed or fail, each address and each correlated name belongs
    to one existing asset, each asset owns its own address, a service row stands
    under the asset that owns its address and is unique for its address, port
    and protocol, each observation has one event, evidence refers to existing
    assets, and nothing was last seen before it was first seen. *)
Theorem inventory_invariant Sum256 ops : (forall text, String.length (Sum256 text) = 32%nat) ->
  inventory_ok (fold_left (fun db op => (asset_step Sum256 op db).2) ops empty_inventory).
Proof.
  intros Hid. pose proof empty_inventory_ok as H0.
  generalize dependent empty_inventory. induction ops as [|op ops IH]; intros db H; simpl; [done|]. by apply IH, asset_step_ok.
Qed.
