(* ===== verification/IdentitySecrets.v ===== *)
(** What is kept of passwords and secrets: password hashes
    (internal/auth/password.go), the encryption keyring and its rotation
    (internal/auth/secretbox.go), with the parts of encoding/base64 and fmt
    they use. Argon2, SHA-256, AES-GCM and the JSON of the keyring file are
    parameters; a string is a sequence of bytes. *)
From Stdlib Require Import ZArith Lia String Ascii.
From stdpp Require Import base tactics list strings gmap.
From S2P Require Import Prelude GoStrings GoTime Netip NetAddr AssetStore.
Open Scope string_scope.
Open Scope Z_scope.
Open Scope list_scope.

Definition byte_of (n : Z) : ascii := ascii_of_N (Z.to_N n).
Definition str_of (l : list Z) : string := foldr (fun n s => String (byte_of n) s) ""%string l.

(** * encoding/base64 *)

Definition base64_alphabet : string := "ABCDEFGHIJKLMNOPQRSTUVWXYZabcdefghijklmnopqrstuvwxyz0123456789+/".

Definition sextet_char (n : Z) : ascii := default "A"%char (String.get (Z.to_nat n) base64_alphabet).
Fixpoint index_of (c : ascii) (s : string) : option Z :=
  match s with
  | EmptyString => None
  | String a rest => if Ascii.eqb a c then Some 0 else n ← index_of c rest; Some (n + 1)
  end.
Definition char_sextet (c : ascii) : option Z := index_of c base64_alphabet.

(** The characters of [RawStdEncoding.EncodeToString]; [pad] ends a partial group. *)
Fixpoint base64_encode (pad1 pad2 : string) (s : string) : string :=
  match s with
  | EmptyString => ""
  | String a EmptyString =>
      String (sextet_char (byte_val a / 4)) (String (sextet_char (byte_val a mod 4 * 16)) pad2)
  | String a (String b EmptyString) =>
      String (sextet_char (byte_val a / 4)) (String (sextet_char (byte_val a mod 4 * 16 + byte_val b / 16))
        (String (sextet_char (byte_val b mod 16 * 4)) pad1))
  | String a (String b (String c rest)) =>
      String (sextet_char (byte_val a / 4)) (String (sextet_char (byte_val a mod 4 * 16 + byte_val b / 16))
        (String (sextet_char (byte_val b mod 16 * 4 + byte_val c / 64)) (String (sextet_char (byte_val c mod 64))
          (base64_encode pad1 pad2 rest))))
  end.
Definition RawStdEncode : string -> string := base64_encode "" "".
Definition StdEncode : string -> string := base64_encode "=" "==".

(** Carriage returns and line feeds are skipped. *)
Fixpoint without_newlines (s : string) : string :=
  match s with
  | EmptyString => ""
  | String a rest => if (byte_val a =? 10) || (byte_val a =? 13) then without_newlines rest else String a (without_newlines rest)
  end.

(** The bytes of a group of two, three or four sextets; the bits left over are dropped. *)
Definition group2 (a b : Z) : string := str_of [a * 4 + b / 16].
Definition group3 (a b c : Z) : string := str_of [a * 4 + b / 16; b mod 16 * 16 + c / 4].
Definition group4 (a b c d : Z) : string := str_of [a * 4 + b / 16; b mod 16 * 16 + c / 4; c mod 4 * 64 + d].

Fixpoint raw_decode (s : string) : option string :=
  match s with
  | EmptyString => Some ""%string
  | String a (String b (String c (String d rest))) =>
      a ← char_sextet a; b ← char_sextet b; c ← char_sextet c; d ← char_sextet d; r ← raw_decode rest; Some (group4 a b c d +:+ r)
  | String a (String b (String c EmptyString)) => a ← char_sextet a; b ← char_sextet b; c ← char_sextet c; Some (group3 a b c)
  | String a (String b EmptyString) => a ← char_sextet a; b ← char_sextet b; Some (group2 a b)
  | String _ EmptyString => None
  end.
Definition RawStdDecode (s : string) : option string := raw_decode (without_newlines s).

(** Padded groups end the text. *)
Fixpoint std_decode (s : string) : option string :=
  match s with
  | EmptyString => Some ""%string
  | String a (String b (String c (String d rest))) =>
      if Ascii.eqb d "=" then
        if bool_decide (rest = ""%string) then
          a ← char_sextet a; b ← char_sextet b;
          if Ascii.eqb c "=" then Some (group2 a b) else c ← char_sextet c; Some (group3 a b c)
        else None
      else a ← char_sextet a; b ← char_sextet b; c ← char_sextet c; d ← char_sextet d; r ← std_decode rest; Some (group4 a b c d +:+ r)
  | _ => None
  end.
Definition StdDecode (s : string) : option string := std_decode (without_newlines s).

(** * utf8 and fmt *)

(** The bytes of the rune a string starts with; an invalid byte is a rune of its own. *)
Definition continues (low high : Z) (s : string) : bool :=
  match s with String c _ => (low <=? byte_val c) && (byte_val c <=? high) | EmptyString => false end.
Definition rune_width (s : string) : nat :=
  match s with
  | EmptyString => 0
  | String c rest =>
      let c := byte_val c in
      if (194 <=? c) && (c <=? 223) then if continues 128 191 rest then 2 else 1
      else if (224 <=? c) && (c <=? 239) then
        if continues (if c =? 224 then 160 else 128) (if c =? 237 then 159 else 191) rest && continues 128 191 (drop_str 1 rest) then 3 else 1
      else if (240 <=? c) && (c <=? 244) then
        if continues (if c =? 240 then 144 else 128) (if c =? 244 then 143 else 191) rest && continues 128 191 (drop_str 1 rest) &&
           continues 128 191 (drop_str 2 rest) then 4 else 1
      else 1
  end.
(** [len([]rune(s))], with the bytes of the current rune that are still to pass. *)
Fixpoint rune_count (pending : nat) (s : string) : Z :=
  match s with
  | EmptyString => 0
  | String _ rest => match pending with S k => rune_count k rest | O => 1 + rune_count (rune_width s - 1) rest end
  end.

(** [Sscanf] on [%d]: white space other than newlines, then digits. *)
Fixpoint scan_space (fuel : nat) (s : string) : option string :=
  match fuel with
  | O => Some s
  | S f => if has_prefix (str_of [10]) s || has_prefix (str_of [13; 10]) s then None
           else match trim_one spaces s with Some rest => scan_space f rest | None => Some s end
  end.
Fixpoint digit_run (s : string) : string * string :=
  match s with
  | EmptyString => ("", "")%string
  | String a rest => if is_digit a then let '(d, r) := digit_run rest in (String a d, r) else ("", s)%string
  end.
(** An unsigned integer of [bits] bits, and what follows it. *)
Definition scan_uint (bits : Z) (s : string) : option (Z * string) :=
  s ← scan_space (S (String.length s)) s;
  let '(digits, rest) := digit_run s in
  if bool_decide (digits = ""%string) then None
  else n ← read_digits 0 digits; if n <? 2 ^ bits then Some (n, rest) else None.
(** An [int], of 64 bits. *)
Definition scan_int (s : string) : option (Z * string) :=
  s ← scan_space (S (String.length s)) s;
  let '(sign, s) := match s with
    | String c rest => if Ascii.eqb c "+" || Ascii.eqb c "-" then (String c "", rest) else (""%string, s)
    | EmptyString => (""%string, s)
    end in
  let '(digits, rest) := digit_run s in
  if bool_decide (digits = ""%string) then None else n ← ParseInt64 (sign +:+ digits); Some (n, rest).
Definition scan_literal (text s : string) : option string := if has_prefix text s then Some (drop_str (String.length text) s) else None.

(** * password.go *)

(** golang.org/x/crypto/argon2 and crypto/sha256. *)
Class PasswordCrypto := {
  argon2_Version : Z;
  (** [IDKey(password, salt, time, memory, threads, keyLen)] *)
  IDKey : string -> string -> Z -> Z -> Z -> Z -> string }.
(** [IDKey] returns [keyLen] bytes. *)
Class PasswordCryptoLaws `{PasswordCrypto} : Prop := {
  Version_range : 0 <= argon2_Version < 100;
  IDKey_length password salt time memory threads keyLen : 0 <= keyLen -> strlen (IDKey password salt time memory threads keyLen) = keyLen }.

Definition argonMemoryKiB : Z := 64 * 1024.
Definition argonIterations : Z := 3.
Definition argonParallelism : Z := 2.
Definition passwordSaltBytes : Z := 16.
Definition passwordHashBytes : Z := 32.
Definition minimumPasswordLength : Z := 14.
Definition ErrPasswordTooShort : error := "password must contain at least 14 characters".

Record argonParameters := mkArgon { argon_memory : Z; argon_iterations : Z; argon_parallelism : Z; argon_keyLength : Z }.

Section Password.
Context `{PasswordCrypto}.

Definition encodePasswordHash (salt hash : string) : string :=
  "$argon2id$v=" +:+ append_int argon2_Version 0 +:+ "$m=" +:+ append_int argonMemoryKiB 0 +:+ ",t=" +:+ append_int argonIterations 0 +:+ ",p=" +:+
  append_int argonParallelism 0 +:+ "$" +:+ RawStdEncode salt +:+ "$" +:+ RawStdEncode hash.

(** With the salt that is drawn. *)
Definition HashPassword (salt password : string) : result string :=
  reject rune_count 0 password <? minimumPasswordLength as ErrPasswordTooShort ;;
  Ok (encodePasswordHash salt (IDKey password salt argonIterations argonMemoryKiB argonParallelism passwordHashBytes)).

Definition scan_parameters (s : string) : option (Z * Z * Z) :=
  s ← scan_literal "m=" s; '(memory, s) ← scan_uint 32 s;
  s ← scan_literal ",t=" s; '(iterations, s) ← scan_uint 32 s;
  s ← scan_literal ",p=" s; '(parallelism, _) ← scan_uint 8 s;
  Some (memory, iterations, parallelism).

Definition decodePasswordHash (encoded : string) : result (argonParameters * string * string) :=
  match split_byte "$" encoded with
  | [_; name; version; parameters; salt; hash] =>
      reject negb (bool_decide (name = "argon2id"%string)) as "invalid Argon2id password hash"%string ;;
      reject match scan_literal "v=" version ≫= scan_int with Some (v, _) => negb (v =? argon2_Version) | None => true end
        as "unsupported Argon2id version"%string ;;
      match scan_parameters parameters with
      | None => Err "invalid Argon2id parameters"%string
      | Some (memory, iterations, parallelism) =>
          match RawStdDecode salt with
          | None => Err "invalid Argon2id salt"%string
          | Some salt =>
              match RawStdDecode hash with
              | None => Err "invalid Argon2id digest"%string
              | Some hash =>
                  reject strlen hash =? 0 as "invalid Argon2id digest"%string ;;
                  reject (memory =? 0) || (iterations =? 0) || (parallelism =? 0) as "unsafe Argon2id parameters"%string ;;
                  Ok (mkArgon memory iterations parallelism (strlen hash mod 2 ^ 32), salt, hash)
              end
          end
      end
  | _ => Err "invalid Argon2id password hash"%string
  end.

Definition VerifyPassword (encoded password : string) : result bool :=
  '(p, salt, expected) ← decodePasswordHash encoded;
  Ok (bool_decide (IDKey password salt (argon_iterations p) (argon_memory p) (argon_parallelism p) (argon_keyLength p) = expected)).
End Password.

(** * secretbox.go *)

(** AES-256-GCM, SHA-256 and the JSON of the keyring file. *)
Record keyringFile := mkKeyring { ring_Version : Z; ring_ActiveID : string; ring_LegacyID : string; ring_Keys : gmap string string }.

Class SecretCrypto := {
  (** [Seal(nil, nonce, plaintext, data)] and [Open(nil, nonce, ciphertext, data)] under a key. *)
  Seal : string -> string -> string -> string -> string;
  Open : string -> string -> string -> string -> option string;
  key_digest : string -> string;
  keyring_json : keyringFile -> string;
  keyring_of_json : string -> option keyringFile }.
(** The text [json.Marshal] and [json.MarshalIndent] write is read back, and it is longer than 32 bytes. *)
Class SecretCryptoLaws `{SecretCrypto} : Prop := {
  Open_Seal key nonce plaintext data : Open key nonce (Seal key nonce plaintext data) data = Some plaintext;
  keyring_json_of ring : keyring_of_json (keyring_json ring) = Some ring;
  keyring_json_length ring : 32 < strlen (keyring_json ring);
  key_digest_length key : strlen (key_digest key) = 32 }.

Definition identityKeyBytes : Z := 32.
Definition keyIDBytes : Z := 8.
Definition keyringVersion : Z := 1.
Definition ciphertextEnvelope : string := "MWK1".
(** [NonceSize] of [cipher.NewGCM]. *)
Definition gcmNonceSize : Z := 12.
Definition headerSize : Z := strlen ciphertextEnvelope + keyIDBytes * 2.

Definition take_bytes (n : Z) (s : string) : string := substring 0 (Z.to_nat n) s.
Definition drop_bytes (n : Z) (s : string) : string := drop_str (Z.to_nat n) s.

Record SecretBox := mkSecretBox { box_activeID : string; box_legacyID : string; box_keys : gmap string string }.

Section SecretBox.
Context `{SecretCrypto}.

Definition identityKeyID (key : string) : string := EncodeToString (take_bytes keyIDBytes (key_digest key)).

Definition Encrypt (box : SecretBox) (nonce plaintext : string) : result string :=
  match box_keys box !! box_activeID box with
  | None => Err "active identity encryption key is unavailable"%string
  | Some key =>
      let header := ciphertextEnvelope +:+ box_activeID box in
      Ok ((header +:+ nonce) +:+ Seal key nonce plaintext header)
  end.

Definition ciphertextKey (box : SecretBox) (ciphertext : string) : string * string * string :=
  if (headerSize <=? strlen ciphertext) && has_prefix ciphertextEnvelope ciphertext
  then let header := take_bytes headerSize ciphertext in
       (drop_bytes (strlen ciphertextEnvelope) header, drop_bytes headerSize ciphertext, header)
  else (box_legacyID box, ciphertext, ""%string).

Definition Decrypt (box : SecretBox) (ciphertext : string) : result string :=
  let '(keyID, payload, associatedData) := ciphertextKey box ciphertext in
  match box_keys box !! keyID with
  | None => Err "encrypted identity value references an unavailable key"%string
  | Some key =>
      reject strlen payload <? gcmNonceSize as "encrypted identity value is truncated"%string ;;
      match Open key (take_bytes gcmNonceSize payload) (drop_bytes gcmNonceSize payload) associatedData with
      | Some plaintext => Ok plaintext
      | None => Err "encrypted identity value could not be authenticated"%string
      end
  end.

Definition decodeKeyring (data : string) : result keyringFile :=
  match keyring_of_json data with
  | Some ring =>
      reject negb (ring_Version ring =? keyringVersion) || bool_decide (ring_Keys ring = ∅)
        as "identity key file is neither a legacy key nor a supported keyring"%string ;;
      Ok ring
  | None => Err "identity key file is neither a legacy key nor a supported keyring"%string
  end.

(** A key of the ring: standard base64 of 32 bytes that hash to its identifier. *)
Definition ring_key (id encoded : string) : option string :=
  key ← StdDecode encoded;
  if (strlen key =? identityKeyBytes) && bool_decide (identityKeyID key = id) then Some key else None.

Definition parseSecretBox (data : string) : result SecretBox :=
  if strlen data =? identityKeyBytes
  then let id := identityKeyID data in Ok (mkSecretBox id id {[ id := data ]})
  else
    ring ← decodeKeyring data;
    reject negb (bool_decide (map_Forall (fun id encoded => is_Some (ring_key id encoded)) (ring_Keys ring)))
      as "identity keyring contains invalid key"%string ;;
    let keys := map_imap ring_key (ring_Keys ring) in
    reject bool_decide (keys !! ring_ActiveID ring = None) || bool_decide (keys !! ring_LegacyID ring = None)
      as "identity keyring references an unavailable key"%string ;;
    Ok (mkSecretBox (ring_ActiveID ring) (ring_LegacyID ring) keys).

Definition ValidateIdentityKeyData (data : string) : result unit := _ ← parseSecretBox data; Ok tt.

(** On the contents of the key file, with the key that is drawn: the box, and the
    contents it leaves with the copy it preserves of those before. *)
Definition BeginIdentityKeyRotation (data key : string) : result SecretBox * (string * option (string * string)) :=
  let ring := match decodeKeyring data with
              | Ok ring => Ok ring
              | Err e => if negb (strlen data =? identityKeyBytes) then Err e
                         else let id := identityKeyID data in Ok (mkKeyring keyringVersion id id {[ id := StdEncode data ]})
              end in
  match ring with
  | Err e => (Err e, (data, None))
  | Ok ring =>
      if bool_decide (size (ring_Keys ring) = 1%nat) then
        let id := identityKeyID key in
        let ring := mkKeyring (ring_Version ring) id (ring_LegacyID ring) (<[ id := StdEncode key ]> (ring_Keys ring)) in
        (parseSecretBox (keyring_json ring), (keyring_json ring, Some (".pre-rotation-" +:+ id, data)))
      else (parseSecretBox (keyring_json ring), (data, None))
  end.

(** The contents of the key file afterwards. *)
Definition FinalizeIdentityKeyRotation (box : SecretBox) (data : string) : result string :=
  reject bool_decide (box_keys box !! box_activeID box = None) as "active identity key is unavailable"%string ;;
  ring ← decodeKeyring data;
  Ok (keyring_json (mkKeyring keyringVersion (box_activeID box) (box_activeID box)
        {[ box_activeID box := default ""%string (ring_Keys ring !! box_activeID box) ]})).
End SecretBox.

(** * Base64 *)

Lemma byte_of_val a : byte_of (byte_val a) = a.
Proof. unfold byte_of, byte_val. by rewrite N2Z.id, ascii_N_embedding. Qed.

Lemma byte_val_of n : 0 <= n < 256 -> byte_val (byte_of n) = n.
Proof. intros H. unfold byte_of, byte_val. rewrite N_ascii_embedding; lia. Qed.

(** What a character of the alphabet is not. *)
Definition sextet_check (n : Z) : bool :=
  bool_decide (char_sextet (sextet_char n) = Some n) && negb (byte_val (sextet_char n) =? 10) && negb (byte_val (sextet_char n) =? 13) &&
  negb (Ascii.eqb (sextet_char n) "$") && negb (Ascii.eqb (sextet_char n) "=").

Lemma sextet_checked n : 0 <= n < 64 -> sextet_check n = true.
Proof. intros H. apply (check_range_spec sextet_check 6 0); [vm_compute; reflexivity|]. change (2 ^ Z.of_nat 6) with 64. lia. Qed.

Lemma sextet_roundtrip n : 0 <= n < 64 -> char_sextet (sextet_char n) = Some n.
Proof. intros H%sextet_checked. unfold sextet_check in H. reflect_bools. done. Qed.

Lemma sextet_newline n : 0 <= n < 64 -> (byte_val (sextet_char n) =? 10) || (byte_val (sextet_char n) =? 13) = false.
Proof. intros H%sextet_checked. unfold sextet_check in H. rewrite !andb_true_iff, !negb_true_iff in H. by destruct H as [[[[_ ->] ->] _] _]. Qed.

Lemma sextet_other n : 0 <= n < 64 -> Ascii.eqb (sextet_char n) "$" = false /\ Ascii.eqb (sextet_char n) "=" = false.
Proof. intros H%sextet_checked. unfold sextet_check in H. rewrite !andb_true_iff, !negb_true_iff in H. naive_solver. Qed.

Lemma split_sextets a b c : 0 <= a < 256 -> 0 <= b < 256 -> 0 <= c < 256 ->
  0 <= a / 4 < 64 /\ 0 <= a mod 4 * 16 < 64 /\ 0 <= a mod 4 * 16 + b / 16 < 64 /\ 0 <= b mod 16 * 4 < 64 /\ 0 <= b mod 16 * 4 + c / 64 < 64 /\ 0 <= c mod 64 < 64.
Proof. intros Ha Hb Hc. split_and!; Z.to_euclidean_division_equations; lia. Qed.

Lemma join_bytes a b c : 0 <= a < 256 -> 0 <= b < 256 -> 0 <= c < 256 ->
  a / 4 * 4 + a mod 4 * 16 / 16 = a /\ a / 4 * 4 + (a mod 4 * 16 + b / 16) / 16 = a /\
  (a mod 4 * 16 + b / 16) mod 16 * 16 + b mod 16 * 4 / 4 = b /\ (a mod 4 * 16 + b / 16) mod 16 * 16 + (b mod 16 * 4 + c / 64) / 4 = b /\
  (b mod 16 * 4 + c / 64) mod 4 * 64 + c mod 64 = c.
Proof. intros Ha Hb Hc. split_and!; Z.to_euclidean_division_equations; lia. Qed.

(** Strings three bytes at a time. *)
Lemma string_ind3 (P : string -> Prop) :
  P ""%string -> (forall a, P (String a "")) -> (forall a b, P (String a (String b ""))) ->
  (forall a b c s, P s -> P (String a (String b (String c s)))) -> forall s, P s.
Proof.
  intros H0 H1 H2 H3. fix IH 1. intros [|a [|b [|c s]]]; [exact H0|apply H1|apply H2|apply H3, IH].
Qed.

Ltac sextet_bounds a b c :=
  let H1 := fresh in let H2 := fresh in
  pose proof (split_sextets (byte_val a) (byte_val b) (byte_val c) (byte_val_bound a) (byte_val_bound b) (byte_val_bound c)) as H1;
  pose proof (join_bytes (byte_val a) (byte_val b) (byte_val c) (byte_val_bound a) (byte_val_bound b) (byte_val_bound c)) as H2;
  destruct H1 as (B1 & B2 & B3 & B4 & B5 & B6); destruct H2 as (J1 & J2 & J3 & J4 & J5).

Lemma encode_no_newline pad1 pad2 s : without_newlines pad1 = pad1 -> without_newlines pad2 = pad2 ->
  without_newlines (base64_encode pad1 pad2 s) = base64_encode pad1 pad2 s.
Proof.
  intros P1 P2. induction s as [|a|a b|a b c s IH] using string_ind3; [done|..].
  - sextet_bounds a a a. cbn [base64_encode without_newlines]. rewrite !sextet_newline by done. by rewrite P2.
  - sextet_bounds a b a. cbn [base64_encode without_newlines]. rewrite !sextet_newline by done. by rewrite P1.
  - sextet_bounds a b c. cbn [base64_encode without_newlines]. rewrite !sextet_newline by done. by rewrite IH.
Qed.

Lemma raw_decode_encode s : raw_decode (RawStdEncode s) = Some s.
Proof.
  unfold RawStdEncode. induction s as [|a|a b|a b c s IH] using string_ind3; [done|..].
  - sextet_bounds a a a. cbn [base64_encode raw_decode]. rewrite !sextet_roundtrip by done. cbn [mbind option_bind].
    unfold group2. cbn. rewrite J1. by rewrite byte_of_val.
  - sextet_bounds a b a. cbn [base64_encode raw_decode]. rewrite !sextet_roundtrip by done. cbn [mbind option_bind].
    unfold group3. cbn. rewrite J2, J3. by rewrite !byte_of_val.
  - sextet_bounds a b c. cbn [base64_encode raw_decode]. rewrite !sextet_roundtrip by done. cbn [mbind option_bind]. rewrite IH. cbn [mbind option_bind].
    unfold group4. cbn. rewrite J2, J4, J5. by rewrite !byte_of_val.
Qed.

Lemma RawStdDecode_Encode s : RawStdDecode (RawStdEncode s) = Some s.
Proof. unfold RawStdDecode, RawStdEncode. rewrite encode_no_newline by done. apply raw_decode_encode. Qed.

Lemma StdDecode_Encode s : StdDecode (StdEncode s) = Some s.
Proof.
  unfold StdDecode, StdEncode. rewrite encode_no_newline by done.
  induction s as [|a|a b|a b c s IH] using string_ind3; [done|..].
  - sextet_bounds a a a. cbn [base64_encode std_decode]. rewrite !sextet_roundtrip by done. cbn.
    unfold group2. cbn. rewrite J1. by rewrite byte_of_val.
  - sextet_bounds a b a. cbn [base64_encode std_decode]. rewrite (proj2 (sextet_other _ B4)), !sextet_roundtrip by done. cbn.
    unfold group3. cbn. rewrite J2, J3. by rewrite !byte_of_val.
  - sextet_bounds a b c. cbn [base64_encode std_decode]. rewrite (proj2 (sextet_other _ B6)), !sextet_roundtrip by done. cbn [mbind option_bind]. rewrite IH. cbn [mbind option_bind].
    unfold group4. cbn. rewrite J2, J4, J5. by rewrite !byte_of_val.
Qed.

Lemma RawStdEncode_no_dollar s : lacks "$" (RawStdEncode s) = true.
Proof.
  unfold RawStdEncode, lacks. induction s as [|a|a b|a b c s IH] using string_ind3; [done|..].
  - sextet_bounds a a a. cbn [base64_encode str_forall]. by rewrite !(fun n H => proj1 (sextet_other n H)).
  - sextet_bounds a b a. cbn [base64_encode str_forall]. by rewrite !(fun n H => proj1 (sextet_other n H)).
  - sextet_bounds a b c. cbn [base64_encode str_forall]. by rewrite !(fun n H => proj1 (sextet_other n H)), IH.
Qed.

(** * Passwords *)

Definition version_check (n : Z) : bool :=
  bool_decide (scan_int (append_int n 0) = Some (n, ""%string)) && lacks "$" ("v=" +:+ append_int n 0).

Lemma version_checked n : 0 <= n < 100 -> version_check n = true.
Proof. intros H. apply (check_range_spec version_check 7 0); [vm_compute; reflexivity|]. change (2 ^ Z.of_nat 7) with 128. lia. Qed.

Section PasswordLaws.
Context `{PasswordCryptoLaws}.

Lemma encoded_parts salt hash :
  split_byte "$" (encodePasswordHash salt hash) =
    [""; "argon2id"; "v=" +:+ append_int argon2_Version 0; "m=65536,t=3,p=2"; RawStdEncode salt; RawStdEncode hash]%string.
Proof using All.
  pose proof (version_checked argon2_Version Version_range) as Hv. unfold version_check in Hv. apply andb_true_iff in Hv as [_ Hv].
  assert (E : encodePasswordHash salt hash =
    (String "$" "" +:+ "argon2id" +:+ String "$" "" +:+ ("v=" +:+ append_int argon2_Version 0) +:+ String "$" "" +:+ "m=65536,t=3,p=2" +:+
     String "$" "" +:+ RawStdEncode salt +:+ String "$" "" +:+ RawStdEncode hash)%string) by reflexivity.
  rewrite E, split_byte_cons. f_equal. rewrite split_byte_field by done. f_equal.
  rewrite split_byte_field by (by apply lacks_split). f_equal. rewrite split_byte_field by done. f_equal.
  rewrite split_byte_field by (apply lacks_split, RawStdEncode_no_dollar). f_equal. apply lacks_split, RawStdEncode_no_dollar.
Qed.

Lemma decode_encode_hash salt hash : 0 < strlen hash < 2 ^ 32 ->
  decodePasswordHash (encodePasswordHash salt hash) = Ok (mkArgon argonMemoryKiB argonIterations argonParallelism (strlen hash), salt, hash).
Proof using All.
  intros Hl. unfold decodePasswordHash. rewrite encoded_parts.
  pose proof (version_checked argon2_Version Version_range) as Hv. unfold version_check in Hv. apply andb_true_iff in Hv as [Hv%bool_decide_eq_true _].
  rewrite bool_decide_eq_true_2 by done. cbn [negb].
  change (scan_literal "v=" ("v=" +:+ append_int argon2_Version 0)) with (Some (append_int argon2_Version 0)). cbn [mbind option_bind].
  rewrite Hv, Z.eqb_refl. cbn [negb].
  replace (scan_parameters "m=65536,t=3,p=2") with (Some (65536, 3, 2)) by (vm_compute; reflexivity).
  rewrite !RawStdDecode_Encode. replace (strlen hash =? 0) with false by (symmetry; apply Z.eqb_neq; lia). cbn.
  by rewrite Z.mod_small by lia.
Qed.

(** A hash of a password verifies exactly the passwords with the same Argon2
    key under its salt, with the parameters it was made with; a hash is never
    the empty text that marks an account without a password. *)
Theorem password_round_trip salt password hash :
  HashPassword salt password = Ok hash ->
  hash <> ""%string /\ minimumPasswordLength <= rune_count 0 password /\
  VerifyPassword hash password = Ok true /\
  forall candidate, VerifyPassword hash candidate =
    Ok (bool_decide (IDKey candidate salt argonIterations argonMemoryKiB argonParallelism passwordHashBytes =
                     IDKey password salt argonIterations argonMemoryKiB argonParallelism passwordHashBytes)).
Proof using All.
  unfold HashPassword. intros [Hm E]%reject_ok. injection E as <-.
  assert (Hv : forall candidate, VerifyPassword (encodePasswordHash salt (IDKey password salt argonIterations argonMemoryKiB argonParallelism passwordHashBytes)) candidate =
    Ok (bool_decide (IDKey candidate salt argonIterations argonMemoryKiB argonParallelism passwordHashBytes =
                     IDKey password salt argonIterations argonMemoryKiB argonParallelism passwordHashBytes))).
  { intros candidate. unfold VerifyPassword. rewrite decode_encode_hash; rewrite IDKey_length by done; done. }
  split; [done|]. split; [apply Z.ltb_ge in Hm; lia|]. split; [|exact Hv]. rewrite Hv. by rewrite bool_decide_eq_true_2.
Qed.
End PasswordLaws.

(** * Secrets *)

Lemma drop_str_app s t : drop_str (String.length s) (s +:+ t) = t.
Proof. induction s as [|a s IH]; [by destruct t|exact IH]. Qed.

Lemma substring_app s t : substring 0 (String.length s) (s +:+ t) = s.
Proof. induction s as [|a s IH]; [by destruct t|]. change (String a s +:+ t) with (String a (s +:+ t)). simpl. by rewrite IH. Qed.

Lemma has_prefix_app s t : has_prefix s (s +:+ t) = true.
Proof. induction s as [|a s IH]; [done|]. simpl. rewrite Ascii.eqb_refl. exact IH. Qed.

Lemma take_bytes_app n s t : strlen s = n -> take_bytes n (s +:+ t) = s.
Proof. intros <-. unfold take_bytes, strlen. rewrite Nat2Z.id. apply substring_app. Qed.

Lemma drop_bytes_app n s t : strlen s = n -> drop_bytes n (s +:+ t) = t.
Proof. intros <-. unfold drop_bytes, strlen. rewrite Nat2Z.id. apply drop_str_app. Qed.

Lemma strlen_app s t : strlen (s +:+ t) = strlen s + strlen t.
Proof. unfold strlen. rewrite str_length_app. lia. Qed.

Lemma EncodeToString_length s : strlen (EncodeToString s) = 2 * strlen s.
Proof. unfold strlen. induction s as [|a s IH]; [done|]. cbn [EncodeToString String.length]. lia. Qed.

Lemma take_bytes_length n s : 0 <= n <= strlen s -> strlen (take_bytes n s) = n.
Proof.
  unfold take_bytes, strlen. intros Hn. enough (E : String.length (substring 0 (Z.to_nat n) s) = Z.to_nat n) by lia.
  assert (Hk : (Z.to_nat n <= String.length s)%nat) by lia. revert Hk. clear Hn. generalize (Z.to_nat n) as k.
  induction s as [|a s IH]; intros [|k] Hk; simpl in *; [done|lia|done|]. f_equal. apply IH. lia.
Qed.

(** A box whose keys have the identifiers they are kept under. *)
Definition box_ok `{SecretCrypto} (box : SecretBox) : Prop :=
  map_Forall (fun id key => identityKeyID key = id) (box_keys box) /\
  is_Some (box_keys box !! box_activeID box) /\ is_Some (box_keys box !! box_legacyID box).

Section SecretLaws.
Context `{SecretCryptoLaws}.

Lemma identityKeyID_length key : strlen (identityKeyID key) = 16.
Proof using All. unfold identityKeyID. rewrite EncodeToString_length, take_bytes_length; [done|]. rewrite key_digest_length. done. Qed.

Lemma Encrypt_total box nonce plaintext : box_ok box -> is_ok (Encrypt box nonce plaintext) = true.
Proof. intros (_ & [key Hk] & _). unfold Encrypt. by rewrite Hk. Qed.

(** A ciphertext is read by any box that has the key it was made with. *)
Lemma Decrypt_Encrypt box box' nonce plaintext ciphertext :
  box_ok box -> box_keys box' !! box_activeID box = box_keys box !! box_activeID box -> strlen nonce = gcmNonceSize ->
  Encrypt box nonce plaintext = Ok ciphertext -> Decrypt box' ciphertext = Ok plaintext.
Proof using All.
  intros (Hid & [key Hk] & _) Hsame Hn. unfold Encrypt. rewrite Hk. intros [= <-].
  assert (Hl : strlen (box_activeID box) = 16) by (rewrite <- (Hid _ _ Hk); apply identityKeyID_length).
  assert (Hh : strlen (ciphertextEnvelope +:+ box_activeID box) = headerSize) by (rewrite strlen_app, Hl; done).
  rewrite str_app_assoc. unfold Decrypt, ciphertextKey.
  replace (headerSize <=? strlen ((ciphertextEnvelope +:+ box_activeID box) +:+ nonce +:+
    Seal key nonce plaintext (ciphertextEnvelope +:+ box_activeID box))) with true
    by (symmetry; apply Z.leb_le; rewrite strlen_app, Hh; unfold strlen; lia).
  replace (has_prefix ciphertextEnvelope _) with true by (rewrite str_app_assoc, has_prefix_app; done).
  cbn [andb]. rewrite (take_bytes_app headerSize) by done. rewrite (drop_bytes_app headerSize) by done.
  change (strlen ciphertextEnvelope) with 4. rewrite (drop_bytes_app 4) by done. rewrite Hsame, Hk.
  replace (strlen (nonce +:+ _) <? gcmNonceSize) with false by (symmetry; apply Z.ltb_ge; rewrite strlen_app, Hn; unfold strlen; lia).
  rewrite (take_bytes_app gcmNonceSize), (drop_bytes_app gcmNonceSize) by done. by rewrite Open_Seal.
Qed.

Lemma Decrypt_extend box box' ciphertext plaintext :
  box_keys box ⊆ box_keys box' -> box_legacyID box' = box_legacyID box -> Decrypt box ciphertext = Ok plaintext -> Decrypt box' ciphertext = Ok plaintext.
Proof.
  intros Hsub Hleg. unfold Decrypt, ciphertextKey. rewrite Hleg. destruct (_ && _).
  all: match goal with |- match ?o with _ => _ end = _ -> _ => destruct o as [key|] eqn:E; [|discriminate] end.
  all: by rewrite (lookup_weaken _ _ _ _ E Hsub).
Qed.

Lemma parse_ring ring : keyring_of_json (keyring_json ring) = Some ring -> parseSecretBox (keyring_json ring) =
  (reject negb (ring_Version ring =? keyringVersion) || bool_decide (ring_Keys ring = ∅)
     as "identity key file is neither a legacy key nor a supported keyring"%string ;;
   reject negb (bool_decide (map_Forall (fun id encoded => is_Some (ring_key id encoded)) (ring_Keys ring)))
      as "identity keyring contains invalid key"%string ;;
   let keys := map_imap ring_key (ring_Keys ring) in
   reject bool_decide (keys !! ring_ActiveID ring = None) || bool_decide (keys !! ring_LegacyID ring = None)
      as "identity keyring references an unavailable key"%string ;;
   Ok (mkSecretBox (ring_ActiveID ring) (ring_LegacyID ring) keys)).
Proof using All.
  intros E. unfold parseSecretBox. pose proof (keyring_json_length ring). replace (strlen (keyring_json ring) =? identityKeyBytes) with false
    by (symmetry; apply Z.eqb_neq; unfold identityKeyBytes; lia).
  unfold decodeKeyring. rewrite E. by destruct (_ || _).
Qed.

Lemma ring_key_Some id encoded key : ring_key id encoded = Some key <-> StdDecode encoded = Some key /\ strlen key = 32 /\ identityKeyID key = id.
Proof.
  unfold ring_key. destruct (StdDecode encoded) as [k|]; simpl; [|naive_solver]. unfold identityKeyBytes.
  destruct (Z.eqb_spec (strlen k) 32); simpl; [|naive_solver]. case_bool_decide; naive_solver.
Qed.

Lemma ring_key_encode key : strlen key = 32 -> ring_key (identityKeyID key) (StdEncode key) = Some key.
Proof. intros Hl. apply ring_key_Some. by rewrite StdDecode_Encode. Qed.

(** The box of a keyring. *)
Definition ring_box (ring : keyringFile) : SecretBox := mkSecretBox (ring_ActiveID ring) (ring_LegacyID ring) (map_imap ring_key (ring_Keys ring)).
Definition ring_ok (ring : keyringFile) : Prop :=
  ring_Version ring = keyringVersion /\ ring_Keys ring <> ∅ /\ map_Forall (fun id encoded => is_Some (ring_key id encoded)) (ring_Keys ring) /\
  is_Some (box_keys (ring_box ring) !! ring_ActiveID ring) /\ is_Some (box_keys (ring_box ring) !! ring_LegacyID ring).

Lemma ring_box_ok ring : ring_ok ring -> box_ok (ring_box ring).
Proof.
  intros (_ & _ & _ & Ha & Hl). split; [|done]. intros id key Hk. simpl in Hk. rewrite map_lookup_imap in Hk.
  destruct (ring_Keys ring !! id) as [encoded|]; [|done]. simpl in Hk. apply ring_key_Some in Hk. naive_solver.
Qed.

Lemma decodeKeyring_Ok data ring : decodeKeyring data = Ok ring <-> keyring_of_json data = Some ring /\ ring_Version ring = keyringVersion /\ ring_Keys ring <> ∅.
Proof.
  unfold decodeKeyring. destruct (keyring_of_json data) as [r|]; [|naive_solver]. rewrite reject_ok, orb_false_iff, negb_false_iff, Z.eqb_eq, bool_decide_eq_false.
  naive_solver.
Qed.

Lemma parse_ring_Ok data box : strlen data <> 32 ->
  parseSecretBox data = Ok box <-> exists ring, decodeKeyring data = Ok ring /\ ring_ok ring /\ box = ring_box ring.
Proof.
  intros Hl. unfold parseSecretBox. replace (strlen data =? identityKeyBytes) with false by (symmetry; by apply Z.eqb_neq).
  rewrite bind_ok. split.
  - intros (ring & Hd & Hp). exists ring. split; [done|]. apply decodeKeyring_Ok in Hd as (_ & Hv & Hne).
    rewrite !reject_ok, negb_false_iff, orb_false_iff, !bool_decide_eq_false, bool_decide_eq_true in Hp. destruct Hp as (Hf & (Ha & Hg) & [= <-]).
    split; [|done]. split_and!; try done; by apply not_eq_None_Some.
  - intros (ring & Hd & (Hv & Hne & Hf & Ha & Hg) & ->). exists ring. split; [done|].
    rewrite !reject_ok, negb_false_iff, orb_false_iff, !bool_decide_eq_false, bool_decide_eq_true. split_and!; try done; by apply not_eq_None_Some.
Qed.

Lemma parse_json ring : ring_ok ring -> parseSecretBox (keyring_json ring) = Ok (ring_box ring) /\ decodeKeyring (keyring_json ring) = Ok ring.
Proof using All.
  intros Hr. assert (Hd : decodeKeyring (keyring_json ring) = Ok ring).
  { apply decodeKeyring_Ok. rewrite keyring_json_of. destruct Hr as (? & ? & _). done. }
  split; [|done]. apply parse_ring_Ok; [pose proof (keyring_json_length ring); lia|]. eauto.
Qed.

Lemma single_ring_ok v active encoded key : v = keyringVersion -> ring_key active encoded = Some key ->
  ring_ok (mkKeyring v active active {[ active := encoded ]}) /\
  ring_box (mkKeyring v active active {[ active := encoded ]}) = mkSecretBox active active {[ active := key ]}.
Proof.
  intros Hv Hk.
  assert (E : map_imap ring_key {[ active := encoded ]} = {[ active := key ]}).
  { apply map_eq. intros i. rewrite map_lookup_imap. destruct (decide (i = active)) as [->|Hi].
    - rewrite !lookup_singleton_eq. exact Hk.
    - by rewrite !lookup_singleton_ne by done. }
  unfold ring_ok, ring_box. simpl. rewrite E. split; [|done]. rewrite !lookup_singleton_eq. split_and!; [done| | |by eexists..].
  - apply insert_non_empty.
  - apply map_Forall_singleton. by eexists.
Qed.

(** The ring that a key file stands for. *)
Definition file_ring (data : string) : result keyringFile :=
  match decodeKeyring data with
  | Ok ring => Ok ring
  | Err e => if negb (strlen data =? identityKeyBytes) then Err e
             else let id := identityKeyID data in Ok (mkKeyring keyringVersion id id {[ id := StdEncode data ]})
  end.

(** A 32-byte file is a key, not the JSON of a keyring. *)
Definition key_file (data : string) : Prop := strlen data = 32 -> keyring_of_json data = None.

Lemma parse_file data box : key_file data -> parseSecretBox data = Ok box -> exists ring, file_ring data = Ok ring /\ ring_ok ring /\ box = ring_box ring.
Proof using All.
  intros Hkf. destruct (decide (strlen data = 32)) as [Hl|Hl].
  - unfold parseSecretBox, file_ring, decodeKeyring. rewrite (Hkf Hl), Hl. simpl. intros [= <-]. eexists. split; [done|].
    destruct (single_ring_ok keyringVersion (identityKeyID data) (StdEncode data) data eq_refl (ring_key_encode data Hl)) as [Hr Hb]. by rewrite Hb.
  - intros (ring & Hd & Hr & ->)%parse_ring_Ok; [|done]. exists ring. unfold file_ring. by rewrite Hd.
Qed.

(** A ring with one key more. *)
Lemma added_ring ring key : ring_ok ring -> strlen key = 32 -> box_keys (ring_box ring) !! identityKeyID key = None ->
  let ring1 := mkKeyring (ring_Version ring) (identityKeyID key) (ring_LegacyID ring) (<[identityKeyID key:=StdEncode key]> (ring_Keys ring)) in
  ring_ok ring1 /\ box_keys (ring_box ring1) = <[identityKeyID key:=key]> (box_keys (ring_box ring)) /\ box_keys (ring_box ring) ⊆ box_keys (ring_box ring1).
Proof.
  intros (Hv & Hne & Hf & Ha & Hg) Hl Hfresh ring1. assert (Hbox : box_keys (ring_box ring1) = <[identityKeyID key:=key]> (box_keys (ring_box ring))).
  { simpl. apply map_eq. intros i. rewrite map_lookup_imap. destruct (decide (i = identityKeyID key)) as [->|Hi].
    - rewrite !lookup_insert_eq. simpl. by apply ring_key_encode.
    - rewrite !lookup_insert_ne by done. by rewrite map_lookup_imap. }
  split_and!; [|done|rewrite Hbox; by apply insert_subseteq]. unfold ring_ok. rewrite Hbox. simpl. rewrite lookup_insert_eq. split_and!; eauto.
  - apply insert_non_empty.
  - apply map_Forall_insert_2; [rewrite ring_key_encode by done; eauto|done].
  - by apply lookup_insert_is_Some'; right.
Qed.

Lemma ring_box_size ring : ring_ok ring -> size (box_keys (ring_box ring)) = size (ring_Keys ring).
Proof.
  intros (_ & _ & Hf & _). rewrite <- !size_dom. f_equal. apply set_eq. intros id. rewrite !elem_of_dom. simpl. rewrite map_lookup_imap.
  destruct (ring_Keys ring !! id) eqn:E; simpl; [|done]. split; [eauto|]. intros _. by apply (Hf id).
Qed.

(** What beginning a rotation leaves: the file of a ring that reads all that the
    one before did, whose active key is the new one unless a rotation was
    already under way. *)
Lemma begin_rotation data key box :
  key_file data -> strlen key = 32 -> parseSecretBox data = Ok box -> box_keys box !! identityKeyID key = None ->
  exists data1 copy ring1, BeginIdentityKeyRotation data key = (Ok (ring_box ring1), (data1, copy)) /\
    decodeKeyring data1 = Ok ring1 /\ ring_ok ring1 /\ parseSecretBox data1 = Ok (ring_box ring1) /\
    box_keys box ⊆ box_keys (ring_box ring1) /\ ring_LegacyID ring1 = box_legacyID box /\
    (size (box_keys box) = 1%nat -> ring_ActiveID ring1 = identityKeyID key /\ box_keys (ring_box ring1) !! identityKeyID key = Some key).
Proof using All.
  intros Hkf Hl Hp Hfresh. pose proof Hp as Hp0. apply parse_file in Hp as (ring & Hd & Hr & ->); [|done].
  unfold BeginIdentityKeyRotation. fold (file_ring data). cbv zeta. rewrite Hd. rewrite <- (ring_box_size ring Hr). case_bool_decide as Hs.
  - destruct (added_ring ring key Hr Hl Hfresh) as (Hr1 & Hk1 & Hsub). destruct (parse_json _ Hr1) as [Hp1 Hd1]. rewrite Hp1.
    eexists _, _, _. split_and!; try done. intros _. split; [done|]. rewrite Hk1. apply lookup_insert_eq.
  - destruct (parse_json ring Hr) as [Hp1 Hd1]. rewrite Hp1. exists data, None, ring. split_and!; try done.
    unfold file_ring in Hd. destruct (decodeKeyring data) as [r|e] eqn:Edk; [done|]. destruct (Z.eqb_spec (strlen data) identityKeyBytes) as [H32|H32]; [|done].
    simpl in Hd. injection Hd as <-. exfalso. apply Hs. rewrite (ring_box_size _ Hr). simpl. apply map_size_singleton.
Qed.

(** What finalizing it leaves. *)
Lemma finalize_rotation ring data1 :
  decodeKeyring data1 = Ok ring -> ring_ok ring -> exists data2 key, FinalizeIdentityKeyRotation (ring_box ring) data1 = Ok data2 /\ box_keys (ring_box ring) !! ring_ActiveID ring = Some key /\
    parseSecretBox data2 = Ok (mkSecretBox (ring_ActiveID ring) (ring_ActiveID ring) {[ ring_ActiveID ring := key ]}).
Proof using All.
  intros Hd Hr. unfold FinalizeIdentityKeyRotation. rewrite Hd. destruct Hr as (_ & _ & _ & [key Hk] & _). simpl in Hk.
  cbn [box_activeID box_keys ring_box]. rewrite bool_decide_eq_false_2 by congruence. cbn [mbind result_bind]. eexists _, key. split; [done|]. split; [done|].
  rewrite map_lookup_imap in Hk. destruct (ring_Keys ring !! ring_ActiveID ring) as [encoded|] eqn:E; [|done]. simpl in *.
  destruct (single_ring_ok keyringVersion _ _ _ eq_refl Hk) as [Hr2 Hb]. rewrite <- Hb. by apply parse_json.
Qed.
End SecretLaws.
