(* ===== verification/UserService.v ===== *)
(** The identity service (internal/auth/service.go, users.go, policy.go, oidc.go
    and webauthn.go), and the requests on accounts (internal/api/identity.go),
    from the request's session cookie, path and headers and the decoded body to
    the status and the state they leave, with the gate in front of them. The
    clock is read once per operation, and what is drawn at random is an
    argument: raw bytes before they are encoded. Of the libraries, one-time
    codes, OpenID Connect and WebAuthn are parameters, with the hash, mail and
    URL parsers of the standard library. Decoding, cookies sent back, redirects
    and logging are not kept. *)
From Stdlib Require Import ZArith Lia String Ascii.
From stdpp Require Import base tactics list strings gmap sets.
From coqutil Require Import Datatypes.RecordSettersUsingExistingGetters.
From S2P Require Import Prelude GoStrings GoTime Netip NetAddr WorkerModel Sql WorkerService NetworkPolicy EndpointModel EndpointService EndpointAdmin UserStore AssetStore IdentitySecrets.
Open Scope string_scope.
Open Scope Z_scope.

Definition identifierBytes : Z := 16.
Definition sessionTokenBytes : Z := 32.
Definition recentMFALifetime : Duration := 10 * Minute.
Definition bootstrapLifetime : Duration := 10 * Minute.
Definition recoveryCodeCount : Z := 10.
Definition recoveryCodeBytes : Z := 10.
Definition totpPeriodSeconds : Z := 30.
Definition loginFailureWindow : Duration := 15 * Minute.
Definition loginFailureThreshold : Z := 5.
Definition loginBaseBlock : Duration := Minute.
Definition loginMaximumBlock : Duration := 15 * Minute.
Definition invitationLifetime : Duration := 72 * Hour.
Definition webAuthnCeremonyLifetime : Duration := 5 * Minute.

Definition ErrInvalidCredentials : error := "invalid email or password".
Definition ErrLoginRateLimited : error := "too many login attempts; try again later".
Definition ErrWebAuthnCeremonyExpired : error := "WebAuthn ceremony expired or was already used".

(** [hex.DecodeString] *)
Fixpoint DecodeString (s : string) : option string :=
  match s with
  | EmptyString => Some ""
  | String a (String b rest) => h ← hex_val a ; l ← hex_val b ; r ← DecodeString rest ; Some (String (byte_of (h * 16 + l)) r)
  | String _ EmptyString => None
  end.

(** * Requests and pending state *)

Record BootstrapRequest := mkBootstrapRequest {
  Bootstrap_Email : string; Bootstrap_DisplayName : string; Bootstrap_Password : string; Bootstrap_SourceIP : string }.
(** The address to scan and its picture are drawn from the secret by the library. *)
Record BootstrapEnrollment := mkEnrollment { Enrollment_Token : string; Enrollment_Secret : string; Enrollment_Expires : Time }.
Record pendingBootstrap := mkPendingBootstrap { pb_request : BootstrapRequest; pb_secret : string; pb_expires : Time }.
Record pendingInvitation := mkPendingInvitation {
  pi_invitation : Invitation; pi_displayName : string; pi_password : string; pi_secret : string; pi_expires : Time }.
Record InvitationResult := mkInvitationResult { Result_Invitation : Invitation; Result_Token : string }.

Record OIDCProviderRequest := mkOIDCRequest {
  OIDC_ID : string; OIDC_Name : string; OIDC_IssuerURL : string; OIDC_ClientID : string; OIDC_ClientSecret : string; OIDC_RedirectURL : string;
  OIDC_Mode : ProvisioningMode; OIDC_AllowedTenantID : string; OIDC_AllowedEmailDomains : list string; OIDC_AllowedGroups : list string;
  OIDC_RoleMappings : gmap string UserRole; OIDC_DefaultRole : UserRole; OIDC_ConfirmAdministrator : bool }.
Record oidcCeremonyState := mkOIDCState { os_provider : string; os_nonce : string; os_verifier : string; os_expires : Time }.
(** The claims of a verified ID token. *)
Record oidcRawClaims := mkRawClaims {
  raw_Subject : string; raw_Email : string; raw_Name : string; raw_TenantID : string; raw_Nonce : string; raw_EmailVerified : bool;
  raw_Groups : list string }.

Record ServiceState := mkService {
  sv_db : UserDb; sv_pending : gmap string pendingBootstrap; sv_invites : gmap string pendingInvitation }.

Definition on_db {A} (m : st UserDb A) : st ServiceState A := fun s => let '(r, db) := m (sv_db s) in (r, s <| sv_db := db |>).
Definition read_db {A} (f : UserDb -> result A) : st ServiceState A := fun s => (f (sv_db s), s).
(** An early return of a method. *)
Notation "'refuse_if' c 'as' e ;; k" := (if c then st_err e else k) (at level 100, c at next level, e at next level, k at level 200, right associativity).

(** * Libraries *)

Class IdentityLibraries := {
  (** sha256.Sum256 *)
  Sum256 : string -> string;
  (** The address of [mail.ParseAddress]. *)
  ParseAddress : string -> option string;
  (** The scheme and the host of [url.Parse]. *)
  ParseURL : string -> option (string * string);
  (** [totp.GenerateCodeCustom] and [totp.ValidateCustom], 6 digits every 30 seconds, one period of skew. *)
  GenerateCode : string -> Time -> option string;
  ValidateCode : string -> string -> Time -> bool;
  (** [json.Marshal] and [json.Unmarshal] of the OIDC ceremony state. *)
  encode_state : oidcCeremonyState -> string;
  decode_state : string -> option oidcCeremonyState }.

(** github.com/go-webauthn: its data, their JSON, and the checks of a browser's answer [R]. *)
Class WebAuthnLibrary := {
  waCredential : Type; waSession : Type; waRequest : Type;
  cred_ID : waCredential -> string; cred_SignCount : waCredential -> Z; cred_BackupEligible : waCredential -> bool; cred_BackupState : waCredential -> bool;
  session_Expires : waSession -> Time;
  encode_credential : waCredential -> string; decode_credential : string -> option waCredential;
  encode_session : waSession -> string; decode_session : string -> option waSession;
  BeginRegistration : User -> list waCredential -> result waSession;
  FinishRegistration : User -> list waCredential -> waSession -> waRequest -> result waCredential;
  BeginLogin : User -> list waCredential -> result waSession;
  FinishLogin : User -> list waCredential -> waSession -> waRequest -> result waCredential }.

Section Service.
Context {LC : LowerCase} {PC : PasswordCrypto} {SC : SecretCrypto} {IL : IdentityLibraries}.
(** The service's secret box. *)
Context (secrets : SecretBox).

Abbreviation svc := (st ServiceState).

(** * Helpers *)

Definition randomHex (raw : string) : string := EncodeToString raw.

Definition sessionTokenHash (token : string) : result string :=
  match DecodeString token with
  | Some raw => if strlen raw =? sessionTokenBytes then Ok (Sum256 raw) else Err "invalid session token"
  | None => Err "invalid session token"
  end.

Definition validEmail (raw : string) : result string :=
  let email := ToLowerText (TrimSpace raw) in
  match ParseAddress email with
  | Some address => if negb (bool_decide (address = email)) || lacks "@" email then Err "valid email address is required" else Ok email
  | None => Err "valid email address is required"
  end.

Definition validRole (role : UserRole) : bool := one_of role [RoleAdministrator; RoleAnalyst; RoleViewer].
Definition validIdentityKind (kind : IdentityKind) : bool := one_of kind [IdentityLocal; IdentitySSO].

(** The codes shown and the hashes stored, from the bytes drawn for each. *)
Definition recovery_display (raw : string) : string :=
  let code := randomHex raw in take_bytes 10 code +:+ "-" +:+ drop_bytes 10 code.
Definition generateRecoveryCodes (draws : list string) : list string * list string :=
  let codes := recovery_display <$> draws in (codes, Sum256 <$> codes).

Definition loginThrottleKeys (email sourceIP : string) : list string :=
  [Sum256 ("account:" +:+ ToLowerText (TrimSpace email)); Sum256 ("source:" +:+ sourceIP)].

(** * Bootstrap *)

Definition Initialized (s : ServiceState) : bool := IdentityInitialized (sv_db s).

(** [secret] is the new TOTP secret, [token] the bytes of the enrollment token and [salt] those of the hash that is thrown away. *)
Definition BeginBootstrap (request : BootstrapRequest) (now : Time) (salt secret token : string) : svc BootstrapEnrollment := fun s =>
  (refuse_if Initialized s as ErrAlreadyInitialized ;;
   email ⇐ st_lift (validEmail (Bootstrap_Email request)) ;;
   let displayName := TrimSpace (Bootstrap_DisplayName request) in
   refuse_if bool_decide (displayName = "") as "display name is required" ;;
   _ ⇐ st_lift (HashPassword salt (Bootstrap_Password request)) ;;
   fun s =>
     let token := randomHex token in
     let expiresAt := Add now bootstrapLifetime in
     let request := mkBootstrapRequest email displayName (Bootstrap_Password request) (Bootstrap_SourceIP request) in
     (Ok (mkEnrollment token secret expiresAt), s <| sv_pending := {[ token := mkPendingBootstrap request secret expiresAt ]} |>)) s.

Definition takePendingBootstrap (token : string) (now : Time) : svc pendingBootstrap := fun s =>
  let pending := sv_pending s !! token in
  let s := s <| sv_pending := delete token (sv_pending s) |> in
  match pending with
  | Some pending => if Before now (pb_expires pending) then (Ok pending, s) else (Err "bootstrap enrollment expired", s)
  | None => (Err "bootstrap enrollment expired", s)
  end.

(** What is drawn to make a local account: salt, identifier, nonce and recovery codes. *)
Record AccountDraws := mkDraws { dr_salt : string; dr_id : string; dr_nonce : string; dr_codes : list string }.

Definition CompleteBootstrap (token passcode : string) (now : Time) (draws : AccountDraws) : svc (User * list string) :=
  pending ⇐ takePendingBootstrap token now ;;
  refuse_if negb (ValidateCode (TrimSpace passcode) (pb_secret pending) now) as "invalid authenticator code" ;;
  passwordHash ⇐ st_lift (HashPassword (dr_salt draws) (Bootstrap_Password (pb_request pending))) ;;
  let userID := randomHex (dr_id draws) in
  encryptedSecret ⇐ st_lift (Encrypt secrets (dr_nonce draws) (pb_secret pending)) ;;
  let '(recoveryCodes, recoveryHashes) := generateRecoveryCodes (dr_codes draws) in
  let user := mkUser userID (Bootstrap_Email (pb_request pending)) (Bootstrap_DisplayName (pb_request pending)) RoleAdministrator UserActive true now now None in
  let event := mkAuditEvent now userID "identity.bootstrap.completed" AuditInfo "user" userID (Bootstrap_SourceIP (pb_request pending))
                 [("authentication", DString "local"); ("role", DString RoleAdministrator)] in
  _ ⇐ on_db (BootstrapAdministrator user passwordHash (mkBootstrapMFA encryptedSecret recoveryHashes) event) ;;
  st_ret (user, recoveryCodes).

(** * Passwords and the throttle *)

Definition VerifyLocalPassword (email password : string) (db : UserDb) : result User :=
  match LocalIdentityByEmail email db with
  | Err _ => Err ErrInvalidCredentials
  | Ok identity =>
      reject negb (bool_decide (User_Status (Identity_User identity) = UserActive)) || bool_decide (Identity_PasswordHash identity = "") as ErrInvalidCredentials ;;
      match VerifyPassword (Identity_PasswordHash identity) password with
      | Err e => Err ("verify stored password: " +:+ e)
      | Ok valid => reject negb valid as ErrInvalidCredentials ;; Ok (Identity_User identity)
      end
  end.

Fixpoint loginBlocked (keys : list string) (now : Time) (db : UserDb) : result bool :=
  match keys with
  | [] => Ok false
  | key :: rest => '(_, blocked) ← LoginThrottle key now db ; if (blocked : bool) then Ok true else loginBlocked rest now db
  end.

(** Failures to record are logged and go on. *)
Definition recordLoginFailure (keys : list string) (sourceIP : string) (now : Time) (db : UserDb) : UserDb :=
  let db := fold_left (fun db key => (RecordLoginFailure key now loginFailureWindow loginFailureThreshold loginBaseBlock loginMaximumBlock db).2) keys db in
  (AppendAuditEvent (mkAuditEvent now "" "identity.login.failed" AuditWarning "authentication" "" sourceIP [("reason", DString "invalid_credentials")]) db).2.

(** [err] after the failure is recorded. *)
Definition login_failed {A} (keys : list string) (sourceIP : string) (now : Time) (e : error) : svc A := fun s =>
  (Err e, s <| sv_db ::= recordLoginFailure keys sourceIP now |>).

(** * Second factors *)

Definition verifyRecoveryCode (userID code sourceIP : string) (now : Time) : st UserDb Time :=
  let event := mkAuditEvent now userID "identity.recovery_code.used" AuditWarning "user" userID sourceIP
                 [("remaining_action", DString "review account MFA methods")] in
  used ⇐ ConsumeRecoveryCode userID (Sum256 code) now event ;;
  if (used : bool) then st_ret now else st_err "invalid recovery code".

Definition totp_candidate (now : Time) (offset : Z) : Time := Add now (offset * totpPeriodSeconds * Second).
Definition totp_counter (t : Time) : Z := Z.quot (Unix t) totpPeriodSeconds.

Fixpoint matching_counter (secret passcode : string) (now : Time) (offsets : list Z) : option Z :=
  match offsets with
  | [] => None
  | offset :: rest =>
      let candidateTime := totp_candidate now offset in
      if bool_decide (GenerateCode secret candidateTime = Some passcode) then Some (totp_counter candidateTime)
      else matching_counter secret passcode now rest
  end.
Definition matchingTOTPCounter (secret passcode : string) (now : Time) : option Z := matching_counter secret passcode now [-1; 0; 1].

Definition verifyTOTP (userID passcode : string) (now : Time) : st UserDb Time :=
  found ⇐ st_read (TOTPSecret userID) ;;
  secret ⇐ st_lift (Decrypt secrets found.1) ;;
  match matchingTOTPCounter secret (TrimSpace passcode) now with
  | None => st_err "invalid authenticator code"
  | Some counter =>
      consumed ⇐ ConsumeTOTPCounter userID counter ;;
      if (consumed : bool) then st_ret now else st_err "authenticator code was already used"
  end.

Definition verifySecondFactor (userID value sourceIP : string) (now : Time) : st UserDb Time :=
  let value := TrimSpace (ToLowerText value) in
  if negb (lacks "-" value) then verifyRecoveryCode userID value sourceIP now else verifyTOTP userID value now.

(** * Sessions *)

(** The bytes of the token and of the public identifier. *)
Record SessionDraws := mkSessionDraws { dr_token : string; dr_public : string }.

Definition newSession (user : User) (sourceIP userAgent : string) (mfaVerifiedAt now : Time) (draws : SessionDraws) (policy : AuthenticationPolicy) : Session :=
  let lifetime := wrap64 (Policy_SessionLifetimeMinutes policy * Minute) in
  mkSession (randomHex (dr_public draws)) (Sum256 (dr_token draws)) (User_ID user) now (Add now lifetime) now
    (if IsZero mfaVerifiedAt then None else Some mfaVerifiedAt) sourceIP (Sum256 userAgent).

Definition CreateSession_ (user : User) (sourceIP userAgent : string) (mfaVerifiedAt now : Time) (draws : SessionDraws) : st UserDb string := fun db =>
  (_ ⇐ CreateSession (newSession user sourceIP userAgent mfaVerifiedAt now draws (AuthenticationPolicy_ db))
         (mkAuditEvent now (User_ID user) "identity.login.succeeded" AuditInfo "session" "" sourceIP []) ;;
   st_ret (EncodeToString (dr_token draws))) db.

Definition mfa_required (role : UserRole) (policy : AuthenticationPolicy) : bool := default false (Policy_MFARequired policy !! role).

Definition AuthenticateLocal (email password passcode sourceIP userAgent : string) (now : Time) (draws : SessionDraws) : svc (User * string) := fun s =>
  let keys := loginThrottleKeys email sourceIP in
  match loginBlocked keys now (sv_db s) with
  | Err e => (Err e, s)
  | Ok true => (Err ErrLoginRateLimited, s)
  | Ok false =>
      match VerifyLocalPassword email password (sv_db s) with
      | Err e => login_failed keys sourceIP now e s
      | Ok user =>
          let '(verified, s) :=
            if mfa_required (User_Role user) (AuthenticationPolicy_ (sv_db s))
            then on_db (verifySecondFactor (User_ID user) passcode sourceIP now) s else (Ok ZeroTime, s) in
          match verified with
          | Err _ => login_failed keys sourceIP now ErrInvalidCredentials s
          | Ok verifiedAt =>
              let s := s <| sv_db ::= ClearLoginFailures keys |> in
              (token ⇐ on_db (CreateSession_ user sourceIP userAgent verifiedAt now draws) ;; st_ret (user, token)) s
          end
      end
  end.

Definition HasRecentMFA (userID token : string) (now : Time) (db : UserDb) : result bool :=
  match sessionTokenHash token with
  | Err _ => Err ErrIdentityNotFound
  | Ok hash =>
      verifiedAt ← SessionMFAVerifiedAt hash userID now db ;
      Ok (match verifiedAt with Some t => Sub now t <=? recentMFALifetime | None => false end)
  end.

Definition RefreshMFA (user : User) (token code sourceIP : string) (now : Time) : st UserDb unit := fun db =>
  let '(verified, db) := verifySecondFactor (User_ID user) code sourceIP now db in
  match verified with
  | Err _ => (Err ErrInvalidCredentials, db)
  | Ok verifiedAt =>
      match sessionTokenHash token with
      | Err _ => (Err ErrIdentityNotFound, db)
      | Ok hash => UpdateSessionMFAVerifiedAt hash (User_ID user) verifiedAt db
      end
  end.

Definition Sessions (userID currentToken : string) (now : Time) (db : UserDb) : result (list SessionInfo) :=
  match sessionTokenHash currentToken with
  | Err _ => Err ErrIdentityNotFound
  | Ok hash => Ok (ListUserSessions userID hash now db)
  end.

Definition RevokeSession (user : User) (publicID sourceIP : string) (now : Time) : st UserDb unit :=
  RevokeUserSession (User_ID user) publicID (mkAuditEvent now (User_ID user) "identity.session.revoked" AuditInfo "session" publicID sourceIP []).

Definition RevokeOtherSessions (user : User) (currentToken sourceIP : string) (now : Time) : st UserDb unit :=
  match sessionTokenHash currentToken with
  | Err _ => st_err ErrIdentityNotFound
  | Ok hash => RevokeOtherUserSessions (User_ID user) hash
                 (mkAuditEvent now (User_ID user) "identity.sessions.revoked_others" AuditInfo "user" (User_ID user) sourceIP [])
  end.

Definition SessionUser_ (token : string) (now : Time) : st UserDb User :=
  match sessionTokenHash token with
  | Err _ => st_err ErrIdentityNotFound
  | Ok hash => SessionUser hash now
  end.

Definition Logout (token sourceIP : string) (now : Time) : st UserDb unit := fun db =>
  match sessionTokenHash token with
  | Err _ => (Ok tt, db)
  | Ok hash =>
      match SessionUser hash now db with
      | (Err _, db) => (Ok tt, db)
      | (Ok user, db) => DeleteSession hash (mkAuditEvent now (User_ID user) "identity.logout" AuditInfo "session" "" sourceIP []) db
      end
  end.

(** * users.go *)

Definition BeginLocalInvitation (token displayName password : string) (now : Time) (salt secret pendingToken : string) : svc BootstrapEnrollment := fun s =>
  match DecodeString (TrimSpace token) with
  | None => (Err ErrIdentityNotFound, s)
  | Some rawToken =>
      if negb (strlen rawToken =? sessionTokenBytes) then (Err ErrIdentityNotFound, s) else
      match InvitationByTokenHash (Sum256 rawToken) now (sv_db s) with
      | Err _ => (Err ErrIdentityNotFound, s)
      | Ok invitation =>
          if negb (bool_decide (Invitation_Kind invitation = IdentityLocal)) then (Err ErrIdentityNotFound, s)
          else if bool_decide (TrimSpace displayName = "") then (Err "display name is required", s)
          else match HashPassword salt password with
          | Err e => (Err e, s)
          | Ok _ =>
              let pendingToken := randomHex pendingToken in
              let expiresAt := Add now bootstrapLifetime in
              (Ok (mkEnrollment pendingToken secret expiresAt),
               s <| sv_invites ::= <[ pendingToken := mkPendingInvitation invitation (TrimSpace displayName) password secret expiresAt ]> |>)
          end
      end
  end.

Definition takePendingInvitation (token : string) (now : Time) : svc pendingInvitation := fun s =>
  let pending := sv_invites s !! token in
  let s := s <| sv_invites := delete token (sv_invites s) |> in
  match pending with
  | Some pending => if Before now (pi_expires pending) then (Ok pending, s) else (Err "invitation enrollment expired", s)
  | None => (Err "invitation enrollment expired", s)
  end.

Definition CompleteLocalInvitation (token passcode sourceIP : string) (now : Time) (draws : AccountDraws) : svc (User * list string) :=
  pending ⇐ takePendingInvitation token now ;;
  refuse_if negb (ValidateCode (TrimSpace passcode) (pi_secret pending) now) as "invalid authenticator code" ;;
  passwordHash ⇐ st_lift (HashPassword (dr_salt draws) (pi_password pending)) ;;
  let userID := randomHex (dr_id draws) in
  secret ⇐ st_lift (Encrypt secrets (dr_nonce draws) (pi_secret pending)) ;;
  let '(codes, hashes) := generateRecoveryCodes (dr_codes draws) in
  let user := mkUser userID (Invitation_Email (pi_invitation pending)) (pi_displayName pending) (Invitation_Role (pi_invitation pending)) UserActive true now now None in
  let event := mkAuditEvent now userID "identity.invitation.accepted" AuditInfo "user" userID sourceIP [] in
  _ ⇐ on_db (AcceptLocalInvitation (pi_invitation pending) user passwordHash (mkBootstrapMFA secret hashes) now event) ;;
  st_ret (user, codes).

Definition InviteUser (actor : User) (email : string) (role : UserRole) (kind : IdentityKind) (sourceIP : string) (now : Time) (token id : string) : st UserDb InvitationResult :=
  normalizedEmail ⇐ st_lift (validEmail email) ;;
  refuse_if negb (validRole role) || negb (validIdentityKind kind) as "valid role and identity kind are required" ;;
  let id := randomHex id in
  let invitation := mkInvitation id normalizedEmail role kind (User_ID actor) (Add now invitationLifetime) now (Sum256 token) in
  let event := mkAuditEvent now (User_ID actor) "identity.invitation.created" AuditInfo "invitation" id sourceIP
                 [("email", DString normalizedEmail); ("identity_kind", DString kind); ("role", DString role)] in
  _ ⇐ CreateInvitation invitation event ;;
  st_ret (mkInvitationResult invitation (EncodeToString token)).

Definition UpdateUserAccess_ (actor : User) (userID : string) (role : UserRole) (status : UserStatus) (sourceIP : string) (now : Time) : st UserDb unit :=
  refuse_if negb (validRole role) || negb (one_of status [UserActive; UserDisabled]) as "valid role and account status are required" ;;
  UpdateUserAccess userID role status now
    (mkAuditEvent now (User_ID actor) "identity.user.access_updated" AuditWarning "user" userID sourceIP [("role", DString role); ("status", DString status)]).

(** * policy.go *)

Definition minimumSessionMinutes : Z := 15.
Definition maximumSessionMinutes : Z := 7 * 24 * 60.
Definition minimumRetentionDays : Z := 1.
Definition maximumRetentionDays : Z := 3650.
Definition maximumAuditResults : Z := 500.

Definition validateAuthenticationPolicy (policy : AuthenticationPolicy) : result unit :=
  reject (Policy_SessionLifetimeMinutes policy <? minimumSessionMinutes) || (maximumSessionMinutes <? Policy_SessionLifetimeMinutes policy)
    as "session lifetime must be between 15 minutes and 7 days" ;;
  reject (Policy_AuditRetentionDays policy <? minimumRetentionDays) || (maximumRetentionDays <? Policy_AuditRetentionDays policy)
    as "audit retention must be between 1 and 3650 days" ;;
  reject negb (mfa_required RoleAdministrator policy) as "administrator MFA cannot be disabled" ;;
  Ok tt.

Definition UpdatePolicy (actor : User) (policy : AuthenticationPolicy) (sourceIP : string) (now : Time) : st UserDb unit :=
  _ ⇐ st_lift (validateAuthenticationPolicy policy) ;;
  SaveAuthenticationPolicy policy now
    (mkAuditEvent now (User_ID actor) "identity.authentication_policy.updated" AuditWarning "authentication_policy" "" sourceIP
       [("audit_retention_days", DInt (Policy_AuditRetentionDays policy)); ("mfa_required", DFlags (Policy_MFARequired policy));
        ("session_lifetime_minutes", DInt (Policy_SessionLifetimeMinutes policy))]).

Definition Policy (db : UserDb) : AuthenticationPolicy := AuthenticationPolicy_ db.

Definition AuditEvents (like : string -> AuditEvent -> bool) (text : string) (severity : AuditSeverity) (limit : Z) (db : UserDb) : result (list AuditEvent) :=
  let limit := if (limit <=? 0) || (maximumAuditResults <? limit) then maximumAuditResults else limit in
  reject negb (one_of severity [""; AuditInfo; AuditWarning; AuditError]) as "invalid audit severity" ;;
  Ok (ListAuditEvents like (TrimSpace text) severity limit db).

(** * oidc.go *)

(** go-oidc and oauth2: the discovery of an issuer, and the claims of the ID
    token that a code is exchanged for, verified for the client, if that succeeds. *)
Context (NewProvider : string -> result unit) (Exchange : OIDCProvider -> string -> string -> string -> option oidcRawClaims).

(** The state, nonce and verifier that go into the redirect; [state_token], [nonce] and [box_nonce] are drawn. *)
Definition BeginOIDCLogin (providerID : string) (now : Time) (state_token nonce verifier box_nonce : string) : st UserDb (string * string * string) := fun db =>
  match OIDCProvider_ providerID db with
  | Err _ => (Err ErrIdentityNotFound, db)
  | Ok record =>
      (refuse_if negb (Provider_Enabled (Record_Provider record)) as ErrIdentityNotFound ;;
       _ ⇐ st_lift (NewProvider (Provider_IssuerURL (Record_Provider record))) ;;
       _ ⇐ st_lift (Decrypt secrets (Record_ClientSecretCiphertext record)) ;;
       let state := mkOIDCState providerID (randomHex nonce) verifier (Add now webAuthnCeremonyLifetime) in
       ciphertext ⇐ st_lift (Encrypt secrets box_nonce (encode_state state)) ;;
       _ ⇐ CreateAuthenticationCeremony (mkCeremony (Sum256 state_token) "" CeremonyOIDC ciphertext (os_expires state) now) ;;
       st_ret (randomHex state_token, randomHex nonce, verifier)) db
  end.

Definition consumeOIDCCeremony (token : string) (now : Time) : st UserDb oidcCeremonyState := fun db =>
  match DecodeString (TrimSpace token) with
  | None => (Err ErrInvalidCredentials, db)
  | Some raw =>
      if negb (strlen raw =? sessionTokenBytes) then (Err ErrInvalidCredentials, db) else
      match ConsumeAuthenticationCeremony (Sum256 raw) CeremonyOIDC db with
      | (Err _, db) => (Err ErrInvalidCredentials, db)
      | (Ok ceremony, db) =>
          if negb (Before now (Ceremony_ExpiresAt ceremony)) then (Err ErrInvalidCredentials, db) else
          match Decrypt secrets (Ceremony_StateCiphertext ceremony) with
          | Err e => (Err e, db)
          | Ok encoded => match decode_state encoded with Some state => (Ok state, db) | None => (Err "invalid OIDC state", db) end
          end
      end
  end.

Definition emailDomainAllowed (email : string) (domains : list string) : bool :=
  match split_byte "@" (ToLowerText email) with
  | [_; domain] => existsb (fun d => bool_decide (domain = ToLowerText d)) domains
  | _ => false
  end.
Definition hasAnyGroup (actual allowed : list string) : bool := existsb (fun candidate => one_of candidate allowed) actual.

Definition roleRank (role : UserRole) : Z :=
  if bool_decide (role = RoleAdministrator) then 3 else if bool_decide (role = RoleAnalyst) then 2 else 1.

(** One group of the loop of [authorizeOIDCClaims]. *)
Definition mapped_role (mappings : gmap string UserRole) (role : UserRole) (group : string) : UserRole :=
  match mappings !! group with
  | Some mapped => if roleRank role <? roleRank mapped then mapped else role
  | None => role
  end.

Definition authorizeOIDCClaims (provider : OIDCProvider) (claims : OIDCClaims) : result UserRole :=
  reject negb (bool_decide (Provider_AllowedTenantID provider = "")) && negb (bool_decide (Claims_TenantID claims = Provider_AllowedTenantID provider))
    as "tenant not allowed" ;;
  reject (0 <? Z.of_nat (length (Provider_AllowedEmailDomains provider))) && negb (emailDomainAllowed (Claims_Email claims) (Provider_AllowedEmailDomains provider))
    as "email domain not allowed" ;;
  reject (0 <? Z.of_nat (length (Provider_AllowedGroups provider))) && negb (hasAnyGroup (Claims_Groups claims) (Provider_AllowedGroups provider))
    as "group not allowed" ;;
  Ok (fold_left (mapped_role (Provider_RoleMappings provider)) (Claims_Groups claims) (Provider_DefaultRole provider)).

(** The claims that are handed on; whether the address was verified is not looked at. *)
Definition claims_of (raw : oidcRawClaims) (userID : string) : OIDCClaims :=
  mkOIDCClaims userID (raw_Subject raw) (raw_Email raw) (raw_Name raw) (raw_TenantID raw) (raw_Groups raw).

Definition FinishOIDCLogin (stateToken code sourceIP userAgent : string) (now : Time) (id : string) (draws : SessionDraws) : st UserDb (User * string) := fun db =>
  match consumeOIDCCeremony stateToken now db with
  | (Err e, db) => (Err e, db)
  | (Ok state, db) =>
      match OIDCProvider_ (os_provider state) db with
      | Err _ => (Err ErrInvalidCredentials, db)
      | Ok record =>
          let provider := Record_Provider record in
          (refuse_if negb (Provider_Enabled provider) as ErrInvalidCredentials ;;
           _ ⇐ st_lift (NewProvider (Provider_IssuerURL provider)) ;;
           secret ⇐ st_lift (Decrypt secrets (Record_ClientSecretCiphertext record)) ;;
           match Exchange provider secret code (os_verifier state) with
           | None => st_err ErrInvalidCredentials
           | Some raw =>
               refuse_if negb (bool_decide (raw_Nonce raw = os_nonce state)) || bool_decide (raw_Subject raw = "") || bool_decide (raw_Email raw = "") as ErrInvalidCredentials ;;
               let claims := claims_of raw (randomHex id) in
               match authorizeOIDCClaims provider claims with
               | Err _ => st_err ErrInvalidCredentials
               | Ok role => fun db =>
                   match ResolveOIDCUser provider claims role now (mkAuditEvent now "" "identity.oidc.login" AuditInfo "oidc_provider" (Provider_ID provider) sourceIP []) db with
                   | (Err _, db) => (Err ErrInvalidCredentials, db)
                   | (Ok user, db) => (token ⇐ CreateSession_ user sourceIP userAgent now now draws ;; st_ret (user, token)) db
                   end
               end
           end) db
      end
  end.

(** The first part of [strings.Split(value.Host, ":")]. *)
Definition isLoopbackURL (host : string) : bool :=
  match split_byte ":" host with
  | first :: _ => one_of first ["localhost"; "127.0.0.1"; "[::1]"]
  | [] => false
  end.

Definition provider_url_ok (raw : string) : bool :=
  match ParseURL raw with
  | Some (scheme, host) => negb (bool_decide (host = "")) && (bool_decide (scheme = "https") || isLoopbackURL host)
  | None => false
  end.

Definition validateOIDCProviderRequest (request : OIDCProviderRequest) : result unit :=
  reject bool_decide (TrimSpace (OIDC_Name request) = "") || bool_decide (TrimSpace (OIDC_ClientID request) = "") || bool_decide (OIDC_ClientSecret request = "")
    as "provider name, client ID, and client secret are required" ;;
  reject negb (provider_url_ok (OIDC_IssuerURL request) && provider_url_ok (OIDC_RedirectURL request)) as "issuer and redirect URLs must use HTTPS outside localhost" ;;
  reject negb (one_of (OIDC_Mode request) [ProvisionInviteOnly; ProvisionJIT]) as "valid provisioning mode is required" ;;
  reject negb (validRole (OIDC_DefaultRole request)) as "valid default role is required" ;;
  reject negb (bool_decide (map_Forall (fun _ role => validRole role = true) (OIDC_RoleMappings request))) as "role mappings contain an invalid role" ;;
  Ok tt.

Definition oidcRequestGrantsAdministrator (request : OIDCProviderRequest) : bool :=
  bool_decide (OIDC_Mode request = ProvisionJIT) && bool_decide (OIDC_DefaultRole request = RoleAdministrator) ||
  negb (bool_decide (map_Forall (fun _ role => role <> RoleAdministrator) (OIDC_RoleMappings request))).

Definition normalizedStrings (values : list string) : list string :=
  List.filter (fun v => negb (bool_decide (v = ""))) (TrimSpace <$> values).

(** [strings.TrimRight(s, "/")] *)
Fixpoint drop_slashes (s : string) : string :=
  match s with String c rest => if Ascii.eqb c "/" then drop_slashes rest else s | EmptyString => "" end.
Definition TrimRightSlash (s : string) : string := str_rev (drop_slashes (str_rev s)).

Definition ConfigureOIDCProvider (actor : User) (request : OIDCProviderRequest) (sourceIP : string) (now : Time) (fresh box_nonce : string) : st UserDb OIDCProvider := fun db =>
  (_ ⇐ st_lift (validateOIDCProviderRequest request) ;;
   refuse_if oidcRequestGrantsAdministrator request && negb (OIDC_ConfirmAdministrator request) as "administrator mappings require explicit confirmation" ;;
   let given := TrimSpace (OIDC_ID request) in
   let id := if bool_decide (given = "") then randomHex fresh else given in
   let createdAt := if bool_decide (given = "") then now
                    else match OIDCProvider_ given db with Ok current => Provider_CreatedAt (Record_Provider current) | Err _ => now end in
   secret ⇐ st_lift (Encrypt secrets box_nonce (OIDC_ClientSecret request)) ;;
   let provider := mkOIDCProvider id (TrimSpace (OIDC_Name request)) (TrimRightSlash (OIDC_IssuerURL request)) (TrimSpace (OIDC_ClientID request)) (OIDC_Mode request)
                     (TrimSpace (OIDC_AllowedTenantID request)) (normalizedStrings (OIDC_AllowedEmailDomains request)) (normalizedStrings (OIDC_AllowedGroups request))
                     (OIDC_DefaultRole request) false (OIDC_RedirectURL request) (OIDC_RoleMappings request) None createdAt now in
   _ ⇐ UpsertOIDCProvider (mkProviderRecord provider secret)
         (mkAuditEvent now (User_ID actor) "identity.oidc_provider.configured" AuditWarning "oidc_provider" id sourceIP []) ;;
   st_ret provider) db.

Definition OIDCProviders (db : UserDb) : list OIDCProvider := Record_Provider <$> ListOIDCProviders db.

Definition TestOIDCProvider (actor : User) (id sourceIP : string) (now : Time) : st UserDb unit :=
  record ⇐ st_read (OIDCProvider_ id) ;;
  _ ⇐ st_lift (NewProvider (Provider_IssuerURL (Record_Provider record))) ;;
  _ ⇐ st_lift (Decrypt secrets (Record_ClientSecretCiphertext record)) ;;
  MarkOIDCProviderTested id now (mkAuditEvent now (User_ID actor) "identity.oidc_provider.tested" AuditInfo "oidc_provider" id sourceIP []).

Definition SetOIDCProviderEnabled_ (actor : User) (id : string) (enabled : bool) (sourceIP : string) (now : Time) : st UserDb unit :=
  SetOIDCProviderEnabled id enabled now
    (mkAuditEvent now (User_ID actor) "identity.oidc_provider.enabled_changed" AuditWarning "oidc_provider" id sourceIP [("enabled", DBool enabled)]).

(** * webauthn.go *)

Section WebAuthn.
Context {WL : WebAuthnLibrary}.

Record NamedWebAuthnCredential := mkNamedCredential {
  Named_Name : string; Named_Credential : waCredential; Named_CreatedAt : Time; Named_LastUsedAt : option Time }.

Definition named_credential (record : WebAuthnCredential) : result NamedWebAuthnCredential :=
  encoded ← Decrypt secrets (WebAuthn_Ciphertext record) ;
  match decode_credential encoded with
  | Some c => Ok (mkNamedCredential (WebAuthn_Name record) c (WebAuthn_CreatedAt record) (WebAuthn_LastUsedAt record))
  | None => Err "decode WebAuthn credential"
  end.

Fixpoint result_map {A B} (f : A -> result B) (l : list A) : result (list B) :=
  match l with [] => Ok [] | x :: rest => y ← f x ; ys ← result_map f rest ; Ok (y :: ys) end.

Definition WebAuthnCredentials (userID : string) (db : UserDb) : result (list NamedWebAuthnCredential) :=
  records ← ListWebAuthnCredentials userID db ; result_map named_credential records.

Definition validWebAuthnCeremonyKind (kind : AuthenticationCeremonyKind) : bool := one_of kind [CeremonyWebAuthnRegister; CeremonyWebAuthnLogin; CeremonyOIDC].

Definition BeginWebAuthnCeremony (userID : string) (kind : AuthenticationCeremonyKind) (data : waSession) (now : Time) (token box_nonce : string) : st UserDb string :=
  refuse_if negb (validWebAuthnCeremonyKind kind) as "valid WebAuthn ceremony data and kind are required" ;;
  refuse_if bool_decide (kind = CeremonyWebAuthnRegister) && bool_decide (userID = "") as "WebAuthn registration requires a user" ;;
  ciphertext ⇐ st_lift (Encrypt secrets box_nonce (encode_session data)) ;;
  let expiresAt := Add now webAuthnCeremonyLifetime in
  let expiresAt := if negb (IsZero (session_Expires data)) && Before (session_Expires data) expiresAt then session_Expires data else expiresAt in
  _ ⇐ CreateAuthenticationCeremony (mkCeremony (Sum256 token) userID kind ciphertext expiresAt now) ;;
  st_ret (EncodeToString token).

Definition ConsumeWebAuthnCeremony (token : string) (kind : AuthenticationCeremonyKind) (now : Time) : st UserDb (waSession * string) := fun db =>
  match DecodeString (TrimSpace token) with
  | None => (Err ErrWebAuthnCeremonyExpired, db)
  | Some raw =>
      if negb (strlen raw =? sessionTokenBytes) || negb (validWebAuthnCeremonyKind kind) then (Err ErrWebAuthnCeremonyExpired, db) else
      match ConsumeAuthenticationCeremony (Sum256 raw) kind db with
      | (Err _, db) => (Err ErrWebAuthnCeremonyExpired, db)
      | (Ok ceremony, db) =>
          if negb (Before now (Ceremony_ExpiresAt ceremony)) then (Err ErrWebAuthnCeremonyExpired, db) else
          match Decrypt secrets (Ceremony_StateCiphertext ceremony) with
          | Err _ => (Err "decrypt WebAuthn ceremony", db)
          | Ok encoded =>
              match decode_session encoded with Some data => (Ok (data, Ceremony_UserID ceremony), db) | None => (Err "decode WebAuthn ceremony", db) end
          end
      end
  end.

Definition user_credentials (userID : string) (db : UserDb) : result (list waCredential) :=
  named ← WebAuthnCredentials userID db ; Ok (List.map Named_Credential named).

Definition BeginWebAuthnRegistration (user : User) (now : Time) (token box_nonce : string) : st UserDb string :=
  credentials ⇐ st_read (user_credentials (User_ID user)) ;;
  session ⇐ st_lift (BeginRegistration user credentials) ;;
  BeginWebAuthnCeremony (User_ID user) CeremonyWebAuthnRegister session now token box_nonce.

Definition StoreWebAuthnCredential (userID name : string) (credential : waCredential) (now : Time) (box_nonce : string) : st UserDb unit :=
  let name := TrimSpace name in
  refuse_if bool_decide (userID = "") || bool_decide (name = "") || (strlen (cred_ID credential) =? 0) as "user, credential name, and credential are required" ;;
  ciphertext ⇐ st_lift (Encrypt secrets box_nonce (encode_credential credential)) ;;
  CreateWebAuthnCredential (mkWebAuthnCredential (cred_ID credential) userID name ciphertext now None 0 false false).

Definition FinishWebAuthnRegistration (user : User) (token name : string) (request : waRequest) (now : Time) (box_nonce : string) : st UserDb unit :=
  ceremony ⇐ ConsumeWebAuthnCeremony token CeremonyWebAuthnRegister now ;;
  refuse_if negb (bool_decide (ceremony.2 = User_ID user)) as ErrWebAuthnCeremonyExpired ;;
  credentials ⇐ st_read (user_credentials (User_ID user)) ;;
  credential ⇐ st_lift (FinishRegistration user credentials ceremony.1 request) ;;
  StoreWebAuthnCredential (User_ID user) name credential now box_nonce.

Definition RemoveWebAuthnCredential (userID encodedID : string) : st UserDb unit :=
  match DecodeString encodedID with
  | None => st_err "invalid WebAuthn credential identifier"
  | Some id =>
      refuse_if strlen id =? 0 as "invalid WebAuthn credential identifier" ;;
      removed ⇐ DeleteWebAuthnCredential userID id ;;
      if (removed : bool) then st_ret tt else st_err ErrIdentityNotFound
  end.

Definition BeginWebAuthnLogin (email password sourceIP : string) (now : Time) (token box_nonce : string) : svc string := fun s =>
  let keys := loginThrottleKeys email sourceIP in
  match loginBlocked keys now (sv_db s) with
  | Err e => (Err e, s)
  | Ok true => (Err ErrLoginRateLimited, s)
  | Ok false =>
      match VerifyLocalPassword email password (sv_db s) with
      | Err _ => login_failed keys sourceIP now ErrInvalidCredentials s
      | Ok user =>
          match user_credentials (User_ID user) (sv_db s) with
          | Err _ | Ok [] => login_failed keys sourceIP now ErrInvalidCredentials s
          | Ok credentials =>
              (session ⇐ st_lift (BeginLogin user credentials) ;;
               on_db (BeginWebAuthnCeremony (User_ID user) CeremonyWebAuthnLogin session now token box_nonce)) s
          end
      end
  end.

Definition updateWebAuthnCredential (userID : string) (credential : waCredential) (now : Time) (box_nonce : string) : st UserDb unit :=
  ciphertext ⇐ st_lift (Encrypt secrets box_nonce (encode_credential credential)) ;;
  UpdateWebAuthnCredential (mkWebAuthnCredential (cred_ID credential) userID "" ciphertext ZeroTime (Some now) (cred_SignCount credential)
                              (cred_BackupEligible credential) (cred_BackupState credential)).

Definition FinishWebAuthnLogin (ceremonyToken sourceIP userAgent : string) (request : waRequest) (now : Time) (box_nonce : string) (draws : SessionDraws) : svc (User * string) :=
  ceremony ⇐ on_db (ConsumeWebAuthnCeremony ceremonyToken CeremonyWebAuthnLogin now) ;;
  fun s =>
    match LocalIdentityByID ceremony.2 (sv_db s) with
    | Err _ => (Err ErrInvalidCredentials, s)
    | Ok identity =>
        let user := Identity_User identity in
        (refuse_if negb (bool_decide (User_Status user = UserActive)) as ErrInvalidCredentials ;;
         credentials ⇐ read_db (user_credentials (User_ID user)) ;;
         match FinishLogin user credentials ceremony.1 request with
         | Err _ => login_failed (loginThrottleKeys (User_Email user) sourceIP) sourceIP now ErrInvalidCredentials
         | Ok credential =>
             _ ⇐ on_db (updateWebAuthnCredential (User_ID user) credential now box_nonce) ;;
             fun s => (token ⇐ on_db (CreateSession_ user sourceIP userAgent now now draws) ;; st_ret (user, token))
                        (s <| sv_db ::= ClearLoginFailures (loginThrottleKeys (User_Email user) sourceIP) |>)
         end) s
    end.
End WebAuthn.
End Service.

Definition StatusTooManyRequests : Z := 429.
Definition StatusBadGateway : Z := 502.
Definition StatusSeeOther : Z := 303.

(** What the handlers read of an HTTP request. *)
Record WebRequest := mkWebRequest {
  req_Method : string; req_Path : string; req_Cookie : option string; req_CSRF : string; req_Host : string; req_RemoteAddr : string; req_UserAgent : string }.

(** * net *)

(** [net.SplitHostPort]: the host, when host and port are well formed. *)
Fixpoint index_byte (c : ascii) (s : string) : option nat :=
  match s with EmptyString => None | String a rest => if Ascii.eqb a c then Some O else S <$> index_byte c rest end.
Fixpoint last_index (c : ascii) (s : string) : option nat :=
  match s with
  | EmptyString => None
  | String a rest => match last_index c rest with Some n => Some (S n) | None => if Ascii.eqb a c then Some O else None end
  end.
Definition SplitHost (hostport : string) : option string :=
  i ← last_index ":" hostport ;
  '(host, j, k) ←
    (if has_prefix "[" hostport then
       close ← index_byte "]" hostport ;
       if bool_decide (S close = i) then Some (substring 1 (close - 1) hostport, 1%nat, S close) else None
     else let host := substring 0 i hostport in if lacks ":" host then Some (host, O, O) else None) ;
  if lacks "[" (drop_str j hostport) && lacks "]" (drop_str k hostport) then Some host else None.

(** [net.ParseIP]: an address without a zone. *)
Definition ParseIP (s : string) : option Addr :=
  match ParseAddr s with
  | Some (Addr6 v zone) => if bool_decide (zone = "") then Some (Addr6 v zone) else None
  | other => other
  end.
Definition IsLoopback (a : Addr) : bool :=
  match Unmap a with
  | Addr4 v => v / 2 ^ 24 =? 127
  | Addr6 v _ => v =? 1
  | AddrNone => false
  end.

(** [strings.Trim(s, "[]")] *)
Fixpoint drop_brackets (s : string) : string :=
  match s with String c rest => if Ascii.eqb c "[" || Ascii.eqb c "]" then drop_brackets rest else s | EmptyString => "" end.
Definition trim_brackets (s : string) : string := str_rev (drop_brackets (str_rev (drop_brackets s))).

Definition requestIP (r : WebRequest) : string := default (req_RemoteAddr r) (SplitHost (req_RemoteAddr r)).

Section Requests.
Context {LC : LowerCase} {CF : CaseFolding} {PC : PasswordCrypto} {SC : SecretCrypto} {IL : IdentityLibraries} (secrets : SecretBox).

Definition requestIsLoopback (r : WebRequest) : bool :=
  match ParseIP (requestIP r) with
  | Some ip =>
      IsLoopback ip &&
      (let host := default (req_Host r) (SplitHost (req_Host r)) in
       EqualFold host "localhost" || match ParseIP (trim_brackets host) with Some a => IsLoopback a | None => false end)
  | None => false
  end.

Abbreviation handler A := (ServiceState -> Response A * ServiceState).

(** * Who is asking *)

Definition authenticatedRequest (r : WebRequest) (now : Time) (s : ServiceState) : option (User * string) * ServiceState :=
  match req_Cookie r with
  | None => (None, s)
  | Some cookie =>
      match on_db (SessionUser_ cookie now) s with
      | (Ok user, s) => (Some (user, cookie), s)
      | (Err _, s) => (None, s)
      end
  end.

(** [currentUser] is [authenticatedRequest] without the token. *)
Definition with_session {A} (r : WebRequest) (now : Time) (next : User -> string -> handler A) : handler A := fun s =>
  match authenticatedRequest r now s with
  | (None, s) => (refuse StatusUnauthorized, s)
  | (Some (user, token), s) => next user token s
  end.

Definition requireAdministrator {A} (r : WebRequest) (now : Time) (next : User -> handler A) : handler A :=
  with_session r now (fun user _ => if negb (bool_decide (User_Role user = RoleAdministrator)) then fun s => (refuse StatusForbidden, s) else next user).

Definition requireRecentMFA {A} (r : WebRequest) (now : Time) (next : User -> string -> handler A) : handler A :=
  with_session r now (fun user token s =>
    match HasRecentMFA (User_ID user) token now (sv_db s) with
    | Ok true => next user token s
    | Ok false | Err _ => (refuse StatusForbidden, s)
    end).

Definition requireAdministratorWithRecentMFA {A} (r : WebRequest) (now : Time) (next : User -> string -> handler A) : handler A :=
  requireRecentMFA r now (fun user token =>
    if negb (bool_decide (User_Role user = RoleAdministrator)) then fun s => (refuse StatusForbidden, s) else next user token).

(** * The gate *)

Definition requestNeedsCSRF (r : WebRequest) : bool :=
  negb (one_of (req_Method r) ["GET"; "HEAD"; "OPTIONS"]) && negb (bool_decide (req_Cookie r = None)).

Definition HasSuffix (s suffix : string) : bool := has_prefix (str_rev suffix) (str_rev s).

Definition identityPublicPath (path : string) : bool :=
  one_of path ["/api/health"; "/api/ready"; "/api/auth/status"; "/api/auth/login"; "/api/agent/enroll"; "/api/auth/webauthn/login/begin";
    "/api/auth/webauthn/login/finish"; "/api/invitations/accept/begin"; "/api/invitations/accept/complete"; "/api/auth/oidc/providers"] ||
  has_prefix "/api/auth/oidc/" path ||
  one_of path ["/api/auth/bootstrap/begin"; "/api/auth/bootstrap/complete"; "/setup.html"; "/login.html"; "/accept-invite.html"] ||
  HasSuffix path ".css" || HasSuffix path ".js".

(** The status of [redirectOrError]. *)
Definition redirectOrError (r : WebRequest) : Z :=
  if bool_decide (req_Method r = "GET") && negb (has_prefix "/api/" (req_Path r)) then StatusSeeOther else StatusUnauthorized.

Definition identityGate {A} (r : WebRequest) (now : Time) (next : handler A) : handler A := fun s =>
  if requestNeedsCSRF r && negb (bool_decide (req_CSRF r = "1")) then (refuse StatusForbidden, s)
  else if identityPublicPath (req_Path r) then next s
  else if negb (Initialized s) then (refuse (redirectOrError r), s)
  else match authenticatedRequest r now s with
  | (None, s) => (refuse (redirectOrError r), s)
  | (Some _, s) => next s
  end.

(** * Handlers *)

(** A service call whose errors have a status each. *)
Definition answer {A} (m : st ServiceState A) (failure : error -> Z) (status : Z) : handler A := fun s =>
  match m s with
  | (Ok a, s) => (respond status (Some a), s)
  | (Err e, s) => (refuse (failure e), s)
  end.

Definition identityStatus (r : WebRequest) (now : Time) : handler (bool * bool) := fun s =>
  let initialized := Initialized s in
  let '(found, s) := authenticatedRequest r now s in
  (respond StatusOK (Some (initialized, match found with Some _ => true | None => false end)), s).

Definition listSessions (r : WebRequest) (now : Time) : handler (list SessionInfo) :=
  with_session r now (fun user token => answer (read_db (Sessions (User_ID user) token now)) (fun _ => StatusInternalServerError) StatusOK).

(** What administrators may list. *)
Definition listing {A} (r : WebRequest) (now : Time) (f : UserDb -> A) : handler A :=
  requireAdministrator r now (fun _ s => (respond StatusOK (Some (f (sv_db s))), s)).
Definition listUsers (r : WebRequest) (now : Time) : handler (list User) := listing r now ListUsers.
Definition listInvitations (r : WebRequest) (now : Time) : handler (list Invitation) := listing r now (ListInvitations now).
Definition getAuthenticationPolicy (r : WebRequest) (now : Time) : handler AuthenticationPolicy := listing r now Policy.
Definition listOIDCProviders (r : WebRequest) (now : Time) : handler (list OIDCProvider) := listing r now OIDCProviders.

Definition listAuditEvents (like : string -> AuditEvent -> bool) (r : WebRequest) (text : string) (severity : AuditSeverity) (limit : Z) (now : Time) : handler (list AuditEvent) :=
  requireAdministrator r now (fun _ => answer (read_db (AuditEvents like text severity limit)) (fun _ => StatusBadRequest) StatusOK).

Definition publicOIDCProviders : handler (list (string * string)) := fun s =>
  (respond StatusOK (Some ((fun p => (Provider_ID p, Provider_Name p)) <$> List.filter Provider_Enabled (OIDCProviders (sv_db s)))), s).

Definition beginBootstrap (r : WebRequest) (request : BootstrapRequest) (confirmPassword : string) (now : Time) (salt secret token : string) : handler BootstrapEnrollment :=
  if negb (requestIsLoopback r) then fun s => (refuse StatusForbidden, s)
  else if negb (bool_decide (Bootstrap_Password request = confirmPassword)) then fun s => (refuse StatusBadRequest, s)
  else answer (BeginBootstrap (mkBootstrapRequest (Bootstrap_Email request) (Bootstrap_DisplayName request) (Bootstrap_Password request) (requestIP r)) now salt secret token)
         (fun e => if bool_decide (e = ErrAlreadyInitialized) then StatusConflict else StatusBadRequest) StatusOK.

(** The session of the account that a completed enrollment made. *)
Definition enrolled (r : WebRequest) (now : Time) (draws : SessionDraws) (account : User * list string) : handler (User * list string) := fun s =>
  match on_db (CreateSession_ account.1 (requestIP r) (req_UserAgent r) now now draws) s with
  | (Ok _, s) => (respond StatusCreated (Some account), s)
  | (Err _, s) => (refuse StatusInternalServerError, s)
  end.

Definition completeBootstrap (r : WebRequest) (token code : string) (now : Time) (draws : AccountDraws) (session : SessionDraws) : handler (User * list string) :=
  if negb (requestIsLoopback r) then fun s => (refuse StatusForbidden, s)
  else fun s =>
    match CompleteBootstrap secrets token code now draws s with
    | (Err _, s) => (refuse StatusBadRequest, s)
    | (Ok account, s) => enrolled r now session account s
    end.

Definition completeInvitationAcceptance (r : WebRequest) (token code : string) (now : Time) (draws : AccountDraws) (session : SessionDraws) : handler (User * list string) := fun s =>
  match CompleteLocalInvitation secrets token code (requestIP r) now draws s with
  | (Err _, s) => (refuse StatusBadRequest, s)
  | (Ok account, s) => enrolled r now session account s
  end.

Definition beginInvitationAcceptance (token displayName password : string) (now : Time) (salt secret pendingToken : string) : handler BootstrapEnrollment :=
  answer (BeginLocalInvitation token displayName password now salt secret pendingToken) (fun _ => StatusBadRequest) StatusOK.

(** The token goes into the session cookie. *)
Definition login (r : WebRequest) (email password code : string) (now : Time) (draws : SessionDraws) : handler (User * string) :=
  answer (AuthenticateLocal secrets email password code (requestIP r) (req_UserAgent r) now draws)
    (fun e => if bool_decide (e = ErrLoginRateLimited) then StatusTooManyRequests else StatusUnauthorized) StatusOK.

Definition logout (r : WebRequest) (now : Time) : handler unit := fun s =>
  match req_Cookie r with
  | Some cookie => (respond StatusNoContent None, (on_db (Logout cookie (requestIP r) now) s).2)
  | None => (respond StatusNoContent None, s)
  end.

Definition refreshMFA (r : WebRequest) (code : string) (now : Time) : handler unit :=
  with_session r now (fun user token => answer (on_db (RefreshMFA secrets user token code (requestIP r) now)) (fun _ => StatusUnauthorized) StatusNoContent).

Definition revokeSession (r : WebRequest) (id : string) (now : Time) : handler unit :=
  with_session r now (fun user _ => answer (on_db (RevokeSession user id (requestIP r) now)) (fun _ => StatusInternalServerError) StatusNoContent).

Definition revokeOtherSessions (r : WebRequest) (now : Time) : handler unit :=
  with_session r now (fun user token => answer (on_db (RevokeOtherSessions user token (requestIP r) now)) (fun _ => StatusInternalServerError) StatusNoContent).

Definition updateUser (r : WebRequest) (id : string) (role : UserRole) (status : UserStatus) (now : Time) : handler unit :=
  requireAdministratorWithRecentMFA r now (fun actor _ =>
    answer (on_db (UpdateUserAccess_ actor id role status (requestIP r) now))
      (fun e => if bool_decide (e = ErrFinalAdministrator) then StatusConflict else StatusBadRequest) StatusNoContent).

Definition createInvitation (r : WebRequest) (email : string) (role : UserRole) (kind : IdentityKind) (now : Time) (token id : string) : handler InvitationResult :=
  requireAdministratorWithRecentMFA r now (fun actor _ =>
    answer (on_db (InviteUser actor email role kind (requestIP r) now token id)) (fun _ => StatusBadRequest) StatusCreated).

Definition updateAuthenticationPolicy (r : WebRequest) (policy : AuthenticationPolicy) (now : Time) : handler unit :=
  requireAdministratorWithRecentMFA r now (fun actor _ =>
    answer (on_db (UpdatePolicy actor policy (requestIP r) now)) (fun _ => StatusBadRequest) StatusNoContent).

Definition configureOIDCProvider (r : WebRequest) (request : OIDCProviderRequest) (now : Time) (fresh nonce : string) : handler OIDCProvider :=
  requireAdministratorWithRecentMFA r now (fun actor _ =>
    answer (on_db (ConfigureOIDCProvider secrets actor request (requestIP r) now fresh nonce)) (fun _ => StatusBadRequest) StatusCreated).

Definition testOIDCProvider (NewProvider : string -> result unit) (r : WebRequest) (id : string) (now : Time) : handler unit :=
  requireAdministratorWithRecentMFA r now (fun actor _ =>
    answer (on_db (TestOIDCProvider secrets NewProvider actor id (requestIP r) now)) (fun _ => StatusBadGateway) StatusNoContent).

Definition setOIDCProviderEnabled (r : WebRequest) (id : string) (enabled : bool) (now : Time) : handler unit :=
  requireAdministratorWithRecentMFA r now (fun actor _ =>
    answer (on_db (SetOIDCProviderEnabled_ actor id enabled (requestIP r) now)) (fun _ => StatusConflict) StatusNoContent).

Definition beginOIDCLogin (NewProvider : string -> result unit) (id : string) (now : Time) (state_token nonce verifier box_nonce : string) : handler (string * string * string) :=
  answer (on_db (BeginOIDCLogin secrets NewProvider id now state_token nonce verifier box_nonce)) (fun _ => StatusBadRequest) StatusSeeOther.

Definition finishOIDCLogin (NewProvider : string -> result unit) (Exchange : OIDCProvider -> string -> string -> string -> option oidcRawClaims)
  (r : WebRequest) (state code : string) (now : Time) (id : string) (draws : SessionDraws) : handler (User * string) :=
  answer (on_db (FinishOIDCLogin secrets NewProvider Exchange state code (requestIP r) (req_UserAgent r) now id draws)) (fun _ => StatusUnauthorized) StatusSeeOther.

Section WebAuthn.
Context {WL : WebAuthnLibrary}.

Definition beginWebAuthnLogin (r : WebRequest) (email password : string) (now : Time) (token nonce : string) : handler string :=
  answer (BeginWebAuthnLogin secrets email password (requestIP r) now token nonce)
    (fun e => if bool_decide (e = ErrLoginRateLimited) then StatusTooManyRequests else StatusUnauthorized) StatusOK.

Definition finishWebAuthnLogin (r : WebRequest) (ceremony : string) (request : waRequest) (now : Time) (nonce : string) (draws : SessionDraws) : handler (User * string) :=
  answer (FinishWebAuthnLogin secrets ceremony (requestIP r) (req_UserAgent r) request now nonce draws) (fun _ => StatusUnauthorized) StatusOK.

(** Identifier, name and times of each. *)
Definition listWebAuthnCredentials (r : WebRequest) (now : Time) : handler (list (string * string * Time * option Time)) :=
  with_session r now (fun user _ => answer (read_db (fun db =>
    match WebAuthnCredentials secrets (User_ID user) db with
    | Err e => Err e
    | Ok credentials =>
        Ok (List.map (fun c => (EncodeToString (cred_ID (Named_Credential c)), Named_Name c, Named_CreatedAt c, Named_LastUsedAt c)) credentials)
    end))
    (fun _ => StatusInternalServerError) StatusOK).

Definition beginWebAuthnRegistration (r : WebRequest) (now : Time) (token nonce : string) : handler string :=
  requireRecentMFA r now (fun user _ => answer (on_db (BeginWebAuthnRegistration secrets user now token nonce)) (fun _ => StatusInternalServerError) StatusOK).

Definition finishWebAuthnRegistration (r : WebRequest) (ceremony name : string) (request : waRequest) (now : Time) (nonce : string) : handler unit :=
  requireRecentMFA r now (fun user _ => answer (on_db (FinishWebAuthnRegistration secrets user ceremony name request now nonce)) (fun _ => StatusBadRequest) StatusNoContent).

Definition removeWebAuthnCredential (r : WebRequest) (id : string) (now : Time) : handler unit :=
  requireRecentMFA r now (fun user _ => answer (on_db (RemoveWebAuthnCredential (User_ID user) id)) (fun _ => StatusNotFound) StatusNoContent).

(** * Serving requests *)

(** The routes of [registerIdentityRoutes] that only read, and the others with
    what their bodies decode to and what is drawn for them. *)
Inductive web_read :=
| ReadStatus | ReadSessions | ReadUsers | ReadInvitations | ReadPolicy | ReadProviders | ReadPublicProviders | ReadCredentials
| ReadAudit (like : string -> AuditEvent -> bool) (text : string) (severity : AuditSeverity) (limit : Z).
Inductive web_call :=
| CallBeginBootstrap (request : BootstrapRequest) (confirm salt secret token : string)
| CallCompleteBootstrap (token code : string) (draws : AccountDraws) (session : SessionDraws)
| CallBeginInvitation (token displayName password salt secret pendingToken : string)
| CallCompleteInvitation (token code : string) (draws : AccountDraws) (session : SessionDraws)
| CallLogin (email password code : string) (draws : SessionDraws)
| CallLogout
| CallRefreshMFA (code : string)
| CallRevokeSession (id : string)
| CallRevokeOthers
| CallUpdateUser (id : string) (role : UserRole) (status : UserStatus)
| CallInvite (email : string) (role : UserRole) (kind : IdentityKind) (token id : string)
| CallUpdatePolicy (policy : AuthenticationPolicy)
| CallConfigureOIDC (request : OIDCProviderRequest) (fresh nonce : string)
| CallTestOIDC (discover : string -> result unit) (id : string)
| CallEnableOIDC (id : string) (enabled : bool)
| CallBeginOIDC (discover : string -> result unit) (id state_token nonce verifier box_nonce : string)
| CallFinishOIDC (discover : string -> result unit) (exchange : OIDCProvider -> string -> string -> string -> option oidcRawClaims)
    (state code id : string) (draws : SessionDraws)
| CallBeginWebAuthnLogin (email password token nonce : string)
| CallFinishWebAuthnLogin (ceremony : string) (request : waRequest) (nonce : string) (draws : SessionDraws)
| CallBeginRegistration (token nonce : string)
| CallFinishRegistration (ceremony name : string) (request : waRequest) (nonce : string)
| CallRemoveCredential (id : string)
| CallRead (what : web_read).

(** The status of a handler's response. *)
Definition status_only {A} (h : handler A) : handler unit := fun s => let '(response, s) := h s in (respond (Response_Status response) None, s).

Definition handle_read (r : WebRequest) (now : Time) (what : web_read) : handler unit :=
  match what with
  | ReadStatus => status_only (identityStatus r now)
  | ReadSessions => status_only (listSessions r now)
  | ReadUsers => status_only (listUsers r now)
  | ReadInvitations => status_only (listInvitations r now)
  | ReadPolicy => status_only (getAuthenticationPolicy r now)
  | ReadProviders => status_only (listOIDCProviders r now)
  | ReadPublicProviders => status_only publicOIDCProviders
  | ReadCredentials => status_only (listWebAuthnCredentials r now)
  | ReadAudit like text severity limit => status_only (listAuditEvents like r text severity limit now)
  end.

Definition handle (r : WebRequest) (now : Time) (c : web_call) : handler unit :=
  match c with
  | CallBeginBootstrap request confirm salt secret token => status_only (beginBootstrap r request confirm now salt secret token)
  | CallCompleteBootstrap token code draws session => status_only (completeBootstrap r token code now draws session)
  | CallBeginInvitation token displayName password salt secret pendingToken =>
      status_only (beginInvitationAcceptance token displayName password now salt secret pendingToken)
  | CallCompleteInvitation token code draws session => status_only (completeInvitationAcceptance r token code now draws session)
  | CallLogin email password code draws => status_only (login r email password code now draws)
  | CallLogout => logout r now
  | CallRefreshMFA code => refreshMFA r code now
  | CallRevokeSession id => revokeSession r id now
  | CallRevokeOthers => revokeOtherSessions r now
  | CallUpdateUser id role status => updateUser r id role status now
  | CallInvite email role kind token id => status_only (createInvitation r email role kind now token id)
  | CallUpdatePolicy policy => updateAuthenticationPolicy r policy now
  | CallConfigureOIDC request fresh nonce => status_only (configureOIDCProvider r request now fresh nonce)
  | CallTestOIDC discover id => testOIDCProvider discover r id now
  | CallEnableOIDC id enabled => setOIDCProviderEnabled r id enabled now
  | CallBeginOIDC discover id state_token nonce verifier box_nonce => status_only (beginOIDCLogin discover id now state_token nonce verifier box_nonce)
  | CallFinishOIDC discover exchange state code id draws => status_only (finishOIDCLogin discover exchange r state code now id draws)
  | CallBeginWebAuthnLogin email password token nonce => status_only (beginWebAuthnLogin r email password now token nonce)
  | CallFinishWebAuthnLogin ceremony request nonce draws => status_only (finishWebAuthnLogin r ceremony request now nonce draws)
  | CallBeginRegistration token nonce => status_only (beginWebAuthnRegistration r now token nonce)
  | CallFinishRegistration ceremony name request nonce => finishWebAuthnRegistration r ceremony name request now nonce
  | CallRemoveCredential id => removeWebAuthnCredential r id now
  | CallRead what => handle_read r now what
  end.

Definition serve (r : WebRequest) (now : Time) (c : web_call) : handler unit := identityGate r now (handle r now c).

(** What happens to a server: requests, and restarts, which lose the enrollments that are pending. *)
Inductive server_event := Served (r : WebRequest) (now : Time) (c : web_call) | Restarted.

Definition server_step (s : ServiceState) (e : server_event) : ServiceState :=
  match e with
  | Served r now c => (serve r now c s).2
  | Restarted => mkService (sv_db s) ∅ ∅
  end.
Definition run_server (s : ServiceState) (events : list server_event) : ServiceState := fold_left server_step events s.
End WebAuthn.
End Requests.
