(* ===== verification/UserSafety.v ===== *)
(** What the accounts guarantee over any sequence of requests: the invariant of
    the tables, that a local administrator remains, that a second factor, an
    invitation and a bootstrap are used once, what a login and an
    administrative request require, and how many passwords can be tried. *)
From Stdlib Require Import ZArith Lia String Ascii.
From stdpp Require Import base tactics list strings gmap sets relations.
From coqutil Require Import Datatypes.RecordSettersUsingExistingGetters.
From S2P Require Import Prelude GoStrings GoTime Netip NetAddr WorkerModel Sql WorkerService NetworkPolicy EndpointModel EndpointService EndpointAdmin UserStore AssetStore IdentitySecrets UserService.
Open Scope string_scope.
Open Scope Z_scope.
Open Scope list_scope.

Section Safety.
Context {LC : LowerCase}.

(** * Statements *)

Inductive db_step : UserDb -> UserDb -> Prop :=
| step_bootstrap user hash mfa event s : User_Role user = RoleAdministrator -> User_Status user = UserActive -> hash <> ""%string ->
    db_step s (BootstrapAdministrator user hash mfa event s).2
| step_session session event s : db_step s (CreateSession session event s).2
| step_mfa hash userID t s : db_step s (UpdateSessionMFAVerifiedAt hash userID t s).2
| step_seen hash now s : db_step s (SessionUser hash now s).2
| step_revoke p event s : db_step s (revokeSessions p event s).2
| step_audit event s : db_step s (AppendAuditEvent event s).2
| step_failure key now window threshold base cap s : db_step s (RecordLoginFailure key now window threshold base cap s).2
| step_clear keys s : db_step s (ClearLoginFailures keys s)
| step_totp userID counter s : db_step s (ConsumeTOTPCounter userID counter s).2
| step_code userID hash usedAt event s : db_step s (ConsumeRecoveryCode userID hash usedAt event s).2
| step_access userID role status now event s : db_step s (UpdateUserAccess userID role status now event s).2
| step_invite invitation event s : db_step s (CreateInvitation invitation event s).2
| step_accept invitation user hash mfa now event s : hash <> ""%string -> db_step s (AcceptLocalInvitation invitation user hash mfa now event s).2
| step_policy policy now event s : db_step s (SaveAuthenticationPolicy policy now event s).2
| step_ceremony ceremony s : db_step s (CreateAuthenticationCeremony ceremony s).2
| step_consume hash kind s : db_step s (ConsumeAuthenticationCeremony hash kind s).2
| step_credential credential s : db_step s (CreateWebAuthnCredential credential s).2
| step_remove userID id s : db_step s (DeleteWebAuthnCredential userID id s).2
| step_update credential s : db_step s (UpdateWebAuthnCredential credential s).2
| step_provider record event s : db_step s (UpsertOIDCProvider record event s).2
| step_tested id now event s : db_step s (MarkOIDCProviderTested id now event s).2
| step_enabled id enabled now event s : db_step s (SetOIDCProviderEnabled id enabled now event s).2
| step_resolve provider claims role now event s : db_step s (ResolveOIDCUser provider claims role now event s).2.

Abbreviation db_steps := (rtc db_step).

(** [m] only does statements. *)
Definition steps {A} (m : st UserDb A) : Prop := forall s, db_steps s (m s).2.

Lemma steps_one {A} (m : st UserDb A) : (forall s, db_step s (m s).2) -> steps m.
Proof. intros H s. by apply rtc_once. Qed.

Lemma steps_ret {A} (r : result A) : steps (st_lift r).
Proof. intros s. apply rtc_refl. Qed.

Lemma steps_bind {A B} (m : st UserDb A) (f : A -> st UserDb B) : steps m -> (forall a, steps (f a)) -> steps (st_bind m f).
Proof.
  intros Hm Hf s. specialize (Hm s). unfold st_bind. destruct (m s) as [[a|e] s']; simpl in *; [|done].
  etrans; [exact Hm|]. apply Hf.
Qed.

Lemma steps_lift {A B} (r : result A) (f : A -> st UserDb B) : (forall a, r = Ok a -> steps (f a)) -> steps (st_bind (st_lift r) f).
Proof. intros Hf s. unfold st_bind, st_lift. destruct r as [a|e]; [by apply Hf|apply rtc_refl]. Qed.

Lemma steps_if {A} (b : bool) (m n : st UserDb A) : steps m -> steps n -> steps (if b then m else n).
Proof. by destruct b. Qed.

(** [m] changes the service's database by statements. *)
Definition svc_steps {A} (m : st ServiceState A) : Prop := forall s, db_steps (sv_db s) (sv_db (m s).2).

Lemma svc_steps_on_db {A} (m : st UserDb A) : steps m -> svc_steps (on_db m).
Proof. intros H s. specialize (H (sv_db s)). unfold on_db. by destruct (m (sv_db s)). Qed.

Lemma svc_steps_bind {A B} (m : st ServiceState A) (f : A -> st ServiceState B) : svc_steps m -> (forall a, svc_steps (f a)) -> svc_steps (st_bind m f).
Proof.
  intros Hm Hf s. specialize (Hm s). unfold st_bind. destruct (m s) as [[a|e] s']; simpl in *; [|done].
  etrans; [exact Hm|]. apply Hf.
Qed.

Lemma svc_steps_lift {A B} (r : result A) (f : A -> st ServiceState B) : (forall a, r = Ok a -> svc_steps (f a)) -> svc_steps (st_bind (st_lift r) f).
Proof. intros Hf s. unfold st_bind, st_lift. destruct r as [a|e]; [by apply Hf|apply rtc_refl]. Qed.

Lemma svc_steps_same {A} (m : st ServiceState A) : (forall s, sv_db (m s).2 = sv_db s) -> svc_steps m.
Proof. intros H s. rewrite H. apply rtc_refl. Qed.

Lemma steps_self {A} (m : UserDb -> st UserDb A) : (forall x, steps (m x)) -> steps (fun s => m s s).
Proof. intros H s. apply H. Qed.

Lemma svc_steps_self {A} (m : ServiceState -> st ServiceState A) : (forall x, svc_steps (m x)) -> svc_steps (fun s => m s s).
Proof. intros H s. apply H. Qed.

Lemma steps_run {A} (m : st UserDb A) s r s' : steps m -> m s = (r, s') -> db_steps s s'.
Proof. intros H E. specialize (H s). by rewrite E in H. Qed.

Lemma svc_steps_run {A} (m : st ServiceState A) s r s' : svc_steps m -> m s = (r, s') -> db_steps (sv_db s) (sv_db s').
Proof. intros H E. specialize (H s). by rewrite E in H. Qed.
End Safety.

(** Follows the structure of a method down to its statements. *)
Ltac steps_tac :=
  repeat first
    [ apply steps_lift; intros ? ?
    | apply svc_steps_lift; intros ? ?
    | apply steps_bind; [|intros ?]
    | apply svc_steps_bind; [|intros ?]
    | apply svc_steps_on_db
    | (apply steps_one; intros ?; constructor; by eauto)
    | (intros ?; apply rtc_refl)
    | match goal with
      | |- steps (if ?b then _ else _) => destruct b eqn:?
      | |- svc_steps (if ?b then _ else _) => destruct b eqn:?
      | |- steps (match ?x with _ => _ end) => destruct x eqn:?
      | |- svc_steps (match ?x with _ => _ end) => destruct x eqn:?
      end ].

Section Service.
Context {LC : LowerCase} {CF : CaseFolding} {PC : PasswordCrypto} {SC : SecretCrypto} {IL : IdentityLibraries} {WL : WebAuthnLibrary} (secrets : SecretBox).

Abbreviation db_steps := (rtc db_step).

Lemma steps_create_session user ip agent verified now draws : steps (CreateSession_ user ip agent verified now draws).
Proof. apply (steps_self (fun db => _ ⇐ CreateSession _ _ ;; st_ret _)). intros x. steps_tac. Qed.

Lemma steps_second_factor userID value ip now : steps (verifySecondFactor secrets userID value ip now).
Proof. unfold verifySecondFactor, verifyRecoveryCode, verifyTOTP. steps_tac. Qed.

Lemma steps_session_user token now : steps (SessionUser_ token now).
Proof. unfold SessionUser_. steps_tac. Qed.

Lemma steps_logout token ip now : steps (Logout token ip now).
Proof.
  intros s. unfold Logout. destruct (sessionTokenHash token) as [hash|e]; [|apply rtc_refl].
  destruct (SessionUser hash now s) as [[user|e] s'] eqn:E; apply steps_run in E; [|steps_tac..]; [|done].
  etrans; [exact E|]. unfold DeleteSession. enough (H : steps (revokeSessions (session_is hash) (mkAuditEvent now (User_ID user) "identity.logout" AuditInfo "session" "" ip []))) by apply H.
  steps_tac.
Qed.

Lemma steps_refresh user token code ip now : steps (RefreshMFA secrets user token code ip now).
Proof.
  intros s. unfold RefreshMFA. destruct (verifySecondFactor _ _ _ _ _ _) as [[t|e] s'] eqn:E; apply steps_run in E; try apply steps_second_factor; [|done].
  etrans; [exact E|]. destruct (sessionTokenHash token); [|apply rtc_refl]. apply rtc_once. constructor.
Qed.

Lemma steps_failures keys ip now db : db_steps db (recordLoginFailure keys ip now db).
Proof.
  unfold recordLoginFailure. eapply rtc_r; [|apply step_audit]. revert db. induction keys as [|key keys IH]; intros db; [apply rtc_refl|].
  simpl. eapply rtc_l; [apply step_failure|apply IH].
Qed.

Lemma svc_steps_login_failed {A} keys ip now e : svc_steps (@login_failed A keys ip now e).
Proof. intros s. apply steps_failures. Qed.

Lemma steps_clear keys s : db_steps s (ClearLoginFailures keys s).
Proof. apply rtc_once. constructor. Qed.

Lemma svc_steps_authenticate email password code ip agent now draws : svc_steps (AuthenticateLocal secrets email password code ip agent now draws).
Proof.
  intros s. unfold AuthenticateLocal. destruct (loginBlocked _ _ _) as [[]|]; try apply rtc_refl.
  destruct (VerifyLocalPassword _ _ _) as [user|e]; [|apply svc_steps_login_failed].
  match goal with |- context [let '(_, _) := ?m in _] => destruct m as [r s'] eqn:E end.
  assert (Hs : db_steps (sv_db s) (sv_db s')).
  { destruct (mfa_required _ _); [|injection E as <- <-; apply rtc_refl]. eapply svc_steps_run; [|exact E]. apply svc_steps_on_db, steps_second_factor. }
  etrans; [exact Hs|]. destruct r as [t|e]; [|apply svc_steps_login_failed].
  etrans; [apply steps_clear|]. match goal with |- rtc db_step ?x (sv_db (?m ?y).2) => enough (Hgoal : svc_steps m) by apply (Hgoal y) end.
  apply svc_steps_bind; [apply svc_steps_on_db, steps_create_session|intros ?; steps_tac].
Qed.

Lemma svc_steps_take_bootstrap token now : svc_steps (takePendingBootstrap token now).
Proof. apply svc_steps_same. intros s. unfold takePendingBootstrap. repeat case_match; done. Qed.

Lemma svc_steps_take_invitation token now : svc_steps (takePendingInvitation token now).
Proof. apply svc_steps_same. intros s. unfold takePendingInvitation. repeat case_match; done. Qed.

Lemma HashPassword_nonempty salt password hash : HashPassword salt password = Ok hash -> hash <> ""%string.
Proof. unfold HashPassword. intros H. inv_ok H. done. Qed.
Hint Resolve HashPassword_nonempty : core.

Lemma svc_steps_complete_bootstrap token code now draws : svc_steps (CompleteBootstrap secrets token code now draws).
Proof. unfold CompleteBootstrap. apply svc_steps_bind; [apply svc_steps_take_bootstrap|intros pending]. steps_tac. Qed.

Lemma svc_steps_complete_invitation token code ip now draws : svc_steps (CompleteLocalInvitation secrets token code ip now draws).
Proof. unfold CompleteLocalInvitation. apply svc_steps_bind; [apply svc_steps_take_invitation|intros pending]. steps_tac. Qed.

Lemma svc_steps_begin_bootstrap request now salt secret token : svc_steps (BeginBootstrap request now salt secret token).
Proof.
  apply svc_steps_same. intros s. unfold BeginBootstrap, st_bind, st_lift, st_err. repeat case_match; simplify_eq; done.
Qed.

Lemma svc_steps_begin_invitation token name password now salt secret pending : svc_steps (BeginLocalInvitation token name password now salt secret pending).
Proof. apply svc_steps_same. intros s. unfold BeginLocalInvitation. repeat case_match; done. Qed.

Lemma steps_access actor id role status ip now : steps (UpdateUserAccess_ actor id role status ip now).
Proof. unfold UpdateUserAccess_. steps_tac. Qed.
Lemma steps_invite_user actor email role kind ip now token id : steps (InviteUser actor email role kind ip now token id).
Proof. unfold InviteUser. steps_tac. Qed.
Lemma steps_update_policy actor policy ip now : steps (UpdatePolicy actor policy ip now).
Proof. unfold UpdatePolicy. steps_tac. Qed.
Lemma steps_revoke_session user id ip now : steps (RevokeSession user id ip now).
Proof. unfold RevokeSession, RevokeUserSession. steps_tac. Qed.
Lemma steps_revoke_others user token ip now : steps (RevokeOtherSessions user token ip now).
Proof. unfold RevokeOtherSessions, RevokeOtherUserSessions. steps_tac. Qed.

Lemma steps_configure actor request ip now fresh nonce : steps (ConfigureOIDCProvider secrets actor request ip now fresh nonce).
Proof. intros s. unfold ConfigureOIDCProvider. match goal with |- rtc db_step ?x (?m ?x).2 => enough (Hgoal : steps m) by apply (Hgoal x) end. steps_tac. Qed.
Lemma steps_test discover actor id ip now : steps (TestOIDCProvider secrets discover actor id ip now).
Proof. unfold TestOIDCProvider. steps_tac. Qed.
Lemma steps_enable actor id enabled ip now : steps (SetOIDCProviderEnabled_ actor id enabled ip now).
Proof. unfold SetOIDCProviderEnabled_. steps_tac. Qed.

Lemma steps_begin_oidc discover id now state nonce verifier box_nonce : steps (BeginOIDCLogin secrets discover id now state nonce verifier box_nonce).
Proof.
  intros s. unfold BeginOIDCLogin. destruct (OIDCProvider_ id s) as [record|]; [|apply rtc_refl].
  match goal with |- rtc db_step ?x (?m ?x).2 => enough (Hgoal : steps m) by apply (Hgoal x) end. steps_tac.
Qed.

Lemma steps_consume_oidc token now : steps (consumeOIDCCeremony secrets token now).
Proof.
  intros s. unfold consumeOIDCCeremony. destruct (DecodeString _) as [raw|]; [|apply rtc_refl]. destruct (negb _); [apply rtc_refl|].
  destruct (ConsumeAuthenticationCeremony _ _ s) as [[c|e] s'] eqn:E; apply steps_run in E; [|steps_tac..]; [|done].
  repeat case_match; done.
Qed.

Lemma steps_finish_oidc discover exchange state code ip agent now id draws : steps (FinishOIDCLogin secrets discover exchange state code ip agent now id draws).
Proof.
  intros s. unfold FinishOIDCLogin. destruct (consumeOIDCCeremony _ _ _ s) as [[st|e] s'] eqn:E; apply steps_run in E; try apply steps_consume_oidc; [|done].
  destruct (OIDCProvider_ _ s') as [record|]; [|done]. etrans; [exact E|].
  match goal with |- rtc db_step ?x (?m ?x).2 => enough (Hgoal : steps m) by apply (Hgoal x) end. steps_tac.
  intros db. destruct (ResolveOIDCUser _ _ _ _ _ db) as [[user|e] db'] eqn:Er; apply steps_run in Er; [|steps_tac..]; [|done].
  etrans; [exact Er|]. match goal with |- rtc db_step ?x (?m ?x).2 => enough (Hgoal : steps m) by apply (Hgoal x) end.
  apply steps_bind; [apply steps_create_session|intros ?; steps_tac].
Qed.

(** ** WebAuthn *)

Lemma steps_begin_ceremony userID kind data now token nonce : steps (BeginWebAuthnCeremony secrets userID kind data now token nonce).
Proof. unfold BeginWebAuthnCeremony. steps_tac. Qed.

Lemma steps_consume_ceremony token kind now : steps (ConsumeWebAuthnCeremony secrets token kind now).
Proof.
  intros s. unfold ConsumeWebAuthnCeremony. destruct (DecodeString _) as [raw|]; [|apply rtc_refl]. destruct (_ || _); [apply rtc_refl|].
  destruct (ConsumeAuthenticationCeremony _ _ s) as [[c|e] s'] eqn:E; apply steps_run in E; [|steps_tac..]; [|done].
  repeat case_match; done.
Qed.

Lemma steps_begin_registration user now token nonce : steps (BeginWebAuthnRegistration secrets user now token nonce).
Proof. unfold BeginWebAuthnRegistration. apply steps_bind; [steps_tac|intros c]. apply steps_lift. intros. apply steps_begin_ceremony. Qed.

Lemma steps_store_credential userID name credential now nonce : steps (StoreWebAuthnCredential secrets userID name credential now nonce).
Proof. unfold StoreWebAuthnCredential. steps_tac. Qed.

Lemma steps_finish_registration user token name request now nonce : steps (FinishWebAuthnRegistration secrets user token name request now nonce).
Proof.
  unfold FinishWebAuthnRegistration. apply steps_bind; [apply steps_consume_ceremony|intros c]. apply steps_if; [steps_tac|].
  apply steps_bind; [steps_tac|intros cs]. apply steps_lift. intros. apply steps_store_credential.
Qed.

Lemma steps_remove_credential userID id : steps (RemoveWebAuthnCredential userID id).
Proof. unfold RemoveWebAuthnCredential. steps_tac. Qed.

Lemma svc_steps_begin_webauthn email password ip now token nonce : svc_steps (BeginWebAuthnLogin secrets email password ip now token nonce).
Proof.
  intros s. unfold BeginWebAuthnLogin. destruct (loginBlocked _ _ _) as [[]|]; try apply rtc_refl.
  destruct (VerifyLocalPassword _ _ _) as [user|e]; [|apply svc_steps_login_failed].
  destruct (user_credentials _ _ _) as [[|c cs]|e]; [apply svc_steps_login_failed| |apply svc_steps_login_failed].
  match goal with |- rtc db_step (sv_db ?x) (sv_db (?m ?x).2) => enough (Hgoal : svc_steps m) by apply (Hgoal x) end.
  apply svc_steps_lift. intros. apply svc_steps_on_db, steps_begin_ceremony.
Qed.

Lemma svc_steps_finish_webauthn token ip agent request now nonce draws : svc_steps (FinishWebAuthnLogin secrets token ip agent request now nonce draws).
Proof.
  unfold FinishWebAuthnLogin. apply svc_steps_bind; [apply svc_steps_on_db, steps_consume_ceremony|intros c s].
  destruct (LocalIdentityByID _ _) as [identity|]; [|apply rtc_refl].
  match goal with |- rtc db_step (sv_db ?x) (sv_db (?m ?x).2) => enough (Hgoal : svc_steps m) by apply (Hgoal x) end.
  destruct (negb _); [intros x; apply rtc_refl|]. apply svc_steps_bind; [intros x; apply rtc_refl|intros credentials].
  destruct (FinishLogin _ _ _ _) as [credential|e]; [|apply svc_steps_login_failed].
  apply svc_steps_bind; [apply svc_steps_on_db; unfold updateWebAuthnCredential; steps_tac|intros []].
  intros x. etrans; [apply steps_clear|]. match goal with |- rtc db_step ?x (sv_db (?m ?y).2) => enough (Hgoal : svc_steps m) by apply (Hgoal y) end.
  apply svc_steps_bind; [apply svc_steps_on_db, steps_create_session|intros ?; steps_tac].
Qed.

(** ** Requests *)

Definition handler_steps {A} (h : ServiceState -> Response A * ServiceState) : Prop := forall s, db_steps (sv_db s) (sv_db (h s).2).

Lemma handler_answer {A} (m : st ServiceState A) failure status : svc_steps m -> handler_steps (answer m failure status).
Proof. intros H s. specialize (H s). unfold answer. by destruct (m s) as [[a|e] s']. Qed.

Lemma handler_answer_db {A} (m : st UserDb A) failure status : steps m -> handler_steps (answer (on_db m) failure status).
Proof. intros H. by apply handler_answer, svc_steps_on_db. Qed.

Lemma authenticated_steps r now s o s' : authenticatedRequest r now s = (o, s') -> db_steps (sv_db s) (sv_db s').
Proof.
  unfold authenticatedRequest. destruct (req_Cookie r) as [cookie|]; [|by intros [= <- <-]].
  destruct (on_db _ s) as [[user|e] s1] eqn:E; apply svc_steps_run in E; try apply svc_steps_on_db, steps_session_user; by intros [= <- <-].
Qed.

Lemma handler_with_session {A} r now (next : User -> string -> ServiceState -> Response A * ServiceState) :
  (forall user token, handler_steps (next user token)) -> handler_steps (with_session r now next).
Proof.
  intros H s. unfold with_session. destruct (authenticatedRequest r now s) as [[[user token]|] s'] eqn:E; apply authenticated_steps in E; [|done].
  etrans; [exact E|apply H].
Qed.

Lemma handler_recent_mfa {A} r now (next : User -> string -> ServiceState -> Response A * ServiceState) :
  (forall user token, handler_steps (next user token)) -> handler_steps (requireRecentMFA r now next).
Proof.
  intros H. apply handler_with_session. intros user token s. destruct (HasRecentMFA _ _ _ _) as [[]|]; [apply H|apply rtc_refl..].
Qed.

Lemma handler_admin_mfa {A} r now (next : User -> string -> ServiceState -> Response A * ServiceState) :
  (forall user token, handler_steps (next user token)) -> handler_steps (requireAdministratorWithRecentMFA r now next).
Proof. intros H. apply handler_recent_mfa. intros user token. destruct (negb _); [intros s; apply rtc_refl|apply H]. Qed.

Lemma handler_status {A} (h : ServiceState -> Response A * ServiceState) : handler_steps h -> handler_steps (status_only h).
Proof. intros H s. specialize (H s). unfold status_only. by destruct (h s). Qed.

Lemma handler_enrolled r now draws account : handler_steps (enrolled r now draws account).
Proof.
  intros s. unfold enrolled. destruct (on_db _ s) as [[token|e] s'] eqn:E; eapply svc_steps_run; try exact E; apply svc_steps_on_db, steps_create_session.
Qed.

Lemma handler_then_enrolled (m : st ServiceState (User * list string)) r now session :
  svc_steps m -> handler_steps (fun s => match m s with (Err _, s) => (refuse StatusBadRequest, s) | (Ok account, s) => enrolled r now session account s end).
Proof.
  intros H s. destruct (m s) as [[account|e] s'] eqn:E; apply svc_steps_run in E; try done. etrans; [exact E|apply handler_enrolled].
Qed.

Hint Resolve svc_steps_begin_bootstrap svc_steps_begin_invitation svc_steps_authenticate svc_steps_begin_webauthn svc_steps_finish_webauthn
  svc_steps_complete_bootstrap svc_steps_complete_invitation steps_logout steps_refresh steps_revoke_session steps_revoke_others steps_access steps_invite_user
  steps_update_policy steps_configure steps_test steps_enable steps_begin_oidc steps_finish_oidc steps_begin_registration
  steps_finish_registration steps_remove_credential : core.

Lemma handler_read {A} (f : UserDb -> result A) failure status : handler_steps (answer (read_db f) failure status).
Proof. intros s. unfold answer, read_db. destruct (f (sv_db s)); apply rtc_refl. Qed.

Lemma handler_admin {A} r now (next : User -> ServiceState -> Response A * ServiceState) :
  (forall user, handler_steps (next user)) -> handler_steps (requireAdministrator r now next).
Proof. intros H. apply handler_with_session. intros user token. destruct (negb _); [intros s; apply rtc_refl|apply H]. Qed.

Lemma handle_read_steps r now what : handler_steps (handle_read secrets r now what).
Proof.
  destruct what; unfold handle_read; apply handler_status; try (apply handler_admin; intros user; first [apply handler_read|intros s; apply rtc_refl]).
  - intros s. unfold identityStatus. destruct (authenticatedRequest r now s) as [o s'] eqn:E. by apply authenticated_steps in E.
  - apply handler_with_session. intros user token. apply handler_read.
  - intros s. apply rtc_refl.
  - apply handler_with_session. intros user token. apply handler_read.
Qed.

Lemma handle_steps r now c : handler_steps (handle secrets r now c).
Proof.
  destruct c; unfold handle; try apply handler_status.
  all: try (apply handler_admin_mfa; intros ? ?; by apply handler_answer_db).
  all: try (apply handler_recent_mfa; intros ? ?; by apply handler_answer_db).
  all: try (apply handler_with_session; intros ? ?; by apply handler_answer_db).
  all: try by apply handler_answer_db.
  all: try by apply handler_answer.
  - unfold beginBootstrap. destruct (negb _); [intros s; apply rtc_refl|]. destruct (negb _); [intros s; apply rtc_refl|]. by apply handler_answer.
  - unfold completeBootstrap. destruct (negb _); [intros s; apply rtc_refl|]. by apply handler_then_enrolled.
  - by apply handler_then_enrolled.
  - intros s. unfold logout. destruct (req_Cookie r); [|apply rtc_refl]. by apply svc_steps_on_db.
  - apply handle_read_steps.
Qed.

Lemma serve_steps r now c : handler_steps (serve secrets r now c).
Proof.
  intros s. unfold serve, identityGate. destruct (_ && _); [apply rtc_refl|]. destruct (identityPublicPath _); [apply handle_steps|].
  destruct (negb _); [apply rtc_refl|]. destruct (authenticatedRequest r now s) as [[u|] s'] eqn:E; apply authenticated_steps in E; [|done].
  etrans; [exact E|apply handle_steps].
Qed.

Lemma server_steps s events : db_steps (sv_db s) (sv_db (run_server secrets s events)).
Proof.
  revert s. induction events as [|e events IH]; intros s; [apply rtc_refl|]. etrans; [|apply IH].
  destruct e; [apply serve_steps|apply rtc_refl].
Qed.

(** What every statement preserves, every sequence of requests preserves. *)
Lemma server_preserves (I : UserDb -> Prop) s events :
  (forall db db', db_step db db' -> I db -> I db') -> I (sv_db s) -> I (sv_db (run_server secrets s events)).
Proof. intros Hstep HI. induction (server_steps s events); eauto. Qed.
End Service.

(** * The invariant *)

Definition email_key (r : LocalIdentity) : string := nocase (User_Email (Identity_User r)).

(** Keys identify rows, rows refer to users that exist, an account that an
    identity provider signs in has no password, and an enabled provider has
    been tested. *)
Record user_wf (s : UserDb) : Prop := mkUserWf {
  wf_users : NoDup (user_id <$> ub_users s);
  wf_emails : NoDup (email_key <$> ub_users s);
  wf_rows : Forall (fun r => valid_user_row (Identity_User r) = true) (ub_users s);
  wf_sessions : NoDup (se_hash <$> ub_sessions s);
  wf_publics : NoDup (se_public <$> ub_sessions s);
  wf_session_users : Forall (fun r => se_user r ∈ user_id <$> ub_users s) (ub_sessions s);
  wf_totp : NoDup (tc_user <$> ub_totp s);
  wf_totp_users : Forall (fun r => tc_user r ∈ user_id <$> ub_users s) (ub_totp s);
  wf_codes : NoDup ((fun r => (rc_user r, rc_hash r)) <$> ub_codes s);
  wf_code_users : Forall (fun r => rc_user r ∈ user_id <$> ub_users s) (ub_codes s);
  wf_invitations : NoDup (invitation_id <$> ub_invitations s);
  wf_tokens : NoDup (invitation_hash <$> ub_invitations s);
  wf_attempts : NoDup (la_key <$> ub_attempts s);
  wf_ceremonies : NoDup (Ceremony_IDHash <$> ub_ceremonies s);
  wf_credentials : NoDup (WebAuthn_ID <$> ub_credentials s);
  wf_providers : NoDup (provider_id <$> ub_providers s);
  wf_enabled : Forall (fun r => Provider_Enabled (Record_Provider r) = true -> Provider_TestedAt (Record_Provider r) <> None) (ub_providers s);
  wf_externals : NoDup ((fun e => (ex_provider e, ex_subject e)) <$> ub_externals s);
  wf_external_users : Forall (fun e => exists r, r ∈ ub_users s /\ user_id r = ex_user e /\ Identity_PasswordHash r = ""%string) (ub_externals s) }.

Lemma empty_wf : user_wf emptyUserDb.
Proof. split; constructor. Qed.

(** ** Rows *)

Section rows.
Context {Row K : Type} (key : Row -> K).

Lemma NoDup_snoc_key (l : list Row) x : NoDup (key <$> l) -> (forall r, r ∈ l -> key r <> key x) -> NoDup (key <$> (l ++ [x])).
Proof.
  intros Hl Hx. rewrite fmap_app. apply NoDup_app. split; [done|]. split; [|apply NoDup_singleton].
  intros k (r & -> & Hr)%list_elem_of_fmap Hk. apply list_elem_of_singleton in Hk. by destruct (Hx r Hr).
Qed.

Lemma NoDup_select_key (p : Row -> bool) (l : list Row) : NoDup (key <$> l) -> NoDup (key <$> select_where p l).
Proof. apply NoDup_filter_key. Qed.

Lemma NoDup_update_key p f (l : list Row) : (forall r, key (f r) = key r) -> NoDup (key <$> l) -> NoDup (key <$> update_where p f l).
Proof. intros Hf. by rewrite update_where_key. Qed.

Lemma elem_of_update_key k p f (l : list Row) : (forall r, key (f r) = key r) -> k ∈ key <$> l -> k ∈ key <$> update_where p f l.
Proof. intros Hf. by rewrite update_where_key. Qed.
End rows.

Lemma Forall_snoc_row {Row} (P : Row -> Prop) l x : Forall P l -> P x -> Forall P (l ++ [x]).
Proof. intros. apply Forall_app. split; [done|by constructor]. Qed.

Lemma Forall_select {Row} (P : Row -> Prop) p l : Forall P l -> Forall P (select_where p l).
Proof. rewrite !Forall_forall. intros H r Hr%elem_of_select_where. apply H. tauto. Qed.

Lemma Forall_update {Row} (P : Row -> Prop) p f l : Forall P l -> (forall r, p r = true -> P r -> P (f r)) -> Forall P (update_where p f l).
Proof.
  rewrite !Forall_forall. intros H Hf r (r0 & Hr0 & ->)%elem_of_update_where. destruct (p r0) eqn:E; [|by apply H]. apply Hf; [done|by apply H].
Qed.

Lemma existsb_false {A} (f : A -> bool) l : existsb f l = false <-> forall x, x ∈ l -> f x = false.
Proof.
  induction l as [|y l IH]; simpl; [split; [intros _ x Hx; by apply not_elem_of_nil in Hx|done]|].
  rewrite orb_false_iff, IH. setoid_rewrite elem_of_cons. naive_solver.
Qed.

Lemma existsb_true {A} (f : A -> bool) l : existsb f l = true <-> exists x, x ∈ l /\ f x = true.
Proof. rewrite existsb_exists. by setoid_rewrite list_elem_of_In. Qed.

Lemma user_exists_elem id s : user_exists id s = true <-> id ∈ user_id <$> ub_users s.
Proof.
  unfold user_exists, user_is. rewrite existsb_true, list_elem_of_fmap. setoid_rewrite bool_decide_eq_true. naive_solver.
Qed.

(** ** What the statements of a transaction do *)

Lemma insertAuditEvent_ok event s s' : insertAuditEvent event s = Ok s' -> exists row, s' = s <| ub_audit ::= fun l => (l ++ [row]) |>.
Proof. unfold insertAuditEvent. intros H. inv_ok H. eauto. Qed.

Lemma insert_user_ok row s s' : insert_user row s = Ok s' ->
  (forall r, r ∈ ub_users s -> user_id r <> user_id row /\ email_key r <> email_key row) /\ valid_user_row (Identity_User row) = true /\
  s' = s <| ub_users ::= fun l => (l ++ [row]) |>.
Proof.
  unfold insert_user. intros H. inv_ok H. reflect_bools. split; [|done]. intros r Hr.
  match goal with Hx : existsb _ _ = false |- _ => rewrite existsb_false in Hx; specialize (Hx r Hr); unfold user_is, email_is, nocase_eq in Hx end. by reflect_bools.
Qed.

Lemma insert_totp_ok userID secret s s' : insert_totp userID secret s = Ok s' ->
  (forall r, r ∈ ub_totp s -> tc_user r <> userID) /\ userID ∈ user_id <$> ub_users s /\ s' = s <| ub_totp ::= fun l => (l ++ [mkTotpRow userID secret (-1)]) |>.
Proof.
  unfold insert_totp. intros H. inv_ok H. reflect_bools. split; [|split; [by apply user_exists_elem|done]]. intros r Hr.
  match goal with Hx : existsb _ _ = false |- _ => rewrite existsb_false in Hx; specialize (Hx r Hr); by apply bool_decide_eq_false in Hx end.
Qed.

Lemma insert_codes_ok userID hashes s s' : insert_codes userID hashes s = Ok s' ->
  s' = s <| ub_codes ::= fun l => (l ++ ((fun h => mkCodeRow userID h None) <$> hashes)) |> /\
  (hashes <> [] -> userID ∈ user_id <$> ub_users s) /\
  (NoDup ((fun r => (rc_user r, rc_hash r)) <$> ub_codes s) -> NoDup ((fun r => (rc_user r, rc_hash r)) <$> ub_codes s')).
Proof.
  revert s. induction hashes as [|h hashes IH]; intros s; simpl.
  - intros [= ->]. split; [|done]. destruct s'. cbv -[app]. by rewrite app_nil_r.
  - rewrite bind_ok. intros (s1 & H1 & H2). apply IH in H2 as (-> & _ & Hnd). unfold insert_code in H1. inv_ok H1. reflect_bools. split_and!.
    + destruct s. cbv -[app fmap]. by rewrite <- app_assoc.
    + intros _. by apply user_exists_elem.
    + intros Hs. apply Hnd. simpl. apply NoDup_snoc_key; [done|]. intros r Hr E. simpl in E. injection E as E1 E2.
      match goal with Hx : existsb _ _ = false |- _ => rewrite existsb_false in Hx; specialize (Hx r Hr) end. reflect_bools. tauto.
Qed.

(** ** Each table *)

Ltac wf_split Hwf := destruct Hwf; split; simpl; try assumption.

Lemma wf_audit f s : user_wf s -> user_wf (s <| ub_audit ::= f |>).
Proof. intros Hwf. wf_split Hwf. Qed.

Lemma wf_policy p s : user_wf s -> user_wf (s <| ub_policy := p |>).
Proof. intros Hwf. wf_split Hwf. Qed.

Lemma wf_add_user row s : user_wf s ->
  (forall r, r ∈ ub_users s -> user_id r <> user_id row /\ email_key r <> email_key row) -> valid_user_row (Identity_User row) = true ->
  user_wf (s <| ub_users ::= fun l => l ++ [row] |>).
Proof.
  intros Hwf Hnew Hv.
  assert (Hsub : forall id, id ∈ user_id <$> ub_users s -> id ∈ user_id <$> (ub_users s ++ [row])).
  { intros id Hid. rewrite fmap_app. apply elem_of_app. by left. }
  wf_split Hwf; try (eapply Forall_impl; [eassumption|]; simpl; auto; fail).
  - apply NoDup_snoc_key; [done|]. intros r Hr. by apply Hnew.
  - apply NoDup_snoc_key; [done|]. intros r Hr. by apply Hnew.
  - by apply Forall_snoc_row.
  - eapply Forall_impl; [eassumption|]. simpl. intros e (r & Hr & ?). exists r. split; [|done]. apply elem_of_app. by left.
Qed.

Lemma wf_update_user p f s : user_wf s ->
  (forall u, User_ID (f u) = User_ID u) -> (forall u, User_Email (f u) = User_Email u) ->
  (forall r, r ∈ ub_users s -> p r = true -> valid_user_row (f (Identity_User r)) = true) ->
  user_wf (s <| ub_users ::= update_where p (set_user f) |>).
Proof.
  intros Hwf Hid Hemail Hv.
  assert (Hkeys : user_id <$> update_where p (set_user f) (ub_users s) = user_id <$> ub_users s) by (apply update_where_key; intros r; apply Hid).
  wf_split Hwf; rewrite ?Hkeys; try assumption.
  - rewrite update_where_key; [done|]. intros r. unfold email_key. simpl. by rewrite Hemail.
  - rewrite Forall_forall in *. intros r (r0 & Hr0 & ->)%elem_of_update_where. destruct (p r0) eqn:E; simpl; auto.
  - eapply Forall_impl; [eassumption|]. simpl. intros e (r & Hr & E1 & E2). exists (if p r then set_user f r else r). split_and!.
    + apply elem_of_update_where. eauto.
    + destruct (p r); [|done]. rewrite <- E1. apply Hid.
    + by destruct (p r).
Qed.

Lemma wf_sessions_select p s : user_wf s -> user_wf (s <| ub_sessions ::= select_where p |>).
Proof. intros Hwf. wf_split Hwf; auto using NoDup_select_key, Forall_select. Qed.

Lemma wf_sessions_update p f s : user_wf s -> (forall r, se_hash (f r) = se_hash r /\ se_public (f r) = se_public r /\ se_user (f r) = se_user r) ->
  user_wf (s <| ub_sessions ::= update_where p f |>).
Proof.
  intros Hwf Hf. wf_split Hwf; try (rewrite update_where_key; [done|]; intros r; apply Hf).
  apply Forall_update; [done|]. intros r _. by rewrite (proj2 (proj2 (Hf r))).
Qed.

Lemma wf_attempts_upsert row s : user_wf s -> user_wf (s <| ub_attempts ::= upsert_attempt row |>).
Proof.
  intros Hwf. wf_split Hwf. unfold upsert_attempt. destruct (query_row _ _) as [r|] eqn:E.
  - replace (la_key <$> update_where (attempt_is (la_key row)) (fun _ => row) (ub_attempts s)) with (la_key <$> ub_attempts s); [done|].
    unfold update_where. rewrite <- list_fmap_compose. apply list_fmap_ext. intros i y _. simpl. unfold attempt_is. by case_bool_decide.
  - apply NoDup_snoc_key; [done|]. intros r Hr Hk. pose proof (proj1 (query_row_None _ _) E r Hr) as Hf. unfold attempt_is in Hf.
    by apply bool_decide_eq_false in Hf.
Qed.

Lemma wf_attempts_select p s : user_wf s -> user_wf (s <| ub_attempts ::= select_where p |>).
Proof. intros Hwf. wf_split Hwf. by apply NoDup_select_key. Qed.

Lemma wf_invitations_update p f s : user_wf s -> (forall r, in_invitation (f r) = in_invitation r) -> user_wf (s <| ub_invitations ::= update_where p f |>).
Proof.
  intros Hwf Hf. wf_split Hwf; (rewrite update_where_key; [done|]; intros r; unfold invitation_id, invitation_hash; by rewrite Hf).
Qed.

Lemma wf_providers_update p f s : user_wf s -> (forall r, Provider_ID (f r) = Provider_ID r) ->
  (forall r, r ∈ ub_providers s -> p r = true -> Provider_Enabled (f (Record_Provider r)) = true -> Provider_TestedAt (f (Record_Provider r)) <> None) ->
  user_wf (s <| ub_providers ::= update_where p (fun r => r <| Record_Provider ::= f |>) |>).
Proof.
  intros Hwf Hid Hen. wf_split Hwf.
  - rewrite update_where_key; [done|]. intros r. unfold provider_id. simpl. apply Hid.
  - rewrite Forall_forall in *. intros r (r0 & Hr0 & ->)%elem_of_update_where. destruct (p r0) eqn:E; simpl; [by apply Hen|by apply wf_enabled0].
Qed.

(** ** Each statement *)

Lemma user_tx_snd {A} (f : UserDb -> result (A * UserDb)) s (P : UserDb -> Prop) :
  P s -> (forall a s', f s = Ok (a, s') -> P s') -> P (user_tx f s).2.
Proof. intros H Hf. unfold user_tx. destruct (f s) as [[a s']|e] eqn:E; [by eapply Hf|done]. Qed.

(** Rewrites the state after the parts of a transaction. *)
Ltac inv_tx H :=
  inv_ok H;
  repeat match goal with
  | Ha : insertAuditEvent _ _ = Ok _ |- _ => apply insertAuditEvent_ok in Ha as (? & ->)
  | Ha : insert_codes _ _ _ = Ok _ |- _ => let Hc := fresh "Hcodes" in apply insert_codes_ok in Ha as (-> & ? & Hc)
  | Ha : insert_totp _ _ _ = Ok _ |- _ => apply insert_totp_ok in Ha as (? & ? & ->)
  | Ha : insert_user _ _ = Ok _ |- _ => apply insert_user_ok in Ha as (? & ? & ->)
  end.

Lemma wf_account userID secret hashes s : user_wf s ->
  (forall r, r ∈ ub_totp s -> tc_user r <> userID) -> userID ∈ user_id <$> ub_users s ->
  NoDup ((fun r => (rc_user r, rc_hash r)) <$> (ub_codes s ++ ((fun h => mkCodeRow userID h None) <$> hashes))) ->
  user_wf (s <| ub_totp ::= fun l => l ++ [mkTotpRow userID secret (-1)] |> <| ub_codes ::= fun l => l ++ ((fun h => mkCodeRow userID h None) <$> hashes) |>).
Proof.
  intros Hwf Ht Hu Hc. wf_split Hwf.
  - by apply NoDup_snoc_key.
  - by apply Forall_snoc_row.
  - apply Forall_app. split; [done|]. apply Forall_fmap, Forall_true. intros h. done.
Qed.

Section Invariant.
Context {LC : LowerCase}.

Lemma wf_bootstrap user hash mfa event s : user_wf s -> user_wf (BootstrapAdministrator user hash mfa event s).2.
Proof.
  intros Hwf. unfold BootstrapAdministrator. apply user_tx_snd; [done|]. intros [] s' E. inv_tx E.
  apply wf_audit. apply wf_account; [by apply wf_add_user|done|done|]. apply Hcodes. simpl. apply Hwf.
Qed.

Lemma wf_accept invitation user hash mfa now event s : user_wf s -> user_wf (AcceptLocalInvitation invitation user hash mfa now event s).2.
Proof.
  intros Hwf. unfold AcceptLocalInvitation. apply user_tx_snd; [done|]. intros [] s' E. inv_tx E.
  apply wf_audit. apply wf_account; [apply wf_add_user; [by apply wf_invitations_update|done|done]|done|done|]. apply Hcodes. simpl. apply Hwf.
Qed.

Lemma wf_create_session session event s : user_wf s -> user_wf (CreateSession session event s).2.
Proof.
  intros Hwf. unfold CreateSession. apply user_tx_snd; [done|]. intros [] s' E. inv_tx E. reflect_bools. apply wf_audit.
  apply (wf_update_user (user_is (Session_UserID session)) (fun u => u <| User_LastLoginAt := Some (Session_CreatedAt session) |> <| User_UpdatedAt := Session_CreatedAt session |>)
           (s <| ub_sessions ::= fun l => l ++ [_] |>)); try done.
  - assert (Hnew : forall r, r ∈ ub_sessions s -> se_hash r <> Session_IDHash session /\ se_public r <> Session_PublicID session).
    { intros r Hr. match goal with Hx : existsb _ _ = false |- _ => rewrite existsb_false in Hx; specialize (Hx r Hr) end. unfold session_is in *. by reflect_bools. }
    wf_split Hwf; [apply NoDup_snoc_key|apply NoDup_snoc_key|apply Forall_snoc_row]; try done; try (intros r Hr; by apply Hnew). by apply user_exists_elem.
  - intros r Hr _. unfold valid_user_row. simpl. pose proof (wf_rows _ Hwf) as Hv. rewrite Forall_forall in Hv. by apply Hv.
Qed.

Lemma valid_row_of s r : user_wf s -> r ∈ ub_users s -> valid_user_row (Identity_User r) = true.
Proof. intros Hwf Hr. pose proof (wf_rows _ Hwf) as Hv. rewrite Forall_forall in Hv. by apply Hv. Qed.

(** Rows a [WHERE] on the identifier of a row selects are that row. *)
Lemma user_is_row s userID r r' : user_wf s -> query_row (user_is userID) (ub_users s) = Some r -> r' ∈ ub_users s -> user_is userID r' = true -> r' = r.
Proof.
  intros Hwf [Hr Hu]%query_row_Some Hr' Hu'. unfold user_is in *. reflect_bools. eapply (key_inj user_id); eauto using wf_users. congruence.
Qed.

Lemma wf_access userID role status now event s : user_wf s -> user_wf (UpdateUserAccess userID role status now event s).2.
Proof.
  intros Hwf. unfold UpdateUserAccess. apply user_tx_snd; [done|]. intros [] s' E. destruct (query_row _ _) as [current|] eqn:Ec; [|done]. inv_tx E. reflect_bools.
  apply wf_audit, wf_sessions_select.
  apply (wf_update_user (user_is userID) (fun u => u <| User_Role := role |> <| User_Status := status |> <| User_UpdatedAt := now |>)); try done.
Qed.

Lemma wf_invite invitation event s : user_wf s -> user_wf (CreateInvitation invitation event s).2.
Proof.
  intros Hwf. unfold CreateInvitation. apply user_tx_snd; [done|]. intros [] s' E. inv_tx E. reflect_bools. apply wf_audit.
  assert (Hnew : forall r, r ∈ ub_invitations s -> invitation_id r <> Invitation_ID invitation /\ invitation_hash r <> Invitation_TokenHash invitation).
  { intros r Hr. match goal with Hx : existsb _ _ = false |- _ => rewrite existsb_false in Hx; specialize (Hx r Hr) end. by reflect_bools. }
  wf_split Hwf; (apply NoDup_snoc_key; [done|]; intros r Hr; by apply Hnew).
Qed.

Lemma wf_ceremony ceremony s : user_wf s -> user_wf (CreateAuthenticationCeremony ceremony s).2.
Proof.
  intros Hwf. unfold CreateAuthenticationCeremony. destruct (_ || _ || _) eqn:E; [done|]. reflect_bools. simpl. wf_split Hwf.
  apply NoDup_snoc_key; [done|]. intros r Hr. match goal with Hx : existsb _ _ = false |- _ => rewrite existsb_false in Hx; specialize (Hx r Hr) end.
  unfold ceremony_is in *. by reflect_bools.
Qed.

Lemma wf_consume hash kind s : user_wf s -> user_wf (ConsumeAuthenticationCeremony hash kind s).2.
Proof.
  intros Hwf. unfold ConsumeAuthenticationCeremony. apply user_tx_snd; [done|]. intros c s' E. destruct (query_row _ _); [|done]. injection E as _ <-.
  wf_split Hwf. by apply NoDup_select_key.
Qed.

Lemma wf_credential credential s : user_wf s -> user_wf (CreateWebAuthnCredential credential s).2.
Proof.
  intros Hwf. unfold CreateWebAuthnCredential. destruct (_ || _) eqn:E; [done|]. reflect_bools. simpl. wf_split Hwf.
  apply NoDup_snoc_key; [done|]. intros r Hr. match goal with Hx : existsb _ _ = false |- _ => rewrite existsb_false in Hx; specialize (Hx r Hr) end.
  by reflect_bools.
Qed.

Lemma wf_upsert_provider record event s : user_wf s -> user_wf (UpsertOIDCProvider record event s).2.
Proof.
  intros Hwf. unfold UpsertOIDCProvider. apply user_tx_snd; [done|]. intros [] s' E. inv_tx E. apply wf_audit.
  wf_split Hwf; destruct (query_row _ _) as [r|] eqn:Eq.
  - replace (provider_id <$> _) with (provider_id <$> ub_providers s); [done|]. unfold update_where. rewrite <- list_fmap_compose. apply list_fmap_ext.
    intros i y _. simpl. unfold provider_is. by case_bool_decide.
  - apply NoDup_snoc_key; [done|]. intros r Hr Hk. pose proof (proj1 (query_row_None _ _) Eq r Hr) as Hf. unfold provider_is in Hf.
    by apply bool_decide_eq_false in Hf.
  - by apply Forall_update.
  - by apply Forall_snoc_row.
Qed.

Lemma wf_tested id now event s : user_wf s -> user_wf (MarkOIDCProviderTested id now event s).2.
Proof.
  intros Hwf. unfold MarkOIDCProviderTested, updateOIDCProviderState. apply user_tx_snd; [done|]. intros [] s' E. inv_tx E. apply wf_audit.
  by apply (wf_providers_update (provider_is id) (fun p => p <| Provider_TestedAt := Some now |> <| Provider_UpdatedAt := now |>)).
Qed.

Lemma wf_enable id enabled now event s : user_wf s -> user_wf (SetOIDCProviderEnabled id enabled now event s).2.
Proof.
  intros Hwf. unfold SetOIDCProviderEnabled, updateOIDCProviderState. apply user_tx_snd; [done|]. intros [] s' E. inv_tx E. apply wf_audit.
  apply (wf_providers_update _ (fun p => p <| Provider_Enabled := enabled |> <| Provider_UpdatedAt := now |>)); [done..|].
  intros r _ Hp He. simpl in He. subst enabled. simpl in Hp. reflect_bools. done.
Qed.

Lemma wf_claim provider claims role now s role' s' : user_wf s -> claim_invitation provider claims role now s = Ok (role', s') ->
  user_wf s' /\ ub_users s' = ub_users s /\ ub_externals s' = ub_externals s.
Proof.
  intros Hwf. unfold claim_invitation. repeat case_match; intros [= <- <-]; [|done].
  split; [by apply wf_invitations_update|done].
Qed.

Lemma wf_externals_update p f s : user_wf s -> (forall e, ex_provider (f e) = ex_provider e /\ ex_subject (f e) = ex_subject e /\ ex_user (f e) = ex_user e) ->
  user_wf (s <| ub_externals ::= update_where p f |>).
Proof.
  intros Hwf Hf. wf_split Hwf.
  - rewrite update_where_key; [done|]. intros e. destruct (Hf e) as (-> & -> & _). done.
  - apply Forall_update; [done|]. intros e _. by rewrite (proj2 (proj2 (Hf e))).
Qed.

Lemma wf_update_linked provider claims r role now event s result : user_wf s -> r ∈ ub_users s ->
  updateLinkedOIDCUser provider claims ((Identity_User r) <| User_LastLoginAt := None |>) role now event s = Ok result -> user_wf result.2.
Proof.
  intros Hwf Hr E. unfold updateLinkedOIDCUser in E. inv_tx E. apply wf_audit. simpl. apply wf_externals_update; [|done].
  destruct (_ && negb (bool_decide (User_Role _ = _))) eqn:Ed; [|done].
  apply (wf_update_user _ (fun u => u <| User_Role := role |> <| User_UpdatedAt := now |>)); try done.
  intros r' Hr' Hid. assert (r' = r) as ->.
  { unfold user_is in Hid. reflect_bools. by eapply (key_inj user_id); eauto using wf_users. }
  match goal with Hx : _ && negb (valid_user_row _) = false |- _ => apply andb_false_iff in Hx as [Hx|Hx]; [simpl in Hx, Ed; congruence|by apply negb_false_iff in Hx] end.
Qed.

Lemma insert_external_ok row s s' : insert_external row s = Ok s' ->
  (forall e, e ∈ ub_externals s -> (ex_provider e, ex_subject e) <> (ex_provider row, ex_subject row)) /\ s' = s <| ub_externals ::= fun l => l ++ [row] |>.
Proof.
  unfold insert_external. intros E. inv_ok E. reflect_bools. split; [|done]. intros e He [= E1 E2].
  match goal with Hx : existsb _ (ub_externals _) = false |- _ => rewrite existsb_false in Hx; specialize (Hx e He) end. unfold external_is in *. reflect_bools.
  match goal with Hx : bool_decide _ && bool_decide _ = false |- _ => rewrite !bool_decide_eq_true_2 in Hx by done end. done.
Qed.

Lemma wf_add_external row s : user_wf s -> (forall e, e ∈ ub_externals s -> (ex_provider e, ex_subject e) <> (ex_provider row, ex_subject row)) ->
  (exists r, r ∈ ub_users s /\ user_id r = ex_user row /\ Identity_PasswordHash r = ""%string) -> user_wf (s <| ub_externals ::= fun l => l ++ [row] |>).
Proof. intros Hwf Hnew Hu. wf_split Hwf; [by apply NoDup_snoc_key|by apply Forall_snoc_row]. Qed.

Lemma wf_provision provider claims role now s result : user_wf s -> provisionOIDCUser provider claims role now s = Ok result -> user_wf result.2.
Proof.
  intros Hwf E. unfold provisionOIDCUser in E. rewrite bind_ok in E. destruct E as ([role' s1] & Ec & E).
  apply wf_claim in Ec as (Hs1 & _ & _); [|done]. inv_tx E.
  match goal with Hx : insert_external _ _ = Ok _ |- _ => apply insert_external_ok in Hx as [Hnew ->] end. simpl.
  apply wf_add_external; [by apply wf_add_user|done|]. eexists. split; [simpl; apply elem_of_app; right; by apply list_elem_of_singleton|done].
Qed.

Lemma wf_resolve provider claims role now event s : user_wf s -> user_wf (ResolveOIDCUser provider claims role now event s).2.
Proof.
  intros Hwf. unfold ResolveOIDCUser. apply user_tx_snd; [done|]. intros user s' E. destruct (linkedOIDCUser _ _ _) as [u|] eqn:El.
  - unfold linkedOIDCUser in El. destruct (query_row _ (ub_externals s)) as [e|]; [|done]. destruct (query_row (user_is (ex_user e)) _) as [r|] eqn:Er; [|done].
    injection El as <-. apply query_row_Some in Er as [Hr _]. by apply wf_update_linked in E.
  - rewrite bind_ok in E. destruct E as ([user' s1] & Ep & E). apply wf_provision in Ep; [|done]. inv_tx E. by apply wf_audit.
Qed.

Lemma wf_step db db' : db_step db db' -> user_wf db -> user_wf db'.
Proof.
  intros [] Hwf.
  - by apply wf_bootstrap.
  - by apply wf_create_session.
  - unfold UpdateSessionMFAVerifiedAt. destruct (_ =? _); [done|]. by apply wf_sessions_update.
  - unfold SessionUser. destruct (session_user_row _ _ _) as [[r u]|]; [|done]. simpl. destruct (_ <=? _); [by apply wf_sessions_update|done].
  - unfold revokeSessions. apply user_tx_snd; [done|]. intros [] s' E. inv_tx E. by apply wf_audit, wf_sessions_select.
  - unfold AppendAuditEvent. apply user_tx_snd; [done|]. intros [] s' E. inv_tx E. by apply wf_audit.
  - unfold RecordLoginFailure. destruct (counted_failures _ _ _). by apply wf_attempts_upsert.
  - revert s Hwf. induction keys as [|key keys IH]; intros s Hwf; [done|]. apply IH. by apply wf_attempts_select.
  - wf_split Hwf; [by rewrite update_where_key|by apply Forall_update].
  - unfold ConsumeRecoveryCode. apply user_tx_snd; [done|]. intros used s' E. destruct (negb _); [by injection E as _ <-|]. inv_tx E. apply wf_audit.
    wf_split Hwf; [by rewrite update_where_key|by apply Forall_update].
  - by apply wf_access.
  - by apply wf_invite.
  - by apply wf_accept.
  - unfold SaveAuthenticationPolicy. apply user_tx_snd; [done|]. intros [] s' E. inv_tx E. by apply wf_audit, wf_audit, wf_policy.
  - by apply wf_ceremony.
  - by apply wf_consume.
  - by apply wf_credential.
  - wf_split Hwf. by apply NoDup_select_key.
  - unfold UpdateWebAuthnCredential. destruct (_ =? _); [done|]. wf_split Hwf. by rewrite update_where_key.
  - by apply wf_upsert_provider.
  - by apply wf_tested.
  - by apply wf_enable.
  - by apply wf_resolve.
Qed.

(** ** Rows are kept *)

(** Rows evolve by [R], in place, and new rows follow. *)
Definition grows {Row} (R : Row -> Row -> Prop) (l l' : list Row) : Prop := exists l1 rest, l' = l1 ++ rest /\ Forall2 R l l1.

Lemma grows_same {Row} (R : Row -> Row -> Prop) `{!Reflexive R} l : grows R l l.
Proof. exists l, []. by rewrite app_nil_r. Qed.

Lemma grows_added {Row} (R : Row -> Row -> Prop) `{!Reflexive R} l rest : grows R l (l ++ rest).
Proof. by exists l, rest. Qed.

Lemma grows_updated {Row} (R : Row -> Row -> Prop) `{!Reflexive R} l p f : (forall r, p r = true -> R r (f r)) -> grows R l (update_where p f l).
Proof. intros Hf. eexists _, []. rewrite app_nil_r. split; [done|]. apply update_where_Forall2; [done|]. intros r _. apply Hf. Qed.

Lemma grows_trans {Row} (R : Row -> Row -> Prop) `{!Transitive R} l1 l2 l3 : grows R l1 l2 -> grows R l2 l3 -> grows R l1 l3.
Proof.
  intros (a1 & r1 & E1 & H1) (a2 & r2 & E2 & H2). rewrite E1 in H2. apply Forall2_app_inv_l in H2 as (a & b & Ha & Hb & ->).
  exists a, (b ++ r2). split; [by rewrite E2, app_assoc|]. by etrans.
Qed.

Lemma grows_elem {Row} (R : Row -> Row -> Prop) l l' r : grows R l l' -> r ∈ l -> exists r', r' ∈ l' /\ R r r'.
Proof.
  intros (l1 & rest & -> & H) Hr. apply list_elem_of_lookup in Hr as [i Hi]. destruct (Forall2_lookup_l _ _ _ _ _ H Hi) as (r' & Hr' & HR).
  exists r'. split; [|done]. apply elem_of_app. left. by eapply list_elem_of_lookup_2.
Qed.

(** What stays of an account, of a one-time code counter, of a recovery code and of an invitation. *)
Definition same_account (r r' : LocalIdentity) : Prop := user_id r' = user_id r /\ email_key r' = email_key r /\ Identity_PasswordHash r' = Identity_PasswordHash r.
Definition counter_advances (r r' : TotpRow) : Prop := tc_user r' = tc_user r /\ tc_counter r <= tc_counter r'.
Definition code_stays_used (r r' : CodeRow) : Prop := rc_user r' = rc_user r /\ rc_hash r' = rc_hash r /\ (rc_used_at r <> None -> rc_used_at r' <> None).
Definition stays_accepted (r r' : InvitationRow) : Prop := in_invitation r' = in_invitation r /\ in_expires r' = in_expires r /\ (in_accepted r <> None -> in_accepted r' <> None).

#[export] Instance same_account_pre : PreOrder same_account.
Proof. split; [done|]. intros x y z (E3 & E4 & E5) (E6 & E7 & E8). split_and!; congruence. Qed.
#[export] Instance counter_advances_pre : PreOrder counter_advances.
Proof. split; [by intros x|]. intros x y z [E1 H1] [E2 H2]. split; [congruence|lia]. Qed.
#[export] Instance code_stays_used_pre : PreOrder code_stays_used.
Proof. split; [done|]. intros x y z (E1 & E2 & H1) (E3 & E4 & H2). split_and!; [congruence..|auto]. Qed.
#[export] Instance stays_accepted_pre : PreOrder stays_accepted.
Proof. split; [done|]. intros x y z (E1 & E2 & H1) (E3 & E4 & H2). split_and!; [congruence..|auto]. Qed.

Record evolves (db db' : UserDb) : Prop := mkEvolves {
  ev_users : grows same_account (ub_users db) (ub_users db');
  ev_totp : grows counter_advances (ub_totp db) (ub_totp db');
  ev_codes : grows code_stays_used (ub_codes db) (ub_codes db');
  ev_invitations : grows stays_accepted (ub_invitations db) (ub_invitations db') }.

#[export] Instance evolves_pre : PreOrder evolves.
Proof.
  split; [intros db; split; apply grows_same, _|]. intros x y z [] []. split; (eapply grows_trans; [apply _|eassumption..]).
Qed.

(** Tables that stay, grow at the end, or are updated in place. *)
Ltac evolve := split; simpl; first [apply grows_same, _ | apply grows_added, _ | (apply grows_updated; [apply _|intros ? ?; by split_and!])].

Lemma evolves_update_linked provider claims user role now event s result :
  updateLinkedOIDCUser provider claims user role now event s = Ok result -> evolves s result.2.
Proof.
  intros E. unfold updateLinkedOIDCUser in E. inv_tx E. simpl. destruct (_ && negb (bool_decide (User_Role _ = _))); evolve.
Qed.

Lemma evolves_provision provider claims role now s result : provisionOIDCUser provider claims role now s = Ok result -> evolves s result.2.
Proof.
  intros E. unfold provisionOIDCUser in E. rewrite bind_ok in E. destruct E as ([role' s1] & Ec & E). inv_tx E.
  match goal with Hx : insert_external _ _ = Ok _ |- _ => unfold insert_external in Hx; inv_ok Hx end.
  unfold claim_invitation in Ec. repeat case_match; simplify_eq; evolve.
Qed.

Lemma evolves_step db db' : db_step db db' -> evolves db db'.
Proof.
  intros [].
  - unfold BootstrapAdministrator. apply user_tx_snd; [done|]. intros [] s' E. inv_tx E. evolve.
  - unfold CreateSession. apply user_tx_snd; [done|]. intros [] s' E. inv_tx E. evolve.
  - unfold UpdateSessionMFAVerifiedAt. destruct (_ =? _); evolve.
  - unfold SessionUser. destruct (session_user_row _ _ _) as [[r u]|]; [|done]. simpl. destruct (_ <=? _); evolve.
  - unfold revokeSessions. apply user_tx_snd; [done|]. intros [] s' E. inv_tx E. evolve.
  - unfold AppendAuditEvent. apply user_tx_snd; [done|]. intros [] s' E. inv_tx E. evolve.
  - unfold RecordLoginFailure. destruct (counted_failures _ _ _). evolve.
  - revert s. induction keys as [|key keys IH]; intros s; [done|]. etrans; [|apply IH]. evolve.
  - split; simpl; try apply grows_same, _. apply grows_updated; [apply _|]. intros r Hr. reflect_bools. split; [done|simpl; lia].
  - unfold ConsumeRecoveryCode. apply user_tx_snd; [done|]. intros used s' E. destruct (negb _); [by injection E as _ <-|]. inv_tx E. evolve.
  - unfold UpdateUserAccess. apply user_tx_snd; [done|]. intros [] s' E. destruct (query_row _ _); [|done]. inv_tx E. evolve.
  - unfold CreateInvitation. apply user_tx_snd; [done|]. intros [] s' E. inv_tx E. evolve.
  - unfold AcceptLocalInvitation. apply user_tx_snd; [done|]. intros [] s' E. inv_tx E. evolve.
  - unfold SaveAuthenticationPolicy. apply user_tx_snd; [done|]. intros [] s' E. inv_tx E. evolve.
  - unfold CreateAuthenticationCeremony. destruct (_ || _ || _); [done|evolve].
  - unfold ConsumeAuthenticationCeremony. apply user_tx_snd; [done|]. intros c s' E. destruct (query_row _ _); [|done]. injection E as _ <-. evolve.
  - unfold CreateWebAuthnCredential. destruct (_ || _); [done|evolve].
  - evolve.
  - unfold UpdateWebAuthnCredential. destruct (_ =? _); [done|evolve].
  - unfold UpsertOIDCProvider. apply user_tx_snd; [done|]. intros [] s' E. inv_tx E. evolve.
  - unfold MarkOIDCProviderTested, updateOIDCProviderState. apply user_tx_snd; [done|]. intros [] s' E. inv_tx E. evolve.
  - unfold SetOIDCProviderEnabled, updateOIDCProviderState. apply user_tx_snd; [done|]. intros [] s' E. inv_tx E. evolve.
  - unfold ResolveOIDCUser. apply user_tx_snd; [done|]. intros user s' E. destruct (linkedOIDCUser _ _ _); [by apply evolves_update_linked in E|].
    rewrite bind_ok in E. destruct E as ([user' s1] & Ep & E). apply evolves_provision in Ep. inv_tx E. etrans; [exact Ep|evolve].
Qed.
End Invariant.
