(* ===== verification/UserGuarantees.v ===== *)
(** The guarantees of accounts that every sequence of requests keeps: the
    tables stay well formed, a local administrator remains, setup happens once,
    a second factor and an invitation are accepted once; and the rotation of the
    identity encryption key (the identity-key rotate command of
    cmd/mossward/main.go). *)
From Stdlib Require Import ZArith Lia String Ascii.
From stdpp Require Import base tactics list strings gmap sets relations.
From coqutil Require Import Datatypes.RecordSettersUsingExistingGetters.
From S2P Require Import Prelude GoStrings GoTime Netip NetAddr WorkerModel Sql WorkerService NetworkPolicy EndpointModel EndpointService EndpointAdmin UserStore AssetStore IdentitySecrets UserService UserSafety.
Open Scope string_scope.
Open Scope Z_scope.
Open Scope list_scope.

(** * What a statement does to the users *)

Inductive users_change (u u' : list LocalIdentity) : Prop :=
| uc_same : u' = u -> users_change u u'
| uc_added row : u' = u ++ [row] -> users_change u u'
| uc_login p t : u' = update_where p (set_user (fun x => x <| User_LastLoginAt := Some t |> <| User_UpdatedAt := t |>)) u -> users_change u u'
| uc_access userID role status now current : query_row (user_is userID) u = Some current ->
    (local_administrator current && (negb (bool_decide (role = RoleAdministrator)) || negb (bool_decide (status = UserActive)))) &&
      (affected local_administrator u <=? 1) = false ->
    u' = update_where (user_is userID) (set_user (fun x => x <| User_Role := role |> <| User_Status := status |> <| User_UpdatedAt := now |>)) u ->
    users_change u u'
| uc_role r role now : r ∈ u -> Identity_PasswordHash r = ""%string ->
    u' = update_where (user_is (user_id r)) (set_user (fun x => x <| User_Role := role |> <| User_UpdatedAt := now |>)) u -> users_change u u'.

Section Users.
Context {LC : LowerCase}.

Lemma users_step db db' : user_wf db -> db_step db db' -> users_change (ub_users db) (ub_users db').
Proof.
  intros Hwf Hs. destruct Hs.
  - unfold BootstrapAdministrator. apply user_tx_snd; [by apply uc_same|]. intros [] s' E. inv_tx E. by eapply uc_added.
  - unfold CreateSession. apply user_tx_snd; [by apply uc_same|]. intros [] s' E. inv_tx E. by eapply uc_login.
  - unfold UpdateSessionMFAVerifiedAt. destruct (_ =? _); by apply uc_same.
  - unfold SessionUser. destruct (session_user_row _ _ _) as [[r u]|]; [|by apply uc_same]. simpl. destruct (_ <=? _); by apply uc_same.
  - unfold revokeSessions. apply user_tx_snd; [by apply uc_same|]. intros [] s' E. inv_tx E. by apply uc_same.
  - unfold AppendAuditEvent. apply user_tx_snd; [by apply uc_same|]. intros [] s' E. inv_tx E. by apply uc_same.
  - unfold RecordLoginFailure. destruct (counted_failures _ _ _). by apply uc_same.
  - apply uc_same. clear Hwf. revert s. induction keys as [|key keys IH]; intros s; [done|]. simpl. by rewrite IH.
  - by apply uc_same.
  - unfold ConsumeRecoveryCode. apply user_tx_snd; [by apply uc_same|]. intros used s' E. destruct (negb _); [injection E as _ <-; by apply uc_same|]. inv_tx E. by apply uc_same.
  - unfold UpdateUserAccess. apply user_tx_snd; [by apply uc_same|]. intros [] s' E. destruct (query_row _ _) eqn:Eq; [|done]. inv_tx E. by eapply uc_access.
  - unfold CreateInvitation. apply user_tx_snd; [by apply uc_same|]. intros [] s' E. inv_tx E. by apply uc_same.
  - unfold AcceptLocalInvitation. apply user_tx_snd; [by apply uc_same|]. intros [] s' E. inv_tx E. by eapply uc_added.
  - unfold SaveAuthenticationPolicy. apply user_tx_snd; [by apply uc_same|]. intros [] s' E. inv_tx E. by apply uc_same.
  - unfold CreateAuthenticationCeremony. destruct (_ || _ || _); by apply uc_same.
  - unfold ConsumeAuthenticationCeremony. apply user_tx_snd; [by apply uc_same|]. intros c s' E. destruct (query_row _ _); [|done]. injection E as _ <-. by apply uc_same.
  - unfold CreateWebAuthnCredential. destruct (_ || _); by apply uc_same.
  - by apply uc_same.
  - unfold UpdateWebAuthnCredential. destruct (_ =? _); by apply uc_same.
  - unfold UpsertOIDCProvider. apply user_tx_snd; [by apply uc_same|]. intros [] s' E. inv_tx E. by apply uc_same.
  - unfold MarkOIDCProviderTested, updateOIDCProviderState. apply user_tx_snd; [by apply uc_same|]. intros [] s' E. inv_tx E. by apply uc_same.
  - unfold SetOIDCProviderEnabled, updateOIDCProviderState. apply user_tx_snd; [by apply uc_same|]. intros [] s' E. inv_tx E. by apply uc_same.
  - unfold ResolveOIDCUser. apply user_tx_snd; [by apply uc_same|]. intros user s' E. destruct (linkedOIDCUser _ _ _) as [u|] eqn:El.
    + unfold linkedOIDCUser in El. destruct (query_row _ (ub_externals s)) as [e|] eqn:Ee; [|done]. destruct (query_row (user_is (ex_user e)) _) as [r|] eqn:Er; [|done].
      injection El as <-. apply query_row_Some in Er as [Hr Hid]. apply query_row_Some in Ee as [He _].
      unfold updateLinkedOIDCUser in E. inv_tx E. simpl. destruct (_ && negb (bool_decide (User_Role _ = _))); [|by apply uc_same].
      eapply (uc_role _ _ r); [done| |done]. pose proof (wf_external_users _ Hwf) as Hx. rewrite Forall_forall in Hx. destruct (Hx e He) as (r0 & Hr0 & E1 & E2).
      unfold user_is in Hid. reflect_bools. replace r with r0; [done|]. eapply (key_inj user_id); eauto using wf_users. congruence.
    + rewrite bind_ok in E. destruct E as ([user' s1] & Ep & E). inv_tx E. unfold provisionOIDCUser in Ep. rewrite bind_ok in Ep.
      destruct Ep as ([role' s2] & Ec & Ep). apply wf_claim in Ec as (_ & Eu & _); [|done]. inv_tx Ep.
      match goal with Hx : insert_external _ _ = Ok _ |- _ => unfold insert_external in Hx; inv_ok Hx end. simpl. rewrite Eu. by eapply uc_added.
Qed.

(** * A local administrator remains *)

(** An active administrator who signs in with a password. *)
Definition administrator_exists (db : UserDb) : Prop :=
  exists r, r ∈ ub_users db /\ User_Role (Identity_User r) = RoleAdministrator /\ User_Status (Identity_User r) = UserActive /\ Identity_PasswordHash r <> ""%string.

Lemma administrator_row db : administrator_exists db <-> exists r, r ∈ ub_users db /\ local_administrator r = true.
Proof.
  unfold administrator_exists, local_administrator. setoid_rewrite andb_true_iff. setoid_rewrite andb_true_iff. setoid_rewrite negb_true_iff.
  setoid_rewrite bool_decide_eq_true. setoid_rewrite bool_decide_eq_false. naive_solver.
Qed.

(** Of two rows with keys of their own, one has another key than [k]. *)
Lemma affected_other {Row} (key : Row -> string) p (table : list Row) k : NoDup (key <$> table) -> (affected p table <=? 1) = false ->
  exists r, r ∈ table /\ p r = true /\ key r <> k.
Proof.
  intros Hnd Ha. apply Z.leb_gt in Ha. unfold affected in Ha. pose proof (NoDup_select_key key p table Hnd) as Hs.
  destruct (select_where p table) as [|x [|y l]] eqn:E; simpl in Ha; [lia|lia|].
  assert (Hxy : forall z, z ∈ [x; y] -> z ∈ table /\ p z = true).
  { intros z Hz. apply elem_of_select_where. rewrite E. set_solver. }
  simpl in Hs. apply NoDup_cons in Hs as [Hn _]. destruct (decide (key x = k)) as [Hx|Hx].
  - exists y. destruct (Hxy y) as [? ?]; [set_solver|]. split_and!; [done..|]. intros Hy. apply Hn. rewrite Hx, <- Hy. by left.
  - exists x. destruct (Hxy x) as [? ?]; [set_solver|]. done.
Qed.

Lemma elem_of_update_not {Row} (p : Row -> bool) f table r : r ∈ table -> p r = false -> r ∈ update_where p f table.
Proof. intros Hr Hp. apply elem_of_update_where. exists r. by rewrite Hp. Qed.

Lemma elem_of_update_in {Row} (p : Row -> bool) f table r : r ∈ table -> p r = true -> f r ∈ update_where p f table.
Proof. intros Hr Hp. apply elem_of_update_where. exists r. by rewrite Hp. Qed.

Lemma administrator_step db db' : db_step db db' -> user_wf db -> administrator_exists db -> administrator_exists db'.
Proof.
  rewrite !administrator_row. intros Hs Hwf (r & Hr & Ha). destruct (users_step _ _ Hwf Hs) as [E|row E|p t E|userID role status now current Hq Hg E|r0 role now Hr0 Hp E]; rewrite E.
  - eauto.
  - exists r. split; [apply elem_of_app; by left|done].
  - destruct (p r) eqn:Ep; [|exists r; by split; [apply elem_of_update_not|]]. eexists. split; [by apply elem_of_update_in|exact Ha].
  - apply andb_false_iff in Hg as [Hg|Hg].
    + destruct (user_is userID r) eqn:Eu; [|exists r; by split; [apply elem_of_update_not|]].
      rewrite <- (user_is_row db userID current r Hwf Hq Hr Eu), Ha in Hg. simpl in Hg. apply orb_false_iff in Hg as [Hrole Hstatus].
      eexists. split; [by apply elem_of_update_in|]. unfold local_administrator in *. simpl. reflect_bools. rewrite !bool_decide_eq_true_2 by done. simpl. by rewrite bool_decide_eq_false_2.
    + destruct (affected_other user_id local_administrator (ub_users db) userID (wf_users _ Hwf) Hg) as (y & Hy & Hya & Hyk).
      exists y. split; [|done]. apply elem_of_update_not; [done|]. unfold user_is. by apply bool_decide_eq_false.
  - exists r. split; [|done]. apply elem_of_update_not; [done|]. unfold user_is. apply bool_decide_eq_false. intros Hk.
    replace r with r0 in * by (eapply (key_inj user_id); eauto using wf_users). unfold local_administrator in Ha. reflect_bools. done.
Qed.

Lemma evolves_initialized db db' : evolves db db' -> IdentityInitialized db = true -> IdentityInitialized db' = true.
Proof.
  intros [(l1 & rest & E & H) _ _ _]. unfold IdentityInitialized. rewrite E, !Z.ltb_lt, length_app. apply Forall2_length in H. lia.
Qed.
End Users.

Section Guarantees.
Context {LC : LowerCase} {CF : CaseFolding} {PC : PasswordCrypto} {SC : SecretCrypto} {IL : IdentityLibraries} {WL : WebAuthnLibrary} (secrets : SecretBox).

Abbreviation run := (run_server secrets).

Lemma served_wf s events : user_wf (sv_db s) -> user_wf (sv_db (run s events)).
Proof. intros Hwf. apply server_preserves; [apply wf_step|done]. Qed.

Lemma run_evolves s events : evolves (sv_db s) (sv_db (run s events)).
Proof.
  enough (H : forall db db', rtc db_step db db' -> evolves db db') by apply H, server_steps.
  intros db db' Hs. induction Hs; [done|]. etrans; [by apply evolves_step|done].
Qed.

(** C24: Whatever requests a server gets, in whatever order, with restarts between
    them, its account tables stay well formed: identifiers, addresses (up to
    case), session hashes, invitation tokens and ceremonies are keys, roles and
    statuses are known, sessions and second factors belong to users, a user whom
    an identity provider signs in has no password, and an enabled provider has
    been tested. *)
Theorem accounts_well_formed s events : user_wf (sv_db s) -> user_wf (sv_db (run s events)).
Proof. apply served_wf. Qed.

(** C5: Completing the setup makes an active local administrator, and from then
    on no sequence of requests (changes of access, logins through a provider
    that maps groups to roles, restarts) leaves the installation without one. *)
Theorem local_administrator_remains s events :
  user_wf (sv_db s) ->
  (forall token code now draws result s', CompleteBootstrap secrets token code now draws s = (Ok result, s') -> administrator_exists (sv_db s')) /\
  (administrator_exists (sv_db s) -> administrator_exists (sv_db (run s events))).
Proof.
  intros Hwf. split.
  - intros token code now draws result s' E. unfold CompleteBootstrap, st_bind at 1 in E. destruct (takePendingBootstrap _ _ _) as [[pending|] s1]; [|done].
    destruct (negb _); [done|]. unfold st_bind, st_lift in E. destruct (HashPassword _ _) as [hash|] eqn:Eh; [|done].
    destruct (Encrypt _ _ _) as [c|]; [|done]. destruct (generateRecoveryCodes _) as [codes hashes]. unfold on_db in E.
    destruct (BootstrapAdministrator _ _ _ _ _) as [[[]|] db] eqn:Eb; [|done]. injection E as _ <-. unfold BootstrapAdministrator, user_tx in Eb.
    match type of Eb with (match ?m with _ => _ end) = _ => destruct m as [[[] db']|] eqn:Em; [|done] end. injection Eb as <-. inv_tx Em.
    apply HashPassword_nonempty in Eh. eexists. split; [simpl; apply elem_of_app; right; by apply list_elem_of_singleton|done].
  - intros Ha. assert (HI : user_wf (sv_db (run s events)) /\ administrator_exists (sv_db (run s events))); [|tauto].
    apply (server_preserves secrets (fun db => user_wf db /\ administrator_exists db)); [|done].
    intros db db' Hs [Hw Hadm]. split; [by eapply wf_step|by eapply administrator_step].
Qed.

(** * Setup *)

Lemma bootstrap_refused user hash mfa event db : IdentityInitialized db = true ->
  BootstrapAdministrator user hash mfa event db = (Err ErrAlreadyInitialized, db).
Proof.
  unfold IdentityInitialized, BootstrapAdministrator, user_tx. rewrite Z.ltb_lt. intros H.
  by replace (Z.of_nat (length (ub_users db)) =? 0) with false by (symmetry; apply Z.eqb_neq; lia).
Qed.

Lemma complete_refused token code now draws s : Initialized s = true ->
  is_ok (CompleteBootstrap secrets token code now draws s).1 = false /\ sv_db (CompleteBootstrap secrets token code now draws s).2 = sv_db s.
Proof.
  intros Hi. unfold CompleteBootstrap, st_bind.
  assert (Hdb : sv_db (takePendingBootstrap token now s).2 = sv_db s) by (unfold takePendingBootstrap; repeat case_match; done).
  destruct (takePendingBootstrap token now s) as [[pending|e] s1]; simpl in Hdb; [|by split].
  destruct (negb _); [by split|]. unfold st_lift. destruct (HashPassword _ _); [|by split]. destruct (Encrypt _ _ _); [|by split].
  destruct (generateRecoveryCodes _). unfold on_db. rewrite bootstrap_refused by (by rewrite Hdb). by split.
Qed.

(** Setup happens once: the completion that succeeds initialises the
    installation, no later request or restart undoes that, and every further
    beginning or completion of a setup, also with an enrollment that was
    pending, is refused and changes no account. *)
Theorem setup_happens_once s events :
  (forall token code now draws result s1, CompleteBootstrap secrets token code now draws s = (Ok result, s1) -> Initialized s = false /\ Initialized s1 = true) /\
  (Initialized s = true -> forall s', s' = run s events ->
    Initialized s' = true /\
    (forall request now salt secret token, BeginBootstrap request now salt secret token s' = (Err ErrAlreadyInitialized, s')) /\
    (forall token code now draws, is_ok (CompleteBootstrap secrets token code now draws s').1 = false /\
       sv_db (CompleteBootstrap secrets token code now draws s').2 = sv_db s')).
Proof.
  split.
  - intros token code now draws result s1 E. destruct (Initialized s) eqn:Hi.
    { destruct (complete_refused token code now draws s Hi) as [Hf _]. by rewrite E in Hf. }
    split; [done|]. pose proof (svc_steps_complete_bootstrap secrets token code now draws s) as Hs. rewrite E in Hs.
    unfold CompleteBootstrap, st_bind at 1 in E. destruct (takePendingBootstrap _ _ _) as [[pending|] s2]; [|done].
    destruct (negb _); [done|]. unfold st_bind, st_lift in E. destruct (HashPassword _ _) as [hash|] eqn:Eh; [|done].
    destruct (Encrypt _ _ _) as [c|]; [|done]. destruct (generateRecoveryCodes _) as [codes hashes]. unfold on_db in E.
    destruct (BootstrapAdministrator _ _ _ _ _) as [[[]|] db] eqn:Eb; [|done]. injection E as _ <-. unfold BootstrapAdministrator, user_tx in Eb.
    match type of Eb with (match ?m with _ => _ end) = _ => destruct m as [[[] db']|] eqn:Em; [|done] end. injection Eb as <-. inv_tx Em.
    unfold Initialized, IdentityInitialized. simpl. rewrite length_app. apply Z.ltb_lt. simpl. lia.
  - intros Hi s' ->. assert (Hi' : Initialized (run s events) = true) by (eapply evolves_initialized; [apply run_evolves|exact Hi]).
    split; [done|]. split; [|intros; by apply complete_refused]. intros request now salt secret token. unfold BeginBootstrap. by rewrite Hi'.
Qed.

(** * Second factors *)

(** The factor a value stands for: the hash of a recovery code, or the counter
    of the period whose code it is. *)
Definition presented_factor (db : UserDb) (userID value : string) (now : Time) : option (string + Z) :=
  let value := TrimSpace (ToLowerText value) in
  if negb (lacks "-" value) then Some (inl (Sum256 value))
  else match TOTPSecret userID db with
       | Ok (ciphertext, _) =>
           match Decrypt secrets ciphertext with
           | Ok secret => inr <$> matchingTOTPCounter secret (TrimSpace value) now
           | Err _ => None
           end
       | Err _ => None
       end.

Definition factor_used (userID : string) (f : string + Z) (db : UserDb) : Prop :=
  match f with
  | inl hash => exists r, r ∈ ub_codes db /\ rc_user r = userID /\ rc_hash r = hash /\ rc_used_at r <> None
  | inr counter => exists r, r ∈ ub_totp db /\ tc_user r = userID /\ counter <= tc_counter r
  end.

Lemma factor_used_evolves userID f db db' : evolves db db' -> factor_used userID f db -> factor_used userID f db'.
Proof.
  intros [_ Ht Hc _]. destruct f as [hash|counter]; intros (r & Hr & H).
  - destruct (grows_elem _ _ _ _ Hc Hr) as (r' & Hr' & E1 & E2 & E3). exists r'. destruct H as (<- & <- & Hu). split_and!; auto.
  - destruct (grows_elem _ _ _ _ Ht Hr) as (r' & Hr' & E1 & E2). exists r'. destruct H as (<- & Hu). split_and!; [done..|lia].
Qed.

(** A factor that is accepted had not been used, and has been now. *)
Lemma factor_accepted userID value ip now db t db' : user_wf db -> verifySecondFactor secrets userID value ip now db = (Ok t, db') ->
  t = now /\ exists f, presented_factor db userID value now = Some f /\ ~ factor_used userID f db /\ factor_used userID f db'.
Proof.
  intros Hwf. unfold verifySecondFactor, presented_factor. destruct (negb _).
  - unfold verifyRecoveryCode, ConsumeRecoveryCode, user_tx, st_bind. set (hash := Sum256 _). set (target := unused_code userID hash).
    destruct (affected target (ub_codes db) =? 1) eqn:Ea; simpl; [|done]. destruct (insertAuditEvent _ _) as [s1|e] eqn:Ei; simpl; [|done].
    intros [= <- <-]. split; [done|]. exists (inl hash). split; [done|]. apply Z.eqb_eq, affected_1 in Ea as (r & Hr & Hp).
    assert (Hkey : rc_user r = userID /\ rc_hash r = hash /\ rc_used_at r = None) by (subst target; unfold unused_code in Hp; reflect_bools; done).
    destruct Hkey as (Hu & Hh & Hn). split.
    + intros (r' & Hr' & Hu' & Hh' & Hn'). assert (r' = r) as ->; [|done]. eapply (key_inj (fun x => (rc_user x, rc_hash x))); eauto using wf_codes. congruence.
    + apply insertAuditEvent_ok in Ei as (row & ->). exists (r <| rc_used_at := Some (formatTime now) |>). split; [|done]. simpl.
      by apply (elem_of_update_in target (fun x => x <| rc_used_at := Some (formatTime now) |>)).
  - unfold verifyTOTP, st_bind, st_read. destruct (TOTPSecret userID db) as [[c n]|]; simpl; [|done]. unfold st_lift.
    destruct (Decrypt secrets c) as [secret|]; simpl; [|done]. destruct (matchingTOTPCounter _ _ _) as [counter|]; [|done].
    unfold ConsumeTOTPCounter. set (target := fun r => totp_is userID r && (tc_counter r <? counter)).
    destruct (affected target (ub_totp db) =? 1) eqn:Ea; simpl; [|done]. intros [= <- <-]. split; [done|]. exists (inr counter). split; [done|].
    apply Z.eqb_eq, affected_1 in Ea as (r & Hr & Hp).
    assert (Hkey : tc_user r = userID /\ tc_counter r < counter) by (subst target; simpl in Hp; unfold totp_is in Hp; reflect_bools; done). destruct Hkey as [Hu Hc]. split.
    + intros (r' & Hr' & Hu' & Hc'). assert (r' = r) as ->; [|lia]. eapply (key_inj tc_user); eauto using wf_totp. congruence.
    + exists (r <| tc_counter := counter |>). split; [|simpl; by split; [|lia]]. simpl. by apply (elem_of_update_in target (fun x => x <| tc_counter := counter |>)).
Qed.

(** C12: A second factor is accepted once: after one, whatever requests and
    restarts come between, the next that is accepted for that user is another
    recovery code or the code of a later period. *)
Theorem second_factor_accepted_once s events userID value ip now t db1 value' ip' now' t' db2 :
  user_wf (sv_db s) ->
  verifySecondFactor secrets userID value ip now (sv_db s) = (Ok t, db1) ->
  verifySecondFactor secrets userID value' ip' now' (sv_db (run (s <| sv_db := db1 |>) events)) = (Ok t', db2) ->
  exists f f', presented_factor (sv_db s) userID value now = Some f /\
    presented_factor (sv_db (run (s <| sv_db := db1 |>) events)) userID value' now' = Some f' /\
    f <> f' /\ forall counter counter', f = inr counter -> f' = inr counter' -> counter < counter'.
Proof.
  intros Hwf E1 E2. assert (Hw1 : user_wf db1).
  { pose proof (steps_second_factor secrets userID value ip now (sv_db s)) as Hs. rewrite E1 in Hs. simpl in Hs. clear E1 E2. induction Hs; eauto using wf_step. }
  set (s1 := s <| sv_db := db1 |>) in *. apply factor_accepted in E1 as (_ & f & Hf & _ & Hused); [|done].
  apply factor_accepted in E2 as (_ & f' & Hf' & Hfresh & _); [|by apply served_wf]. exists f, f'.
  apply (factor_used_evolves _ _ _ _ (run_evolves s1 events)) in Hused. split_and!; [done..| |].
  - by intros ->.
  - intros counter counter' -> ->. destruct (decide (counter < counter')); [done|]. exfalso. apply Hfresh.
    destruct Hused as (r & Hr & Hu & Hc). exists r. split_and!; [done..|lia].
Qed.

(** * Invitations *)

Definition invitation_accepted (id : string) (db : UserDb) : Prop := exists r, r ∈ ub_invitations db /\ invitation_id r = id /\ in_accepted r <> None.

Lemma invitation_accepted_evolves id db db' : evolves db db' -> invitation_accepted id db -> invitation_accepted id db'.
Proof.
  intros [_ _ _ Hi] (r & Hr & <- & Ha). destruct (grows_elem _ _ _ _ Hi Hr) as (r' & Hr' & E1 & _ & E2).
  exists r'. split_and!; [done| |auto]. unfold invitation_id. by rewrite E1.
Qed.

(** An accepted invitation is not open. *)
Lemma accepted_not_open id db r now : user_wf db -> invitation_accepted id db -> r ∈ ub_invitations db -> open_invitation now r = true -> invitation_id r <> id.
Proof.
  intros Hwf (r' & Hr' & E & Ha) Hr Ho Hid. assert (r' = r) as -> by (eapply (key_inj invitation_id); eauto using wf_invitations; congruence).
  unfold open_invitation in Ho. by reflect_bools.
Qed.

Lemma accept_local_accepts invitation user hash mfa now event db db' : AcceptLocalInvitation invitation user hash mfa now event db = (Ok tt, db') ->
  invitation_accepted (Invitation_ID invitation) db' /\ exists r, r ∈ ub_invitations db /\ invitation_id r = Invitation_ID invitation /\ open_invitation (formatTime now) r = true.
Proof.
  unfold AcceptLocalInvitation, user_tx. set (target := fun r => _ && _ && open_invitation _ r).
  match goal with |- (match ?m with _ => _ end) = _ -> _ => destruct m as [[[] d]|] eqn:Em; [|done] end. intros [= <-]. inv_tx Em. reflect_bools.
  match goal with Hx : affected _ _ = 1 |- _ => apply affected_1 in Hx as (r & Hr & Hp) end.
  assert (Hkey : invitation_id r = Invitation_ID invitation /\ open_invitation (formatTime now) r = true) by (subst target; simpl in Hp; reflect_bools; done).
  destruct Hkey as [Hid Ho]. split; [|by exists r]. exists (r <| in_accepted := Some (formatTime now) |>). split; [|done]. simpl.
  by apply (elem_of_update_in target (fun x => x <| in_accepted := Some (formatTime now) |>)).
Qed.

Lemma complete_invitation_accept token code ip now draws s account s' pending : sv_invites s !! token = Some pending ->
  CompleteLocalInvitation secrets token code ip now draws s = (Ok account, s') ->
  Before now (pi_expires pending) = true /\ ValidateCode (TrimSpace code) (pi_secret pending) now = true /\
  exists user hash mfa event, AcceptLocalInvitation (pi_invitation pending) user hash mfa now event (sv_db s) = (Ok tt, sv_db s') /\
    sv_invites s' = delete token (sv_invites s).
Proof.
  intros Hp E. unfold CompleteLocalInvitation, st_bind at 1 in E. unfold takePendingInvitation in E. rewrite Hp in E.
  destruct (Before now (pi_expires pending)) eqn:Eb; [|done]. destruct (ValidateCode _ _ _) eqn:Ev; cbn [negb] in E; [|done]. unfold st_bind, st_lift in E.
  destruct (HashPassword _ _) as [hash|]; [|done]. destruct (Encrypt _ _ _) as [c|]; [|done]. destruct (generateRecoveryCodes _) as [codes hashes].
  unfold on_db in E. destruct (AcceptLocalInvitation _ _ _ _ _ _ _) as [[[]|] db] eqn:Ea; [|done]. injection E as _ <-.
  split; [done|]. split; [done|]. eauto 10.
Qed.

(** An invitation makes one account: once a pending enrollment of it has been
    completed, whatever requests come after, its token begins no other
    enrollment, and no other enrollment of it that is pending can be completed. *)
Theorem invitation_accepted_once s events token code ip now draws account s1 pending :
  user_wf (sv_db s) -> sv_invites s !! token = Some pending ->
  CompleteLocalInvitation secrets token code ip now draws s = (Ok account, s1) ->
  (forall token' name password now' salt secret fresh enrollment s2,
     BeginLocalInvitation token' name password now' salt secret fresh (run s1 events) = (Ok enrollment, s2) ->
     exists p, sv_invites s2 !! randomHex fresh = Some p /\ Invitation_ID (pi_invitation p) <> Invitation_ID (pi_invitation pending)) /\
  (forall token' code' ip' now' draws' account' s2 p,
     sv_invites (run s1 events) !! token' = Some p -> CompleteLocalInvitation secrets token' code' ip' now' draws' (run s1 events) = (Ok account', s2) ->
     Invitation_ID (pi_invitation p) <> Invitation_ID (pi_invitation pending)).
Proof.
  intros Hwf Hp E. assert (Hw1 : user_wf (sv_db s1)).
  { pose proof (svc_steps_complete_invitation secrets token code ip now draws s) as Hs. rewrite E in Hs. simpl in Hs. clear E. induction Hs; eauto using wf_step. }
  destruct (complete_invitation_accept _ _ _ _ _ _ _ _ _ Hp E) as (_ & _ & user & hash & mfa & event & Ea & _).
  apply accept_local_accepts in Ea as [Hacc _]. apply (invitation_accepted_evolves _ _ _ (run_evolves s1 events)) in Hacc.
  pose proof (served_wf s1 events Hw1) as Hw. split.
  - intros token' name password now' salt secret fresh enrollment s2 Eb. unfold BeginLocalInvitation in Eb. destruct (DecodeString _) as [raw|]; [|done].
    destruct (negb _); [done|]. destruct (InvitationByTokenHash _ _ _) as [invitation|] eqn:Ei; [|done]. destruct (negb _); [done|]. destruct (bool_decide _); [done|].
    destruct (HashPassword _ _); [|done]. injection Eb as _ <-. eexists. split; [simpl; apply lookup_insert_eq|]. simpl.
    unfold InvitationByTokenHash in Ei. destruct (query_row _ _) as [r|] eqn:Eq; [|done]. injection Ei as <-. apply query_row_Some in Eq as [Hr Ho].
    apply andb_true_iff in Ho as [_ Ho]. by eapply accepted_not_open.
  - intros token' code' ip' now' draws' account' s2 p Hp' Ec. destruct (complete_invitation_accept _ _ _ _ _ _ _ _ _ Hp' Ec) as (_ & _ & u & h & m & ev & Ea & _).
    apply accept_local_accepts in Ea as [_ (r & Hr & Hid & Ho)]. rewrite <- Hid. by eapply accepted_not_open.
Qed.
End Guarantees.

(** * A column *)

Section Column.
Context {Row : Type} (key value : Row -> string) (put : string -> Row -> Row) (cipher : IdentityCipher) (nonce : string -> string).

(** A row and what becomes of it. *)
Definition rotated_row (r r' : Row) : Prop :=
  if 0 <? strlen (value r) then exists c, reencrypt cipher (nonce (key r)) (value r) = Ok c /\ r' = put c r else r' = r.

Definition rotated_by (records : list Row) (r r' : Row) : Prop :=
  (exists x c, x ∈ records /\ key x = key r /\ reencrypt cipher (nonce (key x)) (value x) = Ok c /\ r' = put c r) \/
  (r' = r /\ forall x, x ∈ records -> key x <> key r).

Lemma rotate_records records : (forall c r, key (put c r) = key r) -> NoDup (key <$> records) ->
  Forall (fun r => is_ok (reencrypt cipher (nonce (key r)) (value r)) = true) records -> forall table,
  exists table', for_each (fun t r => c ← reencrypt cipher (nonce (key r)) (value r) ; Ok (update_where (fun r' => bool_decide (key r' = key r)) (put c) t)) table records = Ok table' /\
    Forall2 (rotated_by records) table table'.
Proof.
  intros Hput. induction records as [|x records IH]; intros Hnd Hok table; simpl.
  { exists table. split; [done|]. induction table; constructor; [|done]. right. split; [done|]. by intros ? ?%not_elem_of_nil. }
  rewrite fmap_cons in Hnd. apply NoDup_cons in Hnd as [Hx Hnd]. apply Forall_cons in Hok as [Hok1 Hok].
  destruct (reencrypt cipher (nonce (key x)) (value x)) as [c|] eqn:Ec; [|done]. cbn [mbind result_bind].
  destruct (IH Hnd Hok (update_where (fun r' => bool_decide (key r' = key x)) (put c) table)) as (table' & E & H2). exists table'. split; [done|].
  unfold update_where in H2. rewrite Forall2_fmap_l in H2. eapply Forall2_impl; [exact H2|]. intros r r'. unfold compose.
  case_bool_decide as Hk.
  - intros [(y & d & Hy & Hky & _)|[-> _]].
    + exfalso. apply Hx. rewrite <- Hk, <- (Hput c r), <- Hky. by apply list_elem_of_fmap_2.
    + left. exists x, c. split_and!; try done. by left.
  - intros [(y & d & Hy & Hky & Hre & ->)|[-> Hn]]; [left; exists y, d; split_and!; try done; by right|right]. split; [done|].
    intros y [->|Hy]%elem_of_cons; [congruence|by apply Hn].
Qed.

(** A column whose ciphertexts can be read is rotated row by row. *)
Lemma rotate_column table : (forall c r, key (put c r) = key r) -> NoDup (key <$> table) ->
  Forall (fun r => 0 < strlen (value r) -> is_ok (reencrypt cipher (nonce (key r)) (value r)) = true) table ->
  exists table' n, rotateEncryptedColumn key value put cipher nonce table = Ok (table', n) /\ Forall2 rotated_row table table'.
Proof.
  intros Hput Hnd Hok. unfold rotateEncryptedColumn. set (records := select_where _ _). rewrite Forall_forall in Hok.
  destruct (rotate_records records Hput) with (table := table) as (table' & E & H2).
  - by apply NoDup_select_key.
  - apply Forall_forall. intros r Hr. apply elem_of_select_where in Hr as [Hr Hv]. apply Hok; [done|]. by apply Z.ltb_lt.
  - rewrite E. cbn [mbind result_bind]. eexists _, _. split; [done|]. clear E. apply Forall2_same_length_lookup. apply Forall2_same_length_lookup in H2 as [Hlen H2].
    split; [done|]. intros i r r' Hi Hi'. pose proof (list_elem_of_lookup_2 _ _ _ Hi) as Hr. unfold rotated_row. destruct (H2 i r r' Hi Hi') as [(x & c & Hx & Hkx & Hre & ->)|[-> Hn]].
    + apply elem_of_select_where in Hx as [Hx Hv]. replace x with r in * by (eapply (key_inj key); eauto). rewrite Hv. eauto.
    + destruct (0 <? strlen (value r)) eqn:Hv; [|done]. exfalso. apply (Hn r); [|done]. by apply elem_of_select_where.
Qed.
End Column.

(** * The store *)

(** The ciphertexts of a store, column by column. *)
Definition ciphertexts (db : UserDb) : list string :=
  (tc_secret <$> ub_totp db) ++ (WebAuthn_Ciphertext <$> ub_credentials db) ++ (Ceremony_StateCiphertext <$> ub_ceremonies db) ++
  (Record_ClientSecretCiphertext <$> ub_providers db) ++ (match ub_smtp_password db with Some c => [c] | None => [] end).

(** The store without its ciphertexts, and without the log. *)
Definition erased (db : UserDb) : UserDb :=
  mkUserDb (ub_users db) (ub_sessions db) ((fun r => r <| tc_secret := ""%string |>) <$> ub_totp db) (ub_codes db) (ub_invitations db) (ub_attempts db)
    ((fun r => r <| Ceremony_StateCiphertext := ""%string |>) <$> ub_ceremonies db) ((fun r => r <| WebAuthn_Ciphertext := ""%string |>) <$> ub_credentials db)
    ((fun r => r <| Record_ClientSecretCiphertext := ""%string |>) <$> ub_providers db) (ub_externals db) [] (ub_policy db)
    ((fun _ => ""%string) <$> ub_smtp_password db).

Section Rotation.
Context {SC : SecretCrypto} {SL : SecretCryptoLaws}.

(** A column that is empty has no secret; another has the one it decrypts to. *)
Definition reads (box : SecretBox) (c : string) (secret : option string) : Prop :=
  match secret with None => c = ""%string | Some p => 0 < strlen c /\ Decrypt box c = Ok p end.

(** The key file opens the secrets of the store. *)
Definition opens (data : string) (db : UserDb) (secrets : list (option string)) : Prop :=
  exists box, parseSecretBox data = Ok box /\ Forall2 (reads box) (ciphertexts db) secrets.

Definition box_cipher (box : SecretBox) : IdentityCipher := mkCipher (Encrypt box) (Decrypt box).

Lemma strlen_empty s : 0 < strlen s <-> s <> ""%string.
Proof. unfold strlen. destruct s; simpl; split; try done; lia. Qed.

(** What is encrypted again is read by every box that has the active key. *)
Lemma reencrypt_reads box box' nonce c p : box_ok box -> box_keys box' !! box_activeID box = box_keys box !! box_activeID box -> strlen nonce = gcmNonceSize ->
  Decrypt box c = Ok p -> exists c', reencrypt (box_cipher box) nonce c = Ok c' /\ reads box' c' (Some p).
Proof using All.
  intros Hok Hsame Hn Hd. unfold reencrypt, box_cipher. simpl. rewrite Hd. pose proof (Encrypt_total box nonce p Hok) as He.
  destruct (Encrypt box nonce p) as [c'|] eqn:E; [|done]. exists c'. split; [done|]. split; [|by eapply Decrypt_Encrypt].
  unfold Encrypt in E. destruct (box_keys box !! _); [|done]. injection E as <-. rewrite !strlen_app. change (strlen ciphertextEnvelope) with 4. unfold strlen. lia.
Qed.

(** The boxes that have the active key of [box]. *)
Definition has_active (box box' : SecretBox) : Prop := box_keys box' !! box_activeID box = box_keys box !! box_activeID box.

Lemma column_reads {Row} (key value : Row -> string) (put : string -> Row -> Row) box nonce table secrets :
  (forall c r, key (put c r) = key r) -> (forall c r, value (put c r) = c) -> (forall c d r, put c (put d r) = put c r) -> NoDup (key <$> table) ->
  box_ok box -> (forall k, strlen (nonce k) = gcmNonceSize) -> Forall2 (reads box) (value <$> table) secrets ->
  exists table' n, rotateEncryptedColumn key value put (box_cipher box) nonce table = Ok (table', n) /\
    (forall box', has_active box box' -> Forall2 (reads box') (value <$> table') secrets) /\ put ""%string <$> table' = put ""%string <$> table.
Proof using All.
  intros Hput Hval Hpp Hnd Hok Hn Hr. rewrite Forall2_fmap_l in Hr.
  destruct (rotate_column key value put (box_cipher box) nonce table Hput Hnd) as (table' & n & E & H2).
  { apply Forall_forall. intros r Hr' Hv. apply list_elem_of_lookup in Hr' as [i Hi]. destruct (Forall2_lookup_l _ _ _ _ _ Hr Hi) as ([p|] & _ & Hp); simpl in Hp.
    - destruct Hp as [_ Hp]. by destruct (reencrypt_reads box box (nonce (key r)) (value r) p Hok eq_refl (Hn _) Hp) as (c' & -> & _).
    - by rewrite Hp in Hv. }
  exists table', n. split; [done|]. clear E. split.
  - intros box' Hsame. rewrite Forall2_fmap_l. clear Hnd. revert secrets Hr.
    induction H2 as [|r r' l l' Hrr _ IH]; intros secrets Hr; [by apply Forall2_nil_inv_l in Hr as ->|].
    apply Forall2_cons_inv_l in Hr as (s & ss & Hs & Hss & ->). constructor; [|by apply IH].
    unfold compose in *. unfold rotated_row in Hrr. destruct s as [p|]; simpl in Hs.
    + destruct Hs as [Hv Hd]. rewrite (proj2 (Z.ltb_lt _ _) Hv) in Hrr. destruct Hrr as (c & Ec & ->). rewrite Hval.
      destruct (reencrypt_reads box box' (nonce (key r)) (value r) p Hok Hsame (Hn _) Hd) as (c' & Ec' & Hp). rewrite Ec in Ec'. injection Ec' as <-. exact Hp.
    + rewrite Hs in Hrr. simpl in Hrr. by subst r'.
  - clear Hnd Hr. induction H2 as [|r r' l l' Hrr _ IH]; [done|]. rewrite !fmap_cons. f_equal; [|apply IH].
    unfold rotated_row in Hrr. destruct (0 <? _); [|by subst]. destruct Hrr as (c & _ & ->). apply Hpp.
Qed.

Lemma rotate_store box nonce now db secrets : user_wf db -> box_ok box -> (forall column k, strlen (nonce column k) = gcmNonceSize) ->
  Forall2 (reads box) (ciphertexts db) secrets ->
  exists n db', RotateIdentityCiphertexts (box_cipher box) nonce now db = (Ok n, db') /\
    (forall box', has_active box box' -> Forall2 (reads box') (ciphertexts db') secrets) /\ erased db' = erased db.
Proof using All.
  intros Hwf Hok Hn Hr. unfold ciphertexts in Hr. apply Forall2_app_inv_l in Hr as (l1 & r1 & H1 & Hr & ->).
  apply Forall2_app_inv_l in Hr as (l2 & r2 & H2 & Hr & ->). apply Forall2_app_inv_l in Hr as (l3 & r3 & H3 & Hr & ->). apply Forall2_app_inv_l in Hr as (l4 & l5 & H4 & H5 & ->).
  destruct (column_reads tc_user tc_secret (fun c r => r <| tc_secret := c |>) box (nonce "totp_credentials"%string) (ub_totp db) l1) as (t1 & n1 & E1 & R1 & P1); [reflexivity|reflexivity|reflexivity|by apply wf_totp|exact Hok|apply Hn|exact H1|].
  destruct (column_reads WebAuthn_ID WebAuthn_Ciphertext (fun c r => r <| WebAuthn_Ciphertext := c |>) box (nonce "webauthn_credentials"%string) (ub_credentials db) l2)
    as (t2 & n2 & E2 & R2 & P2); [reflexivity|reflexivity|reflexivity|by apply wf_credentials|exact Hok|apply Hn|exact H2|].
  destruct (column_reads Ceremony_IDHash Ceremony_StateCiphertext (fun c r => r <| Ceremony_StateCiphertext := c |>) box (nonce "authentication_ceremonies"%string) (ub_ceremonies db) l3)
    as (t3 & n3 & E3 & R3 & P3); [reflexivity|reflexivity|reflexivity|by apply wf_ceremonies|exact Hok|apply Hn|exact H3|].
  destruct (column_reads provider_id Record_ClientSecretCiphertext (fun c r => r <| Record_ClientSecretCiphertext := c |>) box (nonce "oidc_providers"%string) (ub_providers db) l4)
    as (t4 & n4 & E4 & R4 & P4); [reflexivity|reflexivity|reflexivity|by apply wf_providers|exact Hok|apply Hn|exact H4|].
  destruct (column_reads (fun _ => "1"%string) id (fun c _ => c) box (nonce "smtp_settings"%string) (match ub_smtp_password db with Some c => [c] | None => [] end) l5)
    as (t5 & n5 & E5 & R5 & P5); [reflexivity|reflexivity|reflexivity|destruct (ub_smtp_password db); [apply NoDup_singleton|constructor]|exact Hok|apply Hn|rewrite list_fmap_id; exact H5|].
  unfold RotateIdentityCiphertexts, user_tx. rewrite E1. cbn [mbind result_bind]. rewrite E2. cbn [mbind result_bind]. rewrite E3. cbn [mbind result_bind].
  rewrite E4. cbn [mbind result_bind]. rewrite E5. cbn [mbind result_bind]. eexists _, _. split; [done|].
  assert (H5' : match head t5 with Some c => [c] | None => [] end = t5 /\ (fun _ => ""%string) <$> head t5 = (fun _ => ""%string) <$> ub_smtp_password db).
  { destruct (ub_smtp_password db), t5 as [|c [|]]; try discriminate P5; done. }
  destruct H5' as [Hh Hp5]. split.
  - intros box' Hs. unfold ciphertexts. simpl. rewrite Hh. repeat apply Forall2_app; eauto. specialize (R5 _ Hs). by rewrite list_fmap_id in R5.
  - unfold erased. f_equal; [exact P1|exact P3|exact P2|exact P4|exact Hp5].
Qed.

(** C10: The rotation of the identity key loses no secret. If the key file opens
    every ciphertext of the store, whether the file is a bare key, a keyring, or
    one that an interrupted rotation left with two keys, then all three steps of
    the command succeed, and at each point between them (the new file beside the
    old ciphertexts, the new file beside the new ones, the final file) the file
    there is opens the store, to the same secrets. The store changes in nothing
    else but the log, and in a rotation that was not interrupted the final file
    holds the new key alone. *)
Theorem key_rotation_preserves_secrets data key nonce now db box secrets :
  user_wf db -> key_file data -> strlen key = identityKeyBytes -> (forall column k, strlen (nonce column k) = gcmNonceSize) ->
  parseSecretBox data = Ok box -> box_keys box !! identityKeyID key = None -> opens data db secrets ->
  exists data1 copy box1 n db1 data2,
    BeginIdentityKeyRotation data key = (Ok box1, (data1, copy)) /\
    RotateIdentityCiphertexts (box_cipher box1) nonce now db = (Ok n, db1) /\
    FinalizeIdentityKeyRotation box1 data1 = Ok data2 /\
    opens data1 db secrets /\ opens data1 db1 secrets /\ opens data2 db1 secrets /\ erased db1 = erased db /\
    (size (box_keys box) = 1%nat -> parseSecretBox data2 = Ok (mkSecretBox (identityKeyID key) (identityKeyID key) {[ identityKeyID key := key ]})).
Proof using All.
  intros Hwf Hkf Hl Hn Hp Hfresh (box0 & Hp0 & Hr). rewrite Hp in Hp0. injection Hp0 as <-.
  destruct (begin_rotation data key box Hkf Hl Hp Hfresh) as (data1 & copy & ring & Eb & Hd & Hring & Hp1 & Hsub & Hleg & Hone).
  destruct (finalize_rotation ring data1 Hd Hring) as (data2 & active & Ef & Ha & Hp2).
  assert (Hr1 : Forall2 (reads (ring_box ring)) (ciphertexts db) secrets).
  { eapply Forall2_impl; [exact Hr|]. intros c [p|]; [|done]. intros [Hc Hdec]. split; [done|]. by eapply Decrypt_extend. }
  destruct (rotate_store (ring_box ring) nonce now db secrets Hwf (ring_box_ok _ Hring) Hn Hr1) as (n & db1 & Er & Hreads & Herased).
  exists data1, copy, (ring_box ring), n, db1, data2. split_and!; try done.
  - by exists (ring_box ring).
  - exists (ring_box ring). split; [done|]. by apply Hreads.
  - eexists. split; [exact Hp2|]. apply Hreads. unfold has_active. cbn [box_keys box_activeID ring_box]. rewrite lookup_singleton_eq. by rewrite <- Ha.
  - intros Hs. destruct (Hone Hs) as [Hid Hk]. rewrite Hp2, Hid. rewrite Hid, Hk in Ha. by injection Ha as <-.
Qed.
End Rotation.
