(* ===== verification/UserLogin.v ===== *)
(** Who gets in: what a login checks, what a change of access takes away, what
    an administrative request requires, the role that an identity provider's
    claims give, and how fast passwords can be guessed. *)
From Stdlib Require Import ZArith Lia String Ascii Sorting.Sorted.
From stdpp Require Import base tactics list strings gmap sets relations.
From coqutil Require Import Datatypes.RecordSettersUsingExistingGetters.
From S2P Require Import Prelude GoStrings GoTime Netip NetAddr WorkerModel Sql WorkerService NetworkPolicy EndpointModel EndpointService EndpointAdmin UserStore AssetStore IdentitySecrets UserService UserSafety UserGuarantees.
Open Scope string_scope.
Open Scope Z_scope.
Open Scope list_scope.

Section Login.
Context {LC : LowerCase} {CF : CaseFolding} {PC : PasswordCrypto} {SC : SecretCrypto} {IL : IdentityLibraries} {WL : WebAuthnLibrary} (secrets : SecretBox).

(** * Passwords *)

Lemma verified_password email password db user : VerifyLocalPassword email password db = Ok user ->
  exists r, r ∈ ub_users db /\ Identity_User r = user /\ nocase (User_Email user) = nocase (normalizeEmail email) /\ User_Status user = UserActive /\
    Identity_PasswordHash r <> ""%string /\ VerifyPassword (Identity_PasswordHash r) password = Ok true.
Proof.
  unfold VerifyLocalPassword, LocalIdentityByEmail, local_identity. destruct (query_row _ _) as [r|] eqn:Eq; [|done]. intros E. inv_ok E. reflect_bools.
  apply query_row_Some in Eq as [Hr He]. unfold email_is, nocase_eq in He. reflect_bools.
  destruct (VerifyPassword _ _) as [valid|] eqn:Ev; [|done]. inv_ok E. reflect_bools. subst valid. by exists r.
Qed.

Lemma login_not_blocked keys now db : loginBlocked keys now db = Ok false -> Forall (fun key => exists until, LoginThrottle key now db = Ok (until, false)) keys.
Proof.
  induction keys as [|key keys IH]; [constructor|]. simpl. rewrite bind_ok. intros ([until blocked] & E & H). destruct blocked; [done|].
  constructor; [eauto|by apply IH].
Qed.

Lemma cleared keys s key : key ∈ keys -> forall r, r ∈ ub_attempts (ClearLoginFailures keys s) -> la_key r <> key.
Proof.
  assert (Hsub : forall ks s r, r ∈ ub_attempts (ClearLoginFailures ks s) -> r ∈ ub_attempts s).
  { induction ks as [|k ks IH]; [done|]. intros s' r Hr. apply IH in Hr. simpl in Hr. by apply elem_of_select_where in Hr as [? _]. }
  revert s. induction keys as [|k keys IH]; intros s Hk r Hr; [by apply not_elem_of_nil in Hk|]. apply elem_of_cons in Hk as [->|Hk]; [|by eapply IH].
  simpl in Hr. apply Hsub in Hr. simpl in Hr. apply elem_of_select_where in Hr as [_ Hr]. unfold attempt_is in Hr. reflect_bools. done.
Qed.

(** * Sessions *)

(** The row [CreateSession] adds. *)
Definition session_row (session : Session) : SessionRow :=
  mkSessionRow (Session_IDHash session) (Session_PublicID session) (Session_UserID session) (formatTime (Session_CreatedAt session))
    (formatTime (Session_ExpiresAt session)) (Session_LastSeenAt session) (Session_MFAVerifiedAt session) (Session_SourceIP session) (Session_UserAgentHash session).

Lemma create_session_ok user ip agent verified now draws db token db' : CreateSession_ user ip agent verified now draws db = (Ok token, db') ->
  token = EncodeToString (dr_token draws) /\
  session_row (newSession user ip agent verified now draws (AuthenticationPolicy_ db)) ∈ ub_sessions db' /\ ub_attempts db' = ub_attempts db /\ evolves db db'.
Proof using LC IL.
  intros E. assert (Hev : evolves db db').
  { apply evolves_step. pose proof (step_session (newSession user ip agent verified now draws (AuthenticationPolicy_ db))
      (mkAuditEvent now (User_ID user) "identity.login.succeeded" AuditInfo "session" "" ip []) db) as Hs.
    unfold CreateSession_, st_bind in E. destruct (CreateSession _ _ db) as [[[]|] d]; [|done]. by injection E as _ <-. }
  unfold CreateSession_, st_bind, CreateSession, user_tx in E. match type of E with context [match ?m with Ok _ => _ | Err _ => _ end] => destruct m as [[[] d]|] eqn:Em end; [|done].
  injection E as <- <-. inv_tx Em. simpl. split; [done|]. split; [|done]. apply elem_of_app. right. by apply list_elem_of_singleton.
Qed.

(** The end of every login. *)
Lemma session_of_login user ip agent verified now draws s user' token s' :
  (token ⇐ on_db (CreateSession_ user ip agent verified now draws) ;; st_ret (user, token)) s = (Ok (user', token), s') ->
  exists db', CreateSession_ user ip agent verified now draws (sv_db s) = (Ok token, db') /\ user' = user /\ s' = s <| sv_db := db' |>.
Proof.
  unfold st_bind, on_db. destruct (CreateSession_ _ _ _ _ _ _ _) as [[tok|] d] eqn:Ec; [|done]. intros [= <- <- <-]. by exists d.
Qed.

(** Checking a second factor leaves the policy and the failures. *)
Lemma second_factor_rest userID value ip now db : let db' := (verifySecondFactor secrets userID value ip now db).2 in
  ub_policy db' = ub_policy db /\ ub_attempts db' = ub_attempts db.
Proof.
  unfold verifySecondFactor. destruct (negb _).
  - unfold verifyRecoveryCode, ConsumeRecoveryCode, user_tx, st_bind. destruct (negb _); simpl; [done|].
    destruct (insertAuditEvent _ _) as [s1|e] eqn:Ei; simpl; [|done]. by apply insertAuditEvent_ok in Ei as (row & ->).
  - unfold verifyTOTP, st_bind, st_read. destruct (TOTPSecret userID db) as [[c n]|]; simpl; [|done]. unfold st_lift.
    destruct (Decrypt secrets c) as [secret|]; simpl; [|done]. destruct (matchingTOTPCounter _ _ _) as [counter|]; [|done].
    unfold ConsumeTOTPCounter. by destruct (affected _ _ =? 1).
Qed.

(** C6: A password login that succeeds was not throttled, neither for the account
    nor for the source; the account is active and the password verifies against
    its hash; where the policy requires it for the account's role, the code was a
    second factor that had not been used and now has; and what it leaves is a
    session of that account, under the hash of the token handed out, that
    expires after the policy's lifetime, with the failures of both keys
    cleared. *)
Theorem login_requires_both_factors email password code ip agent now draws s user token s' :
  user_wf (sv_db s) ->
  AuthenticateLocal secrets email password code ip agent now draws s = (Ok (user, token), s') ->
  Forall (fun key => exists until, LoginThrottle key now (sv_db s) = Ok (until, false)) (loginThrottleKeys email ip) /\
  (exists r, r ∈ ub_users (sv_db s) /\ Identity_User r = user /\ nocase (User_Email user) = nocase (normalizeEmail email) /\
     User_Status user = UserActive /\ VerifyPassword (Identity_PasswordHash r) password = Ok true) /\
  (mfa_required (User_Role user) (AuthenticationPolicy_ (sv_db s)) = true ->
     exists f, presented_factor secrets (sv_db s) (User_ID user) code now = Some f /\ ~ factor_used (User_ID user) f (sv_db s) /\ factor_used (User_ID user) f (sv_db s')) /\
  token = EncodeToString (dr_token draws) /\
  (exists r, r ∈ ub_sessions (sv_db s') /\ se_hash r = Sum256 (dr_token draws) /\ se_user r = User_ID user /\
     se_expires r = formatTime (Add now (wrap64 (Policy_SessionLifetimeMinutes (AuthenticationPolicy_ (sv_db s)) * Minute))) /\
     (mfa_required (User_Role user) (AuthenticationPolicy_ (sv_db s)) = false -> se_mfa r = None)) /\
  (forall key r, key ∈ loginThrottleKeys email ip -> r ∈ ub_attempts (sv_db s') -> la_key r <> key).
Proof.
  intros Hwf. unfold AuthenticateLocal. set (keys := loginThrottleKeys email ip). destruct (loginBlocked keys now (sv_db s)) as [[]|] eqn:Eb; [done| |done].
  destruct (VerifyLocalPassword _ _ _) as [u|] eqn:Ev; [|done].
  match goal with |- context [let '(_, _) := ?m in _] => destruct m as [verified s1] eqn:Em end. destruct verified as [t|]; [|done].
  set (db2 := ClearLoginFailures keys (sv_db s1)). intros E.
  apply session_of_login in E as (db' & Hc & -> & ->).
  apply create_session_ok in Hc as (Htok & Hrow & Hatt & Hev). simpl.
  assert (Hpol : AuthenticationPolicy_ db2 = AuthenticationPolicy_ (sv_db s)).
  { assert (H2 : forall ks db, ub_policy (ClearLoginFailures ks db) = ub_policy db) by (induction ks as [|k ks IH]; [done|]; intros db; simpl; by rewrite IH).
    unfold AuthenticationPolicy_, db2. rewrite H2. destruct (mfa_required _ _); [|by injection Em as _ <-].
    unfold on_db in Em. destruct (verifySecondFactor _ _ _ _ _ _) as [r1 d] eqn:Er. injection Em as -> <-. simpl. f_equal.
    pose proof (second_factor_rest (User_ID u) code ip now (sv_db s)) as [Hp _]. by rewrite Er in Hp. }
  pose proof (verified_password _ _ _ _ Ev) as (r & Hr & Hid & He & Hst & _ & Hp).
  split_and!; [by apply login_not_blocked|by exists r| |done| |].
  - intros Hm. rewrite Hm in Em. unfold on_db in Em. destruct (verifySecondFactor _ _ _ _ _ _) as [r1 d] eqn:Er. injection Em as -> <-.
    apply factor_accepted in Er as (_ & f & Hf & Hn & Hu); [|done]. exists f. split_and!; [done..|]. eapply factor_used_evolves; [|exact Hu].
    etrans; [|exact Hev]. apply evolves_step, (step_clear keys).
  - change (AuthenticationPolicy_ _) with (AuthenticationPolicy_ db2) in Hrow. rewrite Hpol in Hrow.
    eexists. split; [exact Hrow|]. split_and!; [done..|]. intros Hm. rewrite Hm in Em. injection Em as <- _. done.
  - intros key r' Hk Hr'. rewrite Hatt in Hr'. by apply (cleared keys (sv_db s1)).
Qed.

(** * Who gets in *)

(** The first account of the identifier is the one a well-formed table has. *)
Lemma account_unique db r r' : user_wf db -> r ∈ ub_users db -> r' ∈ ub_users db -> user_id r = user_id r' -> r = r'.
Proof. intros Hwf Hr Hr'. apply (key_inj user_id (ub_users db)); [by apply wf_users|done..]. Qed.

(** Only an active account has the session a token names. *)
Lemma session_user_active token now db u : user_wf db -> (SessionUser_ token now db).1 = Ok u ->
  exists r hash row, r ∈ ub_users db /\ Identity_User r = u /\ User_Status u = UserActive /\
    sessionTokenHash token = Ok hash /\ row ∈ ub_sessions db /\ se_hash row = hash /\ se_user row = User_ID u /\
    str_ltb (formatTime now) (se_expires row) = true.
Proof.
  intros Hwf. unfold SessionUser_. destruct (sessionTokenHash token) as [hash|]; [|done]. unfold SessionUser, session_user_row.
  destruct (query_row _ (ub_sessions db)) as [row|] eqn:Eq; [|done]. destruct (query_row _ (ub_users db)) as [r|] eqn:Er; [|done]. simpl. intros [= <-].
  apply query_row_Some in Eq as [Hrow H]. apply query_row_Some in Er as [Hr Hid]. apply andb_true_iff in H as [Hl Ha]. apply existsb_true in Ha as (r' & Hr' & Ha).
  unfold live_session, session_is, user_is in *. reflect_bools. replace r' with r in * by (eapply account_unique; eauto; congruence).
  exists r, hash, row. by split_and!.
Qed.

(** The account a completed provider login returns is active, or was made by it. *)
Lemma resolve_active provider claims role now event db u db' : ResolveOIDCUser provider claims role now event db = (Ok u, db') ->
  (exists r, r ∈ ub_users db /\ user_id r = User_ID u /\ User_Status (Identity_User r) = UserActive) \/ (forall r, r ∈ ub_users db -> user_id r <> User_ID u).
Proof.
  unfold ResolveOIDCUser, user_tx. destruct (linkedOIDCUser _ _ _) as [v|] eqn:El.
  - unfold linkedOIDCUser in El. destruct (query_row _ (ub_externals db)) as [e|]; [|done]. destruct (query_row _ (ub_users db)) as [r|] eqn:Er; [|done].
    injection El as <-. apply query_row_Some in Er as [Hr _]. destruct (updateLinkedOIDCUser _ _ _ _ _ _ _) as [[w d]|] eqn:Eu; [|done]. intros [= <- <-].
    unfold updateLinkedOIDCUser in Eu. inv_tx Eu. reflect_bools. simpl in *. left. exists r. split; [done|]. split; [|done]. unfold user_id. case_match; reflexivity.
  - match goal with |- context [match ?m with Ok _ => _ | Err _ => _ end] => destruct m as [[w d]|] eqn:Ep end; [|done]. intros [= <- <-].
    rewrite bind_ok in Ep. destruct Ep as ([w' s1] & Ep & E). inv_tx E. right. intros r Hr. unfold provisionOIDCUser in Ep. rewrite bind_ok in Ep.
    destruct Ep as ([role' s2] & Ec & Ep). assert (Eu : ub_users s2 = ub_users db).
    { unfold claim_invitation in Ec. destruct (bool_decide _); [|by injection Ec as _ <-]. destruct (query_row _ _); [|done]. by injection Ec as _ <-. }
    inv_tx Ep. simpl. rewrite <- Eu in Hr.
    match goal with Hx : forall r, _ -> user_id r <> _ /\ _ |- _ => by apply (Hx r Hr) end.
Qed.

Lemma consume_users hash kind db : ub_users (ConsumeAuthenticationCeremony hash kind db).2 = ub_users db.
Proof. unfold ConsumeAuthenticationCeremony, user_tx. by destruct (query_row _ _). Qed.

Lemma consume_oidc_users token now db : ub_users (consumeOIDCCeremony secrets token now db).2 = ub_users db.
Proof.
  unfold consumeOIDCCeremony. destruct (DecodeString _) as [raw|]; [|done]. destruct (negb _); [done|].
  pose proof (consume_users (Sum256 raw) CeremonyOIDC db) as Hu.
  destruct (ConsumeAuthenticationCeremony _ _ _) as [[c|] d]; simpl in Hu; repeat case_match; done.
Qed.

Lemma consume_webauthn_users token kind now db : ub_users (ConsumeWebAuthnCeremony secrets token kind now db).2 = ub_users db.
Proof.
  unfold ConsumeWebAuthnCeremony. destruct (DecodeString _) as [raw|]; [|done]. destruct (_ || _); [done|].
  pose proof (consume_users (Sum256 raw) kind db) as Hu.
  destruct (ConsumeAuthenticationCeremony _ _ _) as [[c|] d]; simpl in Hu; repeat case_match; done.
Qed.

(** A login that succeeds is of an account that was active, or that it made. *)
Definition may_log_in (db : UserDb) (u : User) : Prop :=
  (exists r, r ∈ ub_users db /\ user_id r = User_ID u /\ User_Status (Identity_User r) = UserActive) \/ (forall r, r ∈ ub_users db -> user_id r <> User_ID u).

Lemma password_login_active email password code ip agent now draws s u token s' :
  AuthenticateLocal secrets email password code ip agent now draws s = (Ok (u, token), s') -> may_log_in (sv_db s) u.
Proof.
  unfold AuthenticateLocal. destruct (loginBlocked _ _ _) as [[]|]; [done| |done]. destruct (VerifyLocalPassword _ _ _) as [v|] eqn:Ev; [|done].
  match goal with |- context [let '(_, _) := ?m in _] => destruct m as [[t|] s1] end; [|done]. intros E. apply session_of_login in E as (_ & _ & -> & _).
  apply verified_password in Ev as (r & Hr & <- & _ & Ha & _). left. by exists r.
Qed.

Lemma webauthn_login_active ceremony ip agent request now nonce draws s u token s' :
  FinishWebAuthnLogin secrets ceremony ip agent request now nonce draws s = (Ok (u, token), s') -> may_log_in (sv_db s) u.
Proof.
  unfold FinishWebAuthnLogin, st_bind at 1, on_db at 1. pose proof (consume_webauthn_users ceremony CeremonyWebAuthnLogin now (sv_db s)) as Hu.
  destruct (ConsumeWebAuthnCeremony _ _ _ _ _) as [[c|] d]; simpl in Hu; [|done]. unfold LocalIdentityByID, local_identity. simpl.
  destruct (query_row _ _) as [r|] eqn:Er; [|done]. apply query_row_Some in Er as [Hr _]. rewrite Hu in Hr.
  destruct (negb _) eqn:Ea; [done|]. reflect_bools. unfold st_bind at 1. destruct (read_db _ _) as [[cs|] s2]; [|done].
  destruct (FinishLogin _ _ _ _) as [cred|]; [|done]. unfold st_bind at 1. destruct (on_db _ _) as [[[]|] s3]; [|done].
  intros E. apply session_of_login in E as (_ & _ & -> & _). left. by exists r.
Qed.

Lemma oidc_login_active discover exchange state code ip agent now id draws db u token db' :
  FinishOIDCLogin secrets discover exchange state code ip agent now id draws db = (Ok (u, token), db') -> may_log_in db u.
Proof.
  unfold FinishOIDCLogin. pose proof (consume_oidc_users state now db) as Hu. destruct (consumeOIDCCeremony _ _ _ _) as [[st|] d]; simpl in Hu; [|done].
  destruct (OIDCProvider_ _ _) as [record|]; [|done]. destruct (negb _); [done|]. unfold st_bind at 1, st_lift at 1. destruct (discover _); [|done].
  unfold st_bind at 1, st_lift at 1. destruct (Decrypt _ _); [|done]. destruct (exchange _ _ _ _) as [raw|]; [|done]. destruct (_ || _); [done|].
  destruct (authorizeOIDCClaims _ _) as [role|]; [|done]. destruct (ResolveOIDCUser _ _ _ _ _ _) as [[v|] d2] eqn:Er; [|done].
  unfold st_bind. destruct (CreateSession_ _ _ _ _ _ _ _) as [[t|] d3]; [|done]. intros [= <- _ _]. apply resolve_active in Er. unfold may_log_in. by rewrite <- Hu.
Qed.

(** C14: A change of access takes effect at once: the account has the role and the
    status that were set, none of the tokens handed out before gives its session
    any more, and once it is disabled neither a password, nor an identity
    provider, nor a passkey signs it in. *)
Theorem access_change_takes_effect actor id role status ip now s db :
  user_wf (sv_db s) ->
  UpdateUserAccess_ actor id role status ip now (sv_db s) = (Ok tt, db) ->
  (exists r, r ∈ ub_users db /\ user_id r = id /\ User_Role (Identity_User r) = role /\ User_Status (Identity_User r) = status) /\
  (forall token now' u, (SessionUser_ token now' db).1 = Ok u -> User_ID u <> id) /\
  (status = UserDisabled -> forall u token,
    (forall email password code ip agent now draws,
       (AuthenticateLocal secrets email password code ip agent now draws (s <| sv_db := db |>)).1 = Ok (u, token) -> User_ID u <> id) /\
    (forall discover exchange state code ip agent now fresh draws,
       (FinishOIDCLogin secrets discover exchange state code ip agent now fresh draws db).1 = Ok (u, token) -> User_ID u <> id) /\
    (forall ceremony ip agent request now nonce draws,
       (FinishWebAuthnLogin secrets ceremony ip agent request now nonce draws (s <| sv_db := db |>)).1 = Ok (u, token) -> User_ID u <> id)).
Proof.
  intros Hwf E. pose proof (wf_access id role status now
    (mkAuditEvent now (User_ID actor) "identity.user.access_updated" AuditWarning "user" id ip [("role", DString role); ("status", DString status)]) _ Hwf) as Hw.
  unfold UpdateUserAccess_ in E. destruct (_ || _); [done|]. rewrite E in Hw. simpl in Hw. unfold UpdateUserAccess, user_tx in E.
  destruct (query_row _ _) as [current|] eqn:Eq; [|done].
  match type of E with context [match ?m with Ok _ => _ | Err _ => _ end] => destruct m as [[[] d]|] eqn:Em end; [|done]. injection E as <-. inv_tx Em.
  match goal with Hx : user_wf ?d |- _ => set (db := d) in * end.
  apply query_row_Some in Eq as [Hc Hid]. assert (Hi : user_id current = id) by (unfold user_is in Hid; by reflect_bools).
  assert (Hrow : exists r, r ∈ ub_users db /\ user_id r = id /\ User_Role (Identity_User r) = role /\ User_Status (Identity_User r) = status).
  { eexists. split; [by apply elem_of_update_in|done]. }
  split; [done|]. split.
  - intros token now' u Hu Hk. apply session_user_active in Hu as (r & hash & row & _ & _ & _ & _ & Hs & _ & Hsu & _); [|done].
    simpl in Hs. apply elem_of_select_where in Hs as [_ Hs]. reflect_bools. congruence.
  - intros Hst u token. assert (Hout : may_log_in db u -> User_ID u <> id).
    { destruct Hrow as (r & Hr & Er & _ & Es). intros [(r' & Hr' & Er' & Es')|Hn] Hk; [|apply (Hn r Hr); congruence].
      assert (r' = r) as -> by (eapply account_unique; eauto; congruence). rewrite Es, Hst in Es'. discriminate Es'. }
    assert (Hpair : forall S (x : result (User * string) * S), x.1 = Ok (u, token) -> x = (Ok (u, token), x.2)) by (intros ? [??]; simpl; by intros ->).
    split_and!; intros * Hin%Hpair; apply Hout; [by apply password_login_active in Hin|by apply oidc_login_active in Hin|by apply webauthn_login_active in Hin].
Qed.

(** * Administration *)

(** The requests that only an administrator may make. *)
Definition administrative (c : web_call) : bool :=
  match c with
  | CallUpdateUser _ _ _ | CallInvite _ _ _ _ _ | CallUpdatePolicy _ | CallConfigureOIDC _ _ _ | CallTestOIDC _ _ | CallEnableOIDC _ _ => true
  | _ => false
  end.

(** The cookie names a live session of an active administrator whose second
    factor was checked in the last ten minutes. *)
Definition recent_administrator (r : WebRequest) (now : Time) (db : UserDb) : Prop :=
  exists cookie hash row account verified, req_Cookie r = Some cookie /\ sessionTokenHash cookie = Ok hash /\
    row ∈ ub_sessions db /\ se_hash row = hash /\ str_ltb (formatTime now) (se_expires row) = true /\ se_mfa row = Some verified /\
    Sub now verified <= recentMFALifetime /\ account ∈ ub_users db /\ user_id account = se_user row /\
    User_Role (Identity_User account) = RoleAdministrator /\ User_Status (Identity_User account) = UserActive.

Definition seen_row (r r' : SessionRow) : Prop := r' = r <| se_last_seen := se_last_seen r' |>.

(** The states differ at most in when sessions were last seen. *)
Record only_seen (s s' : ServiceState) : Prop := mkOnlySeen {
  os_sessions : Forall2 seen_row (ub_sessions (sv_db s)) (ub_sessions (sv_db s'));
  os_rest : s' = s <| sv_db ::= fun db => db <| ub_sessions := ub_sessions (sv_db s') |> |> }.

#[export] Instance seen_row_pre : PreOrder seen_row.
Proof. split; [by intros []|]. intros [] [] [] E1 E2. unfold seen_row in *. simpl in *. unfold set in *. simpl in *. congruence. Qed.

#[export] Instance only_seen_pre : PreOrder only_seen.
Proof.
  split.
  - intros s. split; [|by destruct s as [[] ? ?]]. by induction (ub_sessions (sv_db s)); constructor.
  - intros s1 s2 s3 [H1 E1] [H2 E2]. split; [by etrans|]. rewrite E2 at 1. by rewrite E1.
Qed.

Lemma session_user_seen token now s o s' : on_db (SessionUser_ token now) s = (o, s') -> only_seen s s'.
Proof.
  unfold on_db, SessionUser_. destruct (sessionTokenHash token) as [hash|]; [|intros [= _ <-]; destruct s; reflexivity].
  unfold SessionUser. destruct (session_user_row _ _ _) as [[row u]|]; [|intros [= _ <-]; destruct s; reflexivity].
  intros [= _ <-]. destruct (_ <=? _); [|destruct s; reflexivity]. split; [|done]. simpl. apply update_where_Forall2; [done|]. by intros [].
Qed.

Lemma authenticated_seen r now s o s' : authenticatedRequest r now s = (o, s') -> only_seen s s'.
Proof.
  unfold authenticatedRequest. destruct (req_Cookie r) as [cookie|]; [|intros [= _ <-]; reflexivity].
  destruct (on_db _ _) as [[u|e] s1] eqn:E; intros [= _ <-]; by eapply session_user_seen.
Qed.

Lemma recent_seen r now s s' : only_seen s s' -> recent_administrator r now (sv_db s') -> recent_administrator r now (sv_db s).
Proof.
  intros [Hs E] (cookie & hash & row & account & verified & Hc & Hh & Hrow & Hash & He & Hm & Hv & Hacc & Hrest).
  apply list_elem_of_lookup in Hrow as [i Hi]. destruct (Forall2_lookup_r _ _ _ _ _ Hs Hi) as (row0 & Hi0 & Er).
  rewrite E in Hacc. rewrite Er in Hash, He, Hm, Hrest. destruct Hrest as (Hrest & Hro & Hst). exists cookie, hash, row0, account, verified. split_and!; try done. by eapply list_elem_of_lookup_2.
Qed.

(** What is refused by a guard. *)
Definition refused {A} (s : ServiceState) (answered : Response A * ServiceState) : Prop :=
  (Response_Status answered.1 = StatusUnauthorized \/ Response_Status answered.1 = StatusForbidden \/ Response_Status answered.1 = StatusSeeOther) /\
  only_seen s answered.2.

Ltac refused_tac := split; [simpl; first [by left|by right; left|by right; right]|try done].

Lemma admin_guard {A} r now (next : User -> string -> ServiceState -> Response A * ServiceState) s : user_wf (sv_db s) ->
  recent_administrator r now (sv_db s) \/ refused s (requireAdministratorWithRecentMFA r now next s).
Proof.
  intros Hwf. unfold requireAdministratorWithRecentMFA, requireRecentMFA, with_session.
  destruct (authenticatedRequest r now s) as [[[user token]|] s1] eqn:Ea; [|right; refused_tac; by eapply authenticated_seen].
  pose proof (authenticated_seen _ _ _ _ _ Ea) as Hseen. destruct (HasRecentMFA _ _ _ _) as [[]|] eqn:Em; [|right; refused_tac..].
  destruct (negb _) eqn:Er; [right; refused_tac|]. left. reflect_bools. unfold authenticatedRequest in Ea. destruct (req_Cookie r) as [cookie|] eqn:Ec; [|done].
  unfold on_db in Ea. destruct (SessionUser_ cookie now (sv_db s)) as [[u|] d] eqn:Eu; [|done]. injection Ea as -> -> <-.
  destruct (session_user_active token now (sv_db s) user Hwf) as (account & hash & row & Hacc & Hid & Hact & Hhash & _ & _ & _ & _); [by rewrite Eu|].
  unfold HasRecentMFA in Em. rewrite Hhash in Em. inv_ok Em. unfold SessionMFAVerifiedAt in *. destruct (query_row _ _) as [row1|] eqn:Eq; [|done].
  apply query_row_Some in Eq as [Hrow1 Hl]. unfold live_session, session_is in Hl. reflect_bools. destruct Hseen as [Hs _].
  apply list_elem_of_lookup in Hrow1 as [i Hi]. destruct (Forall2_lookup_r _ _ _ _ _ Hs Hi) as (row0 & Hi0 & E0).
  simplify_eq. destruct (se_mfa row1) as [t|] eqn:Et; [|done]. reflect_bools. rewrite E0 in *. simpl in *.
  exists token, (se_hash row0), row0, account, t. split_and!; try done; try congruence; by eapply list_elem_of_lookup_2.
Qed.

Lemma admin_handle r now c s : user_wf (sv_db s) -> administrative c = true ->
  recent_administrator r now (sv_db s) \/ refused s (handle secrets r now c s).
Proof.
  assert (Hso : forall A (h : ServiceState -> Response A * ServiceState), refused s (h s) -> refused s (status_only h s)).
  { intros A h. unfold status_only. by destruct (h s). }
  intros Hwf Hc. destruct c; try discriminate Hc; cbn [handle].
  - by apply admin_guard.
  - destruct (admin_guard r now (fun actor _ => answer (on_db (InviteUser actor email role kind (requestIP r) now token id)) (fun _ => StatusBadRequest) StatusCreated) s Hwf); [by left|].
    right. by apply Hso.
  - by apply admin_guard.
  - destruct (admin_guard r now (fun actor _ => answer (on_db (ConfigureOIDCProvider secrets actor request (requestIP r) now fresh nonce)) (fun _ => StatusBadRequest) StatusCreated) s Hwf); [by left|].
    right. by apply Hso.
  - by apply admin_guard.
  - by apply admin_guard.
Qed.


(** * Identity providers *)

(** What a provider's settings ask of the claims. *)
Definition claims_allowed (provider : OIDCProvider) (claims : OIDCClaims) : Prop :=
  (Provider_AllowedTenantID provider = ""%string \/ Claims_TenantID claims = Provider_AllowedTenantID provider) /\
  (Provider_AllowedEmailDomains provider = [] \/ exists local domain d, split_byte "@" (ToLowerText (Claims_Email claims)) = [local; domain] /\
     d ∈ Provider_AllowedEmailDomains provider /\ domain = ToLowerText d) /\
  (Provider_AllowedGroups provider = [] \/ exists g, g ∈ Claims_Groups claims /\ g ∈ Provider_AllowedGroups provider).

(** The best of the default role and the roles that the groups are mapped to. *)
Definition best_role (provider : OIDCProvider) (groups : list string) (role : UserRole) : Prop :=
  (role = Provider_DefaultRole provider \/ exists g, g ∈ groups /\ Provider_RoleMappings provider !! g = Some role) /\
  roleRank (Provider_DefaultRole provider) <= roleRank role /\
  forall g mapped, g ∈ groups -> Provider_RoleMappings provider !! g = Some mapped -> roleRank mapped <= roleRank role.

Lemma mapped_roles mappings groups role : let best := fold_left (mapped_role mappings) groups role in
  (best = role \/ exists g, g ∈ groups /\ mappings !! g = Some best) /\ roleRank role <= roleRank best /\
  forall g mapped, g ∈ groups -> mappings !! g = Some mapped -> roleRank mapped <= roleRank best.
Proof.
  revert role. induction groups as [|g groups IH]; intros role; simpl; [split_and!; [by left|lia|by intros ? ? ?%not_elem_of_nil]|].
  destruct (IH (mapped_role mappings role g)) as (H1 & H2 & H3). set (best := fold_left _ _ _) in *.
  assert (Hg : roleRank role <= roleRank (mapped_role mappings role g) /\ (forall m, mappings !! g = Some m -> roleRank m <= roleRank (mapped_role mappings role g)) /\
    (mapped_role mappings role g = role \/ mappings !! g = Some (mapped_role mappings role g))).
  { unfold mapped_role. destruct (mappings !! g) as [m|] eqn:Em; [|naive_solver lia].
    destruct (Z.ltb_spec (roleRank role) (roleRank m)); split_and!; try lia; try (intros ? [= <-]; lia); auto. }
  destruct Hg as (Hg1 & Hg2 & Hg3). split_and!; [|lia|].
  - destruct H1 as [->|(g' & Hg' & E)]; [|right; exists g'; split; [by right|done]].
    destruct Hg3 as [->|Hg3]; [by left|right; exists g; split; [by left|done]].
  - intros g' m [->|Hg']%elem_of_cons E; [specialize (Hg2 _ E); lia|by eapply H3].
Qed.

Lemma length_pos {A} (l : list A) : (0 <? Z.of_nat (length l)) = negb (match l with [] => true | _ => false end).
Proof. by destruct l. Qed.

Lemma authorize_ok provider claims role : authorizeOIDCClaims provider claims = Ok role -> claims_allowed provider claims /\ best_role provider (Claims_Groups claims) role.
Proof.
  unfold authorizeOIDCClaims. intros E. inv_ok E. rewrite !length_pos in *. unfold claims_allowed, best_role. split_and!.
  - match goal with Hx : negb (bool_decide (Provider_AllowedTenantID _ = _)) && _ = false |- _ => apply andb_false_iff in Hx as [Hx|Hx]; reflect_bools; auto end.
  - destruct (Provider_AllowedEmailDomains provider); [by left|]. right. simpl in *.
    match goal with Hx : negb (emailDomainAllowed _ _) = false |- _ => unfold emailDomainAllowed in Hx; apply negb_false_iff in Hx end.
    destruct (split_byte _ _) as [|a [|b [|]]]; try done. match goal with Hx : existsb _ _ = true |- _ => apply existsb_true in Hx as (d & Hd & Hx) end.
    reflect_bools. by exists a, b, d.
  - destruct (Provider_AllowedGroups provider); [by left|]. right. simpl in *.
    match goal with Hx : negb (hasAnyGroup _ _) = false |- _ => unfold hasAnyGroup in Hx; apply negb_false_iff, existsb_true in Hx as (g & Hg & Hx);
      unfold one_of in Hx; apply existsb_true in Hx as (a & Ha & Hx) end.
    reflect_bools. subst a. by exists g.
  - by apply mapped_roles.
  - by apply mapped_roles.
  - intros g m. by apply mapped_roles.
Qed.

(** The role of a linked account, or of the one that is made. *)
Definition granted_role (provider : OIDCProvider) (claims : OIDCClaims) (role : UserRole) (now : Time) (db : UserDb) (u : User) : Prop :=
  (Provider_Mode provider = ProvisionJIT -> User_Role u = role) /\
  (Provider_Mode provider = ProvisionInviteOnly ->
     (exists r, r ∈ ub_users db /\ user_id r = User_ID u /\ User_Role (Identity_User r) = User_Role u) \/
     exists i, i ∈ ub_invitations db /\ sso_invitation (normalizeEmail (Claims_Email claims)) (formatTime now) i = true /\ Invitation_Role (in_invitation i) = User_Role u).

Lemma resolve_role provider claims role now event db u db' : ResolveOIDCUser provider claims role now event db = (Ok u, db') ->
  granted_role provider claims role now db u.
Proof.
  unfold ResolveOIDCUser, user_tx, granted_role. destruct (linkedOIDCUser _ _ _) as [v|] eqn:El.
  - unfold linkedOIDCUser in El. destruct (query_row _ (ub_externals db)) as [e|]; [|done]. destruct (query_row _ (ub_users db)) as [r|] eqn:Er; [|done].
    injection El as <-. apply query_row_Some in Er as [Hr _]. destruct (updateLinkedOIDCUser _ _ _ _ _ _ _) as [[w d]|] eqn:Eu; [|done]. intros [= <- <-].
    unfold updateLinkedOIDCUser in Eu. inv_tx Eu. split; intros Hm; rewrite Hm in *.
    + rewrite bool_decide_eq_true_2 by done. cbn [andb]. destruct (bool_decide (User_Role _ = role)) eqn:Erole; [by apply bool_decide_eq_true in Erole|done].
    + left. exists r. by rewrite bool_decide_eq_false_2 by done.
  - match goal with |- context [match ?m with Ok _ => _ | Err _ => _ end] => destruct m as [[w d]|] eqn:Ep end; [|done]. intros [= <- <-].
    rewrite bind_ok in Ep. destruct Ep as ([w' s1] & Ep & E). inv_tx E. unfold provisionOIDCUser in Ep. rewrite bind_ok in Ep.
    destruct Ep as ([role' s2] & Ec & Ep). inv_tx Ep. simpl. unfold claim_invitation in Ec. split; intros Hm; rewrite Hm in Ec.
    + rewrite bool_decide_eq_false_2 in Ec by done. by injection Ec as <- _.
    + rewrite bool_decide_eq_true_2 in Ec by done. destruct (query_row _ _) as [i|] eqn:Ei; [|done]. injection Ec as <- _.
      apply query_row_Some in Ei as [Hi Hs]. right. by exists i.
Qed.

Lemma consume_oidc_rest token now db : let db' := (consumeOIDCCeremony secrets token now db).2 in
  ub_providers db' = ub_providers db /\ ub_invitations db' = ub_invitations db.
Proof.
  unfold consumeOIDCCeremony. destruct (DecodeString _) as [raw|]; [|done]. destruct (negb _); [done|].
  assert (H : forall hash kind d, let d' := (ConsumeAuthenticationCeremony hash kind d).2 in ub_providers d' = ub_providers d /\ ub_invitations d' = ub_invitations d).
  { intros hash kind d. unfold ConsumeAuthenticationCeremony, user_tx. by destruct (query_row _ _). }
  specialize (H (Sum256 raw) CeremonyOIDC db). destruct (ConsumeAuthenticationCeremony _ _ _) as [[c|] d]; simpl in H; repeat case_match; done.
Qed.

(** C16: A login through an identity provider that succeeds is one of an enabled
    provider whose exchange of the code gave claims with a subject and an
    address; the tenant, the address's domain and the groups are ones the
    provider's settings allow. With just-in-time provisioning the account's role
    is the best of the default and those that the groups are mapped to, also
    when the account had another; otherwise the account existed with its role or
    takes the role of an open invitation for the address. *)
Theorem provider_login_authorized discover exchange state code ip agent now id draws db user token db' :
  FinishOIDCLogin secrets discover exchange state code ip agent now id draws db = (Ok (user, token), db') ->
  exists record secret verifier raw role, record ∈ ub_providers db /\ Provider_Enabled (Record_Provider record) = true /\
    Decrypt secrets (Record_ClientSecretCiphertext record) = Ok secret /\ exchange (Record_Provider record) secret code verifier = Some raw /\
    raw_Subject raw <> ""%string /\ raw_Email raw <> ""%string /\
    claims_allowed (Record_Provider record) (claims_of raw (randomHex id)) /\ best_role (Record_Provider record) (raw_Groups raw) role /\
    granted_role (Record_Provider record) (claims_of raw (randomHex id)) role now db user.
Proof.
  unfold FinishOIDCLogin. pose proof (consume_oidc_users state now db) as Hu. pose proof (consume_oidc_rest state now db) as [Hp Hi].
  destruct (consumeOIDCCeremony _ _ _ _) as [[st|] d]; simpl in Hu, Hp, Hi; [|done].
  unfold OIDCProvider_. destruct (query_row _ _) as [record|] eqn:Eq; [|done]. apply query_row_Some in Eq as [Hrec _]. rewrite Hp in Hrec.
  destruct (negb _) eqn:Een; [done|]. unfold st_bind at 1, st_lift at 1. destruct (discover _); [|done].
  unfold st_bind at 1, st_lift at 1. destruct (Decrypt _ _) as [secret|] eqn:Ed; [|done]. destruct (exchange _ _ _ _) as [raw|] eqn:Ex; [|done].
  destruct (_ || _) eqn:Eor; [done|]. destruct (authorizeOIDCClaims _ _) as [role|] eqn:Ea; [|done].
  destruct (ResolveOIDCUser _ _ _ _ _ _) as [[v|] d2] eqn:Er; [|done].
  unfold st_bind. destruct (CreateSession_ _ _ _ _ _ _ _) as [[t|] d3]; [|done]. intros [= <- _ _]. apply resolve_role in Er. apply authorize_ok in Ea as [Hall Hbest].
  reflect_bools. exists record, secret, (os_verifier st), raw, role. split_and!; try done. unfold granted_role in *. by rewrite <- Hu, <- Hi.
Qed.
End Login.

(** * The failures of a key *)

Definition attempt_row (key : string) (db : UserDb) : option AttemptRow := query_row (attempt_is key) (ub_attempts db).

Lemma attempt_upsert key row l : query_row (attempt_is key) (upsert_attempt row l) = if bool_decide (la_key row = key) then Some row else query_row (attempt_is key) l.
Proof.
  unfold upsert_attempt. case_bool_decide as Hk.
  - subst key. destruct (query_row _ l) as [x|] eqn:Eq.
    + apply query_row_replace with x; [done|]. unfold attempt_is. by apply bool_decide_eq_true.
    + rewrite query_row_snoc, Eq. unfold query_row, attempt_is. simpl. by rewrite bool_decide_eq_true_2.
  - destruct (query_row (attempt_is (la_key row)) l) as [x|].
    + unfold query_row, update_where. clear x. induction l as [|r l IH]; [done|]. rewrite fmap_cons. simpl. rewrite IH.
      destruct (attempt_is (la_key row) r) eqn:E; [|done]. unfold attempt_is in *. apply bool_decide_eq_true in E. by rewrite E, !bool_decide_eq_false_2.
    + rewrite query_row_snoc. destruct (query_row _ l); [done|]. unfold query_row, attempt_is. simpl. by rewrite bool_decide_eq_false_2.
Qed.

(** The row after one more failure. *)
Definition next_attempt (key : string) (now : Time) (r : option AttemptRow) : AttemptRow :=
  let '(failures, windowStart) := counted_failures r now loginFailureWindow in
  mkAttemptRow key failures windowStart (block_until failures now loginFailureThreshold loginBaseBlock loginMaximumBlock).

Lemma record_failure_row key key' now db :
  attempt_row key (RecordLoginFailure key' now loginFailureWindow loginFailureThreshold loginBaseBlock loginMaximumBlock db).2 =
  if bool_decide (key' = key) then Some (next_attempt key' now (attempt_row key' db)) else attempt_row key db.
Proof.
  unfold RecordLoginFailure, next_attempt, attempt_row. destruct (counted_failures _ _ _) as [n start]. simpl. by rewrite attempt_upsert.
Qed.

Section Throttle.
Context {LC : LowerCase} {CF : CaseFolding} {PC : PasswordCrypto} {SC : SecretCrypto} {IL : IdentityLibraries} {WL : WebAuthnLibrary} (secrets : SecretBox).

Definition account_key (email : string) : string := Sum256 ("account:" +:+ ToLowerText (TrimSpace email)).
Definition source_key (ip : string) : string := Sum256 ("source:" +:+ ip).

Lemma recorded_row email ip now db : account_key email <> source_key ip ->
  attempt_row (account_key email) (recordLoginFailure (loginThrottleKeys email ip) ip now db) =
  Some (next_attempt (account_key email) now (attempt_row (account_key email) db)).
Proof.
  intros Hne. unfold recordLoginFailure, AppendAuditEvent. set (db' := fold_left _ _ _).
  assert (Hsame : forall event d, attempt_row (account_key email) (user_tx (fun s => s ← insertAuditEvent event s ; Ok (tt, s)) d).2 = attempt_row (account_key email) d).
  { intros event d. unfold user_tx. destruct (insertAuditEvent _ _) as [s1|] eqn:Ei; simpl; [|done]. by apply insertAuditEvent_ok in Ei as (row & ->). }
  rewrite Hsame. subst db'. cbn [loginThrottleKeys fold_left]. fold (account_key email) (source_key ip).
  rewrite record_failure_row, bool_decide_eq_false_2 by done. by rewrite record_failure_row, bool_decide_eq_true_2.
Qed.

(** * One guess *)

Lemma throttle_reads keys now db : exists blocked, loginBlocked keys now db = Ok blocked.
Proof.
  induction keys as [|key keys [b IH]]; [by exists false|]. simpl. unfold LoginThrottle, throttle_of. destruct (query_row _ _) as [r|]; simpl; [|by exists b].
  destruct (la_blocked_until r); simpl; [|by exists b]. case_match; eauto.
Qed.

Lemma audit_err event db e : insertAuditEvent event db = Err e -> e = ErrUserConstraint.
Proof. unfold insertAuditEvent. destruct (_ && _); [by intros [= <-]|]. by destruct (negb _); intros [= <-]. Qed.

Lemma create_session_err user ip agent verified now draws db e db' : CreateSession_ user ip agent verified now draws db = (Err e, db') -> e = ErrUserConstraint.
Proof.
  unfold CreateSession_, st_bind, CreateSession, user_tx.
  match goal with |- context [match ?m with Ok _ => _ | Err _ => _ end] => destruct m as [[[] d]|x] eqn:Em end; [done|]. intros [= <- _].
  destruct (_ || negb (user_exists _ db)); [by injection Em as <-|]. destruct (insertAuditEvent _ _) as [d|y] eqn:Ei; [discriminate Em|].
  injection Em as <-. by eapply audit_err.
Qed.

(** A guess that is refused was blocked, or is counted. *)
Lemma guess_refused email password code ip agent now draws s e s' :
  AuthenticateLocal secrets email password code ip agent now draws s = (Err e, s') ->
  (e = ErrLoginRateLimited /\ s' = s) \/ e = ErrUserConstraint \/
  (loginBlocked (loginThrottleKeys email ip) now (sv_db s) = Ok false /\
   exists db, ub_attempts db = ub_attempts (sv_db s) /\ sv_db s' = recordLoginFailure (loginThrottleKeys email ip) ip now db).
Proof.
  unfold AuthenticateLocal. set (keys := loginThrottleKeys email ip). destruct (throttle_reads keys now (sv_db s)) as [b Eb]. rewrite Eb.
  destruct b; [intros [= <- <-]; by left|]. destruct (VerifyLocalPassword _ _ _) as [u|].
  - match goal with |- context [let '(_, _) := ?m in _] => destruct m as [[t|v] s1] eqn:Em end.
    + unfold st_bind, on_db at 1. destruct (CreateSession_ _ _ _ _ _ _ _) as [[tok|x] d] eqn:Ec; [done|]. intros [= -> _].
      right. left. by eapply create_session_err.
    + unfold login_failed. intros [= <- <-]. right. right. split_and!; [done..|]. exists (sv_db s1). split; [|done].
      destruct (mfa_required _ _); [|done]. unfold on_db in Em. pose proof (second_factor_rest secrets (User_ID u) code ip now (sv_db s)) as [_ Ha].
      destruct (verifySecondFactor _ _ _ _ _ _) as [r d]. by injection Em as _ <-.
  - unfold login_failed. intros [= <- <-]. right. right. split_and!; [done..|]. by exists (sv_db s).
Qed.

(** * A series of guesses *)

Record guess := mkGuess { g_email : string; g_password : string; g_code : string; g_ip : string; g_agent : string; g_at : Time; g_draws : SessionDraws }.

Definition try_guess (g : guess) : st ServiceState (User * string) :=
  AuthenticateLocal secrets (g_email g) (g_password g) (g_code g) (g_ip g) (g_agent g) (g_at g) (g_draws g).

Fixpoint guesses (gs : list guess) (s : ServiceState) : list (result (User * string)) * ServiceState :=
  match gs with
  | [] => ([], s)
  | g :: rest => let '(r, s) := try_guess g s in let '(rs, s) := guesses rest s in (r :: rs, s)
  end.

(** The answers to guesses that got as far as the password. *)
Definition checked (answers : list (result (User * string))) : Z :=
  Z.of_nat (length (List.filter (fun r => match r with Err e => negb (bool_decide (e = ErrLoginRateLimited)) | Ok _ => true end) answers)).

(** ** The row of the account *)

(** What [c] failures since [first] leave at [t]: at most ten in a window, whose
    windows follow each other, and a block that grows with them. *)
Definition throttled (first t c : Z) (row : option AttemptRow) : Prop :=
  match row with
  | None => c = 0
  | Some r =>
      1 <= la_failures r <= 10 /\ first <= la_started r <= t /\ c <= 10 * ((la_started r - first) / loginFailureWindow) + la_failures r /\
      (loginFailureThreshold <= la_failures r -> exists until, la_blocked_until r = Some until /\
         (la_failures r - 4) * (la_failures r - 3) * Minute <= 2 * (until - la_started r))
  end.

Definition not_blocked (now : Time) (row : option AttemptRow) : Prop :=
  match row with Some r => match la_blocked_until r with Some until => until <= now | None => True end | None => True end.

Lemma block_grows n now : loginFailureThreshold <= n <= 10 ->
  block_until n now loginFailureThreshold loginBaseBlock loginMaximumBlock = Some (now + (n - 4) * Minute).
Proof.
  unfold block_until, loginFailureThreshold, loginBaseBlock, loginMaximumBlock, Add. intros H. rewrite (proj2 (Z.leb_le 5 n)) by lia.
  assert (Hm : Minute = 60000000000) by reflexivity. rewrite (wrap64_id (n - 5)) by (apply int64_range_small; lia).
  replace (n - 5 + 1) with (n - 4) by lia. rewrite (wrap64_id (n - 4)), wrap64_id by (apply int64_range_small; lia). destruct (Z.ltb_spec (15 * Minute) ((n - 4) * Minute)); [lia|done].
Qed.

Lemma window_passes first start now : first <= start -> loginFailureWindow < now - start ->
  (start - first) / loginFailureWindow + 1 <= (now - first) / loginFailureWindow.
Proof.
  intros H1 H2. assert (Hw : loginFailureWindow = 900000000000) by reflexivity.
  rewrite <- Z.div_add by lia. apply Z.div_le_mono; lia.
Qed.

Lemma throttled_next first t c row key now : throttled first t c row -> not_blocked now row -> t <= now -> first <= now -> now - first <= 2 ^ 62 ->
  throttled first now (c + 1) (Some (next_attempt key now row)).
Proof.
  intros Hrow Hnb Ht Hfirst Hspan. assert (Hm : Minute = 60000000000) by reflexivity. assert (Hw : loginFailureWindow = 15 * Minute) by reflexivity.
  assert (Hdiv : 0 <= (now - first) / loginFailureWindow) by (apply Z.div_pos; lia).
  assert (Hnew : forall c', c' <= 10 * ((now - first) / loginFailureWindow) + 1 -> throttled first now c'
    (Some (mkAttemptRow key 1 now (block_until 1 now loginFailureThreshold loginBaseBlock loginMaximumBlock)))).
  { intros c' Hc'. simpl. split_and!; try lia. unfold loginFailureThreshold. lia. }
  unfold next_attempt, counted_failures. destruct row as [r|]; [|apply Hnew; simpl in Hrow; lia].
  destruct Hrow as (Hn & Hs & Hc & Hb). rewrite Sub_small by (apply int64_range_small; lia).
  destruct (Z.leb_spec (now - la_started r) loginFailureWindow) as [Hin|Hout].
  - assert (Hn9 : la_failures r <= 9 /\ (la_failures r - 4) * (la_failures r - 3) * Minute <= 2 * (now - la_started r) \/ la_failures r <= 4).
    { destruct (Z.le_gt_cases loginFailureThreshold (la_failures r)) as [H5|H5]; [left|right; unfold loginFailureThreshold in H5; lia].
      destruct (Hb H5) as (until & Eu & Hu). simpl in Hnb. rewrite Eu in Hnb. split; [nia|lia]. }
    rewrite wrap64_id by (apply int64_range_small; lia). simpl. split_and!; [lia..|]. intros H5. eexists. split; [apply block_grows; lia|].
    unfold loginFailureThreshold in H5. destruct Hn9 as [[Hn9 Hu]|Hn4]; [nia|]. assert (la_failures r = 4) as -> by lia. lia.
  - apply Hnew. pose proof (window_passes first (la_started r) now). lia.
Qed.

Lemma throttled_less first t c c' t' row : throttled first t c row -> 0 <= c' <= c -> t <= t' -> throttled first t' c' row.
Proof. unfold throttled. destruct row as [r|]; [|lia]. intros (H1 & H2 & H3 & H4) ? ?. split_and!; try done; lia. Qed.

Lemma not_blocked_reads email ip now db : loginBlocked (loginThrottleKeys email ip) now db = Ok false -> not_blocked now (attempt_row (account_key email) db).
Proof.
  unfold loginThrottleKeys. fold (account_key email) (source_key ip). intros H. apply login_not_blocked in H. apply Forall_cons in H as [[until H] _].
  unfold LoginThrottle, throttle_of in H. unfold not_blocked, attempt_row. destruct (query_row _ _) as [r|]; [|done].
  destruct (la_blocked_until r) as [u|]; [|done]. injection H as <- H. unfold Before in H. by apply Z.ltb_ge in H.
Qed.

(** A guess against the account of [key] from a source that is counted apart. *)
Definition against (key : string) (g : guess) : Prop := account_key (g_email g) = key /\ source_key (g_ip g) <> key.

Lemma checked_cons r rs : checked (r :: rs) = checked [r] + checked rs.
Proof. unfold checked. simpl. destruct r; [simpl; lia|]. case_match; simpl; lia. Qed.

Lemma guesses_throttled key first last gs : last - first <= 2 ^ 62 -> forall t c s,
  Forall (against key) gs -> Sorted Z.le (t :: (g_at <$> gs)) -> Forall (fun g => first <= g_at g <= last) gs ->
  Forall (fun r => exists e, r = Err e /\ e <> ErrUserConstraint) (guesses gs s).1 -> t <= last -> 0 <= c -> throttled first t c (attempt_row key (sv_db s)) ->
  throttled first last (c + checked (guesses gs s).1) (attempt_row key (sv_db (guesses gs s).2)).
Proof.
  intros Hspan. induction gs as [|g gs IH]; intros t c s Hag Hsort Hat Href Ht Hc Hthr; simpl.
  { unfold checked. simpl. eapply throttled_less; [done|lia..]. }
  apply Forall_cons in Hag as [[Hkey Hsrc] Hag]. apply Forall_cons in Hat as [Hg Hat]. rewrite fmap_cons in Hsort.
  apply Sorted_inv in Hsort as [Hsort Hle]. apply HdRel_inv in Hle. simpl in Href. destruct (try_guess g s) as [r s1] eqn:Eg.
  specialize (IH (g_at g)). destruct (guesses gs s1) as [rs s2] eqn:Egs. simpl in *. apply Forall_cons in Href as [(e & -> & He) Href].
  assert (Hnext : exists c', throttled first (g_at g) c' (attempt_row key (sv_db s1)) /\ c + checked [Err e] <= c').
  { apply guess_refused in Eg as [[-> ->]|[->|(Hb & db & Ha & Hs1)]]; [|done|].
    - exists c. split; [by eapply throttled_less|]. unfold checked. simpl. lia.
    - exists (c + 1). split; [|unfold checked; simpl; case_match; simpl; lia]. rewrite Hs1, <- Hkey, recorded_row by congruence.
      apply throttled_next with t; [|apply not_blocked_reads in Hb|lia..]; unfold attempt_row in *; rewrite Ha; by rewrite ?Hkey in *. }
  destruct Hnext as (c' & Hthr' & Hcc). assert (Hck : forall l, 0 <= checked l) by (intros l; unfold checked; lia).
  rewrite checked_cons. pose proof (Hck [Err e]). pose proof (Hck rs). specialize (IH (c + checked [Err e]) s1). rewrite Egs in IH. simpl in IH.
  rewrite Z.add_assoc. apply IH; [done..|lia|lia|]. eapply throttled_less; [done|lia..].
Qed.

End Throttle.
