(* ===== verification/UserExamples.v ===== *)
(** Accounts on a concrete installation: it is set up, an analyst is invited and
    joins, both sign in, a provider is configured; the theorems on accounts at
    inputs where their hypotheses hold, and behaviours worth knowing. *)
From Stdlib Require Import ZArith Lia String Ascii Sorting.Sorted.
From stdpp Require Import base tactics list strings gmap sets relations.
From coqutil Require Import Datatypes.RecordSettersUsingExistingGetters.
From S2P Require Import Prelude GoStrings GoTime Netip NetAddr WorkerModel Sql WorkerService NetworkPolicy EndpointModel EndpointService EndpointAdmin UserStore AssetStore IdentitySecrets UserService UserSafety UserGuarantees UserLogin.
Open Scope string_scope.
Open Scope Z_scope.
Open Scope list_scope.

(** * The parameters *)

Fixpoint pos_text (p : positive) : string :=
  match p with xH => "" | xO q => String "0" (pos_text q) | xI q => String "1" (pos_text q) end.
Fixpoint text_pos (s : string) : positive :=
  match s with EmptyString => xH | String c rest => if Ascii.eqb c "0" then xO (text_pos rest) else xI (text_pos rest) end.
Lemma text_pos_text p : text_pos (pos_text p) = p.
Proof. induction p; simpl; congruence. Qed.

Definition zeros : string := "00000000000000000000000000000000".
Definition fixed (n : nat) (s : string) : string := substring 0 n (s +:+ zeros).

#[local] Instance user_lower : LowerCase := {| ToLowerText := ToLower |}.
#[local] Instance user_folding : CaseFolding := ascii_folding.
#[local] Instance toy_argon : PasswordCrypto := {|
  argon2_Version := 19;
  IDKey password salt _ _ _ keyLen := fixed (Z.to_nat keyLen) (password +:+ salt) |}.

Definition ring_parts (r : keyringFile) : Z * string * string * list (string * string) :=
  (ring_Version r, ring_ActiveID r, ring_LegacyID r, map_to_list (ring_Keys r)).
Definition ring_prefix : string := "keyring file:" +:+ zeros.
(** The nonce and the associated data are checked by comparing them. *)
#[local] Instance toy_gcm : SecretCrypto := {|
  Seal key nonce plaintext data := (key +:+ nonce +:+ data) +:+ plaintext;
  Open key nonce ciphertext data :=
    let tag := key +:+ nonce +:+ data in if has_prefix tag ciphertext then Some (drop_str (String.length tag) ciphertext) else None;
  key_digest key := fixed 32 key;
  keyring_json r := ring_prefix +:+ pos_text (encode (ring_parts r));
  keyring_of_json s :=
    if has_prefix ring_prefix s
    then '(v, a, l, keys) ← decode (text_pos (drop_str (String.length ring_prefix) s)) ; Some (mkKeyring v a l (list_to_map keys))
    else None |}.

Lemma fixed_length s : String.length (fixed 32 s) = 32%nat.
Proof.
  unfold fixed. apply Nat2Z.inj. change (strlen (substring 0 32 (s +:+ zeros)) = 32). change (substring 0 32 (s +:+ zeros)) with (take_bytes 32 (s +:+ zeros)).
  apply take_bytes_length. rewrite strlen_app. change (strlen zeros) with 32. unfold strlen. lia.
Qed.
#[local] Instance toy_gcm_laws : SecretCryptoLaws.
Proof.
  split.
  - intros key nonce plaintext data. unfold Open, Seal, toy_gcm. by rewrite has_prefix_app, drop_str_app.
  - intros [v a l keys]. unfold keyring_of_json, keyring_json, toy_gcm. rewrite has_prefix_app, drop_str_app, text_pos_text, countable.decode_encode.
    unfold ring_parts. simpl. by rewrite list_to_map_to_list.
  - intros ring. unfold keyring_json, toy_gcm. rewrite strlen_app. change (strlen ring_prefix) with 45. unfold strlen. lia.
  - intros key. unfold strlen, key_digest, toy_gcm. by rewrite fixed_length.
Qed.

#[local] Instance toy_identity : IdentityLibraries := {|
  Sum256 s := s;
  ParseAddress s := Some s;
  ParseURL s := Some ("https", "login.example.org");
  GenerateCode secret t := Some (append_int (totp_counter t) 0);
  ValidateCode code secret t := bool_decide (code = append_int (totp_counter t) 0);
  encode_state st := pos_text (encode (os_provider st, os_nonce st, os_verifier st, os_expires st));
  decode_state s := '(p, n, v, e) ← decode (text_pos s) ; Some (mkOIDCState p n v e) |}.

(** A passkey is its identifier, and answers with it. *)
#[local] Instance toy_webauthn : WebAuthnLibrary := {|
  waCredential := string; waSession := string; waRequest := string;
  cred_ID c := c; cred_SignCount _ := 1; cred_BackupEligible _ := false; cred_BackupState _ := false;
  session_Expires _ := ZeroTime;
  encode_credential c := c; decode_credential s := Some s;
  encode_session s := s; decode_session s := Some s;
  BeginRegistration user _ := Ok (User_ID user); FinishRegistration _ _ _ r := Ok r;
  BeginLogin user _ := Ok (User_ID user);
  FinishLogin _ credentials _ r := if bool_decide (r ∈ credentials) then Ok r else Err "unknown credential" |}.

(** * The installation *)

Definition key1 : string := "identity key number one.........".
Definition box1 : SecretBox := mkSecretBox (identityKeyID key1) (identityKeyID key1) {[ identityKeyID key1 := key1 ]}.
Definition nonce12 : string := "nonce12bytes".
Definition day0 : Time := 1700000000 * Second.
Definition at_minute (n : Z) : Time := day0 + n * Minute.
Definition code_at (t : Time) : string := append_int (totp_counter t) 0.

(** 32 bytes that start with the text. *)
Definition draw (s : string) : string := fixed 32 s.
Definition draws_of (s : string) : SessionDraws := mkSessionDraws (draw s) s.
Definition account_draws (s : string) : AccountDraws := mkDraws (fixed 16 "salt") s nonce12 ["code1 of "%string +:+ s; "code2 of "%string +:+ s].

Definition local_request (path : string) : WebRequest := mkWebRequest "POST" path None "" "localhost:8080" "127.0.0.1:40000" "browser".
Definition with_cookie (path token : string) : WebRequest := mkWebRequest "POST" path (Some (EncodeToString (draw token))) "1" "mossward.example" "10.0.0.7:50000" "browser".

Definition root_password : string := "correct horse battery".
Definition ana_password : string := "staple of the analyst".

Definition setup_events : list server_event :=
  [Served (local_request "/api/auth/bootstrap/begin") (at_minute 0)
     (CallBeginBootstrap (mkBootstrapRequest "Root@Example.org" "Root" root_password "") root_password (fixed 16 "salt") "root secret" "boot");
   Served (local_request "/api/auth/bootstrap/complete") (at_minute 1)
     (CallCompleteBootstrap (EncodeToString "boot") (code_at (at_minute 1)) (account_draws "root") (draws_of "root session"))].
Definition invite_events : list server_event :=
  [Served (with_cookie "/api/invitations" "root session") (at_minute 2) (CallInvite "ana@example.org" RoleAnalyst IdentityLocal (draw "invitation") "inv1");
   Served (local_request "/api/invitations/accept/begin") (at_minute 3)
     (CallBeginInvitation (EncodeToString (draw "invitation")) "Ana" ana_password (fixed 16 "salt") "ana secret" "pend1")].
Definition join_event : server_event :=
  Served (local_request "/api/invitations/accept/complete") (at_minute 4)
    (CallCompleteInvitation (EncodeToString "pend1") (code_at (at_minute 4)) (account_draws "ana") (draws_of "ana session")).

Definition empty_server : ServiceState := mkService emptyUserDb ∅ ∅.
Definition installed : ServiceState := run_server box1 empty_server setup_events.
Definition invited : ServiceState := run_server box1 installed invite_events.
Definition joined : ServiceState := run_server box1 invited [join_event].

Definition root_id : string := EncodeToString "root".
Definition ana_id : string := EncodeToString "ana".

Lemma installed_wf : user_wf (sv_db installed).
Proof. apply served_wf, empty_wf. Qed.
Lemma invited_wf : user_wf (sv_db invited).
Proof. apply served_wf, installed_wf. Qed.
Lemma joined_wf : user_wf (sv_db joined).
Proof. apply served_wf, invited_wf. Qed.

Example two_accounts : (fun r => (user_id r, User_Email (Identity_User r), User_Role (Identity_User r))) <$> ub_users (sv_db joined) =
  [(root_id, "root@example.org", RoleAdministrator); (ana_id, "ana@example.org", RoleAnalyst)]%string.
Proof. vm_compute. reflexivity. Qed.

(** A computation that succeeds. *)
Definition got {A} (default : A) (r : result A) : A := match r with Ok a => a | Err _ => default end.
Lemma ran {S A} (d : A) (m : result A * S) : is_ok m.1 = true -> m = (Ok (got d m.1), m.2).
Proof. destruct m as [[a|e] s]; [done|]. simpl. discriminate. Qed.

(** * What every sequence of requests keeps *)

Lemma accounts_well_formed_witness : length (ub_users (sv_db (run_server box1 installed (invite_events ++ [join_event; Restarted])))) = 2%nat /\
  user_wf (sv_db (run_server box1 installed (invite_events ++ [join_event; Restarted]))).
Proof. split; [vm_compute; reflexivity|]. apply (accounts_well_formed box1 installed (invite_events ++ [join_event; Restarted])). exact installed_wf. Defined.

Lemma has_administrator db : existsb local_administrator (ub_users db) = true -> administrator_exists db.
Proof. intros H. apply administrator_row. by apply existsb_true in H. Qed.

(** The last administrator tries to disable the account. *)
Definition self_disable : server_event := Served (with_cookie "/api/users" "root session") (at_minute 5) (CallUpdateUser root_id RoleAdministrator UserDisabled).
Lemma local_administrator_remains_witness :
  Response_Status (serve box1 (with_cookie "/api/users" "root session") (at_minute 5) (CallUpdateUser root_id RoleAdministrator UserDisabled) joined).1 = StatusConflict /\
  administrator_exists (sv_db (run_server box1 joined [self_disable; Restarted])).
Proof.
  split; [vm_compute; reflexivity|]. apply (proj2 (local_administrator_remains box1 joined [self_disable; Restarted] joined_wf)).
  apply has_administrator. vm_compute. reflexivity.
Defined.

Definition bootstrap_pending : ServiceState := run_server box1 empty_server (take 1 setup_events).
Lemma setup_happens_once_witness :
  Initialized bootstrap_pending = false /\ Initialized installed = true /\
  forall request now salt secret token, BeginBootstrap request now salt secret token joined = (Err ErrAlreadyInitialized, joined).
Proof.
  split; [vm_compute; reflexivity|]. split; [vm_compute; reflexivity|].
  destruct (setup_happens_once box1 installed (invite_events ++ [join_event])) as [_ H]. destruct (H eq_refl joined) as (_ & Hb & _).
  - vm_compute. reflexivity.
  - exact Hb.
Defined.

Definition first_factor := verifySecondFactor box1 root_id (code_at (at_minute 10)) "10.0.0.7" (at_minute 10) (sv_db joined).
Definition later_factor :=
  verifySecondFactor box1 root_id (code_at (at_minute 12)) "10.0.0.7" (at_minute 12) (sv_db (run_server box1 (joined <| sv_db := first_factor.2 |>) [Restarted])).
Lemma second_factor_accepted_once_witness :
  is_ok (verifySecondFactor box1 root_id (code_at (at_minute 10)) "10.0.0.7" (at_minute 10) first_factor.2).1 = false /\
  exists f f', presented_factor box1 (sv_db joined) root_id (code_at (at_minute 10)) (at_minute 10) = Some f /\ f <> f'.
Proof.
  split; [vm_compute; reflexivity|].
  destruct (second_factor_accepted_once box1 joined [Restarted] root_id (code_at (at_minute 10)) "10.0.0.7" (at_minute 10) (got 0 first_factor.1) first_factor.2
    (code_at (at_minute 12)) "10.0.0.7" (at_minute 12) (got 0 later_factor.1) later_factor.2 joined_wf) as (f & f' & Hf & _ & Hne & _).
  - apply ran. vm_compute. reflexivity.
  - apply ran. vm_compute. reflexivity.
  - exists f, f'. by split.
Defined.

(** A second enrollment of the invitation, begun before the first is completed. *)
Definition begun_twice : ServiceState :=
  (BeginLocalInvitation (EncodeToString (draw "invitation")) "Eve" ana_password (at_minute 3) (fixed 16 "salt") "eve secret" "pend2" invited).2.
Definition pending1 : pendingInvitation := default (mkPendingInvitation (mkInvitation "" "" "" "" "" 0 0 "") "" "" "" 0) (sv_invites begun_twice !! EncodeToString "pend1").
Definition completion := CompleteLocalInvitation box1 (EncodeToString "pend1") (code_at (at_minute 4)) "10.0.0.9" (at_minute 4) (account_draws "ana") begun_twice.
Lemma invitation_accepted_once_witness :
  is_ok (CompleteLocalInvitation box1 (EncodeToString "pend2") (code_at (at_minute 5)) "10.0.0.9" (at_minute 5) (account_draws "eve") completion.2).1 = false /\
  forall token' code' ip' now' draws' account' s2 p,
    sv_invites (run_server box1 completion.2 []) !! token' = Some p ->
    CompleteLocalInvitation box1 token' code' ip' now' draws' (run_server box1 completion.2 []) = (Ok account', s2) ->
    Invitation_ID (pi_invitation p) <> Invitation_ID (pi_invitation pending1).
Proof.
  split; [vm_compute; reflexivity|].
  assert (Hwf : user_wf (sv_db begun_twice)).
  { replace (sv_db begun_twice) with (sv_db invited) by (vm_compute; reflexivity). exact invited_wf. }
  destruct (invitation_accepted_once box1 begun_twice [] (EncodeToString "pend1") (code_at (at_minute 4)) "10.0.0.9" (at_minute 4) (account_draws "ana")
    (got (mkUser "" "" "" "" "" false 0 0 None, []) completion.1) completion.2 pending1 Hwf) as [_ H].
  - vm_compute. reflexivity.
  - apply ran. vm_compute. reflexivity.
  - exact H.
Defined.

(** * Signing in *)

Definition ana_login := AuthenticateLocal box1 "Ana@Example.org" ana_password (code_at (at_minute 20)) "10.0.0.9" "browser" (at_minute 20) (draws_of "ana login") joined.
Definition no_user : User := mkUser "" "" "" "" "" false 0 0 None.
Lemma login_requires_both_factors_witness :
  User_ID (got (no_user, "") ana_login.1).1 = ana_id /\
  is_ok (AuthenticateLocal box1 "Ana@Example.org" ana_password "" "10.0.0.9" "browser" (at_minute 20) (draws_of "ana login") joined).1 = false /\
  exists f, presented_factor box1 (sv_db joined) ana_id (code_at (at_minute 20)) (at_minute 20) = Some f /\ factor_used ana_id f (sv_db ana_login.2).
Proof.
  split; [vm_compute; reflexivity|]. split; [vm_compute; reflexivity|].
  destruct (login_requires_both_factors box1 "Ana@Example.org" ana_password (code_at (at_minute 20)) "10.0.0.9" "browser" (at_minute 20) (draws_of "ana login") joined
    (got (no_user, ""%string) ana_login.1).1 (got (no_user, ""%string) ana_login.1).2 ana_login.2 joined_wf) as (_ & _ & Hm & _).
  - vm_compute. reflexivity.
  - destruct Hm as (f & Hf & _ & Hu); [vm_compute; reflexivity|]. exists f. replace (User_ID _) with ana_id in Hf, Hu by (vm_compute; reflexivity). by split.
Defined.

Definition root_user : User := got no_user (SessionUser_ (EncodeToString (draw "root session")) (at_minute 6) (sv_db joined)).1.
Definition ana_disabled := UpdateUserAccess_ root_user ana_id RoleAnalyst UserDisabled "10.0.0.7" (at_minute 6) (sv_db joined).
Lemma access_change_takes_effect_witness :
  is_ok (SessionUser_ (EncodeToString (draw "ana session")) (at_minute 6) (sv_db joined)).1 = true /\
  forall token now' u, (SessionUser_ token now' ana_disabled.2).1 = Ok u -> User_ID u <> ana_id.
Proof.
  split; [vm_compute; reflexivity|].
  destruct (access_change_takes_effect box1 root_user ana_id RoleAnalyst UserDisabled "10.0.0.7" (at_minute 6) joined ana_disabled.2 joined_wf) as (_ & H & _).
  - vm_compute. reflexivity.
  - exact H.
Defined.

(** The same request of the administrator, with and without the header. *)
Definition disable_ana : web_call := CallUpdateUser ana_id RoleAnalyst UserDisabled.
Definition no_header : WebRequest := mkWebRequest "POST" "/api/users" (Some (EncodeToString (draw "root session"))) "" "mossward.example" "10.0.0.7:50000" "browser".

(** ** A provider *)

Definition provider_request : OIDCProviderRequest :=
  mkOIDCRequest "" "Company" "https://login.example.org/" "client" "client secret" "https://mossward.example/api/auth/oidc/finish" ProvisionJIT "tenant1" ["example.org"%string] []
    {[ "security"%string := RoleAdministrator; "audit"%string := RoleAnalyst ]} RoleViewer true.
Definition provider_id1 : string := EncodeToString "prov".
Definition discovered (issuer : string) : result unit := Ok tt.
Definition with_provider : UserDb :=
  let db := (ConfigureOIDCProvider box1 root_user provider_request "10.0.0.7" (at_minute 6) "prov" nonce12 (sv_db joined)).2 in
  let db := (TestOIDCProvider box1 discovered root_user provider_id1 "10.0.0.7" (at_minute 7) db).2 in
  let db := (SetOIDCProviderEnabled_ root_user provider_id1 true "10.0.0.7" (at_minute 7) db).2 in
  (BeginOIDCLogin box1 discovered provider_id1 (at_minute 8) (draw "state") "oidc nonce" "verifier" nonce12 db).2.
(** The claims of the provider's user, whose address it has not verified. *)
Definition exchanged (groups : list string) (provider : OIDCProvider) (secret code verifier : string) : option oidcRawClaims :=
  if bool_decide (secret = "client secret"%string /\ code = "code"%string) then Some (mkRawClaims "sub1" "Eve@Example.org" "Eve" "tenant1" (EncodeToString "oidc nonce") false groups) else None.
Definition provider_login (groups : list string) :=
  FinishOIDCLogin box1 discovered (exchanged groups) (EncodeToString (draw "state")) "code" "10.0.0.8" "browser" (at_minute 9) "eve" (draws_of "eve session") with_provider.

Lemma provider_login_authorized_witness :
  User_Role (got (no_user, "") (provider_login ["audit"; "security"; "other"]).1).1 = RoleAdministrator /\
  exists record raw, record ∈ ub_providers with_provider /\ claims_allowed (Record_Provider record) (claims_of raw (randomHex "eve")) /\
    best_role (Record_Provider record) (raw_Groups raw) RoleAdministrator.
Proof.
  split; [vm_compute; reflexivity|]. set (m := provider_login ["audit"; "security"; "other"]%string).
  destruct (provider_login_authorized box1 discovered (exchanged ["audit"; "security"; "other"]%string) (EncodeToString (draw "state")) "code" "10.0.0.8" "browser" (at_minute 9) "eve"
    (draws_of "eve session") with_provider (got (no_user, ""%string) m.1).1 (got (no_user, ""%string) m.1).2 m.2)
    as (record & secret & verifier & raw & role & Hr & _ & _ & _ & _ & _ & Hall & Hbest & Hjit & _).
  - vm_compute. reflexivity.
  - exists record, raw. split; [done|]. split; [done|]. replace RoleAdministrator with role; [done|].
    assert (Hrole : User_Role (got (no_user, ""%string) m.1).1 = RoleAdministrator) by (vm_compute; reflexivity). rewrite <- Hrole. symmetry. apply Hjit.
    assert (Hmode : forall x, x ∈ ub_providers with_provider -> Provider_Mode (Record_Provider x) = ProvisionJIT).
    { apply Forall_forall. vm_compute. repeat constructor. }
    by apply Hmode.
Defined.

(** * Guessing *)

(** Guesses at Ana's password, every two from another address. *)
Definition guess_at (minute : Z) : guess :=
  mkGuess " Ana@Example.org" "not the password" "" ("10.0." +:+ append_int minute 0 +:+ ".1") "browser" (at_minute minute) (draws_of "guess").
Definition guess_minutes : list Z := [20; 20; 20; 20; 20; 20; 21; 21; 22; 23; 25; 26; 29; 30; 34; 35; 35; 36].
Definition guessing : list guess := guess_at <$> guess_minutes.
Definition ana_key : string := account_key "ana@example.org".

(** Whether each is checked. *)
Definition guess_answers : list (result (User * string)) :=
  (fun c : bool => Err (if c then ErrInvalidCredentials else ErrLoginRateLimited)) <$>
  [true; true; true; true; true; false; true; false; false; true; false; true; false; true; false; true; false; false].


(** * The rotation of the key *)

Definition key2 : string := fixed 32 "second identity key".
Lemma key_rotation_preserves_secrets_witness : exists data1 box1' n db1 data2,
  RotateIdentityCiphertexts (box_cipher box1') (fun _ _ => nonce12) (at_minute 30) (sv_db joined) = (Ok n, db1) /\
  opens data1 db1 [Some "root secret"; Some "ana secret"]%string /\ opens data2 db1 [Some "root secret"; Some "ana secret"]%string /\
  parseSecretBox data2 = Ok (mkSecretBox (identityKeyID key2) (identityKeyID key2) {[ identityKeyID key2 := key2 ]}).
Proof.
  destruct (key_rotation_preserves_secrets key1 key2 (fun _ _ => nonce12) (at_minute 30) (sv_db joined) box1 [Some "root secret"; Some "ana secret"]%string joined_wf)
    as (data1 & copy & box1' & n & db1 & data2 & _ & Hr & _ & _ & Ho & Ho2 & _ & Hp).
  - intros _. vm_compute. reflexivity.
  - vm_compute. reflexivity.
  - intros column k. reflexivity.
  - vm_compute. reflexivity.
  - vm_compute. reflexivity.
  - exists box1. split; [vm_compute; reflexivity|]. destruct (ciphertexts (sv_db joined)) as [|c1 [|c2 [|]]] eqn:E; vm_compute in E; try discriminate E.
    injection E as <- <-. repeat (apply Forall2_cons; split; [split; vm_compute; reflexivity|]). apply Forall2_nil_2.
  - exists data1, box1', n, db1, data2. split; [exact Hr|]. split; [exact Ho|]. split; [exact Ho2|]. apply Hp. vm_compute. reflexivity.
Defined.

(** * Behaviours worth knowing *)

(** A failure to read the attempts is taken for "not blocked": the scan leaves
    the value invalid, which is looked at before the error. *)
Example throttle_read_failure_allows (e : error) (now : Time) : throttle_of (ScanFailed (option Time) e) now = Ok (ZeroTime, false).
Proof. reflexivity. Qed.

(** The address ["[::1]"] in the list of loopback hosts is never matched, since
    the host is cut at its first colon. *)
Lemma split_no_colon sep s first rest : split_byte sep s = first :: rest -> lacks sep first = true.
Proof.
  revert first rest. induction s as [|c s IH]; intros first rest; simpl; [by intros [= <- <-]|].
  destruct (split_byte sep s) as [|x l]; [done|]. destruct (Ascii.eqb c sep) eqn:E; intros [= <- <-]; [done|]. specialize (IH x l eq_refl).
  unfold lacks in *. simpl in *. by rewrite E.
Qed.
Lemma ipv6_loopback_refused host : isLoopbackURL host = true -> exists rest, split_byte ":" host = "localhost"%string :: rest \/ split_byte ":" host = "127.0.0.1"%string :: rest.
Proof.
  unfold isLoopbackURL. destruct (split_byte ":" host) as [|first rest] eqn:E; [done|]. pose proof (split_no_colon _ _ _ _ E) as Hl.
  unfold one_of. simpl. intros H. exists rest. repeat case_bool_decide; subst; simpl in *; auto; discriminate.
Qed.
Example ipv6_loopback_rejected : isLoopbackURL "[::1]:8080" = false.
Proof. reflexivity. Qed.

(** An address that its provider has not verified takes the invitation that was
    sent to it. *)
Definition with_invitation : UserDb :=
  let db := (InviteUser root_user "vic@example.org" RoleAdministrator IdentitySSO "10.0.0.7" (at_minute 6) (draw "sso invitation") "inv2" (sv_db joined)).2 in
  let invite_only := mkOIDCRequest "" "Company" "https://login.example.org/" "client" "client secret" "https://mossward.example/api/auth/oidc/finish" ProvisionInviteOnly "" [] []
    ∅ RoleViewer false in
  let db := (ConfigureOIDCProvider box1 root_user invite_only "10.0.0.7" (at_minute 6) "prov" nonce12 db).2 in
  let db := (TestOIDCProvider box1 discovered root_user provider_id1 "10.0.0.7" (at_minute 7) db).2 in
  let db := (SetOIDCProviderEnabled_ root_user provider_id1 true "10.0.0.7" (at_minute 7) db).2 in
  (BeginOIDCLogin box1 discovered provider_id1 (at_minute 8) (draw "state") "oidc nonce" "verifier" nonce12 db).2.
Definition unverified (provider : OIDCProvider) (secret code verifier : string) : option oidcRawClaims :=
  Some (mkRawClaims "sub2" "vic@example.org" "Mallory" "" (EncodeToString "oidc nonce") false []).
Example unverified_address_takes_invitation :
  (fun x => (User_Email x.1, User_Role x.1)) <$>
    (FinishOIDCLogin box1 discovered unverified (EncodeToString (draw "state")) "code" "10.0.0.8" "browser" (at_minute 9) "vic" (draws_of "vic session") with_invitation).1 =
  Ok ("vic@example.org", RoleAdministrator)%string.
Proof. vm_compute. reflexivity. Qed.

(** Wrong codes for a renewed second factor are not counted. *)
Lemma wrong_codes_not_counted user token code ip now db : ub_attempts (RefreshMFA box1 user token code ip now db).2 = ub_attempts db.
Proof.
  unfold RefreshMFA. destruct (second_factor_rest box1 (User_ID user) code ip now db) as [_ H]. destruct (verifySecondFactor _ _ _ _ _ _) as [[t|e] d]; simpl in *; [|done].
  destruct (sessionTokenHash token); [|done]. unfold UpdateSessionMFAVerifiedAt. by destruct (_ =? 0).
Qed.
