(* ===== verification/ScanStore.v ===== *)
(** Scans in the store: the scan tables of internal/store/sqlite.go with [Save],
    [Get], [List] and [ReconcileInterrupted], the workflow of findings
    (finding_workflow.go), exceptions and retention (reporting.go). The asset
    inventory that a completed scan updates is part of the state. Timestamps are
    text in the tables; metadata and group lists are the values their rows and
    columns encode; audit rows are not kept. *)
From Stdlib Require Import ZArith Lia String Ascii.
From stdpp Require Import base tactics list strings gmap sets.
From S2P Require Import Prelude GoStrings GoTime GoLocation WorkerModel Sql ScanModel AssetStore.
Open Scope string_scope.
Open Scope Z_scope.

Definition ErrNotFound : error := "scan not found".
Definition ErrFindingNotFound : error := "finding not found".
Definition ErrInvalidFindingWorkflow : error := "invalid finding workflow update".
Definition ErrStoredTime : error := "parse stored timestamp".

(** * Tables *)

Record ScanRow := mkScanRow {
  sr_id : string; sr_name : string; sr_status : ScanStatus; sr_error : string; sr_total : Z; sr_done : Z;
  sr_created_at : string; sr_started_at : option string; sr_completed_at : option string;
  sr_scope_policy_id : string; sr_max_concurrent : Z; sr_scan_policy_id : string; sr_active_seconds : Z;
  sr_window_end : option string; sr_long_alert_sent : bool; sr_rate_limit : Z }.

(** A row of a table that belongs to a scan and is read in the order of its ordinals. *)
Record Child (A : Type) := mkChild { ch_scan : string; ch_ordinal : Z; ch_value : A }.
Arguments mkChild {A}. Arguments ch_scan {A}. Arguments ch_ordinal {A}. Arguments ch_value {A}.

(** Timestamp columns next to the other columns. *)
Record ObservationCols := mkObservationCols { oc_value : ServiceObservation; oc_observed_at : string }.
Record FindingCols := mkFindingCols { fc_value : Finding; fc_observed_at : string; fc_workflow_updated_at : option string }.
Record MatchCols := mkMatchCols { mc_value : CVEMatch; mc_matched_at : string }.
Record ScanCheckpointRow := mkCheckpointRow { sc_scan : string; sc_address : string; sc_port : Z; sc_completed_at : string }.

Definition FindingExceptionStatus := string.
Definition ExceptionPending : FindingExceptionStatus := "pending".
Definition ExceptionApproved : FindingExceptionStatus := "approved".
Definition ExceptionRejected : FindingExceptionStatus := "rejected".

Record ExceptionRow := mkExceptionRow {
  ex_id : string; ex_finding : string; ex_reason : string; ex_status : FindingExceptionStatus; ex_requested_by : string;
  ex_approved_by : string; ex_created_at : string; ex_expires_at : option string; ex_reminder_days : Z; ex_last_reminder_at : option string }.

Record FindingException := mkFindingException {
  Exception_ID : string; Exception_FindingID : string; Exception_Reason : string; Exception_Status : FindingExceptionStatus;
  Exception_RequestedBy : string; Exception_ApprovedBy : string; Exception_CreatedAt : Time; Exception_ExpiresAt : option Time;
  Exception_ReminderDays : Z; Exception_LastReminderAt : option Time }.

Record ScanDb := mkScanDb {
  sdb_scans : list ScanRow; sdb_targets : list (Child Target); sdb_ports : list (Child Z); sdb_observations : list (Child ObservationCols);
  sdb_findings : list (Child FindingCols); sdb_matches : list (Child MatchCols); sdb_checkpoints : list ScanCheckpointRow;
  sdb_exceptions : list ExceptionRow; sdb_long_alerts : list string; sdb_retention_days : Z;
  sdb_cves : gset string; sdb_users : gset string; sdb_active_users : gset string; sdb_assets : AssetDb }.

Definition set_scans (x : list ScanRow) (db : ScanDb) : ScanDb :=
  mkScanDb x (sdb_targets db) (sdb_ports db) (sdb_observations db) (sdb_findings db) (sdb_matches db) (sdb_checkpoints db) (sdb_exceptions db)
    (sdb_long_alerts db) (sdb_retention_days db) (sdb_cves db) (sdb_users db) (sdb_active_users db) (sdb_assets db).
Definition set_findings (x : list (Child FindingCols)) (db : ScanDb) : ScanDb :=
  mkScanDb (sdb_scans db) (sdb_targets db) (sdb_ports db) (sdb_observations db) x (sdb_matches db) (sdb_checkpoints db) (sdb_exceptions db)
    (sdb_long_alerts db) (sdb_retention_days db) (sdb_cves db) (sdb_users db) (sdb_active_users db) (sdb_assets db).
Definition set_exceptions (x : list ExceptionRow) (db : ScanDb) : ScanDb :=
  mkScanDb (sdb_scans db) (sdb_targets db) (sdb_ports db) (sdb_observations db) (sdb_findings db) (sdb_matches db) (sdb_checkpoints db) x
    (sdb_long_alerts db) (sdb_retention_days db) (sdb_cves db) (sdb_users db) (sdb_active_users db) (sdb_assets db).
Definition set_long_alerts (x : list string) (db : ScanDb) : ScanDb :=
  mkScanDb (sdb_scans db) (sdb_targets db) (sdb_ports db) (sdb_observations db) (sdb_findings db) (sdb_matches db) (sdb_checkpoints db) (sdb_exceptions db)
    x (sdb_retention_days db) (sdb_cves db) (sdb_users db) (sdb_active_users db) (sdb_assets db).
Definition set_retention_days (x : Z) (db : ScanDb) : ScanDb :=
  mkScanDb (sdb_scans db) (sdb_targets db) (sdb_ports db) (sdb_observations db) (sdb_findings db) (sdb_matches db) (sdb_checkpoints db) (sdb_exceptions db)
    (sdb_long_alerts db) x (sdb_cves db) (sdb_users db) (sdb_active_users db) (sdb_assets db).
Definition set_scan_assets (x : AssetDb) (db : ScanDb) : ScanDb :=
  mkScanDb (sdb_scans db) (sdb_targets db) (sdb_ports db) (sdb_observations db) (sdb_findings db) (sdb_matches db) (sdb_checkpoints db) (sdb_exceptions db)
    (sdb_long_alerts db) (sdb_retention_days db) (sdb_cves db) (sdb_users db) (sdb_active_users db) x.

(** * Deleting scans *)

Definition without {A} (gone : A -> bool) (table : list A) : list A := List.filter (fun r => negb (gone r)) table.
Definition mem_id (id : string) (ids : list string) : bool := existsb (fun x => bool_decide (x = id)) ids.

(** [DELETE FROM scans WHERE p]; ON DELETE CASCADE takes the rows that refer to
    the deleted scans, and those that refer to their observations and findings. *)
Definition delete_scans (p : ScanRow -> bool) (db : ScanDb) : ScanDb :=
  let scans := sr_id <$> select_where p (sdb_scans db) in
  let child {A} (r : Child A) := mem_id (ch_scan r) scans in
  let observations := (fun r => Observation_ID (oc_value (ch_value r))) <$> select_where child (sdb_observations db) in
  let findings := (fun r => Finding_ID (fc_value (ch_value r))) <$> select_where child (sdb_findings db) in
  mkScanDb (without p (sdb_scans db)) (without child (sdb_targets db)) (without child (sdb_ports db)) (without child (sdb_observations db))
    (without child (sdb_findings db))
    (without (fun r => child r || mem_id (Match_ObservationID (mc_value (ch_value r))) observations) (sdb_matches db))
    (without (fun r => mem_id (sc_scan r) scans) (sdb_checkpoints db))
    (without (fun r => mem_id (ex_finding r) findings) (sdb_exceptions db))
    (sdb_long_alerts db) (sdb_retention_days db) (sdb_cves db) (sdb_users db) (sdb_active_users db) (sdb_assets db).

(** * Save *)

Definition validFindingStatus (status : FindingStatus) : bool :=
  bool_decide (status = FindingOpen) || bool_decide (status = FindingInProgress) || bool_decide (status = FindingResolved).
Definition defaultFindingStatus (status : FindingStatus) : FindingStatus := if bool_decide (status = "") then FindingOpen else status.

Definition scan_row (scan : Scan) : ScanRow :=
  mkScanRow (Scan_ID scan) (Scan_Name scan) (Scan_Status scan) (Scan_Error scan) (Scan_TotalChecks scan) (Scan_DoneChecks scan)
    (formatTime (Scan_CreatedAt scan)) (formatTime <$> Scan_StartedAt scan) (formatTime <$> Scan_CompletedAt scan)
    (Scan_ScopePolicyID scan) (Scan_MaxConcurrent scan) (Scan_ScanPolicyID scan) (Scan_ActiveSeconds scan)
    (formatTime <$> Scan_WindowEnd scan) (Scan_LongAlertSent scan) (Scan_RateLimitPerSecond scan).

Definition children {A B} (f : A -> B) (id : string) (l : list A) : list (Child B) := imap (fun i x => mkChild id (Z.of_nat i) (f x)) l.

Definition observation_cols (o : ServiceObservation) : ObservationCols := mkObservationCols o (formatTime (Observation_ObservedAt o)).
Definition finding_with_status (f : Finding) (status : FindingStatus) (assigned : string) : Finding :=
  {| Finding_ID := Finding_ID f; Finding_CheckID := Finding_CheckID f; Finding_Target := Finding_Target f; Finding_Address := Finding_Address f;
     Finding_Port := Finding_Port f; Finding_Service := Finding_Service f; Finding_Severity := Finding_Severity f; Finding_Title := Finding_Title f;
     Finding_Evidence := Finding_Evidence f; Finding_Remediation := Finding_Remediation f; Finding_ObservedAt := Finding_ObservedAt f;
     Finding_Status := status; Finding_AssignedTo := assigned; Finding_WorkflowUpdatedAt := Finding_WorkflowUpdatedAt f |}.
Definition finding_cols (f : Finding) : FindingCols :=
  mkFindingCols (finding_with_status f (defaultFindingStatus (Finding_Status f)) (Finding_AssignedTo f)) (formatTime (Finding_ObservedAt f))
    (formatTime <$> Finding_WorkflowUpdatedAt f).
Definition match_cols (m : CVEMatch) : MatchCols := mkMatchCols m (formatTime (Match_MatchedAt m)).
Definition checkpoint_row (id : string) (c : ScanCheckpoint) : ScanCheckpointRow :=
  mkCheckpointRow id (ScanCheckpoint_Address c) (ScanCheckpoint_Port c) (formatTime (ScanCheckpoint_CompletedAt c)).

(** The constraints the inserted rows must meet: the ranges of the rate and the
    ports, the statuses of findings, distinct identifiers of observations and
    findings across all scans, the keys of matches and checkpoints, and the
    observations and vulnerabilities that matches refer to. *)
Definition save_constraints (scan : Scan) (db : ScanDb) : bool :=
  let observations := Observation_ID <$> Scan_Observations scan in
  in_range 0 (Scan_RateLimitPerSecond scan) 1000 &&
  forallb (fun p => in_range 1 p 65535) (Scan_Ports scan) &&
  bool_decide (NoDup (observations ++ ((fun r => Observation_ID (oc_value (ch_value r))) <$> sdb_observations db))) &&
  bool_decide (NoDup ((Finding_ID <$> Scan_Findings scan) ++ ((fun r => Finding_ID (fc_value (ch_value r))) <$> sdb_findings db))) &&
  forallb (fun f => validFindingStatus (defaultFindingStatus (Finding_Status f))) (Scan_Findings scan) &&
  bool_decide (NoDup ((fun m => (Match_ObservationID m, Match_CVEID m)) <$> Scan_CVEMatches scan)) &&
  forallb (fun m => bool_decide (Match_CVEID m ∈ sdb_cves db) && (mem_id (Match_ObservationID m) observations ||
     mem_id (Match_ObservationID m) ((fun r => Observation_ID (oc_value (ch_value r))) <$> sdb_observations db))) (Scan_CVEMatches scan) &&
  bool_decide (NoDup ((fun c => (ScanCheckpoint_Address c, ScanCheckpoint_Port c)) <$> Scan_Checkpoints scan)).

Definition insert_scan (scan : Scan) (db : ScanDb) : ScanDb :=
  let id := Scan_ID scan in
  mkScanDb (sdb_scans db ++ [scan_row scan])%list (sdb_targets db ++ children (fun t => t) id (Scan_Targets scan))%list
    (sdb_ports db ++ children (fun p => p) id (Scan_Ports scan))%list
    (sdb_observations db ++ children observation_cols id (Scan_Observations scan))%list
    (sdb_findings db ++ children finding_cols id (Scan_Findings scan))%list
    (sdb_matches db ++ children match_cols id (Scan_CVEMatches scan))%list
    (sdb_checkpoints db ++ (checkpoint_row id <$> Scan_Checkpoints scan))%list
    (sdb_exceptions db) (sdb_long_alerts db) (sdb_retention_days db) (sdb_cves db) (sdb_users db) (sdb_active_users db) (sdb_assets db).

Section Save.
Context (Sum256 : string -> string).

Definition Save (scan : Scan) : st ScanDb unit := transaction (fun db =>
  let db1 := delete_scans (fun r => bool_decide (sr_id r = Scan_ID scan)) db in
  if negb (save_constraints scan db1) then Err ErrConstraint
  else
    assets ← upsertScanAssets Sum256 scan (sdb_assets db1);
    assets ← updateAssetServiceHistory scan assets;
    Ok (set_scan_assets assets (insert_scan scan db1))).
End Save.

(** * Reading *)

Definition stored_time (text : string) : result Time := match parseTime text with Some t => Ok t | None => Err ErrStoredTime end.
Definition parseOptionalTime (text : option string) : result (option Time) :=
  match text with None => Ok None | Some text => t ← stored_time text; Ok (Some t) end.

Definition load_children {A} (id : string) (table : list (Child A)) : list A :=
  ch_value <$> sort_slice (fun a b => ch_ordinal a <? ch_ordinal b) (select_where (fun r => bool_decide (ch_scan r = id)) table).

Fixpoint load_each {A B} (read : A -> result B) (rows : list A) : result (list B) :=
  match rows with
  | [] => Ok []
  | r :: rows => x ← read r; l ← load_each read rows; Ok (x :: l)
  end.

Definition loadTargets (id : string) (db : ScanDb) : list Target := load_children id (sdb_targets db).
Definition loadPorts (id : string) (db : ScanDb) : list Z := load_children id (sdb_ports db).

Definition read_observation (r : ObservationCols) : result ServiceObservation :=
  observedAt ← stored_time (oc_observed_at r);
  let o := oc_value r in
  Ok {| Observation_ID := Observation_ID o; Observation_Target := Observation_Target o; Observation_Address := Observation_Address o;
        Observation_Port := Observation_Port o; Observation_Protocol := Observation_Protocol o; Observation_Product := Observation_Product o;
        Observation_Version := Observation_Version o; Observation_Confidence := Observation_Confidence o; Observation_Evidence := Observation_Evidence o;
        Observation_Metadata := Observation_Metadata o; Observation_ObservedAt := observedAt |}.
Definition loadObservations (id : string) (db : ScanDb) : result (list ServiceObservation) :=
  load_each read_observation (load_children id (sdb_observations db)).

Definition read_finding (r : FindingCols) : result Finding :=
  observedAt ← stored_time (fc_observed_at r);
  workflow ← parseOptionalTime (fc_workflow_updated_at r);
  let f := fc_value r in
  Ok {| Finding_ID := Finding_ID f; Finding_CheckID := Finding_CheckID f; Finding_Target := Finding_Target f; Finding_Address := Finding_Address f;
        Finding_Port := Finding_Port f; Finding_Service := Finding_Service f; Finding_Severity := Finding_Severity f; Finding_Title := Finding_Title f;
        Finding_Evidence := Finding_Evidence f; Finding_Remediation := Finding_Remediation f; Finding_ObservedAt := observedAt;
        Finding_Status := Finding_Status f; Finding_AssignedTo := Finding_AssignedTo f; Finding_WorkflowUpdatedAt := workflow |}.
Definition loadFindings (id : string) (db : ScanDb) : result (list Finding) := load_each read_finding (load_children id (sdb_findings db)).

Definition read_match (r : MatchCols) : result CVEMatch :=
  matchedAt ← stored_time (mc_matched_at r);
  let m := mc_value r in
  Ok {| Match_CVEID := Match_CVEID m; Match_ObservationID := Match_ObservationID m; Match_Target := Match_Target m; Match_Address := Match_Address m;
        Match_Port := Match_Port m; Match_Product := Match_Product m; Match_Version := Match_Version m; Match_Confidence := Match_Confidence m;
        Match_Evidence := Match_Evidence m; Match_MatchedAt := matchedAt |}.
Definition loadCVEMatches (id : string) (db : ScanDb) : result (list CVEMatch) := load_each read_match (load_children id (sdb_matches db)).

(** [ORDER BY address,port]; a time that does not parse is left zero. *)
Definition checkpoint_before (a b : ScanCheckpointRow) : bool :=
  str_ltb (sc_address a) (sc_address b) || (bool_decide (sc_address a = sc_address b) && (sc_port a <? sc_port b)).
Definition loadCheckpoints (id : string) (db : ScanDb) : list ScanCheckpoint :=
  (fun r => mkScanCheckpoint (sc_address r) (sc_port r) (default ZeroTime (parseTime (sc_completed_at r)))) <$>
    sort_slice checkpoint_before (select_where (fun r => bool_decide (sc_scan r = id)) (sdb_checkpoints db)).

Definition scan_is (id : string) (r : ScanRow) : bool := bool_decide (sr_id r = id).

Definition Get (id : string) (db : ScanDb) : result Scan :=
  match query_row (scan_is id) (sdb_scans db) with
  | None => Err ErrNotFound
  | Some r =>
      created ← stored_time (sr_created_at r);
      started ← parseOptionalTime (sr_started_at r);
      completed ← parseOptionalTime (sr_completed_at r);
      windowEnd ← parseOptionalTime (sr_window_end r);
      observations ← loadObservations id db;
      findings ← loadFindings id db;
      matches ← loadCVEMatches id db;
      Ok (mkScan (sr_id r) (sr_name r) (loadTargets id db) (loadPorts id db) (sr_status r) (sr_error r) observations findings matches
            (sr_total r) (sr_done r) created started completed (sr_scope_policy_id r) (sr_max_concurrent r) (sr_scan_policy_id r)
            (loadCheckpoints id db) (sr_active_seconds r) windowEnd (mem_id id (sdb_long_alerts db)) (sr_rate_limit r))
  end.

(** [ORDER BY created_at DESC] *)
Definition ListScans (db : ScanDb) : result (list Scan) :=
  load_each (fun r => Get (sr_id r) db) (sort_slice (fun a b => str_ltb (sr_created_at b) (sr_created_at a)) (sdb_scans db)).

Definition MarkScanLongAlertSent (id : string) : st ScanDb unit := fun db =>
  (Ok tt, if mem_id id (sdb_long_alerts db) then db else set_long_alerts (sdb_long_alerts db ++ [id])%list db).

(** * Recovery after a restart *)

Section Reconcile.
(** [CAST((julianday(?) - julianday(started_at))*86400 AS INTEGER)] of SQLite. *)
Context (julian_seconds : string -> string -> Z).

Definition interrupted (r : ScanRow) : bool := bool_decide (sr_status r = StatusQueued) || bool_decide (sr_status r = StatusRunning).

Definition reconcile_row (now : string) (r : ScanRow) : ScanRow :=
  let scheduled := negb (bool_decide (sr_scan_policy_id r = "")) in
  mkScanRow (sr_id r) (sr_name r) (if scheduled then StatusPaused else StatusFailed)
    (if scheduled then "scheduled scan paused by process shutdown" else "scan interrupted by a previous process shutdown")
    (sr_total r) (sr_done r) (sr_created_at r) (if scheduled then None else sr_started_at r) (if scheduled then None else Some now)
    (sr_scope_policy_id r) (sr_max_concurrent r) (sr_scan_policy_id r)
    (sr_active_seconds r + (if scheduled && bool_decide (sr_status r = StatusRunning)
       then match sr_started_at r with Some started => Z.max 0 (julian_seconds now started) | None => 0 end else 0))
    (sr_window_end r) (sr_long_alert_sent r) (sr_rate_limit r).

Definition ReconcileInterrupted (now : Time) : st ScanDb unit := fun db =>
  (Ok tt, set_scans (update_where interrupted (reconcile_row (formatTime now)) (sdb_scans db)) db).
End Reconcile.

(** * Findings *)

Definition finding_is (id : string) (r : Child FindingCols) : bool := bool_decide (Finding_ID (fc_value (ch_value r)) = id).

Definition UpdateFindingWorkflow (id : string) (status : FindingStatus) (assignedTo : string) (now : Time) : st ScanDb unit := fun db =>
  if negb (validFindingStatus status) then (Err ErrInvalidFindingWorkflow, db)
  else transaction (fun db =>
    if negb (bool_decide (assignedTo = "")) && negb (bool_decide (assignedTo ∈ sdb_active_users db)) then Err ErrInvalidFindingWorkflow
    else if affected (finding_is id) (sdb_findings db) =? 0 then Err ErrFindingNotFound
    else Ok (set_findings (update_where (finding_is id)
      (fun r => mkChild (ch_scan r) (ch_ordinal r)
         (mkFindingCols (finding_with_status (fc_value (ch_value r)) status assignedTo) (fc_observed_at (ch_value r)) (Some (formatTime now))))
      (sdb_findings db)) db)) db.

(** * Exceptions *)

Definition finding_scan_status (id : string) (db : ScanDb) : option ScanStatus :=
  match query_row (finding_is id) (sdb_findings db) with
  | None => None
  | Some f => sr_status <$> query_row (scan_is (ch_scan f)) (sdb_scans db)
  end.

Definition SaveFindingException (v : FindingException) : st ScanDb unit := fun db =>
  if (Exception_ReminderDays v <? 1) || (365 <? Exception_ReminderDays v) || bool_decide (Exception_Reason v = "") ||
     match Exception_ExpiresAt v with Some t => negb (After t (Exception_CreatedAt v)) | None => false end
  then (Err ErrInvalidFindingWorkflow, db)
  else transaction (fun db =>
    match finding_scan_status (Exception_FindingID v) db with
    | None => Err ErrFindingNotFound
    | Some status =>
        if negb (bool_decide (status = StatusCompleted)) then Err ErrInvalidFindingWorkflow
        else if existsb (fun e => bool_decide (ex_id e = Exception_ID v)) (sdb_exceptions db) ||
                negb (existsb (fun s => bool_decide (s = Exception_Status v)) [ExceptionPending; ExceptionApproved; ExceptionRejected]) ||
                negb (bool_decide (Exception_RequestedBy v ∈ sdb_users db))
        then Err ErrConstraint
        else Ok (set_exceptions (sdb_exceptions db ++ [mkExceptionRow (Exception_ID v) (Exception_FindingID v) (Exception_Reason v) (Exception_Status v)
               (Exception_RequestedBy v) "" (formatTime (Exception_CreatedAt v)) (formatTime <$> Exception_ExpiresAt v) (Exception_ReminderDays v) None])%list db)
    end) db.

Definition read_exception (r : ExceptionRow) : FindingException :=
  mkFindingException (ex_id r) (ex_finding r) (ex_reason r) (ex_status r) (ex_requested_by r) (ex_approved_by r)
    (default ZeroTime (parseTime (ex_created_at r))) ((fun t => default ZeroTime (parseTime t)) <$> ex_expires_at r) (ex_reminder_days r)
    ((fun t => default ZeroTime (parseTime t)) <$> ex_last_reminder_at r).

(** [ORDER BY created_at DESC] *)
Definition ListFindingExceptions (db : ScanDb) : list FindingException :=
  read_exception <$> sort_slice (fun a b => str_ltb (ex_created_at b) (ex_created_at a)) (sdb_exceptions db).

(** The administrator is a user: the column is a foreign key. *)
Definition ReviewFindingException (id : string) (status : FindingExceptionStatus) (admin : string) : st ScanDb unit := fun db =>
  if negb (bool_decide (status = ExceptionApproved)) && negb (bool_decide (status = ExceptionRejected)) then (Err ErrInvalidFindingWorkflow, db)
  else transaction (fun db =>
    let pending e := bool_decide (ex_id e = id) && bool_decide (ex_status e = ExceptionPending) in
    if affected pending (sdb_exceptions db) =? 0 then Err ErrFindingNotFound
    else if negb (bool_decide (admin ∈ sdb_users db)) then Err ErrConstraint
    else Ok (set_exceptions (update_where pending (fun e => mkExceptionRow (ex_id e) (ex_finding e) (ex_reason e) status (ex_requested_by e) admin
           (ex_created_at e) (ex_expires_at e) (ex_reminder_days e) (ex_last_reminder_at e)) (sdb_exceptions db)) db)) db.

Definition DueOpenEndedExceptions (now : Time) (db : ScanDb) : list FindingException :=
  List.filter (fun v => bool_decide (Exception_Status v = ExceptionApproved) && bool_decide (Exception_ExpiresAt v = None) &&
    negb (After (AddDays utc_location (default (Exception_CreatedAt v) (Exception_LastReminderAt v)) (Exception_ReminderDays v)) now))
    (ListFindingExceptions db).

Definition MarkExceptionReminded (id : string) (now : Time) : st ScanDb unit := fun db =>
  (Ok tt, set_exceptions (update_where (fun e => bool_decide (ex_id e = id))
     (fun e => mkExceptionRow (ex_id e) (ex_finding e) (ex_reason e) (ex_status e) (ex_requested_by e) (ex_approved_by e) (ex_created_at e)
        (ex_expires_at e) (ex_reminder_days e) (Some (formatTime now))) (sdb_exceptions db)) db).

(** * Retention *)

Definition SaveEvidenceRetentionSettings (days : Z) : st ScanDb unit := fun db =>
  if (days <? 30) || (3650 <? days) then (Err ErrInvalidFindingWorkflow, db) else (Ok tt, set_retention_days days db).

(** An approved exception that is open-ended or has not expired. *)
Definition exception_active (now : string) (e : ExceptionRow) : bool := bool_decide (ex_status e = ExceptionApproved) &&
  match ex_expires_at e with None => true | Some expires => str_ltb now expires end.

Definition PurgeExpiredEvidence (now : Time) : st ScanDb Z := fun db =>
  let cutoff := formatTime (AddDays utc_location now (- sdb_retention_days db)) in
  let held r := existsb (fun f => bool_decide (ch_scan f = sr_id r) &&
    existsb (fun e => bool_decide (ex_finding e = Finding_ID (fc_value (ch_value f))) && exception_active (formatTime now) e) (sdb_exceptions db)) (sdb_findings db) in
  let expired r := match sr_completed_at r with Some completed => str_ltb completed cutoff && negb (held r) | None => false end in
  (Ok (affected expired (sdb_scans db)), delete_scans expired db).
