(* ===== verification/ScanStoreSafety.v ===== *)
(** What the store of scans guarantees: a saved scan reads back as it was, other
    scans are not touched, recovery leaves nothing running, and retention removes
    exactly what it may. *)
From Stdlib Require Import ZArith Lia String Ascii Sorted.
From stdpp Require Import base tactics list strings gmap sets.
From S2P Require Import Prelude GoStrings GoTime GoLocation WorkerModel Sql ScanModel AssetStore AssetSafety ScanStore.
Open Scope string_scope.
Open Scope Z_scope.

(** * Lists and tables *)

Lemma sort_slice_sorted {A} (less : A -> A -> bool) l : StronglySorted (fun x y => less y x = false) l -> sort_slice less l = l.
Proof.
  unfold sort_slice. intros H. enough (forall acc, StronglySorted (fun x y => less y x = false) (acc ++ l) -> fold_left (fun acc x => insert_slice less x acc) l acc = (acc ++ l)%list) as G
    by (by apply (G [])).
  clear H. induction l as [|x l IH]; intros acc H; simpl; [by rewrite app_nil_r|].
  assert (E : insert_slice less x acc = (acc ++ [x])%list).
  { clear IH. induction acc as [|y acc IHa]; simpl; [done|]. inversion H as [|?? Hs Hf]; subst.
    rewrite Forall_forall in Hf. rewrite (Hf x) by (apply elem_of_app; right; by left). by rewrite IHa. }
  rewrite E, IH by (by rewrite <- app_assoc). by rewrite <- app_assoc.
Qed.

Lemma insert_slice_fmap {A B} (f : A -> B) (less : B -> B -> bool) x l :
  insert_slice less (f x) (f <$> l) = f <$> insert_slice (fun a b => less (f a) (f b)) x l.
Proof. induction l as [|y l IH]; [done|]. simpl. destruct (less (f x) (f y)); [done|]. simpl. f_equal. exact IH. Qed.

Lemma sort_slice_fmap {A B} (f : A -> B) (less : B -> B -> bool) l :
  sort_slice less (f <$> l) = f <$> sort_slice (fun a b => less (f a) (f b)) l.
Proof.
  unfold sort_slice. assert (G : forall acc, fold_left (fun acc x => insert_slice less x acc) (f <$> l) (f <$> acc) =
    f <$> fold_left (fun acc x => insert_slice (fun a b => less (f a) (f b)) x acc) l acc); [|by apply (G [])].
  induction l as [|x l IH]; intros acc; [done|]. simpl. by rewrite insert_slice_fmap, IH.
Qed.

Lemma select_without {A} (p gone : A -> bool) table : (forall r, r ∈ table -> p r = true -> gone r = false) ->
  select_where p (without gone table) = select_where p table.
Proof.
  unfold select_where, without. induction table as [|r table IH]; intros H; simpl; [done|].
  destruct (gone r) eqn:E; simpl; [|by rewrite IH by (intros; apply H; [by right|done])].
  destruct (p r) eqn:Ep; [by rewrite H in E by (done || by left)|]. apply IH. intros r' Hr'. apply H. by right.
Qed.

Lemma query_without {A} (p gone : A -> bool) table : (forall r, r ∈ table -> p r = true -> gone r = false) ->
  query_row p (without gone table) = query_row p table.
Proof.
  unfold query_row, without. induction table as [|r table IH]; intros H; simpl; [done|].
  destruct (gone r) eqn:E; simpl.
  - destruct (p r) eqn:Ep; [by rewrite H in E by (done || by left)|]. apply IH. intros r' Hr'. apply H. by right.
  - destruct (p r); [done|]. apply IH. intros r' Hr'. apply H. by right.
Qed.

Lemma select_rows_app {A} (p : A -> bool) l l' : select_where p (l ++ l') = (select_where p l ++ select_where p l')%list.
Proof. apply List.filter_app. Qed.

Lemma elem_of_without {A} (gone : A -> bool) table r : r ∈ without gone table <-> r ∈ table /\ gone r = false.
Proof. unfold without. rewrite !list_elem_of_In, filter_In. by rewrite negb_true_iff. Qed.

Lemma mem_id_spec id ids : mem_id id ids = true <-> id ∈ ids.
Proof.
  unfold mem_id. rewrite existsb_exists. setoid_rewrite <- list_elem_of_In. split.
  - by intros (x & Hx & ->%bool_decide_eq_true).
  - intros H. exists id. by rewrite bool_decide_eq_true_2.
Qed.

Lemma mem_id_false id ids : mem_id id ids = false <-> id ∉ ids.
Proof. rewrite <- mem_id_spec. by destruct (mem_id id ids). Qed.

(** ** Rows of one scan *)

Lemma children_own {A B} (f : A -> B) id l : select_where (fun r => bool_decide (ch_scan r = id)) (children f id l) = children f id l.
Proof.
  unfold select_where, children. apply forallb_filter_id, forallb_forall. intros r Hr%list_elem_of_In.
  apply elem_of_lookup_imap_1 in Hr as (i & x & -> & _). simpl. by apply bool_decide_eq_true.
Qed.

Lemma children_other {A B} (f : A -> B) id id' l : id' <> id -> select_where (fun r => bool_decide (ch_scan r = id')) (children f id l) = [].
Proof.
  intros Hne. apply select_where_none. intros r Hr. apply elem_of_lookup_imap_1 in Hr as (i & x & -> & _). simpl. by apply bool_decide_eq_false.
Qed.

Lemma children_sorted {A B} (f : A -> B) id l : StronglySorted (fun x y => (ch_ordinal y <? ch_ordinal x) = false) (children f id l).
Proof.
  unfold children. assert (G : forall k, StronglySorted (fun x y => (ch_ordinal y <? ch_ordinal x) = false)
    (imap (fun i x => mkChild id (Z.of_nat (k + i)) (f x)) l)); [|exact (G O)].
  induction l as [|x l IH]; intros k; simpl; constructor.
  - assert (E : imap ((fun i x => mkChild id (Z.of_nat (k + i)) (f x)) ∘ S) l = imap (fun i x => mkChild id (Z.of_nat (S k + i)) (f x)) l).
    { apply imap_ext. intros i y _. unfold compose. by rewrite Nat.add_succ_r. }
    rewrite E. apply IH.
  - apply Forall_forall. intros r Hr. apply elem_of_lookup_imap_1 in Hr as (i & y & -> & _). apply Z.ltb_ge. unfold compose, ch_ordinal. lia.
Qed.

Lemma load_children_saved {A B} (f : A -> B) id l table : (forall r, r ∈ table -> ch_scan r <> id) ->
  load_children id (table ++ children f id l) = f <$> l.
Proof.
  intros H. unfold load_children. rewrite select_rows_app, children_own, (select_where_none _ table).
  - simpl. rewrite sort_slice_sorted by apply children_sorted. unfold children. rewrite fmap_imap.
    induction l as [|x l IH]; [done|]. simpl. f_equal. exact IH.
  - intros r Hr. apply bool_decide_eq_false. by apply H.
Qed.

Lemma load_children_other {A B} (f : A -> B) id id' l table : id' <> id ->
  load_children id' (table ++ children f id l) = load_children id' table.
Proof. intros H. unfold load_children. by rewrite select_rows_app, children_other, app_nil_r. Qed.

(** ** Reading back *)

Lemma stored_time_format t : year_ok t -> stored_time (formatTime t) = Ok t.
Proof. intros H. unfold stored_time. by rewrite parseTime_formatTime. Qed.

Lemma stored_optional_format t : (forall x, t = Some x -> year_ok x) -> parseOptionalTime (formatTime <$> t) = Ok t.
Proof. intros H. destruct t as [t|]; [|done]. simpl. rewrite stored_time_format by (by apply H). done. Qed.

Lemma load_each_fmap {A B C} (read : B -> result C) (f : A -> B) (g : A -> C) l :
  (forall x, x ∈ l -> read (f x) = Ok (g x)) -> load_each read (f <$> l) = Ok (g <$> l).
Proof.
  induction l as [|x l IH]; intros H; [done|]. simpl. rewrite H by (by left). simpl.
  fold (f <$> l). rewrite IH by (intros; apply H; by right). done.
Qed.

(** * Deletion *)

(** A match and the observation it refers to belong to one scan. *)
Definition matches_local (db : ScanDb) : Prop := forall m o, m ∈ sdb_matches db -> o ∈ sdb_observations db ->
  Match_ObservationID (mc_value (ch_value m)) = Observation_ID (oc_value (ch_value o)) -> ch_scan m = ch_scan o.

(** The scan [id] reads the same in both databases. *)
Record reads_same (id : string) (db db' : ScanDb) : Prop := {
  same_row : query_row (scan_is id) (sdb_scans db') = query_row (scan_is id) (sdb_scans db);
  same_targets : load_children id (sdb_targets db') = load_children id (sdb_targets db);
  same_ports : load_children id (sdb_ports db') = load_children id (sdb_ports db);
  same_observations : load_children id (sdb_observations db') = load_children id (sdb_observations db);
  same_findings : load_children id (sdb_findings db') = load_children id (sdb_findings db);
  same_matches : load_children id (sdb_matches db') = load_children id (sdb_matches db);
  same_checkpoints : select_where (fun r => bool_decide (sc_scan r = id)) (sdb_checkpoints db') = select_where (fun r => bool_decide (sc_scan r = id)) (sdb_checkpoints db);
  same_alerts : mem_id id (sdb_long_alerts db') = mem_id id (sdb_long_alerts db) }.

Lemma reads_same_Get id db db' : reads_same id db db' -> Get id db' = Get id db.
Proof.
  intros [E1 E2 E3 E4 E5 E6 E7 E8]. unfold Get, loadTargets, loadPorts, loadObservations, loadFindings, loadCVEMatches, loadCheckpoints.
  by rewrite E1, E2, E3, E4, E5, E6, E7, E8.
Qed.

Lemma delete_keeps_children {A} (p : ScanRow -> bool) db id (table : list (Child A)) :
  (forall r, r ∈ sdb_scans db -> sr_id r = id -> p r = false) ->
  load_children id (without (fun r => mem_id (ch_scan r) (sr_id <$> select_where p (sdb_scans db))) table) = load_children id table.
Proof.
  intros H. unfold load_children. rewrite select_without; [done|]. intros r _ Hr%bool_decide_eq_true. apply mem_id_false.
  intros (s & Es & [Hs Hp]%elem_of_select_where)%list_elem_of_fmap. by rewrite H in Hp by (done || congruence).
Qed.

Lemma delete_scans_other p db id : matches_local db -> (forall r, r ∈ sdb_scans db -> sr_id r = id -> p r = false) ->
  reads_same id db (delete_scans p db).
Proof.
  intros Hl H. assert (Hn : id ∉ sr_id <$> select_where p (sdb_scans db)).
  { intros (s & Es & [Hs Hp]%elem_of_select_where)%list_elem_of_fmap. by rewrite H in Hp. }
  constructor; simpl; try by apply delete_keeps_children.
  - apply query_without. intros r Hr Ei%bool_decide_eq_true. by apply H.
  - unfold load_children. rewrite select_without; [done|]. intros m Hm Ei%bool_decide_eq_true. apply orb_false_iff. split; [apply mem_id_false; by rewrite Ei|].
    apply mem_id_false. intros (o & Eo & [Ho Hp]%elem_of_select_where)%list_elem_of_fmap. apply mem_id_spec in Hp.
    rewrite <- (Hl m o Hm Ho Eo), Ei in Hp. done.
  - rewrite select_without; [done|]. intros r _ Ei%bool_decide_eq_true. apply mem_id_false. by rewrite Ei.
  - done.
Qed.

(** A deleted scan leaves no row behind. *)
Lemma delete_scans_gone p db id : (exists r, r ∈ sdb_scans db /\ sr_id r = id) -> (forall r, r ∈ sdb_scans db -> sr_id r = id -> p r = true) ->
  let db' := delete_scans p db in
  (forall r, r ∈ sdb_scans db' -> sr_id r <> id) /\ (forall r, r ∈ sdb_targets db' -> ch_scan r <> id) /\ (forall r, r ∈ sdb_ports db' -> ch_scan r <> id) /\
  (forall r, r ∈ sdb_observations db' -> ch_scan r <> id) /\ (forall r, r ∈ sdb_findings db' -> ch_scan r <> id) /\
  (forall r, r ∈ sdb_matches db' -> ch_scan r <> id) /\ (forall r, r ∈ sdb_checkpoints db' -> sc_scan r <> id).
Proof.
  intros (r0 & Hr0 & E0) H db'. assert (Hin : mem_id id (sr_id <$> select_where p (sdb_scans db)) = true).
  { apply mem_id_spec, list_elem_of_fmap. exists r0. split; [done|]. apply elem_of_select_where. split; [done|]. by apply H. }
  subst db'. simpl. split_and!; intros r [Hr Hg]%elem_of_without E; rewrite ?E, ?Hin in Hg; try done. by rewrite (H r Hr E) in Hg.
Qed.

(** Every child row belongs to a scan. *)
Record children_owned (db : ScanDb) : Prop := {
  own_targets : forall r, r ∈ sdb_targets db -> ch_scan r ∈ sr_id <$> sdb_scans db;
  own_ports : forall r, r ∈ sdb_ports db -> ch_scan r ∈ sr_id <$> sdb_scans db;
  own_observations : forall r, r ∈ sdb_observations db -> ch_scan r ∈ sr_id <$> sdb_scans db;
  own_findings : forall r, r ∈ sdb_findings db -> ch_scan r ∈ sr_id <$> sdb_scans db;
  own_matches : forall r, r ∈ sdb_matches db -> ch_scan r ∈ sr_id <$> sdb_scans db;
  own_checkpoints : forall r, r ∈ sdb_checkpoints db -> sc_scan r ∈ sr_id <$> sdb_scans db }.

Lemma delete_scan_gone id db : children_owned db ->
  let db' := delete_scans (fun r => bool_decide (sr_id r = id)) db in
  (forall r, r ∈ sdb_scans db' -> sr_id r <> id) /\ (forall r, r ∈ sdb_targets db' -> ch_scan r <> id) /\ (forall r, r ∈ sdb_ports db' -> ch_scan r <> id) /\
  (forall r, r ∈ sdb_observations db' -> ch_scan r <> id) /\ (forall r, r ∈ sdb_findings db' -> ch_scan r <> id) /\
  (forall r, r ∈ sdb_matches db' -> ch_scan r <> id) /\ (forall r, r ∈ sdb_checkpoints db' -> sc_scan r <> id).
Proof.
  intros H db'. destruct (decide (id ∈ sr_id <$> sdb_scans db)) as [(r & -> & Hr)%list_elem_of_fmap|Hn].
  - apply delete_scans_gone; [by exists r|]. intros r' _ E. by apply bool_decide_eq_true.
  - destruct H as [H1 H2 H3 H4 H5 H6]. subst db'. simpl. split_and!; intros r [Hr _]%elem_of_without E; apply Hn; rewrite <- E; auto.
    apply list_elem_of_fmap. by exists r.
Qed.

(** * Saving *)

Definition times_ok (scan : Scan) : Prop :=
  year_ok (Scan_CreatedAt scan) /\ (forall t, Scan_StartedAt scan = Some t -> year_ok t) /\ (forall t, Scan_CompletedAt scan = Some t -> year_ok t) /\
  (forall t, Scan_WindowEnd scan = Some t -> year_ok t) /\
  (forall o, o ∈ Scan_Observations scan -> year_ok (Observation_ObservedAt o)) /\
  (forall f, f ∈ Scan_Findings scan -> year_ok (Finding_ObservedAt f) /\ forall t, Finding_WorkflowUpdatedAt f = Some t -> year_ok t) /\
  (forall m, m ∈ Scan_CVEMatches scan -> year_ok (Match_MatchedAt m)) /\
  (forall c, c ∈ Scan_Checkpoints scan -> year_ok (ScanCheckpoint_CompletedAt c)).

(** What a saved scan reads back as: findings without a status are open,
    checkpoints are sorted, and the long-run alert is the one on record. *)
Definition stored_form (db : ScanDb) (scan : Scan) : Scan :=
  mkScan (Scan_ID scan) (Scan_Name scan) (Scan_Targets scan) (Scan_Ports scan) (Scan_Status scan) (Scan_Error scan) (Scan_Observations scan)
    ((fun f => finding_with_status f (defaultFindingStatus (Finding_Status f)) (Finding_AssignedTo f)) <$> Scan_Findings scan) (Scan_CVEMatches scan)
    (Scan_TotalChecks scan) (Scan_DoneChecks scan) (Scan_CreatedAt scan) (Scan_StartedAt scan) (Scan_CompletedAt scan) (Scan_ScopePolicyID scan)
    (Scan_MaxConcurrent scan) (Scan_ScanPolicyID scan)
    (sort_slice (fun a b => checkpoint_before (checkpoint_row "" a) (checkpoint_row "" b)) (Scan_Checkpoints scan))
    (Scan_ActiveSeconds scan) (Scan_WindowEnd scan) (mem_id (Scan_ID scan) (sdb_long_alerts db)) (Scan_RateLimitPerSecond scan).

Lemma load_checkpoints_saved id l table : (forall r, r ∈ table -> sc_scan r <> id) -> (forall c, c ∈ l -> year_ok (ScanCheckpoint_CompletedAt c)) ->
  (fun r => mkScanCheckpoint (sc_address r) (sc_port r) (default ZeroTime (parseTime (sc_completed_at r)))) <$>
    sort_slice checkpoint_before (select_where (fun r => bool_decide (sc_scan r = id)) (table ++ (checkpoint_row id <$> l))) =
  sort_slice (fun a b => checkpoint_before (checkpoint_row "" a) (checkpoint_row "" b)) l.
Proof.
  intros H Ht. rewrite select_rows_app, (select_where_none _ table) by (intros r Hr; apply bool_decide_eq_false; by apply H). simpl.
  replace (select_where _ (checkpoint_row id <$> l)) with (checkpoint_row id <$> l).
  - rewrite sort_slice_fmap, <- list_fmap_compose. rewrite <- (list_fmap_id (sort_slice (fun a b => checkpoint_before (checkpoint_row "" a) (checkpoint_row "" b)) l)).
    apply list_fmap_ext. intros i c Hc%list_elem_of_lookup_2. simpl. apply elem_of_sort_slice in Hc. rewrite parseTime_formatTime by (by apply Ht). by destruct c.
  - symmetry. unfold select_where. apply forallb_filter_id, forallb_forall. intros r Hr%list_elem_of_In.
    apply list_elem_of_fmap in Hr as (c & -> & _). by apply bool_decide_eq_true.
Qed.

Lemma Save_runs Sum256 scan db db' : Save Sum256 scan db = (Ok tt, db') ->
  let db1 := delete_scans (fun r => bool_decide (sr_id r = Scan_ID scan)) db in
  save_constraints scan db1 = true /\
  exists assets assets', upsertScanAssets Sum256 scan (sdb_assets db) = Ok assets /\ updateAssetServiceHistory scan assets = Ok assets' /\
    db' = set_scan_assets assets' (insert_scan scan db1).
Proof.
  unfold Save, transaction. cbv zeta. destruct (save_constraints scan _); simpl; [|done].
  destruct (upsertScanAssets Sum256 scan (sdb_assets db)) as [a|]; simpl; [|done].
  destruct (updateAssetServiceHistory scan a) as [a'|] eqn:E; simpl; [|done]. intros [= <-]. split; [done|]. by exists a, a'.
Qed.

Lemma Save_other Sum256 scan db db' id : matches_local db -> Save Sum256 scan db = (Ok tt, db') -> id <> Scan_ID scan -> Get id db' = Get id db.
Proof.
  intros Hl Hs Hne. apply Save_runs in Hs as (_ & a & a' & _ & _ & ->).
  assert (R : reads_same id db (delete_scans (fun r => bool_decide (sr_id r = Scan_ID scan)) db)).
  { apply delete_scans_other; [done|]. intros r _ <-. by apply bool_decide_eq_false. }
  apply reads_same_Get. destruct R as [R1 R2 R3 R4 R5 R6 R7 R8]. constructor; simpl; try (rewrite load_children_other by done; done).
  - rewrite <- R1. simpl. rewrite query_row_snoc. destruct (query_row _ _); [done|]. unfold query_row; simpl. unfold scan_is. by rewrite bool_decide_eq_false_2.
  - rewrite <- R7. simpl. rewrite select_rows_app. rewrite (select_where_none _ (checkpoint_row _ <$> _)); [by rewrite app_nil_r|].
    intros r (c & -> & _)%list_elem_of_fmap. by apply bool_decide_eq_false.
  - done.
Qed.

Lemma read_finding_cols f : year_ok (Finding_ObservedAt f) -> (forall t, Finding_WorkflowUpdatedAt f = Some t -> year_ok t) ->
  read_finding (finding_cols f) = Ok (finding_with_status f (defaultFindingStatus (Finding_Status f)) (Finding_AssignedTo f)).
Proof.
  intros H1 H2. unfold read_finding, finding_cols. simpl. rewrite stored_time_format by done. simpl.
  by rewrite stored_optional_format by done.
Qed.

Lemma save_reads Sum256 scan db db' : children_owned db -> times_ok scan -> Save Sum256 scan db = (Ok tt, db') ->
  Get (Scan_ID scan) db' = Ok (stored_form db scan).
Proof.
  intros Ho Ht Hs. apply Save_runs in Hs as (_ & a & a' & _ & _ & ->).
  destruct (delete_scan_gone (Scan_ID scan) db Ho) as (G1 & G2 & G3 & G4 & G5 & G6 & G7).
  destruct Ht as (T1 & T2 & T3 & T4 & T5 & T6 & T7 & T8).
  unfold Get. replace (query_row _ _) with (Some (scan_row scan)).
  2: { symmetry. simpl. rewrite query_row_snoc. replace (query_row _ (without _ _)) with (@None ScanRow).
       - unfold query_row; simpl. unfold scan_is. by rewrite bool_decide_eq_true_2.
       - symmetry. apply query_row_None. intros r Hr. apply bool_decide_eq_false. by apply G1. }
  unfold loadTargets, loadPorts, loadObservations, loadFindings, loadCVEMatches, loadCheckpoints.
  simpl. rewrite stored_time_format, !stored_optional_format by done. simpl.
  rewrite !load_children_saved by done.
  rewrite (load_each_fmap read_observation observation_cols id) by (intros o Hm; unfold read_observation; simpl; rewrite stored_time_format by (by apply T5); by destruct o).
  rewrite (load_each_fmap read_finding finding_cols _) by (intros f Hm; apply read_finding_cols; by apply T6). simpl.
  rewrite (load_each_fmap read_match match_cols id) by (intros m Hm; unfold read_match; simpl; rewrite stored_time_format by (by apply T7); by destruct m). simpl.
  rewrite load_checkpoints_saved by done. unfold stored_form. by rewrite !list_fmap_id.
Qed.

(** C25: A scan reads back as it was saved, and saving it disturbs no other.
    When a scan whose times lie in the years 0 to 9999 is saved, reading its
    identifier gives the scan itself, every target, port, observation, finding,
    match and checkpoint included (with its findings' default status, its
    checkpoints sorted and the recorded long-run alert), and every other scan
    reads exactly as before. *)
Theorem save_get Sum256 scan db db' : children_owned db -> matches_local db -> times_ok scan -> Save Sum256 scan db = (Ok tt, db') ->
  Get (Scan_ID scan) db' = Ok (stored_form db scan) /\ forall id, id <> Scan_ID scan -> Get id db' = Get id db.
Proof. intros Ho Hl Ht Hs. split; [by eapply save_reads|]. intros id Hid. by eapply Save_other. Qed.

Definition observation_id (r : Child ObservationCols) : string := Observation_ID (oc_value (ch_value r)).
Definition finding_id (r : Child FindingCols) : string := Finding_ID (fc_value (ch_value r)).

Record scan_store_ok (db : ScanDb) : Prop := {
  store_ids : NoDup (sr_id <$> sdb_scans db);
  store_observations : NoDup (observation_id <$> sdb_observations db);
  store_findings : NoDup (finding_id <$> sdb_findings db);
  store_owned : children_owned db;
  store_matches : forall m, m ∈ sdb_matches db -> exists o, o ∈ sdb_observations db /\ observation_id o = Match_ObservationID (mc_value (ch_value m)) /\ ch_scan o = ch_scan m;
  store_exceptions : forall e, e ∈ sdb_exceptions db -> ex_finding e ∈ finding_id <$> sdb_findings db;
  store_inventory : inventory_ok (sdb_assets db) }.

Lemma store_local db : scan_store_ok db -> matches_local db.
Proof.
  intros H m o Hm Ho E. destruct (store_matches db H m Hm) as (o' & Ho' & E' & <-). f_equal.
  apply (key_inj observation_id (sdb_observations db)); [apply H|done|done|]. unfold observation_id in *. congruence.
Qed.

(** ** Deleting keeps the invariant *)

Lemma kept_owner {A} p db (table : list (Child A)) r :
  (forall r, r ∈ table -> ch_scan r ∈ sr_id <$> sdb_scans db) ->
  r ∈ without (fun r => mem_id (ch_scan r) (sr_id <$> select_where p (sdb_scans db))) table -> ch_scan r ∈ sr_id <$> without p (sdb_scans db).
Proof.
  intros H [Hr Hg]%elem_of_without. apply mem_id_false in Hg. apply H in Hr as (s & E & Hs)%list_elem_of_fmap.
  apply list_elem_of_fmap. exists s. split; [done|]. apply elem_of_without. split; [done|]. apply not_true_iff_false. intros Hp. apply Hg.
  apply list_elem_of_fmap. exists s. split; [done|]. by apply elem_of_select_where.
Qed.

Lemma delete_scans_ok p db : scan_store_ok db -> scan_store_ok (delete_scans p db).
Proof.
  intros [H1 H2 H3 [O1 O2 O3 O4 O5 O6] H5 H6 H7]. constructor; simpl; try done; try (by apply NoDup_key_filter).
  - constructor; simpl; intros r Hr; try (by apply (kept_owner p db _ r) in Hr).
    + apply elem_of_without in Hr as [Hr Hg]. apply orb_false_iff in Hg as [Hg _]. apply (kept_owner p db (sdb_matches db)); [done|by apply elem_of_without].
    + apply elem_of_without in Hr as [Hr Hg]. apply (kept_owner p db ((fun r => mkChild (sc_scan r) 0 tt) <$> sdb_checkpoints db) (mkChild (sc_scan r) 0 tt)).
      * intros x (c & -> & Hc)%list_elem_of_fmap. by apply O6.
      * apply elem_of_without. split; [|done]. apply list_elem_of_fmap. by exists r.
  - intros m [Hm Hg]%elem_of_without. apply orb_false_iff in Hg as [Hg _]. destruct (H5 m Hm) as (o & Ho & E & Es). exists o.
    split; [|done]. apply elem_of_without. by rewrite Es.
  - intros e [He Hg]%elem_of_without. apply mem_id_false in Hg. destruct (proj1 (list_elem_of_fmap _ _ _) (H6 e He)) as (f & E & Hf).
    apply list_elem_of_fmap. exists f. split; [done|]. apply elem_of_without. split; [done|]. apply not_true_iff_false. intros Hc. apply Hg.
    apply list_elem_of_fmap. exists f. split; [done|]. by apply elem_of_select_where.
Qed.

(** ** Saving keeps the invariant *)

(** A scan's matches refer to its own observations. *)
Definition scan_local (scan : Scan) : Prop := forall m, m ∈ Scan_CVEMatches scan -> Match_ObservationID m ∈ Observation_ID <$> Scan_Observations scan.

Lemma elem_of_children {A B} (f : A -> B) id l r : r ∈ children f id l -> ch_scan r = id /\ exists x, x ∈ l /\ ch_value r = f x.
Proof. intros Hr. apply elem_of_lookup_imap_1 in Hr as (i & x & -> & Hx). split; [done|]. exists x. split; [by eapply list_elem_of_lookup_2|done]. Qed.

Lemma children_values {A B C} (f : A -> B) (g : B -> C) id l : (fun r => g (ch_value r)) <$> children f id l = (fun x => g (f x)) <$> l.
Proof. unfold children. rewrite fmap_imap. induction l as [|x l IH]; [done|]. simpl. f_equal. exact IH. Qed.

Lemma owned_after_insert {A B} (f : A -> B) (scan : Scan) (l : list A) (table : list (Child B)) scans r :
  (forall r, r ∈ table -> ch_scan r ∈ sr_id <$> scans) -> r ∈ (table ++ children f (Scan_ID scan) l)%list -> ch_scan r ∈ sr_id <$> (scans ++ [scan_row scan])%list.
Proof.
  intros H Hr. rewrite fmap_app. apply elem_of_app in Hr as [Hr|Hr]; apply elem_of_app; [left; by apply H|right].
  apply elem_of_children in Hr as [-> _]. by apply list_elem_of_singleton.
Qed.

Lemma Save_ok Sum256 scan db : (forall text, String.length (Sum256 text) = 32%nat) -> scan_local scan -> scan_store_ok db ->
  scan_store_ok (Save Sum256 scan db).2.
Proof.
  intros Hsum Hloc H. destruct (Save Sum256 scan db) as [[[]|e] db'] eqn:Es.
  2: { unfold Save, transaction in Es. revert Es. case_match; intros [= _ <-]. done. }
  simpl. pose proof (delete_scans_ok (fun r => bool_decide (sr_id r = Scan_ID scan)) db H) as [H1 H2 H3 [O1 O2 O3 O4 O5 O6] H5 H6 H7].
  destruct (delete_scan_gone (Scan_ID scan) db (store_owned db H)) as (G1 & _ & _ & G4 & _ & G6 & _).
  apply Save_runs in Es as (Hc & a & a' & Ea & Ea' & ->). set (db1 := delete_scans _ db) in *.
  unfold save_constraints in Hc. rewrite !andb_true_iff in Hc. destruct Hc as (((((((_ & _) & C3) & C4) & _) & _) & _) & _).
  apply bool_decide_eq_true in C3, C4. rewrite Permutation_app_comm in C3, C4.
  assert (Eo : observation_id <$> children observation_cols (Scan_ID scan) (Scan_Observations scan) = Observation_ID <$> Scan_Observations scan) by exact (children_values observation_cols (fun c => Observation_ID (oc_value c)) _ _).
  assert (Ef : finding_id <$> children finding_cols (Scan_ID scan) (Scan_Findings scan) = Finding_ID <$> Scan_Findings scan) by exact (children_values finding_cols (fun c => Finding_ID (fc_value c)) _ _).
  constructor; simpl.
  - rewrite fmap_app, NoDup_app. split; [done|]. split; [|apply NoDup_singleton].
    intros x (r & -> & Hr)%list_elem_of_fmap. simpl. rewrite list_elem_of_singleton. by apply G1.
  - by rewrite fmap_app, Eo.
  - by rewrite fmap_app, Ef.
  - constructor; simpl; intros r Hr; try (by eapply owned_after_insert; [|exact Hr]).
    rewrite fmap_app. apply elem_of_app in Hr as [Hr|Hr]; apply elem_of_app; [left; by apply O6|right].
    apply list_elem_of_fmap in Hr as (c & -> & _). by apply list_elem_of_singleton.
  - intros m [Hm|Hm]%elem_of_app.
    + destruct (H5 m Hm) as (o & Ho & E & Eo'). exists o. split; [by apply elem_of_app; left|done].
    + apply elem_of_children in Hm as [Em (x & Hx & Ev)]. rewrite Em, Ev. simpl. apply Hloc in Hx. rewrite <- Eo in Hx.
      apply list_elem_of_fmap in Hx as (o & -> & Ho). exists o. split; [by apply elem_of_app; right|]. split; [done|].
      by apply elem_of_children in Ho as [-> _].
  - intros e He. rewrite fmap_app. apply elem_of_app. left. by apply H6.
  - apply (saveScanInventory_ok Sum256 scan (sdb_assets db)); [done|by apply store_inventory|].
    unfold saveScanInventory. by rewrite Ea.
Qed.

(** ** The other operations *)

Lemma set_scans_ok rows db : scan_store_ok db -> sr_id <$> rows = sr_id <$> sdb_scans db -> scan_store_ok (set_scans rows db).
Proof. intros [H1 H2 H3 [O1 O2 O3 O4 O5 O6] H5 H6 H7] E. constructor; simpl; try done; [by rewrite E|]. by constructor; simpl; rewrite E. Qed.

(** Alerts, settings and the inventory are apart from the scan tables. *)
Lemma set_others_ok alerts days assets db : scan_store_ok db -> inventory_ok assets ->
  scan_store_ok (set_scan_assets assets (set_retention_days days (set_long_alerts alerts db))).
Proof. intros [H1 H2 H3 [O1 O2 O3 O4 O5 O6] H5 H6 H7] Ha. by constructor. Qed.

Lemma set_findings_ok rows db : scan_store_ok db -> finding_id <$> rows = finding_id <$> sdb_findings db ->
  (forall r, r ∈ rows -> exists r0, r0 ∈ sdb_findings db /\ ch_scan r = ch_scan r0) -> scan_store_ok (set_findings rows db).
Proof.
  intros [H1 H2 H3 [O1 O2 O3 O4 O5 O6] H5 H6 H7] E Hr. constructor; simpl; try done; [by rewrite E| |by rewrite E].
  constructor; simpl; try done. intros r Hin. destruct (Hr r Hin) as (r0 & Hr0 & ->). by apply O4.
Qed.

Lemma set_exceptions_ok rows db : scan_store_ok db -> (forall e, e ∈ rows -> ex_finding e ∈ finding_id <$> sdb_findings db) -> scan_store_ok (set_exceptions rows db).
Proof. intros [H1 H2 H3 [O1 O2 O3 O4 O5 O6] H5 H6 H7] He. by constructor; simpl. Qed.

Lemma update_exceptions_ok p f db : scan_store_ok db -> (forall e, ex_finding (f e) = ex_finding e) ->
  scan_store_ok (set_exceptions (update_where p f (sdb_exceptions db)) db).
Proof.
  intros H Hf. apply set_exceptions_ok; [done|]. intros e (e0 & He0 & ->)%elem_of_update_where.
  destruct (p e0); [rewrite Hf|]; by apply (store_exceptions db H).
Qed.

Lemma UpdateFindingWorkflow_ok id s a now db : scan_store_ok db -> scan_store_ok (UpdateFindingWorkflow id s a now db).2.
Proof.
  intros H. unfold UpdateFindingWorkflow, transaction. destruct (negb _); [done|]. destruct (_ && _); [done|]. destruct (_ =? 0); [done|]. simpl.
  apply set_findings_ok; [done|by apply update_where_key|]. intros r (r0 & Hr0 & ->)%elem_of_update_where. exists r0. split; [done|]. by case_match.
Qed.

(** The operations on the scan tables and the inventory beside them. *)
Inductive ScanOp :=
| SaveScan (scan : Scan)
| MarkAlert (id : string)
| Reconcile (now : Time)
| SetWorkflow (id : string) (status : FindingStatus) (assignedTo : string) (now : Time)
| AddException (v : FindingException)
| ReviewException (id : string) (status : FindingExceptionStatus) (admin : string)
| RemindException (id : string) (now : Time)
| SetRetention (days : Z)
| Purge (now : Time)
| OnAssets (op : AssetOp).

Definition forget {S A} (m : st S A) : st S unit := fun s => match m s with (Ok _, s') => (Ok tt, s') | (Err e, s') => (Err e, s') end.

Definition scan_step (Sum256 : string -> string) (julian_seconds : string -> string -> Z) (op : ScanOp) : st ScanDb unit :=
  match op with
  | SaveScan scan => Save Sum256 scan
  | MarkAlert id => MarkScanLongAlertSent id
  | Reconcile now => ReconcileInterrupted julian_seconds now
  | SetWorkflow id status assignedTo now => UpdateFindingWorkflow id status assignedTo now
  | AddException v => SaveFindingException v
  | ReviewException id status admin => ReviewFindingException id status admin
  | RemindException id now => MarkExceptionReminded id now
  | SetRetention days => SaveEvidenceRetentionSettings days
  | Purge now => forget (PurgeExpiredEvidence now)
  | OnAssets op => fun db => let '(r, assets) := asset_step Sum256 op (sdb_assets db) in (r, set_scan_assets assets db)
  end.

(** The scans that are saved have matches for their own observations. *)
Definition op_local (op : ScanOp) : Prop := match op with SaveScan scan => scan_local scan | _ => True end.

Lemma scan_step_ok Sum256 julian_seconds op db : (forall text, String.length (Sum256 text) = 32%nat) -> op_local op -> scan_store_ok db ->
  scan_store_ok (scan_step Sum256 julian_seconds op db).2.
Proof.
  intros Hsum Hop H. destruct op as [scan|id|now|id s a now|v|id s admin|id now|days|now|op]; simpl in *.
  - by apply Save_ok.
  - case_match; [done|]. by apply (set_others_ok _ (sdb_retention_days db) (sdb_assets db) db H), store_inventory.
  - apply set_scans_ok; [done|]. by apply update_where_key.
  - by apply UpdateFindingWorkflow_ok.
  - unfold SaveFindingException, transaction. destruct (_ || _); [done|]. destruct (finding_scan_status _ db) eqn:Ef; [|done].
    destruct (negb _); [done|]. destruct (_ || _); [done|]. simpl. apply set_exceptions_ok; [done|].
    intros e [He|He%list_elem_of_singleton]%elem_of_app; [by apply (store_exceptions db H)|]. subst e. simpl.
    unfold finding_scan_status in Ef. destruct (query_row _ (sdb_findings db)) as [f|] eqn:Eq; [|done].
    apply query_row_Some in Eq as [Hf Hp%bool_decide_eq_true]. apply list_elem_of_fmap. by exists f.
  - unfold ReviewFindingException, transaction. destruct (_ && _); [done|]. destruct (_ =? 0); [done|]. destruct (negb _); [done|]. simpl.
    by apply update_exceptions_ok.
  - by apply update_exceptions_ok.
  - unfold SaveEvidenceRetentionSettings. destruct (_ || _); [done|]. by apply (set_others_ok (sdb_long_alerts db) _ (sdb_assets db) db H), store_inventory.
  - unfold forget, PurgeExpiredEvidence. simpl. by apply delete_scans_ok.
  - pose proof (asset_step_ok Sum256 op (sdb_assets db) Hsum (store_inventory db H)) as K.
    destruct (asset_step Sum256 op (sdb_assets db)) as [r assets].
    by apply (set_others_ok (sdb_long_alerts db) (sdb_retention_days db) assets db H).
Qed.

Definition empty_scans (users active_users cves : gset string) : ScanDb :=
  mkScanDb [] [] [] [] [] [] [] [] [] 365 cves users active_users empty_inventory.

Lemma empty_scans_ok users active cves : scan_store_ok (empty_scans users active cves).
Proof.
  constructor; simpl; try apply NoDup_nil_2; try (intros r Hr; by apply not_elem_of_nil in Hr); [|apply empty_inventory_ok].
  constructor; simpl; intros r Hr; by apply not_elem_of_nil in Hr.
Qed.


(** * Recovery *)

(** After a restart nothing is left queued or running. Recovery pauses
    every interrupted scan of a schedule, without start and completion times so
    that it can resume from its checkpoints, with the seconds it ran added; it
    fails every other interrupted scan at the current time; and it changes no
    other scan and no evidence. *)
Theorem reconcile_recovers julian_seconds now db :
  let '(r, db') := ReconcileInterrupted julian_seconds now db in
  r = Ok tt /\ (forall s, s ∈ sdb_scans db' -> interrupted s = false) /\
  Forall2 (fun s s' => if interrupted s
    then sr_id s' = sr_id s /\ sr_done s' = sr_done s /\
      (if bool_decide (sr_scan_policy_id s = "") then sr_status s' = StatusFailed /\ sr_completed_at s' = Some (formatTime now)
       else sr_status s' = StatusPaused /\ sr_started_at s' = None /\ sr_completed_at s' = None /\ sr_active_seconds s <= sr_active_seconds s')
    else s' = s) (sdb_scans db) (sdb_scans db') /\
  sdb_observations db' = sdb_observations db /\ sdb_findings db' = sdb_findings db /\ sdb_checkpoints db' = sdb_checkpoints db /\
  sdb_targets db' = sdb_targets db /\ sdb_ports db' = sdb_ports db.
Proof.
  simpl. split; [done|]. split; [|split; [|done]].
  - intros s (s0 & _ & ->)%elem_of_update_where. destruct (interrupted s0) eqn:E; [|done].
    unfold interrupted, reconcile_row. by destruct (bool_decide (sr_scan_policy_id s0 = "")).
  - unfold update_where. induction (sdb_scans db) as [|s l IH]; simpl; constructor; [|exact IH].
    destruct (interrupted s); [|done]. unfold reconcile_row. case_bool_decide as E; simpl; [done|]. split_and!; try done.
    destruct (bool_decide _); [|lia]. destruct (sr_started_at s); lia.
Qed.

(** * Retention *)

(** An exception that still holds its finding's evidence: approved, and
    open-ended or running. *)
Definition exception_holds (now : string) (e : ExceptionRow) : Prop :=
  ex_status e = ExceptionApproved /\ forall expires, ex_expires_at e = Some expires -> str_ltb now expires = true.

Lemma exception_active_spec now e : exception_active now e = true <-> exception_holds now e.
Proof.
  unfold exception_active, exception_holds. rewrite andb_true_iff, bool_decide_eq_true. destruct (ex_expires_at e); [|naive_solver].
  split; intros [H1 H2]; (split; [done|]); [by intros ? [= <-]|by apply H2].
Qed.

(** The scan [r] has a finding under an approved exception that has not expired. *)
Definition evidence_held (now : string) (db : ScanDb) (r : ScanRow) : Prop :=
  exists f e, f ∈ sdb_findings db /\ ch_scan f = sr_id r /\ e ∈ sdb_exceptions db /\ ex_finding e = finding_id f /\ exception_holds now e.
(** The scan [r] ended before the retention period. *)
Definition retention_over (now : Time) (db : ScanDb) (r : ScanRow) : Prop :=
  exists completed, sr_completed_at r = Some completed /\ str_ltb completed (formatTime (AddDays utc_location now (- sdb_retention_days db))) = true.

Lemma held_spec now db r :
  existsb (fun f => bool_decide (ch_scan f = sr_id r) &&
    existsb (fun e => bool_decide (ex_finding e = Finding_ID (fc_value (ch_value f))) && exception_active now e) (sdb_exceptions db)) (sdb_findings db) = true
  <-> evidence_held now db r.
Proof.
  rewrite existsb_exists. unfold evidence_held, finding_id. split.
  - intros (f & Hf%list_elem_of_In & [Es%bool_decide_eq_true He]%andb_true_iff). apply existsb_exists in He as (e & He%list_elem_of_In & [Ef%bool_decide_eq_true Ha]%andb_true_iff).
    exists f, e. by rewrite <- exception_active_spec.
  - intros (f & e & Hf & Es & He & Ef & Ha%exception_active_spec). exists f. split; [by apply list_elem_of_In|]. rewrite bool_decide_eq_true_2 by done. simpl.
    apply existsb_exists. exists e. split; [by apply list_elem_of_In|]. by rewrite bool_decide_eq_true_2.
Qed.

(** Retention removes exactly the evidence it may. A purge deletes a scan
    when and only when it ended before the retention period and none of its
    findings is under an approved exception that is open-ended or still runs;
    it reports their number; every scan that remains reads exactly as before;
    every such exception and its finding remain; and the asset inventory and
    the settings are untouched. *)
Theorem purge_exact now db : scan_store_ok db ->
  let '(r, db') := PurgeExpiredEvidence now db in
  (forall s, s ∈ sdb_scans db' <-> s ∈ sdb_scans db /\ ~ (retention_over now db s /\ ~ evidence_held (formatTime now) db s)) /\
  (exists n, r = Ok n /\ n + Z.of_nat (length (sdb_scans db')) = Z.of_nat (length (sdb_scans db))) /\
  (forall s, s ∈ sdb_scans db' -> Get (sr_id s) db' = Get (sr_id s) db) /\
  (forall e, e ∈ sdb_exceptions db -> exception_holds (formatTime now) e ->
     e ∈ sdb_exceptions db' /\ ex_finding e ∈ finding_id <$> sdb_findings db') /\
  sdb_assets db' = sdb_assets db /\ sdb_retention_days db' = sdb_retention_days db.
Proof.
  intros H. unfold PurgeExpiredEvidence. set (expired := fun r : ScanRow => _).
  assert (Hx : forall s, expired s = true <-> retention_over now db s /\ ~ evidence_held (formatTime now) db s).
  { intros s. unfold expired, retention_over. rewrite <- held_spec. destruct (sr_completed_at s) as [c|]; [|naive_solver].
    rewrite andb_true_iff, negb_true_iff, not_true_iff_false. naive_solver. }
  clearbody expired. split; [|split; [|split; [|split; [|done]]]].
  - intros s. simpl. rewrite elem_of_without, <- Hx. by rewrite not_true_iff_false.
  - eexists. split; [done|]. simpl. unfold affected, without, select_where. rewrite <- (filter_length expired (sdb_scans db)). lia.
  - intros s [Hs Hg]%elem_of_without. apply reads_same_Get, delete_scans_other; [by apply store_local|].
    intros r Hr E. by rewrite (key_inj sr_id (sdb_scans db) r s (store_ids db H) Hr Hs E).
  - intros e He Ha. destruct (proj1 (list_elem_of_fmap _ _ _) (store_exceptions db H e He)) as (f & Ef & Hf).
    assert (Hk : mem_id (ch_scan f) (sr_id <$> select_where expired (sdb_scans db)) = false).
    { apply mem_id_false. intros (s & Es & [Hs Hp]%elem_of_select_where)%list_elem_of_fmap. apply Hx in Hp as [_ Hp]. apply Hp. by exists f, e. }
    split; simpl.
    + apply elem_of_without. split; [done|]. apply mem_id_false. intros (f' & E' & [Hf' Hp']%elem_of_select_where)%list_elem_of_fmap.
      assert (f' = f) as -> by (apply (key_inj finding_id (sdb_findings db)); [apply H|done|done|]; unfold finding_id in *; congruence). congruence.
    + apply list_elem_of_fmap. exists f. split; [done|]. by apply elem_of_without.
Qed.

(** Text of the engine's progress: a running scan is saved from memory, so a
    workflow change made meanwhile is overwritten by the next save. *)
Theorem workflow_lost_at_next_save Sum256 scan f db db1 db2 now :
  scan_store_ok db -> times_ok scan -> Scan_Findings scan = [f] -> Finding_Status f = FindingOpen ->
  UpdateFindingWorkflow (Finding_ID f) FindingResolved "" now db = (Ok tt, db1) -> Save Sum256 scan db1 = (Ok tt, db2) ->
  exists scan', Get (Scan_ID scan) db2 = Ok scan' /\ Finding_Status <$> Scan_Findings scan' = [FindingOpen].
Proof.
  intros H Ht Ef Es Hu Hs. assert (H1 : scan_store_ok db1).
  { pose proof (UpdateFindingWorkflow_ok (Finding_ID f) FindingResolved "" now db H) as K. by rewrite Hu in K. }
  exists (stored_form db1 scan). split.
  - pose proof (store_owned db1 H1). by eapply save_reads.
  - simpl. rewrite Ef. simpl. by rewrite Es.
Qed.
