(* ===== verification/ScanStoreExamples.v ===== *)
(** The theorems on the asset inventory and on the store of scans at concrete
    scans and merges. *)
From Stdlib Require Import ZArith Lia String.
From stdpp Require Import base tactics list strings gmap sets.
From S2P Require Import Prelude GoStrings GoTime GoLocation NetAddr WorkerModel Sql ScanModel AssetStore AssetSafety ScanStore ScanStoreSafety.
Open Scope string_scope.
Open Scope Z_scope.

(** A hash of 32 bytes: the text, padded. *)
Fixpoint sample_pad (n : nat) (text : string) : string :=
  match n, text with
  | O, _ => ""
  | S n, EmptyString => String (Ascii.ascii_of_nat 46) (sample_pad n "")
  | S n, String c rest => String c (sample_pad n rest)
  end.
Definition sample_hash (text : string) : string := sample_pad 32 text.
Lemma sample_hash_length text : String.length (sample_hash text) = 32%nat.
Proof. unfold sample_hash. generalize 32%nat. intros n. revert text. induction n as [|n IH]; intros [|c text]; simpl; [done..| |]; by rewrite IH. Qed.
Definition host5 : string := assetIDForAddress sample_hash "10.0.0.5".
Definition host6 : string := assetIDForAddress sample_hash "10.0.0.6".

Definition sample_day (n : Z) : Time := (20454 + n) * 24 * Hour.
Definition sample_observation (id name address : string) (port : Z) (protocol : string) (at_ : Time) : ServiceObservation :=
  {| Observation_ID := id; Observation_Target := name; Observation_Address := address; Observation_Port := port; Observation_Protocol := protocol;
     Observation_Product := ""; Observation_Version := ""; Observation_Confidence := "low"; Observation_Evidence := "open"; Observation_Metadata := ∅;
     Observation_ObservedAt := at_ |}.
Definition sample_scan (id : string) (targets : list (string * string)) (os : list ServiceObservation) (at_ : Time) : Scan :=
  mkScan id id ((fun t => {| Target_Name := t.1; Target_Address := t.2; Target_GroupIDs := [] |}) <$> targets) [22; 80] StatusCompleted "" os [] [] 2 2
    at_ (Some at_) (Some at_) "" 1 "" [] 0 None false 0.

Definition first_scan : Scan := sample_scan "scan-1" [("web.example.org", "10.0.0.5"); ("10.0.0.6", "10.0.0.6")]
  [sample_observation "o1" "web.example.org" "10.0.0.5" 22 "ssh" (sample_day 0); sample_observation "o2" "web.example.org" "10.0.0.5" 80 "http" (sample_day 0);
   sample_observation "o3" "10.0.0.6" "10.0.0.6" 22 "ssh" (sample_day 0)] (sample_day 0).
(** The next day the host has a new address and its web server is down. *)
Definition second_scan : Scan := sample_scan "scan-2" [("web.example.org", "10.0.0.5"); ("web.example.org", "10.0.0.7")]
  [sample_observation "o4" "web.example.org" "10.0.0.5" 22 "ssh" (sample_day 1); sample_observation "o5" "web.example.org" "10.0.0.7" 22 "ssh" (sample_day 1)]
  (sample_day 1).

Definition after_first : AssetDb := (asset_step sample_hash (SaveInventory first_scan) empty_inventory).2.
Definition after_second : AssetDb := (asset_step sample_hash (SaveInventory second_scan) after_first).2.

Lemma after_first_ok : inventory_ok after_first.
Proof. exact (asset_step_ok sample_hash (SaveInventory first_scan) empty_inventory sample_hash_length empty_inventory_ok). Qed.
Lemma after_second_ok : inventory_ok after_second.
Proof. exact (asset_step_ok sample_hash (SaveInventory second_scan) after_first sample_hash_length after_first_ok). Qed.

Example after_second_services :
  (fun r => (sv_asset r, sv_address r, sv_port r, sv_state r, sv_last_scan_id r, sv_count r)) <$> adb_services after_second =
  [(host5, "10.0.0.5", 22, "observed", "scan-2", 2); (host5, "10.0.0.5", 80, "not_observed", "scan-2", 1);
   (host6, "10.0.0.6", 22, "observed", "scan-1", 1); (host5, "10.0.0.7", 22, "observed", "scan-2", 1)].
Proof. by vm_compute. Qed.

Definition sample_merge : AssetMergeRequest :=
  mkMergeRequest host5 host6 host5 host6 host5 host5 host5 host5.
Example after_merge_assets :
  (fun r => (as_id r, as_name r, as_address r)) <$> adb_assets (MergeAssets sample_merge after_second).2 = [(host5, "web.example.org", "10.0.0.6")].
Proof. by vm_compute. Qed.

Lemma services_reflect_scan_witness :
  inventory_ok after_second /\
  (forall r, r ∈ adb_services after_second -> covered second_scan r ->
     sv_last_checked r = formatTime (sample_day 1) /\ sv_last_scan_id r = "scan-2" /\
     (sv_state r = AssetServiceObserved <-> exists o, o ∈ Scan_Observations second_scan /\ observes o r)) /\
  (forall o, o ∈ Scan_Observations second_scan -> has_service after_second o).
Proof.
  apply (services_reflect_scan sample_hash second_scan after_first).
  - exact sample_hash_length.
  - exact after_first_ok.
  - reflexivity.
  - assert (H : forallb (fun r => str_leb (sv_last_checked r) (formatTime (completedOrCreatedAt second_scan))) (adb_services after_first) = true) by (vm_compute; reflexivity).
    rewrite forallb_forall in H. intros r Hr _. exact (H r (proj1 (list_elem_of_In _ _) Hr)).
  - vm_compute. reflexivity.
Defined.


Lemma inventory_invariant_witness :
  inventory_ok (fold_left (fun db op => (asset_step sample_hash op db).2) [SaveInventory first_scan; SaveInventory second_scan; Merge sample_merge] empty_inventory).
Proof. apply (inventory_invariant sample_hash [SaveInventory first_scan; SaveInventory second_scan; Merge sample_merge]). exact sample_hash_length. Defined.

Definition sample_seconds (now started : string) : Z := 60.
Definition sample_empty : ScanDb := empty_scans {["ann"]} {["ann"]} ∅.
Definition sample_finding : Finding :=
  {| Finding_ID := "f1"; Finding_CheckID := "ssh-weak"; Finding_Target := "web.example.org"; Finding_Address := "10.0.0.5"; Finding_Port := 22;
     Finding_Service := "ssh"; Finding_Severity := "medium"; Finding_Title := "t"; Finding_Evidence := "e"; Finding_Remediation := "r";
     Finding_ObservedAt := sample_day 0; Finding_Status := ""; Finding_AssignedTo := ""; Finding_WorkflowUpdatedAt := None |}.
Definition with_finding (s : Scan) (f : Finding) : Scan :=
  mkScan (Scan_ID s) (Scan_Name s) (Scan_Targets s) (Scan_Ports s) (Scan_Status s) (Scan_Error s) (Scan_Observations s) [f] [] (Scan_TotalChecks s)
    (Scan_DoneChecks s) (Scan_CreatedAt s) (Scan_StartedAt s) (Scan_CompletedAt s) (Scan_ScopePolicyID s) (Scan_MaxConcurrent s) (Scan_ScanPolicyID s)
    [mkScanCheckpoint "10.0.0.6" 22 (sample_day 0); mkScanCheckpoint "10.0.0.5" 22 (sample_day 0)] (Scan_ActiveSeconds s) None false 0.
Definition kept_scan : Scan := with_finding first_scan sample_finding.

Definition sample_exception : FindingException := mkFindingException "x1" "f1" "accepted" ExceptionApproved "ann" "" (sample_day 2) None 30 None.

Definition sample_ops : list ScanOp := [SaveScan kept_scan; SaveScan second_scan; AddException sample_exception; SetRetention 30].
Definition sample_scans : ScanDb := fold_left (fun db op => (scan_step sample_hash sample_seconds op db).2) sample_ops sample_empty.

Lemma sample_ops_local : Forall op_local sample_ops.
Proof. unfold sample_ops. rewrite !Forall_cons. split_and!; try exact I; try (by apply Forall_nil); intros m Hm; by apply not_elem_of_nil in Hm. Qed.

Lemma sample_scans_ok : scan_store_ok sample_scans.
Proof.
  unfold sample_scans. pose proof sample_ops_local as H. pose proof (empty_scans_ok {["ann"]} {["ann"]} ∅ : scan_store_ok sample_empty) as H0.
  revert H0. generalize sample_empty. induction H as [|op ops Hop H IH]; intros db Hdb; simpl; [done|].
  by apply IH, scan_step_ok; [apply sample_hash_length| |].
Qed.

(** A year later the first scan is held by its exception and the second is purged. *)
Example purge_after_a_year :
  sr_id <$> sdb_scans (PurgeExpiredEvidence (sample_day 365) sample_scans).2 = ["scan-1"].
Proof. by vm_compute. Qed.


Lemma purge_exact_witness :
  let '(r, db') := PurgeExpiredEvidence (sample_day 365) sample_scans in
  (forall s, s ∈ sdb_scans db' <-> s ∈ sdb_scans sample_scans /\
     ~ (retention_over (sample_day 365) sample_scans s /\ ~ evidence_held (formatTime (sample_day 365)) sample_scans s)) /\
  (forall s, s ∈ sdb_scans db' -> Get (sr_id s) db' = Get (sr_id s) sample_scans).
Proof.
  pose proof (purge_exact (sample_day 365) sample_scans sample_scans_ok) as H.
  destruct (PurgeExpiredEvidence (sample_day 365) sample_scans) as [r db']. destruct H as (H1 & _ & H3 & _). split; [exact H1|exact H3].
Defined.

Lemma sample_day_ok n : 0 <= n <= 3650 -> year_ok (sample_day n).
Proof. intros H. unfold year_ok, sample_day. replace ((20454 + n) * 24 * Hour) with ((20454 + n) * 86400 * Second) by (unfold Hour, Minute; lia). rewrite !Z.div_mul by done. lia. Qed.

Lemma kept_scan_times : times_ok kept_scan.
Proof.
  assert (H0 : year_ok (sample_day 0)) by (apply sample_day_ok; lia).
  unfold times_ok, kept_scan. simpl. split; [done|]. split; [by intros ? [= <-]|]. split; [by intros ? [= <-]|]. split; [done|].
  split; [intros o Ho; repeat (apply elem_of_cons in Ho as [->|Ho]; [done|]); by apply not_elem_of_nil in Ho|].
  split; [intros f ->%list_elem_of_singleton; done|]. split; [intros m Hm; by apply not_elem_of_nil in Hm|].
  intros c Hc; repeat (apply elem_of_cons in Hc as [->|Hc]; [done|]); by apply not_elem_of_nil in Hc.
Qed.

Lemma save_get_witness :
  exists db', Save sample_hash kept_scan sample_scans = (Ok tt, db') /\ Get "scan-1" db' = Ok (stored_form sample_scans kept_scan) /\
    forall id, id <> "scan-1" -> Get id db' = Get id sample_scans.
Proof.
  exists (Save sample_hash kept_scan sample_scans).2. assert (E : Save sample_hash kept_scan sample_scans = (Ok tt, (Save sample_hash kept_scan sample_scans).2)).
  { assert (F : is_ok (Save sample_hash kept_scan sample_scans).1 = true) by (vm_compute; reflexivity).
    destruct (Save sample_hash kept_scan sample_scans) as [[[]|] d]; [reflexivity|discriminate F]. }
  split; [exact E|].
  exact (save_get sample_hash kept_scan sample_scans (Save sample_hash kept_scan sample_scans).2 (store_owned _ sample_scans_ok) (store_local _ sample_scans_ok) kept_scan_times E).
Defined.
