(* ===== verification/ScanPolicyStore.v ===== *)
(** Policies in the store: scope policies (internal/store/scope_policy.go), asset
    groups and reusable scan policies with their schedules (asset_group.go). A
    scope policy's organization is the installation's only one; its author, the
    users' foreign keys and the audit rows are not kept. *)
From Stdlib Require Import ZArith Lia String Ascii.
From stdpp Require Import base tactics list strings gmap sets.
From S2P Require Import Prelude GoStrings GoTime WorkerModel Sql ScanModel AssetStore ScanStore.
Open Scope string_scope.
Open Scope Z_scope.

Record GroupRow := mkGroupRow { gr_id : string; gr_name : string; gr_description : string; gr_created_at : string; gr_updated_at : string }.
Record AssetGroup := mkAssetGroup {
  Group_ID : string; Group_Name : string; Group_Description : string; Group_AssetIDs : list string; Group_ScanPolicyIDs : list string;
  Group_CreatedAt : Time; Group_UpdatedAt : Time }.

(** A row of reusable_scan_policies: the policy without its groups, and the
    text of its two schedule columns. *)
Record PolicyRow := mkPolicyRow { pr_policy : ReusableScanPolicy; pr_next_run_at : option string; pr_last_scheduled_at : option string }.
Record PolicyGroupRow := mkPolicyGroupRow { pg_policy : string; pg_group : string; pg_ordinal : Z }.

Record PolicyDb := mkPolicyDb {
  pdb_scans : ScanDb; pdb_groups : list GroupRow; pdb_scopes : list ScopePolicy; pdb_policies : list PolicyRow; pdb_policy_groups : list PolicyGroupRow }.

Definition set_pdb_scans (x : ScanDb) (db : PolicyDb) : PolicyDb := mkPolicyDb x (pdb_groups db) (pdb_scopes db) (pdb_policies db) (pdb_policy_groups db).
Definition set_pdb_groups (x : list GroupRow) (db : PolicyDb) : PolicyDb := mkPolicyDb (pdb_scans db) x (pdb_scopes db) (pdb_policies db) (pdb_policy_groups db).
Definition set_pdb_scopes (x : list ScopePolicy) (db : PolicyDb) : PolicyDb := mkPolicyDb (pdb_scans db) (pdb_groups db) x (pdb_policies db) (pdb_policy_groups db).
Definition set_pdb_policies (x : list PolicyRow) (db : PolicyDb) : PolicyDb := mkPolicyDb (pdb_scans db) (pdb_groups db) (pdb_scopes db) x (pdb_policy_groups db).
Definition set_pdb_policy_groups (x : list PolicyGroupRow) (db : PolicyDb) : PolicyDb := mkPolicyDb (pdb_scans db) (pdb_groups db) (pdb_scopes db) (pdb_policies db) x.

Definition pdb_assets (db : PolicyDb) : AssetDb := sdb_assets (pdb_scans db).
Definition set_pdb_assets (x : AssetDb) (db : PolicyDb) : PolicyDb := set_pdb_scans (set_scan_assets x (pdb_scans db)) db.

(** An operation of the scan tables, in the whole store. *)
Definition on_scans {A} (m : st ScanDb A) : st PolicyDb A := fun db => let '(r, s) := m (pdb_scans db) in (r, set_pdb_scans s db).

(** * Scope policies *)

Definition scope_is (id : string) (p : ScopePolicy) : bool := bool_decide (Scope_ID p = id).

Definition with_enabled (enabled : bool) (p : ScopePolicy) : ScopePolicy :=
  mkScopePolicy (Scope_ID p) (Scope_Name p) (Scope_AllowedCIDRs p) (Scope_AllowedPorts p) (Scope_MaxTargets p) (Scope_MaxConcurrent p) enabled.

(** Names are unique. *)
Definition scope_constraint (policy : ScopePolicy) (others : list ScopePolicy) : bool :=
  negb (existsb (fun p => bool_decide (Scope_Name p = Scope_Name policy)) others).

Definition EnsureDefaultScopePolicy (policy : ScopePolicy) : st PolicyDb unit := fun db =>
  match pdb_scopes db with
  | _ :: _ => (Ok tt, db)
  | [] => (Ok tt, set_pdb_scopes [with_enabled true policy] db)
  end.

Definition UpsertScopePolicy (policy : ScopePolicy) : st PolicyDb unit := transaction (fun db =>
  if negb (scope_constraint policy (List.filter (fun p => negb (scope_is (Scope_ID policy) p)) (pdb_scopes db))) then Err ErrConstraint
  else match query_row (scope_is (Scope_ID policy)) (pdb_scopes db) with
  | None => Ok (set_pdb_scopes (pdb_scopes db ++ [policy])%list db)
  | Some _ => Ok (set_pdb_scopes (update_where (scope_is (Scope_ID policy)) (fun _ => policy) (pdb_scopes db)) db)
  end).

Definition ScopePolicyByID (id : string) (db : PolicyDb) : result ScopePolicy :=
  match query_row (scope_is id) (pdb_scopes db) with Some p => Ok p | None => Err ErrNotFound end.

(** [ORDER BY name] *)
Definition ListScopePolicies (enabledOnly : bool) (db : PolicyDb) : list ScopePolicy :=
  sort_slice (fun a b => str_ltb (Scope_Name a) (Scope_Name b)) (select_where (fun p => negb enabledOnly || Scope_Enabled p) (pdb_scopes db)).

(** * Asset groups *)

Definition group_is (id : string) (r : GroupRow) : bool := bool_decide (gr_id r = id).

Definition UpsertAssetGroup (id name description : string) (created updated : Time) : st PolicyDb unit := transaction (fun db =>
  if existsb (fun g => bool_decide (gr_name g = name) && negb (group_is id g)) (pdb_groups db) then Err ErrConstraint
  else match query_row (group_is id) (pdb_groups db) with
  | None => Ok (set_pdb_groups (pdb_groups db ++ [mkGroupRow id name description (formatTime created) (formatTime updated)])%list db)
  | Some _ => Ok (set_pdb_groups (update_where (group_is id) (fun g => mkGroupRow (gr_id g) name description (gr_created_at g) (formatTime updated)) (pdb_groups db)) db)
  end).

Definition ListAssetGroups (db : PolicyDb) : list AssetGroup :=
  (fun g => mkAssetGroup (gr_id g) (gr_name g) (gr_description g)
     (sort_slice str_ltb (gm_asset <$> select_where (fun m => bool_decide (gm_group m = gr_id g)) (adb_members (pdb_assets db))))
     (sort_slice str_ltb (pg_policy <$> select_where (fun m => bool_decide (pg_group m = gr_id g)) (pdb_policy_groups db)))
     (default ZeroTime (parseTime (gr_created_at g))) (default ZeroTime (parseTime (gr_updated_at g))))
  <$> sort_slice (fun a b => str_ltb (gr_name a) (gr_name b)) (pdb_groups db).

Definition AssetGroupMemberships (assetID : string) (db : PolicyDb) : list string :=
  sort_slice str_ltb (gm_group <$> select_where (fun m => bool_decide (gm_asset m = assetID)) (adb_members (pdb_assets db))).

Definition member_is (groupID assetID : string) (m : MemberRow) : bool := bool_decide (gm_group m = groupID) && bool_decide (gm_asset m = assetID).

Definition AddAssetGroupMember (groupID assetID actorID : string) (addedAt : Time) : st PolicyDb unit := transaction (fun db =>
  let assets := pdb_assets db in
  if existsb (member_is groupID assetID) (adb_members assets) then Ok db
  else if negb (existsb (group_is groupID) (pdb_groups db)) || negb (existsb (asset_is assetID) (adb_assets assets)) then Err ErrConstraint
  else Ok (set_pdb_assets (set_members (adb_members assets ++ [mkMemberRow groupID assetID (formatTime addedAt) actorID])%list assets) db)).

Definition RemoveAssetGroupMember (groupID assetID : string) : st PolicyDb unit := transaction (fun db =>
  let assets := pdb_assets db in
  if negb (affected (member_is groupID assetID) (adb_members assets) =? 1) then Err ErrNotFound
  else Ok (set_pdb_assets (set_members (without (member_is groupID assetID) (adb_members assets)) assets) db)).

(** * Reusable scan policies *)

Definition policy_is (id : string) (r : PolicyRow) : bool := bool_decide (Policy_ID (pr_policy r) = id).

(** The policy with its groups and the two dates of its schedule. *)
Definition with_schedule (p : ReusableScanPolicy) (groups : list string) (next last : option Time) : ReusableScanPolicy :=
  mkScanPolicy (Policy_ID p) (Policy_Name p) (Policy_ScopePolicyID p) groups (Policy_Ports p) (Policy_Enabled p) (Policy_ScheduleKind p)
    (Policy_ScheduleExpression p) (Policy_ScheduleTimezone p) (Policy_WindowStart p) (Policy_WindowEnd p) (Policy_RunMissed p)
    (Policy_LongRunAlertSeconds p) (Policy_RateLimitPerSecond p) (Policy_ExecutionMode p) (Policy_WorkerSiteID p) next last.

Definition with_mode (p : ReusableScanPolicy) (mode : ScanExecutionMode) : ReusableScanPolicy :=
  mkScanPolicy (Policy_ID p) (Policy_Name p) (Policy_ScopePolicyID p) (Policy_GroupIDs p) (Policy_Ports p) (Policy_Enabled p) (Policy_ScheduleKind p)
    (Policy_ScheduleExpression p) (Policy_ScheduleTimezone p) (Policy_WindowStart p) (Policy_WindowEnd p) (Policy_RunMissed p)
    (Policy_LongRunAlertSeconds p) (Policy_RateLimitPerSecond p) mode (Policy_WorkerSiteID p) (Policy_NextRunAt p) (Policy_LastScheduledAt p).

(** Unique name, the referred scope policy and groups, each group once, the
    range of the rate and the modes. *)
Definition policy_constraint (p : ReusableScanPolicy) (db : PolicyDb) : bool :=
  negb (existsb (fun r => bool_decide (Policy_Name (pr_policy r) = Policy_Name p) && negb (policy_is (Policy_ID p) r)) (pdb_policies db)) &&
  existsb (scope_is (Policy_ScopePolicyID p)) (pdb_scopes db) &&
  in_range 0 (Policy_RateLimitPerSecond p) 1000 &&
  (bool_decide (Policy_ExecutionMode p = ScanExecutionLocal) || bool_decide (Policy_ExecutionMode p = ScanExecutionRemote)) &&
  bool_decide (NoDup (Policy_GroupIDs p)) && forallb (fun g => existsb (group_is g) (pdb_groups db)) (Policy_GroupIDs p).

Definition UpsertReusableScanPolicy (policy : ReusableScanPolicy) : st PolicyDb unit := transaction (fun db =>
  let policy := if bool_decide (Policy_ExecutionMode policy = "") then with_mode policy ScanExecutionLocal else policy in
  if negb (policy_constraint policy db) then Err ErrConstraint
  else
    let row := mkPolicyRow policy (formatTime <$> Policy_NextRunAt policy) (formatTime <$> Policy_LastScheduledAt policy) in
    let id := Policy_ID policy in
    let policies := match query_row (policy_is id) (pdb_policies db) with
                    | None => (pdb_policies db ++ [row])%list
                    | Some _ => update_where (policy_is id) (fun _ => row) (pdb_policies db)
                    end in
    Ok (set_pdb_policy_groups (without (fun g => bool_decide (pg_policy g = id)) (pdb_policy_groups db) ++
          imap (fun i g => mkPolicyGroupRow id g (Z.of_nat i)) (Policy_GroupIDs policy))%list (set_pdb_policies policies db))).

Definition policy_group_ids (id : string) (db : PolicyDb) : list string :=
  pg_group <$> sort_slice (fun a b => pg_ordinal a <? pg_ordinal b) (select_where (fun g => bool_decide (pg_policy g = id)) (pdb_policy_groups db)).

(** A time that does not parse is left nil. *)
Definition scanReusablePolicy (db : PolicyDb) (r : PolicyRow) : ReusableScanPolicy :=
  with_schedule (pr_policy r) (policy_group_ids (Policy_ID (pr_policy r)) db) (pr_next_run_at r ≫= parseTime) (pr_last_scheduled_at r ≫= parseTime).

Definition ReusableScanPolicyByID (id : string) (db : PolicyDb) : result ReusableScanPolicy :=
  match query_row (policy_is id) (pdb_policies db) with Some r => Ok (scanReusablePolicy db r) | None => Err ErrNotFound end.

Definition ListReusableScanPolicies (enabledOnly : bool) (db : PolicyDb) : list ReusableScanPolicy :=
  scanReusablePolicy db <$> sort_slice (fun a b => str_ltb (Policy_Name (pr_policy a)) (Policy_Name (pr_policy b)))
    (select_where (fun r => negb enabledOnly || Policy_Enabled (pr_policy r)) (pdb_policies db)).

Definition UpdateReusablePolicySchedule (id : string) (nextRun lastScheduled : option Time) : st PolicyDb unit := fun db =>
  (Ok tt, set_pdb_policies (update_where (policy_is id)
     (fun r => mkPolicyRow (pr_policy r) (formatTime <$> nextRun) (formatTime <$> lastScheduled)) (pdb_policies db)) db).

(** * Targets of a policy *)

(** The joined rows: name, address and group, ordered by address and then by the group's ordinal. *)
Definition target_rows (id : string) (db : PolicyDb) : list (string * string * string * Z) :=
  let assets := pdb_assets db in
  sort_slice (fun a b => str_ltb a.1.1.2 b.1.1.2 || (bool_decide (a.1.1.2 = b.1.1.2) && (a.2 <? b.2)))
    (g ← select_where (fun g => bool_decide (pg_policy g = id)) (pdb_policy_groups db);
     m ← select_where (fun m => bool_decide (gm_group m = pg_group g)) (adb_members assets);
     a ← select_where (asset_is (gm_asset m)) (adb_assets assets);
     w ← select_where (fun w => bool_decide (ad_asset w = as_id a)) (adb_addresses assets);
     mret (as_name a, ad_address w, pg_group g, pg_ordinal g)).

(** One row of the loop: the targets so far, in the order of their first rows. *)
Definition add_target_row (targets : list Target) (row : string * string * string * Z) : list Target :=
  let '(name, address, group, _) := row in
  if existsb (fun t => bool_decide (Target_Address t = address)) targets
  then update_where (fun t => bool_decide (Target_Address t = address))
         (fun t => {| Target_Name := Target_Name t; Target_Address := Target_Address t; Target_GroupIDs := Target_GroupIDs t ++ [group] |}) targets
  else (targets ++ [{| Target_Name := name; Target_Address := address; Target_GroupIDs := [group] |}])%list.

Definition ReusableScanPolicyTargets (id : string) (db : PolicyDb) : list Target :=
  sort_slice (fun a b => str_ltb (Target_Address a) (Target_Address b)) (fold_left add_target_row (target_rows id db) []).
