(* ===== verification/ScanSchedule.v ===== *)
(** Schedules of scan policies: internal/scheduling/schedule.go and runner.go, and
    the launcher of internal/scanlaunch/service.go.

    Cron expressions are parsed and evaluated by github.com/robfig/cron, the
    parameter [ParseStandard]; name resolution, the engine's queue, the
    dispatcher, alerts and the random identifiers of scans are arguments. *)
From Stdlib Require Import ZArith Lia String Ascii.
From stdpp Require Import base tactics list strings gmap sets.
From S2P Require Import Prelude GoStrings GoTime GoLocation Netip WorkerModel Sql ScanModel ScanScope AssetStore ScanStore ScanPolicyStore.
Open Scope string_scope.
Open Scope Z_scope.

(** * Library functions *)

(** strings.Fields *)
Fixpoint fields_from (fuel : nat) (word : string) (s : string) : list string :=
  let flush := if bool_decide (word = "") then [] else [word] in
  match fuel with
  | O => flush
  | S fuel =>
      match s with
      | EmptyString => flush
      | String c rest =>
          match trim_one spaces s with
          | Some s' => (flush ++ fields_from fuel "" s')%list
          | None => fields_from fuel (word +:+ String c "") rest
          end
      end
  end.
Definition Fields (s : string) : list string := fields_from (S (String.length s)) "" s.

(** The zone of an RFC 3339 time: [Z], or a sign, hours and minutes; [time.Parse]
    admits 24 hours and 60 minutes. *)
Definition p_zone (s : string) : option (Z * string) :=
  match s with
  | String "Z"%char s => Some (0, s)
  | String sign s =>
      '(hh, s) ← p_digits 2 0 s; s ← p_char ":" s; '(mm, s) ← p_digits 2 0 s;
      if negb (in_range 0 hh 24 && in_range 0 mm 60) then None
      else if Ascii.eqb sign "+" then Some ((hh * 60 + mm) * 60, s)
      else if Ascii.eqb sign "-" then Some (- ((hh * 60 + mm) * 60), s)
      else None
  | EmptyString => None
  end.
(** One or two digits, as [time.Parse] reads an hour. *)
Definition p_hour (s : string) : option (Z * string) :=
  match p_digits 2 0 s with Some r => Some r | None => p_digits 1 0 s end.
(** A fraction after a period or a comma. *)
Definition p_seconds_fraction (s : string) : Z * string :=
  match s with
  | String ","%char rest => match p_fraction (String "."%char rest) with (_, String "."%char _) => (0, s) | r => r end
  | _ => p_fraction s
  end.

(** [time.Parse(time.RFC3339, value)] *)
Definition ParseRFC3339 (value : string) : option Time :=
  '(y, s) ← p_digits 4 0 value; s ← p_char "-" s;
  '(m, s) ← p_digits 2 0 s; s ← p_char "-" s;
  '(d, s) ← p_digits 2 0 s; s ← p_char "T" s;
  '(hh, s) ← p_hour s; s ← p_char ":" s;
  '(mi, s) ← p_digits 2 0 s; s ← p_char ":" s;
  '(ss, s) ← p_digits 2 0 s;
  let '(ns, s) := p_seconds_fraction s in
  '(offset, s) ← p_zone s;
  if in_range 1 m 12 && in_range 1 d (days_in_month y m) && in_range 0 hh 23 && in_range 0 mi 59 && in_range 0 ss 59 && bool_decide (s = ""%string)
  then Some ((days_of_civil y m d * 86400 + hh * 3600 + mi * 60 + ss - offset) * Second + ns)
  else None.

Example ParseRFC3339_offset : ParseRFC3339 "2026-01-01T02:00:00+02:00" = Some (20454 * 86400 * Second).
Proof. vm_compute. reflexivity. Qed.
Example Fields_ex : Fields "  MON,FRI   02:30 " = ["MON,FRI"; "02:30"].
Proof. reflexivity. Qed.

(** * schedule.go *)

Definition parseClock (value : string) : result (Z * Z) :=
  match split_byte ":" value with
  | [h; m] =>
      match ParseInt64 h, ParseInt64 m with
      | Some hour, Some minute =>
          if (hour <? 0) || (23 <? hour) || (minute <? 0) || (59 <? minute) then Err "time must use HH:MM" else Ok (hour, minute)
      | _, _ => Err "time must use HH:MM"
      end
  | _ => Err "time must use HH:MM"
  end.

Definition validateWindow (start end_ : string) : result unit :=
  let start := TrimSpace start in
  let end_ := TrimSpace end_ in
  reject negb (Bool.eqb (bool_decide (start = "")) (bool_decide (end_ = ""))) as "maintenance window requires both start and end times" ;;
  if bool_decide (start = "") then Ok tt
  else
    _ ← parseClock start;
    _ ← parseClock end_;
    reject bool_decide (start = end_) as "maintenance window start and end must differ" ;;
    Ok tt.

Section Schedule.
Context {TZ : TimeZones}.
(** cron.ParseStandard: a schedule gives the next activation after an instant,
    evaluated in a location; [None] for an expression it refuses. *)
Context (ParseStandard : string -> option (Location -> Time -> Time)).

Definition clock_expression (minute hour : Z) (days : string) : string :=
  append_int minute 0 +:+ " " +:+ append_int hour 0 +:+ " * * " +:+ days.

Definition cron_next (expression : string) (location : Location) (after : Time) : result Time :=
  match ParseStandard expression with Some schedule => Ok (schedule location after) | None => Err "invalid schedule expression" end.

Definition Next (policy : ReusableScanPolicy) (after : Time) (location : Location) : result Time :=
  let expression := TrimSpace (Policy_ScheduleExpression policy) in
  let kind := Policy_ScheduleKind policy in
  if bool_decide (kind = "once") then
    match ParseRFC3339 expression with
    | Some value => if After value after then Ok value else Err "one-time schedule must be a future RFC3339 timestamp"
    | None => Err "one-time schedule must be a future RFC3339 timestamp"
    end
  else if bool_decide (kind = "daily") then
    '(hour, minute) ← parseClock expression;
    cron_next (clock_expression minute hour "*") location after
  else if bool_decide (kind = "weekly") then
    match Fields expression with
    | [days; clock] =>
        '(hour, minute) ← parseClock clock;
        cron_next (clock_expression minute hour days) location after
    | _ => Err "weekly schedule must use 'days HH:MM'"
    end
  else if bool_decide (kind = "cron") then cron_next expression location after
  else Err "schedule kind must be manual, once, daily, weekly, or cron".

(** The policy [Prepare] leaves: normalised kind and time zone, its expression
    when manual, and the next run. *)
Definition prepared (p : ReusableScanPolicy) (kind expression timezone : string) (next : option Time) : ReusableScanPolicy :=
  mkScanPolicy (Policy_ID p) (Policy_Name p) (Policy_ScopePolicyID p) (Policy_GroupIDs p) (Policy_Ports p) (Policy_Enabled p) kind expression timezone
    (Policy_WindowStart p) (Policy_WindowEnd p) (Policy_RunMissed p) (Policy_LongRunAlertSeconds p) (Policy_RateLimitPerSecond p)
    (Policy_ExecutionMode p) (Policy_WorkerSiteID p) next (Policy_LastScheduledAt p).

(** strings.ToLower changes other than ASCII letters too; only the five kinds,
    all ASCII, are compared with the result. *)
Definition Prepare (policy : ReusableScanPolicy) (now : Time) : result ReusableScanPolicy :=
  let kind := ToLower (TrimSpace (Policy_ScheduleKind policy)) in
  let kind := if bool_decide (kind = "") then "manual" else kind in
  let timezone := TrimSpace (Policy_ScheduleTimezone policy) in
  let timezone := if bool_decide (timezone = "") then "UTC" else timezone in
  match LoadLocation timezone with
  | None => Err "schedule timezone is invalid"
  | Some location =>
      _ ← validateWindow (Policy_WindowStart policy) (Policy_WindowEnd policy);
      reject Policy_LongRunAlertSeconds policy <? 0 as "long-run alert threshold cannot be negative" ;;
      if bool_decide (kind = "manual") then Ok (prepared policy kind "" timezone None)
      else
        next ← Next (prepared policy kind (Policy_ScheduleExpression policy) timezone (Policy_NextRunAt policy)) now location;
        Ok (prepared policy kind (Policy_ScheduleExpression policy) timezone (Some next))
  end.

(** The hour and minute of [hour, minute, _ := parseClock(value)]: zero when it fails. *)
Definition clock_or_zero (value : string) : Z * Z := match parseClock value with Ok hm => hm | Err _ => (0, 0) end.

Definition Window (policy : ReusableScanPolicy) (now : Time) : result (bool * option Time) :=
  match LoadLocation (Policy_ScheduleTimezone policy) with
  | None => Err "unknown time zone"
  | Some location =>
      if bool_decide (Policy_WindowStart policy = "") then Ok (true, None)
      else
        let '(startHour, startMinute) := clock_or_zero (Policy_WindowStart policy) in
        let '(endHour, endMinute) := clock_or_zero (Policy_WindowEnd policy) in
        let '(y, m, d) := Date_of location now in
        let start := Date y m d startHour startMinute 0 0 location in
        let end_ := Date y m d endHour endMinute 0 0 location in
        let '(start, end_) :=
          if negb (After end_ start)
          then if Before now end_ then (AddDays location start (-1), end_) else (start, AddDays location end_ 1)
          else (start, end_) in
        Ok (negb (Before now start) && Before now end_, Some end_)
  end.

(** * runner.go *)

Definition tickInterval : Duration := 30 * Second.

Definition active_status (status : ScanStatus) : bool :=
  bool_decide (status = StatusQueued) || bool_decide (status = StatusRunning) || bool_decide (status = StatusPaused).

Definition activePolicyScan (scans : list Scan) (id : string) : option Scan :=
  List.find (fun s => bool_decide (Scan_ScanPolicyID s = id) && active_status (Scan_Status s)) scans.

Definition with_active_seconds (s : Scan) (seconds : Z) : Scan :=
  mkScan (Scan_ID s) (Scan_Name s) (Scan_Targets s) (Scan_Ports s) (Scan_Status s) (Scan_Error s) (Scan_Observations s) (Scan_Findings s) (Scan_CVEMatches s)
    (Scan_TotalChecks s) (Scan_DoneChecks s) (Scan_CreatedAt s) (Scan_StartedAt s) (Scan_CompletedAt s) (Scan_ScopePolicyID s) (Scan_MaxConcurrent s)
    (Scan_ScanPolicyID s) (Scan_Checkpoints s) seconds (Scan_WindowEnd s) (Scan_LongAlertSent s) (Scan_RateLimitPerSecond s).

Definition with_status (s : Scan) (status : ScanStatus) (error : string) (started completed windowEnd : option Time) : Scan :=
  mkScan (Scan_ID s) (Scan_Name s) (Scan_Targets s) (Scan_Ports s) status error (Scan_Observations s) (Scan_Findings s) (Scan_CVEMatches s)
    (Scan_TotalChecks s) (Scan_DoneChecks s) (Scan_CreatedAt s) started completed (Scan_ScopePolicyID s) (Scan_MaxConcurrent s)
    (Scan_ScanPolicyID s) (Scan_Checkpoints s) (Scan_ActiveSeconds s) windowEnd (Scan_LongAlertSent s) (Scan_RateLimitPerSecond s).

(** Whole seconds of a duration; [int64(d.Seconds())] of durations below 2^53 seconds. *)
Definition whole_seconds (d : Duration) : Z := Z.quot d Second.

Definition long_run_seconds (scan : Scan) (now : Time) : Z :=
  match Scan_StartedAt scan with
  | Some started => if bool_decide (Scan_Status scan = StatusRunning) then Scan_ActiveSeconds scan + whole_seconds (Sub now started) else Scan_ActiveSeconds scan
  | None => Scan_ActiveSeconds scan
  end.

Section Runner.
(** The engine's name resolution and limits; the alert sender, when there is one,
    whether it delivered; the launcher; the identifier of a new scan. *)
Context (LookupHost : string -> option (list (list Byte.byte))) (engine : Validator).
Context (SendLongRun : option (ReusableScanPolicy -> Scan -> bool)).
Context (Launch : Scan -> ReusableScanPolicy -> st PolicyDb unit) (scheduleID : string -> string).

Definition alertLongRun (policy : ReusableScanPolicy) (scan : Scan) (now : Time) (db : PolicyDb) : PolicyDb :=
  match SendLongRun with
  | None => db
  | Some send =>
      if (Policy_LongRunAlertSeconds policy <=? 0) || Scan_LongAlertSent scan then db
      else
        let active := long_run_seconds scan now in
        if active <? Policy_LongRunAlertSeconds policy then db
        else if send policy (with_active_seconds scan active) then (on_scans (MarkScanLongAlertSent (Scan_ID scan)) db).2 else db
  end.

Definition buildScan (policy : ReusableScanPolicy) (windowEnd : option Time) (now : Time) (db : PolicyDb) : result Scan :=
  let source := ReusableScanPolicyTargets (Policy_ID policy) db in
  if bool_decide (source = []) then Err "policy has no target addresses"
  else match ScopePolicyByID (Policy_ScopePolicyID policy) db with
  | Err _ => Err "authorization scope unavailable"
  | Ok scope =>
      if negb (Scope_Enabled scope) then Err "authorization scope unavailable"
      else
        '(targets, ports) ← ValidateWithPolicy LookupHost engine (mkScanRequest "" (Target_Address <$> source) (Policy_Ports policy) "") scope;
        let targets := (fun t => default t (List.find (fun item => bool_decide (Target_Address item = Target_Address t)) (rev source))) <$> targets in
        Ok (mkScan (scheduleID (Policy_ID policy)) (Policy_Name policy) targets ports StatusQueued "" [] [] []
              (Z.of_nat (length targets) * Z.of_nat (length ports)) 0 now None None (Scope_ID scope) (Scope_MaxConcurrent scope) (Policy_ID policy) [] 0
              windowEnd false (Policy_RateLimitPerSecond policy))
  end.

Definition advance (policy : ReusableScanPolicy) (now : Time) (db : PolicyDb) : PolicyDb :=
  let next :=
    if bool_decide (Policy_ScheduleKind policy = "once") then None
    else match LoadLocation (Policy_ScheduleTimezone policy) with
    | None => None
    | Some location => match Next policy now location with Ok value => Some value | Err _ => None end
    end in
  (UpdateReusablePolicySchedule (Policy_ID policy) next (Some now) db).2.

Definition due (policy : ReusableScanPolicy) (now : Time) : bool :=
  match Policy_NextRunAt policy with Some next => negb (Before now next) | None => false end.
Definition missed (policy : ReusableScanPolicy) (now : Time) : bool :=
  match Policy_NextRunAt policy with Some next => negb (Policy_RunMissed policy) && (2 * tickInterval <? Sub now next) | None => false end.

Definition process (policy : ReusableScanPolicy) (scans : list Scan) (now : Time) (db : PolicyDb) : PolicyDb :=
  match Window policy now with
  | Err _ => db
  | Ok (inside, windowEnd) =>
      match activePolicyScan scans (Policy_ID policy) with
      | Some active =>
          let db := alertLongRun policy active now db in
          let db := if bool_decide (Scan_Status active = StatusPaused) && inside
                    then (Launch (with_status active StatusQueued "" (Scan_StartedAt active) (Scan_CompletedAt active) windowEnd) policy db).2 else db in
          if due policy now then advance policy now db else db
      | None =>
          if negb (due policy now) then db
          else if negb inside then advance policy now db
          else if missed policy now then advance policy now db
          else match buildScan policy windowEnd now db with
          | Err _ => advance policy now db
          | Ok scan =>
              match Launch scan policy db with
              | (Err _, db) => db
              | (Ok _, db) => advance policy now db
              end
          end
      end
  end.

(** The state is the store and the time of the last purge; a list of scans that
    cannot be read ends the turn. *)
Definition tick (now : Time) (state : PolicyDb * Time) : PolicyDb * Time :=
  let '(db, lastEvidencePurge) := state in
  let '(db, lastEvidencePurge) :=
    if IsZero lastEvidencePurge || (24 * Hour <=? Sub now lastEvidencePurge)
    then ((on_scans (PurgeExpiredEvidence now) db).2, now) else (db, lastEvidencePurge) in
  let policies := ListReusableScanPolicies true db in
  match ListScans (pdb_scans db) with
  | Err _ => (db, lastEvidencePurge)
  | Ok scans => (fold_left (fun db policy => process policy scans now db) policies db, lastEvidencePurge)
  end.
End Runner.
End Schedule.

(** * scanlaunch/service.go *)

Definition defaultRemoteJobLifetime : Duration := 12 * Hour.

Definition requiredCapabilities (ports : list Z) : list WorkerCapability :=
  let has p := existsb (fun port => port =? p) ports in
  let http := has 80 || has 8080 || has 443 || has 8443 in
  [WorkerCapabilityTCPConnect; WorkerCapabilityServiceIdentification] ++
  (if http then [WorkerCapabilityHTTP] else []) ++
  (if has 443 || has 8443 then [WorkerCapabilityTLS] else []) ++
  (if has 22 then [WorkerCapabilitySSH] else []).

Section Launcher.
Context {S : Type}.
(** The store, the engine and the dispatcher, when remote execution is configured. *)
Context (SaveScan : Scan -> st S unit) (Schedule : Scan -> st S unit) (Dispatcher : option (WorkerJob -> Time -> st S SignedWorkerJob)).

Definition remote_job (scan : Scan) (policy : ReusableScanPolicy) (now expiresAt : Time) : WorkerJob :=
  {| Job_SchemaVersion := 1; Job_ID := "scan-" +:+ Scan_ID scan; Job_WorkerID := ""; Job_ScanID := Scan_ID scan; Job_SiteID := Policy_WorkerSiteID policy;
     Job_IssuedAt := now; Job_ExpiresAt := expiresAt; Job_Targets := Scan_Targets scan; Job_Ports := Scan_Ports scan;
     Job_MaxConcurrent := Scan_MaxConcurrent scan; Job_RateLimitPerSecond := Scan_RateLimitPerSecond scan;
     Job_RequiredCapabilities := requiredCapabilities (Scan_Ports scan); Job_Resume := None; Job_Status := WorkerJobPending |}.

Definition remote_expiry (scan : Scan) (now : Time) : Time :=
  let expiresAt := Add now defaultRemoteJobLifetime in
  match Scan_WindowEnd scan with Some end_ => if Before end_ expiresAt then end_ else expiresAt | None => expiresAt end.

(** [now] is the clock's reading at the start, [later] the one after a failed dispatch. *)
Definition launchRemote (dispatch : WorkerJob -> Time -> st S SignedWorkerJob) (scan : Scan) (policy : ReusableScanPolicy) (now later : Time) : st S unit := fun s =>
  let expiresAt := remote_expiry scan now in
  if negb (After expiresAt now) then (Err "remote scan execution window has ended", s)
  else
    let scan := with_status scan StatusQueued (Scan_Error scan) (Scan_StartedAt scan) (Scan_CompletedAt scan) (Scan_WindowEnd scan) in
    match SaveScan scan s with
    | (Err e, s) => (Err e, s)
    | (Ok _, s) =>
        match dispatch (remote_job scan policy now expiresAt) now s with
        | (Ok _, s) => (Ok tt, s)
        | (Err e, s) =>
            let failed := with_status scan StatusFailed "remote scanner-worker dispatch failed" (Scan_StartedAt scan) (Some later) (Scan_WindowEnd scan) in
            (Err e, (SaveScan failed s).2)
        end
    end.

Definition LaunchScan (scan : Scan) (policy : ReusableScanPolicy) (now later : Time) : st S unit := fun s =>
  if bool_decide (Policy_ExecutionMode policy = "") || bool_decide (Policy_ExecutionMode policy = ScanExecutionLocal) then Schedule scan s
  else if negb (bool_decide (Policy_ExecutionMode policy = ScanExecutionRemote)) then (Err "scan policy execution mode is invalid", s)
  else match Dispatcher with
  | None => (Err "remote scanner-worker dispatch is unavailable", s)
  | Some dispatch => launchRemote dispatch scan policy now later s
  end.
End Launcher.
