(* ===== verification/ScanEngine.v ===== *)
(** The scan engine (internal/scanner/scanner.go): its queue, the goroutine that
    runs the scans, the feeder and the bounded workers of a run, cancellation and
    shutdown, as an executable step function over events.

    An event is one action of one goroutine, with what the environment gives it:
    the clock's reading, the outcome of a probe (internal/probe), the matches of
    an observation. Actions that hold the engine's lock, and single calls of the
    store, are atomic; everything else interleaves. The pacing ticker only delays
    the feeder, and log lines are not kept. *)
From Stdlib Require Import ZArith Lia String Ascii.
From stdpp Require Import base tactics list strings gmap sets.
From S2P Require Import Prelude GoStrings GoTime GoLocation Netip NetAddr WorkerModel WorkerExecutor Sql ScanModel ScanScope AssetStore ScanStore ScanPolicyStore ScanSchedule.
Open Scope string_scope.
Open Scope Z_scope.

Definition ErrQueueFull : error := "scan queue is full".
Definition ErrScanNotCancelable : error := "scan is not in a cancelable state".
Definition progressSaveDivisor : Z := 100.

(** * Data *)

Record scanJob := mkJob { job_target : Target; job_port : Z }.
#[export] Instance scanJob_eq_dec : EqDecision scanJob.
Proof. solve_decision. Defined.

(** What the probe of a job found: nothing, or an observation with its findings
    and the matches the store has for it, or the error of that query. *)
Record probeResult := mkProbe { probe_observation : ServiceObservation; probe_findings : list Finding; probe_matches : result (list CVEMatch) }.

(** A run: the scan as the collecting goroutine holds it, the jobs the feeder has
    not handed over, what [queueJobs] returned, and the jobs workers hold. *)
Record RunState := mkRun {
  run_scan : Scan; run_started : Time; run_feed : list scanJob; run_fed : option bool; run_busy : list scanJob }.

(** Where the goroutine of [schedule] is. A run has a number, for the context a
    call of [Cancel] holds, and its context may be done. *)
Inductive Phase :=
| Waiting
| Taken (scan : Scan)
| Begun (run : nat) (done : bool) (scan : Scan)
| Working (run : nat) (done : bool) (r : RunState)
| Ending (run : nat) (id : string)
| Exited.

(** A call of [Cancel]: after the read of the scan, and after the section under
    the lock with the run whose context it found, if any. *)
Inductive Canceling :=
| CancelRead (scan : Scan)
| CancelMarked (scan : Scan) (run : option nat)
| CancelSignaled (scan : Scan).

Record Engine := mkEngine {
  en_cfg : Config; en_nets : list IPNet; en_db : PolicyDb; en_queue : list Scan; en_closed : bool; en_done : bool;
  en_active : gmap string nat; en_canceled : gset string; en_phase : Phase; en_runs : nat; en_cancels : list Canceling }.

Definition set_db (db : PolicyDb) (e : Engine) : Engine :=
  mkEngine (en_cfg e) (en_nets e) db (en_queue e) (en_closed e) (en_done e) (en_active e) (en_canceled e) (en_phase e) (en_runs e) (en_cancels e).
Definition set_queue (q : list Scan) (e : Engine) : Engine :=
  mkEngine (en_cfg e) (en_nets e) (en_db e) q (en_closed e) (en_done e) (en_active e) (en_canceled e) (en_phase e) (en_runs e) (en_cancels e).
Definition set_phase (p : Phase) (e : Engine) : Engine :=
  mkEngine (en_cfg e) (en_nets e) (en_db e) (en_queue e) (en_closed e) (en_done e) (en_active e) (en_canceled e) p (en_runs e) (en_cancels e).
Definition set_active (a : gmap string nat) (e : Engine) : Engine :=
  mkEngine (en_cfg e) (en_nets e) (en_db e) (en_queue e) (en_closed e) (en_done e) a (en_canceled e) (en_phase e) (en_runs e) (en_cancels e).
Definition set_canceled (c : gset string) (e : Engine) : Engine :=
  mkEngine (en_cfg e) (en_nets e) (en_db e) (en_queue e) (en_closed e) (en_done e) (en_active e) c (en_phase e) (en_runs e) (en_cancels e).
Definition set_cancels (c : list Canceling) (e : Engine) : Engine :=
  mkEngine (en_cfg e) (en_nets e) (en_db e) (en_queue e) (en_closed e) (en_done e) (en_active e) (en_canceled e) (en_phase e) (en_runs e) c.
Definition set_closing (closed done : bool) (e : Engine) : Engine :=
  mkEngine (en_cfg e) (en_nets e) (en_db e) (en_queue e) closed done (en_active e) (en_canceled e) (en_phase e) (en_runs e) (en_cancels e).
Definition next_run (e : Engine) : Engine :=
  mkEngine (en_cfg e) (en_nets e) (en_db e) (en_queue e) (en_closed e) (en_done e) (en_active e) (en_canceled e) (en_phase e) (S (en_runs e)) (en_cancels e).

(** * Scans as a run changes them *)

Definition with_run (s : Scan) (checkpoints : list ScanCheckpoint) (observations : list ServiceObservation) (findings : list Finding)
    (matches : list CVEMatch) (total done : Z) : Scan :=
  mkScan (Scan_ID s) (Scan_Name s) (Scan_Targets s) (Scan_Ports s) (Scan_Status s) (Scan_Error s) observations findings matches total done
    (Scan_CreatedAt s) (Scan_StartedAt s) (Scan_CompletedAt s) (Scan_ScopePolicyID s) (Scan_MaxConcurrent s) (Scan_ScanPolicyID s) checkpoints
    (Scan_ActiveSeconds s) (Scan_WindowEnd s) (Scan_LongAlertSent s) (Scan_RateLimitPerSecond s).

(** The seconds since [started], at least zero, added to the active seconds. *)
Definition with_elapsed (started : option Time) (now : Time) (s : Scan) : Scan :=
  with_active_seconds s (Scan_ActiveSeconds s + match started with Some t => Z.max 0 (whole_seconds (Sub now t)) | None => 0 end).

Definition failed_scan (scan : Scan) (message : string) (now : Time) : Scan :=
  with_status scan StatusFailed message (Scan_StartedAt scan) (Some now) (Scan_WindowEnd scan).

Definition interrupted_scan (scan : Scan) (message : string) (now : Time) : Scan :=
  if bool_decide (Scan_ScanPolicyID scan = "") then failed_scan scan message now
  else with_status (with_elapsed (Scan_StartedAt scan) now scan) StatusPaused message None None (Scan_WindowEnd scan).

Definition canceled_scan (scan : Scan) (now : Time) : Scan :=
  with_status (with_elapsed (Scan_StartedAt scan) now scan) StatusCanceled "scan canceled by user" (Scan_StartedAt scan) (Some now) (Scan_WindowEnd scan).

(** [run] up to its first save: the scan runs. *)
Definition started_scan (scan : Scan) (now : Time) : Scan :=
  let scan := with_status scan StatusRunning (Scan_Error scan) (Some now) (Scan_CompletedAt scan) (Scan_WindowEnd scan) in
  with_run scan (Scan_Checkpoints scan) (Scan_Observations scan) (Scan_Findings scan) (Scan_CVEMatches scan)
    (Z.of_nat (length (Scan_Targets scan)) * Z.of_nat (length (Scan_Ports scan))) (Z.of_nat (length (Scan_Checkpoints scan))).

(** The keys of [completed] are built as those of the worker's executor,
    [fmt.Sprintf("%s:%d", address, port)]. *)
Definition checkpoint_keys (scan : Scan) : gset string :=
  list_to_set ((fun c => executionCheckKey (ScanCheckpoint_Address c) (ScanCheckpoint_Port c)) <$> Scan_Checkpoints scan).
Definition scan_jobs (scan : Scan) : list scanJob := t ← Scan_Targets scan; (fun p => mkJob t p) <$> Scan_Ports scan.
Definition job_key (j : scanJob) : string := executionCheckKey (Target_Address (job_target j)) (job_port j).
Definition pending_jobs (scan : Scan) : list scanJob :=
  List.filter (fun j => negb (bool_decide (job_key j ∈ checkpoint_keys scan))) (scan_jobs scan).

Definition workerCount (cfg : Config) (scan : Scan) : Z :=
  if (Scan_MaxConcurrent scan <? 1) || (Config_MaxConcurrent cfg <? Scan_MaxConcurrent scan) then Config_MaxConcurrent cfg else Scan_MaxConcurrent scan.

Definition saveInterval (scan : Scan) : Z := Z.max 1 (Z.quot (Scan_TotalChecks scan) progressSaveDivisor).

(** The body of the loop over the results, before the progress is saved. *)
Definition collected_scan (scan : Scan) (job : scanJob) (probe : option probeResult) (now : Time) : Scan :=
  let checkpoints := (Scan_Checkpoints scan ++ [mkScanCheckpoint (Target_Address (job_target job)) (job_port job) now])%list in
  match probe with
  | None => with_run scan checkpoints (Scan_Observations scan) (Scan_Findings scan) (Scan_CVEMatches scan) (Scan_TotalChecks scan) (Scan_DoneChecks scan + 1)
  | Some p =>
      with_run scan checkpoints (Scan_Observations scan ++ [probe_observation p])%list (Scan_Findings scan ++ probe_findings p)%list
        (Scan_CVEMatches scan ++ match probe_matches p with Ok ms => ms | Err _ => [] end)%list (Scan_TotalChecks scan) (Scan_DoneChecks scan + 1)
  end.

(** The end of a run whose results were all collected. *)
Definition finished_scan (stopping canceled closedByWindow : bool) (started now : Time) (scan : Scan) : Scan :=
  if stopping then interrupted_scan scan "scan canceled during process shutdown" now
  else if canceled then canceled_scan scan now
  else
    let scan := with_elapsed (Some started) now scan in
    if closedByWindow && (Scan_DoneChecks scan <? Scan_TotalChecks scan)
    then with_status scan StatusPaused "scan paused at the end of its maintenance window" None (Scan_CompletedAt scan) (Scan_WindowEnd scan)
    else with_status scan StatusCompleted (Scan_Error scan) (Scan_StartedAt scan) (Some now) (Scan_WindowEnd scan).

Definition cancelableScanStatus (status : ScanStatus) : bool :=
  bool_decide (status = StatusQueued) || bool_decide (status = StatusRunning) || bool_decide (status = StatusPaused).

(** * The engine *)

Section Engine.
Context (Sum256 : string -> string).

Definition store_scan (scan : Scan) (db : PolicyDb) : PolicyDb := (on_scans (Save Sum256 scan) db).2.
Definition stores (scan : Scan) (db : PolicyDb) : bool := is_ok (on_scans (Save Sum256 scan) db).1.
(** [Save] whose failure is only logged. *)
Definition save_scan (scan : Scan) (e : Engine) : Engine := set_db (store_scan scan (en_db e)) e.

Definition fail (scan : Scan) (message : string) (now : Time) : Engine -> Engine := save_scan (failed_scan scan message now).
Definition interrupt (scan : Scan) (message : string) (now : Time) : Engine -> Engine := save_scan (interrupted_scan scan message now).
Definition finishCanceled (scan : Scan) (now : Time) : Engine -> Engine := save_scan (canceled_scan scan now).

(** [Save], and [fail] with its error when it fails. *)
Definition save_or_fail (scan : Scan) (now : Time) (e : Engine) : Engine :=
  match on_scans (Save Sum256 scan) (en_db e) with
  | (Ok _, db) => set_db db e
  | (Err err, db) => fail scan err now (set_db db e)
  end.

Section New.
Context (julian_seconds : string -> string -> Z).
Definition New (cfg : Config) (now : Time) (db : PolicyDb) : result Engine :=
  validator ← new_validator cfg;
  let defaultPolicy := mkScopePolicy "default" "Default environment policy" (Config_AllowedCIDRs cfg) (sort_slice Z.ltb (elements (Config_AllowedPorts cfg)))
    (Config_MaxTargets cfg) (Config_MaxConcurrent cfg) true in
  match EnsureDefaultScopePolicy defaultPolicy db with
  | (Err err, _) => Err err
  | (Ok _, db) =>
      match on_scans (ReconcileInterrupted julian_seconds now) db with
      | (Err err, _) => Err err
      | (Ok _, db) => Ok (mkEngine cfg (v_nets validator) db [] false false ∅ ∅ Waiting 0 [])
      end
  end.
End New.

(** A call of [Schedule], under the lock; [later] is the clock's reading when
    the queue is full. *)
Definition Schedule (scan : Scan) (later : Time) : st Engine unit := fun e =>
  if en_closed e then (Err "scanner is shutting down", e)
  else match on_scans (Save Sum256 scan) (en_db e) with
  | (Err err, db) => (Err err, set_db db e)
  | (Ok _, db) =>
      let e := set_db db e in
      if Z.of_nat (length (en_queue e)) <? Config_QueueSize (en_cfg e) then (Ok tt, set_queue (en_queue e ++ [scan])%list e)
      else (Err ErrQueueFull, interrupt scan ErrQueueFull later e)
  end.

(** * Cancellation *)

(** [Cancel]: the read of the scan. *)
Definition cancel_read (id : string) : st Engine unit := fun e =>
  match Get id (pdb_scans (en_db e)) with
  | Err err => (Err err, e)
  | Ok scan =>
      if negb (cancelableScanStatus (Scan_Status scan)) then (Err ErrScanNotCancelable, e)
      else (Ok tt, set_cancels (en_cancels e ++ [CancelRead scan])%list e)
  end.

(** The section under the lock. *)
Definition cancel_mark (scan : Scan) (e : Engine) : Engine * option nat :=
  let id := Scan_ID scan in
  let run := en_active e !! id in
  let marks := bool_decide (is_Some run) || bool_decide (Scan_Status scan = StatusQueued) || bool_decide (Scan_Status scan = StatusRunning) in
  (if marks then set_canceled ({[id]} ∪ en_canceled e) e else e, run).

(** [cancel()] of a run: its context is done, if the run is still the current one. *)
Definition cancel_signal (run : nat) (e : Engine) : Engine :=
  match en_phase e with
  | Begun n _ scan => if bool_decide (n = run) then set_phase (Begun n true scan) e else e
  | Working n _ r => if bool_decide (n = run) then set_phase (Working n true r) e else e
  | _ => e
  end.

(** The next action of a call of [Cancel]. *)
Definition cancel_step (i : nat) (now : Time) (e : Engine) : option Engine :=
  match en_cancels e !! i with
  | Some (CancelRead scan) => let '(e, run) := cancel_mark scan e in Some (set_cancels (<[i := CancelMarked scan run]> (en_cancels e)) e)
  | Some (CancelMarked scan run) =>
      let e := match run with Some run => cancel_signal run e | None => e end in
      Some (set_cancels (<[i := CancelSignaled scan]> (en_cancels e)) e)
  | Some (CancelSignaled scan) => Some (finishCanceled scan now (set_cancels (delete i (en_cancels e)) e))
  | None => None
  end.

Definition consumeCanceled (id : string) (e : Engine) : bool * Engine :=
  if bool_decide (id ∈ en_canceled e) then (true, set_canceled (en_canceled e ∖ {[id]}) e) else (false, e).

(** * A run *)

Definition beginScan (scan : Scan) (now : Time) (e : Engine) : Engine :=
  let id := Scan_ID scan in
  if bool_decide (id ∈ en_canceled e) then finishCanceled scan now (set_phase Waiting (set_canceled (en_canceled e ∖ {[id]}) e))
  else set_phase (Begun (en_runs e) false scan) (next_run (set_active (<[id := en_runs e]> (en_active e)) e)).

Definition endScan (id : string) (e : Engine) : Engine :=
  set_phase Waiting (set_canceled (en_canceled e ∖ {[id]}) (set_active (delete id (en_active e)) e)).

(** The run's first save; the workers and the feeder start. *)
Definition startRun (run : nat) (done : bool) (scan : Scan) (now : Time) (e : Engine) : Engine :=
  let scan := started_scan scan now in
  match on_scans (Save Sum256 scan) (en_db e) with
  | (Err err, db) => set_phase (Ending run (Scan_ID scan)) (fail scan err now (set_db db e))
  | (Ok _, db) => set_phase (Working run done (mkRun scan now (pending_jobs scan) None [])) (set_db db e)
  end.

(** How the feeder ends early: the context is done, or the window's end came;
    when both happened it reports either. *)
Inductive feed_stop := FeedCanceled | FeedWindow.

(** The events of a run's goroutines. *)
Inductive RunEvent :=
| RunHand                                            (** the feeder hands the next job to a worker *)
| RunFed                                             (** the feeder has handed over every job *)
| RunFeedStop (why : feed_stop)
| RunCollect (i : nat) (probe : option probeResult) (now : Time)   (** the result of a worker is received *)
| RunDrop (i : nat)                                  (** a worker leaves with its result *)
| RunFinish (now : Time).                            (** the results are closed and the feeder is done *)

(** [done]: the context of the run is done. *)
Definition run_step (cfg : Config) (done : bool) (ev : RunEvent) (r : RunState) : option RunState :=
  match ev with
  | RunHand =>
      match run_fed r, run_feed r with
      | None, j :: feed =>
          if Z.of_nat (length (run_busy r)) <? workerCount cfg (run_scan r) then Some (mkRun (run_scan r) (run_started r) feed None (run_busy r ++ [j])%list) else None
      | _, _ => None
      end
  | RunFed =>
      match run_fed r, run_feed r with
      | None, [] => Some (mkRun (run_scan r) (run_started r) [] (Some false) (run_busy r))
      | _, _ => None
      end
  | RunFeedStop why =>
      match run_fed r, why with
      | None, FeedCanceled => if done then Some (mkRun (run_scan r) (run_started r) (run_feed r) (Some false) (run_busy r)) else None
      | None, FeedWindow =>
          match Scan_WindowEnd (run_scan r) with Some _ => Some (mkRun (run_scan r) (run_started r) (run_feed r) (Some true) (run_busy r)) | None => None end
      | Some _, _ => None
      end
  | RunCollect i probe now =>
      match run_busy r !! i with
      | Some j => Some (mkRun (collected_scan (run_scan r) j probe now) (run_started r) (run_feed r) (run_fed r) (delete i (run_busy r)))
      | None => None
      end
  | RunDrop i =>
      if done && bool_decide (is_Some (run_busy r !! i)) then Some (mkRun (run_scan r) (run_started r) (run_feed r) (run_fed r) (delete i (run_busy r))) else None
  | RunFinish _ => None
  end.

(** The progress is saved after every [saveInterval]-th result. *)
Definition save_progress (scan : Scan) (e : Engine) : Engine :=
  if Z.rem (Scan_DoneChecks scan) (saveInterval scan) =? 0 then save_scan scan e else e.

Definition run_event (ev : RunEvent) (n : nat) (done : bool) (r : RunState) (e : Engine) : option Engine :=
  match ev with
  | RunFinish now =>
      match run_fed r, run_busy r with
      | Some closedByWindow, [] =>
          let scan := finished_scan (en_done e) done closedByWindow (run_started r) now (run_scan r) in
          let e := if en_done e || done then save_scan scan e else save_or_fail scan now e in
          Some (set_phase (Ending n (Scan_ID (run_scan r))) e)
      | _, _ => None
      end
  | _ =>
      match run_step (en_cfg e) (done || en_done e) ev r with
      | None => None
      | Some r =>
          let e := set_phase (Working n done r) e in
          Some (match ev with RunCollect _ _ _ => save_progress (run_scan r) e | _ => e end)
      end
  end.

(** * Events *)

Inductive Event :=
| EvSchedule (scan : Scan) (later : Time)
| EvCancel (id : string)                 (** a call of [Cancel] reads the scan *)
| EvCancelStep (i : nat) (now : Time)    (** the next action of the i-th pending call *)
| EvShutdown                             (** [Shutdown] closes the engine *)
| EvContextDone                          (** and cancels its context *)
| EvExit                                 (** the goroutine leaves [schedule] *)
| EvDrain (now : Time)                   (** [Shutdown] empties the queue *)
| EvTake                                 (** a queued scan is received *)
| EvBegin (now : Time)
| EvStart (now : Time)
| EvRun (ev : RunEvent)
| EvEnd.                                 (** [endScan] *)

Definition engine_step (ev : Event) (e : Engine) : option Engine :=
  match ev with
  | EvSchedule scan later => Some (Schedule scan later e).2
  | EvCancel id => Some (cancel_read id e).2
  | EvCancelStep i now => cancel_step i now e
  | EvShutdown => if en_closed e then None else Some (set_closing true (en_done e) e)
  | EvContextDone => if en_closed e && negb (en_done e) then Some (set_closing true true e) else None
  | EvExit => match en_phase e with Waiting => if en_done e then Some (set_phase Exited e) else None | _ => None end
  | EvDrain now =>
      match en_phase e, en_queue e with
      | Exited, scan :: queue =>
          let '(canceled, e) := consumeCanceled (Scan_ID scan) (set_queue queue e) in
          Some (if canceled then finishCanceled scan now e else interrupt scan "scan canceled during process shutdown" now e)
      | _, _ => None
      end
  | EvTake => match en_phase e, en_queue e with Waiting, scan :: queue => Some (set_phase (Taken scan) (set_queue queue e)) | _, _ => None end
  | EvBegin now => match en_phase e with Taken scan => Some (beginScan scan now e) | _ => None end
  | EvStart now => match en_phase e with Begun n done scan => Some (startRun n done scan now e) | _ => None end
  | EvRun ev => match en_phase e with Working n done r => run_event ev n done r e | _ => None end
  | EvEnd => match en_phase e with Ending _ id => Some (endScan id e) | _ => None end
  end.

Fixpoint engine_run (evs : list Event) (e : Engine) : option Engine :=
  match evs with
  | [] => Some e
  | ev :: evs => match engine_step ev e with Some e => engine_run evs e | None => None end
  end.
End Engine.

Definition Ready (e : Engine) : bool := negb (en_closed e).
