(* ===== verification/ScanAdmin.v ===== *)
(** The requests on scans, policies, assets and reports: the handlers of
    internal/api/api.go (scans), scope_policy.go, asset_group.go, asset.go,
    finding.go and reporting.go, from the authenticated user and the decoded
    body to the status, the body and the state they leave. Sessions, decoding,
    audit events and logging are not kept; random identifiers are arguments. *)
From Stdlib Require Import ZArith Lia String Ascii.
From stdpp Require Import base tactics list strings gmap sets.
From S2P Require Import Prelude GoStrings GoTime GoLocation Netip WorkerModel Sql WorkerService EndpointService EndpointAdmin UserStore ScanModel ScanScope AssetStore ScanStore ScanPolicyStore ScanSchedule ScanEngine.
Open Scope string_scope.
Open Scope Z_scope.



(** utf8.RuneCountInString of valid UTF-8: the bytes that do not continue a rune. *)
Fixpoint RuneCountInString (s : string) : Z :=
  match s with
  | EmptyString => 0
  | String c rest => (if in_range 128 (byte_val c) 191 then 0 else 1) + RuneCountInString rest
  end.

(** The handlers that end without a body. *)
Definition answer_unit {S} (m : st S unit) (failure : error -> Z) : S -> Response unit * S := fun s =>
  match m s with
  | (Err e, s) => (refuse (failure e), s)
  | (Ok _, s) => (respond StatusNoContent None, s)
  end.
Definition answer_with {S A} (m : st S unit) (failure : error -> Z) (status : Z) (body : A) : S -> Response A * S := fun s =>
  match m s with
  | (Err e, s) => (refuse (failure e), s)
  | (Ok _, s) => (respond status (Some body), s)
  end.

Section Admin.
Context {TZ : TimeZones} (ParseStandard : string -> option (Location -> Time -> Time)).
Context (LookupHost : string -> option (list (list Byte.byte))) (engine : Validator).

(** * api.go: scans *)

Definition maxScanNameLength : Z := 100.

Definition requestScopePolicy (requestedID : string) (db : PolicyDb) : result ScopePolicy :=
  if negb (bool_decide (requestedID = "")) then
    match ScopePolicyByID requestedID db with
    | Ok policy => if Scope_Enabled policy then Ok policy else Err "scope policy is unavailable"
    | Err _ => Err "scope policy is unavailable"
    end
  else
    let fallback := match ListScopePolicies true db with policy :: _ => Ok policy | [] => Err "no enabled scope policy is available" end in
    match ScopePolicyByID "default" db with
    | Ok policy => if Scope_Enabled policy then Ok policy else fallback
    | Err _ => fallback
    end.


(** [Schedule] is the engine's. *)
Definition createScan (Schedule : Scan -> st PolicyDb unit) (role : UserRole) (req : CreateScanRequest) (id : string) (now : Time)
  : PolicyDb -> Response Scan * PolicyDb := fun db =>
  if bool_decide (role = RoleViewer) then (refuse StatusForbidden, db)
  else match requestScopePolicy (Request_ScopePolicyID req) db with
  | Err _ => (refuse StatusBadRequest, db)
  | Ok policy =>
      match ValidateWithPolicy LookupHost engine req policy with
      | Err _ => (refuse StatusBadRequest, db)
      | Ok (targets, ports) =>
          let name := TrimSpace (Request_Name req) in
          let name := if bool_decide (name = "") then "Untitled scan" else name in
          if maxScanNameLength <? strlen name then (refuse StatusBadRequest, db)
          else
            let scan := mkScan id name targets ports StatusQueued "" [] [] [] (Z.of_nat (length targets) * Z.of_nat (length ports)) 0 now None None
                          (Scope_ID policy) (Scope_MaxConcurrent policy) "" [] 0 None false 0 in
            answer_with (Schedule scan) (fun e => if bool_decide (e = ErrQueueFull) then StatusServiceUnavailable else StatusInternalServerError)
              StatusAccepted scan db
      end
  end.

Definition cancelScan (Cancel : string -> st PolicyDb unit) (role : UserRole) (id : string) : PolicyDb -> Response unit * PolicyDb := fun db =>
  if bool_decide (role = RoleViewer) then (refuse StatusForbidden, db)
  else answer_unit (Cancel id) (fun e => if bool_decide (e = ErrNotFound) then StatusNotFound
    else if bool_decide (e = ErrScanNotCancelable) then StatusConflict else StatusInternalServerError) db.

(** * scope_policy.go *)

(** [id] is the path's, or drawn when that is empty. *)
Definition saveScopePolicy (id : string) (policy : ScopePolicy) : PolicyDb -> Response ScopePolicy * PolicyDb := fun db =>
  let policy := mkScopePolicy id (TrimSpace (Scope_Name policy)) (Scope_AllowedCIDRs policy) (Scope_AllowedPorts policy) (Scope_MaxTargets policy)
                  (Scope_MaxConcurrent policy) (Scope_Enabled policy) in
  if bool_decide (Scope_Name policy = "") then (refuse StatusBadRequest, db)
  else match ValidatePolicy engine policy with
  | Err _ => (refuse StatusBadRequest, db)
  | Ok _ => answer_with (UpsertScopePolicy policy) (fun _ => StatusBadRequest) StatusOK policy db
  end.

(** * asset_group.go *)

Definition groupTextLimit : Z := 500.
Definition maximumPolicyChecksPerSecond : Z := 1000.

(** [id] is the path's, or drawn ([fresh]); an existing group keeps its date. *)
Definition saveAssetGroup (fresh : bool) (id : string) (group : AssetGroup) (now : Time) : PolicyDb -> Response AssetGroup * PolicyDb := fun db =>
  let name := TrimSpace (Group_Name group) in
  let description := TrimSpace (Group_Description group) in
  if bool_decide (name = "") || (200 <? strlen name) || (groupTextLimit <? strlen description) then (refuse StatusBadRequest, db)
  else
    let current := if fresh then now
                   else fold_left (fun t g => if bool_decide (Group_ID g = id) then Group_CreatedAt g else t) (ListAssetGroups db) (Group_CreatedAt group) in
    let created := if IsZero current then now else current in
    answer_with (UpsertAssetGroup id name description created now) (fun _ => StatusBadRequest) StatusOK
      (mkAssetGroup id name description (Group_AssetIDs group) (Group_ScanPolicyIDs group) created now) db.

Definition overlapRequiresAcknowledgement (overlaps : list string) (acknowledged : bool) : bool := (0 <? Z.of_nat (length overlaps)) && negb acknowledged.

Definition addAssetGroupMember (actorID groupID assetID : string) (acknowledged : bool) (now : Time) : PolicyDb -> Response unit * PolicyDb := fun db =>
  let overlaps := List.filter (fun id => negb (bool_decide (id = groupID))) (AssetGroupMemberships assetID db) in
  if overlapRequiresAcknowledgement overlaps acknowledged then (refuse StatusConflict, db)
  else answer_unit (AddAssetGroupMember groupID assetID actorID now) (fun _ => StatusBadRequest) db.

Definition removeAssetGroupMember (groupID assetID : string) : PolicyDb -> Response unit * PolicyDb :=
  answer_unit (RemoveAssetGroupMember groupID assetID) (fun _ => StatusNotFound).

(** The expression for a site: words of lower-case letters and digits joined by single hyphens. *)
Definition scanPolicyWorkerSitePattern (s : string) : bool :=
  forallb (fun word => negb (bool_decide (word = "")) &&
    str_forall (fun c => in_range 97 (byte_val c) 122 || in_range 48 (byte_val c) 57) word) (split_byte "-" s).

Definition uniqueStrings (values : list string) : list string :=
  fold_left (fun seen value => if bool_decide (value = "") || mem_id value seen then seen else (seen ++ [value])%list) values [].

(** The ports as the keys of a map, sorted. *)
Definition unique_sorted_ports (ports : list Z) : list Z := sort_slice Z.ltb (elements (list_to_set ports : gset Z)).

Definition prepareReusableScanPolicy (p : ReusableScanPolicy) (now : Time) (db : PolicyDb) : result ReusableScanPolicy :=
  let name := TrimSpace (Policy_Name p) in
  reject bool_decide (name = "") || (200 <? strlen name) as "scan policy name is invalid" ;;
  reject bool_decide (Policy_GroupIDs p = []) as "select at least one asset group" ;;
  reject (Policy_RateLimitPerSecond p <? 0) || (maximumPolicyChecksPerSecond <? Policy_RateLimitPerSecond p)
    as "rate limit must be between 0 and 1000 checks per second" ;;
  let mode := if bool_decide (Policy_ExecutionMode p = "") then ScanExecutionLocal else Policy_ExecutionMode p in
  let site := ToLower (TrimSpace (Policy_WorkerSiteID p)) in
  reject negb (bool_decide (mode = ScanExecutionLocal)) && negb (bool_decide (mode = ScanExecutionRemote)) as "scan policy execution must be local or remote" ;;
  let site := if bool_decide (mode = ScanExecutionLocal) then "" else site in
  reject (64 <? strlen site) || (negb (bool_decide (site = "")) && negb (scanPolicyWorkerSitePattern site))
    as "remote worker site must contain lowercase letters, numbers, and single hyphens" ;;
  match ScopePolicyByID (Policy_ScopePolicyID p) db with
  | Err _ => Err "authorization scope policy is unavailable"
  | Ok scope =>
      reject negb (Scope_Enabled scope) as "authorization scope policy is unavailable" ;;
      reject existsb (fun port => negb (existsb (fun allowed => allowed =? port) (Scope_AllowedPorts scope))) (Policy_Ports p)
        as "scan policy contains a port outside its authorization scope" ;;
      reject bool_decide (Policy_Ports p = []) as "select at least one port" ;;
      Prepare ParseStandard
        (mkScanPolicy (Policy_ID p) name (Policy_ScopePolicyID p) (uniqueStrings (Policy_GroupIDs p)) (unique_sorted_ports (Policy_Ports p)) (Policy_Enabled p)
           (Policy_ScheduleKind p) (Policy_ScheduleExpression p) (Policy_ScheduleTimezone p) (Policy_WindowStart p) (Policy_WindowEnd p) (Policy_RunMissed p)
           (Policy_LongRunAlertSeconds p) (Policy_RateLimitPerSecond p) mode site (Policy_NextRunAt p) (Policy_LastScheduledAt p)) now
  end.

Definition with_policy_id (id : string) (p : ReusableScanPolicy) : ReusableScanPolicy :=
  mkScanPolicy id (Policy_Name p) (Policy_ScopePolicyID p) (Policy_GroupIDs p) (Policy_Ports p) (Policy_Enabled p) (Policy_ScheduleKind p)
    (Policy_ScheduleExpression p) (Policy_ScheduleTimezone p) (Policy_WindowStart p) (Policy_WindowEnd p) (Policy_RunMissed p)
    (Policy_LongRunAlertSeconds p) (Policy_RateLimitPerSecond p) (Policy_ExecutionMode p) (Policy_WorkerSiteID p) (Policy_NextRunAt p) (Policy_LastScheduledAt p).

(** [fresh] is the identifier drawn for a policy without one. *)
Definition saveReusableScanPolicy (id fresh : string) (policy : ReusableScanPolicy) (now : Time) : PolicyDb -> Response ReusableScanPolicy * PolicyDb := fun db =>
  match prepareReusableScanPolicy (with_policy_id id policy) now db with
  | Err _ => (refuse StatusBadRequest, db)
  | Ok policy =>
      let policy := if bool_decide (id = "") then with_policy_id fresh policy else policy in
      answer_with (UpsertReusableScanPolicy policy) (fun _ => StatusBadRequest) StatusOK policy db
  end.

Definition runReusableScanPolicy (Launch : Scan -> ReusableScanPolicy -> st PolicyDb unit) (role : UserRole) (id scanID : string) (now : Time)
  : PolicyDb -> Response Scan * PolicyDb := fun db =>
  if bool_decide (role = RoleViewer) then (refuse StatusForbidden, db)
  else match ReusableScanPolicyByID id db with
  | Err _ => (refuse StatusNotFound, db)
  | Ok policy =>
      if negb (Policy_Enabled policy) then (refuse StatusNotFound, db)
      else match Window policy now with
      | Ok (true, windowEnd) =>
          let source := ReusableScanPolicyTargets (Policy_ID policy) db in
          if bool_decide (source = []) then (refuse StatusBadRequest, db)
          else match requestScopePolicy (Policy_ScopePolicyID policy) db with
          | Err _ => (refuse StatusBadRequest, db)
          | Ok scope =>
              match ValidateWithPolicy LookupHost engine (mkScanRequest "" (Target_Address <$> source) (Policy_Ports policy) "") scope with
              | Err _ => (refuse StatusBadRequest, db)
              | Ok (targets, ports) =>
                  let targets := (fun t =>
                    match List.find (fun item => bool_decide (Target_Address item = Target_Address t)) (rev source) with
                    | Some item => {| Target_Name := Target_Name item; Target_Address := Target_Address t; Target_GroupIDs := Target_GroupIDs item |}
                    | None => t
                    end) <$> targets in
                  let scan := mkScan scanID (Policy_Name policy) targets ports StatusQueued "" [] [] []
                                (Z.of_nat (length targets) * Z.of_nat (length ports)) 0 now None None (Scope_ID scope) (Scope_MaxConcurrent scope)
                                (Policy_ID policy) [] 0 windowEnd false (Policy_RateLimitPerSecond policy) in
                  answer_with (Launch scan policy) (fun _ => StatusServiceUnavailable) StatusAccepted scan db
              end
          end
      | _ => (refuse StatusConflict, db)
      end
  end.
End Admin.

(** * asset.go *)

Definition assetMetadataLimit : Z := 200.
Definition assetRetirementReasonLimit : Z := 500.
Definition assetEligibilityReasonLimit : Z := 500.

Definition asset_failure (e : error) : Z := if bool_decide (e = ErrAssetNotFound) then StatusNotFound else StatusInternalServerError.

Definition validAssetMetadata (owner environment classification : string) : bool :=
  (RuneCountInString owner <=? assetMetadataLimit) && (RuneCountInString environment <=? assetMetadataLimit) &&
  (RuneCountInString classification <=? assetMetadataLimit).

Definition updateAsset (role : UserRole) (id owner environment classification : string) : AssetDb -> Response unit * AssetDb := fun db =>
  let owner := TrimSpace owner in let environment := TrimSpace environment in let classification := TrimSpace classification in
  if bool_decide (role = RoleViewer) then (refuse StatusForbidden, db)
  else if negb (validAssetMetadata owner environment classification) then (refuse StatusBadRequest, db)
  else answer_unit (UpdateAssetMetadata id owner environment classification) asset_failure db.

Definition validateAssetAgentEligibility (status : AgentEligibilityStatus) (reason : string) : result unit :=
  reject negb (bool_decide (status = AgentEligibilityUnknown)) && negb (bool_decide (status = AgentEligibilityEligible)) &&
         negb (bool_decide (status = AgentEligibilityIneligible)) as "agent eligibility must be unknown, eligible, or ineligible" ;;
  reject bool_decide (status = AgentEligibilityIneligible) && bool_decide (reason = "") as "ineligible assets require a reason" ;;
  reject assetEligibilityReasonLimit <? RuneCountInString reason as "agent eligibility reason must not exceed 500 characters" ;;
  Ok tt.

Definition updateAssetAgentEligibility (actorID id : string) (status : AgentEligibilityStatus) (reason : string) (now : Time)
  : AssetDb -> Response unit * AssetDb := fun db =>
  let reason := TrimSpace reason in
  if negb (is_ok (validateAssetAgentEligibility status reason)) then (refuse StatusBadRequest, db)
  else
    let reason := if bool_decide (status = AgentEligibilityUnknown) then "" else reason in
    answer_unit (UpdateAssetAgentEligibility id status reason actorID now) asset_failure db.

Definition updateAssetLifecycle (actorID id : string) (status : AssetLifecycleStatus) (reason : string) (now : Time)
  : AssetDb -> Response unit * AssetDb := fun db =>
  let reason := TrimSpace reason in
  if bool_decide (status = AssetRetired) && bool_decide (reason = "") then (refuse StatusBadRequest, db)
  else if assetRetirementReasonLimit <? RuneCountInString reason then (refuse StatusBadRequest, db)
  else answer_unit (UpdateAssetLifecycle id status reason actorID now)
         (fun e => if bool_decide (e = ErrInvalidAssetLifecycle) then StatusBadRequest else asset_failure e) db.

Definition updateAssetAgingSettings (days : Z) : AssetDb -> Response unit * AssetDb :=
  answer_unit (UpdateAssetAgingSettings days) (fun _ => StatusBadRequest).

Definition mergeAssets (request : AssetMergeRequest) : AssetDb -> Response unit * AssetDb :=
  answer_unit (MergeAssets request) (fun e => if bool_decide (e = ErrAssetNotFound) then StatusNotFound else StatusBadRequest).

(** * finding.go and reporting.go *)

Definition updateFindingWorkflow (role : UserRole) (id : string) (status : FindingStatus) (assignedTo : string) (now : Time) : ScanDb -> Response unit * ScanDb := fun db =>
  if bool_decide (role = RoleViewer) then (refuse StatusForbidden, db)
  else answer_unit (UpdateFindingWorkflow id status (TrimSpace assignedTo) now)
    (fun e => if bool_decide (e = ErrFindingNotFound) then StatusNotFound
              else if bool_decide (e = ErrInvalidFindingWorkflow) then StatusBadRequest else StatusInternalServerError) db.

(** [id] is the random identifier. *)
Definition requestException (role : UserRole) (actorID findingID id reason : string) (expiresAt : option Time) (reminderDays : Z) (now : Time)
  : ScanDb -> Response FindingException * ScanDb := fun db =>
  if bool_decide (role = RoleViewer) then (refuse StatusForbidden, db)
  else
    let v := mkFindingException id findingID (TrimSpace reason) ExceptionPending actorID "" now expiresAt (if reminderDays =? 0 then 30 else reminderDays) None in
    if bool_decide (Exception_Reason v = "") then (refuse StatusBadRequest, db)
    else answer_with (SaveFindingException v) (fun _ => StatusBadRequest) StatusCreated v db.

Definition reviewException (actorID id : string) (status : FindingExceptionStatus) : ScanDb -> Response unit * ScanDb :=
  answer_unit (ReviewFindingException id status actorID) (fun _ => StatusBadRequest).

Record ReportingTrendPoint := mkTrendPoint { Trend_Date : string; Trend_Findings : Z; Trend_Resolved : Z }.
Record ReportingSummary := mkSummary {
  Summary_TotalScans : Z; Summary_TotalFindings : Z; Summary_OpenFindings : Z; Summary_ResolvedFindings : Z; Summary_AcceptedRisk : Z;
  Summary_Severity : gmap string Z; Summary_Trend : list ReportingTrendPoint }.

(** [t.Format("2006-01-02")] *)
Definition format_day (t : Time) : string := format_date (civil_of_days (t / Second / 86400)).

Definition count_finding (date : string) (s : ReportingSummary) (f : Finding) : ReportingSummary :=
  let resolved := bool_decide (Finding_Status f = FindingResolved) in
  mkSummary (Summary_TotalScans s) (Summary_TotalFindings s + 1) (Summary_OpenFindings s + if resolved then 0 else 1)
    (Summary_ResolvedFindings s + if resolved then 1 else 0) (Summary_AcceptedRisk s)
    (<[Finding_Severity f := default 0 (Summary_Severity s !! Finding_Severity f) + 1]> (Summary_Severity s))
    (update_where (fun p => bool_decide (Trend_Date p = date))
       (fun p => mkTrendPoint (Trend_Date p) (Trend_Findings p + 1) (Trend_Resolved p + if resolved then 1 else 0)) (Summary_Trend s)).

Definition count_scan (s : ReportingSummary) (scan : Scan) : ReportingSummary :=
  let date := format_day (Scan_CreatedAt scan) in
  let s := if existsb (fun p => bool_decide (Trend_Date p = date)) (Summary_Trend s) then s
           else mkSummary (Summary_TotalScans s) (Summary_TotalFindings s) (Summary_OpenFindings s) (Summary_ResolvedFindings s) (Summary_AcceptedRisk s)
                  (Summary_Severity s) (Summary_Trend s ++ [mkTrendPoint date 0 0]) in
  fold_left (count_finding date) (Scan_Findings scan) s.

Definition buildSummary (scans : list Scan) : ReportingSummary :=
  fold_left count_scan scans (mkSummary (Z.of_nat (length scans)) 0 0 0 0 ∅ []).

Definition reportingSummary (now : Time) (db : ScanDb) : Response ReportingSummary :=
  match ListScans db with
  | Err _ => refuse StatusInternalServerError
  | Ok scans =>
      let s := buildSummary scans in
      let accepted := List.filter (fun e => bool_decide (Exception_Status e = ExceptionApproved) &&
        match Exception_ExpiresAt e with None => true | Some t => After t now end) (ListFindingExceptions db) in
      respond StatusOK (Some (mkSummary (Summary_TotalScans s) (Summary_TotalFindings s) (Summary_OpenFindings s) (Summary_ResolvedFindings s)
        (Z.of_nat (length accepted)) (Summary_Severity s) (Summary_Trend s)))
  end.
