(* ===== verification/ScanScheduleSafety.v ===== *)
(** What the scheduler guarantees: when a policy's window is open, when a scan is
    launched, and that the scheduler never runs a policy twice at a time. *)
From Stdlib Require Import ZArith Lia String Ascii.
From stdpp Require Import base tactics list strings gmap sets.
From S2P Require Import Prelude GoStrings GoTime GoLocation Netip WorkerModel Sql ScanModel ScanScope AssetStore ScanStore ScanStoreSafety ScanPolicyStore ScanSchedule.
Open Scope string_scope.
Open Scope Z_scope.

(** * Maintenance windows *)

Lemma parseClock_range s h m : parseClock s = Ok (h, m) -> 0 <= h <= 23 /\ 0 <= m <= 59.
Proof.
  unfold parseClock. destruct (split_byte ":" s) as [|a [|b [|c l]]]; try done.
  destruct (ParseInt64 a), (ParseInt64 b); try done. destruct (_ || _) eqn:E; [done|]. intros [= -> ->].
  rewrite !orb_false_iff, !Z.ltb_ge in E. lia.
Qed.

(** The minute of the day a clock text names. *)
Definition clock_minute (hm : Z * Z) : Z := hm.1 * 60 + hm.2.
(** The seconds since midnight on the wall clock. *)
Definition day_seconds (loc : Location) (t : Time) : Z := wall_seconds loc t mod 86400.

Section Window.
Context {TZ : TimeZones}.

(** [Date] of today's date at a clock time, in a fixed zone. *)
Lemma today_at loc off now h m : fixed_zone loc off ->
  (let '(y, mo, d) := Date_of loc now in Date y mo d h m 0 0 loc) = ((wall_seconds loc now / 86400) * 86400 + (h * 60 + m) * 60 - off) * Second.
Proof.
  intros H. unfold Date_of. pose proof (days_of_civil_of_days (wall_seconds loc now / 86400)) as D.
  destruct (civil_of_days _) as [[y mo] d]. rewrite (Date_fixed loc off), D by done. lia.
Qed.

(** A maintenance window is open exactly between its clock times. In a
    location whose offset is fixed and for a window with two different valid
    clock times, the window is open at an instant if and only if the local time
    of day is at or after the start and before the end, or, for a window across
    midnight, at or after the start or before the end; and the end it reports
    is later than the instant by at most a day and falls on the end's clock
    time, where the window is closed. *)
Theorem window_exact policy loc off now start end_ : LoadLocation (Policy_ScheduleTimezone policy) = Some loc -> fixed_zone loc off ->
  parseClock (Policy_WindowStart policy) = Ok start -> parseClock (Policy_WindowEnd policy) = Ok end_ -> clock_minute start <> clock_minute end_ ->
  exists inside t, Window policy now = Ok (inside, Some t) /\
    (inside = true <-> if clock_minute start <? clock_minute end_
                       then clock_minute start * 60 <= day_seconds loc now < clock_minute end_ * 60
                       else clock_minute start * 60 <= day_seconds loc now \/ day_seconds loc now < clock_minute end_ * 60) /\
    (inside = true -> now < t <= now + 86400 * Second) /\
    day_seconds loc t = clock_minute end_ * 60 /\ exists i u, Window policy t = Ok (i, Some u) /\ i = false.
Proof.
  intros Hl Hf Hs He Hne. destruct start as [sh sm], end_ as [eh em]. unfold clock_minute in *. simpl in *.
  pose proof (parseClock_range _ _ _ Hs). pose proof (parseClock_range _ _ _ He).
  assert (Hws : bool_decide (Policy_WindowStart policy = "") = false) by (apply bool_decide_eq_false; intros E; rewrite E in Hs; done).
  set (s := sh * 60 + sm) in *. set (e := eh * 60 + em) in *.
  (* the window at any instant *)
  assert (HW : forall t, let day := wall_seconds loc t / 86400 in
    Window policy t = Ok
      (if s <? e then (negb (Before t ((day * 86400 + s * 60 - off) * Second)) && Before t ((day * 86400 + e * 60 - off) * Second), Some ((day * 86400 + e * 60 - off) * Second))
       else if Before t ((day * 86400 + e * 60 - off) * Second)
       then (negb (Before t (((day - 1) * 86400 + s * 60 - off) * Second)) && Before t ((day * 86400 + e * 60 - off) * Second), Some ((day * 86400 + e * 60 - off) * Second))
       else (negb (Before t ((day * 86400 + s * 60 - off) * Second)) && Before t (((day + 1) * 86400 + e * 60 - off) * Second), Some (((day + 1) * 86400 + e * 60 - off) * Second)))).
  { intros t day. unfold Window. rewrite Hl, Hws. unfold clock_or_zero. rewrite Hs, He.
    pose proof (today_at loc off t sh sm Hf) as E1. pose proof (today_at loc off t eh em Hf) as E2. fold s e day in E1, E2.
    destruct (Date_of loc t) as [[y mo] d]. rewrite E1, E2. unfold After.
    assert (Ec : ((day * 86400 + s * 60 - off) * Second <? (day * 86400 + e * 60 - off) * Second) = (s <? e)) by (unfold Second; destruct (Z.ltb_spec s e); [apply Z.ltb_lt|apply Z.ltb_ge]; lia).
    rewrite Ec. destruct (s <? e) eqn:Ese; simpl; [done|].
    destruct (Before t _) eqn:Eb; rewrite (AddDays_fixed loc off) by done.
    - replace ((day * 86400 + s * 60 - off) * Second + -1 * 86400 * Second) with (((day - 1) * 86400 + s * 60 - off) * Second) by ring. by rewrite Eb.
    - by replace ((day * 86400 + e * 60 - off) * Second + 1 * 86400 * Second) with (((day + 1) * 86400 + e * 60 - off) * Second) by ring. }
  assert (Hd : forall t, t / Second = wall_seconds loc t / 86400 * 86400 + day_seconds loc t - off /\ 0 <= day_seconds loc t < 86400).
  { intros t. pose proof (wall_seconds_fixed loc off t Hf) as Ew. unfold Unix, day_seconds in *. pose proof (Z.div_mod (wall_seconds loc t) 86400). pose proof (Z.mod_pos_bound (wall_seconds loc t) 86400). lia. }
  assert (Hlt : forall t x, (t <? x * Second) = (t / Second <? x)).
  { intros t x. destruct (Z.ltb_spec (t / Second) x) as [L|L]; [apply Z.ltb_lt|apply Z.ltb_ge]; unfold Second in *; Z.to_euclidean_division_equations; lia. }
  assert (Hat : forall day, let t := (day * 86400 + e * 60 - off) * Second in day_seconds loc t = e * 60 /\ wall_seconds loc t / 86400 = day).
  { intros day t. pose proof (wall_seconds_fixed loc off t Hf) as Ew. unfold Unix, t in Ew. rewrite Z.div_mul in Ew by done.
    unfold day_seconds. fold t in Ew. rewrite Ew. split; Z.to_euclidean_division_equations; lia. }
  assert (Hclosed : forall day, exists u, Window policy ((day * 86400 + e * 60 - off) * Second) = Ok (false, Some u)).
  { intros day. destruct (Hat day) as [E1 E2]. rewrite HW. cbv zeta. rewrite E2. unfold Before. rewrite !Hlt, !Z.div_mul by done.
    rewrite Z.ltb_irrefl, andb_false_r. destruct (s <? e) eqn:Ese; [by eexists|]. eexists. f_equal. f_equal.
    apply andb_false_iff. left. apply negb_false_iff, Z.ltb_lt. lia. }
  destruct (Hd now) as [Ed Hr]. specialize (HW now). cbv zeta in HW. set (day := wall_seconds loc now / 86400) in *. unfold Before in HW. rewrite !Hlt in HW.
  assert (Hbound : forall x, now / Second < x <= now / Second + 86400 -> now < x * Second <= now + 86400 * Second).
  { intros x Hx. unfold Second in *. Z.to_euclidean_division_equations; lia. }
  destruct (s <? e) eqn:Ese; [|destruct (now / Second <? day * 86400 + e * 60 - off) eqn:Eb]; do 2 eexists; (split; [exact HW|]);
    (split; [rewrite ?andb_true_iff, ?negb_true_iff, ?Z.ltb_ge, ?Z.ltb_lt; lia|]).
  - split; [rewrite ?andb_true_iff, ?negb_true_iff, ?Z.ltb_ge, ?Z.ltb_lt; intros; apply Hbound; lia|]. split; [apply Hat|].
    destruct (Hclosed day) as [u ->]. by exists false, u.
  - split; [rewrite ?andb_true_iff, ?negb_true_iff, ?Z.ltb_ge, ?Z.ltb_lt; intros; apply Hbound; lia|]. split; [apply Hat|].
    destruct (Hclosed day) as [u ->]. by exists false, u.
  - split; [rewrite ?andb_true_iff, ?negb_true_iff, ?Z.ltb_ge, ?Z.ltb_lt; intros; apply Hbound; lia|]. split; [apply Hat|].
    destruct (Hclosed (day + 1)) as [u ->]. by exists false, u.
Qed.
End Window.

(** * Launching *)

Section Runner.
Context {TZ : TimeZones} (ParseStandard : string -> option (Location -> Time -> Time)).
Context (LookupHost : string -> option (list (list Byte.byte))) (engine : Validator) (SendLongRun : option (ReusableScanPolicy -> Scan -> bool)).
Context (scheduleID : string -> string).

Local Abbreviation process' := (process ParseStandard LookupHost engine SendLongRun).
Local Abbreviation tick' := (tick ParseStandard LookupHost engine SendLongRun).

(** The scan the scheduler may launch for a policy: inside the window, a paused
    scan of the policy; or, when none is queued, running or paused, a new one
    for a run that is due and not missed. *)
Definition may_launch (policy : ReusableScanPolicy) (scans : list Scan) (now : Time) (db : PolicyDb) (scan : Scan) : Prop :=
  exists windowEnd, Window policy now = Ok (true, windowEnd) /\
    match activePolicyScan scans (Policy_ID policy) with
    | Some active => Scan_Status active = StatusPaused /\
        scan = with_status active StatusQueued "" (Scan_StartedAt active) (Scan_CompletedAt active) windowEnd
    | None => due policy now = true /\ missed policy now = false /\ buildScan LookupHost engine scheduleID policy windowEnd now db = Ok scan
    end.


(** ** One scan at a time *)

(** A scan that is queued, running or paused. *)
Definition active_row (r : ScanRow) : bool := existsb (fun status => bool_decide (sr_status r = status)) [StatusQueued; StatusRunning; StatusPaused].
Lemma active_row_status r : active_row r = active_status (sr_status r).
Proof. unfold active_row, active_status. simpl. by rewrite orb_false_r, orb_assoc. Qed.

(** No policy has two scans that are queued, running or paused. *)
Definition single_flight (rows : list ScanRow) : Prop := forall r r', r ∈ rows -> r' ∈ rows ->
  active_row r = true -> active_row r' = true -> sr_scan_policy_id r = sr_scan_policy_id r' -> sr_scan_policy_id r <> "" -> sr_id r = sr_id r'.

(** A launcher stores the scan it launches, and changes no other. *)
Definition launches (Launch : Scan -> ReusableScanPolicy -> st PolicyDb unit) : Prop := forall scan policy db r,
  r ∈ sdb_scans (pdb_scans (Launch scan policy db).2) ->
  r ∈ sdb_scans (pdb_scans db) \/ (sr_id r = Scan_ID scan /\ sr_scan_policy_id r = Scan_ScanPolicyID scan).

(** The rows after a policy was processed, for the scans read at the start. *)
Lemma advance_scans policy now db : pdb_scans (advance ParseStandard policy now db) = pdb_scans db.
Proof. done. Qed.

Lemma alert_scans policy scan now db : sdb_scans (pdb_scans (alertLongRun SendLongRun policy scan now db)) = sdb_scans (pdb_scans db).
Proof. unfold alertLongRun. destruct SendLongRun; [|done]. repeat (case_match; try done). unfold on_scans; simpl. by case_match. Qed.

Lemma buildScan_policy policy windowEnd now db scan : buildScan LookupHost engine scheduleID policy windowEnd now db = Ok scan -> Scan_ScanPolicyID scan = Policy_ID policy.
Proof.
  unfold buildScan. case_bool_decide; [done|]. destruct (ScopePolicyByID _ db); [|done]. destruct (negb _); [done|].
  destruct (ValidateWithPolicy _ _ _ _) as [[ts ps]|]; [|done]. by intros [= <-].
Qed.

Lemma activePolicyScan_Some scans id scan : activePolicyScan scans id = Some scan ->
  scan ∈ scans /\ Scan_ScanPolicyID scan = id /\ active_status (Scan_Status scan) = true.
Proof.
  intros [Hin Hp]%List.find_some. apply andb_true_iff in Hp as [Hp%bool_decide_eq_true Ha]. split; [by apply list_elem_of_In|done].
Qed.

(** The one scan that processing a policy may add or replace. *)
Lemma process_rows Launch policy scans now db : launches Launch -> exists id,
  (forall a, activePolicyScan scans (Policy_ID policy) = Some a -> id = Scan_ID a) /\
  forall r, r ∈ sdb_scans (pdb_scans (process' Launch scheduleID policy scans now db)) ->
    r ∈ sdb_scans (pdb_scans db) \/ (sr_scan_policy_id r = Policy_ID policy /\ sr_id r = id).
Proof.
  intros HL. unfold process. destruct (Window policy now) as [[inside windowEnd]|].
  2: { destruct (activePolicyScan scans (Policy_ID policy)) as [a|]; [exists (Scan_ID a)|exists ""]; (split; [by intros ? [= <-]|by left]). }
  destruct (activePolicyScan scans (Policy_ID policy)) as [active|] eqn:Ea.
  - apply activePolicyScan_Some in Ea as (_ & Ep & _). exists (Scan_ID active). split; [by intros ? [= <-]|]. cbv zeta. intros r Hr.
    set (db1 := alertLongRun _ policy active now db) in *. assert (E1 : sdb_scans (pdb_scans db1) = sdb_scans (pdb_scans db)) by apply alert_scans.
    assert (Hr' : r ∈ sdb_scans (pdb_scans (if bool_decide (Scan_Status active = StatusPaused) && inside
       then (Launch (with_status active StatusQueued "" (Scan_StartedAt active) (Scan_CompletedAt active) windowEnd) policy db1).2 else db1))) by (by destruct (due policy now)).
    clear Hr. destruct (_ && _); [|left; by rewrite <- E1].
    apply HL in Hr' as [Hr|[Hi Hp]]; [left; by rewrite <- E1|right]. simpl in Hi, Hp. split; congruence.
  - destruct (buildScan LookupHost engine scheduleID policy windowEnd now db) as [scan|] eqn:Eb.
    + exists (Scan_ID scan). split; [done|]. intros r Hr.
      destruct (negb (due policy now)); [by left|]. destruct (negb inside); [by left|]. destruct (missed policy now); [by left|].
      assert (Hr' : r ∈ sdb_scans (pdb_scans (Launch scan policy db).2)) by (destruct (Launch scan policy db) as [[]]; done).
      apply HL in Hr' as [?|[Hi Hp]]; [by left|right]. split; [|done]. rewrite Hp. by apply buildScan_policy in Eb.
    + exists "". split; [done|]. intros r Hr. destruct (negb (due policy now)); [by left|]. destruct (negb inside); [by left|].
      destruct (missed policy now); by left.
Qed.

(** The scans read from a store list all its rows. *)
Lemma load_each_in {A B} (read : A -> result B) rows l r : load_each read rows = Ok l -> r ∈ rows -> exists x, x ∈ l /\ read r = Ok x.
Proof.
  revert l. induction rows as [|r' rows IH]; intros l H Hr; [by apply not_elem_of_nil in Hr|]. simpl in H.
  apply bind_ok in H as (x & Hx & H). apply bind_ok in H as (l' & Hl & [= <-]).
  apply elem_of_cons in Hr as [->|Hr]; [exists x; split; [by left|done]|]. destruct (IH l' Hl Hr) as (y & Hy & E). exists y. split; [by right|done].
Qed.

Lemma load_each_from {A B} (read : A -> result B) rows l x : load_each read rows = Ok l -> x ∈ l -> exists r, r ∈ rows /\ read r = Ok x.
Proof.
  revert l. induction rows as [|r' rows IH]; intros l H Hx; simpl in H; [injection H as <-; by apply not_elem_of_nil in Hx|].
  apply bind_ok in H as (y & Hy & H). apply bind_ok in H as (l' & Hl & [= <-]).
  apply elem_of_cons in Hx as [->|Hx]; [exists r'; split; [by left|done]|]. destruct (IH l' Hl Hx) as (r & Hr & E). exists r. split; [by right|done].
Qed.

Lemma Get_columns id db s : Get id db = Ok s -> exists r, query_row (scan_is id) (sdb_scans db) = Some r /\ Scan_ID s = sr_id r /\
  Scan_ScanPolicyID s = sr_scan_policy_id r /\ Scan_Status s = sr_status r.
Proof.
  unfold Get. destruct (query_row _ _) as [r|]; [|done]. intros H. exists r. split; [done|].
  repeat (apply bind_ok in H as (? & _ & H)). by injection H as <-.
Qed.

Lemma ListScans_rows db scans : NoDup (sr_id <$> sdb_scans db) -> ListScans db = Ok scans ->
  (forall r, r ∈ sdb_scans db -> exists s, s ∈ scans /\ Scan_ID s = sr_id r /\ Scan_ScanPolicyID s = sr_scan_policy_id r /\ Scan_Status s = sr_status r) /\
  (forall s, s ∈ scans -> exists r, r ∈ sdb_scans db /\ Scan_ID s = sr_id r /\ Scan_ScanPolicyID s = sr_scan_policy_id r /\ Scan_Status s = sr_status r).
Proof.
  intros Hnd H. unfold ListScans in H.
  assert (K : forall r s, r ∈ sdb_scans db -> Get (sr_id r) db = Ok s -> Scan_ID s = sr_id r /\ Scan_ScanPolicyID s = sr_scan_policy_id r /\ Scan_Status s = sr_status r).
  { intros r s Hr Hg. apply Get_columns in Hg as (r' & Hq & ?). unfold scan_is in Hq. rewrite (query_row_key sr_id _ r Hnd Hr) in Hq. by injection Hq as <-. }
  split.
  - intros r Hr. destruct (load_each_in _ _ _ r H) as (s & Hs & Hg); [by apply elem_of_sort_slice|]. exists s. split; [done|]. by apply K.
  - intros s Hs. destruct (load_each_from _ _ _ s H Hs) as (r & Hr & Hg). apply elem_of_sort_slice in Hr. exists r. split; [done|]. by apply K.
Qed.

(** The rows while the policies of one turn are processed: those of the start,
    and those of policies already processed. *)
Definition turn_rows (rows0 : list ScanRow) (processed : list string) (rows : list ScanRow) : Prop :=
  single_flight rows /\ forall r, r ∈ rows -> r ∈ rows0 \/ sr_scan_policy_id r ∈ processed.

Lemma process_turn Launch policy scans now db rows0 processed : launches Launch ->
  (forall r, r ∈ rows0 -> exists s, s ∈ scans /\ Scan_ID s = sr_id r /\ Scan_ScanPolicyID s = sr_scan_policy_id r /\ Scan_Status s = sr_status r) ->
  (forall s, s ∈ scans -> exists r, r ∈ rows0 /\ Scan_ID s = sr_id r /\ Scan_ScanPolicyID s = sr_scan_policy_id r /\ Scan_Status s = sr_status r) ->
  single_flight rows0 -> Policy_ID policy ∉ processed -> turn_rows rows0 processed (sdb_scans (pdb_scans db)) ->
  turn_rows rows0 (Policy_ID policy :: processed) (sdb_scans (pdb_scans (process' Launch scheduleID policy scans now db))).
Proof.
  intros HL Hcov Hfrom H0 Hn [Hsf Hrows]. destruct (process_rows Launch policy scans now db HL) as (id & Hid & Hpr).
  assert (K : forall x, x ∈ sdb_scans (pdb_scans db) -> active_row x = true -> sr_scan_policy_id x = Policy_ID policy -> sr_scan_policy_id x <> "" -> sr_id x = id).
  { intros x Hx Hxa Hxp Hxn. destruct (Hrows x Hx) as [Hx0|Hx0]; [|by rewrite Hxp in Hx0].
    destruct (Hcov x Hx0) as (s & Hs & Ei & Eq & Et). destruct (activePolicyScan scans (Policy_ID policy)) as [a|] eqn:Ea.
    - rewrite (Hid a eq_refl). apply activePolicyScan_Some in Ea as (Hin & Eap & Eaa). destruct (Hfrom a Hin) as (ra & Hra & Ei' & Eq' & Et').
      rewrite Ei'. apply H0; try done; [by rewrite active_row_status, <- Et'|congruence].
    - exfalso. unfold activePolicyScan in Ea. apply list_elem_of_In in Hs. pose proof (List.find_none _ _ Ea s Hs) as F. cbv beta in F.
      rewrite active_row_status in Hxa. rewrite Et, Hxa, bool_decide_eq_true_2 in F by congruence. done. }
  split.
  - intros r r' Hr Hr' Ha Ha' Ep Hne. destruct (Hpr r Hr) as [Ho|[Hp Hi]], (Hpr r' Hr') as [Ho'|[Hp' Hi']].
    + by apply Hsf.
    + rewrite Hi'. apply K; [done..|congruence|done].
    + rewrite Hi. symmetry. apply K; [done..|congruence|congruence].
    + congruence.
  - intros r Hr. destruct (Hpr r Hr) as [Ho|[Hp _]]; [|right; rewrite Hp; by left].
    destruct (Hrows r Ho); [by left|right; by right].
Qed.

Lemma process_all Launch policies scans now rows0 : launches Launch ->
  (forall r, r ∈ rows0 -> exists s, s ∈ scans /\ Scan_ID s = sr_id r /\ Scan_ScanPolicyID s = sr_scan_policy_id r /\ Scan_Status s = sr_status r) ->
  (forall s, s ∈ scans -> exists r, r ∈ rows0 /\ Scan_ID s = sr_id r /\ Scan_ScanPolicyID s = sr_scan_policy_id r /\ Scan_Status s = sr_status r) ->
  single_flight rows0 -> forall processed db, NoDup ((Policy_ID <$> policies) ++ processed) -> turn_rows rows0 processed (sdb_scans (pdb_scans db)) ->
  single_flight (sdb_scans (pdb_scans (fold_left (fun db policy => process' Launch scheduleID policy scans now db) policies db))).
Proof.
  intros HL Hcov Hfrom H0. induction policies as [|policy policies IH]; intros processed db Hnd Ht; simpl; [apply Ht|].
  simpl in Hnd. apply NoDup_cons in Hnd as [Hn Hnd]. apply (IH (Policy_ID policy :: processed)).
  - rewrite <- Permutation_middle. by constructor.
  - apply process_turn; try done. intros Hin. apply Hn. apply elem_of_app. by right.
Qed.

(** The scheduler runs a policy once at a time. Over any launcher that
    stores the scan it is given and changes no other, when no policy has two
    scans that are queued, running or paused and scan and policy identifiers
    are distinct, then none has after a turn of the scheduler, whatever runs
    are due, resumed, missed or skipped, and whatever launches fail. *)
Theorem tick_single_flight Launch now db last : launches Launch ->
  NoDup (sr_id <$> sdb_scans (pdb_scans db)) -> NoDup ((fun r => Policy_ID (pr_policy r)) <$> pdb_policies db) ->
  single_flight (sdb_scans (pdb_scans db)) ->
  single_flight (sdb_scans (pdb_scans (tick' Launch scheduleID now (db, last)).1)).
Proof.
  intros HL Hids Hpol Hsf. unfold tick.
  set (purged := if IsZero last || _ then _ else _).
  assert (Hp : NoDup (sr_id <$> sdb_scans (pdb_scans purged.1)) /\ single_flight (sdb_scans (pdb_scans purged.1)) /\ pdb_policies purged.1 = pdb_policies db).
  { subst purged. destruct (_ || _); [|done]. unfold on_scans, PurgeExpiredEvidence. simpl. split; [|split; [|done]].
    - apply (NoDup_filter_key sr_id). done.
    - intros r r' [Hr _]%elem_of_without [Hr' _]%elem_of_without. by apply Hsf. }
  clearbody purged. destruct purged as [db1 last1]. simpl in Hp. destruct Hp as (Hids1 & Hsf1 & Epol).
  destruct (ListScans (pdb_scans db1)) as [scans|] eqn:El; [|done]. simpl.
  destruct (ListScans_rows _ _ Hids1 El) as [Hcov Hfrom].
  apply (process_all Launch _ scans now (sdb_scans (pdb_scans db1)) HL Hcov Hfrom Hsf1 []).
  - rewrite app_nil_r. unfold ListReusableScanPolicies. rewrite <- list_fmap_compose. simpl. rewrite sort_slice_perm. unfold select_where.
    apply (NoDup_filter_key (fun r => Policy_ID (pr_policy r))). by rewrite Epol.
  - split; [done|]. by left.
Qed.
End Runner.
