(* ===== verification/Intelligence.v ===== *)
(** Vulnerability intelligence: internal/intelligence (version.go, nvd.go) and
    internal/store/intelligence.go and endpoint_cve.go, with the records of
    internal/model/model.go they exchange. The HTTP request for a page of the
    feed is an operation of the environment; its decoded body is an argument of
    [ParseNVD]. Scores are floats of the Standard Library's [SpecFloat]. *)
From Stdlib Require Import ZArith Lia String Ascii SpecFloat.
From stdpp Require Import base tactics list strings gmap sets.
From coqutil Require Import Datatypes.RecordSettersUsingExistingGetters.
From S2P Require Import Prelude GoStrings GoTime Netip WorkerModel Sql EndpointModel EndpointStore EndpointMachine GoLocation WorkerStore ScanModel AssetStore ScanStore ScanSchedule.
Open Scope string_scope.
Open Scope Z_scope.

(** * version.go *)

Definition productAliases : list (string * (string * string)) := [
  ("nginx", ("nginx", "nginx")); ("openssh", ("openbsd", "openssh")); ("apache", ("apache", "http_server"));
  ("apache http server", ("apache", "http_server")); ("httpd", ("apache", "http_server")); ("redis", ("redis", "redis"));
  ("postgresql", ("postgresql", "postgresql")); ("microsoft-iis", ("microsoft", "internet_information_services"));
  ("openssl", ("openssl", "openssl")); ("curl", ("haxx", "curl")); ("openssh-client", ("openbsd", "openssh"));
  ("openssh-server", ("openbsd", "openssh")); ("apache2", ("apache", "http_server")); ("redis-server", ("redis", "redis"))].

(** [strings.ReplaceAll(s, from, to)] for a byte, and [strings.Join] *)
Fixpoint replace_byte (from : ascii) (to : string) (s : string) : string :=
  match s with
  | EmptyString => EmptyString
  | String a s' => (if Ascii.eqb a from then to else String a "") +:+ replace_byte from to s'
  end.
Fixpoint Join (elems : list string) (sep : string) : string :=
  match elems with [] => "" | [x] => x | x :: rest => x +:+ sep +:+ Join rest sep end.

Record versionPart := mkPart { numeric : bool; number : Z; text : string }.
(** The zero value of a part. *)
Definition no_part : versionPart := mkPart false 0 "".

(** The longest prefix whose bytes are digits, or are not, and the rest. *)
Fixpoint span_digits (digits : bool) (s : string) : string * string :=
  match s with
  | EmptyString => ("", "")
  | String a s' => if Bool.eqb (is_digit a) digits then let '(token, rest) := span_digits digits s' in (String a token, rest) else ("", s)
  end.
(** [strings.TrimLeft(s, "0")] *)
Fixpoint trim_zeros (s : string) : string :=
  match s with String a s' => if Ascii.eqb a "0" then trim_zeros s' else s | EmptyString => "" end.
(** The number [strconv.ParseInt] returns next to its error, on digits: 0 when
    there are none, and the largest [int64] when they exceed it. *)
Definition parse_number (digits : string) : Z :=
  match digits with EmptyString => 0 | _ => match read_digits 0 digits with Some n => Z.min n int64_max | None => 0 end end.

Fixpoint version_parts (fuel : nat) (value : string) : list versionPart :=
  match fuel, value with
  | S fuel, String a _ =>
      let digit := is_digit a in
      let '(token, rest) := span_digits digit value in
      ((if digit then [mkPart true (parse_number (trim_zeros token)) ""]
        else if bool_decide (token = ".") || bool_decide (token = "-") || bool_decide (token = "_") then [] else [mkPart false 0 token])
       ++ version_parts fuel rest)%list
  | _, _ => []
  end.
(** Every token takes at least one byte. *)
Definition versionParts (value : string) : list versionPart := version_parts (String.length value) value.

Definition zero_part (p : versionPart) : bool := numeric p && (number p =? 0).
Fixpoint trimTrailingZeroParts (parts : list versionPart) : list versionPart :=
  match parts with
  | [] => []
  | p :: rest => match trimTrailingZeroParts rest with [] => if zero_part p then [] else [p] | rest' => p :: rest' end
  end.

Definition compare_part (av bv : versionPart) : Z :=
  if numeric av && numeric bv then
    if number av <? number bv then -1 else if number bv <? number av then 1 else 0
  else if negb (Bool.eqb (numeric av) (numeric bv)) then if numeric av then 1 else -1
  else if str_ltb (text av) (text bv) then -1 else if str_ltb (text bv) (text av) then 1 else 0.
(** The loop on the first [limit] parts; missing parts are zero values. *)
Fixpoint compare_parts (limit : nat) (a b : list versionPart) : Z :=
  match limit with
  | O => 0
  | S limit =>
      let c := compare_part (default no_part (head a)) (default no_part (head b)) in
      if c =? 0 then compare_parts limit (tail a) (tail b) else c
  end.

Section versions.
Context {LC : LowerCase}.

Definition cleanVersion (value : string) : string := TrimPrefix (ToLowerText (TrimSpace value)) "v".

Definition version_key (value : string) : list versionPart := trimTrailingZeroParts (versionParts (cleanVersion value)).
Definition CompareVersions (left right : string) : Z :=
  let a := version_key left in let b := version_key right in
  compare_parts (max (length a) (length b)) a b.

Definition NormalizeProduct (observed : string) : option (string * string) :=
  let value := ToLowerText (TrimSpace observed) in
  let value := replace_byte "_" " " value in
  let value := Join (Fields value) " " in
  snd <$> List.find (fun alias => bool_decide (fst alias = value)) productAliases.

Definition VersionAffected (observed affectedVersion startIncluding startExcluding endIncluding endExcluding : string) : bool :=
  let observed := cleanVersion observed in
  let given bound := negb (bool_decide (bound = "")) in
  negb (bool_decide (observed = "")) &&
  negb (given affectedVersion && negb (bool_decide (affectedVersion = "*")) && negb (bool_decide (affectedVersion = "-")) &&
        negb (CompareVersions observed affectedVersion =? 0)) &&
  negb (given startIncluding && (CompareVersions observed startIncluding <? 0)) &&
  negb (given startExcluding && (CompareVersions observed startExcluding <=? 0)) &&
  negb (given endIncluding && (0 <? CompareVersions observed endIncluding)) &&
  negb (given endExcluding && (0 <=? CompareVersions observed endExcluding)).
End versions.

(** * model.go *)

Definition Score := spec_float.
(** 9.0, the bound of critical scores, in the canonical form that comparisons
    require: a mantissa of 53 bits. *)
Definition critical_score : Score := S754_finite false (9 * 2 ^ 49) (- 49).
Definition score_leb (a b : Score) : bool := SFleb a b.
Definition score_ltb (a b : Score) : bool := SFltb a b.

Record AffectedProduct := mkProduct {
  Affected_CPE23 : string; Affected_Part : string; Affected_Vendor : string; Affected_Product : string; Affected_Version : string;
  Affected_StartIncluding : string; Affected_StartExcluding : string; Affected_EndIncluding : string; Affected_EndExcluding : string;
  Affected_Vulnerable : bool }.
Record CVEReference := mkReference { Reference_URL : string; Reference_Source : string }.
Record CVERecord := mkCVERecord {
  CVE_ID : string; CVE_Description : string; CVE_PublishedAt : Time; CVE_ModifiedAt : Time; CVE_CVSSScore : Score; CVE_CVSSVector : string;
  CVE_Severity : string; CVE_KnownExploited : bool; CVE_SourceURL : string; CVE_Products : list AffectedProduct; CVE_References : list CVEReference }.
Record CVENewsItem := mkNews {
  News_ID : string; News_Description : string; News_PublishedAt : Time; News_CVSSScore : Score; News_Severity : string;
  News_KnownExploited : bool; News_SourceURL : string; News_Relevance : string; News_Evidence : string }.
Record FeedStatus := mkFeedStatus {
  Feed_Source : string; Feed_Status : string; Feed_LastStarted : option Time; Feed_LastSuccess : option Time; Feed_Records : Z;
  Feed_Error : string; Feed_DatabaseCVEs : Z }.
Record EndpointCVEMatch := mkEndpointCVEMatch {
  EndpointMatch_EndpointID : string; EndpointMatch_CVEID : string; EndpointMatch_Product : string; EndpointMatch_Version : string;
  EndpointMatch_PackageSource : string; EndpointMatch_Severity : string; EndpointMatch_CVSSScore : Score; EndpointMatch_Description : string;
  EndpointMatch_Confidence : string; EndpointMatch_Evidence : string; EndpointMatch_KnownExploited : bool; EndpointMatch_SourceURL : string;
  EndpointMatch_MatchedAt : Time }.

(** * nvd.go: reading a page *)

Record nvdMetric := mkMetric { Metric_VectorString : string; Metric_BaseScore : Score; Metric_DataSeverity : string; Metric_BaseSeverity : string }.
Record nvdCPEMatch := mkCPEMatch {
  CPE_Vulnerable : bool; CPE_Criteria : string; CPE_StartIncluding : string; CPE_StartExcluding : string; CPE_EndIncluding : string;
  CPE_EndExcluding : string }.
#[warnings="-register-all"]
Inductive nvdNode := mkNode (Node_CPEMatch : list nvdCPEMatch) (Node_Children : list nvdNode).
Record nvdCVE := mkNvdCVE {
  Nvd_ID : string; Nvd_Published : string; Nvd_LastModified : string; Nvd_Descriptions : list (string * string);
  Nvd_Metrics : gmap string (list nvdMetric); Nvd_Configurations : list (list nvdNode); Nvd_References : list (string * string);
  Nvd_CISAExploitAdd : string }.
Record nvdResponse := mkNvdResponse { Nvd_TotalResults : Z; Nvd_Vulnerabilities : list nvdCVE }.

Definition unescapeCPE (value : string) : string := replace_byte "\" "" value.
Definition parseCPE (value : string) : string * string * string * string :=
  match split_byte ":" value with
  | _ :: _ :: part :: vendor :: product :: version :: _ => (part, unescapeCPE vendor, unescapeCPE product, unescapeCPE version)
  | _ => ("", "", "", "")
  end.

(** The fraction of exactly three bytes after a period or a comma; [time.Parse]
    reads it as an integer, with its sign. *)
Definition p_millis (s : string) : option (Z * string) :=
  match s with
  | String sep (String a (String b (String c rest))) =>
      if negb (Ascii.eqb sep "." || Ascii.eqb sep ",") then None else
      let '(negative, digits) := if Ascii.eqb a "-" then (true, String b (String c "")) else if Ascii.eqb a "+" then (false, String b (String c ""))
                                 else (false, String a (String b (String c ""))) in
      n ← read_digits 0 digits;
      if negative && (0 <? n) then None else Some (n * Millisecond, rest)
  | _ => None
  end.
(** [time.Parse("2006-01-02T15:04:05.000", value)] *)
Definition ParseMillis (value : string) : option Time :=
  '(y, s) ← p_digits 4 0 value; s ← p_char "-" s;
  '(m, s) ← p_digits 2 0 s; s ← p_char "-" s;
  '(d, s) ← p_digits 2 0 s; s ← p_char "T" s;
  '(hh, s) ← p_hour s; s ← p_char ":" s;
  '(mi, s) ← p_digits 2 0 s; s ← p_char ":" s;
  '(ss, s) ← p_digits 2 0 s;
  '(ns, s) ← p_millis s;
  if in_range 1 m 12 && in_range 1 d (days_in_month y m) && in_range 0 hh 23 && in_range 0 mi 59 && in_range 0 ss 59 && bool_decide (s = "")
  then Some ((days_of_civil y m d * 86400 + hh * 3600 + mi * 60 + ss) * Second + ns)
  else None.
(** The message leaves out the quoted value. *)
Definition parseNVDTime (value : string) : result Time :=
  match ParseRFC3339 value with
  | Some t => Ok t
  | None => match ParseMillis value with Some t => Ok t | None => Err "unsupported timestamp" end
  end.

(** [url.PathEscape] *)
Definition path_plain (a : ascii) : bool :=
  is_digit a || GoRegex.is_lower a || GoRegex.is_upper a || existsb (Ascii.eqb a) ["-"; "_"; "."; "~"; "$"; "&"; "+"; "="; ":"; "@"]%char.
Definition upper_hex (n : Z) : ascii := ascii_of_N (Z.to_N (if n <? 10 then 48 + n else 55 + n)).
Fixpoint PathEscape (s : string) : string :=
  match s with
  | EmptyString => ""
  | String a s' => (if path_plain a then String a "" else String "%" (String (upper_hex (byte_val a / 16)) (String (upper_hex (byte_val a mod 16)) ""))) +:+ PathEscape s'
  end.

Definition match_product (m : nvdCPEMatch) : AffectedProduct :=
  let '(part, vendor, product, version) := parseCPE (CPE_Criteria m) in
  mkProduct (CPE_Criteria m) part vendor product version (CPE_StartIncluding m) (CPE_StartExcluding m) (CPE_EndIncluding m) (CPE_EndExcluding m)
    (CPE_Vulnerable m).
(** [appendNodeProducts]: what a node appends. *)
Fixpoint node_products (node : nvdNode) : list AffectedProduct :=
  match node with mkNode matches children => ((match_product <$> matches) ++ flat_map node_products children)%list end.

(** The first metric of the first version of the scoring system that has one. *)
Definition nvd_score (cve : nvdCVE) : Score * string * string :=
  let pick key := Nvd_Metrics cve !! key ≫= head in
  match List.find (fun key => bool_decide (is_Some (pick key))) ["cvssMetricV40"; "cvssMetricV31"; "cvssMetricV30"; "cvssMetricV2"] ≫= pick with
  | Some m => (Metric_BaseScore m, Metric_VectorString m, if bool_decide (Metric_DataSeverity m = "") then Metric_BaseSeverity m else Metric_DataSeverity m)
  | None => (S754_zero false, "", "")
  end.
Definition nvd_record (cve : nvdCVE) : result CVERecord :=
  published ← parseNVDTime (Nvd_Published cve);
  modified ← parseNVDTime (Nvd_LastModified cve);
  let '(score, vector, severity) := nvd_score cve in
  Ok (mkCVERecord (Nvd_ID cve)
        (match List.find (fun d => bool_decide (fst d = "en")) (Nvd_Descriptions cve) with Some d => snd d | None => "" end)
        published modified score vector severity (negb (bool_decide (Nvd_CISAExploitAdd cve = "")))
        ("https://nvd.nist.gov/vuln/detail/" +:+ PathEscape (Nvd_ID cve))
        (flat_map (flat_map node_products) (Nvd_Configurations cve))
        ((fun r => mkReference (fst r) (snd r)) <$> Nvd_References cve)).
Definition ParseNVD (payload : nvdResponse) : result (list CVERecord * Z) :=
  records ← for_each (fun acc cve => r ← nvd_record cve; Ok (acc ++ [r])%list) [] (Nvd_Vulnerabilities payload);
  Ok (records, Nvd_TotalResults payload).

(** * The store: intelligence.go and endpoint_cve.go *)

(** Rows of cves, cve_products, cve_references, endpoint_cve_matches and feed_sync_status. *)
Record CveRow := mkCveRow {
  cve_id : string; cve_description : string; cve_published_at : string; cve_modified_at : string; cve_cvss_score : Score; cve_cvss_vector : string;
  cve_severity : string; cve_known_exploited : bool; cve_source_url : string }.
Record ProductRow := mkProductRow { cp_cve_id : string; cp_ordinal : Z; cp_product : AffectedProduct }.
Record ReferenceRow := mkReferenceRow { rf_cve_id : string; rf_ordinal : Z; rf_reference : CVEReference }.
Record EndpointMatchRow := mkEndpointMatchRow {
  em_endpoint_id : string; em_cve_id : string; em_product : string; em_version : string; em_source : string; em_confidence : string;
  em_evidence : string; em_matched_at : string }.
Record FeedRow := mkFeedRow {
  fd_source : string; fd_status : string; fd_last_started : option string; fd_last_success : option string; fd_records : Z; fd_error : string }.

(** The tables, beside those of the endpoints. *)
Record VulnDb := {
  vd_endpoints : EndpointDb; vd_cves : list CveRow; vd_products : list ProductRow; vd_references : list ReferenceRow;
  vd_matches : list EndpointMatchRow; vd_feed : list FeedRow }.

Section store.
Context {LC : LowerCase}.

Definition cve_row (r : CVERecord) : CveRow :=
  mkCveRow (CVE_ID r) (CVE_Description r) (formatTime (CVE_PublishedAt r)) (formatTime (CVE_ModifiedAt r)) (CVE_CVSSScore r) (CVE_CVSSVector r)
    (ToLowerText (CVE_Severity r)) (CVE_KnownExploited r) (CVE_SourceURL r).
Definition product_row (id : string) (index : nat) (p : AffectedProduct) : ProductRow :=
  mkProductRow id (Z.of_nat index)
    (mkProduct (Affected_CPE23 p) (ToLowerText (Affected_Part p)) (ToLowerText (Affected_Vendor p)) (ToLowerText (Affected_Product p))
       (Affected_Version p) (Affected_StartIncluding p) (Affected_StartExcluding p) (Affected_EndIncluding p) (Affected_EndExcluding p)
       (Affected_Vulnerable p)).
Definition reference_row (id : string) (index : nat) (r : CVEReference) : ReferenceRow := mkReferenceRow id (Z.of_nat index) r.

(** The body of the loop of [UpsertCVEs]. *)
Definition upsert_cve (s : VulnDb) (r : CVERecord) : VulnDb :=
  s <| vd_cves ::= upsert cve_id (fun _ excluded => excluded) (cve_row r) |>
    <| vd_products ::= fun l => (without (fun p => bool_decide (cp_cve_id p = CVE_ID r)) l ++ imap (product_row (CVE_ID r)) (CVE_Products r))%list |>
    <| vd_references ::= fun l => (without (fun p => bool_decide (rf_cve_id p = CVE_ID r)) l ++ imap (reference_row (CVE_ID r)) (CVE_References r))%list |>.

(** [TRIM(version)<>''], which removes spaces only *)
Definition versioned (item : InstalledSoftware) : bool := negb (str_forall (fun a => Ascii.eqb a " ") (Software_Version item)).
Definition installed_software (id : string) (s : VulnDb) : list InstalledSoftware :=
  match ed_software (vd_endpoints s) !! id with Some r => List.filter versioned (SoftwareInv_Items (received_item r)) | None => [] end.

(** [FROM cve_products p JOIN cves c ON c.id=p.cve_id WHERE p.vendor=? AND p.product=? AND p.vulnerable=1] *)
Definition product_applies (vendor product : string) (p : ProductRow) : bool :=
  bool_decide (Affected_Vendor (cp_product p) = vendor) && bool_decide (Affected_Product (cp_product p) = product) && Affected_Vulnerable (cp_product p).
Definition candidates (vendor product : string) (s : VulnDb) : list (CveRow * ProductRow) :=
  flat_map (fun p => (fun c => (c, p)) <$> select_where (fun c => bool_decide (cve_id c = cp_cve_id p)) (vd_cves s))
    (select_where (product_applies vendor product) (vd_products s)).
Definition affects (version : string) (p : AffectedProduct) : bool :=
  VersionAffected version (Affected_Version p) (Affected_StartIncluding p) (Affected_StartExcluding p) (Affected_EndIncluding p) (Affected_EndExcluding p).

(** [strings.Join([]string{cveID, item.name, item.version, item.source}, NUL)] *)
Definition match_identity (cveID name version source : string) : string := Join [cveID; name; version; source] nul.
Definition installed_evidence (item : InstalledSoftware) : string :=
  "Installed " +:+ Software_Name item +:+ " " +:+ Software_Version item +:+ " from " +:+ Software_Source item +:+
  " matches an NVD affected range; vendor backports may change actual exposure".
(** PRIMARY KEY(endpoint_id,cve_id,product,version,package_source) *)
Definition match_key (m : EndpointMatchRow) : string * string * string * string * string :=
  (em_endpoint_id m, em_cve_id m, em_product m, em_version m, em_source m).

(** The body of the inner loop of [RefreshEndpointCVEMatches]: a match that is
    not seen yet is inserted. The rows of the endpoint and of the vulnerability
    exist, since the query found them. *)
Definition match_candidate (id : string) (item : InstalledSoftware) (at_ : Time) (acc : gset string * list EndpointMatchRow)
  (candidate : CveRow * ProductRow) : result (gset string * list EndpointMatchRow) :=
  let identity := match_identity (cve_id candidate.1) (Software_Name item) (Software_Version item) (Software_Source item) in
  if bool_decide (identity ∈ acc.1) || negb (affects (Software_Version item) (cp_product candidate.2)) then Ok acc else
  let row := mkEndpointMatchRow id (cve_id candidate.1) (Software_Name item) (Software_Version item) (Software_Source item) "medium"
               (installed_evidence item) (formatTime at_) in
  reject bool_decide (match_key row ∈ match_key <$> acc.2) as ErrConstraint ;;
  Ok ({[ identity ]} ∪ acc.1, acc.2 ++ [row])%list.
Definition match_item (id : string) (at_ : Time) (s : VulnDb) (acc : gset string * list EndpointMatchRow) (item : InstalledSoftware)
  : result (gset string * list EndpointMatchRow) :=
  match NormalizeProduct (Software_Name item) with
  | None => Ok acc
  | Some (vendor, product) => for_each (match_candidate id item at_) acc (candidates vendor product s)
  end.
Definition RefreshEndpointCVEMatches (id : string) (at_ : Time) : st VulnDb unit := transaction (fun s =>
  acc ← for_each (match_item id at_ s) (∅, without (fun m => bool_decide (em_endpoint_id m = id)) (vd_matches s)) (installed_software id s);
  Ok (s <| vd_matches := acc.2 |>)).

(** [refreshAllEndpointCVEMatches]: the endpoints that have reported software. *)
Fixpoint refresh_each (ids : list string) (at_ : Time) : st VulnDb unit :=
  match ids with
  | [] => st_ret tt
  | id :: rest => _ ⇐ RefreshEndpointCVEMatches id at_ ;; refresh_each rest at_
  end.
Definition refreshAllEndpointCVEMatches (at_ : Time) : st VulnDb unit := fun s =>
  refresh_each ((map_to_list (ed_software (vd_endpoints s))).*1) at_ s.

(** The transaction cannot fail: its keys are an identifier that is upserted
    and positions below rows it deletes first. *)
Definition UpsertCVEs (records : list CVERecord) (at_ : Time) : st VulnDb unit := fun s =>
  refreshAllEndpointCVEMatches at_ (fold_left upsert_cve records s).

(** internal/store/endpoint_software.go with the matching that follows the commit. *)
Definition RecordSoftware (id : string) (i : EndpointSoftwareInventory) (receivedAt : Time) : st VulnDb unit := fun s =>
  match RecordEndpointSoftwareInventory None id i receivedAt (vd_endpoints s) with
  | (Err e, _) => (Err e, s)
  | (Ok _, endpoints) => RefreshEndpointCVEMatches id receivedAt (s <| vd_endpoints := endpoints |>)
  end.

Definition observed_evidence (o : ServiceObservation) : string :=
  "Observed " +:+ Observation_Product o +:+ " " +:+ Observation_Version o +:+ " matches the affected NVD version range".
Definition MatchObservation (o : ServiceObservation) (now : Time) (s : VulnDb) : list CVEMatch :=
  match NormalizeProduct (Observation_Product o) with
  | None => []
  | Some (vendor, product) =>
      if blank (Observation_Version o) then [] else
      (fun c => {| Match_CVEID := cve_id c.1; Match_ObservationID := Observation_ID o; Match_Target := Observation_Target o;
                   Match_Address := Observation_Address o; Match_Port := Observation_Port o; Match_Product := Observation_Product o;
                   Match_Version := Observation_Version o; Match_Confidence := "high"; Match_Evidence := observed_evidence o;
                   Match_MatchedAt := now |}) <$>
        List.filter (fun c => affects (Observation_Version o) (cp_product c.2)) (candidates vendor product s)
  end.

(** [ORDER BY c.known_exploited DESC,c.cvss_score DESC,m.cve_id] *)
Definition endpoint_match_ltb (a b : EndpointMatchRow * CveRow) : bool :=
  (cve_known_exploited a.2 && negb (cve_known_exploited b.2)) ||
  (Bool.eqb (cve_known_exploited a.2) (cve_known_exploited b.2) &&
   (score_ltb (cve_cvss_score b.2) (cve_cvss_score a.2) ||
    (negb (score_ltb (cve_cvss_score a.2) (cve_cvss_score b.2)) && str_ltb (em_cve_id a.1) (em_cve_id b.1)))).
Definition EndpointCVEMatches (id : string) (s : VulnDb) : list EndpointCVEMatch :=
  (fun r => mkEndpointCVEMatch (em_endpoint_id r.1) (em_cve_id r.1) (em_product r.1) (em_version r.1) (em_source r.1) (cve_severity r.2)
              (cve_cvss_score r.2) (cve_description r.2) (em_confidence r.1) (em_evidence r.1) (cve_known_exploited r.2) (cve_source_url r.2)
              (default ZeroTime (parseTime (em_matched_at r.1)))) <$>
    sort_slice endpoint_match_ltb
      (flat_map (fun m => (fun c => (m, c)) <$> select_where (fun c => bool_decide (cve_id c = em_cve_id m)) (vd_cves s))
         (select_where (fun m => bool_decide (em_endpoint_id m = id)) (vd_matches s))).

(** A row of cve_matches or endpoint_cve_matches names the vulnerability, the product and its version. *)
Definition seen_in (id : string) (rows : list (string * string * string)) : option string :=
  (fun r => r.1.2 +:+ " " +:+ r.2) <$> query_row (fun r => bool_decide (r.1.1 = id)) rows.
Definition endpoint_rows (s : VulnDb) : list (string * string * string) := (fun m => (em_cve_id m, em_product m, em_version m)) <$> vd_matches s.
Definition news_ltb (relevant : CveRow -> bool) (a b : CveRow) : bool :=
  (relevant a && negb (relevant b)) ||
  (Bool.eqb (relevant a) (relevant b) &&
   ((cve_known_exploited a && negb (cve_known_exploited b)) ||
    (Bool.eqb (cve_known_exploited a) (cve_known_exploited b) && str_ltb (cve_published_at b) (cve_published_at a)))).
Definition news_limit (limit : Z) : Z := let limit := if limit <? 1 then 6 else limit in if 25 <? limit then 25 else limit.
Definition critical (c : CveRow) : bool := bool_decide (cve_severity c = "critical") || score_leb critical_score (cve_cvss_score c).
(** [scan_rows] are the rows of cve_matches. *)
Definition ListCriticalNews (scan_rows : list (string * string * string)) (limit : Z) (s : VulnDb) : result (list CVENewsItem) :=
  let observed c := match seen_in (cve_id c) scan_rows with Some e => Some e | None => seen_in (cve_id c) (endpoint_rows s) end in
  let relevant c := bool_decide (is_Some (observed c)) in
  let rows := firstn (Z.to_nat (news_limit limit)) (sort_slice (news_ltb relevant) (select_where critical (vd_cves s))) in
  for_each (fun items c =>
    match parseTime (cve_published_at c) with
    | None => Err "parse time"
    | Some published =>
        Ok (items ++ [mkNews (cve_id c) (cve_description c) published (cve_cvss_score c) (cve_severity c) (cve_known_exploited c) (cve_source_url c)
              (if relevant c then "matched" else "general")
              (match observed c with Some e => "Observed in this environment: " +:+ e | None => "" end)])%list
    end) [] rows.

Definition RecordFeedStart (source : string) (started : Time) : st VulnDb unit := fun s =>
  (Ok tt, s <| vd_feed ::= upsert fd_source (fun old excluded =>
     mkFeedRow (fd_source old) "running" (fd_last_started excluded) (fd_last_success old) (fd_records old) "")
     (mkFeedRow source "running" (Some (formatTime started)) None 0 "") |>).
Definition RecordFeedResult (source : string) (completed : Time) (records : Z) (message : string) : st VulnDb unit := fun s =>
  let ready := bool_decide (message = "") in
  (Ok tt, s <| vd_feed ::= upsert fd_source (fun old excluded =>
     mkFeedRow (fd_source old) (fd_status excluded) (fd_last_started old)
       (match fd_last_success excluded with Some t => Some t | None => fd_last_success old end) (fd_records excluded) (fd_error excluded))
     (mkFeedRow source (if ready then "ready" else "failed") None (if ready then Some (formatTime completed) else None) records message) |>).

Definition read_feed_time (column : option string) : result (option Time) :=
  match column with
  | None => Ok None
  | Some t => match parseTime t with Some t => Ok (Some t) | None => Err "parse time" end
  end.
Definition FeedStatus_ (s : VulnDb) : result FeedStatus :=
  let count := Z.of_nat (length (vd_cves s)) in
  match query_row (fun r => bool_decide (fd_source r = "NVD")) (vd_feed s) with
  | None => Ok (mkFeedStatus "NVD" "not_synced" None None 0 "" count)
  | Some r =>
      started ← read_feed_time (fd_last_started r);
      success ← read_feed_time (fd_last_success r);
      Ok (mkFeedStatus (fd_source r) (fd_status r) started success (fd_records r) (fd_error r) count)
  end.

(** * nvd.go: Sync *)

Definition nvdSourceName : string := "NVD".
Definition page_size (configured : Z) : Z := if (configured <? 1) || (2000 <? configured) then 2000 else configured.

(** [fetch page startIndex] is the outcome of [fetchPage]; [clock page] the time
    the stored page is matched at; [canceled page] the error of a context that
    is done while the client waits before the next page. *)
Fixpoint sync_pages (fetch : nat -> Z -> result (list CVERecord * Z)) (clock : nat -> Time) (canceled : nat -> option error)
  (fuel page : nat) (startIndex count : Z) (s : VulnDb) : option (Z * option error * VulnDb) :=
  match fuel with
  | O => None
  | S fuel =>
      match fetch page startIndex with
      | Err e => Some (count, Some e, s)
      | Ok (records, total) =>
          match UpsertCVEs records (clock page) s with
          | (Err e, s) => Some (count, Some e, s)
          | (Ok _, s) =>
              let n := Z.of_nat (length records) in
              let count := count + n in
              let startIndex := startIndex + n in
              if (n =? 0) || (total <=? startIndex) then Some (count, None, s)
              else match canceled page with
                   | Some e => Some (count, Some e, s)
                   | None => sync_pages fetch clock canceled fuel (S page) startIndex count s
                   end
          end
      end
  end.
(** The pages between the two writes of the feed's status. *)
Definition Sync (fetch : nat -> Z -> result (list CVERecord * Z)) (clock : nat -> Time) (canceled : nat -> option error)
  (fuel : nat) (started completed : Time) (s : VulnDb) : option (Z * option error * VulnDb) :=
  let s := (RecordFeedStart nvdSourceName started s).2 in
  match sync_pages fetch clock canceled fuel 0 0 0 s with
  | None => None
  | Some (count, err, s) => Some (count, err, (RecordFeedResult nvdSourceName completed count (default "" err) s).2)
  end.

(** * Runs *)

(** What changes the tables: pages of the feed, and the statements of the
    endpoint store, of which a software inventory is matched at once. *)
Inductive vuln_op :=
| VulnFeed (records : list CVERecord) (at_ : Time)
| VulnStmt (c : stmt)
| VulnFeedStart (source : string) (started : Time)
| VulnFeedResult (source : string) (completed : Time) (records : Z) (message : string).
Definition vuln_step {TZ : TimeZones} (s : VulnDb) (o : vuln_op) : VulnDb :=
  match o with
  | VulnFeed records at_ => (UpsertCVEs records at_ s).2
  | VulnStmt (SSoftware _ id i receivedAt) => (RecordSoftware id i receivedAt s).2
  | VulnStmt c => s <| vd_endpoints ::= exec c |>
  | VulnFeedStart source started => (RecordFeedStart source started s).2
  | VulnFeedResult source completed records message => (RecordFeedResult source completed records message s).2
  end.
Definition run_vuln {TZ : TimeZones} (s : VulnDb) (ops : list vuln_op) : VulnDb := fold_left vuln_step ops s.
End store.
