(* ===== verification/CheckDefinition.v ===== *)
(** Declarative checks: internal/checkdefinition (format.go, signature.go,
    http.go, tls.go, ssh.go). JSON, base64, Ed25519, [%q] and the verification
    of host names in certificates are operations of classes. The errors of a
    decoder carry the message without its cause. *)
From Stdlib Require Import ZArith Lia String Ascii.
From stdpp Require Import base tactics list strings gmap sets sorting.
From coqutil Require Import Datatypes.RecordSettersUsingExistingGetters.
From S2P Require Import Prelude GoStrings GoTime GoRegex Netip NetworkPolicy EndpointModel Intelligence.
Open Scope string_scope.
Open Scope Z_scope.

(** * format.go *)

Definition SchemaVersion : Z := 1.
Definition maxSpecBytes : Z := 64 * 1024.
Definition maxTitleBytes : Z := 160.

Definition lower_or_digit (a : ascii) : bool := is_lower a || is_digit a.
Definition name_byte (a : ascii) : bool := is_lower a || is_upper a || is_digit a || existsb (Ascii.eqb a) ["."; "-"]%char.
(** Lower-case words of letters and digits joined by a period, an underscore or
    a hyphen, at least two of them; the first begins with a letter. *)
Definition identifierPattern : re :=
  RSeq (RClass is_lower) (RSeq (RStar (RClass lower_or_digit))
    (RPlus (RSeq (RClass (fun a => existsb (Ascii.eqb a) ["."; "_"; "-"]%char)) (RPlus (RClass lower_or_digit))))).
(** Semantic versions: three numbers without leading zeros, and the optional
    pre-release and build texts. *)
Definition core_number : re := RAlt (RByte "0") (RSeq (RClass (between "1" "9")) (RStar (RClass is_digit))).
Definition versionPattern : re :=
  RSeq core_number (RSeq (RByte ".") (RSeq core_number (RSeq (RByte ".") (RSeq core_number
    (RSeq (ROpt (RSeq (RByte "-") (RPlus (RClass name_byte)))) (ROpt (RSeq (RByte "+") (RPlus (RClass name_byte))))))))).
Definition validKinds : list string := ["http"; "ssh"; "tls"].
Definition validSeverities : list string := ["info"; "low"; "medium"; "high"; "critical"].

Record Check := mkCheck {
  Check_SchemaVersion : Z; Check_ID : string; Check_Version : string; Check_Kind : string; Check_Title : string; Check_Description : string;
  Check_Severity : string; Check_ExecutionClass : string; Check_Spec : string }.
Definition ExecutionObservational : string := "observational".
Definition ExecutionIntrusive : string := "intrusive".
Record SignedCheck := mkSignedCheck { Signed_Algorithm : string; Signed_KeyID : string; Signed_Check : Check; Signed_Signature : string }.

Record HTTPSpec := mkHTTPSpec {
  HTTP_RequireHTTPS : bool; HTTP_RequiredHeaders : list string; HTTP_ForbiddenHeaders : list string; HTTP_HeaderContains : gmap string (list string);
  HTTP_AllowedStatusCodes : list Z; HTTP_Remediation : string }.
Record SSHSpec := mkSSHSpec {
  SSH_AllowedProtocolVersions : list string; SSH_AllowedSoftware : list string; SSH_DisallowedSoftware : list string;
  SSH_ForbiddenCommentTerms : list string; SSH_ForbidVersionDisclosure : bool; SSH_Remediation : string }.
Record TLSSpec := mkTLSSpec {
  TLS_MinimumVersion : string; TLS_DisallowLegacyProtocols : bool; TLS_DisallowedCipherSuites : list string;
  TLS_RequireCurrentCertificate : bool; TLS_RequireHostnameMatch : bool; TLS_MinimumCertificateDaysLeft : option Z; TLS_Remediation : string }.

(** encoding/json on a specification: [canonical_json] decodes one value with
    its numbers as written and encodes it; the others decode one object without
    unknown fields. [encode_check] is the payload's JSON with its context. *)
Class CheckLibrary := {
  canonical_json : string -> option string;
  decode_http_spec : string -> option HTTPSpec;
  decode_ssh_spec : string -> option SSHSpec;
  decode_tls_spec : string -> option TLSSpec;
  encode_check : string -> Check -> string;
  raw_base64 : string -> string;
  raw_unbase64 : string -> option string;
  check_sign : string -> string -> string;
  check_verify : string -> string -> string -> bool;
  Quote : string -> string }.

Section definition.
Context {CL : CheckLibrary} {LC : LowerCase} {CF : CaseFolding}.

Definition canonicalSpec (spec : string) : result string :=
  match canonical_json spec with Some canonical => Ok canonical | None => Err "decode declarative-check spec" end.

Definition Validate (check : Check) : result unit :=
  reject negb (Check_SchemaVersion check =? SchemaVersion) as "unsupported declarative-check schema version" ;;
  reject negb (re_match identifierPattern (Check_ID check))
    as "declarative-check identifier must be namespaced and use lowercase letters, numbers, dots, underscores, or hyphens" ;;
  reject negb (re_match versionPattern (Check_Version check)) as "declarative-check version must use semantic versioning" ;;
  reject negb (one_of (Check_Kind check) validKinds) as "declarative-check kind is unsupported" ;;
  reject negb (one_of (Check_Severity check) validSeverities) as "declarative-check severity is unsupported" ;;
  reject negb (one_of (Check_ExecutionClass check) [""; ExecutionObservational; ExecutionIntrusive]) as "declarative-check execution class is unsupported" ;;
  let title := TrimSpace (Check_Title check) in
  reject bool_decide (title = "") || (maxTitleBytes <? strlen title) as "declarative-check title must contain 1 to 160 bytes" ;;
  reject (strlen (Check_Spec check) =? 0) || (maxSpecBytes <? strlen (Check_Spec check)) as "declarative-check spec must contain 1 to 65536 bytes" ;;
  canonical ← canonicalSpec (Check_Spec check);
  reject negb (has_prefix "{" canonical) as "declarative-check spec must be a JSON object" ;;
  Ok tt.

Definition IsIntrusive (check : Check) : bool := bool_decide (Check_ExecutionClass check = ExecutionIntrusive).
Definition requireObservational (check : Check) : result unit :=
  if IsIntrusive check then Err "intrusive declarative check cannot run in an observational evaluator" else Ok tt.

(** * signature.go *)

Definition signatureAlgorithm : string := "Ed25519".
Definition signatureContext : string := "mossward.declarative-check.v1".
Definition PublicKeySize : Z := 32.
Definition PrivateKeySize : Z := 64.
Definition SignatureSize : Z := 64.

Definition with_spec (check : Check) (spec : string) : Check :=
  mkCheck (Check_SchemaVersion check) (Check_ID check) (Check_Version check) (Check_Kind check) (Check_Title check) (Check_Description check)
    (Check_Severity check) (Check_ExecutionClass check) spec.
Definition signaturePayload (check : Check) : result (string * Check) :=
  try Validate check ;;
  canonical ← canonicalSpec (Check_Spec check);
  Ok (encode_check signatureContext (with_spec check canonical), with_spec check canonical).

Definition validateEnvelopeMetadata (envelope : SignedCheck) : result string :=
  reject negb (bool_decide (Signed_Algorithm envelope = signatureAlgorithm)) as "unsupported declarative-check signature algorithm" ;;
  reject negb (re_match identifierPattern (Signed_KeyID envelope)) as "declarative-check signing key identifier is invalid" ;;
  match raw_unbase64 (Signed_Signature envelope) with
  | Some signature => if strlen signature =? SignatureSize then Ok signature else Err "declarative-check signature is invalid"
  | None => Err "declarative-check signature is invalid"
  end.

Definition Sign (check : Check) (keyID privateKey : string) : result SignedCheck :=
  try Validate check ;;
  reject negb (re_match identifierPattern keyID) as "declarative-check signing key identifier is invalid" ;;
  reject negb (strlen privateKey =? PrivateKeySize) as "declarative-check signing key is invalid" ;;
  '(payload, normalized) ← signaturePayload check;
  Ok (mkSignedCheck signatureAlgorithm keyID normalized (raw_base64 (check_sign privateKey payload))).

Definition Verify (envelope : SignedCheck) (publicKey : string) : result unit :=
  reject negb (strlen publicKey =? PublicKeySize) as "declarative-check verification key is invalid" ;;
  payload ← signaturePayload (Signed_Check envelope);
  signature ← validateEnvelopeMetadata envelope;
  reject negb (check_verify publicKey payload.1 signature) as "declarative-check signature verification failed" ;;
  Ok tt.

(** The part of [ParseSigned] after the document is decoded. *)
Definition ParseSigned (envelope : SignedCheck) : result SignedCheck :=
  try Validate (Signed_Check envelope) ;;
  try validateEnvelopeMetadata envelope ;;
  Ok envelope.

(** * http.go *)

Definition maxHTTPRules : Z := 32.
Definition maxHeaderValueSize : Z := 512.

(** net/textproto: the bytes of a header name, [CanonicalHeaderKey], which leaves
    other names as they are, and [Header.Get]. *)
Definition header_byte (a : ascii) : bool :=
  is_digit a || is_lower a || is_upper a || existsb (Ascii.eqb a) ["!"; "#"; "$"; "%"; "&"; "'"; "*"; "+"; "-"; "."; "^"; "_"; "`"; "|"; "~"]%char.
Definition upper_byte (a : ascii) : ascii := if is_lower a then ascii_of_N (Z.to_N (byte_val a - 32)) else a.
Fixpoint canonical_bytes (upper : bool) (s : string) : string :=
  match s with
  | EmptyString => ""
  | String a s' => String (if upper then upper_byte a else lower_byte a) (canonical_bytes (Ascii.eqb a "-") s')
  end.
Definition CanonicalHeaderKey (name : string) : string := if str_forall header_byte name then canonical_bytes true name else name.
Definition Header := gmap string (list string).
Definition Header_Get (h : Header) (name : string) : string := default "" (h !! CanonicalHeaderKey name ≫= head).

Record HTTPInput := mkHTTPInput { Input_Secure : bool; Input_StatusCode : Z; Input_Headers : Header }.
(** HTTPResult, TLSResult and SSHResult have the same fields. *)
Record CheckResult := mkCheckResult { Result_Passed : bool; Result_Evidence : string; Result_Remediation : string }.

Definition validHeaderName (name : string) : bool := negb (bool_decide (name = "")) && (strlen name <=? 128) && str_forall header_byte name.

(** The loop over the required and forbidden headers. *)
Definition check_header_rule (seen : gset string) (name : string) : result (gset string) :=
  let canonical := CanonicalHeaderKey (TrimSpace name) in
  reject negb (validHeaderName canonical) || bool_decide (ToLower canonical ∈ seen) as "HTTP check contains an invalid or duplicate header rule" ;;
  Ok ({[ ToLower canonical ]} ∪ seen).
(** The loop over the header values, with the rules counted so far. *)
Definition check_header_value (acc : gset string * Z) (rule : string * list string) : result (gset string * Z) :=
  let normalized := ToLower (CanonicalHeaderKey (TrimSpace rule.1)) in
  reject negb (validHeaderName (CanonicalHeaderKey (TrimSpace rule.1))) || (Z.of_nat (length rule.2) =? 0) || bool_decide (normalized ∈ acc.1)
    as "HTTP check contains an invalid header-value rule" ;;
  reject existsb (fun value => blank value || (maxHeaderValueSize <? strlen value)) rule.2 as "HTTP check header value is empty or too large" ;;
  Ok ({[ normalized ]} ∪ acc.1, acc.2 + Z.of_nat (length rule.2)).
Definition check_status (seen : gset Z) (status : Z) : result (gset Z) :=
  reject (status <? 100) || (599 <? status) || bool_decide (status ∈ seen) as "HTTP check contains an invalid or duplicate status code" ;;
  Ok ({[ status ]} ∪ seen).

Definition http_rules (spec : HTTPSpec) : Z :=
  Z.of_nat (length (HTTP_RequiredHeaders spec)) + Z.of_nat (length (HTTP_ForbiddenHeaders spec)) + Z.of_nat (length (HTTP_AllowedStatusCodes spec)) +
  (if HTTP_RequireHTTPS spec then 1 else 0).
(** [order] is the order in which the loops visit the map of header values. *)
Definition validateHTTPSpec (order : list (string * list string)) (spec : HTTPSpec) : result unit :=
  let ruleCount := http_rules spec in
  reject ruleCount =? 0 as "HTTP check spec must declare at least one rule" ;;
  reject maxHTTPRules <? ruleCount as "HTTP check spec exceeds the 32-rule limit" ;;
  reject blank (HTTP_Remediation spec) as "HTTP check remediation is required" ;;
  try for_each check_header_rule ∅ (HTTP_RequiredHeaders spec ++ HTTP_ForbiddenHeaders spec)%list ;;
  acc ← for_each check_header_value (∅, ruleCount) order;
  reject maxHTTPRules <? acc.2 as "HTTP check spec exceeds the 32-rule limit" ;;
  try for_each check_status ∅ (HTTP_AllowedStatusCodes spec) ;;
  Ok tt.

Definition DecodeHTTPSpec (order : gmap string (list string) -> list (string * list string)) (check : Check) : result HTTPSpec :=
  try Validate check ;;
  reject negb (bool_decide (Check_Kind check = "http")) as "declarative check is not an HTTP check" ;;
  match decode_http_spec (Check_Spec check) with
  | None => Err "decode HTTP check spec"
  | Some spec => try validateHTTPSpec (order (HTTP_HeaderContains spec)) spec ;; Ok spec
  end.

(** [strings.Contains] *)
Fixpoint contains_str (s substring : string) : bool :=
  has_prefix substring s || match s with EmptyString => false | String _ s' => contains_str s' substring end.
Definition missing_header (input : HTTPInput) (name : string) : list string :=
  if blank (Header_Get (Input_Headers input) name) then ["required header " +:+ CanonicalHeaderKey name +:+ " is missing"] else [].
Definition present_header (input : HTTPInput) (name : string) : list string :=
  if negb (blank (Header_Get (Input_Headers input) name)) then ["forbidden header " +:+ CanonicalHeaderKey name +:+ " is present"] else [].
Definition lacking_values (input : HTTPInput) (rule : string * list string) : list string :=
  let actual := ToLowerText (Header_Get (Input_Headers input) rule.1) in
  flat_map (fun expected => if contains_str actual (ToLowerText expected) then []
                            else ["header " +:+ CanonicalHeaderKey rule.1 +:+ " does not contain the required value"]) rule.2.
Definition int_text (n : Z) : string := append_int n 0.
Definition httpFailures (order : list (string * list string)) (spec : HTTPSpec) (input : HTTPInput) : list string :=
  sort_slice str_ltb
    ((if HTTP_RequireHTTPS spec && negb (Input_Secure input) then ["the service responded over cleartext HTTP"] else []) ++
     flat_map (missing_header input) (HTTP_RequiredHeaders spec) ++ flat_map (present_header input) (HTTP_ForbiddenHeaders spec) ++
     flat_map (lacking_values input) order ++
     (if (0 <? Z.of_nat (length (HTTP_AllowedStatusCodes spec))) && negb (existsb (Z.eqb (Input_StatusCode input)) (HTTP_AllowedStatusCodes spec))
      then ["HTTP status " +:+ int_text (Input_StatusCode input) +:+ " is not allowed"] else []))%list.

Definition check_result (failures : list string) (remediation : string) : CheckResult :=
  mkCheckResult (bool_decide (failures = [])) (Join failures "; ") remediation.
Definition EvaluateHTTP (order : gmap string (list string) -> list (string * list string)) (check : Check) (input : HTTPInput) : result CheckResult :=
  try requireObservational check ;;
  spec ← DecodeHTTPSpec order check;
  Ok (check_result (httpFailures (order (HTTP_HeaderContains spec)) spec input) (HTTP_Remediation spec)).

(** * ssh.go *)

Definition maxSSHListRules : Z := 32.
Record SSHInput := mkSSHInput { SSH_ProtocolVersion : string; SSH_Software : string; SSH_SoftwareVersion : string; SSH_Comment : string }.

Definition check_ssh_value (label : string) (limit : Z) (seen : gset string) (value : string) : result (gset string) :=
  let normalized := ToLowerText (TrimSpace value) in
  reject bool_decide (normalized = "") || (limit <? strlen normalized) || bool_decide (normalized ∈ seen)
    as ("SSH check contains an invalid or duplicate " +:+ label) ;;
  Ok ({[ normalized ]} ∪ seen).
Definition validateSSHValues (values : list string) (label : string) (limit : Z) : result unit :=
  try for_each (check_ssh_value label limit) ∅ values ;; Ok tt.
Definition ssh_rules (spec : SSHSpec) : Z :=
  Z.of_nat (length (SSH_AllowedProtocolVersions spec)) + Z.of_nat (length (SSH_AllowedSoftware spec)) +
  Z.of_nat (length (SSH_DisallowedSoftware spec)) + Z.of_nat (length (SSH_ForbiddenCommentTerms spec)) +
  (if SSH_ForbidVersionDisclosure spec then 1 else 0).
Definition validateSSHSpec (spec : SSHSpec) : result unit :=
  reject ssh_rules spec =? 0 as "SSH check spec must declare at least one rule" ;;
  reject maxSSHListRules <? ssh_rules spec as "SSH check spec exceeds the 32-rule limit" ;;
  reject (0 <? Z.of_nat (length (SSH_AllowedSoftware spec))) && (0 <? Z.of_nat (length (SSH_DisallowedSoftware spec)))
    as "SSH check cannot combine allowed and disallowed software lists" ;;
  try validateSSHValues (SSH_AllowedProtocolVersions spec) "protocol version" 16 ;;
  try validateSSHValues (SSH_AllowedSoftware spec) "allowed software" 128 ;;
  try validateSSHValues (SSH_DisallowedSoftware spec) "disallowed software" 128 ;;
  try validateSSHValues (SSH_ForbiddenCommentTerms spec) "forbidden comment term" 128 ;;
  reject blank (SSH_Remediation spec) as "SSH check remediation is required" ;;
  Ok tt.
Definition DecodeSSHSpec (check : Check) : result SSHSpec :=
  try Validate check ;;
  reject negb (bool_decide (Check_Kind check = "ssh")) as "declarative check is not an SSH check" ;;
  match decode_ssh_spec (Check_Spec check) with
  | None => Err "decode SSH check spec"
  | Some spec => try validateSSHSpec spec ;; Ok spec
  end.

Definition containsFold (values : list string) (target : string) : bool := existsb (fun value => EqualFold (TrimSpace value) (TrimSpace target)) values.
Definition sshFailures (spec : SSHSpec) (input : SSHInput) : list string :=
  ((if (0 <? Z.of_nat (length (SSH_AllowedProtocolVersions spec))) && negb (containsFold (SSH_AllowedProtocolVersions spec) (SSH_ProtocolVersion input))
    then ["SSH protocol version " +:+ Quote (SSH_ProtocolVersion input) +:+ " is not allowed"] else []) ++
   (if (0 <? Z.of_nat (length (SSH_AllowedSoftware spec))) && negb (containsFold (SSH_AllowedSoftware spec) (SSH_Software input))
    then ["SSH software " +:+ Quote (SSH_Software input) +:+ " is not allowed"] else []) ++
   (if containsFold (SSH_DisallowedSoftware spec) (SSH_Software input)
    then ["SSH software " +:+ Quote (SSH_Software input) +:+ " is prohibited"] else []) ++
   flat_map (fun term => if contains_str (ToLowerText (SSH_Comment input)) (ToLowerText term)
                         then ["SSH identification comment contains prohibited term " +:+ Quote term] else []) (SSH_ForbiddenCommentTerms spec) ++
   (if SSH_ForbidVersionDisclosure spec && negb (blank (SSH_SoftwareVersion input))
    then ["SSH identification discloses a software version"] else []))%list.
Definition EvaluateSSH (check : Check) (input : SSHInput) : result CheckResult :=
  try requireObservational check ;;
  spec ← DecodeSSHSpec check;
  Ok (check_result (sshFailures spec input) (SSH_Remediation spec)).

(** * tls.go *)

Definition maxTLSCipherRules : Z := 32.
Definition tlsVersions : list (string * Z) := [("TLS1.0", 769); ("TLS1.1", 770); ("TLS1.2", 771); ("TLS1.3", 772)].
Definition tls_version (name : string) : option Z := snd <$> List.find (fun v => bool_decide (fst v = name)) tlsVersions.

(** crypto/tls: [CipherSuites] and [InsecureCipherSuites]. *)
Definition cipher_suites : list (string * Z) := [
  ("TLS_AES_128_GCM_SHA256", 0x1301); ("TLS_AES_256_GCM_SHA384", 0x1302); ("TLS_CHACHA20_POLY1305_SHA256", 0x1303);
  ("TLS_ECDHE_ECDSA_WITH_AES_128_CBC_SHA", 0xc009); ("TLS_ECDHE_ECDSA_WITH_AES_256_CBC_SHA", 0xc00a);
  ("TLS_ECDHE_RSA_WITH_AES_128_CBC_SHA", 0xc013); ("TLS_ECDHE_RSA_WITH_AES_256_CBC_SHA", 0xc014);
  ("TLS_ECDHE_ECDSA_WITH_AES_128_GCM_SHA256", 0xc02b); ("TLS_ECDHE_ECDSA_WITH_AES_256_GCM_SHA384", 0xc02c);
  ("TLS_ECDHE_RSA_WITH_AES_128_GCM_SHA256", 0xc02f); ("TLS_ECDHE_RSA_WITH_AES_256_GCM_SHA384", 0xc030);
  ("TLS_ECDHE_RSA_WITH_CHACHA20_POLY1305_SHA256", 0xcca8); ("TLS_ECDHE_ECDSA_WITH_CHACHA20_POLY1305_SHA256", 0xcca9);
  ("TLS_RSA_WITH_RC4_128_SHA", 0x0005); ("TLS_RSA_WITH_3DES_EDE_CBC_SHA", 0x000a); ("TLS_RSA_WITH_AES_128_CBC_SHA", 0x002f);
  ("TLS_RSA_WITH_AES_256_CBC_SHA", 0x0035); ("TLS_RSA_WITH_AES_128_CBC_SHA256", 0x003c); ("TLS_RSA_WITH_AES_128_GCM_SHA256", 0x009c);
  ("TLS_RSA_WITH_AES_256_GCM_SHA384", 0x009d); ("TLS_ECDHE_ECDSA_WITH_RC4_128_SHA", 0xc007); ("TLS_ECDHE_RSA_WITH_RC4_128_SHA", 0xc011);
  ("TLS_ECDHE_RSA_WITH_3DES_EDE_CBC_SHA", 0xc012); ("TLS_ECDHE_ECDSA_WITH_AES_128_CBC_SHA256", 0xc023);
  ("TLS_ECDHE_RSA_WITH_AES_128_CBC_SHA256", 0xc027)].
(** [%04x], with [letter] the digit ten. *)
Definition hex_digit (letter n : Z) : ascii := ascii_of_N (Z.to_N (if n <? 10 then 48 + n else letter + (n - 10))).
Definition hex4 (letter n : Z) : string :=
  String (hex_digit letter (n / 4096 mod 16)) (String (hex_digit letter (n / 256 mod 16))
    (String (hex_digit letter (n / 16 mod 16)) (String (hex_digit letter (n mod 16)) ""))).
Definition CipherSuiteName (id : Z) : string :=
  match List.find (fun s => snd s =? id) cipher_suites with Some s => fst s | None => "0x" +:+ hex4 65 id end.
Definition cipherSuiteID (name : string) : Z := default 0 (snd <$> List.find (fun s => bool_decide (fst s = name)) cipher_suites).
Definition tlsVersionName (version : Z) : string :=
  match List.find (fun v => snd v =? version) tlsVersions with Some v => fst v | None => "TLS version 0x" +:+ hex4 97 version end.

(** The fields of a leaf certificate the checks read, and [VerifyHostname]. *)
Record LeafCertificate := mkLeaf {
  Leaf_NotBefore : Time; Leaf_NotAfter : Time; Leaf_VerifyHostname : string -> bool; Leaf_Subject : string; Leaf_Issuer : string;
  Leaf_DNSNames : list string }.
Record TLSInput := mkTLSInput {
  TLS_Version : Z; TLS_CipherSuite : Z; TLS_Certificate : option LeafCertificate; TLS_Hostname : string; TLS_LegacyAccepted : bool; TLS_ObservedAt : Time }.

Definition tls_rules (spec : TLSSpec) : Z :=
  Z.of_nat (length (TLS_DisallowedCipherSuites spec)) + (if bool_decide (TLS_MinimumVersion spec = "") then 0 else 1) +
  (if TLS_DisallowLegacyProtocols spec then 1 else 0) + (if TLS_RequireCurrentCertificate spec then 1 else 0) +
  (if TLS_RequireHostnameMatch spec then 1 else 0) + match TLS_MinimumCertificateDaysLeft spec with Some _ => 1 | None => 0 end.
Definition check_cipher (seen : gset string) (cipher : string) : result (gset string) :=
  reject negb (has_prefix "TLS_" cipher) || (cipherSuiteID cipher =? 0) || bool_decide (cipher ∈ seen)
    as "TLS check contains an invalid or duplicate cipher suite" ;;
  Ok ({[ cipher ]} ∪ seen).
Definition validateTLSSpec (spec : TLSSpec) : result unit :=
  reject negb (bool_decide (TLS_MinimumVersion spec = "")) && negb (bool_decide (is_Some (tls_version (TLS_MinimumVersion spec))))
    as "TLS check minimum version is unsupported" ;;
  reject match TLS_MinimumCertificateDaysLeft spec with Some days => (days <? 0) || (3650 <? days) | None => false end
    as "TLS check minimum certificate days must be between 0 and 3650" ;;
  reject tls_rules spec =? 0 as "TLS check spec must declare at least one rule" ;;
  reject maxTLSCipherRules <? Z.of_nat (length (TLS_DisallowedCipherSuites spec)) as "TLS check exceeds the 32-cipher limit" ;;
  try for_each check_cipher ∅ (TLS_DisallowedCipherSuites spec) ;;
  reject blank (TLS_Remediation spec) as "TLS check remediation is required" ;;
  Ok tt.
Definition DecodeTLSSpec (check : Check) : result TLSSpec :=
  try Validate check ;;
  reject negb (bool_decide (Check_Kind check = "tls")) as "declarative check is not a TLS check" ;;
  match decode_tls_spec (Check_Spec check) with
  | None => Err "decode TLS check spec"
  | Some spec => try validateTLSSpec spec ;; Ok spec
  end.

(** [clock] is the time read when the input has none. *)
Definition certificateFailures (clock : Time) (spec : TLSSpec) (input : TLSInput) : list string :=
  if negb (TLS_RequireCurrentCertificate spec) && negb (TLS_RequireHostnameMatch spec) && bool_decide (TLS_MinimumCertificateDaysLeft spec = None) then []
  else match TLS_Certificate input with
  | None => ["the service did not provide a leaf certificate"]
  | Some leaf =>
      let now := if IsZero (TLS_ObservedAt input) then clock else TLS_ObservedAt input in
      ((if TLS_RequireCurrentCertificate spec && (Before now (Leaf_NotBefore leaf) || After now (Leaf_NotAfter leaf))
        then ["the leaf certificate is outside its validity period"] else []) ++
       (if TLS_RequireHostnameMatch spec && (bool_decide (TLS_Hostname input = "") || negb (Leaf_VerifyHostname leaf (TLS_Hostname input)))
        then ["the leaf certificate does not match " +:+ Quote (TLS_Hostname input)] else []) ++
       match TLS_MinimumCertificateDaysLeft spec with
       | Some days => if Sub (Leaf_NotAfter leaf) now <=? days * 24 * Hour
                      then ["the leaf certificate has fewer than " +:+ int_text days +:+ " days remaining"] else []
       | None => []
       end)%list
  end.
Definition tlsFailures (clock : Time) (spec : TLSSpec) (input : TLSInput) : list string :=
  (match tls_version (TLS_MinimumVersion spec) with
   | Some minimum => if TLS_Version input <? minimum
                     then ["negotiated " +:+ tlsVersionName (TLS_Version input) +:+ " is below required " +:+ TLS_MinimumVersion spec] else []
   | None => []
   end ++
   (if TLS_DisallowLegacyProtocols spec && TLS_LegacyAccepted input then ["the service accepted TLS 1.0 or TLS 1.1"] else []) ++
   flat_map (fun cipher => if bool_decide (CipherSuiteName (TLS_CipherSuite input) = cipher)
                           then ["negotiated cipher suite " +:+ cipher +:+ " is prohibited"] else []) (TLS_DisallowedCipherSuites spec) ++
   certificateFailures clock spec input)%list.
Definition EvaluateTLS (clock : Time) (check : Check) (input : TLSInput) : result CheckResult :=
  try requireObservational check ;;
  spec ← DecodeTLSSpec check;
  Ok (check_result (tlsFailures clock spec input) (TLS_Remediation spec)).
End definition.

(** What the library's operations do. *)
Class CheckLibraryLaws {CL : CheckLibrary} : Prop := {
  canonical_idempotent spec canonical : canonical_json spec = Some canonical -> canonical_json canonical = Some canonical;
  raw_base64_inverse bytes : raw_unbase64 (raw_base64 bytes) = Some bytes;
  check_sign_length key payload : strlen (check_sign key payload) = 64 }.
