(* ===== verification/CheckCatalog.v ===== *)
(** The catalog of declarative checks and the gate before intrusive ones:
    internal/checkcatalog/catalog.go, internal/checkpolicy/policy.go and
    internal/store/check_catalog.go and check_policy.go. *)
From Stdlib Require Import ZArith Lia String Ascii.
From stdpp Require Import base tactics list strings gmap sets.
From coqutil Require Import Datatypes.RecordSettersUsingExistingGetters.
From S2P Require Import Prelude GoStrings GoTime GoRegex Netip NetworkPolicy EndpointModel WorkerStore Sql EndpointStore Intelligence CheckDefinition.
Open Scope string_scope.
Open Scope Z_scope.

(** * catalog.go: versions *)

Definition ErrPublisherNotTrusted : error := "declarative-check publisher is not trusted".
Definition ErrRollbackApproval : error := "declarative-check rollback requires explicit approval".
Definition ErrVersionNotFound : error := "declarative-check version not found".
Definition ErrVersionConflict : error := "declarative-check version is immutable".

(** [strings.Cut] at a byte: what is before it, and what is after it. *)
Fixpoint cut_byte (c : ascii) (s : string) : string * option string :=
  match s with
  | EmptyString => ("", None)
  | String a s' => if Ascii.eqb a c then ("", Some s') else let '(before, after_) := cut_byte c s' in (String a before, after_)
  end.
(** The number [strconv.Atoi] returns next to its error: 0 for a syntax error,
    the nearest bound when it is out of range. *)
Definition Atoi_value (s : string) : Z :=
  let '(negative, digits) := match s with String "+"%char s' => (false, s') | String "-"%char s' => (true, s') | _ => (false, s) end in
  match digits with
  | EmptyString => 0
  | _ => match read_digits 0 digits with
         | None => 0
         | Some n => Z.max int64_min (Z.min int64_max (if negative : bool then - n else n))
         end
  end.
(** [strings.SplitN(value, sep, 2)]: the core's three numbers and the pre-release.
    The code reads three fields; the versions of the catalog have them. *)
Definition splitVersion (value : string) : list Z * string :=
  let '(core, pre) := cut_byte "-" (fst (cut_byte "+" value)) in
  (Atoi_value <$> firstn 3 (split_byte "." core), default "" pre).
Fixpoint compare_core (ls rs : list Z) : Z :=
  match ls, rs with
  | l :: ls, r :: rs => if l <? r then -1 else if r <? l then 1 else compare_core ls rs
  | _, _ => 0
  end.
Fixpoint compare_identifiers (ls rs : list string) : Z :=
  match ls, rs with
  | [], [] => 0
  | [], _ :: _ => -1
  | _ :: _, [] => 1
  | l :: ls, r :: rs =>
      if bool_decide (l = r) then compare_identifiers ls rs
      else match ParseInt64 l, ParseInt64 r with
      | Some m, Some n => if m <? n then -1 else 1
      | Some _, None => -1
      | None, Some _ => 1
      | None, None => if str_ltb l r then -1 else 1
      end
  end.
Definition comparePrerelease (left right : string) : Z := compare_identifiers (split_byte "." left) (split_byte "." right).
Definition compareVersions (left right : string) : Z :=
  let '(lCore, lPre) := splitVersion left in
  let '(rCore, rPre) := splitVersion right in
  let c := compare_core lCore rCore in
  if negb (c =? 0) then c
  else if bool_decide (lPre = rPre) then 0
  else if bool_decide (lPre = "") then 1
  else if bool_decide (rPre = "") then -1
  else comparePrerelease lPre rPre.

(** * The store *)

Definition PublisherStatus := string.
Definition PublisherTrusted : PublisherStatus := "trusted".
Definition PublisherRevoked : PublisherStatus := "revoked".
Definition CheckStatus := string.
Definition CheckStaged : CheckStatus := "staged".
Definition CheckActive : CheckStatus := "active".
Definition CheckRetired : CheckStatus := "retired".

(** check_publishers and declarative_check_versions; the envelope's column holds its JSON, which reads back. *)
Record Publisher := mkCheckPublisher {
  CheckPublisher_KeyID : string; CheckPublisher_Name : string; CheckPublisher_PublicKey : string; CheckPublisher_Status : PublisherStatus;
  CheckPublisher_AddedAt : Time; CheckPublisher_RevokedAt : option Time }.
Record Version := mkVersion { Version_Envelope : SignedCheck; Version_Status : CheckStatus; Version_ImportedAt : Time; Version_ActivatedAt : option Time }.
Record CatalogDb := { cat_publishers : list Publisher; cat_versions : list Version }.

Definition version_id (v : Version) : string * string := (Check_ID (Signed_Check (Version_Envelope v)), Check_Version (Signed_Check (Version_Envelope v))).
Definition publisher_is (keyID : string) (p : Publisher) : bool := bool_decide (CheckPublisher_KeyID p = keyID).
Definition version_is (id version : string) (v : Version) : bool := bool_decide (version_id v = (id, version)).
Definition active_check (id : string) (v : Version) : bool :=
  bool_decide (Check_ID (Signed_Check (Version_Envelope v)) = id) && bool_decide (Version_Status v = CheckActive).

(** A conflict renews the name and the trust and keeps the key and the date. *)
Definition renew_trust (old excluded : Publisher) : Publisher :=
  mkCheckPublisher (CheckPublisher_KeyID old) (CheckPublisher_Name excluded) (CheckPublisher_PublicKey old) PublisherTrusted
    (CheckPublisher_AddedAt old) None.
Definition SavePublisher (value : Publisher) : st CatalogDb unit := fun s =>
  if negb (one_of (CheckPublisher_Status value) [PublisherTrusted; PublisherRevoked]) then (Err ErrConstraint, s)
  else (Ok tt, s <| cat_publishers ::= upsert CheckPublisher_KeyID renew_trust
          (mkCheckPublisher (CheckPublisher_KeyID value) (CheckPublisher_Name value) (CheckPublisher_PublicKey value) (CheckPublisher_Status value)
            (CheckPublisher_AddedAt value) None) |>).
Definition Publisher_ (keyID : string) (s : CatalogDb) : result Publisher :=
  match query_row (publisher_is keyID) (cat_publishers s) with Some p => Ok p | None => Err ErrPublisherNotTrusted end.
Definition RevokePublisherRow (keyID : string) (at_ : Time) : st CatalogDb unit := fun s =>
  if affected (publisher_is keyID) (cat_publishers s) =? 0 then (Err ErrPublisherNotTrusted, s)
  else (Ok tt, s <| cat_publishers ::= update_where (publisher_is keyID) (fun p =>
          mkCheckPublisher (CheckPublisher_KeyID p) (CheckPublisher_Name p) (CheckPublisher_PublicKey p) PublisherRevoked (CheckPublisher_AddedAt p) (Some at_)) |>).

(** PRIMARY KEY(check_id,version), FOREIGN KEY(key_id), and one active version of a check. *)
Definition SaveVersion (value : Version) : st CatalogDb unit := fun s =>
  if bool_decide (version_id value ∈ version_id <$> cat_versions s) ||
     negb (existsb (publisher_is (Signed_KeyID (Version_Envelope value))) (cat_publishers s)) ||
     negb (one_of (Version_Status value) [CheckStaged; CheckActive; CheckRetired]) ||
     (bool_decide (Version_Status value = CheckActive) && existsb (active_check (version_id value).1) (cat_versions s))
  then (Err ErrConstraint, s)
  else (Ok tt, s <| cat_versions ::= fun l => (l ++ [mkVersion (Version_Envelope value) (Version_Status value) (Version_ImportedAt value) None])%list |>).
Definition Version_ (id version : string) (s : CatalogDb) : result Version :=
  match query_row (version_is id version) (cat_versions s) with Some v => Ok v | None => Err ErrVersionNotFound end.
Definition ActiveVersion (id : string) (s : CatalogDb) : result Version :=
  match query_row (active_check id) (cat_versions s) with Some v => Ok v | None => Err ErrVersionNotFound end.
Definition with_status (status : CheckStatus) (activatedAt : option Time) (v : Version) : Version :=
  mkVersion (Version_Envelope v) status (Version_ImportedAt v) activatedAt.
Definition ActivateVersion (id version : string) (at_ : Time) : st CatalogDb unit := fun s =>
  let retired := update_where (active_check id) (fun v => with_status CheckRetired (Version_ActivatedAt v) v) (cat_versions s) in
  if affected (version_is id version) retired =? 0 then (Err ErrVersionNotFound, s)
  else (Ok tt, s <| cat_versions := update_where (version_is id version) (with_status CheckActive (Some at_)) retired |>).

(** * catalog.go: the service *)

Section service.
Context {CL : CheckLibrary}.

Definition TrustPublisher (keyID name publicKey : string) (now : Time) : st CatalogDb unit := fun s =>
  if blank name || negb (strlen publicKey =? PublicKeySize)
  then (Err "declarative-check publisher name and Ed25519 public key are required", s)
  else if match Publisher_ keyID s with Ok existing => negb (bool_decide (CheckPublisher_PublicKey existing = publicKey)) | Err _ => false end
  then (Err "declarative-check publisher key identifier is already bound to another key", s)
  else SavePublisher (mkCheckPublisher keyID (TrimSpace name) publicKey PublisherTrusted now None) s.
Definition RevokePublisher (keyID : string) (now : Time) : st CatalogDb unit := RevokePublisherRow keyID now.

Definition trusted (keyID : string) (s : CatalogDb) : option Publisher :=
  match Publisher_ keyID s with Ok p => if bool_decide (CheckPublisher_Status p = PublisherTrusted) then Some p else None | Err _ => None end.

Definition Import (envelope : SignedCheck) (now : Time) : st CatalogDb unit := fun s =>
  match trusted (Signed_KeyID envelope) s with
  | None => (Err ErrPublisherNotTrusted, s)
  | Some publisher =>
      match Verify envelope (CheckPublisher_PublicKey publisher) with
      | Err e => (Err e, s)
      | Ok _ =>
          match Version_ (Check_ID (Signed_Check envelope)) (Check_Version (Signed_Check envelope)) s with
          | Ok existing =>
              if bool_decide (Signed_Signature (Version_Envelope existing) = Signed_Signature envelope) &&
                 bool_decide (Signed_KeyID (Version_Envelope existing) = Signed_KeyID envelope)
              then (Ok tt, s) else (Err ErrVersionConflict, s)
          | Err _ => SaveVersion (mkVersion envelope CheckStaged now None) s
          end
      end
  end.

Definition Activate (checkID version : string) (allowRollback : bool) (now : Time) : st CatalogDb unit := fun s =>
  match Version_ checkID version s with
  | Err _ => (Err ErrVersionNotFound, s)
  | Ok candidate =>
      match trusted (Signed_KeyID (Version_Envelope candidate)) s with
      | None => (Err ErrPublisherNotTrusted, s)
      | Some _ =>
          if match ActiveVersion checkID s with
             | Ok active => (compareVersions version (Check_Version (Signed_Check (Version_Envelope active))) <? 0) && negb allowRollback
             | Err _ => false
             end
          then (Err ErrRollbackApproval, s)
          else ActivateVersion checkID version now s
      end
  end.

Inductive catalog_op :=
| CatalogTrust (keyID name publicKey : string) (now : Time)
| CatalogRevoke (keyID : string) (now : Time)
| CatalogImport (envelope : SignedCheck) (now : Time)
| CatalogActivate (checkID version : string) (allowRollback : bool) (now : Time).
Definition catalog_step (s : CatalogDb) (o : catalog_op) : CatalogDb :=
  match o with
  | CatalogTrust keyID name publicKey now => (TrustPublisher keyID name publicKey now s).2
  | CatalogRevoke keyID now => (RevokePublisher keyID now s).2
  | CatalogImport envelope now => (Import envelope now s).2
  | CatalogActivate checkID version allowRollback now => (Activate checkID version allowRollback now s).2
  end.
Definition run_catalog (s : CatalogDb) (ops : list catalog_op) : CatalogDb := fold_left catalog_step ops s.
Definition empty_catalog : CatalogDb := {| cat_publishers := []; cat_versions := [] |}.
End service.

(** * policy.go and check_policy.go *)

Definition ErrIntrusiveDisabled : error := "intrusive declarative checks are disabled".
Definition ErrCheckNotAllowed : error := "intrusive declarative check is not allowlisted".
Definition ErrApprovalRequired : error := "a current intrusive-check approval is required".

Record Policy := mkCheckPolicy { CheckPolicy_Enabled : bool; CheckPolicy_AllowedCheckIDs : list string; CheckPolicy_UpdatedAt : Time }.
Record Approval := mkApproval {
  Approval_CheckID : string; Approval_Version : string; Approval_ApprovedBy : string; Approval_ApprovedAt : Time; Approval_ExpiresAt : Time }.

Definition check_allowed_id (seen : gset string) (id : string) : result (gset string) :=
  reject negb (bool_decide (TrimSpace id = id)) || negb (contains_str id ".") || bool_decide (id ∈ seen)
    as "intrusive-check policy contains an invalid or duplicate check identifier" ;;
  Ok ({[ id ]} ∪ seen).
Definition ValidatePolicy (policy : Policy) : result unit :=
  reject IsZero (CheckPolicy_UpdatedAt policy) as "intrusive-check policy update time is required" ;;
  try for_each check_allowed_id ∅ (CheckPolicy_AllowedCheckIDs policy) ;;
  Ok tt.
Definition Authorize (check : Check) (policy : Policy) (approval : option Approval) (now : Time) : result unit :=
  if negb (IsIntrusive check) then Ok tt else
  reject negb (CheckPolicy_Enabled policy) as ErrIntrusiveDisabled ;;
  reject negb (existsb (fun id => bool_decide (id = Check_ID check)) (CheckPolicy_AllowedCheckIDs policy)) as ErrCheckNotAllowed ;;
  match approval with
  | None => Err ErrApprovalRequired
  | Some a =>
      if negb (bool_decide (Approval_CheckID a = Check_ID check)) || negb (bool_decide (Approval_Version a = Check_Version check)) ||
         blank (Approval_ApprovedBy a) || After (Approval_ApprovedAt a) now || negb (After (Approval_ExpiresAt a) now)
      then Err ErrApprovalRequired else Ok tt
  end.

(** The row of intrusive_check_policy; the list's column is its JSON, of which
    [encode_ids] and [decode_ids] are the two directions. *)
Record PolicyRow := mkPolicyRow { pr_enabled : bool; pr_ids : string; pr_updated_at : string }.
Definition initial_policy (encode_ids : list string -> string) (now : Time) : PolicyRow := mkPolicyRow false (encode_ids []) (formatTime now).
Definition IntrusiveCheckPolicy (decode_ids : string -> option (list string)) (row : PolicyRow) : result Policy :=
  match decode_ids (pr_ids row) with
  | None => Err "decode intrusive-check policy"
  | Some ids => Ok (mkCheckPolicy (pr_enabled row) ids (default ZeroTime (parseTime (pr_updated_at row))))
  end.
Definition SaveIntrusiveCheckPolicy (encode_ids : list string -> string) (policy : Policy) : st PolicyRow unit := fun row =>
  match ValidatePolicy policy with
  | Err e => (Err e, row)
  | Ok _ => (Ok tt, mkPolicyRow (CheckPolicy_Enabled policy) (encode_ids (CheckPolicy_AllowedCheckIDs policy)) (formatTime (CheckPolicy_UpdatedAt policy)))
  end.
