(* ===== verification/IntelligenceSafety.v ===== *)
(** Vulnerability intelligence: the order of versions and the ranges it gives,
    the matches of endpoints over any run, and the feed's synchronisation. *)
From Stdlib Require Import ZArith Lia String Ascii SpecFloat.
From stdpp Require Import base tactics list strings gmap sets.
From coqutil Require Import Datatypes.RecordSettersUsingExistingGetters.
From S2P Require Import Prelude GoStrings GoTime Netip WorkerModel Sql EndpointModel EndpointStore ModuleCatalog EndpointService EndpointAdmin EndpointMachine EndpointInvariant GoLocation WorkerStore ScanModel AssetStore ScanStore ScanSchedule Intelligence.
Open Scope string_scope.
Open Scope Z_scope.

(** * The order of parts *)

Lemma compare_part_opp x y : compare_part y x = - compare_part x y.
Proof.
  unfold compare_part. destruct (numeric x), (numeric y); simpl; try done.
  - destruct (Z.ltb_spec (number x) (number y)), (Z.ltb_spec (number y) (number x)); lia.
  - destruct (str_ltb (text x) (text y)) eqn:E1, (str_ltb (text y) (text x)) eqn:E2; try done.
    apply str_ltb_asym in E1. congruence.
Qed.

Lemma compare_part_refl x : compare_part x x = 0.
Proof. pose proof (compare_part_opp x x). lia. Qed.

Lemma compare_part_values x y : compare_part x y = -1 \/ compare_part x y = 0 \/ compare_part x y = 1.
Proof. unfold compare_part. repeat case_if; auto. Qed.

(** The rank of a part: texts before numbers. *)
Lemma compare_part_le x y :
  compare_part x y <= 0 <-> (numeric x = false /\ numeric y = true) \/
    (numeric x = true /\ numeric y = true /\ number x <= number y) \/
    (numeric x = false /\ numeric y = false /\ str_leb (text x) (text y) = true).
Proof.
  unfold compare_part, str_leb. destruct (numeric x), (numeric y); simpl.
  - destruct (Z.ltb_spec (number x) (number y)), (Z.ltb_spec (number y) (number x)); split; try lia; intros _; right; left; split_and!; done || lia.
  - split; [lia|naive_solver].
  - split; [auto|lia].
  - destruct (str_ltb (text x) (text y)) eqn:E1, (str_ltb (text y) (text x)) eqn:E2; simpl; split; try lia; try naive_solver.
    apply str_ltb_asym in E1. congruence.
Qed.

Lemma compare_part_trans x y z : compare_part x y <= 0 -> compare_part y z <= 0 -> compare_part x z <= 0.
Proof.
  rewrite !compare_part_le. intros [[??]|[(?&?&?)|(?&?&?)]] [[??]|[(?&?&?)|(?&?&?)]]; try congruence; auto.
  - right; left. split_and!; [done..|lia].
  - right; right. split_and!; [done..|by eapply str_leb_trans].
Qed.

(** * The order of lists of parts *)

Lemma compare_parts_opp n a b : compare_parts n b a = - compare_parts n a b.
Proof.
  revert a b. induction n as [|n IH]; intros a b; simpl; [done|]. rewrite (compare_part_opp (default no_part (head a))).
  destruct (Z.eqb_spec (compare_part (default no_part (head a)) (default no_part (head b))) 0) as [->|E]; simpl; [apply IH|].
  rewrite (proj2 (Z.eqb_neq _ 0)) by lia. done.
Qed.

(** Parts beyond both lists change nothing. *)
Lemma compare_parts_more n k a b : (max (length a) (length b) <= n)%nat -> compare_parts (n + k) a b = compare_parts n a b.
Proof.
  revert a b. induction n as [|n IH]; intros a b Hl.
  - destruct a, b; simpl in Hl; try lia. induction k as [|k IHk]; [done|].
    cbn [Nat.add compare_parts head default tail]. cbv zeta. change (default no_part None) with no_part. by rewrite compare_part_refl.
  - cbn [Nat.add compare_parts]. cbv zeta. rewrite IH; [done|]. destruct a, b; simpl in *; lia.
Qed.

Lemma compare_parts_trans n a b c : compare_parts n a b <= 0 -> compare_parts n b c <= 0 -> compare_parts n a c <= 0.
Proof.
  revert a b c. induction n as [|n IH]; intros a b c; cbn [compare_parts]; cbv zeta; [done|].
  set (x := default no_part (head a)). set (y := default no_part (head b)). set (z := default no_part (head c)).
  pose proof (compare_part_trans x y z). pose proof (compare_part_trans z x y). pose proof (compare_part_trans y z x). pose proof (compare_part_trans z y x).
  pose proof (compare_part_opp x z). pose proof (compare_part_opp x y). pose proof (compare_part_opp y z).
  destruct (Z.eqb_spec (compare_part x y) 0), (Z.eqb_spec (compare_part y z) 0), (Z.eqb_spec (compare_part x z) 0); intros Hab Hbc;
    first [lia|by eapply IH].
Qed.

(** Parts as [versionParts] makes them: a number has no text, and a text is not empty. *)
Definition proper_part (p : versionPart) : Prop := if numeric p then text p = "" else number p = 0 /\ text p <> "".

Lemma compare_part_eq x y : proper_part x -> proper_part y -> compare_part x y = 0 -> x = y.
Proof.
  unfold proper_part, compare_part. destruct x as [[] nx tx], y as [[] ny ty]; simpl; intros Hx Hy; try done.
  - destruct (Z.ltb_spec nx ny), (Z.ltb_spec ny nx); try done. intros _. subst. f_equal. lia.
  - destruct Hx as [-> _], Hy as [-> _]. destruct (str_trichotomy tx ty) as [E|[->|E]]; [by rewrite E|done|].
    rewrite E, (str_ltb_asym ty tx) by done. done.
Qed.

Lemma compare_part_none x : proper_part x -> compare_part no_part x <> 0.
Proof.
  unfold proper_part, compare_part, no_part. destruct x as [[] nx tx]; simpl; [done|]. intros [_ Ht]. by destruct tx.
Qed.

Lemma compare_parts_eq n a b : (max (length a) (length b) <= n)%nat -> Forall proper_part a -> Forall proper_part b ->
  compare_parts n a b = 0 -> a = b.
Proof.
  revert a b. induction n as [|n IH]; intros a b Hl Ha Hb; [by destruct a, b; simpl in Hl; try lia|].
  cbn [compare_parts]. cbv zeta. destruct a as [|x a], b as [|y b]; cbn [head tail]; change (default no_part None) with no_part;
    try change (default no_part (Some x)) with x; try change (default no_part (Some y)) with y.
  - done.
  - apply Forall_cons in Hb as [Hy _]. pose proof (compare_part_none y Hy). rewrite (proj2 (Z.eqb_neq _ 0)); done.
  - apply Forall_cons in Ha as [Hx _]. pose proof (compare_part_none x Hx) as N. rewrite (compare_part_opp no_part x).
    rewrite (proj2 (Z.eqb_neq _ 0)); lia.
  - apply Forall_cons in Ha as [Hx Ha]. apply Forall_cons in Hb as [Hy Hb]. simpl in Hl.
    destruct (Z.eqb_spec (compare_part x y) 0) as [E|E]; [|done]. intros Hab. f_equal; [by apply compare_part_eq|].
    apply IH; [lia|done..].
Qed.

Lemma span_digits_token d a s : is_digit a = d -> exists token rest, span_digits d (String a s) = (String a token, rest).
Proof. intros <-. simpl. rewrite Bool.eqb_reflx. destruct (span_digits _ s). eauto. Qed.

Lemma version_parts_proper fuel value : Forall proper_part (version_parts fuel value).
Proof.
  revert value. induction fuel as [|fuel IH]; intros [|a s]; cbn [version_parts]; try constructor. cbv zeta.
  destruct (span_digits_token (is_digit a) a s eq_refl) as (token & rest & ->). apply Forall_app. split; [|apply IH].
  destruct (is_digit a); [by repeat constructor|]. case_if; repeat constructor.  simpl. done.
Qed.

Lemma trim_zero_parts_sub parts : Forall proper_part parts -> Forall proper_part (trimTrailingZeroParts parts).
Proof.
  induction 1 as [|p parts Hp Hf IH]; simpl; [constructor|]. destruct (trimTrailingZeroParts parts); [|by constructor].
  destruct (zero_part p); by repeat constructor.
Qed.

(** * Versions *)

Section versions.
Context {LC : LowerCase}.

Lemma version_key_proper value : Forall proper_part (version_key value).
Proof. apply trim_zero_parts_sub, version_parts_proper. Qed.

Lemma compare_versions_at n left right : (max (length (version_key left)) (length (version_key right)) <= n)%nat ->
  CompareVersions left right = compare_parts n (version_key left) (version_key right).
Proof.
  intros Hn. unfold CompareVersions. set (k := max _ _) in *. replace n with (k + (n - k))%nat by lia. by rewrite compare_parts_more.
Qed.

Lemma compare_versions_opp left right : CompareVersions right left = - CompareVersions left right.
Proof. rewrite !(compare_versions_at (max (length (version_key left)) (length (version_key right)))) by lia. apply compare_parts_opp. Qed.

Lemma compare_versions_trans a b c : CompareVersions a b <= 0 -> CompareVersions b c <= 0 -> CompareVersions a c <= 0.
Proof.
  set (n := max (length (version_key a)) (max (length (version_key b)) (length (version_key c)))).
  rewrite !(compare_versions_at n) by lia. apply compare_parts_trans.
Qed.

Lemma compare_versions_zero a b : CompareVersions a b = 0 <-> version_key a = version_key b.
Proof.
  split.
  - apply compare_parts_eq; [lia|apply version_key_proper..].
  - intros E. pose proof (compare_versions_opp a b). pose proof (compare_versions_opp a a) as R. unfold CompareVersions in *. rewrite E in *. lia.
Qed.

(** Comparisons with a bound are monotone in the version. *)
Lemma compare_bound_mono a b bound : CompareVersions a b <= 0 -> (CompareVersions b bound <= 0 -> CompareVersions a bound <= 0) /\
  (CompareVersions b bound < 0 -> CompareVersions a bound < 0).
Proof.
  intros Hab. split; [by apply compare_versions_trans|]. intros Hb. pose proof (compare_versions_trans a b bound Hab).
  pose proof (compare_versions_trans bound a b). pose proof (compare_versions_opp a bound). pose proof (compare_versions_opp b bound). lia.
Qed.

(** C33: Comparing versions is a total preorder whose classes are the versions
    with the same parts up to trailing zeros, and the versions that a range of
    an advisory affects are an interval of that order: what lies between two
    affected versions is affected. *)
Theorem affected_versions_interval :
  (forall a b, CompareVersions b a = - CompareVersions a b) /\
  (forall a b c, CompareVersions a b <= 0 -> CompareVersions b c <= 0 -> CompareVersions a c <= 0) /\
  (forall a b, CompareVersions a b = 0 <-> version_key a = version_key b) /\
  (forall low middle high affectedVersion startIncluding startExcluding endIncluding endExcluding,
     let affected v := VersionAffected v affectedVersion startIncluding startExcluding endIncluding endExcluding in
     affected low = true -> affected high = true -> cleanVersion middle <> "" ->
     CompareVersions (cleanVersion low) (cleanVersion middle) <= 0 -> CompareVersions (cleanVersion middle) (cleanVersion high) <= 0 ->
     affected middle = true).
Proof.
  split_and!; [apply compare_versions_opp|apply compare_versions_trans|apply compare_versions_zero|].
  intros low middle high exact si se ei ee affected Hlow Hhigh Hne Hlm Hmh. subst affected. unfold VersionAffected in *. cbv zeta in *.
  set (l := cleanVersion low) in *. set (m := cleanVersion middle) in *. set (h := cleanVersion high) in *.
  assert (Hup : forall b, (CompareVersions h b <= 0 -> CompareVersions m b <= 0) /\ (CompareVersions h b < 0 -> CompareVersions m b < 0))
    by (intros b; by apply compare_bound_mono).
  assert (Hdown : forall b, (CompareVersions m b <= 0 -> CompareVersions l b <= 0) /\ (CompareVersions m b < 0 -> CompareVersions l b < 0))
    by (intros b; by apply compare_bound_mono).
  reflect_bools. rewrite (bool_decide_eq_false_2 _ Hne). repeat (apply andb_true_iff; split); [done|..]; apply negb_true_iff;
    match goal with |- (?g && _)%bool = false => destruct g; [simpl in *|done] end.
  - destruct (Hup exact), (Hdown exact). apply negb_false_iff, Z.eqb_eq. reflect_bools. lia.
  - destruct (Hdown si). apply Z.ltb_ge. reflect_bools. lia.
  - destruct (Hdown se). apply Z.leb_gt. reflect_bools. lia.
  - destruct (Hup ei). apply Z.ltb_ge. reflect_bools. lia.
  - destruct (Hup ee). apply Z.leb_gt. reflect_bools. lia.
Qed.
End versions.

(** * Refreshing the matches of an endpoint *)

(** A loop over a list of lists, as one loop over the pairs. *)
Lemma for_each_flat {S A B} (body : A -> S -> B -> result S) (inner : A -> list B) st l :
  for_each (fun st x => for_each (body x) st (inner x)) st l = for_each (fun st p => body p.1 st p.2) st (flat_map (fun x => pair x <$> inner x) l).
Proof.
  revert st. induction l as [|x l IH]; intros st; [done|]. cbn [for_each flat_map]. rewrite for_each_app.
  assert (E : for_each (body x) st (inner x) = for_each (fun st p => body p.1 st p.2) st (pair x <$> inner x)).
  { clear IH. revert st. induction (inner x) as [|y ys IHy]; intros st; simpl; [done|]. destruct (body x st y); [apply IHy|done]. }
  rewrite E. destruct (for_each _ _ (pair x <$> inner x)); [apply IH|done].
Qed.

Lemma elem_of_flat_map {A B} (f : A -> list B) l y : y ∈ flat_map f l <-> exists x, x ∈ l /\ y ∈ f x.
Proof. rewrite list_elem_of_In, in_flat_map. setoid_rewrite list_elem_of_In. done. Qed.

(** An invariant of a loop whose body does not fail. *)
Lemma for_each_inv {S A} (I : list A -> S -> Prop) (body : S -> A -> result S) st l :
  I [] st -> (forall before x st, x ∈ l -> I before st -> exists st', body st x = Ok st' /\ I (before ++ [x])%list st') ->
  exists st', for_each body st l = Ok st' /\ I l st'.
Proof.
  intros H0 Hstep. enough (G : forall before after st, (before ++ after)%list = l -> I before st -> exists st', for_each body st after = Ok st' /\ I l st')
    by (by apply (G [] l)).
  intros before after. revert before. induction after as [|x after IH]; intros before st' E H.
  - rewrite app_nil_r in E. subst. eauto.
  - destruct (Hstep before x st') as (st1 & E1 & H1); [rewrite <- E; apply elem_of_app; right; by left|done|].
    cbn [for_each]. rewrite E1. apply (IH (before ++ [x])%list); [|done]. by rewrite <- app_assoc.
Qed.

Section matches.
Context {LC : LowerCase}.

Definition row_identity (m : EndpointMatchRow) : string := match_identity (em_cve_id m) (em_product m) (em_version m) (em_source m).

(** The installed software with the products of the database under its name. *)
Definition named_candidates (item : InstalledSoftware) (s : VulnDb) : list (CveRow * ProductRow) :=
  match NormalizeProduct (Software_Name item) with Some (vendor, product) => candidates vendor product s | None => [] end.
Definition candidate_pairs (id : string) (s : VulnDb) : list (InstalledSoftware * (CveRow * ProductRow)) :=
  flat_map (fun item => pair item <$> named_candidates item s) (installed_software id s).
(** A vulnerability affects a piece of software of an endpoint. *)
Definition endpoint_affected (s : VulnDb) (id cve name version source : string) : Prop :=
  exists item c p, (item, (c, p)) ∈ candidate_pairs id s /\ affects (Software_Version item) (cp_product p) = true /\
    cve_id c = cve /\ Software_Name item = name /\ Software_Version item = version /\ Software_Source item = source.

Lemma match_key_identity m m' : match_key m = match_key m' -> row_identity m = row_identity m'.
Proof. unfold match_key, row_identity. intros [= _ E1 E2 E3 E4]. by rewrite E1, E2, E3, E4. Qed.

(** What the loop has done after some of the pairs. *)
Definition refreshed (id : string) (base : list EndpointMatchRow) (pairs : list (InstalledSoftware * (CveRow * ProductRow)))
  (acc : gset string * list EndpointMatchRow) : Prop :=
  exists new, acc.2 = (base ++ new)%list /\ (forall x, x ∈ acc.1 <-> exists m, m ∈ new /\ row_identity m = x) /\
    (forall m, m ∈ new -> em_endpoint_id m = id /\ exists item c p, (item, (c, p)) ∈ pairs /\ affects (Software_Version item) (cp_product p) = true /\
       match_key m = (id, cve_id c, Software_Name item, Software_Version item, Software_Source item)) /\
    (forall item c p, (item, (c, p)) ∈ pairs -> affects (Software_Version item) (cp_product p) = true ->
       exists m, m ∈ new /\ row_identity m = match_identity (cve_id c) (Software_Name item) (Software_Version item) (Software_Source item)).

Lemma match_candidate_refreshed id at_ base before x acc :
  (forall m, m ∈ base -> em_endpoint_id m <> id) -> refreshed id base before acc ->
  exists acc', match_candidate id x.1 at_ acc x.2 = Ok acc' /\ refreshed id base (before ++ [x]) acc'.
Proof.
  intros Hbase (new & E & Hseen & Hsound & Hcomplete). destruct x as [item [c p]]. cbn [fst snd]. unfold match_candidate. cbv zeta. cbn [fst snd].
  set (identity := match_identity _ _ _ _).
  assert (Hkeep : (affects (Software_Version item) (cp_product p) = true -> identity ∈ acc.1) -> refreshed id base (before ++ [(item, (c, p))]) acc).
  { intros Hin. exists new. split_and!; [done|done| |].
    - intros m Hm. destruct (Hsound m Hm) as (? & i0 & c0 & p0 & Hp & ?). split; [done|]. exists i0, c0, p0. split; [apply elem_of_app; by left|done].
    - intros i0 c0 p0 [Hp|Hp]%elem_of_app Ha; [by apply (Hcomplete i0 c0 p0)|]. apply list_elem_of_singleton in Hp as [= -> -> ->].
      by apply Hseen, Hin. }
  case_bool_decide as Hin; [exists acc; split; [done|by apply Hkeep]|]. destruct (affects _ _) eqn:Ea; [|exists acc; split; [done|by apply Hkeep]]. cbn [orb negb].
  set (row := mkEndpointMatchRow _ _ _ _ _ _ _ _). rewrite bool_decide_eq_false_2.
  2: { rewrite list_elem_of_fmap, E. intros (m & Em & [Hm|Hm]%elem_of_app).
       - apply (Hbase m Hm). unfold match_key in Em. cbn in Em. congruence.
       - apply Hin, Hseen. exists m. split; [done|]. symmetry. by apply (match_key_identity row m). }
  eexists. split; [done|]. exists (new ++ [row])%list. cbn [fst snd]. split_and!.
  - by rewrite E, app_assoc.
  - intros y. rewrite elem_of_union, elem_of_singleton, Hseen. setoid_rewrite elem_of_app. setoid_rewrite list_elem_of_singleton.
    change identity with (row_identity row). naive_solver.
  - intros m [Hm| ->%list_elem_of_singleton]%elem_of_app.
    + destruct (Hsound m Hm) as (? & i0 & c0 & p0 & Hp & ?). split; [done|]. exists i0, c0, p0. split; [apply elem_of_app; by left|done].
    + split; [done|]. exists item, c, p. split; [apply elem_of_app; right; by left|done].
  - intros i0 c0 p0 [Hp|Hp]%elem_of_app Ha.
    + destruct (Hcomplete i0 c0 p0 Hp Ha) as (m & Hm & Em). exists m. split; [apply elem_of_app; by left|done].
    + apply list_elem_of_singleton in Hp as [= -> -> ->]. exists row. split; [apply elem_of_app; right; by left|done].
Qed.

Lemma match_item_candidates id at_ s acc item :
  match_item id at_ s acc item = for_each (match_candidate id item at_) acc (named_candidates item s).
Proof. unfold match_item, named_candidates. by destruct (NormalizeProduct _) as [[??]|]. Qed.

Definition matches_of (id : string) (s : VulnDb) : list EndpointMatchRow := List.filter (fun m => bool_decide (em_endpoint_id m = id)) (vd_matches s).
(** The matches of an endpoint are those of its software: each row names an
    affected piece of software, and each affected one has a row of its identity. *)
Definition current_for (s : VulnDb) (id : string) : Prop :=
  (forall m, m ∈ matches_of id s -> endpoint_affected s id (em_cve_id m) (em_product m) (em_version m) (em_source m)) /\
  (forall cve name version source, endpoint_affected s id cve name version source ->
     exists m, m ∈ matches_of id s /\ row_identity m = match_identity cve name version source).

Lemma elem_of_matches id s m : m ∈ matches_of id s <-> m ∈ vd_matches s /\ em_endpoint_id m = id.
Proof. unfold matches_of. by rewrite list_elem_of_In, filter_In, bool_decide_eq_true, <- list_elem_of_In. Qed.

Lemma matches_filter_app id base new :
  (forall m, m ∈ new -> em_endpoint_id m = id) -> forall id', id' <> id ->
  List.filter (fun m => bool_decide (em_endpoint_id m = id')) (without (fun m => bool_decide (em_endpoint_id m = id)) base ++ new) =
  List.filter (fun m => bool_decide (em_endpoint_id m = id')) base.
Proof.
  intros Hnew id' Hid. rewrite List.filter_app. replace (List.filter _ new) with (@nil EndpointMatchRow).
  2: { symmetry. apply select_where_none. intros m Hm. apply bool_decide_eq_false. rewrite (Hnew m Hm). congruence. }
  rewrite app_nil_r. unfold without. induction base as [|m base IH]; [done|]. simpl.
  case_bool_decide as E1; simpl; case_bool_decide as E2; simpl; rewrite ?IH; congruence.
Qed.

(** A refresh succeeds, writes nothing else, and makes the endpoint's matches current. *)
Lemma refresh_current id at_ s : exists matches,
  RefreshEndpointCVEMatches id at_ s = (Ok tt, s <| vd_matches := matches |>) /\
  let s' := s <| vd_matches := matches |> in
  current_for s' id /\ forall id', id' <> id -> matches_of id' s' = matches_of id' s.
Proof.
  unfold RefreshEndpointCVEMatches, transaction. set (base := without _ _).
  assert (Hbase : forall m, m ∈ base -> em_endpoint_id m <> id).
  { intros m Hm. unfold base, without in Hm. apply list_elem_of_In, filter_In in Hm as [_ Hm]. by apply negb_true_iff, bool_decide_eq_false in Hm. }
  assert (E : for_each (match_item id at_ s) (∅, base) (installed_software id s) =
              for_each (fun acc x => match_candidate id x.1 at_ acc x.2) (∅, base) (candidate_pairs id s)).
  { unfold candidate_pairs. rewrite <- (for_each_flat (fun item acc c => match_candidate id item at_ acc c) (fun item => named_candidates item s)).
    generalize (@empty (gset string) _, base). induction (installed_software id s) as [|item l IH]; intros acc; [done|]. cbn [for_each].
    rewrite match_item_candidates. destruct (for_each _ acc _); [apply IH|done]. }
  rewrite E. clear E.
  destruct (for_each_inv (refreshed id base) (fun acc x => match_candidate id x.1 at_ acc x.2) (∅, base) (candidate_pairs id s))
    as (acc & -> & new & Eacc & _ & Hsound & Hcomplete).
  { exists []. split_and!; [by rewrite app_nil_r|..]; intros *; [|by intros ?%not_elem_of_nil..]. split; [by intros ?%not_elem_of_empty|].
    by intros (m & ?%not_elem_of_nil & _). }
  { intros before x acc _ H. by apply match_candidate_refreshed. }
  exists acc.2. split; [done|]. cbv zeta. rewrite Eacc. split; [split|].
  - intros m [Hm Hid]%elem_of_matches. simpl in Hm. apply elem_of_app in Hm as [Hm|Hm]; [by apply Hbase in Hm|].
    destruct (Hsound m Hm) as (_ & item & c & p & Hp & Ha & [= _ -> -> -> ->]). by exists item, c, p.
  - intros cve name version source (item & c & p & Hp & Ha & <- & <- & <- & <-). destruct (Hcomplete item c p Hp Ha) as (m & Hm & Em).
    exists m. split; [|done]. apply elem_of_matches. split; [simpl; apply elem_of_app; by right|]. by apply Hsound.
  - intros id' Hid. unfold matches_of, base. simpl. apply matches_filter_app; [|done]. intros m Hm. by apply Hsound.
Qed.

(** What a current endpoint depends on. *)
Lemma current_for_ext s s' id :
  matches_of id s' = matches_of id s -> candidate_pairs id s' = candidate_pairs id s -> current_for s id -> current_for s' id.
Proof. unfold current_for, endpoint_affected. by intros -> ->. Qed.

Lemma refresh_each_current ids at_ s : exists matches,
  refresh_each ids at_ s = (Ok tt, s <| vd_matches := matches |>) /\
  let s' := s <| vd_matches := matches |> in
  (forall id, id ∈ ids -> current_for s' id) /\ (forall id, id ∉ ids -> matches_of id s' = matches_of id s).
Proof.
  revert s. induction ids as [|id ids IH]; intros s.
  { exists (vd_matches s). split; [by destruct s|]. split; [by intros ? ?%not_elem_of_nil|]. by destruct s. }
  destruct (refresh_current id at_ s) as (matches & E & Hcur & Hframe). cbv zeta in *. set (s1 := s <| vd_matches := matches |>) in *.
  destruct (IH s1) as (matches' & E' & Hcur' & Hframe'). cbv zeta in *. exists matches'. cbn [refresh_each]. unfold st_bind. rewrite E, E'.
  change (s1 <| vd_matches := matches' |>) with (s <| vd_matches := matches' |>) in *.
  split; [done|]. split.
  - intros id' Hid. destruct (decide (id' ∈ ids)) as [Hin|Hin]; [by apply Hcur'|].
    apply elem_of_cons in Hid as [->|Hid]; [|done]. eapply current_for_ext; [by apply Hframe'|done|done].
  - intros id' Hid. rewrite Hframe' by set_solver. apply Hframe. set_solver.
Qed.
(** * Runs *)

Context {TZ : TimeZones}.

(** Only an inventory of software writes the software of endpoints. *)
Lemma exec_software c s : match c with SSoftware _ _ _ _ => True | _ => ed_software (exec c s) = ed_software s end.
Proof. destruct c; try (table_frame; fail); done. Qed.

Lemma no_software id s : ed_software (vd_endpoints s) !! id = None -> candidate_pairs id s = [].
Proof. unfold candidate_pairs, installed_software. by intros ->. Qed.

Lemma no_candidates_current id s : candidate_pairs id s = [] -> (matches_of id s = [] <-> current_for s id).
Proof.
  intros E. unfold current_for, endpoint_affected. rewrite E. split.
  - intros ->. split; [by intros ? ?%not_elem_of_nil|]. by intros * (? & ? & ? & ?%not_elem_of_nil & _).
  - intros [H _]. destruct (matches_of id s) as [|m l]; [done|]. destruct (H m ltac:(by left)) as (? & ? & ? & ?%not_elem_of_nil & _). done.
Qed.

Lemma upsert_cves_frame records s : let s' := fold_left upsert_cve records s in vd_endpoints s' = vd_endpoints s /\ vd_matches s' = vd_matches s.
Proof. revert s. induction records as [|r records IH]; intros s; [done|]. cbv zeta. cbn [fold_left]. by destruct (IH (upsert_cve s r)) as [-> ->]. Qed.

Lemma feed_current records at_ s : (forall id, current_for s id) -> forall id, current_for (UpsertCVEs records at_ s).2 id.
Proof.
  intros H id. unfold UpsertCVEs, refreshAllEndpointCVEMatches. destruct (upsert_cves_frame records s) as [Ee Em]. cbv zeta in *.
  set (s1 := fold_left upsert_cve records s) in *.
  destruct (refresh_each_current (map_to_list (ed_software (vd_endpoints s1))).*1 at_ s1) as (matches & -> & Hcur & Hframe).
  cbv zeta in *. cbn [snd]. destruct (ed_software (vd_endpoints s1) !! id) eqn:E.
  - apply Hcur. apply list_elem_of_fmap. exists (id, r). split; [done|]. by apply elem_of_map_to_list.
  - apply no_candidates_current; [by apply no_software|]. rewrite Hframe.
    2: { intros ([id' r] & Eid & Hin)%list_elem_of_fmap. simpl in Eid. subst id'. apply elem_of_map_to_list in Hin. congruence. }
    unfold matches_of. rewrite Em. apply no_candidates_current; [|by apply H]. apply no_software. by rewrite <- Ee.
Qed.

Lemma software_current id i receivedAt s : (forall id, current_for s id) -> forall id', current_for (RecordSoftware id i receivedAt s).2 id'.
Proof.
  intros H id'. unfold RecordSoftware, RecordEndpointSoftwareInventory. destruct (negb _); [by apply H|].
  set (s1 := s <| vd_endpoints := _ |>). destruct (refresh_current id receivedAt s1) as (matches & -> & Hcur & Hframe). cbn [snd]. cbv zeta in *.
  destruct (decide (id' = id)) as [->|Hid]; [done|]. apply (current_for_ext s); [by rewrite Hframe| |by apply H].
  unfold candidate_pairs, installed_software. simpl. by rewrite lookup_insert_ne.
Qed.

Lemma vuln_step_current s o : (forall id, current_for s id) -> forall id, current_for (vuln_step s o) id.
Proof.
  intros H. destruct o as [records at_|c|source started|source completed records message]; [by apply feed_current| |by apply H..].
  assert (Hc : match c with SSoftware _ _ _ _ => True | _ => forall id, current_for (s <| vd_endpoints ::= exec c |>) id end).
  { pose proof (exec_software c (vd_endpoints s)) as E. destruct c; try done; intros id'; (apply (current_for_ext s); [done| |by apply H]);
      unfold candidate_pairs, installed_software; cbn [vd_endpoints set]; simpl in E |- *; by rewrite E. }
  destruct c; try exact Hc. by apply software_current.
Qed.

Lemma run_vuln_current ops s : (forall id, current_for s id) -> forall id, current_for (run_vuln s ops) id.
Proof. unfold run_vuln. revert s. induction ops as [|o ops IH]; intros s H; [done|]. apply IH. by apply vuln_step_current. Qed.

(** Texts without the byte that separates the fields of an identity. *)
Definition nul_free (s : string) : Prop := str_forall (fun a => negb (Ascii.eqb a "000")) s = true.
Definition clean_names (s : VulnDb) : Prop :=
  (forall c, c ∈ vd_cves s -> nul_free (cve_id c)) /\
  (forall id item, item ∈ installed_software id s -> nul_free (Software_Name item) /\ nul_free (Software_Version item)).

Lemma nul_split a b s t : nul_free a -> nul_free b -> a +:+ nul +:+ s = b +:+ nul +:+ t -> a = b /\ s = t.
Proof.
  revert b. unfold nul_free. induction a as [|x a IH]; intros [|y b] Ha Hb E; simpl in *.
  - by injection E.
  - injection E as <- _. done.
  - injection E as -> _. done.
  - apply andb_true_iff in Ha as [_ Ha], Hb as [_ Hb]. injection E as -> E. destruct (IH b Ha Hb E) as [-> ->]. done.
Qed.

Lemma match_identity_inj c n v s c' n' v' s' : nul_free c -> nul_free n -> nul_free v -> nul_free c' -> nul_free n' -> nul_free v' ->
  match_identity c n v s = match_identity c' n' v' s' -> c = c' /\ n = n' /\ v = v' /\ s = s'.
Proof.
  unfold match_identity. cbn [Join]. intros ?????? E. apply nul_split in E as [-> E]; [|done..]. apply nul_split in E as [-> E]; [|done..].
  apply nul_split in E as [-> ->]; done.
Qed.

Lemma affected_clean s id cve name version source : clean_names s -> endpoint_affected s id cve name version source ->
  nul_free cve /\ nul_free name /\ nul_free version.
Proof.
  intros [Hc Hi] (item & c & p & Hp & _ & <- & <- & <- & _). unfold candidate_pairs in Hp.
  apply elem_of_flat_map in Hp as (item' & Hitem & Hp).
  apply list_elem_of_fmap in Hp as (q & [= -> <-] & Hq). destruct (Hi id item' Hitem). split; [|done]. apply Hc.
  unfold named_candidates in Hq. destruct (NormalizeProduct _) as [[vendor product]|]; [|by apply not_elem_of_nil in Hq].
  unfold candidates in Hq. apply elem_of_flat_map in Hq as (p' & _ & Hq).
  apply list_elem_of_fmap in Hq as (c' & [= -> _] & Hc'). by apply elem_of_select_where in Hc' as [Hc' _].
Qed.

(** C8: Over any run of feed pages and endpoint requests, the stored matches of
    endpoints are exactly the vulnerabilities whose ranges hold the versions of
    the software they last reported: each stored match names an affected piece
    of software, and each affected one is stored, whichever came first. *)
Theorem endpoint_matches_current s0 ops :
  vd_matches s0 = [] -> ed_software (vd_endpoints s0) = ∅ -> let s := run_vuln s0 ops in clean_names s ->
  forall id cve name version source,
    (exists m, m ∈ vd_matches s /\ match_key m = (id, cve, name, version, source)) <-> endpoint_affected s id cve name version source.
Proof.
  intros Em Es s Hclean id cve name version source.
  assert (H : current_for s id).
  { apply run_vuln_current. intros id'. apply no_candidates_current; [|unfold matches_of; by rewrite Em]. apply no_software. by rewrite Es. }
  destruct H as [Hsound Hcomplete]. split.
  - intros (m & Hm & [= <- <- <- <- <-]). apply Hsound. by apply elem_of_matches.
  - intros Ha. destruct (Hcomplete _ _ _ _ Ha) as (m & Hm & Eid). pose proof (Hsound m Hm) as Ham.
    destruct (affected_clean _ _ _ _ _ _ Hclean Ha) as (?&?&?), (affected_clean _ _ _ _ _ _ Hclean Ham) as (?&?&?).
    apply match_identity_inj in Eid as (<- & <- & <- & <-); [|done..]. apply elem_of_matches in Hm as [Hm <-]. by exists m.
Qed.
End matches.

(** * The synchronisation with the feed *)

Section feed.
Context {LC : LowerCase}.

Lemma upsert_cves_matches records s matches :
  fold_left upsert_cve records (s <| vd_matches := matches |>) = (fold_left upsert_cve records s) <| vd_matches := matches |>.
Proof. revert s. induction records as [|r records IH]; intros s; [done|]. cbn [fold_left].
  change (upsert_cve (s <| vd_matches := matches |>) r) with ((upsert_cve s r) <| vd_matches := matches |>). apply IH. Qed.

Lemma upsert_cves_ok records at_ s :
  exists matches, UpsertCVEs records at_ s = (Ok tt, (fold_left upsert_cve records s) <| vd_matches := matches |>).
Proof.
  unfold UpsertCVEs, refreshAllEndpointCVEMatches. destruct (refresh_each_current (map_to_list (ed_software (vd_endpoints (fold_left upsert_cve records s)))).*1 at_
    (fold_left upsert_cve records s)) as (matches & -> & _). eauto.
Qed.

(** What [INSERT ... ON CONFLICT DO UPDATE] leaves under its key. *)
Lemma query_row_upsert {Row K} `{EqDecision K} (key : Row -> K) merge row table k :
  key row = k -> (forall old new, key (merge old new) = key old) ->
  query_row (fun r => bool_decide (key r = k)) (upsert key merge row table) =
  Some (match query_row (fun r => bool_decide (key r = k)) table with Some old => merge old row | None => row end).
Proof.
  intros <- Hm. unfold upsert. destruct (existsb _ table) eqn:E.
  - unfold query_row, update_where. induction table as [|r table IH]; [done|]. simpl in *. case_bool_decide as Er.
    + by rewrite bool_decide_eq_true_2 by (by rewrite Hm).
    + simpl in E. rewrite bool_decide_eq_false_2 by done. by apply IH.
  - rewrite query_row_snoc. assert (Hn : query_row (fun r => bool_decide (key r = key row)) table = None).
    { apply query_row_None. intros r Hr. destruct (bool_decide _) eqn:Er; [|done]. exfalso. rewrite <- not_true_iff_false in E. apply E.
      apply existsb_exists. exists r. by rewrite <- list_elem_of_In. }
    rewrite Hn. simpl. by rewrite bool_decide_eq_true_2.
Qed.

(** The pages that follow each other from an index: every page but the last has
    records and leaves some of the total to read. *)
Fixpoint pages_from (fetch : nat -> Z -> result (list CVERecord * Z)) (page : nat) (startIndex : Z) (pages : list (list CVERecord)) : Prop :=
  match pages with
  | [] => True
  | records :: rest =>
      let next := startIndex + Z.of_nat (length records) in
      exists total, fetch page startIndex = Ok (records, total) /\ (rest <> [] -> records <> [] /\ next < total) /\ pages_from fetch (S page) next rest
  end.
(** How the pages end: everything read, a page that cannot be fetched, or a context that is done. *)
Definition pages_end (fetch : nat -> Z -> result (list CVERecord * Z)) (canceled : nat -> option error) (page : nat) (startIndex : Z)
  (pages : list (list CVERecord)) (err : option error) : Prop :=
  let index := startIndex + Z.of_nat (length (concat pages)) in
  let next := (page + length pages)%nat in
  match err with
  | None => exists before last total, pages = (before ++ [last])%list /\
      fetch (page + length before)%nat (startIndex + Z.of_nat (length (concat before))) = Ok (last, total) /\ (last = [] \/ total <= index)
  | Some e => fetch next index = Err e \/ (pages <> [] /\ canceled (pred next) = Some e)
  end.

Lemma pages_end_cons fetch canceled page startIndex records pages err :
  pages_end fetch canceled (S page) (startIndex + Z.of_nat (length records)) pages err ->
  pages_end fetch canceled page startIndex (records :: pages) err.
Proof.
  unfold pages_end. cbn [concat length]. rewrite length_app, Nat2Z.inj_add, Z.add_assoc. rewrite Nat.add_succ_r. cbn [Nat.add]. destruct err as [e|].
  - intros [Hf|[Hp Hc]]; [by left|right; done].
  - intros (before & last & total & -> & Hf & Hl). exists (records :: before), last, total. split; [done|]. cbn [length concat].
    rewrite length_app, Nat2Z.inj_add, Z.add_assoc, Nat.add_succ_r. done.
Qed.

Lemma sync_pages_spec fetch clock canceled N :
  (forall page i records total, fetch page i = Ok (records, total) -> total <= N) ->
  forall fuel page startIndex count s, (Z.to_nat (N - startIndex) < fuel)%nat ->
  exists pages err matches,
    sync_pages fetch clock canceled fuel page startIndex count s =
      Some (count + Z.of_nat (length (concat pages)), err, (fold_left upsert_cve (concat pages) s) <| vd_matches := matches |>) /\
    pages_from fetch page startIndex pages /\ pages_end fetch canceled page startIndex pages err.
Proof.
  intros HN fuel. induction fuel as [|fuel IH]; intros page startIndex count s Hfuel; [lia|]. cbn [sync_pages].
  destruct (fetch page startIndex) as [[records total]|e] eqn:Ef.
  2: { exists [], (Some e), (vd_matches s). cbn [concat length pages_from]. rewrite Z.add_0_r. split; [by destruct s|]. split; [done|].
       left. cbn. by rewrite Nat.add_0_r, Z.add_0_r. }
  destruct (upsert_cves_ok records (clock page) s) as (matches & ->). cbv zeta.
  set (n := Z.of_nat (length records)). set (s1 := (fold_left upsert_cve records s) <| vd_matches := matches |>).
  destruct ((n =? 0) || (total <=? startIndex + n)) eqn:Estop.
  { exists [records], None, matches. cbn [concat]. rewrite app_nil_r. split; [done|]. split; [by exists total|].
    exists [], records, total. split; [done|]. cbn. rewrite Nat.add_0_r, Z.add_0_r, app_nil_r. split; [done|]. apply orb_true_iff in Estop as [E|E].
    - left. apply Z.eqb_eq in E. unfold n in E. destruct records; [done|cbn [length] in E; lia].
    - right. by apply Z.leb_le in E. }
  reflect_bools. destruct (canceled page) as [e|] eqn:Ec.
  { exists [records], (Some e), matches. cbn [concat]. rewrite app_nil_r. split; [done|]. split; [by exists total|]. right. split; [done|].
    cbn. by rewrite Nat.add_1_r. }
  pose proof (HN _ _ _ _ Ef). destruct (IH (S page) (startIndex + n) (count + n) s1) as (pages & err & matches' & E & Hfrom & Hend); [lia|].
  exists (records :: pages), err, matches'. cbn [concat]. rewrite length_app, fold_left_app, Nat2Z.inj_add, Z.add_assoc. split; [|split].
  - rewrite E. unfold s1. rewrite upsert_cves_matches. done.
  - exists total. split; [done|]. split; [|done]. intros _. split; [|lia]. intros ->. unfold n in *. done.
  - by apply pages_end_cons.
Qed.
Lemma sync_pages_more fetch clock canceled fuel k page startIndex count s :
  sync_pages fetch clock canceled fuel page startIndex count s <> None ->
  sync_pages fetch clock canceled (fuel + k) page startIndex count s = sync_pages fetch clock canceled fuel page startIndex count s.
Proof.
  revert page startIndex count s. induction fuel as [|fuel IH]; intros page startIndex count s H; [done|]. cbn [Nat.add sync_pages] in *.
  destruct (fetch page startIndex) as [[records total]|]; [|done]. destruct (UpsertCVEs _ _ _) as [[] s1]; [|done]. cbv zeta in *.
  destruct (_ || _); [done|]. destruct (canceled page); [done|]. by apply IH.
Qed.

Lemma upsert_cves_feed records s feed : let s' := fold_left upsert_cve records (s <| vd_feed := feed |>) in
  vd_cves s' = vd_cves (fold_left upsert_cve records s) /\ vd_products s' = vd_products (fold_left upsert_cve records s) /\ vd_feed s' = feed.
Proof.
  cbv zeta. revert s. induction records as [|r records IH]; intros s; [done|]. cbn [fold_left].
  change (upsert_cve (s <| vd_feed := feed |>) r) with ((upsert_cve s r) <| vd_feed := feed |>). apply IH.
Qed.

Definition feed_row (s : VulnDb) : option FeedRow := query_row (fun r => bool_decide (fd_source r = nvdSourceName)) (vd_feed s).

(** C39: Synchronising with the feed ends whatever the feed answers, when the
    totals it announces are bounded. It stores every record of the pages it
    read, each page starting where the one before it ended; without an error
    it stopped at an empty page or at the announced total. The status then
    says how many records were read and whether an error stopped it, and the time
    of the last success is only moved by a success. *)
Theorem sync_ends_and_reports fetch clock canceled started completed s N :
  (forall page i records total, fetch page i = Ok (records, total) -> total <= N) ->
  (forall page i e, fetch page i = Err e -> e <> "") -> (forall page e, canceled page = Some e -> e <> "") ->
  exists pages err s',
    (forall fuel, (Z.to_nat N < fuel)%nat ->
       Sync fetch clock canceled fuel started completed s = Some (Z.of_nat (length (concat pages)), err, s')) /\
    pages_from fetch 0 0 pages /\ pages_end fetch canceled 0 0 pages err /\
    vd_cves s' = vd_cves (fold_left upsert_cve (concat pages) s) /\ vd_products s' = vd_products (fold_left upsert_cve (concat pages) s) /\
    exists row, feed_row s' = Some row /\ fd_records row = Z.of_nat (length (concat pages)) /\ fd_error row = default "" err /\
      fd_last_started row = Some (formatTime started) /\
      match err with
      | None => fd_status row = "ready" /\ fd_last_success row = Some (formatTime completed)
      | Some _ => fd_status row = "failed" /\ fd_last_success row = feed_row s ≫= fd_last_success
      end.
Proof.
  intros HN Hfetch Hcanceled. set (s0 := (RecordFeedStart nvdSourceName started s).2).
  destruct (sync_pages_spec fetch clock canceled N HN (S (Z.to_nat N)) 0 0 0 s0) as (pages & err & matches & E & Hfrom & Hend); [lia|].
  assert (Hfuel : forall fuel, (Z.to_nat N < fuel)%nat -> sync_pages fetch clock canceled fuel 0 0 0 s0 = sync_pages fetch clock canceled (S (Z.to_nat N)) 0 0 0 s0).
  { intros fuel Hfuel. replace fuel with (S (Z.to_nat N) + (fuel - S (Z.to_nat N)))%nat by lia. apply sync_pages_more. by rewrite E. }
  assert (Herr : forall e, err = Some e -> e <> "").
  { intros e ->. destruct Hend as [?|[_ ?]]; eauto. }
  set (s' := (RecordFeedResult nvdSourceName completed (Z.of_nat (length (concat pages))) (default "" err)
                ((fold_left upsert_cve (concat pages) s0) <| vd_matches := matches |>)).2).
  exists pages, err, s'. split; [intros fuel Hf; unfold Sync; cbv zeta; fold s0; by rewrite (Hfuel fuel Hf), E|]. split; [done|]. split; [done|].
  destruct (upsert_cves_feed (concat pages) s (vd_feed s0)) as (Ec & Ep & Ef). change (s <| vd_feed := vd_feed s0 |>) with s0 in *.
  split; [done|]. split; [done|].
  unfold feed_row, s', RecordFeedResult. cbn [snd]. set (frow := mkFeedRow nvdSourceName _ _ _ _ _).
  eexists. split; [apply (query_row_upsert fd_source _ frow); by intros|].
  change (vd_feed ((fold_left upsert_cve (concat pages) s0) <| vd_matches := matches |>)) with (vd_feed (fold_left upsert_cve (concat pages) s0)).
  rewrite Ef. set (srow := mkFeedRow nvdSourceName "running" (Some (formatTime started)) None 0 "").
  eassert (vd_feed s0 = upsert fd_source _ srow (vd_feed s)) as -> by reflexivity.
  rewrite (query_row_upsert fd_source _ srow _ nvdSourceName) by (by intros).
  destruct (query_row _ (vd_feed s)) as [old|], err as [e|]; simpl; split_and!; try done; rewrite bool_decide_eq_false_2; auto.
Qed.
End feed.
