(* ===== verification/CheckSafety.v ===== *)
(** Declarative checks: what a signature covers, what an evaluation reports, and
    what the catalog keeps over any sequence of its operations. *)
From Stdlib Require Import ZArith Lia String Ascii.
From stdpp Require Import base tactics list strings gmap sets sorting.
From coqutil Require Import Datatypes.RecordSettersUsingExistingGetters.
From S2P Require Import Prelude GoStrings GoTime GoRegex Netip NetworkPolicy EndpointModel WorkerStore Sql EndpointStore EndpointInvariant Intelligence IntelligenceSafety CheckDefinition CheckCatalog.
Open Scope string_scope.
Open Scope Z_scope.

(** * Signatures *)

Section signatures.
Context {CL : CheckLibrary} {CLaws : CheckLibraryLaws}.

(** Validation looks at the specification's size and canonical form. *)
Lemma validate_canonical check canonical :
  Validate check = Ok tt -> canonicalSpec (Check_Spec check) = Ok canonical ->
  is_ok (Validate (with_spec check canonical)) = (strlen canonical <=? maxSpecBytes).
Proof using CLaws.
  unfold Validate, canonicalSpec. intros H Hc. repeat (apply reject_ok in H as [? H]). apply bind_ok in H as (c & Hs & H).
  destruct (canonical_json (Check_Spec check)) as [spec|] eqn:Ej; [|done]. injection Hc as ->. injection Hs as <-.
  apply reject_ok in H as [Hb _]. apply canonical_idempotent in Ej.
  cbn [with_spec Check_SchemaVersion Check_ID Check_Version Check_Kind Check_Severity Check_ExecutionClass Check_Title Check_Spec].
  rewrite Ej. unfold mbind, result_bind. rewrite Hb.
  repeat match goal with E : ?b = false |- context [?b] => rewrite E end.
  assert ((strlen canonical =? 0) = false) as -> by (destruct canonical; [done|apply Z.eqb_neq; unfold strlen; cbn [String.length]; lia]). cbn [orb].
  rewrite Z.leb_antisym. by destruct (maxSpecBytes <? strlen canonical).
Qed.

(** C26: A check that was signed verifies under the signer's public key, with
    its identity, severity and canonical specification, exactly when the
    canonical specification stays within the size limit. *)
Theorem signed_check_verifies check keyID privateKey publicKey envelope :
  (forall payload, check_verify publicKey payload (check_sign privateKey payload) = true) -> strlen publicKey = PublicKeySize ->
  Sign check keyID privateKey = Ok envelope ->
  exists canonical, canonicalSpec (Check_Spec check) = Ok canonical /\ Signed_Check envelope = with_spec check canonical /\
    Signed_KeyID envelope = keyID /\ (Verify envelope publicKey = Ok tt <-> strlen canonical <= maxSpecBytes).
Proof using CLaws.
  intros Hpair Hlen Hs. unfold Sign in Hs. apply try_ok in Hs as [Hv Hs]. apply reject_ok in Hs as [Hk Hs]. apply reject_ok in Hs as [_ Hs].
  apply bind_ok in Hs as ([payload normalized] & Hp & [= <-]). unfold signaturePayload in Hp. apply try_ok in Hp as [_ Hp].
  apply bind_ok in Hp as (canonical & Hc & [= <- <-]). exists canonical. do 3 (split; [done|]).
  assert (Hval : Validate check = Ok tt) by (destruct (Validate check) as [[]|]; done).
  pose proof (validate_canonical check canonical Hval Hc) as Hok. unfold Verify. rewrite Hlen. cbn [Signed_Check].
  assert (Hagain : canonicalSpec canonical = Ok canonical).
  { unfold canonicalSpec in *. destruct (canonical_json (Check_Spec check)) as [spec|] eqn:Ej; [|done]. injection Hc as ->.
    by rewrite (canonical_idempotent _ _ Ej). }
  unfold signaturePayload. cbn [Check_Spec with_spec]. rewrite Hagain. rewrite <- Z.leb_le, <- Hok.
  destruct (Validate (with_spec check canonical)) as [[]|e]; [|done]. simpl. split; [done|]. intros _.
  unfold validateEnvelopeMetadata. cbn [Signed_Algorithm Signed_KeyID Signed_Signature]. rewrite Hk, bool_decide_eq_true_2 by done. simpl.
  rewrite raw_base64_inverse, check_sign_length. simpl. by rewrite Hpair.
Qed.
End signatures.

(** * Evaluation *)

#[export] Instance str_leb_antisymm : AntiSymm (=) (fun x y => str_ltb y x = false).
Proof. intros x y H1 H2. apply str_ltb_nle in H1, H2. by apply str_leb_antisym. Qed.

(** [sort.Strings] of the same strings in another order. *)
Lemma sort_slice_perm_eq l l' : l ≡ₚ l' -> sort_slice str_ltb l = sort_slice str_ltb l'.
Proof.
  intros Hp. apply (StronglySorted_unique (fun x y => str_ltb y x = false)); [apply sort_slice_ordered; apply _..|].
  by rewrite !sort_slice_perm.
Qed.

Lemma flat_map_nil {A B} (f : A -> list B) l : flat_map f l = [] <-> forall x, x ∈ l -> f x = [].
Proof.
  induction l as [|x l IH]; simpl; [split; [by intros _ ? ?%not_elem_of_nil|done]|]. rewrite app_nil, IH.
  split; [intros [Hx Hl] y [->|Hy]%elem_of_cons; auto|intros H; split; [apply H; by left|intros y Hy; apply H; by right]].
Qed.

Section evaluation.
Context {CL : CheckLibrary} {LC : LowerCase} {CF : CaseFolding}.

Definition header_rule_ok (rule : string * list string) : Prop :=
  validHeaderName (CanonicalHeaderKey (TrimSpace rule.1)) = true /\ rule.2 <> [] /\
  existsb (fun value => blank value || (maxHeaderValueSize <? strlen value)) rule.2 = false.
Definition rule_key (rule : string * list string) : string := ToLower (CanonicalHeaderKey (TrimSpace rule.1)).
Definition rule_count (rules : list (string * list string)) : Z := Z.of_nat (length (concat (snd <$> rules))).

Lemma check_header_value_ok acc rule acc' :
  check_header_value acc rule = Ok acc' <->
  header_rule_ok rule /\ (rule_key rule ∉ acc.1) /\ (acc' = ({[ rule_key rule ]} ∪ acc.1, acc.2 + Z.of_nat (length rule.2))).
Proof.
  unfold check_header_value, header_rule_ok. fold (rule_key rule). rewrite !reject_ok, !orb_false_iff, negb_false_iff, Z.eqb_neq, bool_decide_eq_false.
  destruct rule as [name values]. cbn [fst snd]. destruct values; cbn [length]; split; try (intros; exfalso; intuition; done || lia).
  - intros (((Hn & Hl) & Hk) & He & [= <-]). auto.
  - intros ((Hn & _ & He) & Hk & ->). split_and!; done.
Qed.

Lemma header_values_ok rules : forall seen n,
  (forall acc, for_each check_header_value (seen, n) rules = Ok acc -> acc.2 = n + rule_count rules) /\
  (is_ok (for_each check_header_value (seen, n) rules) = true <->
   Forall header_rule_ok rules /\ NoDup (rule_key <$> rules) /\ Forall (fun r => rule_key r ∉ seen) rules).
Proof.
  unfold rule_count. induction rules as [|rule rules IH]; intros seen n.
  { split; [intros acc [= <-]; simpl; lia|]. split; [by repeat constructor|done]. }
  cbn [for_each]. destruct (check_header_value (seen, n) rule) as [acc|e] eqn:E.
  - apply check_header_value_ok in E as (Hr & Hk & ->). cbn [fst snd] in *. unfold mbind, result_bind.
    destruct (IH ({[ rule_key rule ]} ∪ seen) (n + Z.of_nat (length rule.2))) as [IHc IHok]. split.
    + intros acc Hacc. rewrite (IHc acc Hacc). rewrite fmap_cons. cbn [concat]. rewrite length_app. lia.
    + rewrite IHok, fmap_cons, !Forall_cons, NoDup_cons. rewrite !Forall_forall, list_elem_of_fmap. setoid_rewrite not_elem_of_union.
      setoid_rewrite not_elem_of_singleton. naive_solver.
  - split; [done|]. split; [done|]. intros ([Hr _]%Forall_cons & _ & [Hk _]%Forall_cons). exfalso.
    assert (Hok : check_header_value (seen, n) rule = Ok ({[ rule_key rule ]} ∪ seen, n + Z.of_nat (length rule.2))) by by apply check_header_value_ok.
    congruence.
Qed.

Lemma rule_count_perm rules rules' : rules ≡ₚ rules' -> rule_count rules = rule_count rules'.
Proof. unfold rule_count. induction 1; rewrite ?fmap_cons in *; cbn [concat] in *; rewrite ?length_app in *; lia. Qed.

(** The order in which a map is visited does not matter. *)
Lemma validate_http_perm order order' spec : order ≡ₚ order' -> is_ok (validateHTTPSpec order spec) = is_ok (validateHTTPSpec order' spec).
Proof.
  intros Hp. unfold validateHTTPSpec. cbv zeta. repeat (case_if; [done|]). destruct (for_each check_header_rule _ _); [|done].
  destruct (header_values_ok order ∅ (http_rules spec)) as [Hc Hok], (header_values_ok order' ∅ (http_rules spec)) as [Hc' Hok'].
  assert (Heq : is_ok (for_each check_header_value (∅, http_rules spec) order) = is_ok (for_each check_header_value (∅, http_rules spec) order')).
  { apply eq_true_iff_eq. rewrite Hok, Hok'. by rewrite Hp. }
  rewrite (rule_count_perm _ _ Hp) in Hc.
  destruct (for_each check_header_value _ order) as [acc|], (for_each check_header_value _ order') as [acc'|]; try done.
  unfold mbind, result_bind. by rewrite (Hc acc), (Hc' acc').
Qed.

Lemma http_failures_perm order order' spec input : order ≡ₚ order' -> httpFailures order spec input = httpFailures order' spec input.
Proof.
  intros Hp. unfold httpFailures. apply sort_slice_perm_eq. do 3 apply Permutation_app_head. apply Permutation_app_tail.
  induction Hp; simpl; [done|by apply Permutation_app_head|rewrite !app_assoc; apply Permutation_app_tail, Permutation_app_comm|by etrans].
Qed.

(** What an observed response must satisfy to pass. *)
Definition http_rules_hold (spec : HTTPSpec) (input : HTTPInput) : Prop :=
  (HTTP_RequireHTTPS spec = true -> Input_Secure input = true) /\
  (forall name, name ∈ HTTP_RequiredHeaders spec -> blank (Header_Get (Input_Headers input) name) = false) /\
  (forall name, name ∈ HTTP_ForbiddenHeaders spec -> blank (Header_Get (Input_Headers input) name) = true) /\
  (forall name values value, HTTP_HeaderContains spec !! name = Some values -> value ∈ values ->
     contains_str (ToLowerText (Header_Get (Input_Headers input) name)) (ToLowerText value) = true) /\
  (HTTP_AllowedStatusCodes spec <> [] -> Input_StatusCode input ∈ HTTP_AllowedStatusCodes spec).

Lemma one_nil {A} (c : bool) (x : A) : (if c then [x] else []) = [] <-> c = false.
Proof. by destruct c. Qed.
Lemma nil_one {A} (c : bool) (x : A) : (if c then [] else [x]) = [] <-> c = true.
Proof. by destruct c. Qed.

Lemma http_failures_nil order spec input :
  order ≡ₚ map_to_list (HTTP_HeaderContains spec) -> httpFailures order spec input = [] <-> http_rules_hold spec input.
Proof.
  intros Hp. unfold httpFailures, http_rules_hold. rewrite sort_slice_nil, !app_nil, !flat_map_nil, one_nil, one_nil.
  unfold missing_header, present_header, lacking_values. setoid_rewrite one_nil. setoid_rewrite flat_map_nil. setoid_rewrite nil_one.
  rewrite !andb_false_iff, !negb_false_iff, Z.ltb_ge. setoid_rewrite negb_false_iff.
  assert (Hs : Z.of_nat (length (HTTP_AllowedStatusCodes spec)) <= 0 \/ existsb (Z.eqb (Input_StatusCode input)) (HTTP_AllowedStatusCodes spec) = true <->
               (HTTP_AllowedStatusCodes spec <> [] -> Input_StatusCode input ∈ HTTP_AllowedStatusCodes spec)).
  { rewrite existsb_exists. setoid_rewrite Z.eqb_eq. setoid_rewrite <- list_elem_of_In.
    destruct (HTTP_AllowedStatusCodes spec) as [|c l]; cbn [length]; [split; [done|left; lia]|]. split.
    - intros [?|(x & Hx & ->)] _; [lia|done].
    - intros H. right. exists (Input_StatusCode input). split; [by apply H|done]. }
  rewrite Hs. assert (Ho : forall rule, rule ∈ order <-> HTTP_HeaderContains spec !! rule.1 = Some rule.2).
  { intros [name values]. rewrite Hp. apply elem_of_map_to_list. }
  setoid_rewrite Ho.
  assert (Hh : HTTP_RequireHTTPS spec = false \/ Input_Secure input = true <-> (HTTP_RequireHTTPS spec = true -> Input_Secure input = true))
    by (destruct (HTTP_RequireHTTPS spec), (Input_Secure input); intuition congruence).
  rewrite Hh. split; intros (H1 & H2 & H3 & H4 & H5); split_and!; try assumption.
  - intros name values value Hl Hv. by apply (H4 (name, values)).
  - intros [name values] Hl value Hv. by apply (H4 name values).
Qed.

Definition ssh_rules_hold (spec : SSHSpec) (input : SSHInput) : Prop :=
  (SSH_AllowedProtocolVersions spec <> [] -> containsFold (SSH_AllowedProtocolVersions spec) (SSH_ProtocolVersion input) = true) /\
  (SSH_AllowedSoftware spec <> [] -> containsFold (SSH_AllowedSoftware spec) (SSH_Software input) = true) /\
  containsFold (SSH_DisallowedSoftware spec) (SSH_Software input) = false /\
  (forall term, term ∈ SSH_ForbiddenCommentTerms spec -> contains_str (ToLowerText (SSH_Comment input)) (ToLowerText term) = false) /\
  (SSH_ForbidVersionDisclosure spec = true -> blank (SSH_SoftwareVersion input) = true).

Lemma listed_nil {A} (l : list A) (b : bool) : (0 <? Z.of_nat (length l)) && negb b = false <-> (l <> [] -> b = true).
Proof. destruct l, b; cbn; split; try done. intros H. by specialize (H ltac:(done)). Qed.
Lemma flag_nil (a b : bool) : a && negb b = false <-> (a = true -> b = true).
Proof. destruct a, b; simpl; intuition congruence. Qed.

Lemma ssh_failures_nil spec input : sshFailures spec input = [] <-> ssh_rules_hold spec input.
Proof.
  unfold sshFailures, ssh_rules_hold. rewrite !app_nil, !one_nil, flat_map_nil, !listed_nil, flag_nil. by setoid_rewrite one_nil.
Qed.

(** [now] is when the service was observed. *)
Definition certificate_rules_hold (now : Time) (spec : TLSSpec) (hostname : string) (leaf : LeafCertificate) : Prop :=
  (TLS_RequireCurrentCertificate spec = true -> Leaf_NotBefore leaf <= now <= Leaf_NotAfter leaf) /\
  (TLS_RequireHostnameMatch spec = true -> hostname <> "" /\ Leaf_VerifyHostname leaf hostname = true) /\
  (forall days, TLS_MinimumCertificateDaysLeft spec = Some days -> days * 24 * Hour < Sub (Leaf_NotAfter leaf) now).
Definition tls_rules_hold (now : Time) (spec : TLSSpec) (input : TLSInput) : Prop :=
  (forall minimum, tls_version (TLS_MinimumVersion spec) = Some minimum -> minimum <= TLS_Version input) /\
  (TLS_DisallowLegacyProtocols spec = true -> TLS_LegacyAccepted input = false) /\
  (CipherSuiteName (TLS_CipherSuite input) ∉ TLS_DisallowedCipherSuites spec) /\
  (TLS_RequireCurrentCertificate spec = true \/ TLS_RequireHostnameMatch spec = true \/ TLS_MinimumCertificateDaysLeft spec <> None ->
   exists leaf, TLS_Certificate input = Some leaf /\ certificate_rules_hold now spec (TLS_Hostname input) leaf).

Lemma certificate_failures_nil clock spec input :
  certificateFailures clock spec input = [] <->
  (TLS_RequireCurrentCertificate spec = true \/ TLS_RequireHostnameMatch spec = true \/ TLS_MinimumCertificateDaysLeft spec <> None ->
   exists leaf, TLS_Certificate input = Some leaf /\
     certificate_rules_hold (if IsZero (TLS_ObservedAt input) then clock else TLS_ObservedAt input) spec (TLS_Hostname input) leaf).
Proof.
  unfold certificateFailures, certificate_rules_hold. set (now := if IsZero (TLS_ObservedAt input) then clock else TLS_ObservedAt input).
  destruct (negb (TLS_RequireCurrentCertificate spec) && negb (TLS_RequireHostnameMatch spec) && bool_decide (TLS_MinimumCertificateDaysLeft spec = None)) eqn:E.
  { reflect_bools. split; [|done]. intros _ [?|[?|?]]; congruence. }
  assert (Hany : TLS_RequireCurrentCertificate spec = true \/ TLS_RequireHostnameMatch spec = true \/ TLS_MinimumCertificateDaysLeft spec <> None).
  { destruct (TLS_RequireCurrentCertificate spec), (TLS_RequireHostnameMatch spec); auto. right; right. simpl in E. by apply bool_decide_eq_false in E. }
  destruct (TLS_Certificate input) as [leaf|]; [|split; [done|intros H; by destruct (H Hany) as (? & ? & _)]].
  cbv zeta. rewrite !app_nil, !one_nil, !andb_false_iff, !orb_false_iff, negb_false_iff, bool_decide_eq_false.
  unfold Before, After. rewrite !Z.ltb_ge.
  assert (Hdays : match TLS_MinimumCertificateDaysLeft spec with
                  | Some days => if Sub (Leaf_NotAfter leaf) now <=? days * 24 * Hour then ["the leaf certificate has fewer than " +:+ int_text days +:+ " days remaining"] else []
                  | None => [] end = [] <->
                  forall days, TLS_MinimumCertificateDaysLeft spec = Some days -> days * 24 * Hour < Sub (Leaf_NotAfter leaf) now).
  { destruct (TLS_MinimumCertificateDaysLeft spec) as [days|]; [|by split]. rewrite one_nil, Z.leb_gt. split; [by intros ? ? [= <-]|auto]. }
  rewrite Hdays. split.
  - intros (H1 & H2 & H3) _. exists leaf. split; [done|]. split_and!; [intros E1; destruct H1; [congruence|lia]|intros E2; destruct H2; [congruence|done]|done].
  - intros H. destruct (H Hany) as (? & [= <-] & H1 & H2 & H3). split_and!; [|destruct (TLS_RequireHostnameMatch spec); auto|done].
    destruct (TLS_RequireCurrentCertificate spec); [right|auto]. specialize (H1 eq_refl). lia.
Qed.

Lemma tls_failures_nil clock spec input :
  tlsFailures clock spec input = [] <-> tls_rules_hold (if IsZero (TLS_ObservedAt input) then clock else TLS_ObservedAt input) spec input.
Proof.
  unfold tlsFailures, tls_rules_hold. rewrite !app_nil, one_nil, flat_map_nil, certificate_failures_nil. setoid_rewrite one_nil.
  setoid_rewrite bool_decide_eq_false.
  assert (Hm : match tls_version (TLS_MinimumVersion spec) with
               | Some minimum => if TLS_Version input <? minimum
                                 then ["negotiated " +:+ tlsVersionName (TLS_Version input) +:+ " is below required " +:+ TLS_MinimumVersion spec] else []
               | None => [] end = [] <-> forall minimum, tls_version (TLS_MinimumVersion spec) = Some minimum -> minimum <= TLS_Version input).
  { destruct (tls_version (TLS_MinimumVersion spec)) as [minimum|]; [|by split]. rewrite one_nil, Z.ltb_ge. split; [by intros ? ? [= <-]|auto]. }
  rewrite Hm. assert (Hl : TLS_DisallowLegacyProtocols spec && TLS_LegacyAccepted input = false <-> (TLS_DisallowLegacyProtocols spec = true -> TLS_LegacyAccepted input = false))
    by (destruct (TLS_DisallowLegacyProtocols spec), (TLS_LegacyAccepted input); intuition congruence).
  rewrite Hl. assert (Hc : (forall c, c ∈ TLS_DisallowedCipherSuites spec -> CipherSuiteName (TLS_CipherSuite input) <> c) <->
                           CipherSuiteName (TLS_CipherSuite input) ∉ TLS_DisallowedCipherSuites spec) by naive_solver.
  by rewrite Hc.
Qed.

Lemma evaluate_http_inv order check input r : EvaluateHTTP order check input = Ok r ->
  IsIntrusive check = false /\ exists spec, DecodeHTTPSpec order check = Ok spec /\
    r = check_result (httpFailures (order (HTTP_HeaderContains spec)) spec input) (HTTP_Remediation spec).
Proof.
  unfold EvaluateHTTP, requireObservational. intros H. apply try_ok in H as [Hi H]. apply bind_ok in H as (spec & Hs & [= <-]).
  split; [by destruct (IsIntrusive check)|by exists spec].
Qed.

Lemma decode_http_inv order check spec : DecodeHTTPSpec order check = Ok spec <->
  is_ok (Validate check) = true /\ Check_Kind check = "http" /\ decode_http_spec (Check_Spec check) = Some spec /\
  is_ok (validateHTTPSpec (order (HTTP_HeaderContains spec)) spec) = true.
Proof.
  unfold DecodeHTTPSpec. rewrite try_ok, reject_ok, negb_false_iff, bool_decide_eq_true. destruct (decode_http_spec _) as [spec'|].
  - rewrite try_ok. split; [intros (? & ? & ? & [= ->]); done|intros (? & ? & [= ->] & ?); done].
  - split; [by intros (_ & _ & ?)|by intros (_ & _ & ? & _)].
Qed.

(** C22: An evaluation of a declarative check passes exactly when every rule of
    its specification holds of what was observed, for the HTTP, SSH and TLS
    kinds alike, and a check that declares itself intrusive is never evaluated.
    The order in which a map of headers is visited changes nothing. *)
Theorem evaluations_exact order order' clock check http ssh tls r :
  (forall m, order m ≡ₚ map_to_list m) -> (forall m, order' m ≡ₚ map_to_list m) ->
  (EvaluateHTTP order check http = Ok r ->
     IsIntrusive check = false /\ EvaluateHTTP order' check http = Ok r /\
     exists spec, decode_http_spec (Check_Spec check) = Some spec /\ (Result_Passed r = true <-> http_rules_hold spec http)) /\
  (EvaluateSSH check ssh = Ok r ->
     IsIntrusive check = false /\ exists spec, decode_ssh_spec (Check_Spec check) = Some spec /\ (Result_Passed r = true <-> ssh_rules_hold spec ssh)) /\
  (EvaluateTLS clock check tls = Ok r ->
     IsIntrusive check = false /\ exists spec, decode_tls_spec (Check_Spec check) = Some spec /\
       (Result_Passed r = true <-> tls_rules_hold (if IsZero (TLS_ObservedAt tls) then clock else TLS_ObservedAt tls) spec tls)).
Proof.
  intros Ho Ho'. split_and!.
  - intros (Hi & spec & Hd & ->)%evaluate_http_inv. split; [done|]. apply decode_http_inv in Hd as (Hv & Hk & Hs & Hok).
    assert (Hp : order (HTTP_HeaderContains spec) ≡ₚ order' (HTTP_HeaderContains spec)) by by rewrite Ho, Ho'. split.
    + unfold EvaluateHTTP, requireObservational. rewrite Hi.
      assert (Hd : DecodeHTTPSpec order' check = Ok spec) by (apply decode_http_inv; split_and!; try done; by rewrite <- (validate_http_perm _ _ spec Hp)).
      rewrite Hd. simpl. by rewrite (http_failures_perm _ _ spec http Hp).
    + exists spec. split; [done|]. cbn [check_result Result_Passed]. by rewrite bool_decide_eq_true, http_failures_nil.
  - unfold EvaluateSSH, requireObservational. destruct (IsIntrusive check); [done|]. intros H.
    apply bind_ok in H as (spec & Hs & [= <-]). split; [done|]. unfold DecodeSSHSpec in Hs. apply try_ok in Hs as [_ Hs]. apply reject_ok in Hs as [_ Hs].
    destruct (decode_ssh_spec _) as [spec'|]; [|done]. apply try_ok in Hs as [_ [= ->]]. exists spec. split; [done|].
    cbn [check_result Result_Passed]. by rewrite bool_decide_eq_true, ssh_failures_nil.
  - unfold EvaluateTLS, requireObservational. destruct (IsIntrusive check); [done|]. intros H.
    apply bind_ok in H as (spec & Hs & [= <-]). split; [done|]. unfold DecodeTLSSpec in Hs. apply try_ok in Hs as [_ Hs]. apply reject_ok in Hs as [_ Hs].
    destruct (decode_tls_spec _) as [spec'|]; [|done]. apply try_ok in Hs as [_ [= ->]]. exists spec. split; [done|].
    cbn [check_result Result_Passed]. by rewrite bool_decide_eq_true, tls_failures_nil.
Qed.
End evaluation.

(** * The catalog *)

Section catalog.
Context {CL : CheckLibrary}.

Record catalog_wf (s : CatalogDb) : Prop := {
  cw_publishers : NoDup (CheckPublisher_KeyID <$> cat_publishers s);
  cw_versions : NoDup (version_id <$> cat_versions s);
  cw_verified : forall v, v ∈ cat_versions s -> exists p, p ∈ cat_publishers s /\ CheckPublisher_KeyID p = Signed_KeyID (Version_Envelope v) /\
    Verify (Version_Envelope v) (CheckPublisher_PublicKey p) = Ok tt;
  cw_active : forall v v', v ∈ cat_versions s -> v' ∈ cat_versions s -> Version_Status v = CheckActive -> Version_Status v' = CheckActive ->
    (version_id v).1 = (version_id v').1 -> v = v' }.

(** Keys stay bound and versions stay as they were signed. *)
Definition catalog_keeps (s s' : CatalogDb) : Prop :=
  (forall p, p ∈ cat_publishers s -> exists p', p' ∈ cat_publishers s' /\ CheckPublisher_KeyID p' = CheckPublisher_KeyID p /\
     CheckPublisher_PublicKey p' = CheckPublisher_PublicKey p) /\
  (forall v, v ∈ cat_versions s -> exists v', v' ∈ cat_versions s' /\ Version_Envelope v' = Version_Envelope v).

Lemma catalog_keeps_refl s : catalog_keeps s s.
Proof. split; eauto. Qed.
Lemma catalog_keeps_trans s1 s2 s3 : catalog_keeps s1 s2 -> catalog_keeps s2 s3 -> catalog_keeps s1 s3.
Proof.
  intros [P1 V1] [P2 V2]. split.
  - intros p (p' & H1 & E1 & E1')%P1. destruct (P2 p' H1) as (p'' & H2 & E2 & E2'). exists p''. split_and!; [done|congruence..].
  - intros v (v' & H1 & E1)%V1. destruct (V2 v' H1) as (v'' & H2 & E2). exists v''. split; [done|congruence].
Qed.

(** Changes of publishers that keep their identifiers and keys. *)
Lemma publishers_changed s publishers :
  catalog_wf s -> NoDup (CheckPublisher_KeyID <$> publishers) ->
  (forall p, p ∈ cat_publishers s -> exists p', p' ∈ publishers /\ CheckPublisher_KeyID p' = CheckPublisher_KeyID p /\
     CheckPublisher_PublicKey p' = CheckPublisher_PublicKey p) ->
  let s' := s <| cat_publishers := publishers |> in catalog_wf s' /\ catalog_keeps s s'.
Proof.
  intros Hwf Hnd Hk. split; [|split; [done|eauto]]. split; simpl; [done|apply Hwf| |apply Hwf].
  intros v Hv. destruct (cw_verified s Hwf v Hv) as (p & Hp & E & Hver). destruct (Hk p Hp) as (p' & Hp' & E' & Ek). exists p'.
  split_and!; [done|congruence|]. by rewrite Ek.
Qed.

Lemma save_publisher_wf value s : catalog_wf s -> catalog_wf (SavePublisher value s).2 /\ catalog_keeps s (SavePublisher value s).2.
Proof.
  intros Hwf. unfold SavePublisher. case_if; [split; [done|apply catalog_keeps_refl]|]. cbn [snd].
  set (row := mkCheckPublisher _ _ _ _ _ _).
  apply (publishers_changed s (upsert CheckPublisher_KeyID renew_trust row (cat_publishers s))); [done| |].
  - apply (keyed_upsert (fun _ => True) CheckPublisher_KeyID); [done..|]. split; [apply Hwf|by apply Forall_true].
  - intros p Hp. unfold upsert. case_if; [|exists p; split_and!; [apply elem_of_app; by left|done..]].
    exists (if bool_decide (CheckPublisher_KeyID p = CheckPublisher_KeyID row) then renew_trust p row else p).
    split; [apply elem_of_update_where; by exists p|]. by case_bool_decide.
Qed.

Lemma revoke_publisher_wf keyID at_ s :
  catalog_wf s -> catalog_wf (RevokePublisherRow keyID at_ s).2 /\ catalog_keeps s (RevokePublisherRow keyID at_ s).2.
Proof.
  intros Hwf. unfold RevokePublisherRow. case_if; [split; [done|apply catalog_keeps_refl]|]. cbn [snd].
  set (f := fun p => mkCheckPublisher _ _ _ _ _ _). apply (publishers_changed s (update_where (publisher_is keyID) f (cat_publishers s))); [done| |].
  - rewrite update_where_key; [apply Hwf|done].
  - intros p Hp. exists (if publisher_is keyID p then f p else p). split; [apply elem_of_update_where; by exists p|]. by destruct (publisher_is keyID p).
Qed.

Lemma trusted_Some keyID s p : trusted keyID s = Some p ->
  p ∈ cat_publishers s /\ CheckPublisher_KeyID p = keyID /\ CheckPublisher_Status p = PublisherTrusted.
Proof.
  unfold trusted, Publisher_. destruct (query_row _ _) as [p'|] eqn:E; [|done]. case_bool_decide as Es; [|done]. intros [= ->].
  apply query_row_Some in E as [Hp Hk]. unfold publisher_is in Hk. by apply bool_decide_eq_true in Hk.
Qed.

Lemma import_wf envelope now s : catalog_wf s -> catalog_wf (Import envelope now s).2 /\ catalog_keeps s (Import envelope now s).2.
Proof.
  intros Hwf. assert (Hsame : catalog_wf s /\ catalog_keeps s s) by (split; [done|apply catalog_keeps_refl]).
  unfold Import. destruct (trusted _ s) as [p|] eqn:Et; [|done]. apply trusted_Some in Et as (Hp & Hk & _).
  destruct (Verify envelope _) as [[]|] eqn:Ev; [|done]. destruct (Version_ _ _ s); [by case_if|]. unfold SaveVersion. case_if; [done|].
  reflect_bools. cbn [snd Version_Envelope Version_Status Version_ImportedAt] in *. set (v := mkVersion envelope CheckStaged now None) in *.
  split; [|split; [eauto|intros v' Hv'; exists v'; split; [apply elem_of_app; by left|done]]]. split; simpl.
  - apply Hwf.
  - rewrite fmap_app. apply NoDup_app. split_and!; [apply Hwf| |apply NoDup_singleton]. intros x Hx ->%list_elem_of_singleton. done.
  - intros v' [Hv'| ->%list_elem_of_singleton]%elem_of_app; [by apply (cw_verified s Hwf)|]. by exists p.
  - intros v1 v2 [Hv1| ->%list_elem_of_singleton]%elem_of_app [Hv2| ->%list_elem_of_singleton]%elem_of_app Es1 Es2 Eid; try done. by apply (cw_active s Hwf).
Qed.

(** What a row becomes when a version of its check is activated. *)
Definition activated_row (id version : string) (at_ : Time) (v : Version) : Version :=
  let v := if active_check id v then with_status CheckRetired (Version_ActivatedAt v) v else v in
  if version_is id version v then with_status CheckActive (Some at_) v else v.
Lemma activate_version_rows id version at_ s :
  cat_versions (ActivateVersion id version at_ s).2 = cat_versions s \/
  cat_versions (ActivateVersion id version at_ s).2 = activated_row id version at_ <$> cat_versions s.
Proof.
  unfold ActivateVersion. cbv zeta. case_if; [by left|]. right. cbn [snd]. simpl. unfold update_where. rewrite <- list_fmap_compose. done.
Qed.
Lemma activated_row_envelope id version at_ v : Version_Envelope (activated_row id version at_ v) = Version_Envelope v.
Proof. unfold activated_row. by destruct (active_check id v), (version_is id version _). Qed.
Lemma activated_row_active id version at_ v : Version_Status (activated_row id version at_ v) = CheckActive ->
  version_id v = (id, version) \/ ((version_id v).1 <> id /\ Version_Status v = CheckActive).
Proof.
  unfold activated_row. destruct (active_check id v) eqn:Ea; cbv zeta; destruct (version_is id version _) eqn:Ev; intros Hs.
  - left. unfold version_is in Ev. by apply bool_decide_eq_true in Ev.
  - done.
  - left. unfold version_is in Ev. by apply bool_decide_eq_true in Ev.
  - right. split; [|done]. intros Eid. unfold active_check in Ea. unfold version_id in Eid. cbn [fst] in Eid.
    by rewrite !bool_decide_eq_true_2 in Ea.
Qed.

Lemma activate_wf id version allowRollback now s :
  catalog_wf s -> catalog_wf (Activate id version allowRollback now s).2 /\ catalog_keeps s (Activate id version allowRollback now s).2.
Proof.
  intros Hwf. assert (Hsame : catalog_wf s /\ catalog_keeps s s) by (split; [done|apply catalog_keeps_refl]).
  unfold Activate. destruct (Version_ id version s); [|done]. destruct (trusted _ s); [|done]. case_if; [done|].
  assert (Hpub : cat_publishers (ActivateVersion id version now s).2 = cat_publishers s) by (unfold ActivateVersion; by case_if).
  assert (Hid : forall v, version_id (activated_row id version now v) = version_id v) by (intros v; unfold version_id; by rewrite activated_row_envelope).
  destruct (activate_version_rows id version now s) as [E1|E1].
  { replace (ActivateVersion id version now s).2 with s; [done|]. destruct s, (ActivateVersion _ _ _ _).2; simpl in *. congruence. }
  split; [|split; [rewrite Hpub; eauto|]].
  2: { intros v Hv. rewrite E1. exists (activated_row id version now v). split; [by apply list_elem_of_fmap_2|apply activated_row_envelope]. }
  split.
  - rewrite Hpub. apply Hwf.
  - rewrite E1, <- list_fmap_compose. rewrite (list_fmap_ext _ version_id); [apply Hwf|]. intros i v _. apply Hid.
  - intros v' Hv'. rewrite E1 in Hv'. apply list_elem_of_fmap in Hv' as (v & -> & Hv). rewrite activated_row_envelope, Hpub. by apply (cw_verified s Hwf).
  - intros v1' v2' H1 H2. rewrite E1 in H1, H2. apply list_elem_of_fmap in H1 as (v1 & -> & H1), H2 as (v2 & -> & H2).
    intros A1 A2. rewrite !Hid. intros Eid. apply activated_row_active in A1, A2. f_equal.
    destruct A1 as [A1|[N1 A1]], A2 as [A2|[N2 A2]].
    + apply (key_inj version_id (cat_versions s)); [apply Hwf|done..|congruence].
    + rewrite A1 in Eid. by destruct N2.
    + rewrite A2 in Eid. by destruct N1.
    + by apply (cw_active s Hwf).
Qed.

Lemma catalog_step_wf s o : catalog_wf s -> catalog_wf (catalog_step s o) /\ catalog_keeps s (catalog_step s o).
Proof.
  intros Hwf. destruct o as [keyID name publicKey now|keyID now|envelope now|id version allowRollback now]; simpl.
  - unfold TrustPublisher. repeat (case_if; [split; [done|apply catalog_keeps_refl]|]). by apply save_publisher_wf.
  - by apply revoke_publisher_wf.
  - by apply import_wf.
  - by apply activate_wf.
Qed.

Lemma catalog_run_wf ops s : catalog_wf s -> catalog_wf (run_catalog s ops) /\ catalog_keeps s (run_catalog s ops).
Proof.
  unfold run_catalog. revert s. induction ops as [|o ops IH]; intros s Hwf; [split; [done|apply catalog_keeps_refl]|].
  destruct (catalog_step_wf s o Hwf) as [H1 K1]. destruct (IH _ H1) as [H2 K2]. split; [done|]. by eapply catalog_keeps_trans.
Qed.
Lemma empty_catalog_wf : catalog_wf empty_catalog.
Proof. split; simpl; [constructor|constructor|by intros ? ?%not_elem_of_nil|by intros ? ? ?%not_elem_of_nil]. Qed.

(** A version that an operation makes active was activated, under a trusted
    publisher, and above the version that was active unless a rollback was
    approved. *)
Lemma activation_gated s o v : catalog_wf s -> v ∈ cat_versions (catalog_step s o) -> Version_Status v = CheckActive ->
  (exists v0, v0 ∈ cat_versions s /\ Version_Envelope v0 = Version_Envelope v /\ Version_Status v0 = CheckActive) \/
  exists allowRollback now p, o = CatalogActivate (version_id v).1 (version_id v).2 allowRollback now /\
    p ∈ cat_publishers s /\ CheckPublisher_KeyID p = Signed_KeyID (Version_Envelope v) /\ CheckPublisher_Status p = PublisherTrusted /\
    forall active, ActiveVersion (version_id v).1 s = Ok active ->
      allowRollback = true \/ 0 <= compareVersions (version_id v).2 (version_id active).2.
Proof.
  intros Hwf Hv Ha. assert (Hsame : v ∈ cat_versions s -> exists v0, v0 ∈ cat_versions s /\ Version_Envelope v0 = Version_Envelope v /\ Version_Status v0 = CheckActive)
    by (intros H; by exists v).
  destruct o as [keyID name publicKey now|keyID now|envelope now|id version allowRollback now]; simpl in Hv.
  - left. apply Hsame. revert Hv. unfold TrustPublisher, SavePublisher. by repeat case_if.
  - left. apply Hsame. revert Hv. unfold RevokePublisher, RevokePublisherRow. by case_if.
  - left. apply Hsame. revert Hv. unfold Import. destruct (trusted _ s); [|done]. destruct (Verify _ _); [|done].
    destruct (Version_ _ _ s); [by case_if|]. unfold SaveVersion. case_if; [done|]. simpl. intros [Hv| ->%list_elem_of_singleton]%elem_of_app; done.
  - revert Hv. unfold Activate. destruct (Version_ id version s) as [candidate|] eqn:Ec; [|by left; apply Hsame].
    destruct (trusted _ s) as [p|] eqn:Et; [|by left; apply Hsame]. case_if; [by left; apply Hsame|].
    destruct (activate_version_rows id version now s) as [E1|E1]; rewrite E1; [by left; apply Hsame|].
    intros (v0 & -> & Hv0)%list_elem_of_fmap. rewrite activated_row_envelope in *. apply activated_row_active in Ha as [Eid|[_ Ha]]; [|left; by exists v0].
    assert (version_id (activated_row id version now v0) = (id, version)) as -> by (unfold version_id; by rewrite activated_row_envelope).
    right.
    cbn [fst snd]. unfold Version_ in Ec. destruct (query_row _ _) as [c|] eqn:Eq; [|done]. injection Ec as ->.
    apply query_row_Some in Eq as [Hc Hcid]. unfold version_is in Hcid. apply bool_decide_eq_true in Hcid.
    assert (candidate = v0) as -> by (apply (key_inj version_id (cat_versions s)); [apply Hwf|done..|congruence]).
    apply trusted_Some in Et as (Hp & Hk & Hs). exists allowRollback, now, p. split_and!; [done..|].
    intros active Hactive. rewrite Hactive in E. apply andb_false_iff in E as [E|E]; [right; by apply Z.ltb_ge in E|left; by apply negb_false_iff in E].
Qed.

End catalog.

(** * Concrete checks *)

Fixpoint repeated (n : nat) (s : string) : string := match n with O => "" | S n => s +:+ repeated n s end.
Definition cut_to (n : nat) (s : string) : string := substring 0 n (s +:+ repeated n "0").
Lemma repeated_length n : String.length (repeated n "0") = n.
Proof. induction n as [|n IH]; [done|]. change (S (String.length (repeated n "0")) = S n). by rewrite IH. Qed.
Lemma substring_length s : forall n, (n <= String.length s)%nat -> String.length (substring 0 n s) = n.
Proof. induction s as [|a s IH]; intros [|n] H; simpl in *; try lia; [done..|]. by rewrite IH by lia. Qed.
Lemma padded_length n s : (n <= String.length (s +:+ repeated n "0"))%nat.
Proof. induction s as [|a s IH]; [change (n <= String.length (repeated n "0"))%nat; by rewrite repeated_length|simpl; lia]. Qed.
Lemma cut_to_length n s : String.length (cut_to n s) = n.
Proof. apply substring_length, padded_length. Qed.

#[local] Instance check_lower : LowerCase := {| ToLowerText := ToLower |}.
#[local] Instance check_folding : CaseFolding := ascii_folding.
Definition nosniff : HTTPSpec := {|
  HTTP_RequireHTTPS := true; HTTP_RequiredHeaders := ["content-security-policy"]; HTTP_ForbiddenHeaders := ["Server"];
  HTTP_HeaderContains := {["x-content-type-options" := ["NoSniff"]]}; HTTP_AllowedStatusCodes := [200; 204]; HTTP_Remediation := "Harden the response." |}.
Definition openssh_only : SSHSpec := {|
  SSH_AllowedProtocolVersions := ["2.0"]; SSH_AllowedSoftware := ["OpenSSH"]; SSH_DisallowedSoftware := []; SSH_ForbiddenCommentTerms := ["Debian"];
  SSH_ForbidVersionDisclosure := true; SSH_Remediation := "Restrict the banner." |}.
Definition modern_tls : TLSSpec := {|
  TLS_MinimumVersion := "TLS1.2"; TLS_DisallowLegacyProtocols := true; TLS_DisallowedCipherSuites := ["TLS_RSA_WITH_RC4_128_SHA"];
  TLS_RequireCurrentCertificate := true; TLS_RequireHostnameMatch := true; TLS_MinimumCertificateDaysLeft := Some 30; TLS_Remediation := "Renew." |}.
(** Objects are their own canonical form, and each kind has one specification;
    the signature of a payload is its beginning. *)
#[local] Instance sample_library : CheckLibrary := {|
  canonical_json s := if has_prefix "{" s then Some s else None;
  decode_http_spec _ := Some nosniff; decode_ssh_spec _ := Some openssh_only; decode_tls_spec _ := Some modern_tls;
  encode_check context check := Join [Check_ID check; Check_Version check; Check_Spec check; context] "|";
  raw_base64 s := s; raw_unbase64 s := Some s;
  check_sign _ payload := cut_to 64 payload;
  check_verify _ payload signature := bool_decide (signature = cut_to 64 payload);
  Quote s := s |}.
#[local] Instance sample_laws : CheckLibraryLaws.
Proof.
  split; [|done|].
  - intros spec canonical. cbn [canonical_json sample_library]. destruct (has_prefix "{" spec) eqn:E; intros [= <-]. by rewrite E.
  - intros key payload. simpl. unfold strlen. by rewrite cut_to_length.
Qed.

Definition sample_check (kind version : string) : Check :=
  mkCheck 1 "mossward.headers" version kind "Response headers" "" "medium" "" "{}".
Definition sample_public : string := cut_to 32 "public key".
Definition sample_private : string := cut_to 64 "private key".
Definition sample_signed (version : string) : SignedCheck :=
  mkSignedCheck "Ed25519" "moss.key-1" (sample_check "http" version)
    (cut_to 64 (Join ["mossward.headers"; version; "{}"; signatureContext] "|")).

Lemma signed_check_verifies_witness :
  exists canonical, canonicalSpec "{}" = Ok canonical /\ (Verify (sample_signed "1.0.0") sample_public = Ok tt <-> strlen canonical <= maxSpecBytes).
Proof.
  destruct (signed_check_verifies (sample_check "http" "1.0.0") "moss.key-1" sample_private sample_public (sample_signed "1.0.0"))
    as (canonical & Hc & _ & _ & Hv).
  - intros payload. apply bool_decide_eq_true. reflexivity.
  - vm_compute. reflexivity.
  - vm_compute. reflexivity.
  - exists canonical. split; [exact Hc|exact Hv].
Defined.
Example sample_verifies : Verify (sample_signed "1.0.0") sample_public = Ok tt.
Proof. vm_compute. reflexivity. Qed.

(** Evaluations that fail one rule, and that pass. *)
Definition bare_response : HTTPInput := {| Input_Secure := true; Input_StatusCode := 404; Input_Headers := {["Content-Security-Policy" := ["default-src"]]} |}.
Definition good_response : HTTPInput := {|
  Input_Secure := true; Input_StatusCode := 200;
  Input_Headers := {["Content-Security-Policy" := ["default-src"]; "X-Content-Type-Options" := ["nosniff"]]} |}.
Example bare_fails : EvaluateHTTP map_to_list (sample_check "http" "1.0.0") bare_response =
  Ok (mkCheckResult false "HTTP status 404 is not allowed; header X-Content-Type-Options does not contain the required value" "Harden the response.").
Proof. vm_compute. reflexivity. Qed.
Example ssh_evaluated : Result_Evidence <$> (match EvaluateSSH (sample_check "ssh" "1.0.0") (mkSSHInput "2.0" "openssh" "8.9p1" "Debian-3") with Ok r => Some r | Err _ => None end) =
  Some "SSH identification comment contains prohibited term Debian; SSH identification discloses a software version".
Proof. vm_compute. reflexivity. Qed.

Definition old_tls : TLSInput := {| TLS_Version := 770; TLS_CipherSuite := 5; TLS_Certificate := None; TLS_Hostname := "web"; TLS_LegacyAccepted := false;
  TLS_ObservedAt := 0 |}.
Lemma evaluations_exact_witness :
  EvaluateHTTP map_to_list (sample_check "http" "1.0.0") good_response = Ok (mkCheckResult true "" "Harden the response.") /\
  IsIntrusive (sample_check "http" "1.0.0") = false /\ http_rules_hold nosniff good_response.
Proof.
  assert (E : EvaluateHTTP map_to_list (sample_check "http" "1.0.0") good_response = Ok (mkCheckResult true "" "Harden the response."))
    by (vm_compute; reflexivity).
  split; [exact E|].
  destruct (evaluations_exact map_to_list map_to_list 0 (sample_check "http" "1.0.0") good_response (mkSSHInput "" "" "" "") old_tls
    (mkCheckResult true "" "Harden the response.") (fun m => reflexivity _) (fun m => reflexivity _)) as [H _].
  destruct (H E) as (Hi & _ & spec & Hs & Hr). split; [exact Hi|]. injection Hs as <-. apply Hr. reflexivity.
Defined.

(** A name in a specification may be padded, and the rule is looked up by the
    padded name: no response ever satisfies it. *)
Lemma padded_header_never_matches (h : Header) : Header_Get h " X-Frame-Options" = default "" (h !! " X-Frame-Options" ≫= head).
Proof. reflexivity. Qed.
Example padded_header_accepted : exists spec : HTTPSpec,
  HTTP_RequiredHeaders spec = [" X-Frame-Options"] /\ validateHTTPSpec [] spec = Ok tt /\
  httpFailures [] spec {| Input_Secure := true; Input_StatusCode := 200; Input_Headers := {["X-Frame-Options" := ["DENY"]]} |} =
    ["required header  X-Frame-Options is missing"].
Proof.
  exists {| HTTP_RequireHTTPS := false; HTTP_RequiredHeaders := [" X-Frame-Options"]; HTTP_ForbiddenHeaders := []; HTTP_HeaderContains := ∅;
    HTTP_AllowedStatusCodes := []; HTTP_Remediation := "Deny framing." |}.
  split; [reflexivity|]. split; vm_compute; reflexivity.
Qed.

(** The rules on header values are not counted when a specification is asked
    for at least one rule: one that has only these is refused. *)
Theorem only_header_values_refused order (spec : HTTPSpec) :
  HTTP_RequireHTTPS spec = false -> HTTP_RequiredHeaders spec = [] -> HTTP_ForbiddenHeaders spec = [] -> HTTP_AllowedStatusCodes spec = [] ->
  validateHTTPSpec order spec = Err "HTTP check spec must declare at least one rule".
Proof. intros H1 H2 H3 H4. unfold validateHTTPSpec, http_rules. by rewrite H1, H2, H3, H4. Qed.

(** Numeric identifiers that differ by leading zeros are each below the other,
    so two activations lower the pre-release without an approval. *)
Definition rolled_back : list catalog_op :=
  [CatalogTrust "moss.key-1" "Moss" sample_public 1; CatalogImport (sample_signed "1.0.0-1.5") 2; CatalogImport (sample_signed "1.0.0-01.0") 3;
   CatalogImport (sample_signed "1.0.0-1.0") 4; CatalogActivate "mossward.headers" "1.0.0-1.5" false 5].
Definition active_version (s : CatalogDb) : option string :=
  match ActiveVersion "mossward.headers" s with Ok v => Some (version_id v).2 | Err _ => None end.
Theorem rollback_without_approval :
  let s := run_catalog empty_catalog rolled_back in
  active_version s = Some "1.0.0-1.5" /\ compareVersions "1.0.0-1.0" "1.0.0-1.5" = -1 /\
  (Activate "mossward.headers" "1.0.0-1.0" false 6 s).1 = Err ErrRollbackApproval /\
  active_version (run_catalog s [CatalogActivate "mossward.headers" "1.0.0-01.0" false 6; CatalogActivate "mossward.headers" "1.0.0-1.0" false 7]) =
    Some "1.0.0-1.0".
Proof. vm_compute. split_and!; reflexivity. Qed.
