(* ===== verification/IntelligenceExamples.v ===== *)
(** Vulnerability intelligence on a concrete feed: a laptop reports its software
    before and after two pages of advisories, and a scan observes a service that
    two ranges of one advisory affect. *)
From Stdlib Require Import ZArith Lia String SpecFloat.
From stdpp Require Import base tactics list strings gmap sets.
From coqutil Require Import Datatypes.RecordSettersUsingExistingGetters.
From S2P Require Import Prelude GoStrings GoTime GoLocation Netip WorkerModel Sql WorkerStore EndpointModel EndpointStore EndpointMachine EndpointExamples ScanModel AssetStore ScanStore ScanStoreSafety ScanStoreExamples ScanSchedule Intelligence IntelligenceSafety.
Open Scope string_scope.
Open Scope Z_scope.

#[local] Existing Instance test_zones.
#[local] Existing Instance test_lower.

(** * Versions *)

Example compare_versions_ex :
  CompareVersions "v1.20.0" "1.20" = 0 /\ CompareVersions "1.9" "1.20" = -1 /\ CompareVersions "8.9p1" "8.9" = 1 /\
  CompareVersions "1.0-rc1" "1.0" = 1 /\ CompareVersions "99999999999999999999" "9223372036854775807" = 0.
Proof. vm_compute. auto. Qed.
Example normalize_product_ex : NormalizeProduct "  Apache_HTTP   Server " = Some ("apache", "http_server") /\ NormalizeProduct "lighttpd" = None.
Proof. vm_compute. auto. Qed.

(** Debian writes an epoch before the version of a package, as openssh-server
    has one, and the agent reports it: the epoch is compared as if it were the
    major version, so the package is below the range that holds its version,
    and inside every range that has only an upper end. *)
Example debian_epoch_misread :
  VersionAffected "8.9p1-3ubuntu0.1" "*" "8.0" "" "" "9.0" = true /\ VersionAffected "1:8.9p1-3ubuntu0.1" "*" "8.0" "" "" "9.0" = false /\
  VersionAffected "9.9p1-1" "*" "" "" "" "9.0" = false /\ VersionAffected "1:9.9p1-1" "*" "" "" "" "9.0" = true.
Proof. vm_compute. auto. Qed.

(** A colon that a product name escapes ends the field all the same. *)
Example escaped_colon_splits :
  parseCPE "cpe:2.3:a:cpan:http\:\:daemon:6.14:*" = ("a", "cpan", "http", "").
Proof. reflexivity. Qed.
Example nvd_time_ex : ParseMillis "2026-01-01T00:00:00.250" = Some (20454 * 86400 * Second + 250 * Millisecond).
Proof. vm_compute. reflexivity. Qed.

(** * Matches of an endpoint *)

Definition score_98 : Score := S754_finite false (98 * 2 ^ 46) (- 49).
Definition range_of (vendor product from until : string) : AffectedProduct :=
  mkProduct "" "a" vendor product "*" from "" "" until true.
Definition advisory (id : string) (products : list AffectedProduct) : CVERecord :=
  mkCVERecord id "an advisory" (sample_day 0) (sample_day 0) score_98 "" "CRITICAL" false "" products [].
Definition feed_page1 : list CVERecord := [advisory "CVE-1" [range_of "nginx" "nginx" "1.0" "1.21"]].
Definition feed_page2 : list CVERecord := [advisory "CVE-2" [range_of "openbsd" "openssh" "8.0" "9.0"; range_of "openbsd" "openssh" "8.5" "9.3"]].
Definition package (name version : string) : InstalledSoftware := {|
  Software_Name := name; Software_Version := version; Software_Publisher := ""; Software_Architecture := "amd64"; Software_Source := "dpkg" |}.
Definition inventory (items : list InstalledSoftware) : EndpointSoftwareInventory := {| SoftwareInv_Items := items; SoftwareInv_CollectedAt := sample_day 1 |}.
Definition reported : list InstalledSoftware := [package "nginx" "1.20.1"; package "openssh-server" "8.9p1"; package "curl" ""].
Definition joined_laptop : EndpointDb := run_e ops_joined empty_endpoints.
Definition no_advisories : VulnDb := {|
  vd_endpoints := joined_laptop; vd_cves := []; vd_products := []; vd_references := []; vd_matches := []; vd_feed := [] |}.
Definition laptop_run : list vuln_op :=
  [VulnStmt (SSoftware None "e1" (inventory reported) (sample_day 1));
   VulnFeed feed_page1 (sample_day 2); VulnFeed feed_page2 (sample_day 2)].
Definition laptop_matched : VulnDb := run_vuln no_advisories laptop_run.

Example laptop_matches :
  match_key <$> vd_matches laptop_matched = [("e1", "CVE-1", "nginx", "1.20.1", "dpkg"); ("e1", "CVE-2", "openssh-server", "8.9p1", "dpkg")].
Proof. vm_compute. reflexivity. Qed.
(** After an upgrade and a new report one match is left. *)
Example laptop_upgraded :
  match_key <$> vd_matches (run_vuln laptop_matched
    [VulnStmt (SSoftware None "e1" (inventory [package "nginx" "1.21"; package "openssh-server" "8.9p1"]) (sample_day 3))]) =
  [("e1", "CVE-2", "openssh-server", "8.9p1", "dpkg")].
Proof. vm_compute. reflexivity. Qed.

Lemma laptop_cves : cve_id <$> vd_cves laptop_matched = ["CVE-1"; "CVE-2"].
Proof. vm_compute. reflexivity. Qed.
Lemma laptop_software : ed_software (vd_endpoints laptop_matched) = {[ "e1" := mkReceived (inventory reported) (sample_day 1) ]}.
Proof. vm_compute. reflexivity. Qed.

Lemma laptop_clean : clean_names laptop_matched.
Proof.
  split.
  - intros c Hc. apply (list_elem_of_fmap_2 cve_id) in Hc. rewrite laptop_cves in Hc.
    rewrite !elem_of_cons in Hc. destruct Hc as [->|[->|?%not_elem_of_nil]]; done.
  - intros id item. unfold installed_software.
    rewrite laptop_software. destruct (decide (id = "e1")) as [->|Hid]; [rewrite lookup_singleton_eq|rewrite lookup_singleton_ne by done; by intros ?%not_elem_of_nil].
    cbn [received_item]. change (List.filter versioned (SoftwareInv_Items (inventory reported))) with [package "nginx" "1.20.1"; package "openssh-server" "8.9p1"].
    intros Hi. rewrite !elem_of_cons in Hi. destruct Hi as [->|[->|?%not_elem_of_nil]]; done.
Qed.

Lemma endpoint_matches_current_witness :
  clean_names laptop_matched /\
  ((exists m, m ∈ vd_matches laptop_matched /\ match_key m = ("e1", "CVE-1", "nginx", "1.20.1", "dpkg")) <->
   endpoint_affected laptop_matched "e1" "CVE-1" "nginx" "1.20.1" "dpkg").
Proof.
  split; [exact laptop_clean|].
  apply (endpoint_matches_current no_advisories laptop_run); [reflexivity|vm_compute; reflexivity|exact laptop_clean].
Defined.

(** * The feed *)

Definition two_pages (page : nat) (index : Z) : result (list CVERecord * Z) :=
  match page with O => Ok (feed_page1, 2) | 1%nat => Ok (feed_page2, 2) | _ => Err "NVD feed returned HTTP 503" end.
Example synchronised :
  (fun r => (r.1.1, r.1.2, FeedStatus_ r.2)) <$> Sync two_pages (fun _ => sample_day 2) (fun _ => None) 5 (sample_day 2) (sample_day 3) no_advisories =
  Some (2, None, Ok (mkFeedStatus "NVD" "ready" (Some (sample_day 2)) (Some (sample_day 3)) 2 "" 2)).
Proof. vm_compute. reflexivity. Qed.

Lemma two_pages_total page i records total : two_pages page i = Ok (records, total) -> total <= 2.
Proof. destruct page as [|[|page]]; simpl; intros H; by simplify_eq. Qed.
Lemma two_pages_error page i e : two_pages page i = Err e -> e <> "".
Proof. destruct page as [|[|page]]; simpl; intros H; by simplify_eq. Qed.

Lemma sync_ends_and_reports_witness :
  (forall page i records total, two_pages page i = Ok (records, total) -> total <= 2) /\
  exists (pages : list (list CVERecord)) err s', forall fuel, (2 < fuel)%nat ->
    Sync two_pages (fun _ => sample_day 2) (fun _ => None) fuel (sample_day 2) (sample_day 3) no_advisories =
    Some (Z.of_nat (length (concat pages)), err, s').
Proof.
  split; [exact two_pages_total|].
  destruct (sync_ends_and_reports two_pages (fun _ => sample_day 2) (fun _ => None) (sample_day 2) (sample_day 3) no_advisories 2 two_pages_total
    two_pages_error) as (pages & err & s' & H & _).
  - intros page e H. discriminate H.
  - exists pages, err, s'. exact H.
Defined.

(** * Two ranges of one advisory *)

Definition ssh_service : ServiceObservation := {|
  Observation_ID := "o1"; Observation_Target := "web"; Observation_Address := "10.0.0.5"; Observation_Port := 22; Observation_Protocol := "tcp";
  Observation_Product := "OpenSSH"; Observation_Version := "8.9p1"; Observation_Confidence := "high"; Observation_Evidence := "SSH-2.0-OpenSSH_8.9p1";
  Observation_Metadata := ∅; Observation_ObservedAt := sample_day 2 |}.
Example ssh_matched_twice : Match_CVEID <$> MatchObservation ssh_service (sample_day 2) laptop_matched = ["CVE-2"; "CVE-2"].
Proof. vm_compute. reflexivity. Qed.

(** [MatchObservation] returns a vulnerability once for each of its ranges that
    holds the version, and the matches of a scan are keyed by the observation
    and the vulnerability: a scan that observes such a service cannot be saved,
    whatever else it found, from then on. *)
Theorem overlapping_ranges_break_save Sum256 o now s scan db before after_ :
  ~ NoDup (Match_CVEID <$> MatchObservation o now s) -> Scan_CVEMatches scan = (before ++ MatchObservation o now s ++ after_)%list ->
  Save Sum256 scan db = (Err ErrConstraint, db).
Proof.
  intros Hdup Hm. unfold Save, transaction. cbv zeta.
  replace (save_constraints scan _) with false; [done|]. symmetry. unfold save_constraints. rewrite Hm.
  destruct (bool_decide (NoDup ((fun m => (Match_ObservationID m, Match_CVEID m)) <$> (before ++ MatchObservation o now s ++ after_)%list))) eqn:E;
    [|by rewrite !andb_false_r].
  exfalso. apply bool_decide_eq_true in E. rewrite !fmap_app in E. apply NoDup_app in E as (_ & _ & [E _]%NoDup_app). apply Hdup.
  assert (Ho : forall m, m ∈ MatchObservation o now s -> Match_ObservationID m = Observation_ID o).
  { unfold MatchObservation. destruct (NormalizeProduct _) as [[??]|]; [|by intros ? ?%not_elem_of_nil].
    destruct (blank _); [by intros ? ?%not_elem_of_nil|]. intros m Hin. apply list_elem_of_fmap in Hin as (? & -> & _). done. }
  clear Hm Hdup. induction (MatchObservation o now s) as [|m l IH]; [constructor|]. rewrite fmap_cons in *.
  apply NoDup_cons in E as [Hn E]. apply NoDup_cons. split; [|apply IH; [done|]; intros ??; apply Ho; by right].
  intros (m' & Em & Hm')%list_elem_of_fmap. apply Hn. apply list_elem_of_fmap. exists m'. split; [|done].
  rewrite Em, (Ho m), (Ho m'); [done|by right|by left].
Qed.

Example ssh_scan_not_saved :
  ~ NoDup (Match_CVEID <$> MatchObservation ssh_service (sample_day 2) laptop_matched).
Proof. rewrite ssh_matched_twice. intros [H _]%NoDup_cons. apply H. by left. Qed.
