(* ===== verification/ScanEngineSafety.v ===== *)
(** What the engine guarantees: every interleaving of the goroutines of a run
    reports each check once, a completed scan has made them all, a paused one
    can be resumed, and everything the engine accepts comes to an end. *)
From Stdlib Require Import ZArith Lia String Ascii.
From stdpp Require Import base tactics list strings gmap sets relations.
From S2P Require Import Prelude GoStrings GoTime GoLocation Netip NetAddr WorkerModel WorkerExecutor Sql ScanModel ScanScope AssetStore ScanStore ScanStoreSafety ScanPolicyStore ScanSchedule ScanEngine.
Open Scope Z_scope.
Open Scope list_scope.

(** * Checks of a scan *)

Definition job_pair (j : scanJob) : string * Z := (Target_Address (job_target j), job_port j).
Definition checkpoint_pair (c : ScanCheckpoint) : string * Z := (ScanCheckpoint_Address c, ScanCheckpoint_Port c).
(** The checks a scan asks for, and those it has made. *)
Definition scan_checks (s : Scan) : list (string * Z) := job_pair <$> scan_jobs s.
Definition made_checks (s : Scan) : list (string * Z) := checkpoint_pair <$> Scan_Checkpoints s.

(** A scan the engine can run: its checks are distinct and those it has made are
    some of them. *)
Record scan_ready (s : Scan) : Prop := {
  ready_distinct : NoDup (scan_checks s);
  ready_ports : Forall int64_range (Scan_Ports s);
  ready_made : made_checks s ⊆+ scan_checks s }.

Lemma elem_of_scan_checks s a p : (a, p) ∈ scan_checks s <-> a ∈ Target_Address <$> Scan_Targets s /\ p ∈ Scan_Ports s.
Proof.
  unfold scan_checks, scan_jobs. rewrite list_elem_of_fmap. setoid_rewrite list_elem_of_bind. split.
  - intros (j & [= -> ->] & t & (q & -> & Hq)%list_elem_of_fmap & Ht). simpl. split; [by apply list_elem_of_fmap_2|done].
  - intros [(t & -> & Ht)%list_elem_of_fmap Hp]. exists (mkJob t p). split; [done|]. exists t. split; [|done]. by apply (list_elem_of_fmap_2 (fun p => mkJob t p)).
Qed.

Lemma scan_checks_length s : length (scan_checks s) = (length (Scan_Targets s) * length (Scan_Ports s))%nat.
Proof.
  unfold scan_checks, scan_jobs. rewrite length_fmap. induction (Scan_Targets s) as [|t ts IH]; [done|]. rewrite bind_cons, length_app, length_fmap, IH. done.
Qed.

(** A job is pending exactly when no checkpoint names its address and port. *)
Lemma pending_key s j : scan_ready s -> job_pair j ∈ scan_checks s ->
  (job_key j ∈ checkpoint_keys s <-> job_pair j ∈ made_checks s).
Proof.
  intros [_ Hp Hm] Hj. rewrite Forall_forall in Hp. unfold checkpoint_keys, made_checks, job_key. rewrite elem_of_list_to_set, !list_elem_of_fmap.
  assert (Hr : forall c, c ∈ Scan_Checkpoints s -> int64_range (ScanCheckpoint_Port c)).
  { intros c Hc. apply Hp. assert (Hin : checkpoint_pair c ∈ scan_checks s) by (eapply elem_of_submseteq; [|exact Hm]; by apply list_elem_of_fmap_2).
    by apply elem_of_scan_checks in Hin as [_ ?]. }
  apply elem_of_scan_checks in Hj as [_ Hj]. split; intros (c & E & Hc); exists c; (split; [|done]).
  - apply executionCheckKey_inj in E as [E1 E2]; [|by apply Hp|by apply Hr]. unfold job_pair, checkpoint_pair. congruence.
  - unfold job_pair, checkpoint_pair in E. injection E as -> ->. done.
Qed.

(** The checks made and the pending jobs are the checks of the scan. *)
Lemma pending_complete s : scan_ready s -> made_checks s ++ (job_pair <$> pending_jobs s) ≡ₚ scan_checks s.
Proof.
  intros H. pose proof H as [Hd Hp Hm]. apply submseteq_Permutation in Hm as [rest Hm].
  assert (E : job_pair <$> pending_jobs s ≡ₚ rest); [|by rewrite E].
  rewrite Hm in Hd. apply NoDup_app in Hd as (Hd1 & Hdis & Hd2). apply NoDup_Permutation; [|done|].
  - unfold pending_jobs. apply (NoDup_filter_key job_pair), (ready_distinct s H).
  - intros [a p]. unfold pending_jobs. rewrite list_elem_of_fmap. split.
    + intros (j & E & Hj). apply list_elem_of_In, filter_In in Hj as [Hj Hk]. rewrite negb_true_iff, bool_decide_eq_false in Hk.
      apply list_elem_of_In in Hj. assert (Hin : job_pair j ∈ scan_checks s) by (by apply list_elem_of_fmap_2).
      rewrite (pending_key s j H Hin) in Hk. rewrite E. rewrite Hm in Hin. by apply elem_of_app in Hin as [?|?].
    + intros Hr. assert (Hin : (a, p) ∈ scan_checks s) by (rewrite Hm; apply elem_of_app; by right).
      pose proof Hin as (j & E & Hj)%list_elem_of_fmap. exists j. split; [done|]. apply list_elem_of_In, filter_In. split; [by apply list_elem_of_In|].
      apply negb_true_iff, bool_decide_eq_false. rewrite E in Hin. rewrite (pending_key s j H Hin). intros Hmade. rewrite <- E in Hmade. by apply (Hdis (a, p)).
Qed.

Lemma submseteq_distinct {A} (l k : list A) : l ⊆+ k -> NoDup k -> NoDup l.
Proof. intros [rest ->]%submseteq_Permutation. by intros (? & _ & _)%NoDup_app. Qed.

(** * One run *)

Section Run.
Context (cfg : Config).

(** The checks of a run that are made, in a worker's hands, and still to be
    handed over. *)
Definition accounted (r : RunState) : list (string * Z) :=
  made_checks (run_scan r) ++ (job_pair <$> run_busy r) ++ (job_pair <$> run_feed r).

(** [done]: the context of the run is done. *)
Record run_ok (done : bool) (r : RunState) : Prop := {
  rok_distinct : NoDup (scan_checks (run_scan r));
  rok_ports : Forall int64_range (Scan_Ports (run_scan r));
  rok_some : accounted r ⊆+ scan_checks (run_scan r);
  rok_all : done = false -> accounted r ≡ₚ scan_checks (run_scan r);
  rok_total : Scan_TotalChecks (run_scan r) = Z.of_nat (length (scan_checks (run_scan r)));
  rok_done : Scan_DoneChecks (run_scan r) = Z.of_nat (length (made_checks (run_scan r)));
  rok_busy : Z.of_nat (length (run_busy r)) <= Z.max 0 (workerCount cfg (run_scan r));
  rok_fed : run_fed r = Some false -> done = false -> run_feed r = [] }.

Lemma run_ok_done r done : run_ok false r -> run_ok done r.
Proof. intros []. constructor; auto. Qed.

Lemma with_status_checks s st e a b w : scan_checks (with_status s st e a b w) = scan_checks s /\ made_checks (with_status s st e a b w) = made_checks s.
Proof. done. Qed.

Lemma started_run_ok scan now done : scan_ready scan -> run_ok done (mkRun (started_scan scan now) now (pending_jobs scan) None []).
Proof.
  intros H. pose proof (pending_complete scan H) as Hp. destruct H as [Hd Hr Hm].
  assert (E : accounted (mkRun (started_scan scan now) now (pending_jobs scan) None []) ≡ₚ scan_checks (started_scan scan now)) by exact Hp.
  constructor; simpl; try done; try lia.
  - by rewrite E.
  - rewrite scan_checks_length. simpl. lia.
  - unfold made_checks. simpl. by rewrite length_fmap.
Qed.

Lemma delete_middle {A} (l : list A) i x : l !! i = Some x -> x :: delete i l ≡ₚ l.
Proof. intros H. symmetry. by apply delete_Permutation. Qed.

Lemma collected_checks scan j probe now :
  scan_checks (collected_scan scan j probe now) = scan_checks scan /\ made_checks (collected_scan scan j probe now) = made_checks scan ++ [job_pair j] /\
  Scan_Ports (collected_scan scan j probe now) = Scan_Ports scan /\ Scan_TotalChecks (collected_scan scan j probe now) = Scan_TotalChecks scan /\
  Scan_DoneChecks (collected_scan scan j probe now) = Scan_DoneChecks scan + 1 /\ workerCount cfg (collected_scan scan j probe now) = workerCount cfg scan.
Proof. unfold collected_scan, made_checks. destruct probe; simpl; by rewrite fmap_app. Qed.

Lemma run_step_ok ev done r r' : run_step cfg done ev r = Some r' -> run_ok done r -> run_ok done r'.
Proof.
  intros H [Hd Hp Hs Ha Ht Hn Hb Hf]. destruct r as [scan started feed fed busy]. unfold accounted in *. simpl in *. destruct ev; simpl in H.
  - destruct fed; [done|]. destruct feed as [|j feed]; [done|]. destruct (_ <? _) eqn:El; [|done]. injection H as <-. apply Z.ltb_lt in El.
    assert (E : made_checks scan ++ (job_pair <$> busy ++ [j]) ++ (job_pair <$> feed) = made_checks scan ++ (job_pair <$> busy) ++ (job_pair <$> j :: feed))
      by (by rewrite fmap_app, <- !app_assoc).
    constructor; unfold accounted; simpl; try done; [by rewrite E|by rewrite E|rewrite length_app; simpl; lia].
  - destruct fed; [done|]. destruct feed; [|done]. injection H as <-. by constructor.
  - destruct fed; [by destruct why|]. destruct why.
    + destruct done; [|done]. injection H as <-. by constructor.
    + destruct (Scan_WindowEnd scan); [|done]. injection H as <-. by constructor.
  - destruct (busy !! i) as [j|] eqn:Ej; [|done]. injection H as <-. destruct (collected_checks scan j probe now) as (E1 & E2 & E3 & E4 & E5 & E6).
    assert (E : (made_checks scan ++ [job_pair j]) ++ (job_pair <$> delete i busy) ++ (job_pair <$> feed) ≡ₚ made_checks scan ++ (job_pair <$> busy) ++ (job_pair <$> feed)).
    { rewrite <- app_assoc. f_equiv. simpl. change (job_pair j :: (job_pair <$> delete i busy) ++ (job_pair <$> feed)) with ((job_pair <$> j :: delete i busy) ++ (job_pair <$> feed)).
      by rewrite (delete_middle busy i j Ej). }
    pose proof (length_delete busy i ltac:(by eexists)).
    constructor; unfold accounted; simpl; rewrite ?E1, ?E2, ?E3, ?E4, ?E5, ?E6, ?E; try done; [rewrite length_app; simpl; lia|lia].
  - destruct done; [|done]. simpl in H. destruct (bool_decide _) eqn:Ei; [|done]. apply bool_decide_eq_true in Ei as [j Ej]. injection H as <-.
    pose proof (length_delete busy i ltac:(by eexists)).
    constructor; unfold accounted; simpl; try done; [|lia]. etrans; [|exact Hs]. apply submseteq_app; [done|]. apply submseteq_app; [|done].
    rewrite <- (delete_middle busy i j Ej) at 2. simpl. by apply submseteq_cons.
  - done.
Qed.

(** The scan of a run, whatever its status, can be run again. *)
Lemma run_ready done r : run_ok done r -> scan_ready (run_scan r).
Proof.
  intros [Hd Hp Hs _ _ _ _ _]. constructor; [done..|]. etrans; [|exact Hs]. unfold accounted. by apply submseteq_inserts_r.
Qed.

Lemma finished_checks stopping canceled window started now s :
  let s' := finished_scan stopping canceled window started now s in
  scan_checks s' = scan_checks s /\ made_checks s' = made_checks s /\ Scan_Ports s' = Scan_Ports s /\
  Scan_Observations s' = Scan_Observations s /\ Scan_Findings s' = Scan_Findings s /\ Scan_CVEMatches s' = Scan_CVEMatches s.
Proof. unfold finished_scan, interrupted_scan. repeat case_match; done. Qed.

Lemma scan_ready_same s s' : scan_checks s' = scan_checks s -> made_checks s' = made_checks s -> Scan_Ports s' = Scan_Ports s -> scan_ready s -> scan_ready s'.
Proof. intros E1 E2 E3 [H1 H2 H3]. constructor; by rewrite ?E1, ?E2, ?E3. Qed.

(** A finished run whose scan is completed has made every check. *)
Lemma finished_completed stopping canceled window now r : run_ok (canceled || stopping) r ->
  run_fed r = Some window -> run_busy r = [] ->
  Scan_Status (finished_scan stopping canceled window (run_started r) now (run_scan r)) = StatusCompleted ->
  made_checks (run_scan r) ≡ₚ scan_checks (run_scan r).
Proof.
  intros [Hd Hp Hs Ha Ht Hn Hb Hf] Hfed Hbusy. unfold finished_scan, interrupted_scan, accounted in *. rewrite Hbusy in *. simpl in *.
  destruct stopping; [by case_bool_decide|]. destruct canceled; [done|]. simpl in *. specialize (Ha eq_refl).
  destruct window; simpl; [|intros _; rewrite Hf in Ha by done; by rewrite app_nil_r in Ha].
  destruct (_ <? _) eqn:El; [done|]. intros _. apply Z.ltb_ge in El. rewrite Ht, Hn in El.
  apply Permutation_length in Ha as Hl. rewrite length_app, length_fmap in Hl. destruct (run_feed r) as [|j feed]; [by rewrite app_nil_r in Ha|]. simpl in Hl. lia.
Qed.
End Run.

(** * The engine *)

Section Engine.
Context (Sum256 : string -> string).
#[local] Abbreviation step := (engine_step Sum256).
#[local] Abbreviation runs := (engine_run Sum256).

(** What the phase holds can be run, or is a run in order. *)
Definition phase_ok (cfg : Config) (stopping : bool) (p : Phase) : Prop :=
  match p with
  | Taken s | Begun _ _ s => scan_ready s
  | Working _ done r => run_ok cfg (done || stopping) r
  | Waiting | Ending _ _ | Exited => True
  end.
Record engine_ok (e : Engine) : Prop := {
  eok_queue : Forall scan_ready (en_queue e);
  eok_phase : phase_ok (en_cfg e) (en_done e) (en_phase e) }.

Definition event_ready (ev : Event) : Prop := match ev with EvSchedule scan _ => scan_ready scan | _ => True end.

(** Saving changes the store only. *)
Lemma save_or_fail_db scan now e : exists db, save_or_fail Sum256 scan now e = set_db db e.
Proof. unfold save_or_fail. destruct (on_scans _ _) as [[] db]; by eexists. Qed.

Lemma save_progress_db scan e : exists db, save_progress Sum256 scan e = set_db db e.
Proof. unfold save_progress. case_match; [by eexists|]. exists (en_db e). by destruct e. Qed.

Lemma run_ok_more cfg done done' r : run_ok cfg done r -> (done' = false -> done = false) -> run_ok cfg done' r.
Proof. intros [] H. constructor; auto. Qed.

Lemma cancel_signal_ok run e : engine_ok e -> (engine_ok (cancel_signal run e)) /\ en_cfg (cancel_signal run e) = en_cfg e.
Proof.
  intros He. unfold cancel_signal. destruct (en_phase e) eqn:Ep; try done; (case_bool_decide; [|done]); destruct He as [Hq Hp]; rewrite Ep in Hp;
    (split; [|done]); (constructor; [done|]); simpl in *; [done|]. by eapply run_ok_more.
Qed.

Lemma step_ok ev e e' : event_ready ev -> step ev e = Some e' -> engine_ok e -> engine_ok e' /\ en_cfg e' = en_cfg e.
Proof.
  intros Hr H [Hq Hp]. destruct ev; simpl in H.
  - injection H as <-. unfold Schedule. destruct (en_closed e); [done|]. destruct (on_scans _ _) as [[[]|] db]; [|done].
    destruct (_ <? _); [|done]. split; [|done]. constructor; [|done]. simpl. apply Forall_app. split; [done|]. by constructor.
  - injection H as <-. unfold cancel_read. destruct (Get _ _); [|done]. by case_match.
  - unfold cancel_step in H. destruct (en_cancels e !! i) as [[scan|scan run|scan]|]; [..|done].
    + unfold cancel_mark in H. injection H as <-. by case_match.
    + injection H as <-. destruct run as [run|]; [|done]. destruct (cancel_signal_ok run e (Build_engine_ok e Hq Hp)) as [[] ?]. by split.
    + by injection H as <-.
  - destruct (en_closed e); [done|]. injection H as <-. done.
  - destruct (_ && _); [|done]. injection H as <-. split; [|done]. constructor; [done|]. simpl. destruct (en_phase e); try done.
    eapply run_ok_more; [exact Hp|]. by destruct done.
  - destruct (en_phase e); try done. destruct (en_done e); [|done]. by injection H as <-.
  - destruct (en_phase e) eqn:Ep; try done. destruct (en_queue e) as [|scan queue] eqn:Eq; [done|]. apply Forall_cons in Hq as [_ Hq].
    unfold consumeCanceled in H. simpl in H. destruct (bool_decide _); injection H as <-; (split; [|done]); constructor; simpl; by rewrite ?Ep.
  - destruct (en_phase e); try done. destruct (en_queue e) as [|scan queue]; [done|]. injection H as <-. apply Forall_cons in Hq as [Hs Hq]. done.
  - destruct (en_phase e) eqn:Ep; try done. injection H as <-. unfold beginScan. case_bool_decide; done.
  - destruct (en_phase e) eqn:Ep; try done. injection H as <-. unfold startRun. destruct (on_scans _ _) as [[[]|] db]; [|done].
    split; [|done]. constructor; [done|]. exact (started_run_ok _ scan now _ Hp).
  - destruct (en_phase e) as [| | |n done r| |] eqn:Ep; try discriminate H. unfold run_event in H. destruct ev.
    all: try (destruct (run_step _ _ _ r) as [r'|] eqn:Es; [|done]; eapply run_step_ok in Es; [|exact Hp]; injection H as <-).
    all: try (split; [|done]; constructor; [done|]; exact Es).
    + destruct (save_progress_db (run_scan r') (set_phase (Working n done r') e)) as [db ->]. split; [|done]. constructor; [done|]. exact Es.
    + destruct (run_fed r); [|done]. destruct (run_busy r); [|done]. injection H as <-. case_match; [done|].
      destruct (save_or_fail_db (finished_scan (en_done e) done b (run_started r) now (run_scan r)) now e) as [db ->]. done.
  - destruct (en_phase e); try done. by injection H as <-.
Qed.

Lemma runs_ok evs e e' : Forall event_ready evs -> runs evs e = Some e' -> engine_ok e -> engine_ok e' /\ en_cfg e' = en_cfg e.
Proof.
  intros H. revert e. induction H as [|ev evs Hev _ IH]; intros e Hr He; simpl in Hr; [by injection Hr as <-|].
  destruct (step ev e) as [e1|] eqn:Es; [|done]. apply step_ok in Es as [H1 E1]; [|done..]. destruct (IH e1 Hr H1) as [H2 E2]. by rewrite E2, E1.
Qed.

Lemma New_ok julian_seconds cfg now db e : New julian_seconds cfg now db = Ok e ->
  engine_ok e /\ en_cfg e = cfg /\ 1 <= Config_MaxConcurrent cfg /\ en_phase e = Waiting /\ en_queue e = [] /\ en_cancels e = [] /\ en_closed e = false /\ en_done e = false.
Proof.
  unfold New. intros H. apply bind_ok in H as (v & Hv & H). unfold new_validator in Hv. apply reject_ok in Hv as [Hc _]. apply Z.ltb_ge in Hc.
  destruct (EnsureDefaultScopePolicy _ db) as [[] db1]; [|done]. destruct (on_scans _ db1) as [[] db2]; [|done]. by injection H as <-.
Qed.

(** C1: Every interleaving of the engine reports each check once. Whatever is
    scheduled, canceled, interrupted by windows, shut down or resumed, provided
    the scans given to [Schedule] ask for distinct checks and have made only
    such checks: while a scan runs, at most its worker count of checks, and
    never more than the configured limit, are in the workers' hands; no check
    it has made, is making or will still make occurs twice; and the checks it
    counts are those it has recorded. When the run ends, the scan it stores can
    be scheduled again, keeps what was collected, and, if its status is
    completed, has made exactly the checks of every target and port. *)
Theorem engine_checks_once julian_seconds cfg now0 db e0 evs e n done r : New julian_seconds cfg now0 db = Ok e0 ->
  Forall event_ready evs -> runs evs e0 = Some e -> en_phase e = Working n done r ->
  Z.of_nat (length (run_busy r)) <= workerCount cfg (run_scan r) <= Config_MaxConcurrent cfg /\
  NoDup (accounted r) /\ Scan_DoneChecks (run_scan r) = Z.of_nat (length (made_checks (run_scan r))) /\
  forall window now, run_fed r = Some window -> run_busy r = [] ->
    let scan := finished_scan (en_done e) done window (run_started r) now (run_scan r) in
    scan_ready scan /\ Scan_Observations scan = Scan_Observations (run_scan r) /\ Scan_Checkpoints scan = Scan_Checkpoints (run_scan r) /\
    (Scan_Status scan = StatusCompleted -> forall a p, a ∈ Target_Address <$> Scan_Targets scan -> p ∈ Scan_Ports scan ->
       exists c, c ∈ Scan_Checkpoints scan /\ ScanCheckpoint_Address c = a /\ ScanCheckpoint_Port c = p).
Proof.
  intros Hn Hev Hr Hph. apply New_ok in Hn as (H0 & Ecfg & Hmax & _). destruct (runs_ok evs e0 e Hev Hr H0) as [[_ Hp] Ec].
  rewrite Ec, Ecfg, Hph in Hp. pose proof Hp as [Hd _ Hs _ _ Hdone Hb _].
  split; [unfold workerCount in *; destruct (_ || _) eqn:Eo; [lia|]; rewrite orb_false_iff, !Z.ltb_ge in Eo; lia|].
  split; [by eapply submseteq_distinct|]. split; [done|]. intros window now Hfed Hbusy scan.
  destruct (finished_checks (en_done e) done window (run_started r) now (run_scan r)) as (E1 & E2 & E3 & E4 & _ & _). fold scan in E1, E2, E3, E4.
  split; [eapply scan_ready_same; [done..|]; by eapply run_ready|]. split; [done|].
  split; [subst scan; unfold finished_scan, interrupted_scan; repeat case_match; done|]. intros Hst a p Ha Hp'.
  apply (finished_completed cfg _ _ _ _ _ Hp Hfed Hbusy) in Hst. rewrite <- E1, <- E2 in Hst.
  assert (Hin : (a, p) ∈ made_checks scan) by (rewrite Hst; by apply elem_of_scan_checks).
  apply list_elem_of_fmap in Hin as (c & [= -> ->] & Hc). by exists c.
Qed.
End Engine.
