(* ===== verification/ScanEngineLiveness.v ===== *)
(** The engine comes to rest: its goroutines' own actions end, and then every
    scan it accepted has been run or given back, and none is left queued or
    running in the store. And the launch of remote scans over the scan store and
    the dispatcher's job store together. *)
From Stdlib Require Import ZArith Lia String Ascii.
From stdpp Require Import base tactics list strings gmap sets relations.
From S2P Require Import Prelude GoStrings GoTime GoLocation Netip NetAddr WorkerModel WorkerJob Dispatcher Sql WorkerStore WorkerJobMachine WorkerStoreSafety WorkerDispatch WorkerExecutor ScanModel ScanScope AssetStore ScanStore ScanStoreSafety ScanPolicyStore ScanSchedule ScanEngine ScanEngineSafety.
Open Scope Z_scope.
Open Scope list_scope.

(** The actions of the engine's goroutines and of calls under way; the others
    are new calls. *)
Definition own (ev : Event) : bool := match ev with EvSchedule _ _ | EvCancel _ | EvShutdown => false | _ => true end.

Section Liveness.
Context (Sum256 : string -> string).
#[local] Abbreviation step := (engine_step Sum256).
#[local] Abbreviation runs := (engine_run Sum256).

Definition own_step (e e' : Engine) : Prop := exists ev, own ev = true /\ step ev e = Some e'.
(** The engine can do nothing of its own. *)
Definition settled (e : Engine) : Prop := forall ev, own ev = true -> step ev e = None.

(** * Termination *)

Definition scan_work (s : Scan) : nat := 2 * length (pending_jobs s).
Definition phase_work (p : Phase) : nat :=
  match p with
  | Waiting => 1
  | Taken s => 6 + scan_work s
  | Begun _ _ s => 5 + scan_work s
  | Working _ _ r => 3 + 2 * length (run_feed r) + length (run_busy r) + match run_fed r with None => 1 | Some _ => 0 end
  | Ending _ _ => 2
  | Exited => 0
  end.
Definition cancel_work (c : Canceling) : nat := match c with CancelRead _ => 3 | CancelMarked _ _ => 2 | CancelSignaled _ => 1 end.
Definition queue_work (q : list Scan) : nat := list_sum ((fun s => 6 + scan_work s)%nat <$> q).
#[local] Arguments queue_work : simpl never.
Definition work (e : Engine) : nat :=
  queue_work (en_queue e) + phase_work (en_phase e) + list_sum (cancel_work <$> en_cancels e) + (if en_done e then 0 else 1).

Lemma queue_work_cons s q : queue_work (s :: q) = (6 + scan_work s + queue_work q)%nat.
Proof. done. Qed.

Lemma list_sum_middle l l' k : list_sum (l ++ k :: l') = (k + list_sum (l ++ l'))%nat.
Proof. rewrite !list_sum_app. simpl. lia. Qed.

Lemma list_sum_insert (l : list Canceling) i c c' : l !! i = Some c -> (list_sum (cancel_work <$> <[i := c']> l) + cancel_work c = list_sum (cancel_work <$> l) + cancel_work c')%nat.
Proof.
  intros H. rewrite <- (take_drop_middle l i c H) at 2. rewrite insert_take_drop by (by eapply lookup_lt_Some).
  rewrite !fmap_app, !fmap_cons, !list_sum_middle. lia.
Qed.

Lemma list_sum_delete (l : list Canceling) i c : l !! i = Some c -> (list_sum (cancel_work <$> delete i l) + cancel_work c = list_sum (cancel_work <$> l))%nat.
Proof.
  intros H. rewrite <- (take_drop_middle l i c H) at 2. rewrite delete_take_drop, !fmap_app, fmap_cons, list_sum_middle. lia.
Qed.

Lemma run_step_work cfg done ev r r' n : run_step cfg done ev r = Some r' -> (phase_work (Working n done r') < phase_work (Working n done r))%nat.
Proof.
  destruct r as [scan started feed fed busy]. destruct ev; simpl; intros H.
  - destruct fed; [done|]. destruct feed; [done|]. case_match; [|done]. injection H as <-. simpl. rewrite length_app. simpl. lia.
  - destruct fed; [done|]. destruct feed; [|done]. injection H as <-. simpl. lia.
  - destruct fed; [by destruct why|]. destruct why; case_match; try done; injection H as <-; simpl; lia.
  - destruct (busy !! i) eqn:E; [|done]. injection H as <-. simpl. rewrite length_delete by (by eexists). apply lookup_lt_Some in E. lia.
  - destruct (done && _) eqn:E; [|done]. apply andb_true_iff in E as [_ E%bool_decide_eq_true]. injection H as <-. simpl. rewrite length_delete by done.
    destruct E as [j E]. apply lookup_lt_Some in E. lia.
  - done.
Qed.

Lemma cancel_signal_work run e : work (cancel_signal run e) = work e.
Proof. unfold cancel_signal. destruct (en_phase e) eqn:E; try done; case_bool_decide; try done; unfold work; simpl; by rewrite E. Qed.

Lemma cancel_signal_cancels run e : en_cancels (cancel_signal run e) = en_cancels e.
Proof. unfold cancel_signal. repeat case_match; done. Qed.

Lemma work_set_cancels c e : (work (set_cancels c e) + list_sum (cancel_work <$> en_cancels e) = work e + list_sum (cancel_work <$> c))%nat.
Proof. unfold work. simpl. lia. Qed.

Lemma cancel_step_work i now e e' : cancel_step Sum256 i now e = Some e' -> (work e' < work e)%nat.
Proof.
  unfold cancel_step. destruct (en_cancels e !! i) as [[scan|scan run|scan]|] eqn:El; [..|done].
  - unfold cancel_mark. intros [= <-]. set (e1 := if _ : bool then _ else _).
    assert (E : work e1 = work e /\ en_cancels e1 = en_cancels e) by (unfold e1; by case_match). destruct E as [E1 E2].
    pose proof (work_set_cancels (<[i:=CancelMarked scan (en_active e !! Scan_ID scan)]> (en_cancels e1)) e1) as W. rewrite E2 in W.
    pose proof (list_sum_insert _ i _ (CancelMarked scan (en_active e !! Scan_ID scan)) El) as L. simpl in L. rewrite E2. lia.
  - intros [= <-]. set (e1 := match run with Some _ => _ | None => _ end).
    assert (E : work e1 = work e /\ en_cancels e1 = en_cancels e) by (unfold e1; destruct run; [split; [apply cancel_signal_work|apply cancel_signal_cancels]|done]).
    destruct E as [E1 E2]. pose proof (work_set_cancels (<[i:=CancelSignaled scan]> (en_cancels e1)) e1) as W. rewrite E2 in W.
    pose proof (list_sum_insert _ i _ (CancelSignaled scan) El) as L. simpl in L. rewrite E2. lia.
  - intros [= <-]. pose proof (list_sum_delete _ i _ El) as L. simpl in L.
    change (work (set_cancels (delete i (en_cancels e)) e) < work e)%nat. pose proof (work_set_cancels (delete i (en_cancels e)) e). lia.
Qed.

Lemma save_progress_work scan e : work (save_progress Sum256 scan e) = work e.
Proof. destruct (save_progress_db Sum256 scan e) as [db ->]. done. Qed.

Lemma own_step_work e e' : own_step e e' -> (work e' < work e)%nat.
Proof.
  intros (ev & Ho & H). destruct ev; try discriminate Ho; simpl in H.
  - by eapply cancel_step_work.
  - destruct (_ && _) eqn:E; [|done]. apply andb_true_iff in E as [_ E%negb_true_iff]. injection H as <-. unfold work. rewrite E. simpl. lia.
  - destruct (en_phase e) eqn:Ep; try done. destruct (en_done e) eqn:E; [|done]. injection H as <-. unfold work. rewrite Ep. simpl. lia.
  - destruct (en_phase e) eqn:Ep; try done. destruct (en_queue e) as [|scan queue] eqn:Eq; [done|].
    unfold consumeCanceled in H. simpl in H. destruct (bool_decide _); injection H as <-; unfold work, finishCanceled, interrupt, save_scan; rewrite Ep, Eq, queue_work_cons; simpl; rewrite ?Ep; simpl; lia.
  - destruct (en_phase e) eqn:Ep; try done. destruct (en_queue e) as [|scan queue] eqn:Eq; [done|]. injection H as <-. unfold work. rewrite Ep, Eq, queue_work_cons. simpl. lia.
  - destruct (en_phase e) eqn:Ep; try done. injection H as <-. unfold beginScan. case_bool_decide; unfold work, finishCanceled, save_scan; rewrite Ep; simpl; lia.
  - destruct (en_phase e) eqn:Ep; try done. injection H as <-. unfold startRun. destruct (on_scans _ _) as [[] db]; unfold work, fail, save_scan; rewrite Ep; simpl; [|lia].
    unfold scan_work. change (pending_jobs (started_scan scan now)) with (pending_jobs scan). lia.
  - destruct (en_phase e) as [| | |n done r| |] eqn:Ep; try discriminate H. unfold run_event in H. destruct ev.
    all: try (destruct (run_step _ _ _ r) as [r'|] eqn:Es; [|done]; eapply (run_step_work _ _ _ _ _ n) in Es; injection H as <-).
    all: try (rewrite save_progress_work). all: try (unfold work; rewrite Ep; simpl in *; lia).
    destruct (run_fed r) eqn:Ef; [|done]. destruct (run_busy r) eqn:Eb; [|done]. injection H as <-.
    set (e1 := if _ : bool then _ else _). assert (E : exists db, e1 = set_db db e) by (unfold e1; case_match; [by eexists|apply save_or_fail_db]).
    destruct E as [db ->]. unfold work. rewrite Ep. simpl. rewrite Ef. lia.
  - destruct (en_phase e) eqn:Ep; try done. injection H as <-. unfold work. rewrite Ep. simpl. lia.
Qed.

Lemma own_step_wf : well_founded (flip own_step).
Proof. apply (well_founded_lt_compat _ work). intros e' e H. by apply own_step_work. Qed.

(** * Rest *)

(** At rest: nothing queued, no run, no call of [Cancel] under way; a closed
    engine has left its loop. *)
Record at_rest (e : Engine) : Prop := {
  rest_queue : en_queue e = [];
  rest_cancels : en_cancels e = [];
  rest_phase : if en_closed e then en_phase e = Exited else en_phase e = Waiting \/ en_phase e = Exited }.

Lemma settled_rest e : 1 <= Config_MaxConcurrent (en_cfg e) -> (en_done e = true -> en_closed e = true) -> settled e -> at_rest e.
Proof.
  intros Hmax Hdone H.
  assert (Hc : en_closed e = true -> en_done e = true).
  { intros Ec. specialize (H EvContextDone eq_refl). simpl in H. rewrite Ec in H. by destruct (en_done e). }
  assert (Hcan : en_cancels e = []).
  { specialize (H (EvCancelStep 0 0) eq_refl). simpl in H. unfold cancel_step in H. destruct (en_cancels e) as [|[] l]; [done|..]; simpl in H; try done. }
  assert (Hph : (en_phase e = Waiting /\ en_done e = false) \/ en_phase e = Exited).
  { destruct (en_phase e) as [|scan|n done scan|n done r|n id|] eqn:Ep; [| | | | |by right].
    - left. split; [done|]. specialize (H EvExit eq_refl). simpl in H. rewrite Ep in H. by destruct (en_done e).
    - specialize (H (EvBegin 0) eq_refl). simpl in H. by rewrite Ep in H.
    - specialize (H (EvStart 0) eq_refl). simpl in H. by rewrite Ep in H.
    - exfalso. destruct (run_busy r) as [|j busy] eqn:Eb.
      + destruct (run_fed r) as [window|] eqn:Ef.
        * specialize (H (EvRun (RunFinish 0)) eq_refl). simpl in H. rewrite Ep in H. simpl in H. by rewrite Ef, Eb in H.
        * destruct (run_feed r) as [|j feed] eqn:Ed.
          -- specialize (H (EvRun RunFed) eq_refl). simpl in H. rewrite Ep in H. simpl in H. by rewrite Ef, Ed in H.
          -- specialize (H (EvRun RunHand) eq_refl). simpl in H. rewrite Ep in H. simpl in H. rewrite Ef, Ed, Eb in H. simpl in H.
             unfold workerCount in H. destruct (_ <? _) eqn:El in H; [done|]. apply Z.ltb_ge in El.
             destruct (_ || _) eqn:Eo in El; [lia|]. rewrite orb_false_iff, !Z.ltb_ge in Eo. lia.
      + specialize (H (EvRun (RunCollect 0 None 0)) eq_refl). simpl in H. rewrite Ep in H. simpl in H. by rewrite Eb in H.
    - specialize (H EvEnd eq_refl). simpl in H. by rewrite Ep in H. }
  constructor; [|done|].
  - destruct (en_queue e) as [|scan queue] eqn:Eq; [done|]. destruct Hph as [[Ep _]|Ep].
    + specialize (H EvTake eq_refl). simpl in H. by rewrite Ep, Eq in H.
    + specialize (H (EvDrain 0) eq_refl). simpl in H. rewrite Ep, Eq in H. destruct (consumeCanceled _ _) as [[] ?]; done.
  - destruct (en_closed e) eqn:Ec; [|by destruct Hph as [[]|]; [left|right]]. destruct Hph as [[_ Ed]|]; [|done]. by rewrite Hc in Ed.
Qed.

Lemma step_done ev e e' : step ev e = Some e' -> (en_done e = true -> en_closed e = true) -> (en_done e' = true -> en_closed e' = true).
Proof.
  intros H He. destruct ev; simpl in H; repeat case_match; try discriminate H; simplify_eq/=; try done.
  all: unfold Schedule, cancel_read, cancel_step, cancel_mark, beginScan, startRun, run_event, consumeCanceled in *; repeat case_match; simplify_eq/=; try done.
  all: try (unfold cancel_signal; repeat case_match; done). all: try (by (intros Hd; apply He in Hd)).
  - by intros _; apply He.
  - match goal with |- context [save_progress Sum256 ?s ?x] => destruct (save_progress_db Sum256 s x) as [db ->] end. done.
  - match goal with |- context [save_or_fail Sum256 ?s ?t ?x] => destruct (save_or_fail_db Sum256 s t x) as [db ->] end. done.
Qed.

Lemma step_cfg ev e e' : step ev e = Some e' -> en_cfg e' = en_cfg e.
Proof.
  intros H. destruct ev; simpl in H; repeat case_match; try discriminate H; simplify_eq/=; try done.
  all: unfold Schedule, cancel_read, cancel_step, cancel_mark, beginScan, startRun, run_event, consumeCanceled in *; repeat case_match; simplify_eq/=; try done.
  all: try (unfold cancel_signal; repeat case_match; done).
  - match goal with |- context [save_progress Sum256 ?s ?x] => destruct (save_progress_db Sum256 s x) as [db ->] end. done.
  - match goal with |- context [save_or_fail Sum256 ?s ?t ?x] => destruct (save_or_fail_db Sum256 s t x) as [db ->] end. done.
Qed.

(** * The store *)

(** The last save of an event that ends or starts a scan's run succeeds. *)
Definition final_saved (ev : Event) (e : Engine) : bool :=
  let saved scan now := stores Sum256 scan (en_db e) || match on_scans (Save Sum256 scan) (en_db e) with
    | (Err err, db) => stores Sum256 (failed_scan scan err now) db | (Ok _, _) => true end in
  match ev, en_phase e with
  | EvStart now, Begun _ _ scan => saved (started_scan scan now) now
  | EvRun (RunFinish now), Working _ done r =>
      match run_fed r with
      | None => true
      | Some window =>
          let scan := finished_scan (en_done e) done window (run_started r) now (run_scan r) in
          if en_done e || done then stores Sum256 scan (en_db e) else saved scan now
      end
  | EvBegin now, Taken scan => if bool_decide (Scan_ID scan ∈ en_canceled e) then stores Sum256 (canceled_scan scan now) (en_db e) else true
  | EvDrain now, Exited =>
      match en_queue e with
      | [] => true
      | scan :: _ => if bool_decide (Scan_ID scan ∈ en_canceled e) then stores Sum256 (canceled_scan scan now) (en_db e)
                     else stores Sum256 (interrupted_scan scan "scan canceled during process shutdown" now) (en_db e)
      end
  | EvSchedule scan later, _ =>
      if en_closed e || (Z.of_nat (length (en_queue e)) <? Config_QueueSize (en_cfg e)) then true
      else match on_scans (Save Sum256 scan) (en_db e) with
           | (Err _, _) => true
           | (Ok _, db) => stores Sum256 (interrupted_scan scan ErrQueueFull later) db
           end
  | _, _ => true
  end.

Fixpoint all_saved (evs : list Event) (e : Engine) : bool :=
  match evs with
  | [] => true
  | ev :: evs => final_saved ev e && match step ev e with Some e => all_saved evs e | None => true end
  end.

Definition scan_rows (db : PolicyDb) : list ScanRow := sdb_scans (pdb_scans db).

Lemma save_rows scan db r db' : on_scans (Save Sum256 scan) db = (r, db') -> 
  match r with
  | Ok _ => forall row, row ∈ scan_rows db' -> (row ∈ scan_rows db /\ sr_id row <> Scan_ID scan) \/ (sr_id row = Scan_ID scan /\ sr_status row = Scan_Status scan)
  | Err _ => db' = db
  end.
Proof.
  unfold on_scans, scan_rows. destruct (Save Sum256 scan (pdb_scans db)) as [[[]|err] s] eqn:E; intros [= <- <-].
  - apply Save_runs in E as (_ & a & a' & _ & _ & ->). simpl. intros row [H|H]%elem_of_app.
    + apply elem_of_without in H as [H Hn%bool_decide_eq_false]. by left.
    + apply list_elem_of_singleton in H as ->. by right.
  - unfold Save, transaction in E. assert (s = pdb_scans db) as -> by (destruct (if negb _ then _ else _) in E; congruence). by destruct db.
Qed.

Lemma store_rows scan db row : row ∈ scan_rows (store_scan Sum256 scan db) ->
  (row ∈ scan_rows db /\ (stores Sum256 scan db = true -> sr_id row <> Scan_ID scan)) \/ (sr_id row = Scan_ID scan /\ sr_status row = Scan_Status scan).
Proof.
  unfold store_scan, stores. destruct (on_scans (Save Sum256 scan) db) as [r db'] eqn:E. apply save_rows in E. simpl. destruct r.
  - intros H. apply E in H as [[]|]; [left|right]; done.
  - intros H. left. by rewrite E in H.
Qed.

(** The scans the engine holds, and a store in which only they are queued or running. *)
Definition phase_id (p : Phase) : list string :=
  match p with Taken s | Begun _ _ s => [Scan_ID s] | Working _ _ r => [Scan_ID (run_scan r)] | Waiting | Ending _ _ | Exited => [] end.
Definition in_hand (e : Engine) : list string := phase_id (en_phase e) ++ (Scan_ID <$> en_queue e).
Definition only_active (ids : list string) (db : PolicyDb) : Prop := forall row, row ∈ scan_rows db -> interrupted row = true -> sr_id row ∈ ids.
Definition inactive (scan : Scan) : Prop := Scan_Status scan <> StatusQueued /\ Scan_Status scan <> StatusRunning.

Lemma only_active_more ids ids' db : ids ⊆ ids' -> only_active ids db -> only_active ids' db.
Proof. intros Hs H row Hr Hi. apply Hs, H; done. Qed.

Lemma save_inactive scan ids db : inactive scan -> only_active ids db -> only_active ids (store_scan Sum256 scan db).
Proof.
  intros [H1 H2] H row [[Hr _]|[Hi Hs]]%store_rows Ha; [by apply H|]. unfold interrupted in Ha. rewrite Hs, orb_true_iff, !bool_decide_eq_true in Ha. by destruct Ha.
Qed.

Lemma save_held scan ids db : Scan_ID scan ∈ ids -> only_active ids db -> only_active ids (store_scan Sum256 scan db).
Proof. intros Hin H row [[Hr _]|[-> _]]%store_rows Ha; [by apply H|done]. Qed.

Lemma save_final scan ids db : inactive scan -> stores Sum256 scan db = true -> only_active (Scan_ID scan :: ids) db -> only_active ids (store_scan Sum256 scan db).
Proof.
  intros [H1 H2] Hs H row [[Hr Hn]|[Hi Ht]]%store_rows Ha.
  - specialize (H row Hr Ha). apply elem_of_cons in H as [H|H]; [by apply Hn in Hs|done].
  - unfold interrupted in Ha. rewrite Ht, orb_true_iff, !bool_decide_eq_true in Ha. by destruct Ha.
Qed.

Lemma failed_inactive scan m now : inactive (failed_scan scan m now). Proof. done. Qed.
Lemma canceled_inactive scan now : inactive (canceled_scan scan now). Proof. done. Qed.
Lemma interrupted_inactive scan m now : inactive (interrupted_scan scan m now).
Proof. unfold interrupted_scan. by case_bool_decide. Qed.
Lemma finished_inactive stopping canceled window started now scan : inactive (finished_scan stopping canceled window started now scan).
Proof. unfold finished_scan. destruct stopping; [apply interrupted_inactive|]. destruct canceled; [apply canceled_inactive|]. by case_match. Qed.
Lemma interrupted_id scan m now : Scan_ID (interrupted_scan scan m now) = Scan_ID scan.
Proof. unfold interrupted_scan. by case_bool_decide. Qed.
Lemma finished_id stopping canceled window started now scan : Scan_ID (finished_scan stopping canceled window started now scan) = Scan_ID scan.
Proof. unfold finished_scan. destruct stopping; [apply interrupted_id|]. destruct canceled; [done|]. by case_match. Qed.

(** A scan's last save, or the one of its failure. *)
Lemma save_or_fail_final scan ids now e : inactive scan -> only_active (Scan_ID scan :: ids) (en_db e) ->
  stores Sum256 scan (en_db e) || match on_scans (Save Sum256 scan) (en_db e) with
    | (Err err, db) => stores Sum256 (failed_scan scan err now) db | (Ok _, _) => true end = true ->
  only_active ids (en_db (save_or_fail Sum256 scan now e)).
Proof.
  intros Hi H Hs. unfold save_or_fail. destruct (on_scans (Save Sum256 scan) (en_db e)) as [r db] eqn:E. pose proof (save_rows _ _ _ _ E) as Hrows.
  destruct r as [[]|err].
  - replace db with (store_scan Sum256 scan (en_db e)) by (unfold store_scan; by rewrite E). apply save_final; [done| |done]. unfold stores. by rewrite E.
  - subst db. unfold stores in Hs at 1. rewrite E in Hs. simpl in Hs. apply (save_final (failed_scan scan err now)); [apply failed_inactive|done|done].
Qed.

Lemma run_step_id cfg done ev r r' : run_step cfg done ev r = Some r' -> Scan_ID (run_scan r') = Scan_ID (run_scan r).
Proof.
  destruct r as [scan started feed fed busy]. destruct ev; simpl; intros H; repeat case_match; try done; simplify_eq/=; try done.
  unfold collected_scan. by case_match.
Qed.

Lemma step_only_active ev e e' : final_saved ev e = true -> step ev e = Some e' -> only_active (in_hand e) (en_db e) -> only_active (in_hand e') (en_db e').
Proof.
  intros Hf H Ha. unfold in_hand in *. destruct ev; simpl in H.
  - injection H as <-. simpl in Hf. unfold Schedule. destruct (en_closed e); [done|]. simpl in Hf.
    destruct (on_scans (Save Sum256 scan) (en_db e)) as [r db] eqn:E. pose proof (save_rows _ _ _ _ E) as Hrows. destruct r as [[]|err]; [|simpl; by rewrite Hrows].
    assert (Hd : db = store_scan Sum256 scan (en_db e)) by (unfold store_scan; by rewrite E).
    assert (Ha' : only_active (Scan_ID scan :: phase_id (en_phase e) ++ (Scan_ID <$> en_queue e)) db).
    { rewrite Hd. apply save_held; [by left|]. eapply only_active_more; [|exact Ha]. by apply list_subseteq_skip, list_subseteq_nil || intros x Hx; by right. }
    simpl. destruct (_ <? _); simpl.
    + eapply only_active_more; [|exact Ha']. intros x. rewrite fmap_app, !elem_of_cons, !elem_of_app. simpl. rewrite list_elem_of_singleton. naive_solver.
    + apply (save_final (interrupted_scan scan ErrQueueFull later)); [apply interrupted_inactive|done|by rewrite interrupted_id].
  - injection H as <-. unfold cancel_read. destruct (Get _ _); [|done]. by case_match.
  - unfold cancel_step in H. destruct (en_cancels e !! i) as [[scan|scan run|scan]|]; [..|done].
    + unfold cancel_mark in H. injection H as <-. by case_match.
    + injection H as <-. destruct run as [run|]; [|done]. unfold cancel_signal. destruct (en_phase e) eqn:Ep; simpl; rewrite ?Ep; try done; case_bool_decide; simpl; by rewrite ?Ep.
    + injection H as <-. apply save_inactive; [apply canceled_inactive|done].
  - destruct (en_closed e); [done|]. by injection H as <-.
  - destruct (_ && _); [|done]. by injection H as <-.
  - destruct (en_phase e) eqn:Ep; try discriminate H. destruct (en_done e); [|done]. by injection H as <-.
  - simpl in Hf. destruct (en_phase e) eqn:Ep; try discriminate H. destruct (en_queue e) as [|scan queue] eqn:Eq; [done|].
    unfold consumeCanceled in H. simpl in H. destruct (bool_decide _) in H, Hf; injection H as <-; simpl; rewrite Ep; simpl.
    + apply (save_final (canceled_scan scan now)); [apply canceled_inactive|done|done].
    + apply (save_final (interrupted_scan scan _ now)); [apply interrupted_inactive|done|by rewrite interrupted_id].
  - destruct (en_phase e) eqn:Ep; try discriminate H. destruct (en_queue e) as [|scan queue] eqn:Eq; [done|]. by injection H as <-.
  - simpl in Hf. destruct (en_phase e) as [|scan| | | |] eqn:Ep; try discriminate H. injection H as <-. unfold beginScan. destruct (bool_decide _); [|done]. simpl.
    apply (save_final (canceled_scan scan now)); [apply canceled_inactive|done|done].
  - simpl in Hf. destruct (en_phase e) as [| |n done scan| | |] eqn:Ep; try discriminate H. injection H as <-. unfold startRun. unfold stores in Hf at 1.
    destruct (on_scans (Save Sum256 (started_scan scan now)) (en_db e)) as [r db] eqn:E. pose proof (save_rows _ _ _ _ E) as Hrows. destruct r as [[]|err]; simpl.
    + assert (Hd : db = store_scan Sum256 (started_scan scan now) (en_db e)) by (unfold store_scan; by rewrite E). rewrite Hd. apply save_held; [by left|done].
    + subst db. apply (save_final (failed_scan (started_scan scan now) err now)); [apply failed_inactive|done|done].
  - destruct (en_phase e) as [| | |n done r| |] eqn:Ep; try discriminate H. unfold run_event in H. destruct ev.
    all: try (destruct (run_step _ _ _ r) as [r'|] eqn:Es; [|done]; assert (Ei : Scan_ID (run_scan r') = Scan_ID (run_scan r)) by (by eapply run_step_id); injection H as <-).
    all: try (unfold save_progress; case_match; [|simpl; by rewrite Ei]; simpl; rewrite Ei; apply save_held; [rewrite Ei; by left|done]).
    all: try (simpl; by rewrite Ei).
    destruct (run_fed r) as [window|] eqn:Ef; [|done]. destruct (run_busy r) eqn:Eb; [|done]. injection H as <-.
    simpl in Hf. rewrite Ep, Ef in Hf. destruct (en_done e || done) eqn:Eo; simpl.
    + apply save_final; [apply finished_inactive|done|by rewrite finished_id].
    + destruct (save_or_fail_db Sum256 (finished_scan (en_done e) done window (run_started r) now (run_scan r)) now e) as [db Edb].
      assert (Hfin : only_active (Scan_ID <$> en_queue e) (en_db (save_or_fail Sum256 (finished_scan (en_done e) done window (run_started r) now (run_scan r)) now e)))
        by (apply save_or_fail_final; [apply finished_inactive|by rewrite finished_id|done]).
      rewrite Edb in *. exact Hfin.
  - destruct (en_phase e) eqn:Ep; try discriminate H. by injection H as <-.
Qed.

Lemma New_inactive julian_seconds cfg now db e : New julian_seconds cfg now db = Ok e -> only_active (in_hand e) (en_db e).
Proof.
  unfold New. intros H. apply bind_ok in H as (v & _ & H). destruct (EnsureDefaultScopePolicy _ db) as [[] db1]; [|done].
  unfold on_scans, ReconcileInterrupted in H. injection H as <-. unfold in_hand, only_active, scan_rows. simpl. intros row Hr Hi. exfalso.
  apply elem_of_update_where in Hr as (row0 & _ & ->). destruct (interrupted row0) eqn:E0; [|congruence].
  unfold interrupted, reconcile_row in Hi. simpl in Hi. by destruct (bool_decide (sr_scan_policy_id row0 = ""%string)).
Qed.

Lemma runs_rest evs e e' : runs evs e = Some e' -> en_cfg e' = en_cfg e /\ ((en_done e = true -> en_closed e = true) -> en_done e' = true -> en_closed e' = true) /\
  (all_saved evs e = true -> only_active (in_hand e) (en_db e) -> only_active (in_hand e') (en_db e')).
Proof.
  revert e. induction evs as [|ev evs IH]; intros e H; simpl in *; [by injection H as <-|].
  destruct (step ev e) as [e1|] eqn:Es; [|done]. destruct (IH e1 H) as (E1 & E2 & E3). split; [|split].
  - rewrite E1. by eapply step_cfg.
  - intros Hd. apply E2. by eapply step_done.
  - intros [Hf Ha]%andb_true_iff Ho. apply E3; [done|]. by eapply step_only_active.
Qed.

(** C4: Everything the engine accepts comes to an end. From any state an engine
    reaches, its goroutines' own actions (those of runs, of calls of [Cancel]
    under way and of the shutdown) form no infinite sequence, whatever probes
    find and however they interleave. When none is left, no scan is queued or
    running in the engine, no cancellation is pending and a closed engine has
    left its loop; and if the last save of each scan succeeded, no scan in the
    store is queued or running. *)
Theorem engine_comes_to_rest julian_seconds cfg now db e0 evs e : New julian_seconds cfg now db = Ok e0 -> runs evs e0 = Some e ->
  Acc (flip own_step) e /\
  (settled e -> at_rest e /\
    (all_saved evs e0 = true -> forall row, row ∈ sdb_scans (pdb_scans (en_db e)) -> sr_status row <> StatusQueued /\ sr_status row <> StatusRunning)).
Proof.
  intros Hn Hr. pose proof (New_inactive _ _ _ _ _ Hn) as H0. apply New_ok in Hn as (_ & Ecfg & Hmax & _ & _ & _ & Hc & Hd).
  destruct (runs_rest _ _ _ Hr) as (E1 & E2 & E3). split; [apply own_step_wf|]. intros Hs.
  assert (Hrest : at_rest e) by (apply settled_rest; [by rewrite E1, Ecfg|by apply E2; rewrite Hd|done]). split; [done|].
  intros Hsaved row Hrow. specialize (E3 Hsaved H0 row Hrow). destruct Hrest as [Eq _ Ep]. unfold in_hand in E3. rewrite Eq in E3.
  assert (Eph : phase_id (en_phase e) = []) by (destruct (en_closed e); [by rewrite Ep|by destruct Ep as [->| ->]]). rewrite Eph in E3.
  unfold interrupted in E3. split; intros Est; rewrite Est in E3; simpl in E3; specialize (E3 eq_refl); by apply not_elem_of_nil in E3.
Qed.
End Liveness.

(** Both stores. *)
Definition Stores : Type := PolicyDb * Db.

Section Remote.
Context `{JobCrypto} `{!JobCryptoLaws} (key : PrivateKey) (Sum256 : string -> string).

Definition save_to_stores (scan : Scan) : st Stores unit := fun s => let '(r, p) := on_scans (Save Sum256 scan) s.1 in (r, (p, s.2)).
Definition dispatch_to_stores (job : WorkerJob) (now : Time) : st Stores SignedWorkerJob := fun s => let '(r, d) := Dispatch (newSigner key) job now s.2 in (r, (s.1, d)).

(** [Launch] of scanlaunch/service.go with the local engine [Schedule]. *)
Definition launch (Schedule : Scan -> st Stores unit) (scan : Scan) (policy : ReusableScanPolicy) (now later : Time) : st Stores unit :=
  LaunchScan save_to_stores Schedule (Some dispatch_to_stores) scan policy now later.

Definition queued (scan : Scan) : Scan := with_status scan StatusQueued (Scan_Error scan) (Scan_StartedAt scan) (Scan_CompletedAt scan) (Scan_WindowEnd scan).
Definition dispatch_failed (scan : Scan) (later : Time) : Scan :=
  with_status (queued scan) StatusFailed "remote scanner-worker dispatch failed" (Scan_StartedAt scan) (Some later) (Scan_WindowEnd scan).

Lemma launch_remote Schedule scan policy now later p d : Policy_ExecutionMode policy = ScanExecutionRemote ->
  let expiry := remote_expiry scan now in
  launch Schedule scan policy now later (p, d) =
    if negb (After expiry now) then (Err "remote scan execution window has ended"%string, (p, d))
    else match on_scans (Save Sum256 (queued scan)) p with
    | (Err e, p') => (Err e, (p', d))
    | (Ok _, p') =>
        match Dispatch (newSigner key) (remote_job (queued scan) policy now expiry) now d with
        | (Ok _, d') => (Ok tt, (p', d'))
        | (Err e, d') => (Err e, (store_scan Sum256 (dispatch_failed scan later) p', d'))
        end
    end.
Proof.
  intros Hm expiry. unfold launch, LaunchScan. rewrite Hm. change (bool_decide (ScanExecutionRemote = "")%string || bool_decide (ScanExecutionRemote = ScanExecutionLocal)) with false.
  change (negb (bool_decide (ScanExecutionRemote = ScanExecutionRemote))) with false. cbv iota. unfold launchRemote. fold expiry.
  destruct (negb (After expiry now)); [done|]. unfold save_to_stores at 1. simpl. fold (queued scan).
  destruct (on_scans (Save Sum256 (queued scan)) p) as [[[]|e] p']; [|done]. unfold dispatch_to_stores. simpl.
  destruct (Dispatch _ _ now d) as [[envelope|e] d']; [done|]. unfold save_to_stores, store_scan. simpl.
  change (with_status (queued scan) StatusFailed "remote scanner-worker dispatch failed" (Scan_StartedAt scan) (Some later) (Scan_WindowEnd scan)) with (dispatch_failed scan later). by destruct (on_scans _ _).
Qed.

Lemma remote_expiry_bounds scan now : remote_expiry scan now <= Add now defaultRemoteJobLifetime /\ forall t, Scan_WindowEnd scan = Some t -> remote_expiry scan now <= t.
Proof.
  unfold remote_expiry. destruct (Scan_WindowEnd scan) as [t|]; [|done]. unfold Before. destruct (Z.ltb_spec t (Add now defaultRemoteJobLifetime)); (split; [lia|]); intros ? [= <-]; lia.
Qed.


Lemma Dispatch_existing job now d : (exists row, query_row (has_id (Job_ID job)) (db_jobs d) = Some row) ->
  exists e, Dispatch (newSigner key) job now d = (Err e, d).
Proof.
  intros (row & Hq). pose proof (Dispatch_inv key job now d) as D. destruct (Dispatch _ job now d) as [[envelope|e] d']; [|exists e; congruence].
  destruct D as (worker & _ & _ & _ & Es & Ec). apply Sign_job in Es. pose proof (create_cases envelope now d) as C. cbv zeta in C. rewrite Ec in C.
  destruct C as [C _]. rewrite Es in C. change (Job_ID (jobForWorker job worker)) with (Job_ID job) in C. congruence.
Qed.

(** After a restart a remote scan is lost: recovery pauses it although its job
    runs on at the worker, the scheduler launches the paused scan again, its job
    identifier exists already, and the scan is stored as failed. *)
Theorem restarted_remote_scan_fails julian_seconds Schedule scan policy restart now later p d row p1 :
  Policy_ExecutionMode policy = ScanExecutionRemote -> Scan_ScanPolicyID scan <> ""%string ->
  query_row (has_id ("scan-" +:+ Scan_ID scan)%string) (db_jobs d) = Some row ->
  store_scan Sum256 (queued scan) p = p1 -> stores Sum256 (queued scan) p = true ->
  let p2 := (on_scans (ReconcileInterrupted julian_seconds restart) p1).2 in
  (forall r, r ∈ scan_rows p2 -> sr_id r = Scan_ID scan -> sr_status r = StatusPaused) /\
  (After (remote_expiry scan now) now = true -> stores Sum256 (queued scan) p2 = true ->
   stores Sum256 (dispatch_failed scan later) (store_scan Sum256 (queued scan) p2) = true ->
   exists e p3, launch Schedule scan policy now later (p2, d) = (Err e, (p3, d)) /\
     forall r, r ∈ scan_rows p3 -> sr_id r = Scan_ID scan -> sr_status r = StatusFailed).
Proof.
  intros Hm Hpid Hq <- Hs1 p2. split.
  - intros r Hr Hid. unfold p2, on_scans, ReconcileInterrupted, scan_rows in Hr. simpl in Hr. apply elem_of_update_where in Hr as (r0 & Hr0 & ->).
    assert (Hid0 : sr_id r0 = Scan_ID scan) by (by destruct (interrupted r0)).
    unfold stores in Hs1. destruct (on_scans (Save Sum256 (queued scan)) p) as [[[]|] px] eqn:E; [|done].
    assert (Ex : px = store_scan Sum256 (queued scan) p) by (unfold store_scan; by rewrite E).
    assert (Hr1 : r0 ∈ scan_rows px) by (by rewrite Ex).
    assert (Hrow : sr_status r0 = StatusQueued /\ sr_scan_policy_id r0 = Scan_ScanPolicyID scan).
    { revert E Hr1. unfold on_scans, scan_rows. destruct (Save Sum256 (queued scan) (pdb_scans p)) as [r' s'] eqn:Esv. intros [= -> <-] Hr1. simpl in Hr1.
      apply Save_runs in Esv as (_ & a & a' & _ & _ & ->). simpl in Hr1. apply elem_of_app in Hr1 as [Hr1|Hr1].
      - apply elem_of_without in Hr1 as [_ Hn%bool_decide_eq_false]. done.
      - apply list_elem_of_singleton in Hr1 as ->. done. }
    destruct Hrow as [Hst Hpol]. unfold interrupted. rewrite Hst. simpl. rewrite Hpol, bool_decide_eq_false_2 by done. done.
  - intros Ha Hs2 Hs3. rewrite launch_remote by done. cbv zeta. rewrite Ha. simpl negb. cbv iota.
    unfold stores in Hs2. destruct (on_scans (Save Sum256 (queued scan)) p2) as [[[]|] px] eqn:E; [|done].
    assert (Ex : px = store_scan Sum256 (queued scan) p2) by (unfold store_scan; by rewrite E).
    destruct (Dispatch_existing (remote_job (queued scan) policy now (remote_expiry scan now)) now d) as [e ->]; [by exists row|].
    eexists e, _. split; [done|]. intros r Hr Hid. rewrite Ex in Hr. apply store_rows in Hr as [[_ Hn]|[_ Ht]]; [by apply Hn in Hs3|done].
Qed.
End Remote.
