(* ===== verification/ScanEngineExamples.v ===== *)
(** Schedules, windows, the scheduler's turns, the engine and a remote launch at
    concrete scans: the theorems' witnesses, and behaviours the documentation
    does not promise. *)
From Stdlib Require Import ZArith Lia String Ascii.
From stdpp Require Import base tactics list strings gmap sets relations.
From S2P Require Import Prelude GoStrings GoTime GoLocation Netip NetAddr WorkerModel WorkerJob Dispatcher Sql WorkerStore WorkerDispatch WorkerExamples WorkerExecutor ScanModel ScanScope AssetStore AssetSafety ScanStore ScanStoreSafety ScanStoreExamples ScanPolicyStore ScanSchedule ScanEngine ScanScheduleSafety ScanEngineSafety ScanEngineLiveness.
Open Scope string_scope.
Open Scope Z_scope.

(** Two zones: UTC and one two hours ahead. *)
#[export] Instance sample_zones : TimeZones := {|
  LoadLocation name := if bool_decide (name = "UTC") then Some utc_location else if bool_decide (name = "Europe/Kyiv") then Some (FixedZone 7200) else None |}.

(** A cron schedule that fires every hour, and one that never does. *)
Definition hourly (expression : string) : option (Location -> Time -> Time) :=
  Some (fun _ after => (after / (3600 * Second) + 1) * (3600 * Second)).
Definition never (expression : string) : option (Location -> Time -> Time) := Some (fun _ _ => ZeroTime).

(** Two hours past the start of day [n]. *)
Definition at_hour (n hour : Z) : Time := sample_day n + hour * Hour.

Definition night_policy : ReusableScanPolicy :=
  mkScanPolicy "nightly" "Nightly" "default" [] [22; 80] true "daily" "23:00" "UTC" "22:00" "06:00" false 0 0 ScanExecutionLocal ""
    (Some (at_hour 5 23)) None.
Definition kyiv_policy : ReusableScanPolicy :=
  mkScanPolicy "kyiv" "Kyiv" "default" [] [22] true "daily" "01:00" "Europe/Kyiv" "08:30" "17:00" true 0 0 ScanExecutionLocal "" (Some (at_hour 5 23)) None.

Definition sample_store : PolicyDb :=
  mkPolicyDb (set_scan_assets (set_members [mkMemberRow "g1" host5 "" "ann"] (sdb_assets sample_scans)) sample_scans)
    [mkGroupRow "g1" "Hosts" "" "" ""] [sample_scope]
    [mkPolicyRow night_policy (Some (formatTime (at_hour 5 23))) None; mkPolicyRow kyiv_policy (Some (formatTime (at_hour 5 23))) None]
    [mkPolicyGroupRow "nightly" "g1" 0; mkPolicyGroupRow "kyiv" "g1" 0].

Definition sample_launch (scan : Scan) (policy : ReusableScanPolicy) : st PolicyDb unit := on_scans (Save sample_hash scan).
Definition sample_engine : Validator := mkValidator sample_config [].
Definition sample_id (policy : string) : string := "run-of-" +:+ policy.

Definition sample_tick (now : Time) (db : PolicyDb) : PolicyDb :=
  (tick hourly sample_lookup sample_engine None sample_launch sample_id now (db, at_hour 5 0)).1.

(** At 23:00 the nightly policy runs; the other one is outside its window and
    is only moved on. *)
Example night_tick : let db := sample_tick (at_hour 5 23) sample_store in
  (fun r => (sr_id r, sr_status r, sr_total r)) <$> sdb_scans (pdb_scans db) =
    [("scan-1", "completed", 2); ("scan-2", "completed", 2); ("run-of-nightly", "queued", 4)] /\
  pr_next_run_at <$> pdb_policies db = [Some (formatTime (at_hour 6 0)); Some (formatTime (at_hour 6 0))].
Proof. vm_compute. split; reflexivity. Qed.

Lemma sample_launch_launches : launches sample_launch.
Proof.
  intros scan policy db r. unfold sample_launch, on_scans. destruct (Save sample_hash scan (pdb_scans db)) as [[[]|e] s] eqn:E.
  - apply Save_runs in E as (_ & a & a' & _ & _ & ->). simpl. intros [H|H]%elem_of_app.
    + apply elem_of_without in H as [H _]. by left.
    + apply list_elem_of_singleton in H as ->. by right.
  - intros H. left. unfold Save, transaction in E.
    destruct (if negb _ then _ else _) in E; [discriminate E|]. injection E as _ <-. exact H.
Qed.

Lemma window_exact_witness : exists inside t, Window night_policy (at_hour 5 23) = Ok (inside, Some t) /\ (inside = true -> at_hour 5 23 < t <= at_hour 5 23 + 86400 * Second).
Proof.
  destruct (window_exact night_policy utc_location 0 (at_hour 5 23) (22, 0) (6, 0)) as (i & t & H1 & _ & H2 & _);
    [reflexivity|intros sec; by do 2 eexists|vm_compute; reflexivity..|vm_compute; discriminate|]. exists i, t. by split.
Defined.

(** A launcher that fails for every other scan is indistinguishable. *)
Definition only_queued (scan : Scan) (policy : ReusableScanPolicy) : st PolicyDb unit := fun db =>
  if bool_decide (Scan_Status scan = StatusQueued) then sample_launch scan policy db else (Err "not queued", db).


Lemma tick_single_flight_witness :
  single_flight (sdb_scans (pdb_scans (sample_tick (at_hour 5 23) sample_store))).
Proof.
  apply (tick_single_flight hourly sample_lookup sample_engine None sample_id sample_launch (at_hour 5 23) sample_store (at_hour 5 0)).
  - exact sample_launch_launches.
  - apply (bool_decide_eq_true_1 _). vm_compute. reflexivity.
  - apply (bool_decide_eq_true_1 _). vm_compute. reflexivity.
  - intros r r' Hr Hr' Ha. exfalso.
    assert (E : forallb (fun r => negb (active_row r)) (sdb_scans (pdb_scans sample_store)) = true) by (vm_compute; reflexivity).
    rewrite forallb_forall in E. apply list_elem_of_In, E in Hr. rewrite Ha in Hr. discriminate Hr.
Defined.

(** * Corners *)

(** A window whose texts carry spaces passes validation, which trims them, but
    [Window] reads the stored texts untrimmed: both clocks become 00:00 and the
    window never closes. *)
Theorem padded_window_never_closes policy loc off now :
  LoadLocation (Policy_ScheduleTimezone policy) = Some loc -> fixed_zone loc off ->
  Policy_WindowStart policy = " 22:00" -> Policy_WindowEnd policy = " 06:00" ->
  validateWindow (Policy_WindowStart policy) (Policy_WindowEnd policy) = Ok tt /\ exists t, Window policy now = Ok (true, Some t).
Proof.
  intros Hl Hf Hs He. rewrite Hs, He. split; [vm_compute; reflexivity|]. unfold Window. rewrite Hl, Hs, He.
  change (bool_decide (" 22:00" = "")) with false. change (clock_or_zero " 22:00") with (0, 0). change (clock_or_zero " 06:00") with (0, 0). cbv iota.
  pose proof (today_at loc off now 0 0 Hf) as E. destruct (Date_of loc now) as [[y mo] d]. rewrite E. unfold After, Before. rewrite Z.ltb_irrefl. simpl negb. cbv iota.
  pose proof (wall_seconds_fixed loc off now Hf) as Ew. unfold Unix in Ew.
  set (midnight := (wall_seconds loc now / 86400 * 86400 + (0 * 60 + 0) * 60 - off) * Second).
  assert (Hge : midnight <= now) by (subst midnight; unfold Second in *; Z.to_euclidean_division_equations; lia).
  assert (Hlt : now < midnight + 86400 * Second) by (subst midnight; unfold Second in *; Z.to_euclidean_division_equations; lia).
  clearbody midnight. rewrite (proj2 (Z.ltb_ge now midnight)) by lia. rewrite (AddDays_fixed loc off) by done. eexists. do 3 f_equal.
  rewrite (proj2 (Z.ltb_ge now midnight)) by lia. simpl negb. apply Z.ltb_lt. lia.
Qed.

(** A cron expression that never fires is accepted: its next run is the zero
    time, which is always due, and which every turn leaves in place. *)
Theorem never_firing_schedule_always_due ParseStandard policy prepared now later schedule :
  Policy_ScheduleKind policy = "cron" -> ParseStandard (TrimSpace (Policy_ScheduleExpression policy)) = Some schedule ->
  (forall loc t, schedule loc t = ZeroTime) -> Prepare ParseStandard policy now = Ok prepared -> ZeroTime <= later ->
  Policy_NextRunAt prepared = Some ZeroTime /\ due prepared later = true /\
  forall loc, LoadLocation (Policy_ScheduleTimezone prepared) = Some loc -> Next ParseStandard prepared later loc = Ok ZeroTime.
Proof.
  intros Hk Hp Hz H Hlater. unfold Prepare in H. rewrite Hk in H. change (ToLower (TrimSpace "cron")) with "cron" in H.
  change (bool_decide ("cron" = "")) with false in H. cbv zeta iota in H. destruct (LoadLocation _) as [loc|]; [|done].
  apply bind_ok in H as (_ & _ & H). apply reject_ok in H as [_ H].
  change (bool_decide ("cron" = "manual")) with false in H. cbv iota in H.
  apply bind_ok in H as (next & Hn & [= <-]). unfold Next in Hn |- *. simpl in Hn |- *. unfold cron_next in *. rewrite Hp, Hz in Hn.
  injection Hn as <-. split; [done|]. split.
  - unfold due. simpl. apply negb_true_iff, Z.ltb_ge. done.
  - intros loc' _. simpl. rewrite Hp, Hz. done.
Qed.

Definition new_engine : Engine := match New sample_seconds sample_config (at_hour 9 0) sample_store with Ok e => e
  | Err _ => mkEngine sample_config [] sample_store [] true true ∅ ∅ Exited 0 [] end.
Lemma new_engine_ok : New sample_seconds sample_config (at_hour 9 0) sample_store = Ok new_engine.
Proof. vm_compute. reflexivity. Qed.

Definition adhoc_scan : Scan :=
  mkScan "adhoc" "Ad hoc" [{| Target_Name := "web"; Target_Address := "10.0.0.5"; Target_GroupIDs := [] |}] [22; 80] StatusQueued "" [] [] [] 2 0
    (at_hour 9 0) None None "default" 4 "" [] 0 None false 0.

Lemma adhoc_ready : scan_ready adhoc_scan.
Proof.
  constructor.
  - apply (bool_decide_eq_true_1 _). vm_compute. reflexivity.
  - repeat constructor; vm_compute; discriminate.
  - apply submseteq_nil_l.
Qed.

Definition ssh_probe : probeResult := mkProbe (sample_observation "o9" "web" "10.0.0.5" 22 "ssh" (at_hour 9 1)) [] (Ok []).

(** The scan runs: one check is made, the other is in a worker's hands. *)
Definition half_way : list Event :=
  [EvSchedule adhoc_scan 0; EvTake; EvBegin 0; EvStart (at_hour 9 0); EvRun RunHand; EvRun RunHand; EvRun (RunCollect 1 (Some ssh_probe) (at_hour 9 1))].
(** It completes. *)
Definition completes : list Event := half_way ++ [EvRun (RunCollect 0 None (at_hour 9 1)); EvRun RunFed; EvRun (RunFinish (at_hour 9 2)); EvEnd].
(** An analyst cancels it after its first save; the call's own save comes last. *)
Definition canceled_late : list Event :=
  [EvSchedule adhoc_scan 0; EvTake; EvBegin 0; EvStart (at_hour 9 0); EvCancel "adhoc"; EvRun RunHand; EvRun RunHand; EvRun (RunCollect 1 (Some ssh_probe) (at_hour 9 1));
   EvRun (RunCollect 0 None (at_hour 9 1)); EvRun RunFed; EvRun (RunFinish (at_hour 9 2)); EvEnd; EvCancelStep 0 (at_hour 9 3); EvCancelStep 0 (at_hour 9 3); EvCancelStep 0 (at_hour 9 3)].

Definition outcome (evs : list Event) : option (result (ScanStatus * Z * list string)) :=
  (fun e => match Get "adhoc" (pdb_scans (en_db e)) with
            | Ok s => Ok (Scan_Status s, Z.of_nat (length (Scan_Checkpoints s)), Observation_ID <$> Scan_Observations s) | Err err => Err err end)
  <$> engine_run sample_hash evs new_engine.

Example completes_outcome : outcome completes = Some (Ok ("completed", 2, ["o9"])).
Proof. vm_compute. reflexivity. Qed.

(** [Cancel] saves the scan as it read it, before the engine looked at its state:
    a scan that completes in between is stored as canceled, and its checks and
    its evidence are gone. Its identifier stays marked as canceled. *)
Theorem cancel_overwrites_completed : outcome canceled_late = Some (Ok ("canceled", 0, [])) /\
  (fun e => bool_decide ("adhoc" ∈ en_canceled e)) <$> engine_run sample_hash canceled_late new_engine = Some true.
Proof. vm_compute. split; reflexivity. Qed.

Definition half_state : Engine := default new_engine (engine_run sample_hash half_way new_engine).
Definition half_run : RunState := match en_phase half_state with Working _ _ r => r | _ => mkRun adhoc_scan 0 [] None [] end.

Lemma half_way_runs : engine_run sample_hash half_way new_engine = Some half_state.
Proof. vm_compute. reflexivity. Qed.
Lemma half_way_ready evs : Forall event_ready (half_way ++ List.map EvRun evs).
Proof. apply Forall_app. split; [repeat (constructor; [first [exact adhoc_ready|exact I]|]); constructor|]. induction evs as [|ev evs IH]; constructor; [exact I|exact IH]. Qed.

Lemma engine_checks_once_witness : NoDup (accounted half_run) /\ Z.of_nat (length (run_busy half_run)) <= 4.
Proof.
  assert (Hr : Forall event_ready half_way) by (pose proof (half_way_ready []) as H; simpl List.map in H; rewrite app_nil_r in H; exact H).
  assert (Hp : en_phase half_state = Working 0 false half_run) by (vm_compute; reflexivity).
  destruct (engine_checks_once sample_hash sample_seconds sample_config (at_hour 9 0) sample_store new_engine half_way half_state 0 false half_run new_engine_ok Hr half_way_runs Hp)
    as ([H1 _] & H2 & _). split; [exact H2|]. exact H1.
Defined.

Definition rest_state : Engine := default new_engine (engine_run sample_hash completes new_engine).
Lemma engine_comes_to_rest_witness : Acc (flip (own_step sample_hash)) rest_state.
Proof.
  assert (Hr : engine_run sample_hash completes new_engine = Some rest_state) by (vm_compute; reflexivity).
  destruct (engine_comes_to_rest sample_hash sample_seconds sample_config (at_hour 9 0) sample_store new_engine completes rest_state new_engine_ok Hr) as [H _]. exact H.
Defined.

(** A worker that can make every check a web port needs. *)
Definition web_worker : ScannerWorker := {|
  Worker_ID := "w1"; Worker_Name := "scanner"; Worker_SiteID := "hq"; Worker_Status := EndpointActive; Worker_CertificateSerial := "w1";
  Worker_AllowedCIDRs := ["10.0.0.0/24"]; Worker_AllowedPorts := [80; 443]; Worker_MaxConcurrent := 8; Worker_RateLimitPerSecond := 100;
  Worker_EnrolledAt := after (-86400); Worker_ExpiresAt := after 864000; Worker_LastSeenAt := Some (after (-60)); Worker_SoftwareVersion := "1.2.0";
  Worker_OperatingSystem := "linux"; Worker_Architecture := "amd64";
  Worker_Capabilities := [WorkerCapabilityTCPConnect; WorkerCapabilityServiceIdentification; WorkerCapabilityHTTP]; Worker_AvailableConcurrency := 4;
  Worker_Health := WorkerHealthHealthy; Worker_HealthMessage := ""; Worker_DispatchEnabled := true; Worker_RevokedAt := None; Worker_RevocationReason := "" |}.
Definition web_jobs : Db := {| db_workers := [web_worker]; db_dispatch_enabled := true; db_jobs := []; db_assignments := [];
  db_evidence := []; db_checkpoints := []; db_dead_letters := []; db_scans := [] |}.

Definition remote_policy : ReusableScanPolicy :=
  mkScanPolicy "remote" "Remote" "default" ["g1"] [80] true "manual" "" "UTC" "" "" false 0 0 ScanExecutionRemote "hq" None None.
Definition remote_scan : Scan :=
  mkScan "r1" "Remote" [test_target "10.0.0.7"] [80] StatusQueued "" [] [] [] 1 0 (after 10) None None "default" 2 "remote" [] 0 (Some (after 3600)) false 0.
Definition no_engine (scan : Scan) : st Stores unit := fun s => (Err "no engine", s).

Definition remote_launched : result unit * Stores := @launch test_crypto tt sample_hash no_engine remote_scan remote_policy (after 10) (after 11) (sample_store, web_jobs).

